(* ===== verification/_CoqProject ===== *)
-Q . S2P
Prelude.v
CxxString.v
ThreadPool.v
Url.v
Http.v
HttpProperties.v
SensorServer.v
WidthExtender.v
Bits.v
StrUtils.v
HttpClient.v
CpuModels.v
Capabilities.v
Registers.v
UncorePMU.v
ServerUncore.v
Doubles.v
Resctrl.v
CounterState.v
CorePMU.v
PcmUncore.v
Discovery.v
ServerMetrics.v
UncoreInit.v
UncoreCommands.v
RawEvents.v
RawProgram.v
Topology.v
Rdt.v
Bandwidth.v
ServerInit.v
Sampling.v
Json.v
Metrics.v
Printers.v
JsonPrinter.v
PromPrinter.v
SamplingProofs.v
ServerState.v
Aggregation.v
PciProbe.v
IioTopology.v
IioDiscovery.v
IioScan.v
EventFile.v
AccelEvents.v
EventTable.v
