(* ===== verification/Prelude.v ===== *)
(** * Verification of the Performance Counter Monitor

    The program reads the performance counters of Intel processors. Its library - the class
    [PCM] of [src/src/cpucounters.h] and [src/src/cpucounters.cpp] - identifies the
    processor, programs the counters of the cores and of the units outside of the cores
    (memory controllers, links, caches, I/O), samples them, and turns two samples into
    metrics. Tools print the metrics; [src/src/pcm-sensor-server.cpp] serves them over HTTP.
    All hardware is reached through registers: MSRs, PCI configuration space, memory-mapped
    I/O, and file descriptors of Linux perf.

    ** The files, from the bottom up

    - [Prelude]: integers of a machine width ([u64], [i32], ...), the result type [res] for
      code that throws, tactics and generic lemmas. [Bits]: bit ranges and register layouts
      ([types.h], [utils.h]). [CxxString]: the operations of [std::string] and [strtoull] that
      the parsers use. [StrUtils]: numbers, bit ranges, integer lists, tokens and table cells
      ([utils.cpp]). [Doubles]: binary64 arithmetic and its text.
    - [CpuModels], [Capabilities]: the model numbers, what [checkModel] accepts, and the
      predicates and tables that depend on the model ([cpucounters.h]).
    - [WidthExtender]: the object that makes a 64-bit counter of a narrower one, with its
      mutex and watchdog thread ([width_extender.h]).
    - [Registers]: the classes of registers over an abstract machine, and the monad [M] in
      which all hardware code runs.
    - [UncorePMU]: a unit outside of the cores: freeze, program, unfreeze, read.
    - [ServerUncore]: [ServerUncorePMUs], the units of a server socket that are found in PCI
      configuration space; [ServerInit]: its constructor, which finds them on the PCI buses.
    - [PcmUncore]: the units that [PCM] keeps itself - CBo, power control, U-box, IIO, IRP,
      CXL, accelerators: creation of the CBo units, programming, freezing, reading, clean-up;
      [ServerMetrics]: the events of the latency, memory and power metrics of all servers.
    - [Discovery]: the capabilities of a PCI device ([pci.h]), the tables of uncore units
      ([uncore_pmu_discovery.cpp]) and of TPMI features ([tpmi.cpp]), the units made of them.
    - [UncoreInit]: [initUncorePMUsDirect] with the register addresses of [types.h];
      [UncoreCommands]: what it creates goes through any sequence of programming calls.
    - [CorePMU]: [PCM::program] and [programCoreCounters], the protocol by which programs
      share the core counters ([PMUinUse], [cleanupPMU]).
    - [RawEvents]: the event descriptions of [pcm-raw] ([pcm-raw.cpp]) and the lookups in the
      telemetry database ([pmt.cpp]); [RawProgram]: [PCM::program] for groups of such events,
      and the registers they name.
    - [Resctrl]: the files of the resource control file system ([resctrl.cpp]); [Rdt]: the
      monitoring identifiers of the cores ([initRDT], [cleanupRDT]).
    - [CounterState]: [readAndAggregate] in all its modes (MSRs, Linux perf, top-down slots,
      resource control files), the classes of samples, their sums and differences and the
      getters that are integers; [Metrics]: those that are doubles.
    - [Topology]: the entries of the processors from CPUID and [discoverSystemTopology], with
      the tree of sockets, cores and threads ([topologyentry.h], [topology.h]).
    - [Bandwidth]: the free-running memory counters ([bw.cpp]) and the energy counters.
    - [Sampling]: [getSystemCounterState], [getSocketCounterState], [getAllCounterStates] with
      its tasks, and the [Aggregator] of the sensor server ([topology.cpp]); [SamplingProofs]:
      the result does not depend on the schedule; [Aggregation]: both compute the same sample.
      [ServerState]: [getServerUncoreCounterState] and its getters.
    - [PciProbe] ([lspci.h]), [IioTopology] ([pcm-iio-topology.cpp]): which devices are behind
      which I/O stack, with the proofs in [IioDiscovery] (what is found) and [IioScan] (when
      it ends, that the two scans agree).
    - [EventFile], [AccelEvents], [EventTable]: the tables of events of the I/O and accelerator
      tools ([load_events], [pcm-iio-pmu.cpp], [pcm-accel-common.cpp]).
    - [Url], [Http], [HttpProperties], [HttpClient], [SensorServer]: URLs, HTTP messages, the
      connection loop, the reading of responses, the callback that serves metrics, and the ring
      of samples it reads; [ThreadPool] runs the connections and the jobs of the samples
      ([threadpool.h]).
    - [Printers], [JsonPrinter], [PromPrinter]: the documents the server answers with; [Json]: the
      layout of the first as a tree, and a reader.

    Definitions carry the names of the code where possible, and the code's order of
    operations. The components meet in these places: [CorePMU] writes the selectors that
    [CounterState] later checks and reads ([programmed_core_is_checked]), and its default
    events are the positions from which the getters of [CounterState] read
    ([default_events_feed_getters]); [UncorePMU] and [CorePMU] are clients of the [Machine]
    interface of [Registers]; [CpuModels] gives [UncorePMU] addresses that do not collide;
    [UncoreInit] assembles the units of [PcmUncore] and [Discovery], and
    [init_then_program] runs one after the other; [Sampling] runs the readings of
    [CounterState], [ServerUncore], [PcmUncore] and [RawProgram] over the tree of [Topology],
    of which it uses only what [Aggregation.topology_ok] states; the printers walk that tree and
    print the metrics of a pair of samples; [Http] is generic in the callback, which
    [SensorServer] supplies.

    ** Conventions

    - The build is the Linux release build with Linux perf ([PCM_USE_PERF], [-fwrapv], C++17):
      signed overflow wraps. Its flags do not define [NDEBUG], so a failed assertion stops
      the program. Where the code behind an assertion would go on to an access out of bounds,
      or the assertion is on a result ([Metrics]), the model has an error in its place; the other
      assertions are left out, and the theorems speak of runs in which they hold.
    - Integers are [Z] and every operation that can leave the range of its type is wrapped.
      Strings are lists of [ascii]. Maps are [gmap]s where their order does not matter, else
      association lists.
    - An exception is [Throw]. An access outside of an array or through a null pointer,
      which C++ leaves undefined, is [Throw OutOfRange] or [Throw NullDereference], so that
      a theorem that code returns also says that it does neither. Failing allocations are not
      modelled, but for the length limit of the string that [readChunkedData] fills.
    - Hardware code is a function of the history of accesses ([hw], newest first): an
      instance of [Machine] answers a read from the history, so a theorem about every
      machine holds whatever the registers return. [memory_machine] is the machine whose
      registers keep what was written; on it the theorems speak of the values read back. The
      clock, the descriptors of perf and the files of resource control are ports too.
    - Threads are step relations over the shared state ([WidthExtender.Threads],
      [SensorServer.Aggregators]) or runs over explicit moves ([ThreadPool]), one step for each
      critical section or access. [PCM::program] starts a thread for each core; as each
      accesses only the MSRs of its core, the model runs them in order. The tasks of
      [getAllCounterStates] are lists of calls whose interleavings [Sampling.interleaving]
      defines; the machine of their theorems answers every read with the same value ([Still]).
    - Fuel: the loops whose recursion is not structural take as much fuel as characters are
      left to read ([Http.header_fuel]), bits are left ([weight32]) or requests are allowed
      ([Http.execute_loop]); the walk over PCI capabilities takes one more than the 1024
      offsets there are ([capability_fuel]). In the scans of PCI buses the result of a loop that
      has used up its fuel is [None], and a fuel of more than 256, the number of buses, is enough
      for the loops and for the nesting of bridges ([discovery_ends]). Theorems say that the fuel is
      enough; where the code goes round for long or forever, [truncated_chunk_fills_memory]
      and [walk_ends_or_cycles] say how long.

    ** The theorems

    - Counting: a counter value that is read is the number of events, whatever threads
      interleave and wherever the hardware counter wraps ([read_tracks_hardware_counter],
      [measured_counts_exact], and the lemma [aggregated_difference_exact]); the counters
      programmed through MSRs stand still while they are read ([counters_frozen_while_read]);
      each getter of a server state reads the register it names ([server_state_measured]).
    - Programming: the writes of a unit or core are exactly those of a specification, and where
      the code freezes a unit, nothing but its control is written while it counts
      ([unit_programming_disciplined], [jobs_disciplined], [programCoreCounters_refines_log],
      [accelerators_programmed], [programmed_unit_state]); a machine that answers anything makes
      the programming neither fail nor touch a link that is not there ([program_server_safe],
      [programXPI_keeps_answering_links]); what is cleaned up, and what is not
      ([cleanup_zeroes]).
    - Creation: the units that the constructor makes - at fixed addresses, from tables in
      memory, on the PCI bus - have the registers that programming needs ([init_then_program],
      [created_units_programmable], [programCbo_after_init], [discovered_units_programmed],
      [fixed_units_apart]), and a socket gets the units on its own buses
      ([socket_gets_its_buses]); the tables are read as they are ([discovery_reads_table],
      [walk_ends_or_cycles], and the lemma [tpmi_registers]).
    - Raw events: a file of events is cut into groups that lose nothing and keep the limits of
      the tool ([addEvents_groups], [events_file_roundtrip]), groups without core events can be
      programmed ([accepted_group_programmed]), and the events of registers are the differences
      of their values (the lemmas [register_events_measured], [free_running_wraps]).
    - Resource monitoring: cores are monitored apart ([rdt_cores_apart]).
    - Topology: the tree has every thread once and the structure of the machine
      ([discovered_topology], and the lemmas [every_thread_once], [domain_ids_recompose]).
    - Sampling: a sample does not depend on how threads and jobs are scheduled
      ([sample_independent_of_schedule]), and the sensor server takes the same one as
      [getAllCounterStates] but for parts that are named ([dispatch_agrees]).
    - Sharing: a unit in use is left alone ([busy_unit_untouched]), a programmed one is seen
      by others and a released one is free ([unit_claimed_then_released]).
    - I/O stacks: what the discovery lists, when it ends, that the scans of the platforms agree
      ([discovered_stacks], [discovery_ends], [scans_agree]); the tables of events of the I/O
      tools are read as they are written ([event_table_read_back], [ccr_fields_independent]).
    - Text: parsing inverts printing for URLs, requests, responses, numbers, rows and lists
      ([parse_print], [request_roundtrip], [response_roundtrip], [read_number_accepts], ...),
      what is not accepted is rejected with the documented exception ([parse_outcome]), and
      readers of JSON and of the exposition format get back what the printers were given
      ([printed_json_reads_back], [exposition_reads_back]).
    - The server: no request makes an exception escape that a callback has not thrown, or an
      answer be incomplete ([execute_answers]); the samples of one answer belong together
      ([samples_consistent]); the shutdown of the pool ends in boundedly many steps, with all
      threads joined or - if items wait for jobs - with a hang ([shutdown_joins]).

    ** What is left out

    The CPUID instruction, device files, PCI and MMIO drivers, sockets, TLS and the kernel side
    of Linux perf are behind [Machine], the stream of [Http] or parameters. Not modelled are:
    the units that are programmed through Linux perf (files of sysfs and system calls), the
    uncore of Nehalem and Beckton (the constructor and programming of two retired families), the
    generator of the Grafana dashboard (a fixed text with a few numbers), the command-line tools
    with their displays (also that of pcm-iio with the database of PCI names), the start of the
    server as a daemon, and the code for Windows, macOS and FreeBSD. The manifest lists every
    part. *)

From stdpp Require Export prelude gmap strings.
From Stdlib Require Export ZArith Lia.

#[global] Set Default Goal Selector "!".
Declare Scope pcm_scope.
Delimit Scope pcm_scope with pcm.
Local Open Scope Z_scope.

Create HintDb pcm.
Create Rewrite HintDb pcm_wrap.
Create Rewrite HintDb pcm_bits.

(** * Machine integers

    A [w]-bit unsigned C++ integer is a [Z] in [[0, 2^w)]; every operation
    that can leave this range wraps explicitly through [wrapN]. *)

Definition wrapN (w x : Z) : Z := x mod 2 ^ w.
Abbreviation u8 := (wrapN 8).
Abbreviation u16 := (wrapN 16).
Abbreviation u32 := (wrapN 32).
Abbreviation u64 := (wrapN 64).

(** Conversion to a [w]-bit two's complement signed integer. *)
Definition swrapN (w x : Z) : Z := (x + 2 ^ (w - 1)) mod 2 ^ w - 2 ^ (w - 1).
Abbreviation i32 := (swrapN 32).
Abbreviation i64 := (swrapN 64).

Definition fits (w x : Z) : Prop := 0 <= x < 2 ^ w.

#[export] Instance fits_dec w x : Decision (fits w x).
Proof. unfold fits. apply _. Defined.

Lemma wrapN_fits w x : 0 <= w -> fits w (wrapN w x).
Proof. intros. apply Z.mod_pos_bound, Z.pow_pos_nonneg; lia. Qed.

Lemma wrapN_small w x : fits w x -> wrapN w x = x.
Proof. intros. by apply Z.mod_small. Qed.

Lemma wrapN_wrapN w x : 0 <= w -> wrapN w (wrapN w x) = wrapN w x.
Proof. intros. by apply wrapN_small, wrapN_fits. Qed.

Lemma wrapN_add_l w x y : 0 <= w -> wrapN w (wrapN w x + y) = wrapN w (x + y).
Proof. intros. apply Zplus_mod_idemp_l. Qed.

Lemma wrapN_add_r w x y : 0 <= w -> wrapN w (x + wrapN w y) = wrapN w (x + y).
Proof. intros. apply Zplus_mod_idemp_r. Qed.

Lemma wrapN_sub_l w x y : 0 <= w -> wrapN w (wrapN w x - y) = wrapN w (x - y).
Proof. intros. apply Zminus_mod_idemp_l. Qed.

Lemma wrapN_sub_r w x y : 0 <= w -> wrapN w (x - wrapN w y) = wrapN w (x - y).
Proof. intros. apply Zminus_mod_idemp_r. Qed.

Lemma wrapN_period w x k : 0 <= w -> wrapN w (x + k * 2 ^ w) = wrapN w x.
Proof. intros. apply Z.mod_add, Z.pow_nonzero; lia. Qed.

(** A value that agrees with [x] modulo [2^w] up to a known bound is [x]. *)
Lemma wrapN_unique w x y : 0 <= w -> fits w x -> wrapN w y = wrapN w x -> wrapN w y = x.
Proof. intros ? Hx ->. by apply wrapN_small. Qed.

(** Congruence modulo [2^w]: arithmetic on [w]-bit integers is arithmetic on [Z]
    up to this equivalence, and wrapped subterms are rewritten away in it. *)
Definition cong (w x y : Z) : Prop := wrapN w x = wrapN w y.

#[export] Instance cong_equiv w : Equivalence (cong w).
Proof. unfold cong. split; red; congruence. Qed.

#[export] Instance cong_add w : Proper (cong w ==> cong w ==> cong w) Z.add.
Proof.
  intros x x' Hx y y' Hy. unfold cong, wrapN in *. by rewrite Zplus_mod, Hx, Hy, <- Zplus_mod.
Qed.

#[export] Instance cong_sub w : Proper (cong w ==> cong w ==> cong w) Z.sub.
Proof.
  intros x x' Hx y y' Hy. unfold cong, wrapN in *. by rewrite Zminus_mod, Hx, Hy, <- Zminus_mod.
Qed.

#[export] Instance cong_mul w : Proper (cong w ==> cong w ==> cong w) Z.mul.
Proof.
  intros x x' Hx y y' Hy. unfold cong, wrapN in *. by rewrite Zmult_mod, Hx, Hy, <- Zmult_mod.
Qed.

#[export] Instance cong_wrapN w : Proper (cong w ==> eq) (wrapN w).
Proof. by intros x y. Qed.

Lemma cong_wrap w x : 0 <= w -> cong w (wrapN w x) x.
Proof. intros. by apply wrapN_wrapN. Qed.

Lemma cong_eq w x y : cong w x y -> wrapN w x = wrapN w y.
Proof. done. Qed.

(** Proves [wrapN w x = wrapN w y] where the two sides differ by inner wraps. *)
Ltac wrap_ring w :=
  apply (cong_eq w); repeat setoid_rewrite (cong_wrap w); [|lia..];
  unfold cong; f_equal; ring.

Lemma swrapN_small w x : 0 < w -> - 2 ^ (w - 1) <= x < 2 ^ (w - 1) -> swrapN w x = x.
Proof.
  intros Hw Hx. unfold swrapN.
  assert (2 ^ w = 2 * 2 ^ (w - 1)) as E.
  { rewrite <- Z.pow_succ_r by lia. f_equal; lia. }
  rewrite Z.mod_small; lia.
Qed.

#[export] Hint Resolve wrapN_fits : pcm.
#[export] Hint Rewrite wrapN_wrapN wrapN_add_l wrapN_add_r wrapN_sub_l wrapN_sub_r
  using lia : pcm_wrap.

(** * Bits *)

Lemma testbit_wrapN w x i : 0 <= w -> Z.testbit (wrapN w x) i = (i <? w) && Z.testbit x i.
Proof.
  intros. unfold wrapN. destruct (Z.ltb_spec i w); simpl.
  - destruct (Z.neg_nonneg_cases i).
    + by rewrite !Z.testbit_neg_r by lia.
    + by apply Z.mod_pow2_bits_low.
  - apply Z.mod_pow2_bits_high; lia.
Qed.

Lemma testbit_ones w i : 0 <= w -> 0 <= i -> Z.testbit (Z.ones w) i = (i <? w).
Proof.
  intros. destruct (Z.ltb_spec i w).
  - apply Z.ones_spec_low; lia.
  - apply Z.ones_spec_high; lia.
Qed.

Lemma testbit_fits w x i : 0 <= w -> fits w x -> w <= i -> Z.testbit x i = false.
Proof.
  intros ? Hx ?. rewrite <- (wrapN_small w x Hx), testbit_wrapN by lia.
  by destruct (Z.ltb_spec i w); [lia|].
Qed.

Lemma fits_testbit w x :
  0 <= w -> 0 <= x -> (forall i, w <= i -> Z.testbit x i = false) -> fits w x.
Proof.
  intros Hw Hx Hhi. enough (wrapN w x = x) as <- by by apply wrapN_fits.
  apply Z.bits_inj'. intros i Hi. rewrite testbit_wrapN by lia.
  destruct (Z.ltb_spec i w); [done|]. by rewrite Hhi.
Qed.

Lemma fits_land_ones w x : 0 <= w -> Z.land x (Z.ones w) = wrapN w x.
Proof. intros. by apply Z.land_ones. Qed.

Lemma fits_mono w w' x : 0 <= w <= w' -> fits w x -> fits w' x.
Proof. unfold fits. intros ? ?. pose proof (Z.pow_le_mono_r 2 w w'). lia. Qed.

Lemma fits_lor w x y : 0 <= w -> fits w x -> fits w y -> fits w (Z.lor x y).
Proof.
  intros Hw Hx Hy. apply fits_testbit; [done| |].
  - apply Z.lor_nonneg. unfold fits in *; lia.
  - intros i Hi. rewrite Z.lor_spec, (testbit_fits w x), (testbit_fits w y); done.
Qed.

Lemma fits_land_l w x y : 0 <= w -> fits w x -> fits w (Z.land x y).
Proof.
  intros Hw Hx. apply fits_testbit; [done| |].
  - apply Z.land_nonneg. unfold fits in *; lia.
  - intros i Hi. rewrite Z.land_spec, (testbit_fits w x); done.
Qed.


#[export] Hint Rewrite Z.land_spec Z.lor_spec Z.lxor_spec Z.ldiff_spec Z.bits_0
  andb_false_r andb_true_r orb_false_r orb_true_r andb_diag orb_diag : pcm_bits.
#[export] Hint Rewrite testbit_wrapN testbit_ones Z.shiftr_spec Z.shiftl_spec Z.lnot_spec
  using lia : pcm_bits.

(** Splits every comparison of bit positions in the goal. *)
Ltac split_positions :=
  repeat match goal with
  | |- context [?a <? ?b] => destruct (Z.ltb_spec a b); try lia; simpl
  | |- context [?a <=? ?b] => destruct (Z.leb_spec a b); try lia; simpl
  end.

(** Proves an equality of integers bit by bit. *)
Ltac bitwise :=
  apply Z.bits_inj'; intros ?i ?Hi; autorewrite with pcm_bits; split_positions;
  autorewrite with pcm_bits; try done.

(** * Results of code that may throw

    The C++ exception classes that occur in the modelled functions. [abort]
    is a failed [assert] or a call of [exit]. *)
Inductive exn :=
  | InvalidArgument | OutOfRange | RuntimeError | LengthError | StdException | Abort_
  | NullDereference.

#[export] Instance exn_eq_dec : EqDecision exn.
Proof. solve_decision. Defined.

Inductive res (A : Type) := Ok (a : A) | Throw (e : exn).
Arguments Ok {A} _.
Arguments Throw {A} _.

#[export] Instance res_ret : MRet res := fun A => Ok.
#[export] Instance res_bind : MBind res := fun A B f m =>
  match m with Ok a => f a | Throw e => Throw e end.

#[export] Instance res_eq_dec `{EqDecision A} : EqDecision (res A).
Proof. solve_decision. Defined.

Definition is_ok {A} (r : res A) : bool := match r with Ok _ => true | Throw _ => false end.

Lemma bind_ok {A B} (m : res A) (f : A -> res B) b :
  m ≫= f = Ok b <-> exists a, m = Ok a /\ f a = Ok b.
Proof.
  split.
  - destruct m; simpl; [eauto|done].
  - by intros (a & -> & ?).
Qed.

(** [assert(b)] of the sources (debug builds). *)
Definition assert_ (b : bool) : res unit := if b then Ok tt else Throw Abort_.

(** Inverts the [Ok] results in the context. *)
Ltac inv_ok :=
  repeat match goal with
  | H : mbind _ _ = Ok _ |- _ => apply bind_ok in H as (? & ? & ?)
  | H : Ok _ = Ok _ |- _ => injection H as H; subst
  | H : Throw _ = Ok _ |- _ => discriminate H
  | H : mret _ = Ok _ |- _ => injection H as H; subst
  end.
