(* ===== verification/CxxString.v ===== *)
(** The operations of [std::string] and of the number conversions of the C++ library that
    the parsers of [src/src/pcm-sensor-server.cpp] and [src/src/utils.cpp] use, on lists
    of characters, in the C locale of Linux; with the lemmas on positions that the proofs
    about these parsers share. *)

From S2P Require Import Prelude.
From Stdlib Require Export Ascii.
From Stdlib Require Strings.String.
Local Open Scope char_scope.
Local Open Scope Z_scope.
Local Open Scope list_scope.

(** A [std::string]: any bytes, the terminating zero not counted. *)
Abbreviation str := (list ascii).

(** A string literal. *)
Definition lit (s : string) : str := Stdlib.Strings.String.list_ascii_of_string s.

Create HintDb cxx.
Create Rewrite HintDb cxx.

(** * Characters *)

Definition code (c : ascii) : Z := Z.of_N (N_of_ascii c).
Definition byte (n : Z) : ascii := ascii_of_N (Z.to_N n).

Definition in_range (a b : ascii) (c : ascii) : bool := (code a <=? code c) && (code c <=? code b).

Definition isdigit (c : ascii) : bool := in_range "0" "9" c.
Definition isalnum (c : ascii) : bool := isdigit c || in_range "A" "Z" c || in_range "a" "z" c.
(** Space, and the characters from tab to carriage return. *)
Definition isspace (c : ascii) : bool := (code c =? 32) || ((9 <=? code c) && (code c <=? 13)).

Definition CR : ascii := "013".
Definition LF : ascii := "010".
Definition HTAB : ascii := "009".

Lemma code_range c : 0 <= code c < 256.
Proof. destruct c as [[] [] [] [] [] [] [] []]; vm_compute; split; congruence. Qed.

Lemma byte_code c : byte (code c) = c.
Proof. unfold byte, code. by rewrite N2Z.id, ascii_N_embedding. Qed.

Lemma code_byte n : 0 <= n < 256 -> code (byte n) = n.
Proof. intros. unfold byte, code. rewrite N_ascii_embedding by lia. lia. Qed.

(** A property of characters, checked on all of them. *)
Definition all_chars : list ascii := map (fun n => byte (Z.of_nat n)) (seq 0 256).

Lemma all_chars_complete c : c ∈ all_chars.
Proof.
  rewrite <- (byte_code c). pose proof (code_range c). unfold all_chars.
  apply list_elem_of_In, in_map_iff. exists (Z.to_nat (code c)). split; [f_equal; lia|].
  apply in_seq. lia.
Qed.

Lemma forall_chars (P : ascii -> bool) : forallb P all_chars = true -> forall c, P c = true.
Proof.
  rewrite forallb_forall. intros H c. apply H, list_elem_of_In, all_chars_complete.
Qed.

(** * Positions *)

Definition size (s : str) : Z := Z.of_nat (length s).
Definition npos : Z := 2 ^ 64 - 1.

(** [s.max_size()] *)
Definition max_size : Z := 2 ^ 63 - 1.

(** The characters from position [pos] on. *)
Definition suffix (s : str) (pos : Z) : str := drop (Z.to_nat (Z.min pos (size s))) s.
Definition prefix (s : str) (n : Z) : str := take (Z.to_nat (Z.min n (size s))) s.

Fixpoint index_of (p : ascii -> bool) (s : str) : option nat :=
  match s with
  | [] => None
  | c :: s' => if p c then Some O else S <$> index_of p s'
  end.

Definition position (pos : Z) (i : option nat) : Z :=
  match i with Some i => pos + Z.of_nat i | None => npos end.

(** [s.find(c, pos)] *)
Definition find (s : str) (c : ascii) (pos : Z) : Z :=
  position pos (index_of (Ascii.eqb c) (suffix s pos)).

(** [s.find_first_not_of(set)] *)
Definition find_first_not_of (s : str) (set : str) : Z :=
  position 0 (index_of (fun c => negb (existsb (Ascii.eqb c) set)) s).

(** [s.find(pattern, pos)] for a pattern that is not empty. *)
Fixpoint starts_with (pattern s : str) : bool :=
  match pattern, s with
  | [], _ => true
  | p :: pattern', c :: s' => Ascii.eqb p c && starts_with pattern' s'
  | _, [] => false
  end.

Fixpoint index_of_sub (pattern s : str) : option nat :=
  if starts_with pattern s then Some O
  else match s with [] => None | _ :: s' => S <$> index_of_sub pattern s' end.

Definition find_sub (s pattern : str) (pos : Z) : Z :=
  position pos (index_of_sub pattern (suffix s pos)).

(** [s.rfind(c, pos)]: the last one at or before [pos]. *)
Fixpoint last_index_of (p : ascii -> bool) (s : str) : option nat :=
  match s with
  | [] => None
  | c :: s' =>
      match last_index_of p s' with
      | Some i => Some (S i)
      | None => if p c then Some O else None
      end
  end.

Definition rfind (s : str) (c : ascii) (pos : Z) : Z :=
  position 0 (last_index_of (Ascii.eqb c) (prefix s (pos + 1))).

(** [s.substr(pos, n)] *)
Definition substr (s : str) (pos n : Z) : res str :=
  if size s <? pos then Throw OutOfRange else Ok (prefix (suffix s pos) n).

(** [s.erase(0, n)] *)
Definition erase_front (s : str) (n : Z) : str := suffix s n.

(** [s[0]], the terminating zero for the empty string. *)
Definition front (s : str) : ascii := match s with [] => Ascii.zero | c :: _ => c end.

Definition count (c : ascii) (s : str) : Z := size (filter (fun x => Ascii.eqb c x = true) s).

(** * Numbers *)

(** The value of a digit, in any base up to 16. *)
Definition digit_value (c : ascii) : option Z :=
  if isdigit c then Some (code c - 48)
  else if in_range "A" "F" c then Some (code c - 55)
  else if in_range "a" "f" c then Some (code c - 87)
  else None.

Definition is_digit_of (base : Z) (c : ascii) : bool :=
  match digit_value c with Some d => d <? base | None => false end.

(** The longest prefix of digits, read from a value [acc]. *)
Fixpoint read_digits (base : Z) (s : str) (acc : Z) : Z :=
  match s with
  | c :: s' =>
      match digit_value c with
      | Some d => if d <? base then read_digits base s' (acc * base + d) else acc
      | None => acc
      end
  | [] => acc
  end.

Fixpoint skip_spaces (s : str) : str :=
  match s with c :: s' => if isspace c then skip_spaces s' else s | [] => [] end.

Definition skip_sign (s : str) : bool * str :=
  match s with
  | c :: s' => if Ascii.eqb c "-" then (true, s') else if Ascii.eqb c "+" then (false, s') else (false, s)
  | [] => (false, [])
  end.

(** The optional [0x] of base 16. *)
Definition skip_prefix (base : Z) (s : str) : str :=
  match s with
  | z :: x :: d :: s' =>
      if (base =? 16) && Ascii.eqb z "0" && (Ascii.eqb x "x" || Ascii.eqb x "X") && is_digit_of 16 d
      then d :: s' else s
  | _ => s
  end.

(** [strtoull] before its range check: the sign and the absolute value, [None] when there
    is no digit. *)
Definition strto (base : Z) (s : str) : option (bool * Z) :=
  let '(neg, s) := skip_sign (skip_spaces s) in
  let s := skip_prefix base s in
  match s with
  | c :: _ => if is_digit_of base c then Some (neg, read_digits base s 0) else None
  | [] => None
  end.

(** [std::stoull(s, &pos, base)]; a minus sign negates the result in 64 bits. *)
Definition stoull (base : Z) (s : str) : res Z :=
  match strto base s with
  | None => Throw InvalidArgument
  | Some (neg, v) => if v <? 2 ^ 64 then Ok (if neg : bool then u64 (- v) else v) else Throw OutOfRange
  end.

(** [std::stoll(s, nullptr, base)] *)
Definition stoll (base : Z) (s : str) : res Z :=
  match strto base s with
  | None => Throw InvalidArgument
  | Some (neg, v) =>
      let v := if neg : bool then - v else v in
      if (- 2 ^ 63 <=? v) && (v <? 2 ^ 63) then Ok v else Throw OutOfRange
  end.

(** [std::to_string] of an unsigned number below [10^20]. *)
Fixpoint decimal (fuel : nat) (n : Z) : str :=
  match fuel with
  | O => []
  | S fuel' => if n <? 10 then [byte (48 + n)] else decimal fuel' (n / 10) ++ [byte (48 + n mod 10)]
  end.

Definition to_string (n : Z) : str := decimal 20 n.

(** * Lemmas *)

Lemma size_app a b : size (a ++ b) = size a + size b.
Proof. unfold size. rewrite length_app. lia. Qed.

Lemma size_cons c a : size (c :: a) = 1 + size a.
Proof. unfold size. simpl. lia. Qed.

Lemma size_nonneg s : 0 <= size s.
Proof. unfold size. lia. Qed.

Lemma size_nil : size [] = 0.
Proof. done. Qed.

#[export] Hint Rewrite size_app size_cons size_nil : cxx.
#[export] Hint Resolve size_nonneg : cxx.

Lemma suffix_app a b : suffix (a ++ b) (size a) = b.
Proof.
  unfold suffix. rewrite Z.min_l by (rewrite size_app; pose proof (size_nonneg b); lia).
  unfold size. by rewrite Nat2Z.id, drop_app_length.
Qed.

Lemma suffix_0 s : suffix s 0 = s.
Proof. unfold suffix. by rewrite Z.min_l by apply size_nonneg. Qed.

Lemma suffix_all s n : size s <= n -> suffix s n = [].
Proof.
  intros. unfold suffix. rewrite Z.min_r by done. unfold size. by rewrite Nat2Z.id, drop_all.
Qed.

Lemma prefix_app a b : prefix (a ++ b) (size a) = a.
Proof.
  unfold prefix. rewrite Z.min_l by (rewrite size_app; pose proof (size_nonneg b); lia).
  unfold size. by rewrite Nat2Z.id, take_app_length.
Qed.

Lemma prefix_all s n : size s <= n -> prefix s n = s.
Proof.
  intros. unfold prefix. rewrite Z.min_r by done. unfold size. by rewrite Nat2Z.id, take_ge.
Qed.

(** The part [b] of [a ++ b ++ c]. *)
Lemma substr_middle a b c pos n :
  pos = size a -> n = size b -> substr (a ++ b ++ c) pos n = Ok b.
Proof.
  intros -> ->. unfold substr. rewrite suffix_app, prefix_app, !size_app.
  destruct (Z.ltb_spec (size a + (size b + size c)) (size a)); [|done].
  pose proof (size_nonneg b); pose proof (size_nonneg c); lia.
Qed.

(** The part [b] of [a ++ b], for any count that reaches the end. *)
Lemma substr_end a b pos n : pos = size a -> size b <= n -> substr (a ++ b) pos n = Ok b.
Proof.
  intros -> Hn. unfold substr. rewrite suffix_app, prefix_all, size_app by done.
  destruct (Z.ltb_spec (size a + size b) (size a)); [|done]. pose proof (size_nonneg b); lia.
Qed.

(** The part [b] of [a ++ b ++ c], by its length or up to the end. *)
Lemma substr_upto a b c pos n :
  pos = size a -> n = size b \/ (c = [] /\ size b <= n) -> substr (a ++ b ++ c) pos n = Ok b.
Proof.
  intros Hp [Hn|[-> Hn]]; [by apply substr_middle|]. rewrite app_nil_r. by apply substr_end.
Qed.

Lemma substr_front a b n : n = size a \/ (b = [] /\ size a <= n) -> substr (a ++ b) 0 n = Ok a.
Proof. intros. by apply (substr_upto [] a b). Qed.

Lemma index_of_app p a b :
  forallb (fun c => negb (p c)) a = true ->
  index_of p (a ++ b) = (fun i => (length a + i)%nat) <$> index_of p b.
Proof.
  induction a as [|c a IH]; simpl.
  - by destruct (index_of p b).
  - rewrite andb_true_iff, negb_true_iff. intros [-> Ha]. rewrite IH by done. by destruct (index_of p b).
Qed.

Lemma index_of_none p s : forallb (fun c => negb (p c)) s = true -> index_of p s = None.
Proof.
  intros H. rewrite <- (app_nil_r s). by rewrite index_of_app.
Qed.

Lemma index_of_some p s i :
  index_of p s = Some i ->
  exists a c b, s = a ++ c :: b /\ length a = i /\ p c = true /\ forallb (fun c => negb (p c)) a = true.
Proof.
  revert i. induction s as [|c s IH]; intros i; simpl; [done|]. destruct (p c) eqn:E.
  - intros [= <-]. by exists [], c, s.
  - destruct (index_of p s) as [j|] eqn:Ej; [|done]. intros [= <-].
    destruct (IH j eq_refl) as (a & d & b & -> & <- & ? & ?).
    exists (c :: a), d, b. repeat split; [done|]. simpl. by rewrite E.
Qed.

(** [c] does not occur in [s]. *)
Definition lacks (c : ascii) (s : str) : bool := forallb (fun x => negb (Ascii.eqb c x)) s.

Lemma lacks_cons c x s : lacks c (x :: s) = negb (Ascii.eqb c x) && lacks c s.
Proof. done. Qed.

Lemma lacks_app c a b : lacks c (a ++ b) = lacks c a && lacks c b.
Proof. apply forallb_app. Qed.

Definition free_of (set s : str) : bool := forallb (fun x => negb (existsb (Ascii.eqb x) set)) s.

Lemma free_of_lacks set c s : In c set -> free_of set s = true -> lacks c s = true.
Proof.
  unfold free_of, lacks. rewrite !forallb_forall. intros Hc H x Hx. specialize (H x Hx).
  destruct (Ascii.eqb_spec c x) as [<-|]; [|done]. apply negb_true_iff in H.
  rewrite (proj2 (existsb_exists _ _)) in H; [done|]. exists c. split; [done|apply Ascii.eqb_refl].
Qed.

Lemma find_at a c b : lacks c a = true -> find (a ++ c :: b) c 0 = size a.
Proof.
  intros. unfold find. rewrite suffix_0, index_of_app by done. simpl. rewrite Ascii.eqb_refl. simpl.
  unfold size. f_equal. lia.
Qed.

Lemma find_none s c pos : 0 <= pos -> lacks c s = true -> find s c pos = npos.
Proof.
  intros Hp H. unfold find. rewrite index_of_none; [done|]. unfold suffix.
  rewrite <- (take_drop (Z.to_nat (Z.min pos (size s))) s) in H.
  rewrite lacks_app, andb_true_iff in H. apply H.
Qed.

(** Searches that start after [a]. *)
Lemma find_at_from a b c d pos :
  pos = size a -> lacks c b = true -> find (a ++ b ++ c :: d) c pos = size a + size b.
Proof.
  intros -> H. unfold find. rewrite suffix_app, index_of_app by done. simpl.
  rewrite Ascii.eqb_refl. simpl. unfold size. lia.
Qed.

Lemma find_none_from a s c pos : pos = size a -> lacks c s = true -> find (a ++ s) c pos = npos.
Proof. intros -> H. unfold find. by rewrite suffix_app, index_of_none. Qed.

(** What a successful search says. *)
Lemma find_inv s c : find s c 0 < size s ->
  size s <= npos ->
  exists a b, s = a ++ c :: b /\ find s c 0 = size a /\ lacks c a = true.
Proof.
  unfold find. rewrite suffix_0. destruct (index_of _ s) as [i|] eqn:E; simpl; [|intros; lia].
  intros _ _. destruct (index_of_some _ _ _ E) as (a & d & b & -> & <- & Hd & Ha).
  apply Ascii.eqb_eq in Hd as <-. exists a, b. by split.
Qed.

Lemma find_absent s c : size s <= npos -> find s c 0 = npos -> lacks c s = true.
Proof.
  unfold find. rewrite suffix_0. destruct (index_of _ s) as [i|] eqn:E; simpl.
  - intros Hs Hn. destruct (index_of_some _ _ _ E) as (a & d & b & -> & <- & _ & _).
    rewrite size_app, size_cons in Hs. unfold size in *. lia.
  - intros _ _. clear -E. induction s as [|x s IH]; [done|]. simpl in *.
    destruct (Ascii.eqb c x); [done|]. simpl. apply IH. by destruct (index_of _ s).
Qed.

Lemma find_cases s c : size s <= npos ->
  (find s c 0 = npos /\ lacks c s = true) \/
  exists a b, s = a ++ c :: b /\ find s c 0 = size a /\ lacks c a = true.
Proof.
  intros Hs. destruct (decide (find s c 0 = npos)) as [E|E].
  - left. split; [done|]. by apply find_absent.
  - right. apply find_inv; [|done]. revert E. unfold find. rewrite suffix_0.
    destruct (index_of _ s) as [i|] eqn:E; simpl; [|done]. intros _.
    destruct (index_of_some _ _ _ E) as (a & d & b & -> & <- & _ & _). rewrite size_app, size_cons.
    unfold size. lia.
Qed.

Lemma last_index_of_none p s : forallb (fun c => negb (p c)) s = true -> last_index_of p s = None.
Proof.
  induction s as [|c s IH]; simpl; [done|]. rewrite andb_true_iff, negb_true_iff. intros [-> Hs].
  by rewrite IH.
Qed.

Lemma last_index_of_at p a c b :
  p c = true -> forallb (fun c => negb (p c)) b = true -> last_index_of p (a ++ c :: b) = Some (length a).
Proof.
  intros Hc Hb. induction a as [|d a IH]; simpl.
  - by rewrite last_index_of_none, Hc.
  - by rewrite IH.
Qed.

Lemma prefix_app_le a b n : n <= size a -> prefix (a ++ b) n = prefix a n.
Proof.
  intros. unfold prefix. rewrite !Z.min_l by (rewrite ?size_app; pose proof (size_nonneg b); lia).
  apply take_app_le. unfold size in *. lia.
Qed.

(** [rfind] in [a ++ c :: b ++ d], from inside [c :: b ++ d], with no [c] after the one shown. *)
Lemma rfind_at a c b d pos :
  lacks c b = true -> pos = size (a ++ c :: b) - 1 -> rfind (a ++ c :: b ++ d) c pos = size a.
Proof.
  intros Hb ->. unfold rfind. replace (a ++ c :: b ++ d) with ((a ++ c :: b) ++ d) by by rewrite <- app_assoc.
  rewrite prefix_app_le by lia. rewrite prefix_all by lia.
  rewrite last_index_of_at; [done|apply Ascii.eqb_refl|done].
Qed.

Lemma rfind_none s c pos : lacks c s = true -> rfind s c pos = npos.
Proof.
  intros H. unfold rfind, prefix. rewrite last_index_of_none; [done|].
  rewrite <- (take_drop (Z.to_nat (Z.min (pos + 1) (size s))) s) in H.
  rewrite lacks_app, andb_true_iff in H. apply H.
Qed.

Lemma rfind_prefix_none a b c pos : pos + 1 <= size a -> lacks c a = true -> rfind (a ++ b) c pos = npos.
Proof. intros. unfold rfind. rewrite prefix_app_le by done. by apply (rfind_none a). Qed.

Lemma rfind_whole a c b pos :
  lacks c b = true -> size (a ++ c :: b) <= pos + 1 -> rfind (a ++ c :: b) c pos = size a.
Proof.
  intros Hb Hp. unfold rfind. rewrite prefix_all by done.
  rewrite last_index_of_at; [done|apply Ascii.eqb_refl|done].
Qed.

Lemma starts_with_app pattern b : starts_with pattern (pattern ++ b) = true.
Proof. induction pattern as [|c pattern IH]; [done|]. simpl. by rewrite Ascii.eqb_refl. Qed.

Lemma find_sub_here a pattern b pos : pos = size a -> find_sub (a ++ pattern ++ b) pattern pos = pos.
Proof.
  intros ->. unfold find_sub. rewrite suffix_app.
  assert (index_of_sub pattern (pattern ++ b) = Some O) as ->.
  { pose proof (starts_with_app pattern b) as H. destruct (pattern ++ b) as [|c s]; simpl; by rewrite H. }
  simpl. lia.
Qed.

(** ** Where searches end *)

Lemma index_of_lt p s i : index_of p s = Some i -> (i < length s)%nat.
Proof.
  intros H. destruct (index_of_some p s i H) as (a & c & b & -> & <- & _). rewrite length_app. simpl. lia.
Qed.

Lemma last_index_of_lt p s i : last_index_of p s = Some i -> (i < length s)%nat.
Proof.
  revert i. induction s as [|c s IH]; simpl; [done|]. intros i. destruct (last_index_of p s) as [j|].
  - intros [= <-]. specialize (IH j eq_refl). lia.
  - destruct (p c); [|done]. intros [= <-]. lia.
Qed.

Lemma index_of_sub_le pattern s i : index_of_sub pattern s = Some i -> (i + length pattern <= length s)%nat.
Proof.
  assert (Hs : forall p s, starts_with p s = true -> (length p <= length s)%nat).
  { induction p as [|c p IH]; intros [|d t]; simpl; try lia; try done.
    rewrite andb_true_iff. intros [_ H]. specialize (IH _ H). lia. }
  revert i. induction s as [|c s IH]; intros i; simpl.
  - destruct (starts_with pattern []) eqn:E; [|done]. intros [= <-]. apply (Hs _ [] E).
  - destruct (starts_with pattern (c :: s)) eqn:E.
    + intros [= <-]. apply (Hs _ (c :: s) E).
    + destruct (index_of_sub pattern s) as [j|]; [|done]. intros [= <-]. specialize (IH j eq_refl). lia.
Qed.

Lemma length_suffix s pos : 0 <= pos <= size s -> Z.of_nat (length (suffix s pos)) = size s - pos.
Proof. intros. unfold suffix. rewrite length_drop, Z.min_l by lia. unfold size in *. lia. Qed.

Lemma find_range s c pos : 0 <= pos <= size s -> find s c pos = npos \/ pos <= find s c pos < size s.
Proof.
  intros Hp. unfold find. destruct (index_of _ _) as [i|] eqn:E; simpl; [right|by left].
  apply index_of_lt in E. pose proof (length_suffix s pos Hp). lia.
Qed.

Lemma rfind_range s c pos : rfind s c pos = npos \/ 0 <= rfind s c pos < size s.
Proof.
  unfold rfind. destruct (last_index_of _ _) as [i|] eqn:E; simpl; [right|by left].
  apply last_index_of_lt in E. unfold prefix, size in *. rewrite length_take in E. lia.
Qed.

Lemma find_sub_range s pattern pos : 0 <= pos <= size s ->
  find_sub s pattern pos = npos \/
  pos <= find_sub s pattern pos /\ find_sub s pattern pos + size pattern <= size s.
Proof.
  intros Hp. unfold find_sub. destruct (index_of_sub _ _) as [i|] eqn:E; simpl; [right|by left].
  apply index_of_sub_le in E. pose proof (length_suffix s pos Hp). unfold size in *. lia.
Qed.

Lemma suffix_size s pos : size (suffix s pos) <= size s.
Proof. unfold size, suffix. rewrite length_drop. lia. Qed.

Lemma prefix_size s n : size (prefix s n) <= size s.
Proof. unfold size, prefix. rewrite length_take. lia. Qed.

(** ** Functions that only throw [std::runtime_error] *)

(** [m] returns a value that satisfies [P], or throws a [std::runtime_error]. *)
Definition outcome {A} (P : A -> Prop) (m : res A) : Prop :=
  match m with Ok a => P a | Throw e => e = RuntimeError end.

Lemma outcome_ok {A} (P : A -> Prop) a : P a -> outcome P (Ok a).
Proof. done. Qed.

Lemma outcome_bind {A B} (P : A -> Prop) (Q : B -> Prop) (m : res A) (f : A -> res B) :
  outcome P m -> (forall a, P a -> outcome Q (f a)) -> outcome Q (m ≫= f).
Proof. destruct m; simpl; [by eauto|done]. Qed.

Lemma outcome_weaken {A} (P Q : A -> Prop) m : outcome P m -> (forall a, P a -> Q a) -> outcome Q m.
Proof. destruct m; simpl; [by eauto|done]. Qed.

Lemma outcome_substr s pos n : pos <= size s -> outcome (fun r => size r <= size s) (substr s pos n).
Proof.
  intros Hp. unfold substr. destruct (Z.ltb_spec (size s) pos); [lia|]. simpl.
  etrans; [apply prefix_size|apply suffix_size].
Qed.

(** ** Numbers *)

Definition digits (s : str) : bool := forallb isdigit s.

Lemma digit_chars c : isdigit c = true -> digit_value c = Some (code c - 48) /\ 0 <= code c - 48 < 10.
Proof.
  intros H. unfold digit_value. rewrite H. split; [done|].
  unfold isdigit, in_range in H. change (code "0") with 48 in H. change (code "9") with 57 in H. lia.
Qed.

Lemma isdigit_byte d : 0 <= d < 10 -> isdigit (byte (48 + d)) = true /\ code (byte (48 + d)) = 48 + d.
Proof.
  intros Hd. unfold isdigit, in_range. rewrite code_byte by lia. split; [|done].
  change (code "0") with 48. change (code "9") with 57. lia.
Qed.

Lemma read_digits_app base s t acc :
  2 <= base -> forallb (is_digit_of base) s = true ->
  read_digits base (s ++ t) acc = read_digits base t (read_digits base s acc).
Proof.
  intros Hb. revert acc. induction s as [|c s IH]; intros acc; simpl; [done|].
  rewrite andb_true_iff. unfold is_digit_of. destruct (digit_value c) as [d|]; [|by intros []].
  intros [-> Hs]. by apply IH.
Qed.

Lemma decimal_digits fuel n : 0 <= n -> forallb isdigit (decimal fuel n) = true.
Proof.
  revert n. induction fuel as [|f IH]; intros n Hn; simpl; [done|].
  destruct (Z.ltb_spec n 10).
  - simpl. by rewrite (proj1 (isdigit_byte n ltac:(lia))).
  - rewrite forallb_app. simpl. rewrite IH by (apply Z.div_pos; lia).
    by rewrite (proj1 (isdigit_byte (n mod 10) ltac:(apply Z.mod_pos_bound; lia))).
Qed.

Lemma digits_are_digits s : forallb isdigit s = true -> forallb (is_digit_of 10) s = true.
Proof.
  rewrite !forallb_forall. intros H c Hc. unfold is_digit_of.
  destruct (digit_chars c (H c Hc)) as [-> Hd]. lia.
Qed.

Lemma read_decimal fuel n : 0 <= n < 10 ^ Z.of_nat fuel -> read_digits 10 (decimal fuel n) 0 = n.
Proof.
  revert n. induction fuel as [|f IH]; intros n Hn; [simpl in *; lia|].
  rewrite Nat2Z.inj_succ, Z.pow_succ_r in Hn by lia. cbn [decimal]. destruct (Z.ltb_spec n 10).
  - destruct (isdigit_byte n ltac:(lia)) as [Hd Hc]. simpl. destruct (digit_chars _ Hd) as [-> _].
    rewrite Hc. destruct (Z.ltb_spec (48 + n - 48) 10); lia.
  - pose proof (Z.mod_pos_bound n 10 ltac:(lia)) as Hm.
    destruct (isdigit_byte (n mod 10) Hm) as [Hd Hc].
    rewrite read_digits_app by (try lia; apply digits_are_digits, decimal_digits, Z.div_pos; lia).
    rewrite IH by (split; [apply Z.div_pos; lia|apply Z.div_lt_upper_bound; lia]).
    simpl. destruct (digit_chars _ Hd) as [-> _]. rewrite Hc.
    destruct (Z.ltb_spec (48 + n mod 10 - 48) 10); [|lia]. pose proof (Z.div_mod n 10). lia.
Qed.

Lemma decimal_front fuel n : (0 < fuel)%nat -> 0 <= n -> exists c s, decimal fuel n = c :: s /\ isdigit c = true.
Proof.
  intros Hf Hn. pose proof (decimal_digits fuel n Hn) as Hd. destruct (decimal fuel n) as [|c s] eqn:E.
  - destruct fuel; [lia|]. simpl in E. destruct (n <? 10); [done|]. by destruct (decimal fuel (n / 10)).
  - exists c, s. simpl in Hd. apply andb_true_iff in Hd as [? _]. by split.
Qed.

Lemma digit_not_special c : isdigit c = true ->
  isspace c = false /\ Ascii.eqb c "-" = false /\ Ascii.eqb c "+" = false.
Proof.
  intros H. pose proof (forall_chars (fun c => negb (isdigit c) ||
    (negb (isspace c) && negb (Ascii.eqb c "-") && negb (Ascii.eqb c "+")))
    ltac:(vm_compute; reflexivity) c) as Hc. simpl in Hc. rewrite H in Hc.
  destruct (isspace c), (Ascii.eqb c "-"), (Ascii.eqb c "+"); done.
Qed.

(** A string of base 10 that starts with a digit has no sign, space or prefix to skip. *)
Lemma skip_leading_digit c s : isdigit c = true ->
  skip_sign (skip_spaces (c :: s)) = (false, c :: s) /\ skip_prefix 10 (c :: s) = c :: s.
Proof.
  intros H. destruct (digit_not_special c H) as (H1 & H2 & H3). simpl. rewrite H1. simpl.
  rewrite H2, H3. split; [done|]. by destruct s as [|? [|? ?]].
Qed.

(** [std::stoull] reads back what [std::to_string] writes. *)
Lemma stoull_to_string n : fits 64 n -> stoull 10 (to_string n) = Ok n.
Proof.
  intros Hn. unfold fits in Hn. assert (Hlt : 0 <= n < 10 ^ Z.of_nat 20) by lia.
  pose proof (read_decimal 20 n Hlt) as Hr. unfold stoull, strto, to_string.
  destruct (decimal_front 20 n ltac:(lia) ltac:(lia)) as (c & s & E & Hc). rewrite E in *.
  destruct (skip_leading_digit c s Hc) as [-> ->].
  unfold is_digit_of. destruct (digit_chars c Hc) as [Hv Hb]. rewrite Hv.
  destruct (Z.ltb_spec (code c - 48) 10); [|lia]. rewrite Hr. by destruct (Z.ltb_spec n (2 ^ 64)); [|lia].
Qed.

Lemma stoll_to_string n : 0 <= n < 2 ^ 63 -> stoll 10 (to_string n) = Ok n.
Proof.
  intros Hn. pose proof (read_decimal 20 n ltac:(lia)) as Hr. unfold stoll, strto, to_string.
  destruct (decimal_front 20 n ltac:(lia) ltac:(lia)) as (c & s & E & Hc). rewrite E in *.
  destruct (skip_leading_digit c s Hc) as [-> ->].
  unfold is_digit_of. destruct (digit_chars c Hc) as [Hv Hb]. rewrite Hv.
  destruct (Z.ltb_spec (code c - 48) 10); [|lia]. rewrite Hr.
  destruct (Z.leb_spec (- 2 ^ 63) n), (Z.ltb_spec n (2 ^ 63)); try lia. done.
Qed.

#[global] Arguments lacks : simpl never.
#[global] Arguments lit : simpl never.
#[global] Arguments outcome : simpl never.
#[global] Arguments substr : simpl never.
