(* ===== verification/ThreadPool.v ===== *)
(** The thread pool of [src/src/threadpool.h] and [src/src/threadpool.cpp]: the queue of
    work items, the worker loop [ThreadPool::execute], and the shutdown by
    [emptyThreadPool].

    [addWork] and [retrieveWork] run under [qMutex_], so each is one step; a worker that
    waits for the condition variable is a worker whose step is not enabled. Of an item the
    model has what it does with the pool: it adds jobs and it waits for them, as
    [Aggregator::dispatch] does ([src/src/topology.h], [src/src/topology.cpp]). Everything
    else in an item is assumed to end. *)

From S2P Require Import Prelude.

(** A work item: it adds jobs whose futures it keeps, and [Collect] is [get()] on all of the
    futures it has. *)
Inductive work := Work (actions : list action)
with action := AddJob (w : work) | Collect.

Definition actions (w : work) : list action := let 'Work l := w in l.

(** A worker thread: in [retrieveWork]; executing the item that was retrieved as number [id],
    which holds the futures of some items; or past its loop. Items are numbered in the order
    in which they are added, and the future of an item becomes ready when it is finished. *)
Inductive worker := Waiting | Executing (id : nat) (futures : list nat) (rest : list action) | Dead.

(** [None] in the queue is the null pointer that ends a worker. [pushing] is the progress of
    [emptyThreadPool]: not called, or the null pointers that it has still to add. *)
Record pool := Pool {
  workQ_ : list (option work);
  threads_ : list worker;
  added : list (option work);       (** everything [addWork] was called with, in order *)
  retrieved : list (option work);   (** everything [retrieveWork] returned, in order *)
  finished : list nat;              (** the items whose execution has ended *)
  pushing : option nat
}.

Definition ThreadPool (n : nat) : pool := Pool [] (replicate n Waiting) [] [] [] None.

Definition addWork (w : option work) (p : pool) : pool :=
  Pool (workQ_ p ++ [w]) (threads_ p) (added p ++ [w]) (retrieved p) (finished p) (pushing p).

Definition set_thread (i : nat) (t : worker) (p : pool) : pool :=
  Pool (workQ_ p) (<[i := t]> (threads_ p)) (added p) (retrieved p) (finished p) (pushing p).

Definition set_pushing (k : nat) (p : pool) : pool :=
  Pool (workQ_ p) (threads_ p) (added p) (retrieved p) (finished p) (Some k).

(** What a worker does with what [retrieveWork] returned. *)
Definition start (id : nat) (w : option work) : worker :=
  match w with Some x => Executing id [] (actions x) | None => Dead end.

Definition retrieveWork (i : nat) (w : option work) (q : list (option work)) (p : pool) : pool :=
  Pool q (<[i := start (length (retrieved p)) w]> (threads_ p)) (added p) (retrieved p ++ [w]) (finished p) (pushing p).

Definition ready (futures : list nat) (p : pool) : bool := forallb (fun job => bool_decide (job ∈ finished p)) futures.

(** The next step of worker [i] inside of an item: the end of the item, a job added, or the
    futures read once they are all ready. *)
Definition act (i id : nat) (futures : list nat) (rest : list action) (p : pool) : option pool :=
  match rest with
  | [] => Some (Pool (workQ_ p) (<[i := Waiting]> (threads_ p)) (added p) (retrieved p) (finished p ++ [id]) (pushing p))
  | AddJob w :: rest => Some (addWork (Some w) (set_thread i (Executing id (futures ++ [length (added p)]) rest) p))
  | Collect :: rest => if ready futures p then Some (set_thread i (Executing id futures rest) p) else None
  end.

(** Who moves: a thread outside of the pool adds an item; a thread calls [emptyThreadPool],
    then it adds one null pointer after the other; a worker retrieves an item, or goes on
    with the one it has. *)
Inductive move := Outside (w : work) | CallEmpty | PushNull | Take (i : nat) | Act (i : nat).

Definition by_worker (m : move) : bool := match m with Take _ | Act _ => true | _ => false end.

(** The state after a move; none when it is not enabled. *)
Definition next (m : move) (p : pool) : option pool :=
  match m with
  | Outside w => Some (addWork (Some w) p)
  | CallEmpty => match pushing p with None => Some (set_pushing (length (threads_ p)) p) | Some _ => None end
  | PushNull => match pushing p with Some (S k) => Some (addWork None (set_pushing k p)) | _ => None end
  | Take i => match threads_ p !! i, workQ_ p with Some Waiting, w :: q => Some (retrieveWork i w q p) | _, _ => None end
  | Act i => match threads_ p !! i with Some (Executing id futures rest) => act i id futures rest p | _ => None end
  end.

Fixpoint run (ms : list move) (p : pool) : option pool :=
  match ms with [] => Some p | m :: ms => next m p ≫= run ms end.

(** * Counting *)

Fixpoint total {A} (f : A -> nat) (l : list A) : nat := match l with [] => 0 | x :: l => f x + total f l end.

Lemma total_app {A} (f : A -> nat) l1 l2 : total f (l1 ++ l2) = total f l1 + total f l2.
Proof. induction l1 as [|x l1 IH]; simpl; [done|]. rewrite IH. lia. Qed.

Lemma total_insert {A} (f : A -> nat) l i x y : l !! i = Some x -> total f (<[i := y]> l) + f x = total f l + f y.
Proof.
  revert i. induction l as [|z l IH]; intros [|i]; simpl; try done.
  - intros [= ->]. lia.
  - intros H. specialize (IH i H). lia.
Qed.

Lemma total_zero {A} (f : A -> nat) l : total f l = 0 <-> Forall (fun x => f x = 0) l.
Proof. induction l as [|x l IH]; simpl; [by split; [constructor|]|]. rewrite Forall_cons, <- IH. lia. Qed.

Lemma total_lookup {A} (f : A -> nat) l i x : l !! i = Some x -> f x <= total f l.
Proof. revert i. induction l as [|z l IH]; intros [|i]; simpl; try done; [intros [= ->]|intros H%IH]; lia. Qed.

Lemma total_pos {A} (f : A -> nat) l : total f l <> 0 -> exists i x, l !! i = Some x /\ f x <> 0.
Proof.
  induction l as [|x l IH]; simpl; [done|]. intros H. destruct (decide (f x = 0)) as [E|E]; [|by exists 0, x].
  destruct IH as (i & y & ? & ?); [lia|]. by exists (S i), y.
Qed.

Definition is_null (w : option work) : nat := match w with None => 1 | Some _ => 0 end.
Definition is_dead (t : worker) : nat := match t with Dead => 1 | _ => 0 end.
Definition is_alive (t : worker) : nat := match t with Dead => 0 | _ => 1 end.

Lemma alive_dead l : total is_alive l + total is_dead l = length l.
Proof. induction l as [|[] l IH]; simpl; lia. Qed.

(** * What holds in every state *)

Record consistent (n : nat) (p : pool) : Prop := Consistent {
  con_fifo : added p = retrieved p ++ workQ_ p;
  con_threads : length (threads_ p) = n;
  (** one null pointer for each thread: to be added, in the queue, or taken *)
  con_nulls : total is_null (workQ_ p) + total is_dead (threads_ p) + default n (pushing p) = n;
  con_done : forall id w, retrieved p !! id = Some (Some w) ->
    id ∈ finished p \/ exists i futures rest, threads_ p !! i = Some (Executing id futures rest);
  con_items : forall i id futures rest, threads_ p !! i = Some (Executing id futures rest) ->
    exists before, retrieved p !! id = Some (Some (Work (before ++ rest)))
}.

Lemma consistent_init n : consistent n (ThreadPool n).
Proof.
  split; cbn; [done|apply length_replicate| |done|].
  - induction n as [|n IH]; cbn; [done|]. lia.
  - intros i id futures rest [? _]%lookup_replicate. done.
Qed.

Lemma consistent_addWork n w p : consistent n p -> total is_null [w] = 0 -> consistent n (addWork w p).
Proof.
  intros [Hf Hl Hn Hd Hi] Hw. split; cbn [addWork added retrieved workQ_ threads_ pushing finished]; try done.
  - by rewrite Hf, app_assoc.
  - rewrite total_app. lia.
Qed.

(** Worker [i], executing an item, moves on with it. *)
Lemma consistent_set_thread n p i id futures futures' before rest : consistent n p ->
  threads_ p !! i = Some (Executing id futures (before ++ rest)) ->
  consistent n (set_thread i (Executing id futures' rest) p).
Proof.
  intros [Hf Hl Hn Hd Hi] Ht. pose proof (lookup_lt_Some _ _ _ Ht) as Hlt.
  split; cbn [set_thread added retrieved workQ_ threads_ pushing finished]; try done.
  - by rewrite length_insert.
  - pose proof (total_insert is_dead _ _ _ (Executing id futures' rest) Ht) as H. simpl in H. lia.
  - intros id' w Hw. destruct (Hd id' w Hw) as [?|(j & fs & l & Hj)]; [by left|]. right.
    destruct (decide (j = i)) as [->|Hne]; [|exists j, fs, l; by rewrite list_lookup_insert_ne].
    rewrite Ht in Hj. injection Hj as <- <- <-. exists i, futures', rest. by rewrite list_lookup_insert_eq.
  - intros j id' fs l Hj. destruct (decide (j = i)) as [->|Hne].
    + rewrite list_lookup_insert_eq in Hj by done. injection Hj as <- <- <-.
      destruct (Hi i id futures _ Ht) as [b Hb]. exists (b ++ before). by rewrite <- app_assoc.
    + rewrite list_lookup_insert_ne in Hj by done. eauto.
Qed.

Lemma consistent_finish n p i id futures : consistent n p -> threads_ p !! i = Some (Executing id futures []) ->
  consistent n (Pool (workQ_ p) (<[i := Waiting]> (threads_ p)) (added p) (retrieved p) (finished p ++ [id]) (pushing p)).
Proof.
  intros [Hf Hl Hn Hd Hi] Ht. split; cbn [added retrieved workQ_ threads_ pushing finished]; try done.
  - by rewrite length_insert.
  - pose proof (total_insert is_dead _ _ _ Waiting Ht) as H. simpl in H. lia.
  - intros id' w Hw. destruct (Hd id' w Hw) as [?|(j & fs & l & Hj)]; [left; apply elem_of_app; by left|].
    destruct (decide (j = i)) as [->|Hne].
    + rewrite Ht in Hj. injection Hj as <- _ _. left. apply elem_of_app. right. by left.
    + right. exists j, fs, l. by rewrite list_lookup_insert_ne.
  - intros j id' fs l Hj. destruct (decide (j = i)) as [->|Hne].
    + by rewrite list_lookup_insert_eq in Hj by (by eapply lookup_lt_Some).
    + rewrite list_lookup_insert_ne in Hj by done. eauto.
Qed.

Lemma consistent_retrieve n p i w q : consistent n p -> threads_ p !! i = Some Waiting -> workQ_ p = w :: q ->
  consistent n (retrieveWork i w q p).
Proof.
  intros [Hf Hl Hn Hd Hi] Ht Hq. pose proof (lookup_lt_Some _ _ _ Ht) as Hlt.
  split; cbn [retrieveWork added retrieved workQ_ threads_ pushing finished].
  - by rewrite Hf, Hq, <- app_assoc.
  - by rewrite length_insert.
  - pose proof (total_insert is_dead _ _ _ (start (length (retrieved p)) w) Ht) as H. rewrite Hq in Hn. destruct w; simpl in *; lia.
  - intros id w' Hw. apply lookup_snoc_Some in Hw as [[Hlt' Hw]|[-> ->]].
    + destruct (Hd id w' Hw) as [?|(j & fs & l & Hj)]; [by left|]. right. exists j, fs, l.
      rewrite list_lookup_insert_ne; [done|]. intros ->. by rewrite Ht in Hj.
    + right. exists i, [], (actions w'). by rewrite list_lookup_insert_eq.
  - intros j id fs l Hj. destruct (decide (j = i)) as [->|Hne].
    + rewrite list_lookup_insert_eq in Hj by done. destruct w as [[acts]|]; [|done]. injection Hj as <- _ <-. exists [].
      by rewrite lookup_app_r, Nat.sub_diag by done.
    + rewrite list_lookup_insert_ne in Hj by done. destruct (Hi _ _ _ _ Hj) as [b Hb]. exists b.
      rewrite lookup_app_l; [done|by eapply lookup_lt_Some].
Qed.

Lemma consistent_next n m p p' : consistent n p -> next m p = Some p' -> consistent n p'.
Proof.
  intros Hc H. pose proof Hc as [Hf Hl Hn Hd Hi]. destruct m as [w| | |i|i]; cbn [next] in H.
  - injection H as <-. by apply consistent_addWork.
  - destruct (pushing p) eqn:E; [done|]. injection H as <-. split; cbn; try done. rewrite Hl. exact Hn.
  - destruct (pushing p) as [[|k]|] eqn:E; try done. injection H as <-.
    split; cbn [addWork set_pushing added retrieved workQ_ threads_ pushing finished]; try done.
    + by rewrite Hf, app_assoc.
    + rewrite total_app. cbn in Hn |- *. lia.
  - destruct (threads_ p !! i) as [[]|] eqn:Ht; try done. destruct (workQ_ p) as [|w q] eqn:Hq; [done|].
    injection H as <-. by apply consistent_retrieve.
  - destruct (threads_ p !! i) as [[|id fs [|[w|] rest]|]|] eqn:Ht; try done; cbn [act] in H.
    + injection H as <-. by eapply consistent_finish.
    + injection H as <-. apply consistent_addWork; [|done]. by apply (consistent_set_thread n p i id fs _ [AddJob w]).
    + destruct (ready fs p); [|done]. injection H as <-. by apply (consistent_set_thread n p i id fs _ [Collect]).
Qed.

Lemma consistent_run n ms p p' : consistent n p -> run ms p = Some p' -> consistent n p'.
Proof.
  revert p. induction ms as [|m ms IH]; intros p Hc; cbn [run]; [by intros [= <-]|].
  intros (p1 & E & H)%bind_Some. eauto using consistent_next.
Qed.

(** Work is retrieved in the order it was added, every item at most once, and what has
    not been retrieved is still in the queue. *)
Theorem work_fifo n ms p : run ms (ThreadPool n) = Some p -> added p = retrieved p ++ workQ_ p.
Proof. intros H. exact (con_fifo _ _ (consistent_run n ms _ _ (consistent_init n) H)). Qed.

(** * Shutdown *)

(** What the workers have still to do: the items before the last null pointer of the queue,
    and the rest of the items that are being executed. *)
Definition cost_of (w : option work) : nat := match w with Some w => 2 + length (actions w) | None => 1 end.
Definition has_null (q : list (option work)) : bool := existsb (fun w => is_null w =? 1) q.
Fixpoint cost (q : list (option work)) : nat :=
  match q with [] => 0 | w :: q' => if has_null q then cost_of w + cost q' else 0 end.
Definition work_left (t : worker) : nat := match t with Executing _ _ rest => S (length rest) | _ => 0 end.
Definition todo (p : pool) : nat := cost (workQ_ p) + total work_left (threads_ p).

Lemma has_null_total q : has_null q = true <-> total is_null q <> 0.
Proof. induction q as [|[w|] q IH]; simpl; [done|..]; [exact IH|]. split; [lia|done]. Qed.

Lemma cost_snoc q w : cost (q ++ [Some w]) = cost q.
Proof. induction q as [|x q IH]; [done|]. cbn [cost app has_null existsb]. unfold has_null in *. rewrite existsb_app, IH, orb_false_r. done. Qed.

(** All threads have ended; what was retrieved was finished, and it is everything that was
    added before the last null pointer. *)
Definition joined (p : pool) : Prop :=
  Forall (fun t => t = Dead) (threads_ p) /\
  (exists rest, added p = retrieved p ++ rest /\ Forall (fun w => w <> None) rest) /\
  (forall id w, retrieved p !! id = Some (Some w) -> id ∈ finished p).

(** A thread that waits for a job which is not finished. *)
Definition waits_forever (p : pool) (t : worker) : Prop :=
  match t with Executing _ futures (Collect :: _) => exists job, job ∈ futures /\ job ∉ finished p | _ => False end.

Definition hung (p : pool) : Prop :=
  (exists i t, threads_ p !! i = Some t /\ t <> Dead) /\
  Forall (fun t => t = Dead \/ waits_forever p t) (threads_ p).

Lemma ready_false futures p : ready futures p = false -> exists job, job ∈ futures /\ job ∉ finished p.
Proof.
  unfold ready. induction futures as [|x l IH]; simpl; [done|]. destruct (decide (x ∈ finished p)).
  - rewrite bool_decide_true by done. intros H. destruct (IH H) as (j & ? & ?). exists j. split; [by right|done].
  - intros _. exists x. split; [left|done].
Qed.

Lemma ready_true futures p : ready futures p = true -> forall job, job ∈ futures -> job ∈ finished p.
Proof. unfold ready. rewrite forallb_forall. intros H job Hj. apply list_elem_of_In, H, bool_decide_eq_true in Hj. done. Qed.

Lemma hung_stuck p m p' : hung p -> by_worker m = true -> next m p = Some p' -> False.
Proof.
  intros [_ Hall] Hm H. rewrite Forall_lookup in Hall. destruct m as [| | |i|i]; try done; cbn [next] in H.
  - destruct (threads_ p !! i) as [[]|] eqn:Ht; try done. by destruct (Hall _ _ Ht).
  - destruct (threads_ p !! i) as [[|id fs rest|]|] eqn:Ht; try done. destruct (Hall _ _ Ht) as [|Hw]; [done|].
    destruct rest as [|[w|] rest]; try done. destruct Hw as (job & H1 & H2). cbn [act] in H.
    destruct (ready fs p) eqn:Hr; [|done]. by apply H2, (ready_true fs).
Qed.

(** Nothing that other threads do ends it. *)
Lemma hung_next p m p' : hung p -> next m p = Some p' -> hung p'.
Proof.
  intros Hh H. destruct (by_worker m) eqn:Hm; [by destruct (hung_stuck _ _ _ Hh Hm H)|].
  assert (threads_ p' = threads_ p /\ finished p' = finished p) as [E1 E2].
  { destruct m as [w| | |i|i]; try done; cbn [next] in H.
    - by injection H as <-.
    - destruct (pushing p); [done|]. by injection H as <-.
    - destruct (pushing p) as [[|k]|]; try done. by injection H as <-. }
  unfold hung, waits_forever in *. by rewrite E1, E2.
Qed.

Lemma hung_run p ms p' : hung p -> run ms p = Some p' -> hung p'.
Proof.
  revert p. induction ms as [|m ms IH]; intros p Hh; cbn [run]; [by intros [= <-]|].
  intros (p1 & E & H)%bind_Some. eauto using hung_next.
Qed.

(** A state in which no worker can move. *)
Lemma no_move p : (forall m p', by_worker m = true -> next m p = Some p' -> False) -> total is_null (workQ_ p) = total is_alive (threads_ p) ->
  Forall (fun t => t = Dead \/ waits_forever p t) (threads_ p).
Proof.
  intros Hno Hq. apply Forall_lookup. intros i [|id fs rest|] Ht; [| |by left].
  - exfalso. destruct (workQ_ p) as [|w q] eqn:E.
    + pose proof (total_lookup is_alive _ _ _ Ht) as H. simpl in *. lia.
    + apply (Hno (Take i) (retrieveWork i w q p)); [done|]. cbn [next]. by rewrite Ht, E.
  - destruct (act i id fs rest p) as [p'|] eqn:E.
    + exfalso. apply (Hno (Act i) p'); [done|]. cbn [next]. by rewrite Ht.
    + right. destruct rest as [|[w|] rest]; try done. cbn [act] in E. destruct (ready fs p) eqn:Hr; [done|]. by apply ready_false.
Qed.

Lemma todo_next n m p p' : consistent n p -> pushing p = Some 0 -> next m p = Some p' ->
  pushing p' = Some 0 /\ (if by_worker m then todo p' < todo p else todo p' = todo p).
Proof.
  intros [_ Hl Hn _ _] Hp H. unfold todo. rewrite Hp in Hn. cbn [default] in Hn. unfold id in Hn.
  pose proof (alive_dead (threads_ p)) as Had. destruct m as [w| | |i|i]; cbn [next by_worker] in *; rewrite ?Hp in H; try done.
  - injection H as <-. cbn. by rewrite cost_snoc.
  - destruct (threads_ p !! i) as [[]|] eqn:Ht; try done. destruct (workQ_ p) as [|w q] eqn:Hq; [done|]. injection H as <-.
    split; [done|]. cbn [retrieveWork workQ_ threads_].
    pose proof (total_insert work_left _ _ _ (start (length (retrieved p)) w) Ht) as H1. pose proof (total_lookup is_alive _ _ _ Ht) as H2. simpl in H2.
    cbn [cost]. rewrite (proj2 (has_null_total (w :: q))) by lia. destruct w as [w|]; simpl in *; lia.
  - destruct (threads_ p !! i) as [[|id fs rest|]|] eqn:Ht; try done.
    assert (Hw : forall t, total work_left (<[i := t]> (threads_ p)) + S (length rest) = total work_left (threads_ p) + work_left t)
      by (intros t; exact (total_insert work_left _ _ _ t Ht)).
    destruct rest as [|[w|] rest]; cbn [act] in H; [| |destruct (ready fs p); [|done]]; injection H as <-;
      (split; [done|]); cbn [addWork set_thread workQ_ threads_]; rewrite ?cost_snoc.
    + specialize (Hw Waiting). simpl in Hw. lia.
    + specialize (Hw (Executing id (fs ++ [length (added p)]) rest)). simpl in Hw. lia.
    + specialize (Hw (Executing id fs rest)). simpl in Hw. lia.
Qed.

Lemma todo_run n ms p p' : consistent n p -> pushing p = Some 0 -> run ms p = Some p' ->
  pushing p' = Some 0 /\ length (filter (fun m => by_worker m = true) ms) + todo p' <= todo p.
Proof.
  revert p. induction ms as [|m ms IH]; intros p Hc Hp; cbn [run]; [intros [= <-]; split; [done|simpl; lia]|].
  intros (p1 & E & H)%bind_Some. destruct (todo_next n m p p1 Hc Hp E) as [Hp1 Ht].
  destruct (IH p1 (consistent_next _ _ _ _ Hc E) Hp1 H) as [Hp' Hle]. split; [done|].
  destruct (by_worker m) eqn:Hm; [rewrite filter_cons_True by done|rewrite filter_cons_False by (by rewrite Hm)]; simpl; lia.
Qed.

Lemma all_dead_joined n p : consistent n p -> pushing p = Some 0 -> Forall (fun t => t = Dead) (threads_ p) -> joined p.
Proof.
  intros [Hf Hl Hn Hd _] Hp Hdead. split; [done|]. split.
  - exists (workQ_ p). split; [done|]. rewrite Hp in Hn. cbn [default] in Hn. unfold id in Hn.
    assert (Ha : total is_alive (threads_ p) = 0).
    { apply total_zero. clear -Hdead. induction Hdead as [|t l -> _ IH]; by constructor. }
    pose proof (alive_dead (threads_ p)). assert (Hz : total is_null (workQ_ p) = 0) by lia. apply total_zero in Hz.
    clear -Hz. induction Hz as [|w q Hw _ IH]; constructor; [by destruct w|done].
  - intros id w Hw. destruct (Hd id w Hw) as [?|(i & fs & rest & Hi)]; [done|].
    by apply (Forall_lookup_1 _ _ _ _ Hdead) in Hi.
Qed.

Lemma worker_can_move p : (exists m p', by_worker m = true /\ next m p = Some p') \/
  (forall m p', by_worker m = true -> next m p = Some p' -> False).
Proof.
  set (moves := map Take (seq 0 (length (threads_ p))) ++ map Act (seq 0 (length (threads_ p)))).
  destruct (decide (Exists (fun m => is_Some (next m p)) moves)) as [H|H].
  - left. apply Exists_exists in H as (m & Hm & [p' E]). exists m, p'. split; [|done].
    apply elem_of_app in Hm as [Hm|Hm]; by apply list_elem_of_fmap in Hm as (i & -> & _).
  - right. intros m p' Hm E. apply H, Exists_exists. exists m. split; [|by exists p'].
    assert (Hin : forall i t, threads_ p !! i = Some t -> i ∈ seq 0 (length (threads_ p))).
    { intros i t Hi. apply elem_of_seq. apply lookup_lt_Some in Hi. lia. }
    apply elem_of_app. destruct m as [| | |i|i]; try done; cbn [next] in E; destruct (threads_ p !! i) as [t|] eqn:Ht; try done;
      [left|right]; apply list_elem_of_fmap; exists i; eauto.
Qed.

(** The items that wait for their jobs. *)
Definition collects (w : option work) : Prop := match w with Some w => Collect ∈ actions w | None => False end.

(** C38. How the shutdown of the pool ends. Whatever was run, whatever the items add and
    whatever other threads add at any time: once [emptyThreadPool] has added its null
    pointers, the workers make at most [todo] further steps. When none can move, either every
    thread has ended - then everything added before the last null pointer was retrieved in
    order, each item once, and was finished, so that all [join]s return - or the pool hangs:
    some thread lives, and every living one waits for a job that is not finished, which
    nothing that happens later changes. The second outcome needs an item that waits for jobs. *)
Theorem shutdown_joins n before after p p' :
  run before (ThreadPool n) = Some p -> pushing p = Some 0 -> run after p = Some p' ->
  length (filter (fun m => by_worker m = true) after) <= todo p /\
  ((exists m p'', by_worker m = true /\ next m p' = Some p'') \/ joined p' \/
   hung p' /\ (forall ms q, run ms p' = Some q -> ~ joined q) /\ exists w, w ∈ added p' /\ collects w).
Proof.
  intros Hb Hp Ha. pose proof (consistent_run _ _ _ _ (consistent_init n) Hb) as Hc.
  destruct (todo_run n after p p' Hc Hp Ha) as [Hp' Hle]. pose proof (consistent_run _ _ _ _ Hc Ha) as Hc'.
  split; [lia|]. destruct (worker_can_move p') as [Hm|Hm]; [by left|right].
  pose proof Hc' as [_ Hl Hn _ Hi]. rewrite Hp' in Hn. cbn [default] in Hn. unfold id in Hn. pose proof (alive_dead (threads_ p')) as Had.
  pose proof (no_move p' Hm ltac:(lia)) as Hall. destruct (decide (total is_alive (threads_ p') = 0)) as [Hz|Hz].
  - left. apply (all_dead_joined n); [done|done|]. apply total_zero in Hz.
    clear -Hz. induction Hz as [|t l Ht _ IH]; constructor; [by destruct t|done].
  - right. apply total_pos in Hz as (i & t & Ht & Halive). assert (Hd : t <> Dead) by by destruct t.
    assert (Hh : hung p') by (split; [by exists i, t|done]). split; [done|]. split.
    + intros ms q Hq [Hdead _]. destruct (hung_run _ _ _ Hh Hq) as [(j & t' & Hj & Hne) _]. by apply (Forall_lookup_1 _ _ _ _ Hdead) in Hj.
    + destruct (Forall_lookup_1 _ _ _ _ Hall Ht) as [|Hw]; [done|]. destruct t as [|id fs [|[w|] rest]|]; try done.
      destruct (Hi i id fs _ Ht) as [b Hret]. exists (Some (Work (b ++ Collect :: rest))). split.
      * rewrite (con_fifo _ _ Hc'). apply elem_of_app. left. by eapply list_elem_of_lookup_2.
      * cbn. apply elem_of_app. right. left.
Qed.

(** * The server's own use *)

(** A job that does nothing with the pool, and a connection or the periodic fetcher, which
    takes a sample: [Aggregator::dispatch] adds jobs and waits for them. *)
Definition job : work := Work [].
Definition sampling : work := Work [AddJob job; Collect].

(** A shutdown that hangs: the fetcher is executing when the null pointers are added, and its
    job comes behind them. *)
Definition late_job : list move := [Outside sampling; Take 0; CallEmpty; PushNull; PushNull; Act 0; Take 1].

Lemma late_job_hangs : exists p, run late_job (ThreadPool 2) = Some p /\ pushing p = Some 0 /\ hung p.
Proof.
  eexists. split; [reflexivity|]. split; [done|]. split; [by exists 0; eexists|].
  apply Forall_cons_2; [right; exists 3; split; [left|cbn; by intros ?%elem_of_nil]|]. by apply Forall_cons_2; [left|].
Qed.

(** The pool stops without any shutdown when as many items as it has threads take a sample at
    the same time: their jobs are in the queue, and no thread is left to execute them. *)
Definition all_sampling (n : nat) : list move :=
  replicate n (Outside sampling) ++ map Take (seq 0 n) ++ map Act (seq 0 n).

Lemma sixty_four_samples_hang : exists p, run (all_sampling 64) (ThreadPool 64) = Some p /\ hung p /\ length (workQ_ p) = 64.
Proof.
  eexists. split; [vm_compute; reflexivity|]. split; [|reflexivity]. split; [by exists 0; eexists|].
  repeat (apply Forall_cons_2; [right; eexists; split; [left|]; cbn; by intros ?%elem_of_nil|]). constructor.
Qed.

(** Two threads, one item taken by the second one, then the shutdown; an item that comes too
    late stays in the queue. *)
Lemma shutdown_joins_witness :
  exists p p', run [Outside job; Take 1; CallEmpty; PushNull; PushNull] (ThreadPool 2) = Some p /\
    run [Take 0; Outside job; Act 1; Take 1] p = Some p' /\ 3 <= todo p /\ joined p'.
Proof.
  eexists _, _. split; [reflexivity|]. split; [reflexivity|].
  destruct (shutdown_joins 2 [Outside job; Take 1; CallEmpty; PushNull; PushNull] [Take 0; Outside job; Act 1; Take 1] _ _
    eq_refl eq_refl eq_refl) as [H1 H2]. split; [exact H1|].
  destruct H2 as [(m & p'' & Hm & H)|[H|(_ & _ & w & Hw & Hc)]]; [exfalso|exact H|exfalso].
  - destruct m as [| | |[|[|i]]|[|[|i]]]; done.
  - repeat (apply elem_of_cons in Hw as [->|Hw]; [cbn in Hc; try done; by apply elem_of_nil in Hc|]). by apply elem_of_nil in Hw.
Defined.

Lemma work_fifo_witness : exists p, run [Outside job; Take 1; Outside job] (ThreadPool 2) = Some p /\ added p = retrieved p ++ workQ_ p.
Proof. eexists. split; [reflexivity|]. exact (work_fifo 2 [Outside job; Take 1; Outside job] _ eq_refl). Defined.
