(* ===== verification/Http.v ===== *)
(** The HTTP server of [src/src/pcm-sensor-server.cpp]: header and message classes, the
    reading of a request from a socket stream, the writing of a response, and the loop of
    [HTTPConnection::execute].

    The stream is what the client sends until it closes the connection, and what the server
    has sent. Writes to the socket are taken to succeed. *)

From S2P Require Import Prelude CxxString Url.
Local Open Scope char_scope.
Local Open Scope Z_scope.
Local Open Scope list_scope.

(** * Methods and header types *)

Inductive HTTPRequestMethod :=
  | GET | HEAD | POST | PUT | HTTP_DELETE | CONNECT | OPTIONS | TRACE | PATCH.

#[export] Instance method_eq_dec : EqDecision HTTPRequestMethod.
Proof. solve_decision. Defined.

Inductive HTTPRequestHasBody := No | Optional | Required.

#[export] Instance has_body_eq_dec : EqDecision HTTPRequestHasBody.
Proof. solve_decision. Defined.

Record HTTPMethodProperty := MethodProperty {
  property_method : HTTPRequestMethod;
  methodName : str;
  property_requestHasBody : HTTPRequestHasBody;
  property_responseHasBody : bool
}.

Definition httpMethodProperties : list HTTPMethodProperty :=
  [MethodProperty GET (lit "GET") No true;
   MethodProperty HEAD (lit "HEAD") No false;
   MethodProperty POST (lit "POST") Required true;
   MethodProperty PUT (lit "PUT") Required true;
   MethodProperty HTTP_DELETE (lit "DELETE") No true;
   MethodProperty CONNECT (lit "CONNECT") Required true;
   MethodProperty OPTIONS (lit "OPTIONS") Optional true;
   MethodProperty TRACE (lit "TRACE") No true;
   MethodProperty PATCH (lit "PATCH") Required true].

(** The first property of the table that a test accepts; none is a [runtime_error]. *)
Definition findProperty (test : HTTPMethodProperty -> bool) : res HTTPMethodProperty :=
  match List.find test httpMethodProperties with Some p => Ok p | None => Throw RuntimeError end.

Definition by_name (name : str) (p : HTTPMethodProperty) : bool := bool_decide (methodName p = name).
Definition by_method (m : HTTPRequestMethod) (p : HTTPMethodProperty) : bool :=
  bool_decide (property_method p = m).

Definition getMethodAsEnum (rms : str) : res HTTPRequestMethod :=
  p ← findProperty (by_name rms); Ok (property_method p).
Definition getMethodAsString (rme : HTTPRequestMethod) : res str :=
  p ← findProperty (by_method rme); Ok (methodName p).
Definition requestHasBody (rme : HTTPRequestMethod) : res HTTPRequestHasBody :=
  p ← findProperty (by_method rme); Ok (property_requestHasBody p).

Inductive HeaderType :=
  | ServerSet | Invalid | Unspecified | StringHeader | Integer | Float | Date | Range | TrueHeader | Email
  | ETag | DateOrETag | Parameters | Url | HostPort | ProtoHostPort | DateOrSeconds | NoCache | IP
  | Character | OnOff | ContainsOtherHeaders | StarOrFQURL | CustomHeader.

#[export] Instance header_type_eq_dec : EqDecision HeaderType.
Proof. solve_decision. Defined.

(** [listSeparatorChar_] is a comma in every entry. *)
Record HTTPHeaderProperty := HeaderProperty {
  header_property_name : str;
  header_property_type : HeaderType;
  canBeWeighted : bool;
  canBeAList : bool
}.

Definition httpHeaderProperties : list HTTPHeaderProperty :=
  [HeaderProperty (lit "Accept") StringHeader true true;
   HeaderProperty (lit "Accept-Charset") StringHeader true true;
   HeaderProperty (lit "Accept-Encoding") StringHeader true true;
   HeaderProperty (lit "Accept-Language") StringHeader true true;
   HeaderProperty (lit "Accept-Ranges") StringHeader false false;
   HeaderProperty (lit "Access-Control-Allow-Credentials") TrueHeader false false;
   HeaderProperty (lit "Access-Control-Allow-Headers") StringHeader false true;
   HeaderProperty (lit "Access-Control-Allow-Methods") StringHeader false true;
   HeaderProperty (lit "Access-Control-Allow-Origin") StarOrFQURL false false;
   HeaderProperty (lit "Access-Control-Expose-Headers") StringHeader false true;
   HeaderProperty (lit "Access-Control-Max-Age") Integer false false;
   HeaderProperty (lit "Access-Control-Request-Headers") StringHeader false true;
   HeaderProperty (lit "Access-Control-Request-Method") StringHeader false false;
   HeaderProperty (lit "Age") Integer false false;
   HeaderProperty (lit "Allow") StringHeader false true;
   HeaderProperty (lit "Authorization") StringHeader false false;
   HeaderProperty (lit "Cache-Control") StringHeader false true;
   HeaderProperty (lit "Connection") StringHeader false false;
   HeaderProperty (lit "Content-Disposition") StringHeader false false;
   HeaderProperty (lit "Content-Encoding") StringHeader false true;
   HeaderProperty (lit "Content-Language") StringHeader false true;
   HeaderProperty (lit "Content-Length") Integer false false;
   HeaderProperty (lit "Content-Location") Url false false;
   HeaderProperty (lit "Content-Range") Range false true;
   HeaderProperty (lit "Content-Security-Policy") StringHeader false false;
   HeaderProperty (lit "Content-Security-Policy-Report-Only") StringHeader false false;
   HeaderProperty (lit "Content-Type") StringHeader false false;
   HeaderProperty (lit "Cookie") Parameters false false;
   HeaderProperty (lit "Cookie2") StringHeader false false;
   HeaderProperty (lit "DNT") Integer false false;
   HeaderProperty (lit "Date") Date false false;
   HeaderProperty (lit "ETag") ETag false false;
   HeaderProperty (lit "Expect") StringHeader false false;
   HeaderProperty (lit "Expires") Date false false;
   HeaderProperty (lit "Forwarded") StringHeader false false;
   HeaderProperty (lit "From") Email false false;
   HeaderProperty (lit "Host") HostPort false false;
   HeaderProperty (lit "If-Match") ETag false true;
   HeaderProperty (lit "If-Modified-Since") Date false false;
   HeaderProperty (lit "If-None-Match") ETag false true;
   HeaderProperty (lit "If-Range") DateOrETag false false;
   HeaderProperty (lit "If-Unmodified-Since") Date false false;
   HeaderProperty (lit "Keep-Alive") Parameters false true;
   HeaderProperty (lit "Large-Allocation") Integer false false;
   HeaderProperty (lit "Last-Modified") Date false false;
   HeaderProperty (lit "Location") Url false false;
   HeaderProperty (lit "Origin") ProtoHostPort false false;
   HeaderProperty (lit "Pragma") NoCache false false;
   HeaderProperty (lit "Proxy-Authenticate") StringHeader false false;
   HeaderProperty (lit "Proxy-Authorization") StringHeader false false;
   HeaderProperty (lit "Public-Key-Pins") Parameters false false;
   HeaderProperty (lit "Public-Key-Pins-Report-Only") Parameters false false;
   HeaderProperty (lit "Range") Range false true;
   HeaderProperty (lit "Referer") Url false false;
   HeaderProperty (lit "Referrer-Policy") StringHeader false false;
   HeaderProperty (lit "Retry-After") DateOrSeconds false false;
   HeaderProperty (lit "Server") StringHeader false false;
   HeaderProperty (lit "Set-Cookie") Parameters false false;
   HeaderProperty (lit "Set-Cookie2") Parameters false false;
   HeaderProperty (lit "SourceMap") Url false false;
   HeaderProperty (lit "Strict-Transport-Security") Parameters false false;
   HeaderProperty (lit "TE") StringHeader true true;
   HeaderProperty (lit "Tk") Character false false;
   HeaderProperty (lit "Trailer") ContainsOtherHeaders false false;
   HeaderProperty (lit "Transfer-Encoding") StringHeader false true;
   HeaderProperty (lit "Upgrade-Insecure-Requests") Integer false false;
   HeaderProperty (lit "User-Agent") StringHeader false false;
   HeaderProperty (lit "Vary") StringHeader false true;
   HeaderProperty (lit "Via") StringHeader false true;
   HeaderProperty (lit "WWW-Authenticate") StringHeader false false;
   HeaderProperty (lit "Warning") StringHeader false false;
   HeaderProperty (lit "X-Content-Type-Options") StringHeader false false;
   HeaderProperty (lit "X-DNS-Prefetch-Control") OnOff false false;
   HeaderProperty (lit "X-Forwarded-For") IP false true;
   HeaderProperty (lit "X-Forwarded-Host") StringHeader false false;
   HeaderProperty (lit "X-Forwarded-Proto") StringHeader false false;
   HeaderProperty (lit "X-Frame-Options") StringHeader false false;
   HeaderProperty (lit "X-XSS-Protection") StringHeader false false].

Definition headerType (name : str) : HeaderType :=
  match List.find (fun p => bool_decide (header_property_name p = name)) httpHeaderProperties with
  | Some p => header_property_type p
  | None => CustomHeader
  end.

Definition listSeparatorChar (headerName : str) : ascii := ",".

(** * Headers *)

Inductive MimeType :=
  | CatchAll | TextHTML | TextXML | TextPlain | TextPlainProm_0_0_4 | ApplicationJSON | ImageXIcon.

#[export] Instance mime_type_eq_dec : EqDecision MimeType.
Proof. solve_decision. Defined.

(** [mimeTypeMap]; reading the missing [TextXML] inserts an empty string. *)
Definition mimeTypeMap (mt : MimeType) : str :=
  match mt with
  | CatchAll => lit "*/*"
  | TextHTML => lit "text/html"
  | TextXML => []
  | TextPlain => lit "text/plain"
  | TextPlainProm_0_0_4 => lit "text/plain; version=0.0.4"
  | ApplicationJSON => lit "application/json"
  | ImageXIcon => lit "image/x-icon"
  end.

Record HTTPHeader := MkHeader { name_ : str; value_ : str; type_ : HeaderType }.

(** The constructor the server uses for its own headers. *)
Definition server_header (n v : str) : HTTPHeader := MkHeader n v ServerSet.

Definition DQUOTE : ascii := "034".

Definition invalid_header : HTTPHeader := MkHeader [] [] Invalid.

(** [HTTPHeader::parse]; the spaces of the name are removed, those of the value are kept. *)
Definition parse_header (header : str) : HTTPHeader :=
  let colonPos := find header ":" 0 in
  if colonPos =? npos then invalid_header
  else
    let headerName := filter (fun c => Ascii.eqb c " " = false) (prefix header colonPos) in
    let headerValue := suffix header (colonPos + 1) in
    if count DQUOTE headerValue mod 2 =? 0
    then MkHeader headerName headerValue (headerType headerName)
    else MkHeader headerName headerValue Invalid.

(** [splitHeaderValue]: the pieces between separators, without surrounding spaces. *)
Fixpoint drop_spaces (s : str) : str :=
  match s with c :: s' => if Ascii.eqb c " " then drop_spaces s' else s | [] => [] end.

Definition trim (s : str) : str := rev (drop_spaces (rev (drop_spaces s))).

Fixpoint split_at (sep : ascii) (s : str) : list str :=
  match s with
  | [] => [[]]
  | c :: s' =>
      if Ascii.eqb c sep then [] :: split_at sep s'
      else match split_at sep s' with piece :: l => (c :: piece) :: l | [] => [[c]] end
  end.

Definition headerValueAsList (h : HTTPHeader) : list str :=
  map trim (split_at (listSeparatorChar (name_ h)) (value_ h)).

(** [size_t number = std::stoll(value_)] *)
Definition headerValueAsNumber (h : HTTPHeader) : res Z := n ← stoll 10 (value_ h); Ok (u64 n).

(** * Messages *)

Inductive HTTPProtocol := InvalidProtocol | HTTP_0_9 | HTTP_1_0 | HTTP_1_1 | HTTP_2_0.

#[export] Instance protocol_eq_dec : EqDecision HTTPProtocol.
Proof. solve_decision. Defined.

Definition protocol_map_ : list (HTTPProtocol * str) :=
  [(HTTP_0_9, lit "HTTP/0.9"); (HTTP_1_0, lit "HTTP/1.0"); (HTTP_1_1, lit "HTTP/1.1");
   (HTTP_2_0, lit "HTTP/2.0")].

(** [setProtocol] from a string. *)
Definition protocol_of_string (s : str) : res HTTPProtocol :=
  match List.find (fun p => bool_decide (p.2 = s)) protocol_map_ with
  | Some p => Ok p.1
  | None => Throw RuntimeError
  end.

(** [setProtocol] from an enumeration value. *)
Definition check_protocol (p : HTTPProtocol) : res HTTPProtocol :=
  match p with InvalidProtocol => Throw RuntimeError | _ => Ok p end.

(** [protocol_map_.at(p)] *)
Definition protocolAsString (p : HTTPProtocol) : res str :=
  match List.find (fun q => bool_decide (q.1 = p)) protocol_map_ with
  | Some q => Ok q.2
  | None => Throw OutOfRange
  end.

Abbreviation headers := (gmap str HTTPHeader).

(** [addHeader]: an existing name is a [runtime_error]. *)
Definition addHeader (h : HTTPHeader) (hs : headers) : res headers :=
  match hs !! name_ h with
  | Some _ => Throw RuntimeError
  | None => Ok (<[name_ h := h]> hs)
  end.

Definition hasHeader (name : string) (hs : headers) : bool := bool_decide (is_Some (hs !! lit name)).

Record HTTPRequest := MkRequest {
  protocol_ : HTTPProtocol;
  headers_ : headers;
  body_ : str;
  initialized_ : bool;
  method_ : HTTPRequestMethod;
  url_ : URL
}.

Definition HTTPRequest_init : HTTPRequest := MkRequest InvalidProtocol ∅ [] false GET URL_init.

Record HTTPResponse := MkResponse {
  response_protocol : HTTPProtocol;
  response_headers : headers;
  response_body : str;
  responseCode_ : Z
}.

Definition HTTPResponse_init : HTTPResponse := MkResponse InvalidProtocol ∅ [] 200.

Definition response_map_ : list (Z * str) :=
  [(100, lit "Continue"); (101, lit "Switching Protocols");
   (102, lit "Processing"); (200, lit "OK");
   (201, lit "Created"); (202, lit "Accepted");
   (203, lit "Non-authorative Information"); (204, lit "No Content");
   (205, lit "Reset Content"); (206, lit "Partial Content");
   (207, lit "Multi-Status"); (208, lit "Already Reported");
   (226, lit "IM Used"); (300, lit "Multiple Choices");
   (301, lit "Moved Permanently"); (302, lit "Found");
   (303, lit "See Other"); (304, lit "Not Modified");
   (305, lit "Use Proxy"); (307, lit "Temporary Redirect");
   (308, lit "Permanent Redirect"); (400, lit "Bad Request");
   (401, lit "Unauthorized"); (402, lit "Payment Required");
   (403, lit "Forbidden"); (404, lit "Not Found");
   (405, lit "Method Not Allowed"); (406, lit "Not Acceptable");
   (407, lit "Proxy Authentication Required"); (408, lit "Request Timeout");
   (409, lit "Conflict"); (410, lit "Gone");
   (411, lit "Length Required"); (412, lit "Precondition Failed");
   (413, lit "Payload Too Large"); (414, lit "Request-URI Too Long");
   (415, lit "Unsupported Media Type"); (416, lit "Request Range Not Satisfiable");
   (417, lit "Expectation Failed"); (418, lit "I'm a teapot");
   (421, lit "Misdirected Request"); (422, lit "Unprocessable Entity");
   (423, lit "Locked"); (424, lit "Failed Dependency");
   (426, lit "Upgrade Required"); (428, lit "Precondition Required");
   (429, lit "Too Many Requests"); (431, lit "Request Header Fields Too Large");
   (444, lit "Connection Closed Without Response"); (451, lit "Unavailable For Legal Reasons");
   (499, lit "Client Closed Request"); (500, lit "Internal Server Error");
   (501, lit "Not Implemented"); (502, lit "Bad Gateway");
   (503, lit "Service Unavailable"); (504, lit "Gateway Timeout");
   (505, lit "HTTP Version Not Supported"); (506, lit "Variant Also Negotiates");
   (507, lit "Insufficient Storage"); (508, lit "Loop Detected");
   (510, lit "Not Extended"); (511, lit "Network Authentication Required");
   (599, lit "Network Connect Timeout Error")].

Definition responseCodeAsString (code : Z) : res str :=
  match List.find (fun p => p.1 =? code) response_map_ with Some p => Ok p.2 | None => Throw OutOfRange end.

Definition setProtocol (p : HTTPProtocol) (r : HTTPResponse) : res HTTPResponse :=
  p ← check_protocol p; Ok (MkResponse p (response_headers r) (response_body r) (responseCode_ r)).

Definition response_addHeader (h : HTTPHeader) (r : HTTPResponse) : res HTTPResponse :=
  hs ← addHeader h (response_headers r);
  Ok (MkResponse (response_protocol r) hs (response_body r) (responseCode_ r)).

Definition addBody (body : str) (r : HTTPResponse) : HTTPResponse :=
  MkResponse (response_protocol r) (response_headers r) body (responseCode_ r).

Definition createResponse (mimeType : MimeType) (body : str) (rc : Z) (r : HTTPResponse) : res HTTPResponse :=
  r ← response_addHeader (server_header (lit "Content-Type") (mimeTypeMap mimeType)) r;
  r ← response_addHeader (server_header (lit "Content-Length") (to_string (size body))) r;
  Ok (MkResponse (response_protocol r) (response_headers r) body rc).

(** * Lines *)

(** The inner loop of [compressLWSAndRemoveCR]: [pos] moves to the end of the white space
    or to the last character. *)
Fixpoint skip_run (fuel : nat) (line : str) (pos : nat) : nat :=
  match fuel with
  | O => pos
  | S fuel' =>
      if (S pos <? length line)%nat then
        if isspace (nth (S pos) line Ascii.zero) then skip_run fuel' line (S pos) else S pos
      else pos
  end.

(** The outer loop; erasing keeps the characters up to [start] and from [pos] on. *)
Fixpoint compress_loop (fuel : nat) (line : str) (start end_ : nat) : str :=
  match fuel with
  | O => line
  | S fuel' =>
      if (start <? end_)%nat then
        if isspace (nth start line Ascii.zero) then
          let pos := skip_run (length line) line start in
          if (1 <? pos - start)%nat then
            compress_loop fuel' (take (S start) line ++ drop pos line) (S (S start)) (end_ - (pos - start - 1))
          else compress_loop fuel' line (S pos) end_
        else compress_loop fuel' line (S start) end_
      else line
  end.

Definition remove_CR (line : str) : str :=
  match rev line with
  | c :: l => if Ascii.eqb c CR then rev l else line
  | [] => line
  end.

Definition compressLWSAndRemoveCR (line : str) : str :=
  remove_CR (compress_loop (length line) line 0 (length line)).

(** * The socket stream *)

(** [pending] is what the client has still to send; [m] is the request being filled. *)
Record io := Io {
  pending : str;
  eofbit : bool;
  failbit : bool;
  sent : str;
  m : HTTPRequest
}.

(** The result of code that reads and writes the stream: a value, an exception, or a loop
    that has not ended within the fuel given. *)
Inductive reply (A : Type) := Done (a : A) | Raised (e : exn) | Looping.
Arguments Done {A} _.
Arguments Raised {A} _.
Arguments Looping {A}.

Definition S_ (A : Type) : Type := io -> io * reply A.

#[export] Instance S_ret : MRet S_ := fun A a s => (s, Done a).
#[export] Instance S_bind : MBind S_ := fun A B f x s =>
  match x s with
  | (s', Done a) => f a s'
  | (s', Raised e) => (s', Raised e)
  | (s', Looping) => (s', Looping)
  end.

Definition lift {A} (r : res A) : S_ A := fun s => (s, match r with Ok a => Done a | Throw e => Raised e end).
Definition raise {A} : S_ A := lift (Throw RuntimeError).
Definition request : S_ HTTPRequest := fun s => (s, Done (m s)).
Definition set_request (r : HTTPRequest) : S_ unit := fun s =>
  (Io (pending s) (eofbit s) (failbit s) (sent s) r, Done tt).

Definition good (s : io) : bool := negb (eofbit s) && negb (failbit s).
Definition set_bits (e f : bool) (s : io) : io :=
  Io (pending s) (eofbit s || e) (failbit s || f) (sent s) (m s).
Definition set_pending (p : str) (s : io) : io := Io p (eofbit s) (failbit s) (sent s) (m s).

(** [std::getline(rs, line)]: the line up to a line feed, which is consumed. On a stream
    that is not good the line keeps its old contents. *)
Definition getline (old : str) : S_ str := fun s =>
  if good s then
    match index_of (Ascii.eqb LF) (pending s) with
    | Some i => (set_pending (drop (S i) (pending s)) s, Done (take i (pending s)))
    | None => (set_bits true (bool_decide (pending s = [])) (set_pending [] s), Done (pending s))
    end
  else (set_bits false true s, Done old).

(** [rs.peek()], none for the end of the file. *)
Definition peek : S_ (option ascii) := fun s =>
  if good s then
    match pending s with
    | c :: _ => (s, Done (Some c))
    | [] => (set_bits true false s, Done None)
    end
  else (set_bits false true s, Done None).

(** [std::string data(length, 0); in.read(&data[0], length)] *)
Definition read_string (length_ : Z) : S_ str := fun s =>
  if max_size <? length_ then (s, Raised LengthError)
  else if good s then
    let data := prefix (pending s) length_ in
    let short := size (pending s) <? length_ in
    (set_bits short short (set_pending (suffix (pending s) length_) s),
     Done (data ++ replicate (Z.to_nat (length_ - size data)) Ascii.zero))
  else (set_bits false true s, Done (replicate (Z.to_nat length_) Ascii.zero)).

(** [ws << text] *)
Definition put (text : str) : S_ unit := fun s =>
  if good s then (Io (pending s) (eofbit s) (failbit s) (sent s ++ text) (m s), Done tt)
  else (set_bits false true s, Done tt).

Definition HTTP_EOL : str := [CR; LF].

(** * Reading a request *)

Definition set_protocol (p : HTTPProtocol) (r : HTTPRequest) : HTTPRequest :=
  MkRequest p (headers_ r) (body_ r) (initialized_ r) (method_ r) (url_ r).
Definition set_method (x : HTTPRequestMethod) (r : HTTPRequest) : HTTPRequest :=
  MkRequest (protocol_ r) (headers_ r) (body_ r) (initialized_ r) x (url_ r).
Definition set_url (x : URL) (r : HTTPRequest) : HTTPRequest :=
  MkRequest (protocol_ r) (headers_ r) (body_ r) (initialized_ r) (method_ r) x.
Definition setInitialized (r : HTTPRequest) : HTTPRequest :=
  MkRequest (protocol_ r) (headers_ r) (body_ r) true (method_ r) (url_ r).
Definition set_headers (x : headers) (r : HTTPRequest) : HTTPRequest :=
  MkRequest (protocol_ r) x (body_ r) (initialized_ r) (method_ r) (url_ r).
Definition set_body (x : str) (r : HTTPRequest) : HTTPRequest :=
  MkRequest (protocol_ r) (headers_ r) x (initialized_ r) (method_ r) (url_ r).

Definition update (f : HTTPRequest -> HTTPRequest) : S_ unit := r ← request; set_request (f r).

(** The first [c] erased, if there is one. *)
Definition erase_first (c : ascii) (s : str) : str :=
  match index_of (Ascii.eqb c) s with Some i => take i s ++ drop (S i) s | None => s end.

(** The three words of the request line. *)
Definition split_request_line (requestLine : str) : res (str * str * str) :=
  if count " " requestLine =? 2 then
    let firstSpace := find requestLine " " 0 in
    method ← substr requestLine 0 firstSpace;
    if bool_decide (method = []) then Throw RuntimeError
    else
      let secondSpace := find requestLine " " (firstSpace + 1) in
      url ← substr requestLine (firstSpace + 1) (secondSpace - firstSpace - 1);
      if bool_decide (url = []) then Throw RuntimeError
      else
        protocol ← substr requestLine (secondSpace + 1) npos;
        if bool_decide (protocol = []) then Throw RuntimeError else Ok (method, url, protocol)
  else Throw RuntimeError.

Definition add_request_header (h : HTTPHeader) : S_ unit :=
  r ← request; hs ← lift (addHeader h (headers_ r)); set_request (set_headers hs r).

(** The header loop: [line] and [concatLine] are the variables declared before it. *)
Fixpoint read_headers (fuel : nat) (line concatLine : str) : S_ unit :=
  match fuel with
  | O => fun s => (s, Looping)
  | S fuel' =>
      line ← getline line;
      let line := compressLWSAndRemoveCR line in
      let concatLine := concatLine ++ line in
      if bool_decide (concatLine = []) then mret tt
      else
        p ← peek;
        if bool_decide (p = Some " ") || bool_decide (p = Some HTAB) then read_headers fuel' line concatLine
        else
          let hh := parse_header concatLine in
          if bool_decide (type_ hh = Invalid) then raise
          else add_request_header hh ;; read_headers fuel' line []
  end.

(** [data += chunk]: a string has at most [max_size] characters. *)
Definition append (data chunk : str) : S_ str := fun s =>
  (s, if max_size <? size data + size chunk then Raised LengthError else Done (data ++ chunk)).

(** [readChunkedData] after the first chunk header. *)
Fixpoint read_chunks (fuel : nat) (chunkHeader data : str) : S_ str :=
  match fuel with
  | O => fun s => (s, Looping)
  | S fuel' =>
      if Ascii.eqb (front chunkHeader) "0" then mret data
      else
        length_ ← lift (stoll 16 chunkHeader);
        chunk ← read_string (u64 length_);
        data ← append data chunk;
        chunkHeader ← getline chunkHeader;
        chunkHeader ← getline chunkHeader;
        chunkHeader ← getline chunkHeader;
        read_chunks fuel' chunkHeader data
  end.

Definition readChunkedData (fuel : nat) : S_ str := h ← getline []; read_chunks fuel h [].

(** The loop over the trailers, which parses the same line again. *)
Fixpoint read_trailers (fuel : nat) (remainder : str) (numHeadersAdded : Z) : S_ Z :=
  match fuel with
  | O => fun s => (s, Looping)
  | S fuel' =>
      if Ascii.eqb (front remainder) CR then mret numHeadersAdded
      else
        let hh := parse_header remainder in
        if bool_decide (type_ hh = Invalid) then raise
        else add_request_header hh ;; read_trailers fuel' remainder (numHeadersAdded + 1)
  end.

(** * Writing a response *)

Section Server.

(** The order in which [std::unordered_map] iterates over the headers. *)
Context (iteration : headers -> list (str * HTTPHeader)).

Definition render_header (h : str * HTTPHeader) : str :=
  if bool_decide (h.1 = lit "Content-Type")
  then h.1 ++ lit ": " ++ value_ h.2 ++ lit "; charset=UTF-8" ++ HTTP_EOL
  else h.1 ++ lit ": " ++ value_ h.2 ++ HTTP_EOL.

Definition write_response (r : HTTPResponse) : S_ unit :=
  p ← lift (protocolAsString (response_protocol r));
  put (p ++ lit " " ++ to_string (responseCode_ r) ++ lit " ") ;;
  reason ← lift (responseCodeAsString (responseCode_ r));
  put (reason ++ HTTP_EOL) ;;
  put (concat (map render_header (iteration (response_headers r))) ++ HTTP_EOL) ;;
  put (response_body r).

(** ** The body of a request *)

(** The answer to [Expect: 100-continue]. *)
Definition send_continue : S_ unit :=
  resp ← lift (setProtocol HTTP_1_1 HTTPResponse_init);
  write_response (MkResponse (response_protocol resp) (response_headers resp) (response_body resp) 100).

Definition header_value (name : string) (hs : headers) : str :=
  match hs !! lit name with Some h => value_ h | None => [] end.

Definition contains (pattern s : str) : bool := negb (find_sub s pattern 0 =? npos).

Definition read_body (fuel : nat) (hasBody : HTTPRequestHasBody) : S_ unit :=
  r ← request;
  contentLength ← lift (match headers_ r !! lit "Content-Length" with
                        | Some h => n ← headerValueAsNumber h; Ok (Some n)
                        | None => Ok None
                        end);
  let validCL := bool_decide (is_Some contentLength) in
  let chunkedTE := contains (lit "chunked") (header_value "Transfer-Encoding" (headers_ r)) in
  let trailerLength :=
    match headers_ r !! lit "Trailer" with Some h => Z.of_nat (length (headerValueAsList h)) | None => 0 end in
  if (chunkedTE && negb validCL) || (negb chunkedTE && validCL) then
    let expect := header_value "Expect" (headers_ r) in
    (if bool_decide (expect = lit "100-continue") then send_continue
     else if bool_decide (expect = []) then mret tt else raise) ;;
    if chunkedTE then
      data ← readChunkedData fuel;
      update (set_body data) ;;
      remainder ← getline [];
      numHeadersAdded ← read_trailers 2 remainder 0;
      if numHeadersAdded =? trailerLength then mret tt else raise
    else
      body ← read_string (default 0 contentLength);   (* a local variable *)
      mret tt
  else if bool_decide (hasBody = Optional) && negb validCL && negb chunkedTE then mret tt
  else raise.

(** As many rounds of the header loop as any input needs. *)
Definition header_fuel (s : io) : nat := length (pending s) + 3.

Definition read_request (fuel : nat) : S_ unit :=
  requestLine ← getline [];
  failed ← (fun s => (s, Done (failbit s)));
  if failed : bool then raise
  else
    let requestLine := erase_first CR (erase_first LF requestLine) in
    words ← lift (split_request_line requestLine);
    let '(method, url, protocol) := words in
    p ← lift (protocol_of_string protocol); update (set_protocol p) ;;
    x ← lift (getMethodAsEnum method); update (set_method x) ;;
    u ← lift (parse url); update (set_url u) ;;
    update setInitialized ;;
    n ← (fun s => (s, Done (header_fuel s)));
    read_headers n [] [] ;;
    r ← request;
    hasBody ← lift (requestHasBody (method_ r));
    if bool_decide (hasBody = No) then mret tt else read_body fuel hasBody.

(** * [HTTPConnection::execute] *)

(** The registered callbacks, and the date of each response. *)
Context (callbackList_ : HTTPRequestMethod -> option (HTTPRequest -> HTTPResponse -> res HTTPResponse)).
Context (datetime : nat -> str).

Definition requestLimit : nat := 100.

Definition respond_bad_request (body : str) (r : HTTPResponse) : S_ unit :=
  r ← lift (createResponse TextPlain body 400 r); write_response r.

(** The answer to a request that was read, before the server's own headers. *)
Definition process_request (req : HTTPRequest) (response : HTTPResponse) : res HTTPResponse :=
  match callbackList_ (method_ req) with
  | Some callback => callback req response
  | None =>
      name ← getMethodAsString (method_ req);
      createResponse TextPlain
        (lit "501 Not Implemented." ++ lit " Method " ++ [DQUOTE] ++ name ++ [DQUOTE] ++
         lit " is not implemented (yet).")
        501 response
  end.

(** The connection headers: the response, and whether to listen for another request; when
    the request does not ask for it, the variable keeps the value of the round before. *)
Definition connection_headers (numRequests : nat) (req : HTTPRequest) (keepListening : bool)
    (response : HTTPResponse) : res (HTTPResponse * bool) :=
  if (numRequests <? requestLimit)%nat then
    if bool_decide (header_value "Connection" (headers_ req) = lit "keep-alive") then
      r ← response_addHeader (server_header (lit "Connection") (lit "keep-alive")) response;
      r ← response_addHeader (server_header (lit "Keep-Alive") (lit "timeout=10, max=100")) r;
      Ok (r, true)
    else Ok (response, keepListening)
  else
    r ← response_addHeader (server_header (lit "Connection") (lit "close")) response;
    Ok (r, false).

(** The post-processing of a response. *)
Definition finish_response (numRequests : nat) (req : HTTPRequest) (keepListening : bool)
    (response : HTTPResponse) : res (HTTPResponse * bool) :=
  r ← response_addHeader (server_header (lit "Server") (lit "PCMWebServer 0.1")) response;
  r ← response_addHeader (server_header (lit "Date") (datetime numRequests)) r;
  r ← connection_headers numRequests req keepListening r;
  Ok (if bool_decide (method_ req = HEAD) then addBody [] r.1 else r.1, r.2).

(** [try { ... } catch( std::exception& e )]: whether an exception was caught. *)
Definition try {A} (x : S_ A) : S_ bool := fun s =>
  match x s with
  | (s', Done _) => (s', Done false)
  | (s', Raised _) => (s', Done true)
  | (s', Looping) => (s', Looping)
  end.

Definition missing_host : str := lit "400 Bad Request. HTTP 1.1: Mandatory Host header is missing.".

(** The loop of [execute], for at most [rounds] requests. *)
Fixpoint execute_loop (fuel rounds numRequests : nat) (keepListening : bool) : S_ unit :=
  match rounds with
  | O => mret tt
  | S rounds' =>
      set_request HTTPRequest_init ;;
      caught ← try (read_request fuel);
      req ← request;
      if caught : bool then
        response ← lift (setProtocol (if initialized_ req then protocol_ req else HTTP_1_1) HTTPResponse_init);
        respond_bad_request (lit "400 Bad Request") response
      else
        let numRequests := S numRequests in
        response ← lift (setProtocol (protocol_ req) HTTPResponse_init);
        if bool_decide (protocol_ req = HTTP_1_1) && negb (hasHeader "Host" (headers_ req))
        then respond_bad_request missing_host response
        else
          response ← lift (process_request req response);
          r ← lift (finish_response numRequests req keepListening response);
          write_response r.1 ;;
          if r.2 : bool then execute_loop fuel rounds' numRequests true else mret tt
  end.

(** A connection ends after [requestLimit] requests. *)
Definition execute (fuel : nat) : S_ unit := execute_loop fuel requestLimit 0 false.

End Server.

(** A connection on which the client sends [text] and then closes. *)
Definition connected (text : str) : io := Io text false false [] HTTPRequest_init.
