(* ===== verification/HttpProperties.v ===== *)
(** The properties of the HTTP server of [Http]: the normalisation of header lines, the
    termination of the header loop, the round trip of requests, and what a connection
    sends. The callbacks are functions that return a response or throw. *)

From S2P Require Import Prelude CxxString Url Http.
Local Open Scope char_scope.
Local Open Scope Z_scope.
Local Open Scope list_scope.

(** * Header lines *)

(** What [compressLWSAndRemoveCR] means: a white space that follows a white space is
    dropped, unless it ends the line. *)
Fixpoint squeeze (after_space : bool) (s : str) : str :=
  match s with
  | [] => []
  | c :: s' =>
      if isspace c && after_space && negb (bool_decide (s' = [])) then squeeze true s'
      else c :: squeeze (isspace c) s'
  end.

Lemma split_spaces s : exists w r, s = w ++ r /\ forallb isspace w = true /\
  match r with [] => True | d :: _ => isspace d = false end.
Proof.
  induction s as [|c s (w & r & -> & Hw & Hr)]; [by exists [], []|].
  destruct (isspace c) eqn:E.
  - exists (c :: w), r. simpl. by rewrite E, Hw.
  - by exists [], (c :: w ++ r).
Qed.

Lemma skip_run_spec w r fuel a c :
  forallb isspace w = true -> match r with [] => True | d :: _ => isspace d = false end ->
  (length w < fuel)%nat ->
  skip_run fuel (a ++ c :: w ++ r) (length a) =
  (length a + length w + match r with [] => 0 | _ => 1 end)%nat.
Proof.
  revert fuel a c. induction w as [|x w IH]; intros fuel a c Hw Hr Hf; (destruct fuel as [|fuel]; [simpl in Hf; lia|]).
  - cbn [skip_run app length]. rewrite length_app. destruct r as [|d r]; cbn [length].
    + destruct (Nat.ltb_spec (S (length a)) (length a + 1)); lia.
    + destruct (Nat.ltb_spec (S (length a)) (length a + S (S (length r)))); [|lia].
      rewrite (cons_middle c), (app_assoc a), app_nth2 by (rewrite length_app; simpl; lia).
      rewrite length_app. simpl. replace (S (length a) - (length a + 1))%nat with O by lia.
      simpl. rewrite Hr. lia.
  - cbn [forallb] in Hw. apply andb_true_iff in Hw as [Hx Hw]. cbn [skip_run app length]. rewrite length_app. cbn [length].
    destruct (Nat.ltb_spec (S (length a)) (length a + S (S (length (w ++ r))))); [|lia].
    rewrite (cons_middle c), (app_assoc a), app_nth2 by (rewrite length_app; simpl; lia).
    rewrite length_app. simpl. replace (S (length a) - (length a + 1))%nat with O by lia. simpl. rewrite Hx.
    replace (S (length a)) with (length (a ++ [c])) by (rewrite length_app; simpl; lia).
    rewrite IH by (done || (cbn [length] in Hf; lia)). rewrite length_app. simpl. lia.
Qed.

Lemma squeeze_spaces w d r :
  forallb isspace w = true -> squeeze true (w ++ d :: r) = squeeze true (d :: r).
Proof.
  induction w as [|x w IH]; [done|]. cbn [forallb app]. rewrite andb_true_iff. intros [Hx Hw].
  cbn [squeeze]. rewrite Hx, bool_decide_eq_false_2 by (by destruct w). simpl. by apply IH.
Qed.

Lemma squeeze_trailing w x : forallb isspace w = true -> squeeze true (w ++ [x]) = [x].
Proof.
  intros Hw. rewrite squeeze_spaces by done. cbn [squeeze]. rewrite bool_decide_eq_true_2 by done.
  by rewrite andb_false_r.
Qed.

Lemma squeeze_nonspace b d r : isspace d = false -> squeeze b (d :: r) = d :: squeeze false r.
Proof. intros Hd. cbn [squeeze]. by rewrite Hd. Qed.

(** What erasing leaves, with [start] after [a] and [pos] after [w]. *)
Lemma erase_middle (a w r : str) (c : ascii) st pos :
  st = S (length a) -> pos = S (length a + length w) ->
  take st (a ++ c :: w ++ r) ++ drop pos (a ++ c :: w ++ r) = (a ++ [c]) ++ r.
Proof.
  intros -> ->. rewrite (cons_middle c), (app_assoc a).
  replace (S (length a)) with (length (a ++ [c])) by (rewrite length_app; simpl; lia).
  rewrite take_app_length. f_equal. rewrite app_assoc.
  replace (S (length a + length w)) with (length ((a ++ [c]) ++ w)) by (rewrite !length_app; simpl; lia).
  apply drop_app_length.
Qed.

(** The part of the line from [start] on. *)
Lemma compress_loop_spec fuel a b line start end_ :
  line = a ++ b -> start = length a -> end_ = (length a + length b)%nat -> (length b <= fuel)%nat ->
  compress_loop fuel line start end_ = a ++ squeeze false b.
Proof.
  revert a b line start end_. induction fuel as [|fuel IH]; intros a b line start end_ -> -> -> Hf.
  { destruct b; [done|simpl in Hf; lia]. }
  destruct b as [|c b]; cbn [compress_loop].
  { rewrite (proj2 (Nat.ltb_ge _ _)) by (simpl; lia). done. }
  rewrite (proj2 (Nat.ltb_lt _ _)) by (simpl; lia). rewrite app_nth2, Nat.sub_diag by lia. cbn [nth].
  destruct (isspace c) eqn:Ec.
  2: { rewrite (IH (a ++ [c]) b), squeeze_nonspace; try done.
       all: rewrite <- ?app_assoc, ?length_app; simpl in *; lia || done. }
  destruct (split_spaces b) as (w & r & -> & Hw & Hr).
  rewrite skip_run_spec by (try done; rewrite !length_app; simpl; rewrite ?length_app; lia).
  assert (squeeze false (c :: w ++ r) = c :: squeeze true (w ++ r)) as ->.
  { cbn [squeeze]. by rewrite Ec. }
  destruct r as [|d r].
  - rewrite app_nil_r in *. destruct w as [|x w _] using rev_ind.
    { rewrite (proj2 (Nat.ltb_ge _ _)) by (simpl; lia). rewrite (IH (a ++ [c]) []); simpl.
      all: rewrite <- ?app_assoc, ?length_app; simpl in *; lia || done. }
    rewrite forallb_app in Hw. apply andb_true_iff in Hw as [Hw Hx]. rewrite squeeze_trailing by done.
    assert (Hend : forall line start end_, line = (a ++ [c]) ++ [x] -> start = (length a + 2)%nat ->
              end_ = (length a + 2)%nat -> compress_loop fuel line start end_ = a ++ [c; x]).
    { intros line start end_ -> -> ->. rewrite (IH (a ++ [c; x]) []).
      all: rewrite <- ?app_assoc, ?length_app; simpl in *; lia || done. }
    rewrite !length_app in *. cbn [length] in *. destruct (Nat.ltb_spec 1 (length a + (length w + 1) + 0 - length a)).
    + apply Hend; [|lia|rewrite ?length_app; simpl; lia]. rewrite erase_middle; [done|lia..].
    + apply Hend; [|lia|rewrite ?length_app; simpl; lia]. destruct w; [by rewrite <- app_assoc|simpl in *; lia].
  - rewrite squeeze_spaces, squeeze_nonspace by done.
    rewrite ?length_app in *. cbn [length] in *. rewrite ?length_app in *. cbn [length] in *.
    assert (Hnext : forall line start end_, line = (a ++ [c]) ++ d :: r -> start = (length a + 2)%nat ->
              end_ = (length a + 2 + length r)%nat ->
              compress_loop fuel line start end_ = a ++ c :: d :: squeeze false r).
    { intros line start end_ -> -> ->. rewrite (IH (a ++ [c; d]) r).
      all: rewrite <- ?app_assoc, ?length_app; simpl in *; lia || done. }
    destruct (Nat.ltb_spec 1 (length a + length w + 1 - length a)).
    + apply Hnext; [|lia|rewrite ?length_app; simpl; lia]. rewrite erase_middle; [done|lia..].
    + apply Hnext; [|lia|rewrite ?length_app; simpl; lia]. destruct w; [by rewrite <- app_assoc|simpl in *; lia].
Qed.

Lemma compress_is_squeeze_ line : compressLWSAndRemoveCR line = remove_CR (squeeze false line).
Proof. unfold compressLWSAndRemoveCR. by rewrite (compress_loop_spec _ [] line). Qed.

(** Normalising a header line drops every white space that follows another one, except
    a white space at the very end, and then one carriage return at the end: the loop that
    erases in place computes this in one pass. *)
Theorem compress_is_squeeze line : compressLWSAndRemoveCR line = remove_CR (squeeze false line).
Proof. apply compress_is_squeeze_. Qed.

(** * The header loop ends *)

Lemma squeeze_length b s : (length (squeeze b s) <= length s)%nat.
Proof.
  revert b. induction s as [|c s IH]; intros b; [done|]. cbn [squeeze].
  destruct (_ && _); simpl; [specialize (IH true)|specialize (IH (isspace c))]; lia.
Qed.

Lemma squeeze_same b s : length (squeeze b s) = length s -> squeeze b s = s.
Proof.
  revert b. induction s as [|c s IH]; intros b; [done|]. cbn [squeeze].
  destruct (_ && _); simpl; intros H; [pose proof (squeeze_length true s); lia|].
  f_equal. apply IH. lia.
Qed.

Lemma remove_CR_cases s : remove_CR s = s \/ s = remove_CR s ++ [CR].
Proof.
  unfold remove_CR. destruct (rev s) as [|c l] eqn:E; [by left|].
  assert (s = rev l ++ [c]) as -> by (rewrite <- (rev_involutive s), E; done).
  destruct (Ascii.eqb_spec c CR) as [->|]; [by right|by left].
Qed.

Lemma compress_length line : (length (compressLWSAndRemoveCR line) <= length line)%nat.
Proof.
  rewrite compress_is_squeeze_. pose proof (squeeze_length false line).
  destruct (remove_CR_cases (squeeze false line)) as [->|E]; [done|].
  apply (f_equal length) in E. rewrite length_app in E. simpl in E. lia.
Qed.

Lemma compress_same line :
  length (compressLWSAndRemoveCR line) = length line -> compressLWSAndRemoveCR line = line.
Proof.
  rewrite compress_is_squeeze_. pose proof (squeeze_length false line). intros Hl.
  destruct (remove_CR_cases (squeeze false line)) as [E|E].
  - rewrite E in *. by apply squeeze_same.
  - apply (f_equal length) in E. rewrite length_app in E. simpl in E. lia.
Qed.

(** A stream that is not good any more. *)
Definition stuck (s : io) : Prop := good s = false.

Lemma stuck_set_bits e f s : stuck s -> stuck (set_bits e f s).
Proof. unfold stuck, good. simpl. by destruct (eofbit s), (failbit s), e, f. Qed.

Lemma stuck_eof f s : stuck (set_bits true f s).
Proof. unfold stuck, good. simpl. by rewrite orb_true_r. Qed.

Lemma getline_stuck s line : stuck s -> getline line s = (set_bits false true s, Done line).
Proof. intros H. unfold getline. by rewrite H. Qed.

Lemma peek_stuck s : stuck s -> peek s = (set_bits false true s, Done None).
Proof. intros H. unfold peek. by rewrite H. Qed.

(** The header of a line is among the headers already. *)
Definition added (s : io) (line : str) : Prop :=
  type_ (parse_header line) <> Invalid /\ is_Some (headers_ (m s) !! name_ (parse_header line)).

Definition ended (s : io * reply unit) : Prop := snd s <> Looping.

Lemma addHeader_some h hs : is_Some (hs !! name_ h) -> addHeader h hs = Throw RuntimeError.
Proof. intros [x Hx]. unfold addHeader. by rewrite Hx. Qed.

Lemma addHeader_none h hs : hs !! name_ h = None -> addHeader h hs = Ok (<[name_ h := h]> hs).
Proof. intros Hx. unfold addHeader. by rewrite Hx. Qed.

(** The state with other headers. *)
Definition with_headers (hs : headers) (s : io) : io :=
  Io (pending s) (eofbit s) (failbit s) (sent s) (set_headers hs (m s)).

Lemma add_request_header_bind {A} h (k : S_ A) s :
  (add_request_header h ;; k) s =
  match addHeader h (headers_ (m s)) with
  | Ok hs => k (with_headers hs s)
  | Throw e => (s, Raised e)
  end.
Proof.
  unfold add_request_header, mbind, S_bind, request, lift, set_request.
  by destruct (addHeader h (headers_ (m s))).
Qed.

(** One round on a stuck stream. *)
Lemma stuck_round_eq fuel s line :
  stuck s ->
  let line' := compressLWSAndRemoveCR line in
  let s' := set_bits false true (set_bits false true s) in
  read_headers (S fuel) line [] s =
  if bool_decide (line' = []) then (set_bits false true s, Done tt)
  else if bool_decide (type_ (parse_header line') = Invalid) then (s', Raised RuntimeError)
  else match addHeader (parse_header line') (headers_ (m s')) with
       | Ok hs => read_headers fuel line' [] (with_headers hs s')
       | Throw e => (s', Raised e)
       end.
Proof.
  intros Hs line' s'. cbn [read_headers]. unfold mbind at 1 2, S_bind. rewrite getline_stuck by done.
  rewrite app_nil_l. fold line'. destruct (bool_decide (line' = [])); [done|].
  rewrite peek_stuck by by apply stuck_set_bits. fold s'. rewrite !bool_decide_eq_false_2 by done. cbn [orb].
  destruct (bool_decide (type_ (parse_header line') = Invalid)); [done|]. by rewrite add_request_header_bind.
Qed.

Lemma stuck_round fuel s line :
  stuck s ->
  let line' := compressLWSAndRemoveCR line in
  ended (read_headers (S fuel) line [] s) \/
  (~ added s line' /\
   exists s', stuck s' /\ added s' line' /\
     read_headers (S fuel) line [] s = read_headers fuel line' [] s').
Proof.
  intros Hs line'. rewrite (stuck_round_eq fuel s line Hs). fold line'.
  destruct (bool_decide (line' = [])); [by left|].
  destruct (decide (type_ (parse_header line') = Invalid)) as [Hi|Hi].
  { left. by rewrite bool_decide_eq_true_2. }
  rewrite bool_decide_eq_false_2 by done. unfold added. cbn [m set_bits].
  destruct (headers_ (m s) !! name_ (parse_header line')) as [h|] eqn:Hh.
  { left. rewrite addHeader_some by (rewrite Hh; eauto). done. }
  right. rewrite addHeader_none by done. split; [by intros [_ []]|].
  eexists. split_and!; [| | |reflexivity]; [|done|].
  - by do 2 apply stuck_set_bits.
  - cbn [m with_headers headers_ set_headers]. rewrite lookup_insert_eq. eauto.
Qed.

Lemma added_ends fuel s line :
  stuck s -> added s line -> (length line < fuel)%nat -> ended (read_headers fuel line [] s).
Proof.
  revert s line. induction fuel as [|fuel IH]; intros s line Hs Ha Hf; [lia|].
  destruct (stuck_round fuel s line Hs) as [H|(Hn & s' & Hs' & Ha' & ->)]; [done|].
  apply IH; [done|done|]. pose proof (compress_length line).
  destruct (decide (length (compressLWSAndRemoveCR line) = length line)) as [E|]; [|lia].
  apply compress_same in E. by rewrite E in Hn.
Qed.

Lemma stuck_ends fuel s line :
  stuck s -> (length line + 1 < fuel)%nat -> ended (read_headers fuel line [] s).
Proof.
  intros Hs Hf. destruct fuel as [|fuel]; [lia|].
  destruct (stuck_round fuel s line Hs) as [H|(_ & s' & Hs' & Ha' & ->)]; [done|].
  apply added_ends; [done|done|]. pose proof (compress_length line). lia.
Qed.

Lemma headers_end fuel s line concatLine :
  good s = true -> (length (pending s) + 2 < fuel)%nat -> ended (read_headers fuel line concatLine s).
Proof.
  revert s line concatLine. induction fuel as [|fuel IH]; intros s line concatLine Hs Hf; [lia|].
  cbn [read_headers]. unfold mbind at 1 2, S_bind. unfold getline. rewrite Hs.
  destruct (index_of (Ascii.eqb LF) (pending s)) as [i|] eqn:Ei.
  - set (s1 := set_pending _ s). set (l := compressLWSAndRemoveCR (take i (pending s))).
    assert (Hs1 : good s1 = true) by done. pose proof (index_of_lt _ _ _ Ei) as Hi.
    assert (Hp1 : (length (pending s1) + i < length (pending s))%nat).
    { subst s1. cbn [pending set_pending]. rewrite length_drop. lia. }
    assert (Hl : (length l <= i)%nat).
    { pose proof (compress_length (take i (pending s))) as H. rewrite length_take in H. unfold l. lia. }
    destruct (bool_decide (concatLine ++ l = [])); [done|]. unfold peek. rewrite Hs1.
    destruct (pending s1) as [|c p] eqn:Ep.
    + rewrite !bool_decide_eq_false_2 by done. cbn [orb].
      destruct (bool_decide (type_ _ = Invalid)); [done|].
      rewrite add_request_header_bind. destruct (addHeader _ _) as [hs|]; [|done]. apply stuck_ends; [apply stuck_eof|]. lia.
    + destruct (_ || _).
      { apply IH; [done|]. rewrite Ep. simpl in *. lia. }
      destruct (bool_decide (type_ _ = Invalid)); [done|].
      rewrite add_request_header_bind. destruct (addHeader _ _) as [hs|]; [|done]. apply IH; [done|]. cbn [pending with_headers]; rewrite Ep; simpl in *; lia.
  - set (s1 := set_bits true _ _). set (l := compressLWSAndRemoveCR (pending s)).
    assert (Hs1 : stuck s1) by apply stuck_eof.
    pose proof (compress_length (pending s)) as Hl. fold l in Hl.
    destruct (bool_decide (concatLine ++ l = [])); [done|]. rewrite peek_stuck by done.
    rewrite !bool_decide_eq_false_2 by done. cbn [orb].
    destruct (bool_decide (type_ _ = Invalid)); [done|].
    rewrite add_request_header_bind. destruct (addHeader _ _) as [hs|]; [|done]. apply stuck_ends; [by apply stuck_set_bits|]. lia.
Qed.

(** The loop that reads the headers ends on every input, also when the client closes
    the connection in the middle of a header: a line that is seen again, because the stream
    does not deliver any more, is rejected as a duplicate. *)
Theorem read_headers_end s : good s = true -> snd (read_headers (header_fuel s) [] [] s) <> Looping.
Proof. intros Hs. apply headers_end; [done|]. unfold header_fuel. lia. Qed.

Lemma read_headers_end_witness :
  snd (read_headers (header_fuel (connected (lit "Host: x"))) [] [] (connected (lit "Host: x"))) <> Looping.
Proof. apply read_headers_end. reflexivity. Defined.

(** * Truncated chunks *)

(** A read of [n] characters that the stream does not have: it gives [n] characters and leaves
    a stream that is not good. *)
Lemma read_string_short s n : 0 <= n <= max_size -> size (pending s) < n \/ stuck s ->
  exists s1 data, read_string n s = (s1, Done data) /\ size data = n /\ stuck s1.
Proof.
  intros Hn Hs. unfold read_string. destruct (Z.ltb_spec max_size n); [lia|]. destruct (good s) eqn:Hg.
  - destruct Hs as [Hs|Hs]; [|unfold stuck in Hs; congruence]. destruct (Z.ltb_spec (size (pending s)) n); [|lia].
    eexists _, _. split; [reflexivity|]. split; [|apply stuck_eof]. unfold size in *. rewrite length_app, length_replicate.
    unfold prefix. rewrite length_take. lia.
  - eexists _, _. split; [reflexivity|]. split; [|by apply stuck_set_bits]. unfold size. rewrite length_replicate. lia.
Qed.

(** The rounds of the loop on a stream that has ended: the header stays the same, and [n]
    characters are appended in every one of them. *)
Lemma truncated_rounds fuel s h data n :
  size (pending s) < u64 n \/ stuck s -> Ascii.eqb (front h) "0" = false -> stoll 16 h = Ok n -> 0 < u64 n <= max_size ->
  snd (read_chunks fuel h data s) =
    (if Z.of_nat fuel * u64 n <=? max_size - size data then Looping else if (fuel =? 0)%nat then Looping else Raised LengthError).
Proof.
  revert s data. induction fuel as [|fuel IH]; intros s data Hs Hf Hn Hm; [by destruct (_ <=? _)|].
  cbn [read_chunks]. rewrite Hf, Hn. unfold lift, append, mbind, S_bind.
  destruct (read_string_short s (u64 n) ltac:(lia) Hs) as (s1 & c & -> & Hc & H1).
  rewrite Hc. destruct (Z.ltb_spec max_size (size data + u64 n)) as [Hl|Hl].
  - destruct (Z.leb_spec (Z.of_nat (S fuel) * u64 n) (max_size - size data)); [nia|done].
  - do 3 (rewrite getline_stuck by done; apply (stuck_set_bits false true) in H1). rewrite IH by (done || by right).
    rewrite size_app, Hc. destruct fuel as [|fuel].
    + destruct (Z.leb_spec (Z.of_nat 1 * u64 n) (max_size - size data)); [by destruct (_ <=? _)|lia].
    + repeat match goal with |- context [?a <=? ?b] => destruct (Z.leb_spec a b) end; nia || done.
Qed.

(** C40. A chunk that is cut short is not noticed: when the client announces [n] bytes, sends
    fewer and closes the connection, the loop over the chunks goes round with the same chunk
    header and appends [n] bytes to the body each time. While memory can be
    allocated it runs until the body would be longer than a string can be - then, and not in
    any round before, it ends with an exception, which [execute] catches. *)
Theorem truncated_chunk_fills_memory fuel s h data n :
  good s = true -> Ascii.eqb (front h) "0" = false -> stoll 16 h = Ok n ->
  u64 n <= max_size -> size data <= max_size -> size (pending s) < u64 n ->
  let rounds := Z.to_nat ((max_size - size data) / u64 n) in
  snd (read_chunks fuel h data s) = (if (fuel <=? rounds)%nat then Looping else Raised LengthError).
Proof.
  intros Hs Hf Hn Hm Hd Hp rounds. pose proof (size_nonneg (pending s)).
  rewrite (truncated_rounds fuel s h data n) by (done || lia || by left).
  pose proof (Z.div_mod (max_size - size data) (u64 n)) as Hdm. pose proof (Z.mod_pos_bound (max_size - size data) (u64 n)) as Hb.
  assert (Hq : 0 <= (max_size - size data) / u64 n) by (apply Z.div_pos; lia).
  destruct (Nat.leb_spec fuel rounds) as [Hr|Hr]; destruct (Z.leb_spec (Z.of_nat fuel * u64 n) (max_size - size data));
    unfold rounds in Hr; try done; try nia. by destruct fuel; [lia|].
Qed.

(** Five bytes are announced and three are sent: a thousand rounds are not enough. *)
Lemma truncated_chunk_fills_memory_witness :
  snd (read_chunks 1000 (lit "5" ++ [CR]) [] (connected (lit "hel"))) = Looping.
Proof.
  rewrite (truncated_chunk_fills_memory 1000 (connected (lit "hel")) (lit "5" ++ [CR]) [] 5); [|by vm_compute..].
  replace (1000 <=? _)%nat with true; [done|]. symmetry. apply Nat.leb_le. apply Nat2Z.inj_le. rewrite Z2Nat.id; [|vm_compute; discriminate].
  change (Z.of_nat 1000) with 1000. vm_compute. discriminate.
Defined.

(** * Hoare triples for code on the stream *)

(** From a state in [P], [x] returns a value in [Q], or throws in a state in [E], or loops. *)
Definition triple {A} (P : io -> Prop) (x : S_ A) (Q : A -> io -> Prop) (E : io -> Prop) : Prop :=
  forall s, P s -> match x s with
                   | (s', Done a) => Q a s'
                   | (s', Raised _) => E s'
                   | (s', Looping) => True
                   end.

Lemma triple_bind {A B} P R Q E (x : S_ A) (f : A -> S_ B) :
  triple P x R E -> (forall a, triple (R a) (f a) Q E) -> triple P (x ≫= f) Q E.
Proof.
  intros Hx Hf s Hs. specialize (Hx s Hs). unfold mbind, S_bind. destruct (x s) as [s' [a|e|]]; [|done|done].
  by apply Hf.
Qed.

Lemma triple_weaken {A} (P P' : io -> Prop) (Q Q' : A -> io -> Prop) (E E' : io -> Prop) x :
  triple P' x Q' E' -> (forall s, P s -> P' s) -> (forall a s, Q' a s -> Q a s) -> (forall s, E' s -> E s) ->
  triple P x Q E.
Proof.
  intros Hx HP HQ HE s Hs. specialize (Hx s (HP s Hs)). destruct (x s) as [s' [a|e|]]; auto.
Qed.

Lemma triple_ret {A} (P : io -> Prop) (Q : A -> io -> Prop) E (a : A) :
  (forall s, P s -> Q a s) -> triple P (mret a : S_ A) Q E.
Proof. intros H s Hs. by apply H. Qed.

Lemma triple_lift {A} (P : io -> Prop) (Q : A -> io -> Prop) (E : io -> Prop) (r : res A) :
  (forall a s, r = Ok a -> P s -> Q a s) -> (forall s, P s -> E s) -> triple P (lift r) Q E.
Proof. intros HQ HE s Hs. unfold lift. destruct r as [a|e]; [by apply HQ|by apply HE]. Qed.

(** A condition on what was sent and on the request, which the input does not matter for. *)
Definition stable (P : io -> Prop) : Prop :=
  forall s s', sent s = sent s' -> m s = m s' -> P s -> P s'.

Lemma triple_getline P line : stable P -> triple P (getline line) (fun _ => P) P.
Proof.
  intros HP s Hs. unfold getline. destruct (good s); [destruct (index_of _ _)|]; by apply (HP s).
Qed.

Lemma triple_peek P : stable P -> triple P peek (fun _ => P) P.
Proof.
  intros HP s Hs. unfold peek. destruct (good s); [destruct (pending s)|]; by apply (HP s).
Qed.

Lemma triple_read_string P n : stable P -> triple P (read_string n) (fun _ => P) P.
Proof.
  intros HP s Hs. unfold read_string. destruct (_ <? _); [done|]. destruct (good s); by apply (HP s).
Qed.

Lemma triple_request P (Q : HTTPRequest -> io -> Prop) E :
  (forall s, P s -> Q (m s) s) -> triple P request Q E.
Proof. intros H s Hs. by apply H. Qed.

Lemma triple_update (P : io -> Prop) (Q : unit -> io -> Prop) E f :
  (forall s, P s -> Q tt (Io (pending s) (eofbit s) (failbit s) (sent s) (f (m s)))) -> triple P (update f) Q E.
Proof. intros H s Hs. by apply H. Qed.

Lemma triple_pure {A} (P : io -> Prop) (H : Prop) (Q : A -> io -> Prop) (E : io -> Prop) x :
  (H -> triple P x Q E) -> triple (fun s => P s /\ H) x Q E.
Proof. intros Hx s [Hs Hp]. by apply Hx. Qed.

Lemma triple_lift_ok {A B} (P : io -> Prop) (a : A) (f : A -> S_ B) (Q : B -> io -> Prop) (E : io -> Prop) r :
  r = Ok a -> triple P (f a) Q E -> triple P (lift r ≫= f) Q E.
Proof. by intros ->. Qed.

Lemma triple_conseq {A} (P : io -> Prop) (Q : A -> io -> Prop) (E : io -> Prop) x :
  triple P x (fun _ => P) P -> (forall a s, P s -> Q a s) -> (forall s, P s -> E s) -> triple P x Q E.
Proof. intros H HQ HE. by eapply triple_weaken. Qed.

Lemma triple_try {A} P (Q : A -> io -> Prop) E (x : S_ A) :
  triple P x Q E ->
  triple P (try x) (fun caught s => if caught : bool then E s else exists a, Q a s) (fun _ => False).
Proof.
  intros H s Hs. specialize (H s Hs). unfold try. destruct (x s) as [s' [a|e|]]; [by exists a|done|done].
Qed.

(** What a condition on the request must withstand: the protocol and the [initialized_]
    flag do not change while headers and body are read. *)
Definition request_stable (P : io -> Prop) : Prop :=
  forall s s', sent s = sent s' -> protocol_ (m s) = protocol_ (m s') ->
    initialized_ (m s) = initialized_ (m s') -> P s -> P s'.

(** A condition that withstands the reading of headers. *)
Definition headers_stable (P : io -> Prop) : Prop :=
  forall s s' hs, sent s = sent s' -> m s' = m s \/ m s' = set_headers hs (m s) -> P s -> P s'.

Lemma headers_stable_stable P : headers_stable P -> stable P.
Proof. intros H s s' Hs Hm. apply (H s s' ∅); [done|by left]. Qed.

Lemma request_stable_headers P : request_stable P -> headers_stable P.
Proof. intros H s s' hs Hs Hm. apply H; [done|by destruct Hm as [->| ->]..]. Qed.

Lemma triple_set_body P data : request_stable P -> triple P (update (set_body data)) (fun _ => P) P.
Proof. intros HP. apply triple_update. intros s Hs. by apply (HP s). Qed.

Section Reading.
Context (P : io -> Prop) (HP : headers_stable P).

Lemma triple_raise {A} (Q : A -> io -> Prop) : triple P (raise : S_ A) Q P.
Proof. by intros s Hs. Qed.

Lemma triple_add_request_header h : triple P (add_request_header h) (fun _ => P) P.
Proof.
  intros s Hs. unfold add_request_header, mbind, S_bind, request, lift, set_request.
  destruct (addHeader h (headers_ (m s))) as [hs|]; [apply (HP s _ hs); by try right|done].
Qed.

Lemma triple_read_headers fuel line concatLine : triple P (read_headers fuel line concatLine) (fun _ => P) P.
Proof.
  pose proof (headers_stable_stable P HP) as Hst. revert line concatLine.
  induction fuel as [|fuel IH]; intros line concatLine; [done|]. cbn [read_headers].
  eapply triple_bind; [by apply triple_getline|]. intros l. case_bool_decide; [by apply triple_ret|].
  eapply triple_bind; [by apply triple_peek|]. intros c. destruct (_ || _); [apply IH|].
  case_bool_decide; [apply triple_raise|].
  eapply triple_bind; [apply triple_add_request_header|]. intros []. apply IH.
Qed.

Lemma triple_append data chunk : triple P (append data chunk) (fun _ => P) P.
Proof. intros s Hs. unfold append. by destruct (_ <? _). Qed.

Lemma triple_read_chunks fuel h data : triple P (read_chunks fuel h data) (fun _ => P) P.
Proof.
  pose proof (headers_stable_stable P HP) as Hst. revert h data.
  induction fuel as [|fuel IH]; intros h data; [done|]. cbn [read_chunks].
  destruct (Ascii.eqb _ _); [by apply triple_ret|].
  eapply (triple_bind _ (fun _ => P)); [by apply triple_lift|]. intros n.
  eapply triple_bind; [by apply triple_read_string|]. intros c. eapply triple_bind; [apply triple_append|]. intros d.
  do 3 (eapply triple_bind; [by apply triple_getline|]; intros ?). apply IH.
Qed.

Lemma triple_readChunkedData fuel : triple P (readChunkedData fuel) (fun _ => P) P.
Proof.
  eapply triple_bind; [by apply triple_getline, headers_stable_stable|]. intros h. apply triple_read_chunks.
Qed.

Lemma triple_read_trailers fuel remainder n : triple P (read_trailers fuel remainder n) (fun _ => P) P.
Proof.
  revert n. induction fuel as [|fuel IH]; intros n; [done|]. cbn [read_trailers].
  destruct (Ascii.eqb _ _); [by apply triple_ret|]. case_bool_decide; [apply triple_raise|].
  eapply triple_bind; [apply triple_add_request_header|]. intros []. apply IH.
Qed.

End Reading.

(** * What a connection sends *)

Section Server.
Context (iteration : headers -> list (str * HTTPHeader)).

(** The bytes of a response whose protocol and code have a text. *)
Definition render (r : HTTPResponse) : str :=
  match protocolAsString (response_protocol r), responseCodeAsString (responseCode_ r) with
  | Ok p, Ok reason =>
      (p ++ lit " " ++ to_string (responseCode_ r) ++ lit " ") ++ (reason ++ HTTP_EOL) ++
      (concat (map render_header (iteration (response_headers r))) ++ HTTP_EOL) ++ response_body r
  | _, _ => []
  end.

Definition has_text (r : HTTPResponse) : bool :=
  is_ok (protocolAsString (response_protocol r)) && is_ok (responseCodeAsString (responseCode_ r)).

Lemma put_good s text : good s = true ->
  put text s = (Io (pending s) (eofbit s) (failbit s) (sent s ++ text) (m s), Done tt).
Proof. intros H. unfold put. by rewrite H. Qed.

Lemma put_stuck s text : stuck s -> put text s = (set_bits false true s, Done tt).
Proof. intros H. unfold put. by rewrite H. Qed.

Lemma write_response_spec r s : has_text r = true ->
  exists s', write_response iteration r s = (s', Done tt) /\ m s' = m s /\ pending s' = pending s /\
    sent s' = sent s ++ (if good s then render r else []).
Proof.
  unfold has_text, render, write_response. intros [H1 H2]%andb_true_iff.
  destruct (protocolAsString _) as [p|]; [|done]. destruct (responseCodeAsString _) as [reason|]; [|done].
  unfold lift, mbind, S_bind. destruct (good s) eqn:Hs.
  - do 4 rewrite put_good by done. eexists. split_and!; [done..|]. simpl. by rewrite <- !app_assoc.
  - do 4 (rewrite put_stuck by done; apply (stuck_set_bits false true) in Hs).
    eexists. split_and!; [done..|]. by rewrite app_nil_r.
Qed.

(** The headers [createResponse] adds to a new response. *)
Definition basic_headers (mt : MimeType) (body : str) : headers :=
  <[lit "Content-Length" := server_header (lit "Content-Length") (to_string (size body))]>
  (<[lit "Content-Type" := server_header (lit "Content-Type") (mimeTypeMap mt)]> ∅).

Definition continue_response : HTTPResponse := MkResponse HTTP_1_1 ∅ [] 100.

(** A response a client can make sense of: its length is announced, and its body is there or
    was dropped. *)
Definition response_ok (r : HTTPResponse) : Prop :=
  has_text r = true /\
  exists mt body,
     response_headers r !! lit "Content-Type" = Some (server_header (lit "Content-Type") (mimeTypeMap mt)) /\
     response_headers r !! lit "Content-Length" =
       Some (server_header (lit "Content-Length") (to_string (size body))) /\
     (response_body r = body \/ response_body r = []).

(** A round of the loop has two slots for a response: first the interim response, then the
    answer. *)
Definition slot_ok (n : nat) (r : HTTPResponse) : Prop :=
  if Nat.even n then r = continue_response else response_ok r.

Inductive paced : nat -> list HTTPResponse -> Prop :=
  | paced_start : paced 0 []
  | paced_skip n rs : paced n rs -> paced (S n) rs
  | paced_send n rs r : paced n rs -> slot_ok n r -> paced (S n) (rs ++ [r]).

Lemma paced_mono n n' rs : (n <= n')%nat -> paced n rs -> paced n' rs.
Proof. induction 1 as [|n' _ IH]; [done|]. intros H. by apply paced_skip, IH. Qed.

(** What was sent since [base] fits the first [n] slots. *)
Definition sent_since (base : str) (n : nat) (s : io) : Prop :=
  exists rs, sent s = base ++ concat (map render rs) /\ paced n rs.

Lemma sent_since_mono base n n' s : (n <= n')%nat -> sent_since base n s -> sent_since base n' s.
Proof. intros Hn (rs & ? & ?). exists rs. split; [done|by eapply paced_mono]. Qed.

Lemma sent_since_sent base n s s' : sent s = sent s' -> sent_since base n s -> sent_since base n s'.
Proof. intros Hs (rs & ? & ?). exists rs. by rewrite <- Hs. Qed.

Lemma sent_since_stable base n : request_stable (sent_since base n).
Proof. intros s s' Hs _ _. by apply sent_since_sent. Qed.

Lemma triple_write_response base n r (P : HTTPRequest -> Prop) E :
  has_text r = true -> slot_ok n r ->
  triple (fun s => sent_since base n s /\ P (m s)) (write_response iteration r)
    (fun _ s => sent_since base (S n) s /\ P (m s)) E.
Proof.
  intros Ht Hr s [(rs & Hs & Hn) HP]. destruct (write_response_spec r s Ht) as (s' & -> & Hm & _ & Es).
  rewrite Hm. split; [|done]. destruct (good s).
  - exists (rs ++ [r]). rewrite Es, Hs, map_app, concat_app. simpl. rewrite app_nil_r, app_assoc.
    split; [done|by apply paced_send].
  - exists rs. rewrite Es, app_nil_r. split; [done|by apply paced_skip].
Qed.
Definition protocol_known (r : HTTPRequest) : Prop := protocol_ r <> InvalidProtocol.

(** While a request is read: [n] slots were used, and the protocol is set. *)
Definition reading (base : str) (n : nat) (s : io) : Prop := sent_since base n s /\ protocol_known (m s).

Lemma reading_stable base n : request_stable (reading base n).
Proof.
  intros s s' Hs Hp Hi [H1 H2]. split; [by eapply sent_since_stable|]. unfold protocol_known in *. by rewrite <- Hp.
Qed.

Lemma reading_mono base n s : reading base n s -> reading base (S n) s.
Proof. intros [H ?]. split; [|done]. eapply sent_since_mono; [|done]. lia. Qed.

Lemma triple_send_continue base n : Nat.even n = true ->
  triple (reading base n) (send_continue iteration) (fun _ => reading base (S n)) (fun _ => False).
Proof.
  intros Hn. apply (triple_write_response base n continue_response protocol_known); [reflexivity|].
  unfold slot_ok. by rewrite Hn.
Qed.

Lemma triple_read_body base n fuel hb : Nat.even n = true ->
  triple (reading base n) (read_body iteration fuel hb) (fun _ => reading base (S n)) (reading base (S n)).
Proof.
  intros Heven. pose proof (reading_stable base (S n)) as Hst. pose proof (request_stable_headers _ Hst) as Hhs.
  pose proof (headers_stable_stable _ Hhs) as Hss.
  assert (Hraise : triple (reading base n) (raise : S_ unit) (fun _ => reading base (S n)) (reading base (S n))).
  { intros s Hs. by apply reading_mono. }
  unfold read_body. eapply (triple_bind _ (fun _ => reading base n)); [by apply triple_request|]. intros r.
  eapply (triple_bind _ (fun _ => reading base n)); [apply triple_lift; [done|apply reading_mono]|]. intros cl.
  destruct (_ || _); [|destruct (_ && _); [apply triple_ret; intros; by apply reading_mono|done]].
  eapply (triple_bind _ (fun _ => reading base (S n))).
  { case_bool_decide; [by eapply triple_weaken; [by apply triple_send_continue|..]|].
    case_bool_decide; [|done]. apply triple_ret. intros; by apply reading_mono. }
  intros _. destruct (contains _ _).
  - eapply triple_bind; [by apply triple_readChunkedData|]. intros data.
    eapply triple_bind; [by apply triple_set_body|]. intros [].
    eapply triple_bind; [by apply triple_getline|]. intros remainder.
    eapply triple_bind; [by apply triple_read_trailers|]. intros k.
    destruct (_ =? _); [by apply triple_ret|by apply triple_raise].
  - eapply triple_bind; [by apply triple_read_string|]. intros body. by apply triple_ret.
Qed.

Lemma protocol_of_string_known s p : protocol_of_string s = Ok p -> p <> InvalidProtocol.
Proof.
  unfold protocol_of_string. destruct (List.find _ _) as [q|] eqn:E; [|done]. intros [= <-].
  apply List.find_some in E as [E _]. simpl in E. by repeat destruct E as [<-|E].
Qed.

(** The state in which an exception of the reading code is caught. *)
Definition after_exception (base : str) (n : nat) (s : io) : Prop :=
  sent_since base n s /\ (initialized_ (m s) = true -> protocol_known (m s)).

Lemma reading_after base n s : reading base n s -> after_exception base n s.
Proof. by intros [? ?]. Qed.

Lemma triple_read_request base n fuel : Nat.even n = true ->
  triple (fun s => sent_since base n s /\ m s = HTTPRequest_init) (read_request iteration fuel)
    (fun _ => reading base (S n)) (after_exception base (S n)).
Proof.
  intros Heven. set (P0 := fun s => sent_since base n s /\ initialized_ (m s) = false).
  assert (HP0 : request_stable P0).
  { intros s s' Hs Hp Hi [H1 H2]. split; [by eapply sent_since_stable|by rewrite <- Hi]. }
  assert (H0 : forall s, P0 s -> after_exception base (S n) s).
  { intros s [H1 H2]. split; [eapply sent_since_mono; [|done]; lia|by rewrite H2]. }
  assert (Hn : forall s, reading base n s -> after_exception base (S n) s).
  { intros s H. by apply reading_after, reading_mono. }
  apply (triple_weaken _ P0 _ (fun _ => reading base (S n)) _ (after_exception base (S n))); [| |done|done].
  2: { intros s [? E]. split; [done|]. by rewrite E. }
  unfold read_request. eapply (triple_bind _ (fun _ => P0)).
  { eapply triple_conseq; [by apply triple_getline, headers_stable_stable, request_stable_headers|done|done]. }
  intros line. eapply (triple_bind _ (fun _ => P0)); [by intros s Hs|]. intros [|].
  { intros s Hs. by apply H0. }
  eapply (triple_bind _ (fun _ => P0)); [by apply triple_lift|]. intros [[method url] protocol].
  eapply (triple_bind _ (fun p s => P0 s /\ p <> InvalidProtocol)).
  { apply triple_lift; [|done]. intros p s E Hs. split; [done|]. by eapply protocol_of_string_known. }
  intros p. eapply (triple_bind _ (fun _ => reading base n)).
  { apply triple_update. intros s [[H1 H2] Hp]. split; [|done]. destruct H1 as (rs & ? & ?). by exists rs. }
  intros []. eapply (triple_bind _ (fun _ => reading base n)); [by apply triple_lift|]. intros x.
  eapply (triple_bind _ (fun _ => reading base n)).
  { apply triple_update. intros s [H1 H2]. split; [|done]. destruct H1 as (rs & ? & ?). by exists rs. }
  intros []. eapply (triple_bind _ (fun _ => reading base n)); [by apply triple_lift|]. intros u.
  eapply (triple_bind _ (fun _ => reading base n)).
  { apply triple_update. intros s [H1 H2]. split; [|done]. destruct H1 as (rs & ? & ?). by exists rs. }
  intros []. eapply (triple_bind _ (fun _ => reading base n)).
  { apply triple_update. intros s [H1 H2]. split; [|done]. destruct H1 as (rs & ? & ?). by exists rs. }
  intros []. eapply (triple_bind _ (fun _ => reading base n)); [by intros s Hs|]. intros k.
  eapply (triple_bind _ (fun _ => reading base n)).
  { eapply triple_conseq; [apply triple_read_headers, request_stable_headers, reading_stable|done|done]. }
  intros []. eapply (triple_bind _ (fun _ => reading base n)); [by apply triple_request|]. intros r.
  eapply (triple_bind _ (fun _ => reading base n)); [by apply triple_lift|]. intros hb.
  case_bool_decide; [apply triple_ret; intros; by apply reading_mono|].
  eapply triple_weaken; [by apply triple_read_body|done|done|]. intros s. apply reading_after.
Qed.

(** ** Responses *)

Lemma createResponse_fresh p mt body rc :
  createResponse mt body rc (MkResponse p ∅ [] 200) = Ok (MkResponse p (basic_headers mt body) body rc).
Proof. reflexivity. Qed.

(** [hs] holds the two headers of [createResponse], and none of the names in [absent]. *)
Definition holds_basic (mt : MimeType) (body : str) (absent : list str) (hs : headers) : Prop :=
  hs !! lit "Content-Type" = Some (server_header (lit "Content-Type") (mimeTypeMap mt)) /\
  hs !! lit "Content-Length" = Some (server_header (lit "Content-Length") (to_string (size body))) /\
  forall n, In n absent -> hs !! n = None.

Lemma basic_headers_hold mt body absent :
  forallb (fun n => negb (bool_decide (n = lit "Content-Type")) && negb (bool_decide (n = lit "Content-Length"))) absent = true ->
  holds_basic mt body absent (basic_headers mt body).
Proof.
  intros Ha. unfold basic_headers. split_and!; [reflexivity|reflexivity|]. intros n Hn.
  rewrite forallb_forall in Ha. specialize (Ha n Hn). rewrite andb_true_iff, !negb_true_iff, !bool_decide_eq_false in Ha.
  destruct Ha. by rewrite !lookup_insert_ne by congruence.
Qed.

(** A header under a name that is absent can be added. *)
Lemma add_basic mt body n v absent r :
  holds_basic mt body (n :: absent) (response_headers r) ->
  n <> lit "Content-Type" -> n <> lit "Content-Length" -> ~ In n absent ->
  exists r', response_addHeader (server_header n v) r = Ok r' /\
    holds_basic mt body absent (response_headers r') /\ response_protocol r' = response_protocol r /\
    response_body r' = response_body r /\ responseCode_ r' = responseCode_ r.
Proof.
  intros (H1 & H2 & H3) Hct Hcl Hn. unfold response_addHeader. rewrite addHeader_none by (apply H3; by left).
  eexists. split; [reflexivity|]. split_and!; [|done..]. simpl. unfold holds_basic.
  rewrite !lookup_insert_ne by congruence. split_and!; [done|done|].
  intros x Hx. rewrite lookup_insert_ne by (intros ->; by apply Hn). apply H3. by right.
Qed.

Section Connection.
Context (callbackList_ : HTTPRequestMethod -> option (HTTPRequest -> HTTPResponse -> res HTTPResponse)).
Context (datetime : nat -> str).

(** What the connection asks of its callbacks: when they return, they have answered with
    [createResponse] and a code that has a text. *)
Class CallbacksCreate : Prop := callback_creates method callback :
  callbackList_ method = Some callback ->
  forall req r r', callback req r = Ok r' -> exists mt body rc,
    createResponse mt body rc r = Ok r' /\ is_ok (responseCodeAsString rc) = true.

(** An exception that a callback throws. *)
Definition callback_throws (e : exn) : Prop :=
  exists method callback req r, callbackList_ method = Some callback /\ callback req r = Throw e.

Context {Hcallbacks : CallbacksCreate}.

Lemma process_request_creates req p :
  (exists mt body rc,
    process_request callbackList_ req (MkResponse p ∅ [] 200) = Ok (MkResponse p (basic_headers mt body) body rc) /\
    is_ok (responseCodeAsString rc) = true) \/
  (exists e, process_request callbackList_ req (MkResponse p ∅ [] 200) = Throw e /\ callback_throws e).
Proof.
  unfold process_request. destruct (callbackList_ (method_ req)) as [callback|] eqn:E.
  - destruct (callback req (MkResponse p ∅ [] 200)) as [r'|e] eqn:Er; [left|right].
    + destruct (callback_creates _ _ E req _ _ Er) as (mt & body & rc & Ec & Hrc). exists mt, body, rc. by rewrite <- Ec.
    + exists e. split; [done|]. by exists (method_ req), callback, req, (MkResponse p ∅ [] 200).
  - left. assert (exists name, getMethodAsString (method_ req) = Ok name) as [name ->].
    { destruct (method_ req); eexists; reflexivity. }
    exists TextPlain. eexists _, 501. split; [|reflexivity]. cbn [mbind res_bind]. apply createResponse_fresh.
Qed.

Lemma connection_headers_ok n req keep mt body r :
  holds_basic mt body [lit "Connection"; lit "Keep-Alive"] (response_headers r) ->
  exists r' k, connection_headers n req keep r = Ok (r', k) /\
    response_protocol r' = response_protocol r /\ response_body r' = response_body r /\
    responseCode_ r' = responseCode_ r /\ holds_basic mt body [] (response_headers r') /\
    (k = true -> (n < requestLimit)%nat).
Proof.
  intros H. unfold connection_headers. destruct (Nat.ltb_spec n requestLimit) as [Hn|Hn]; [case_bool_decide|].
  - destruct (add_basic mt body (lit "Connection") (lit "keep-alive") _ r H)
      as (r1 & -> & H1 & Hp1 & Hb1 & Hc1); [done|done|vm_compute; intuition congruence|].
    cbn [mbind res_bind].
    destruct (add_basic mt body (lit "Keep-Alive") (lit "timeout=10, max=100") _ r1 H1)
      as (r2 & -> & H2 & Hp2 & Hb2 & Hc2); [done|done|by intros []|].
    exists r2, true. split_and!; [done|congruence..|done|done].
  - exists r, keep. split_and!; try done. destruct H as (? & ? & _). by split_and!.
  - destruct (add_basic mt body (lit "Connection") (lit "close") _ r H)
      as (r1 & -> & H1 & Hp1 & Hb1 & Hc1); [done|done|vm_compute; intuition congruence|].
    exists r1, false. split_and!; try done. destruct H1 as (? & ? & _). by split_and!.
Qed.

Lemma finish_response_ok n req keep mt body p rc :
  exists r k, finish_response datetime n req keep (MkResponse p (basic_headers mt body) body rc) = Ok (r, k) /\
    response_protocol r = p /\ responseCode_ r = rc /\ holds_basic mt body [] (response_headers r) /\
    (response_body r = body \/ response_body r = []) /\ (k = true -> (n < requestLimit)%nat).
Proof.
  set (names := [lit "Server"; lit "Date"; lit "Connection"; lit "Keep-Alive"]).
  pose proof (basic_headers_hold mt body names ltac:(vm_compute; reflexivity)) as H0. unfold finish_response.
  destruct (add_basic mt body (lit "Server") (lit "PCMWebServer 0.1") _ (MkResponse p (basic_headers mt body) body rc) H0)
    as (r1 & -> & H1 & Hp1 & Hb1 & Hc1); [done|done|vm_compute; intuition congruence|].
  cbn [mbind res_bind].
  destruct (add_basic mt body (lit "Date") (datetime n) _ r1 H1)
    as (r2 & -> & H2 & Hp2 & Hb2 & Hc2); [done|done|vm_compute; intuition congruence|].
  cbn [mbind res_bind].
  destruct (connection_headers_ok n req keep mt body r2 H2) as (r3 & k & -> & Hp3 & Hb3 & Hc3 & H3 & Hk).
  cbn [mbind res_bind fst snd]. eexists _, k. split; [reflexivity|]. simpl in *.
  case_bool_decide; simpl; split_and!; try done; try congruence; [by right|left; congruence].
Qed.

Lemma final_response_ok r mt body :
  is_ok (responseCodeAsString (responseCode_ r)) = true -> response_protocol r <> InvalidProtocol ->
  holds_basic mt body [] (response_headers r) -> (response_body r = body \/ response_body r = []) ->
  response_ok r.
Proof.
  intros Hc Hp (H1 & H2 & _) Hb. split.
  - unfold has_text. rewrite Hc, andb_true_r. by destruct (response_protocol r).
  - by exists mt, body.
Qed.

Lemma setProtocol_fresh p : p <> InvalidProtocol ->
  setProtocol p HTTPResponse_init = Ok (MkResponse p ∅ [] 200).
Proof. by destruct p. Qed.

Lemma one_interim base s : sent_since base 1 s ->
  exists interim, sent s = base ++ concat (map render interim) /\ (interim = [] \/ interim = [continue_response]).
Proof.
  intros (rs & Hs & Hp). exists rs. split; [done|]. inversion Hp as [|n l Hl|n l x Hl Hx]; subst; inversion Hl; subst; [by left|right].
  by rewrite Hx.
Qed.

(** What reading the request of a round from [s] leaves. *)
Lemma read_request_round fuel s : m s = HTTPRequest_init ->
  match read_request iteration fuel s with
  | (s1, Done _) => reading (sent s) 1 s1
  | (s1, Raised _) => after_exception (sent s) 1 s1
  | (_, Looping) => True
  end.
Proof.
  intros Hm. apply (triple_read_request (sent s) 0 fuel eq_refl). split; [|done]. exists [].
  split; [by rewrite app_nil_r|constructor].
Qed.

(** The answer of a round that ended reading with [outcome] and the request [req]. *)
Definition answer_to (outcome : reply unit) (req : HTTPRequest) (r : HTTPResponse) : Prop :=
  response_ok r /\
  match outcome with Done _ => response_protocol r = protocol_ req | _ => responseCode_ r = 400 end.

(** [k] rounds from one state of the connection to another. In each a request is read, which can
    send an interim response; then, whether it was read or not, one answer is written - which is
    lost when the stream is broken - and what follows the request stays in the stream. *)
Inductive serves (fuel : nat) : nat -> io -> io -> Prop :=
  | serves_nothing s : serves fuel 0 s s
  | serves_round k s s0 s1 outcome interim r s2 s3 :
      set_request HTTPRequest_init s = (s0, Done tt) ->
      read_request iteration fuel s0 = (s1, outcome) -> outcome <> Looping ->
      sent s1 = sent s ++ concat (map render interim) -> (interim = [] \/ interim = [continue_response]) ->
      answer_to outcome (m s1) r ->
      sent s2 = sent s1 ++ (if good s1 then render r else []) -> pending s2 = pending s1 ->
      serves fuel k s2 s3 -> serves fuel (S k) s s3.

Lemma bad_request_answers text p s : p <> InvalidProtocol ->
  exists s' r, respond_bad_request iteration text (MkResponse p ∅ [] 200) s = (s', Done tt) /\
    response_ok r /\ response_protocol r = p /\ responseCode_ r = 400 /\
    sent s' = sent s ++ (if good s then render r else []) /\ pending s' = pending s.
Proof.
  intros Hp. assert (Hr : response_ok (MkResponse p (basic_headers TextPlain text) text 400)).
  { by apply (final_response_ok _ TextPlain text); [..|apply basic_headers_hold|left]. }
  destruct (write_response_spec _ s (proj1 Hr)) as (s' & E & _ & Hpend & Hs).
  exists s', (MkResponse p (basic_headers TextPlain text) text 400). split_and!; [|done..].
  unfold respond_bad_request, mbind, S_bind, lift. rewrite createResponse_fresh. exact E.
Qed.

Lemma execute_loop_serves fuel rounds num keep s :
  match execute_loop iteration callbackList_ datetime fuel rounds num keep s with
  | (s', Done _) => exists k, (k <= rounds)%nat /\ serves fuel k s s'
  | (_, Raised e) => callback_throws e
  | (_, Looping) => True
  end.
Proof.
  revert num keep s. induction rounds as [|rounds IH]; intros num keep s; cbn [execute_loop].
  { exists 0%nat. split; [done|constructor]. }
  set (s0 := Io (pending s) (eofbit s) (failbit s) (sent s) HTTPRequest_init).
  assert (E0 : set_request HTTPRequest_init s = (s0, Done tt)) by done.
  unfold mbind at 1, S_bind at 1. rewrite E0. pose proof (read_request_round fuel s0 eq_refl) as Hread.
  unfold mbind at 1, S_bind at 1, try. destruct (read_request iteration fuel s0) as [s1 outcome] eqn:E1.
  assert (Hround : forall interim k r s2 s3, sent s1 = sent s ++ concat (map render interim) ->
    (interim = [] \/ interim = [continue_response]) -> outcome <> Looping -> answer_to outcome (m s1) r ->
    sent s2 = sent s1 ++ (if good s1 then render r else []) -> pending s2 = pending s1 -> (k <= rounds)%nat -> serves fuel k s2 s3 ->
    exists k', (k' <= S rounds)%nat /\ serves fuel k' s s3).
  { intros interim k r s2 s3 ? ? ? ? ? ? ? ?. exists (S k). split; [lia|]. by eapply serves_round. }
  destruct outcome as [[]|e|]; [| |done]; unfold mbind at 1, S_bind at 1, request.
  - destruct Hread as [Hsent Hp]. destruct (one_interim _ _ Hsent) as (interim & Hi & Hint). specialize (Hround interim).
    unfold protocol_known in Hp. unfold mbind at 1, S_bind at 1, lift at 1. rewrite setProtocol_fresh by done.
    destruct (_ && _).
    { destruct (bad_request_answers missing_host (protocol_ (m s1)) s1 Hp) as (s2 & r & -> & Hr & Hrp & _ & Hs2 & Hp2).
      eapply (Hround 0%nat r s2); [done..|by split|done|done|lia|constructor]. }
    destruct (process_request_creates (m s1) (protocol_ (m s1))) as [(mt & body & rc & Ep & Hrc)|(e & Ep & He)];
      unfold mbind at 1, S_bind at 1, lift at 1; rewrite Ep; [|done].
    destruct (finish_response_ok (S num) (m s1) keep mt body (protocol_ (m s1)) rc) as (r & k & Ef & Hrp & Hc & Hh & Hb & _).
    unfold mbind at 1, S_bind at 1, lift at 1. rewrite Ef. cbn [fst snd].
    assert (Hr : response_ok r) by (apply (final_response_ok r mt body); [by rewrite Hc|by rewrite Hrp|done|done]).
    destruct (write_response_spec r s1 (proj1 Hr)) as (s2 & E2 & _ & Hp2 & Hs2).
    unfold mbind at 1, S_bind at 1. rewrite E2. destruct k.
    + specialize (IH (S num) true s2). destruct (execute_loop _ _ _ _ _ _ _ _) as [s3 [[]|e|]]; [|done|done].
      destruct IH as (k & Hk & Hserves). eapply (Hround k r s2); [done..|by split|done|done|done|done].
    + eapply (Hround 0%nat r s2); [done..|by split|done|done|lia|constructor].
  - destruct Hread as [Hsent Hp]. destruct (one_interim _ _ Hsent) as (interim & Hi & Hint). specialize (Hround interim).
    assert (Hp' : (if initialized_ (m s1) then protocol_ (m s1) else HTTP_1_1) <> InvalidProtocol).
    { destruct (initialized_ (m s1)); [by apply Hp|done]. }
    unfold mbind at 1, S_bind at 1, lift at 1. rewrite setProtocol_fresh by done.
    destruct (bad_request_answers (lit "400 Bad Request") _ s1 Hp') as (s2 & r & -> & Hr & _ & Hc & Hs2 & Hp2).
    eapply (Hround 0%nat r s2); [done..|by split|done|done|lia|constructor].
Qed.

(** C25. Serving a connection, for any input. It takes at most a hundred rounds, in each of which
    one request is read and answered once: the answer is complete - a known status, the protocol
    of the request, a content type, and the announced length is that of the body produced for it
    - and is sent unless the stream is broken; a request that cannot be read is answered with
    status 400. Only one interim response (100) can come before an answer. No exception of the
    connection itself escapes from [execute]: when one does, a callback has thrown it. *)
Theorem execute_answers fuel s :
  match execute iteration callbackList_ datetime fuel s with
  | (s', Done _) => exists k, (k <= 100)%nat /\ serves fuel k s s'
  | (_, Raised e) => callback_throws e
  | (_, Looping) => True
  end.
Proof. apply (execute_loop_serves fuel requestLimit). Qed.

(** ** The number of requests *)

Lemma finish_keeps_below n req keep r r' :
  finish_response datetime n req keep r = Ok (r', true) -> (n < requestLimit)%nat.
Proof.
  unfold finish_response, connection_headers. intros H. inv_ok.
  destruct (Nat.ltb_spec n requestLimit) as [|Hn]; [done|]. inv_ok; simplify_eq; done.
Qed.

Lemma S_bind_ext {A B} (x : S_ A) (f g : A -> S_ B) s :
  (forall a s', x s = (s', Done a) -> f a s' = g a s') -> (x ≫= f) s = (x ≫= g) s.
Proof. intros H. unfold mbind, S_bind. destruct (x s) as [s' [a|e|]]; [by apply H|done|done]. Qed.

Lemma more_rounds fuel k rounds num keep s :
  (num < requestLimit)%nat -> (requestLimit <= num + rounds)%nat ->
  execute_loop iteration callbackList_ datetime fuel (rounds + k) num keep s =
  execute_loop iteration callbackList_ datetime fuel rounds num keep s.
Proof.
  revert num keep s. induction rounds as [|rounds IH]; intros num keep s Hn Hr; [lia|].
  cbn [execute_loop Nat.add]. do 3 (apply S_bind_ext; intros ? ? _). destruct (_ : bool); [done|].
  apply S_bind_ext; intros ? ? _. destruct (_ && _); [done|].
  apply S_bind_ext; intros ? ? _. apply S_bind_ext; intros [r keep'] s3 Hf.
  apply S_bind_ext; intros ? ? _. cbn [snd]. destruct keep'; [|done].
  unfold lift in Hf. destruct (finish_response _ _ _ _ _) as [[r' k']|] eqn:E; [|done]. injection Hf as _ -> ->.
  apply finish_keeps_below in E. apply IH; lia.
Qed.

(** A connection serves at most a hundred requests: letting the loop of [execute] go on
    for any number of further rounds changes nothing. *)
Theorem hundred_requests fuel k s :
  execute_loop iteration callbackList_ datetime fuel (requestLimit + k) 0 false s =
  execute iteration callbackList_ datetime fuel s.
Proof. apply more_rounds; unfold requestLimit; lia. Qed.

End Connection.
End Server.

(** * The body of a request *)

Definition no_body (s : io) : Prop := body_ (m s) = [].

Lemma no_body_stable : headers_stable no_body.
Proof. intros s s' hs _ Hm. unfold no_body. by destruct Hm as [->| ->]. Qed.

Definition has_length (s : io) : Prop := is_Some (headers_ (m s) !! lit "Content-Length").

(** Trailers are only accepted when there is none: nothing is added. *)
Lemma read_trailers_none remainder n s s' k :
  read_trailers 2 remainder n s = (s', Done k) -> m s' = m s.
Proof.
  cbn [read_trailers]. destruct (Ascii.eqb _ _); [by intros [= <- _]|]. case_bool_decide; [done|].
  rewrite add_request_header_bind. destruct (addHeader _ _) as [hs|] eqn:E1; [|done].
  rewrite add_request_header_bind.
  destruct (addHeader (parse_header remainder) (headers_ (m (with_headers hs s)))) as [hs'|] eqn:E2; [|done].
  exfalso. unfold addHeader in E1. destruct (headers_ (m s) !! _); [done|]. injection E1 as <-.
  rewrite addHeader_some in E2; [done|]. cbn [m with_headers headers_ set_headers]. rewrite lookup_insert_eq. eauto.
Qed.

Definition no_length (s : io) : Prop := ~ has_length s.

Lemma no_length_stable s s' : m s = m s' -> no_length s -> no_length s'.
Proof. intros Hm. unfold no_length, has_length. by rewrite Hm. Qed.

(** The branch of chunked requests, which have no length. *)
Lemma triple_chunked_length fuel trailerLength :
  triple no_length
    (data ← readChunkedData fuel; update (set_body data) ;; remainder ← getline [];
     numHeadersAdded ← read_trailers 2 remainder 0;
     if numHeadersAdded =? trailerLength then mret tt else raise)
    (fun _ => no_length) (fun _ => True).
Proof.
  assert (Hst : stable no_length) by (intros s s' _; apply no_length_stable).
  assert (Hchunks : forall fuel h data, triple no_length (read_chunks fuel h data) (fun _ => no_length) (fun _ => True)).
  { clear fuel. induction fuel as [|fuel IH]; intros h data; [done|]. cbn [read_chunks].
    destruct (Ascii.eqb _ _); [by apply triple_ret|].
    eapply (triple_bind _ (fun _ => no_length)); [by apply triple_lift|]. intros n.
    eapply (triple_bind _ (fun _ => no_length)); [by eapply triple_conseq; [apply triple_read_string|..]|]. intros c.
    eapply (triple_bind _ (fun _ => no_length)); [by eapply triple_conseq; [apply triple_append|..]|]. intros d.
    do 3 (eapply (triple_bind _ (fun _ => no_length)); [by eapply triple_conseq; [apply triple_getline|..]|]; intros ?).
    apply IH. }
  eapply (triple_bind _ (fun _ => no_length)).
  { eapply (triple_bind _ (fun _ => no_length)); [by eapply triple_conseq; [apply triple_getline|..]|]. intros h. apply Hchunks. }
  intros data. eapply (triple_bind _ (fun _ => no_length)); [by apply triple_update|]. intros [].
  eapply (triple_bind _ (fun _ => no_length)); [by eapply triple_conseq; [apply triple_getline|..]|]. intros remainder.
  eapply (triple_bind _ (fun _ => no_length)).
  - intros s Hs. destruct (read_trailers 2 remainder 0 s) as [s' [k|e|]] eqn:E; try done.
    apply read_trailers_none in E. by apply (no_length_stable s).
  - intros k. destruct (_ =? _); [by apply triple_ret|by intros s Hs].
Qed.

Lemma triple_send_continue_m iteration P : (forall s s', m s = m s' -> P s -> P s') ->
  triple P (send_continue iteration) (fun _ => P) (fun _ => True).
Proof.
  intros HP s Hs. destruct (write_response_spec iteration continue_response s eq_refl) as (s' & E & Hm & _ & _).
  change (send_continue iteration s) with (write_response iteration continue_response s).
  rewrite E. by apply (HP s).
Qed.

Lemma triple_read_body_length iteration fuel hb :
  triple no_body (read_body iteration fuel hb) (fun _ s => has_length s -> no_body s) (fun _ => True).
Proof.
  pose proof (headers_stable_stable _ no_body_stable) as Hst.
  unfold read_body. eapply (triple_bind _ (fun r s => no_body s /\ r = m s)); [by apply triple_request|]. intros r.
  eapply (triple_bind _ (fun cl s => no_body s /\ (cl = None -> no_length s))).
  { apply triple_lift; [|done]. intros cl s H [Hs ->]. split; [done|]. intros -> [h Hh]. rewrite Hh in H.
    destruct (headerValueAsNumber h); by simpl in H. }
  intros cl. cbv zeta. set (chunked := contains _ _). set (expect := header_value _ _).
  assert (Hm : forall s s', m s = m s' -> no_body s /\ (cl = None -> no_length s) -> no_body s' /\ (cl = None -> no_length s')).
  { intros s s' E. unfold no_body, no_length, has_length. by rewrite E. }
  assert (Hexpect : triple (fun s => no_body s /\ (cl = None -> no_length s))
    (if bool_decide (expect = lit "100-continue") then send_continue iteration
     else if bool_decide (expect = []) then mret tt else raise)
    (fun _ s => no_body s /\ (cl = None -> no_length s)) (fun _ => True)).
  { case_bool_decide; [by apply triple_send_continue_m|]. case_bool_decide; [by apply triple_ret|by intros s Hs]. }
  destruct cl as [n|], chunked; cbn [andb orb negb].
  - rewrite bool_decide_eq_true_2 by eauto. cbn [andb orb negb]. rewrite andb_false_r. by intros s Hs.
  - rewrite bool_decide_eq_true_2 by eauto. cbn [andb orb negb].
    eapply triple_bind; [exact Hexpect|]. intros []. eapply (triple_bind _ (fun _ => no_body)).
    + eapply triple_weaken; [by apply triple_read_string|by intros s []|done|done].
    + intros b. by apply triple_ret.
  - rewrite bool_decide_eq_false_2 by (by intros []). cbn [andb orb negb].
    eapply triple_bind; [exact Hexpect|]. intros [].
    eapply triple_weaken; [apply triple_chunked_length|by intros s [_ H]; apply H|by intros [] s H ?|done].
  - rewrite bool_decide_eq_false_2 by (by intros []). cbn [andb orb negb]. rewrite !andb_true_r.
    clear Hexpect. case_bool_decide; [apply triple_ret; by intros s [? ?]|by intros s Hs].
Qed.

(** The body of a request with a content length is read from the stream, and lost: no
    request that announces its length is delivered with a body. *)
Theorem content_length_body_lost iteration fuel s s' :
  m s = HTTPRequest_init -> read_request iteration fuel s = (s', Done tt) ->
  hasHeader "Content-Length" (headers_ (m s')) = true -> body_ (m s') = [].
Proof.
  intros Hs. enough (H : triple no_body (read_request iteration fuel) (fun _ s => has_length s -> no_body s) (fun _ => True)).
  { intros E Hh. specialize (H s ltac:(unfold no_body; by rewrite Hs)). rewrite E in H. apply H.
    by apply bool_decide_eq_true in Hh. }
  pose proof (headers_stable_stable _ no_body_stable) as Hst. clear.
  assert (Hl : forall A B (r : res A) (f : A -> S_ B) Q, (forall a, triple no_body (f a) Q (fun _ => True)) ->
    triple no_body (lift r ≫= f) Q (fun _ => True)).
  { intros A B r f Q H. eapply (triple_bind _ (fun _ => no_body)); [by apply triple_lift|done]. }
  assert (Hu : forall B f (x : S_ B) Q, (forall r, body_ (f r) = body_ r) -> triple no_body x Q (fun _ => True) ->
    triple no_body (update f ;; x) Q (fun _ => True)).
  { intros B f x Q Hf H. eapply (triple_bind _ (fun _ => no_body)); [|by intros []].
    apply triple_update. intros s Hs. unfold no_body. simpl. by rewrite Hf. }
  unfold read_request. eapply (triple_bind _ (fun _ => no_body)).
  { eapply triple_conseq; [by apply triple_getline, headers_stable_stable, no_body_stable|done|done]. }
  intros line. eapply (triple_bind _ (fun _ => no_body)); [by intros s Hs|]. intros [|]; [by intros s Hs|].
  apply Hl. intros [[method url] protocol]. apply Hl. intros p. apply Hu; [done|]. apply Hl. intros x.
  apply Hu; [done|]. apply Hl. intros u. apply Hu; [done|]. apply Hu; [done|].
  eapply (triple_bind _ (fun _ => no_body)); [by intros s Hs|]. intros k.
  eapply (triple_bind _ (fun _ => no_body)).
  { eapply triple_conseq; [apply triple_read_headers, no_body_stable|done|done]. }
  intros []. eapply (triple_bind _ (fun _ => no_body)); [by apply triple_request|]. intros r. apply Hl. intros hb.
  case_bool_decide; [by apply triple_ret|]. apply triple_read_body_length.
Qed.

Definition crlf (s : string) : str := lit s ++ [CR; LF].

Definition post_text : str :=
  crlf "POST /x HTTP/1.1" ++ crlf "Host: h" ++ crlf "Content-Length: 5" ++ [CR; LF] ++ lit "hello".

Lemma content_length_body_lost_witness :
  let r := read_request map_to_list 0 (connected post_text) in
  pending r.1 = [] /\ body_ (m r.1) = [].
Proof.
  split; [vm_compute; reflexivity|].
  apply (content_length_body_lost map_to_list 0 (connected post_text)); vm_compute; reflexivity.
Defined.

(** * Round trip of requests *)

(** No two white spaces in a row; [after_space]: the text follows a white space. *)
Fixpoint no_adjacent (after_space : bool) (s : str) : bool :=
  match s with
  | [] => true
  | c :: s' => negb (isspace c && after_space) && no_adjacent (isspace c) s'
  end.

Lemma squeeze_no_adjacent b s c : no_adjacent b s = true -> squeeze b (s ++ [c]) = s ++ [c].
Proof.
  revert b. induction s as [|x s IH]; intros b; cbn [no_adjacent squeeze app].
  - intros _. by rewrite bool_decide_eq_true_2, andb_false_r.
  - rewrite andb_true_iff, negb_true_iff. intros [-> Hs]. cbn [andb]. by rewrite IH.
Qed.

Lemma remove_CR_app s : remove_CR (s ++ [CR]) = s.
Proof. unfold remove_CR. rewrite rev_app_distr. simpl. apply rev_involutive. Qed.

Lemma compress_line s : no_adjacent false s = true -> compressLWSAndRemoveCR (s ++ [CR]) = s.
Proof. intros H. by rewrite compress_is_squeeze_, squeeze_no_adjacent, remove_CR_app. Qed.

Definition header_text (h : str * str) : str := h.1 ++ ":" :: h.2.
Definition header_line (h : str * str) : str := (header_text h ++ [CR]) ++ [LF].

(** A header in the form clients send: a name without spaces and colons, a value with
    balanced quotes, no doubled white space and no line break. *)
Definition header_ok (h : str * str) : bool :=
  negb (isspace (front h.1)) && negb (bool_decide (h.1 = [])) && lacks ":" h.1 && lacks " " h.1 &&
  no_adjacent false (header_text h) && lacks LF (header_text h) && (count DQUOTE h.2 mod 2 =? 0).

Definition received (h : str * str) : HTTPHeader := MkHeader h.1 h.2 (headerType h.1).

Lemma headerType_valid name : headerType name <> Invalid.
Proof.
  unfold headerType. destruct (List.find _ _) as [p|] eqn:E; [|done].
  apply List.find_some in E as [E _].
  assert (H : forallb (fun p => negb (bool_decide (header_property_type p = Invalid))) httpHeaderProperties = true) by reflexivity.
  rewrite forallb_forall in H. specialize (H p E). by rewrite negb_true_iff, bool_decide_eq_false in H.
Qed.

Lemma filter_lacks c s : lacks c s = true -> filter (fun x => Ascii.eqb x c = false) s = s.
Proof.
  induction s as [|x s IH]; [done|]. rewrite lacks_cons, andb_true_iff, negb_true_iff. intros [Hx Hs].
  rewrite filter_cons_True by by rewrite Ascii.eqb_sym. by rewrite IH.
Qed.

Lemma parse_header_text h : header_ok h = true -> size (header_text h) < npos ->
  parse_header (header_text h) = received h.
Proof.
  unfold header_ok. rewrite !andb_true_iff. intros [[[[[[_ _] H1] H2] _] _] H3] Hs. unfold parse_header, header_text in *.
  rewrite size_app, size_cons in Hs. pose proof (size_nonneg h.2).
  rewrite find_at by done. destruct (Z.eqb_spec (size h.1) npos); [lia|].
  rewrite prefix_app, filter_lacks by done.
  assert (suffix (h.1 ++ ":" :: h.2) (size h.1 + 1) = h.2) as ->.
  { rewrite cons_middle, app_assoc. replace (size h.1 + 1) with (size (h.1 ++ [":"])) by by autorewrite with cxx.
    apply suffix_app. }
  by rewrite H3.
Qed.

Lemma getline_at s l line t : good s = true -> pending s = line ++ LF :: t -> lacks LF line = true ->
  getline l s = (set_pending t s, Done line).
Proof.
  intros Hs Hp Hl. unfold getline. rewrite Hs, Hp, index_of_app by done. simpl.
  rewrite Nat.add_0_r, take_app_length. f_equal. f_equal.
  rewrite cons_middle, app_assoc. replace (S (length line)) with (length (line ++ [LF])) by (rewrite length_app; simpl; lia).
  apply drop_app_length.
Qed.

Definition add_headers (hs : list (str * str)) (acc : headers) : headers :=
  foldl (fun acc h => <[h.1 := received h]> acc) acc hs.

(** The text of the headers and the empty line. *)
Definition headers_text (hs : list (str * str)) : str := concat (map header_line hs) ++ [CR; LF].

Lemma headers_text_front hs : forallb header_ok hs = true ->
  exists c t, headers_text hs = c :: t /\ Ascii.eqb c " " = false /\ Ascii.eqb c HTAB = false.
Proof.
  unfold headers_text. destruct hs as [|[n v] hs]; [by exists CR, [LF]|]. cbn [forallb].
  rewrite andb_true_iff. unfold header_ok. rewrite !andb_true_iff, !negb_true_iff, bool_decide_eq_false. simpl.
  intros [[[[[[[H1 H2] _] _] _] _] _] _]. destruct n as [|c n]; [done|]. simpl in *. eexists c, _. split; [reflexivity|].
  split; [by destruct (Ascii.eqb_spec c " ") as [->|]|by destruct (Ascii.eqb_spec c HTAB) as [->|]].
Qed.

Lemma headers_roundtrip hs fuel s line rest :
  good s = true -> pending s = headers_text hs ++ rest -> forallb header_ok hs = true ->
  NoDup (map fst hs) -> Forall (fun h => headers_ (m s) !! h.1 = None) hs ->
  (length hs < fuel)%nat -> size (pending s) < npos ->
  read_headers fuel line [] s =
  (Io rest false false (sent s) (set_headers (add_headers hs (headers_ (m s))) (m s)), Done tt).
Proof.
  revert fuel s line. induction hs as [|h hs IH]; intros fuel s line Hg Hp Hok Hnd Hnew Hf Hsize;
    (destruct fuel as [|fuel]; [simpl in Hf; lia|]); cbn [read_headers].
  - unfold mbind, S_bind. rewrite (getline_at s line [CR] rest) by done. simpl.
    unfold good in Hg. destruct s as [p e f st r]. simpl in *. destruct e, f; try done. by destruct r.
  - unfold mbind at 1 2, S_bind.
    cbn [forallb] in Hok. apply andb_true_iff in Hok as [Hh Hok].
    pose proof Hh as Hh'. unfold header_ok in Hh'. rewrite !andb_true_iff in Hh'. destruct Hh' as [[[_ Hadj] Hlf] _].
    assert (Hp' : pending s = (header_text h ++ [CR]) ++ LF :: headers_text hs ++ rest).
    { rewrite Hp. unfold headers_text, header_line. cbn [map concat]. by rewrite <- !app_assoc. }
    rewrite (getline_at s line (header_text h ++ [CR]) (headers_text hs ++ rest)); [|done|done|by rewrite lacks_app, Hlf].
    rewrite compress_line by done. rewrite app_nil_l.
    rewrite bool_decide_eq_false_2 by (unfold header_text; by destruct h.1).
    destruct (headers_text_front hs Hok) as (c & t & Ht & Hc1 & Hc2).
    unfold peek. change (good (set_pending (headers_text hs ++ rest) s)) with (good s). rewrite Hg.
    cbn [pending set_pending]. rewrite Ht. cbn [app].
    rewrite !bool_decide_eq_false_2 by (intros [= ->]; done). cbn [orb].
    rewrite parse_header_text; [|done|]. 2: { rewrite Hp' in Hsize. rewrite !size_app in Hsize.
      pose proof (size_nonneg (LF :: headers_text hs ++ rest)). pose proof (size_nonneg [CR]). lia. }
    rewrite bool_decide_eq_false_2 by apply headerType_valid.
    rewrite add_request_header_bind. apply Forall_cons in Hnew as [Hnew1 Hnew]. apply NoDup_cons in Hnd as [Hnd1 Hnd].
    rewrite addHeader_none by done. rewrite IH.
    + done.
    + done.
    + simpl. by rewrite Ht.
    + done.
    + done.
    + apply Forall_forall. intros x Hx. cbn [m with_headers headers_ set_headers].
      rewrite lookup_insert_ne; [by apply (proj1 (Forall_forall _ _) Hnew)|].
      intros E. apply Hnd1. change (name_ (received h)) with h.1 in E. rewrite E.
      apply list_elem_of_In, in_map_iff. exists x. split; [done|by apply list_elem_of_In].
    + simpl in Hf. lia.
    + rewrite Hp' in Hsize. simpl. rewrite Ht in Hsize. autorewrite with cxx in *. pose proof (size_nonneg (header_text h)). lia.
Qed.

Lemma count_app c a b : count c (a ++ b) = count c a + count c b.
Proof. unfold count. by rewrite filter_app, size_app. Qed.

Lemma count_lacks c s : lacks c s = true -> count c s = 0.
Proof.
  unfold count. induction s as [|x s IH]; [done|]. rewrite lacks_cons, andb_true_iff, negb_true_iff. intros [Hx Hs].
  rewrite filter_cons_False by by rewrite Hx. by apply IH.
Qed.

Lemma erase_first_lacks c s : lacks c s = true -> erase_first c s = s.
Proof. intros H. unfold erase_first. by rewrite index_of_none. Qed.

Lemma erase_first_last c s : lacks c s = true -> erase_first c (s ++ [c]) = s.
Proof.
  intros H. unfold erase_first. rewrite index_of_app by done. simpl. rewrite Ascii.eqb_refl. simpl.
  rewrite Nat.add_0_r, take_app_length. rewrite drop_ge by (rewrite length_app; simpl; lia). apply app_nil_r.
Qed.

Lemma split_three a b c :
  lacks " " a = true -> lacks " " b = true -> lacks " " c = true -> a <> [] -> b <> [] -> c <> [] ->
  size (a ++ " " :: b ++ " " :: c) < npos ->
  split_request_line (a ++ " " :: b ++ " " :: c) = Ok (a, b, c).
Proof.
  intros Ha Hb Hc Na Nb Nc Hs. unfold split_request_line.
  rewrite (cons_middle " " a), (cons_middle " " b), !count_app.
  rewrite (count_lacks _ a), (count_lacks _ b), (count_lacks _ c) by done.
  change (count " " [" "]) with 1. change (0 + (1 + (0 + (1 + 0))) =? 2) with true. cbv iota.
  rewrite <- (cons_middle " " b), <- (cons_middle " " a). autorewrite with cxx in Hs.
  pose proof (size_nonneg a). pose proof (size_nonneg b). pose proof (size_nonneg c).
  rewrite find_at by done. rewrite substr_front by by left. cbn [mbind res_bind].
  rewrite bool_decide_eq_false_2 by done.
  assert (E1 : a ++ " " :: b ++ " " :: c = (a ++ [" "]) ++ b ++ " " :: c) by by rewrite <- app_assoc.
  assert (E2 : a ++ " " :: b ++ " " :: c = ((a ++ [" "]) ++ b ++ [" "]) ++ c) by by rewrite <- !app_assoc.
  assert (find (a ++ " " :: b ++ " " :: c) " " (size a + 1) = size a + 1 + size b) as ->.
  { rewrite E1. rewrite find_at_from; [|by autorewrite with cxx|done]. autorewrite with cxx. lia. }
  rewrite E1 at 1. rewrite substr_middle; [|autorewrite with cxx; lia|lia]. cbn [mbind res_bind].
  rewrite bool_decide_eq_false_2 by done.
  rewrite E2, substr_end; [|autorewrite with cxx; lia|lia]. cbn [mbind res_bind].
  rewrite bool_decide_eq_false_2 by done. done.
Qed.

Definition request_text (name url proto : str) (hs : list (str * str)) : str :=
  ((name ++ " " :: url ++ " " :: proto) ++ [CR]) ++ LF :: headers_text hs.

Lemma method_name_ok method name : getMethodAsString method = Ok name ->
  getMethodAsEnum name = Ok method /\ name <> [] /\ free_of [" "; CR; LF] name = true.
Proof. destruct method; intros [= <-]; by split_and!. Qed.

Lemma protocol_name_ok p name : protocolAsString p = Ok name ->
  protocol_of_string name = Ok p /\ name <> [] /\ free_of [" "; CR; LF] name = true.
Proof. destruct p; intros [= <-]; by split_and!. Qed.

(** C28. A request without a body, of a method that has none, that is written out - method,
    printed URL, protocol, headers, empty line - is read back as it was: the URL is decoded, every header is delivered once with its
    value unchanged, and what follows the request stays in the stream. *)
Theorem request_roundtrip iteration fuel method name u p proto hs rest :
  getMethodAsString method = Ok name -> requestHasBody method = Ok No -> protocolAsString p = Ok proto ->
  printable u = true -> free_of [" "; CR; LF] (print u) = true ->
  forallb header_ok hs = true -> NoDup (map fst hs) ->
  size (request_text name (print u) proto hs ++ rest) < npos ->
  read_request iteration fuel (connected (request_text name (print u) proto hs ++ rest)) =
  (Io rest false false [] (MkRequest p (add_headers hs ∅) [] true method u), Done tt).
Proof.
  intros Hm Hb Hp Hu Hfree Hok Hnd Hsize.
  destruct (method_name_ok _ _ Hm) as (Hme & Hmn & Hmf). destruct (protocol_name_ok _ _ Hp) as (Hpe & Hpn & Hpf).
  set (first := name ++ " " :: print u ++ " " :: proto) in *.
  assert (Hfirst : forall c, In c [CR; LF] -> lacks c first = true).
  { intros c Hc. assert (In c [" "; CR; LF] /\ Ascii.eqb c " " = false) as [Hc' Hs].
    { vm_compute in Hc. repeat destruct Hc as [<-|Hc]; try done; (split; [in_lit|done]). }
    unfold first. rewrite lacks_app, lacks_cons, lacks_app, lacks_cons, Hs.
    by rewrite !(free_of_lacks [" "; CR; LF] c) by done. }
  assert (Hurl : print u <> []).
  { unfold print. destruct (path_ u); intros E; repeat (apply app_eq_nil in E as [? E]); done. }
  assert (Htext : request_text name (print u) proto hs ++ rest = (first ++ [CR]) ++ LF :: headers_text hs ++ rest).
  { unfold request_text. by rewrite <- app_assoc. }
  rewrite Htext in *. clear Htext. unfold connected, read_request.
  autorewrite with cxx in Hsize. pose proof (size_nonneg first). pose proof (size_nonneg (headers_text hs)).
  pose proof (size_nonneg rest).
  unfold mbind at 1, S_bind at 1. rewrite (getline_at _ [] (first ++ [CR]) (headers_text hs ++ rest));
    [|done|done|by rewrite lacks_app, Hfirst by in_lit].
  unfold mbind at 1, S_bind at 1. cbn [failbit set_pending].
  rewrite (erase_first_lacks LF), erase_first_last; [|by apply Hfirst; in_lit|by rewrite lacks_app, Hfirst by in_lit].
  assert (split_request_line first = Ok (name, print u, proto)) as ->.
  { assert (size first < npos) by lia. unfold first in *.
    apply split_three; try done; apply (free_of_lacks [" "; CR; LF]); try done; by left. }
  assert (Hparse : parse (print u) = Ok u).
  { apply parse_printed; [done|]. unfold first in *. autorewrite with cxx in *. pose proof (size_nonneg name).
    pose proof (size_nonneg proto). lia. }
  unfold update, set_request, request, lift, mbind, S_bind, set_pending. cbn -[read_headers parse]. rewrite Hpe. cbn -[read_headers parse].
  rewrite Hme. cbn -[read_headers parse]. rewrite Hparse. cbn -[read_headers parse].
  rewrite (headers_roundtrip hs _ _ [] rest); try done.
  - cbn -[requestHasBody]. by rewrite Hb.
  - apply Forall_forall. intros x _. apply lookup_empty.
  - unfold header_fuel. cbn [pending]. unfold headers_text. rewrite !length_app.
    assert (length hs <= length (concat (map header_line hs)))%nat; [|lia].
    clear. induction hs as [|h hs IH]; simpl; [lia|]. rewrite length_app. unfold header_line at 1.
    rewrite length_app. simpl. lia.
  - cbn [pending]. rewrite size_app. lia.
Qed.

Lemma request_roundtrip_witness :
  read_request map_to_list 0
    (connected (request_text (lit "GET") (print example_url) (lit "HTTP/1.1")
       [(lit "Host", lit " host.name"); (lit "Accept", lit " application/json;q=0.9, */*")] ++ lit "next")) =
  (Io (lit "next") false false []
    (MkRequest HTTP_1_1
      (add_headers [(lit "Host", lit " host.name"); (lit "Accept", lit " application/json;q=0.9, */*")] ∅)
      [] true GET example_url), Done tt).
Proof.
  apply request_roundtrip; try (vm_compute; reflexivity).
  apply (bool_decide_unpack _). vm_compute. exact I.
Defined.
