(* ===== verification/SensorServer.v ===== *)
(** The requests pcm-sensor-server answers: [my_get_callback] with the choice of the output
    format ([src/src/pcm-sensor-server.cpp]), and the ring of samples that the periodic
    fetcher fills and the callback reads ([addAggregator], [getAggregators]).

    The callback takes the printers of samples as functions that return a text or throw, as
    those of [JsonPrinter] and [PromPrinter] do; nothing catches what they throw. Whether
    samples are there yet, and waiting for them, is the subject of [Aggregators]. *)

From S2P Require Import Prelude CxxString Url Http HttpProperties.
Local Open Scope char_scope.
Local Open Scope Z_scope.
Local Open Scope list_scope.

(** * Output formats *)

Inductive OutputFormat := Prometheus_0_0_4 | JSON | HTML | XML | PlainText.

#[export] Instance format_eq_dec : EqDecision OutputFormat.
Proof. solve_decision. Defined.

(** [mimeTypeToOutputFormat], for the types [my_get_callback] looks up. *)
Definition mimeTypeToOutputFormat (mt : MimeType) : OutputFormat :=
  match mt with
  | TextHTML => HTML
  | TextXML => XML
  | ApplicationJSON => JSON
  | TextPlainProm_0_0_4 => Prometheus_0_0_4
  | _ => HTML
  end.

Definition supportedOutputMimeTypes : list (MimeType * str) :=
  [(TextPlainProm_0_0_4, lit "text/plain;version=0.0.4"); (ApplicationJSON, lit "application/json")].

Definition remove_spaces (s : str) : str := filter (fun c => isspace c = false) s.

(** An item of the Accept header without its weight and its white space. *)
Definition strip_weight (item : str) : str :=
  let pos := find_sub item (lit "q=") 0 in
  let copy :=
    if negb (pos =? npos) then
      let copy := prefix item pos in
      let pos' := rfind item ";" pos in
      if negb (pos' =? npos) then prefix copy pos' else copy
    else item in
  remove_spaces copy.

Definition match_item (item : str) : option MimeType :=
  fst <$> List.find (fun mt => bool_decide (remove_spaces mt.2 = strip_weight item)) supportedOutputMimeTypes.

Fixpoint match_items (list : list str) : MimeType :=
  match list with
  | [] => CatchAll
  | item :: list' => match match_item item with Some mt => mt | None => match_items list' end
  end.

Definition matchSupportedWithAcceptedMimeTypes (h : HTTPHeader) : MimeType := match_items (headerValueAsList h).

(** * [my_get_callback] *)

(** Which counters a response shows: those since the start of the server, or the
    difference of two samples taken a number of seconds apart. *)
Inductive sample := NullAndCurrent | LastSeconds (seconds : Z).

Inductive dashboard := InfluxDB | Prometheus | Prometheus_Default.

(** A line of a text in which backquotes stand for quotation marks. *)
Definition html_line (s : string) : str :=
  map (fun c => if Ascii.eqb c "`" then DQUOTE else c) (lit s) ++ [LF].

Definition index_html : str :=
   html_line "<!DOCTYPE html>" ++
   html_line "<html lang=`en`>" ++
   html_line "  <head>" ++
   html_line "    <title>PCM Sensor Server</title>" ++
   html_line "  </head>" ++
   html_line "  <body>" ++
   html_line "    <h1>PCM Sensor Server</h1>" ++
   html_line "    <p>PCM Sensor Server provides performance counter data through an HTTP interface. By default this text is served when requesting the endpoint `/`.</p>" ++
   html_line "    <p>The endpoints for retrieving counter data, /, /persecond and /persecond/X, support returning data in JSON or prometheus format. For JSON have your client send the HTTP header `Accept: application/json` and for prometheus `Accept: text/plain; version=0.0.4` along with the request, PCM Sensor Server will then return the counter data in the requested format.</p>" ++
   html_line "    <p>Endpoints you can call are:</p>" ++
   html_line "    <ul>" ++
   html_line "      <li>/ : This will fetch the counter values since start of the daemon, minus overflow so should be considered absolute numbers and should be used for further processing by yourself.</li>" ++
   html_line "      <li>/persecond : This will fetch data from the internal sample thread which samples every second and returns the difference between the last 2 samples.</li>" ++
   html_line "      <li>/persecond/X : This will fetch data from the internal sample thread which samples every second and returns the difference between the last 2 samples which are X seconds apart. X can be at most 30 seconds without changing the source code.</li>" ++
   html_line "      <li>/metrics : The Prometheus server does not send an Accept header to decide what format to return so it got its own endpoint that will always return data in the Prometheus format. pcm-sensor-server is sending the header `Content-Type: text/plain; version=0.0.4` as required. This /metrics endpoints mimics the same behavior as / and data is thus absolute, not relative.</li>" ++
   html_line "      <li>/dashboard/influxdb : This will return JSON for a Grafana dashboard with InfluxDB backend that holds all counters. Please see the documentation for more information.</li>" ++
   html_line "      <li>/dashboard/prometheus : This will return JSON for a Grafana dashboard with Prometheus backend that holds all counters. Please see the documentation for more information.</li>" ++
   html_line "      <li>/dashboard/prometheus/default : Same as /dashboard/prometheus but tuned for existing installations with default Prometheus scrape period of 15 seconds and the rate of 1 minute in Grafana. Please see the documentation for more information.</li>" ++
   html_line "      <li>/dashboard : same as /dashboard/influxdb </li>" ++
   html_line "      <li>/favicon.ico : This will return a small favicon.ico as requested by many browsers.</li>" ++
   html_line "    </ul>" ++
   html_line "  </body>" ++
   html_line "</html>".

Section Callback.

(** What the printers and the dashboard generator produce, and the icon. *)
Context (print_json print_prometheus : sample -> res str) (getPCMDashboardJSON : dashboard -> res str) (favicon : str).

(** The switch at the end of the callback. *)
Definition respond (format : OutputFormat) (req : HTTPRequest) (s : sample) (resp : HTTPResponse) : res HTTPResponse :=
  match format with
  | JSON => text ← print_json s; createResponse ApplicationJSON text 200 resp
  | Prometheus_0_0_4 => text ← print_prometheus s; createResponse TextPlainProm_0_0_4 text 200 resp
  | _ =>
      createResponse TextPlain
        (lit "406 Not Acceptable. Server can only serve " ++ [DQUOTE] ++ path_ (url_ req) ++ [DQUOTE] ++
         lit " as application/json or " ++ [DQUOTE] ++ lit "text/plain; version=0.0.4" ++ [DQUOTE] ++
         lit " (prometheus format).") 406 resp
  end.

(** [s.at(i)] *)
Definition at_ (s : str) (i : nat) : res ascii :=
  match s !! i with Some c => Ok c | None => Throw OutOfRange end.

Definition only_numbers_body : str :=
  lit "400 Bad Request Request starts with /persecond/ but is not followed by numbers only.".
Definition seconds_body : str :=
  lit "400 Bad Request. seconds equals 0 or seconds larger than 30 is not allowed".
Definition bad_characters_body : str :=
  lit "404 Bad Request. Request starts with /persecond but contains bad characters.".

(** The number of seconds in what follows [/persecond/]; a conversion that throws gives 0. *)
Definition parse_seconds (path : str) : Z :=
  match stoll 10 path with Ok n => u64 n | Throw _ => 0 end.

(** A path that starts with [/persecond], 10 characters. *)
Definition persecond (format : OutputFormat) (req : HTTPRequest) (path : str) (resp : HTTPResponse) : res HTTPResponse :=
  short ← (if size path =? 10 then Ok true
           else if size path =? 11 then c ← at_ path 10; Ok (Ascii.eqb c "/") else Ok false);
  if short : bool then respond format req (LastSeconds 1) resp
  else
    let path := drop 10 path in
    c ← at_ path 0;
    if Ascii.eqb c "/" then
      let path := drop 1 path in
      c ← at_ path (length path - 1);
      let path := if Ascii.eqb c "/" then removelast path else path in
      if forallb isdigit path then
        let seconds := parse_seconds path in
        if (1 <=? seconds) && (seconds <=? 30) then respond format req (LastSeconds seconds) resp
        else createResponse TextPlain seconds_body 400 resp
      else createResponse TextPlain only_numbers_body 400 resp
    else createResponse TextPlain bad_characters_body 404 resp.

Definition accepted (req : HTTPRequest) : MimeType :=
  match headers_ req !! lit "Accept" with
  | Some accept => matchSupportedWithAcceptedMimeTypes accept
  | None => CatchAll
  end.

Definition my_get_callback (req : HTTPRequest) (resp : HTTPResponse) : res HTTPResponse :=
  let mt := accepted req in
  let format := mimeTypeToOutputFormat mt in
  let path := path_ (url_ req) in
  if bool_decide (path = lit "/favicon.ico") then createResponse ImageXIcon favicon 200 resp
  else if bool_decide (path = lit "/") then
    if negb (bool_decide (mt = ApplicationJSON)) && negb (bool_decide (mt = TextPlainProm_0_0_4))
    then createResponse TextHTML index_html 200 resp
    else respond format req NullAndCurrent resp
  else if bool_decide (path = lit "/dashboard") || bool_decide (path = lit "/dashboard/influxdb") then
    text ← getPCMDashboardJSON InfluxDB; createResponse ApplicationJSON text 200 resp
  else if bool_decide (path = lit "/dashboard/prometheus") then
    text ← getPCMDashboardJSON Prometheus; createResponse ApplicationJSON text 200 resp
  else if bool_decide (path = lit "/dashboard/prometheus/default") then
    text ← getPCMDashboardJSON Prometheus_Default; createResponse ApplicationJSON text 200 resp
  else if starts_with (lit "/persecond") path then persecond format req path resp
  else if bool_decide (path = lit "/metrics") then respond Prometheus_0_0_4 req NullAndCurrent resp
  else createResponse TextPlain (lit "404 Unknown path.") 404 resp.

(** The callbacks [startHTTPServer] registers. *)
Definition registered (method : HTTPRequestMethod) : option (HTTPRequest -> HTTPResponse -> res HTTPResponse) :=
  match method with GET | HEAD => Some my_get_callback | _ => None end.

(** * The callback keeps the contract of the connection *)

Definition creates (resp : HTTPResponse) (r : res HTTPResponse) : Prop :=
  forall r', r = Ok r' -> exists mt body rc, createResponse mt body rc resp = Ok r' /\ is_ok (responseCodeAsString rc) = true.

Lemma createResponse_creates mt body rc resp :
  is_ok (responseCodeAsString rc) = true -> creates resp (createResponse mt body rc resp).
Proof. intros H r' E. by exists mt, body, rc. Qed.

Lemma text_creates (text : res str) mt rc resp : is_ok (responseCodeAsString rc) = true ->
  creates resp (text ← text; createResponse mt text rc resp).
Proof. intros H. destruct text as [t|e]; [by apply createResponse_creates|done]. Qed.

Lemma respond_creates format req s resp : creates resp (respond format req s resp).
Proof. destruct format; by first [apply createResponse_creates|apply text_creates]. Qed.

Lemma at_in s i : (i < length s)%nat -> exists c, at_ s i = Ok c.
Proof. intros [c H]%lookup_lt_is_Some. exists c. unfold at_. by rewrite H. Qed.

(** The accesses of [persecond] by [at] are in range. *)
Lemma persecond_creates format req path resp :
  starts_with (lit "/persecond") path = true -> creates resp (persecond format req path resp).
Proof.
  intros Hp. assert (Hl : 10 <= size path).
  { assert (exists t, path = lit "/persecond" ++ t) as [t ->].
    { clear -Hp. revert path Hp. generalize (lit "/persecond"). intros l. induction l as [|c l IH]; intros path Hp; [by exists path|].
      destruct path as [|d path]; [done|]. simpl in Hp. apply andb_true_iff in Hp as [->%Ascii.eqb_eq Hp].
      destruct (IH path Hp) as [t ->]. by exists t. }
    rewrite size_app. change (size (lit "/persecond")) with 10. pose proof (size_nonneg t). lia. }
  unfold persecond, size in *. destruct (Z.eqb_spec (Z.of_nat (length path)) 10) as [|H10]; [apply respond_creates|].
  assert (exists short, (if Z.of_nat (length path) =? 11 then c ← at_ path 10; Ok (Ascii.eqb c "/") else Ok false) = Ok short /\
            (short = false -> length path = 11%nat -> path !! 10%nat <> Some "/")) as (short & -> & Hs).
  { destruct (Z.eqb_spec (Z.of_nat (length path)) 11) as [|H11].
    - destruct (at_in path 10 ltac:(lia)) as [c Hc]. rewrite Hc. eexists. split; [reflexivity|].
      unfold at_ in Hc. destruct (path !! 10%nat); [|done]. injection Hc as ->. intros Hne _ [= ->]. done.
    - exists false. split; [done|]. lia. }
  cbn [mbind res_bind]. destruct short; [apply respond_creates|].
  destruct (at_in (drop 10 path) 0) as [c Hc]; [rewrite length_drop; lia|]. rewrite Hc. cbn [mbind res_bind].
  destruct (Ascii.eqb_spec c "/") as [->|]; [|by apply createResponse_creates].
  assert (length path <> 11%nat) as H11.
  { intros H11. apply (Hs eq_refl H11). unfold at_ in Hc. rewrite lookup_drop in Hc. simpl in Hc.
    destruct (path !! 10%nat); [by injection Hc as ->|done]. }
  destruct (at_in (drop 1 (drop 10 path)) (length (drop 1 (drop 10 path)) - 1)) as [d Hd];
    [rewrite !length_drop; lia|]. rewrite Hd. cbn [mbind res_bind].
  destruct (forallb isdigit _); [|by apply createResponse_creates].
  destruct (_ && _); [apply respond_creates|by apply createResponse_creates].
Qed.

Lemma my_get_callback_creates req resp : creates resp (my_get_callback req resp).
Proof.
  unfold my_get_callback.
  repeat match goal with
  | |- creates _ (if starts_with _ _ then _ else _) => destruct (starts_with _ _) eqn:E; [by apply persecond_creates|]
  | |- creates _ (if ?b then _ else _) => destruct b
  | |- creates _ (createResponse _ _ _ _) => by apply createResponse_creates
  | |- creates _ (getPCMDashboardJSON _ ≫= _) => by apply text_creates
  | |- creates _ (respond _ _ _ _) => apply respond_creates
  end.
Qed.

(** ** Routing *)

Lemma removelast_app_one (s : str) c : removelast (s ++ [c]) = s.
Proof. rewrite removelast_app by done. simpl. apply app_nil_r. Qed.

(** The endpoint of the last seconds: [/persecond/n], with or without a slash at the
    end, shows the difference of the samples [n] seconds apart in the accepted format when
    [n] is between 1 and 30, and is a bad request for every other number. *)
Theorem persecond_route req resp n slash :
  path_ (url_ req) = lit "/persecond/" ++ to_string n ++ slash -> slash = [] \/ slash = ["/"] ->
  0 <= n < 2 ^ 63 ->
  my_get_callback req resp =
  if (1 <=? n) && (n <=? 30)
  then respond (mimeTypeToOutputFormat (accepted req)) req (LastSeconds n) resp
  else createResponse TextPlain seconds_body 400 resp.
Proof.
  intros Hp Hslash Hn. unfold my_get_callback. rewrite Hp. set (digits := to_string n).
  destruct (decimal_front 20 n ltac:(lia) ltac:(lia)) as (c0 & s0 & Hfront & Hc0).
  assert (Hd : forallb isdigit digits = true) by (apply decimal_digits; lia).
  change (to_string n) with digits. assert (Hfr : digits = c0 :: s0) by exact Hfront.
  rewrite !bool_decide_eq_false_2 by (rewrite Hfr; discriminate). cbn [orb].
  change (starts_with (lit "/persecond") (lit "/persecond/" ++ digits ++ slash)) with true. cbv iota.
  unfold persecond. change (lit "/persecond/") with (lit "/persecond" ++ ["/"]).
  assert (Hsize : 12 <= size ((lit "/persecond" ++ ["/"]) ++ digits ++ slash)).
  { rewrite !size_app, Hfr, !size_cons, size_nil. change (size (lit "/persecond")) with 10.
    pose proof (size_nonneg s0). pose proof (size_nonneg slash). lia. }
  destruct (Z.eqb_spec (size ((lit "/persecond" ++ ["/"]) ++ digits ++ slash)) 10); [lia|].
  destruct (Z.eqb_spec (size ((lit "/persecond" ++ ["/"]) ++ digits ++ slash)) 11); [lia|].
  cbn [mbind res_bind].
  change (drop 10 ((lit "/persecond" ++ ["/"]) ++ digits ++ slash)) with ("/" :: digits ++ slash).
  change (at_ ("/" :: digits ++ slash) 0) with (Ok "/" : res ascii). cbn [mbind res_bind].
  change (Ascii.eqb "/" "/") with true. cbv iota. change (drop 1 ("/" :: digits ++ slash)) with (digits ++ slash).
  assert (exists c, at_ (digits ++ slash) (length (digits ++ slash) - 1) = Ok c /\
            (if Ascii.eqb c "/" then removelast (digits ++ slash) else digits ++ slash) = digits) as (c & -> & Hpath).
  { destruct Hslash as [->| ->].
    - rewrite app_nil_r. destruct (at_in digits (length digits - 1)) as [c Hc]; [rewrite Hfr; simpl; lia|].
      exists c. split; [done|]. unfold at_ in Hc. destruct (digits !! _) as [x|] eqn:Ex; [|done]. injection Hc as ->.
      rewrite forallb_forall in Hd. apply list_elem_of_lookup_2, list_elem_of_In, Hd in Ex.
      by destruct (Ascii.eqb_spec c "/") as [->|].
    - exists "/". rewrite removelast_app_one. split; [|done]. unfold at_.
      rewrite length_app. simpl. rewrite lookup_app_r by lia. by replace (length digits + 1 - 1 - length digits)%nat with O by lia. }
  cbn [mbind res_bind]. rewrite Hpath, Hd. unfold parse_seconds. unfold digits. rewrite stoll_to_string by done.
  by rewrite wrapN_small by (unfold fits; lia).
Qed.

#[export] Instance registered_create : CallbacksCreate registered.
Proof. intros [] callback [= <-] req r r'; apply my_get_callback_creates. Qed.
End Callback.

Definition example_request (path : string) : HTTPRequest :=
  MkRequest HTTP_1_1 ∅ [] true GET (set_path (lit path) URL_init).

Lemma persecond_route_witness :
  my_get_callback (fun _ => Ok []) (fun _ => Ok []) (fun _ => Ok []) [] (example_request "/persecond/31/") HTTPResponse_init =
  createResponse TextPlain seconds_body 400 HTTPResponse_init.
Proof.
  apply (persecond_route (fun _ => Ok []) (fun _ => Ok []) (fun _ => Ok []) [] (example_request "/persecond/31/")
           HTTPResponse_init 31 ["/"]); [reflexivity|by right|done].
Defined.

(** A connection to the server: a request, and then the client closes. *)
Definition example_connection : io :=
  connected (request_text (lit "GET") (lit "/persecond/31") (lit "HTTP/1.1") [(lit "Host", lit " h")]).

Definition example_callbacks := registered (fun _ => Ok []) (fun _ => Ok []) (fun _ => Ok []) [].

Lemma execute_answers_witness :
  match execute map_to_list example_callbacks (fun _ => []) 3 example_connection with
  | (s', Done _) => exists k, (k <= 100)%nat /\ serves map_to_list 3 k example_connection s'
  | (_, Raised e) => callback_throws example_callbacks e
  | (_, Looping) => True
  end.
Proof.
  apply (execute_answers map_to_list example_callbacks (fun _ => []) (Hcallbacks := registered_create _ _ _ _)).
Defined.

(** * The samples: [addAggregator] and [getAggregators]

    One thread, the periodic fetcher, adds samples; any number of connections read them.
    [getAggregators] looks at the size of the vector without the mutex and takes the mutex
    only to read the two elements, so the steps of the two functions interleave. *)
Module Aggregators.
Section Samples.
Context {A : Type}.

Definition ring_size : nat := 30.

(** Where the fetcher is: outside, after [lock], after [insert], after the [pop_back]. *)
Inductive fetcher := Outside | Locked | Inserted | Trimmed.

(** Where a call of [getAggregators(i, j)] is: waiting for enough samples, past the loop,
    holding the mutex, returned with two samples, or past the end of the vector. *)
Inductive reader :=
  | Waiting (i j : nat)
  | Enough (i j : nat)
  | Holding (i j : nat)
  | Returned (i j : nat) (x y : A)
  | BeyondEnd (i j : nat).

Inductive holder := Fetcher | Reader (id : nat).

Record server := Server {
  agVector_ : list A;                (** newest first *)
  agVectorMutex_ : option holder;
  pcf : fetcher;
  readers : gmap nat reader;
  pushed : list A                    (** every sample so far, newest first *)
}.

(** [if ( agVector_.size() > 30 ) agVector_.pop_back();] *)
Definition trim_ring (v : list A) : list A := if (ring_size <? length v)%nat then removelast v else v.

Inductive step : server -> server -> Prop :=
  | add_lock s : pcf s = Outside -> agVectorMutex_ s = None ->
      step s (Server (agVector_ s) (Some Fetcher) Locked (readers s) (pushed s))
  | add_insert s a : pcf s = Locked ->
      step s (Server (a :: agVector_ s) (agVectorMutex_ s) Inserted (readers s) (a :: pushed s))
  | add_trim s : pcf s = Inserted ->
      step s (Server (trim_ring (agVector_ s)) (agVectorMutex_ s) Trimmed (readers s) (pushed s))
  | add_unlock s : pcf s = Trimmed ->
      step s (Server (agVector_ s) None Outside (readers s) (pushed s))
  | get_call s r i j : readers s !! r = None -> i <> j ->
      step s (Server (agVector_ s) (agVectorMutex_ s) (pcf s) (<[r := Waiting i j]> (readers s)) (pushed s))
  | get_check s r i j : readers s !! r = Some (Waiting i j) -> (Nat.max i j + 1 <= length (agVector_ s))%nat ->
      step s (Server (agVector_ s) (agVectorMutex_ s) (pcf s) (<[r := Enough i j]> (readers s)) (pushed s))
  | get_lock s r i j : readers s !! r = Some (Enough i j) -> agVectorMutex_ s = None ->
      step s (Server (agVector_ s) (Some (Reader r)) (pcf s) (<[r := Holding i j]> (readers s)) (pushed s))
  | get_read s r i j x y : readers s !! r = Some (Holding i j) ->
      agVector_ s !! i = Some x -> agVector_ s !! j = Some y ->
      step s (Server (agVector_ s) None (pcf s) (<[r := Returned i j x y]> (readers s)) (pushed s))
  | get_beyond s r i j : readers s !! r = Some (Holding i j) ->
      (length (agVector_ s) <= Nat.max i j)%nat ->
      step s (Server (agVector_ s) None (pcf s) (<[r := BeyondEnd i j]> (readers s)) (pushed s)).

Definition init : server := Server [] None Outside ∅ [].

Definition reachable (s : server) : Prop := rtc step init s.

(** A reader that is past the loop has its samples for good, unless it wants the 31st. *)
Definition reader_ok (s : server) (r : nat) (x : reader) : Prop :=
  match x with
  | Waiting _ _ => True
  | Enough i j =>
      (Nat.max i j <= ring_size)%nat /\ (Nat.min (Nat.max i j + 1) ring_size <= length (agVector_ s))%nat
  | Holding i j =>
      agVectorMutex_ s = Some (Reader r) /\
      (Nat.max i j <= ring_size)%nat /\ (Nat.min (Nat.max i j + 1) ring_size <= length (agVector_ s))%nat
  | Returned i j x y =>
      (Nat.max i j < ring_size)%nat /\
      exists past recent, pushed s = recent ++ past /\ past !! i = Some x /\ past !! j = Some y
  | BeyondEnd i j => (ring_size <= Nat.max i j)%nat
  end.

Record inv (s : server) : Prop := Inv {
  inv_vector : agVector_ s = take (if match pcf s with Inserted => true | _ => false end then S ring_size else ring_size) (pushed s);
  inv_fetcher : match pcf s with Outside => agVectorMutex_ s <> Some Fetcher | _ => agVectorMutex_ s = Some Fetcher end;
  inv_readers : forall r x, readers s !! r = Some x -> reader_ok s r x
}.

(** What the other readers of a state keep when vector, mutex and history move on. *)
Lemma reader_ok_mono s s' r x :
  reader_ok s r x ->
  (agVectorMutex_ s = Some (Reader r) -> agVectorMutex_ s' = Some (Reader r)) ->
  (Nat.min (length (agVector_ s)) ring_size <= length (agVector_ s'))%nat ->
  (exists recent, pushed s' = recent ++ pushed s) ->
  reader_ok s' r x.
Proof.
  intros H Hm Hl [recent Hp]. destruct x; simpl in *; try done.
  - destruct H. split; [done|]. lia.
  - destruct H as (? & ? & ?). split_and!; [by apply Hm|done|lia].
  - destruct H as (? & past & recent' & Hpast & ?). split; [done|].
    exists past, (recent ++ recent'). split; [|done]. by rewrite Hp, Hpast, app_assoc.
Qed.

Lemma trim_take (l : list A) : trim_ring (take (S ring_size) l) = take ring_size l.
Proof.
  unfold trim_ring. rewrite length_take. destruct (Nat.ltb_spec ring_size (S ring_size `min` length l)) as [H|H].
  - assert (exists a b, l = a ++ b /\ length a = S ring_size) as (a & b & -> & Ha).
    { exists (take (S ring_size) l), (drop (S ring_size) l). rewrite take_drop, length_take. split; [done|lia]. }
    rewrite take_app_length' by done. destruct a as [|z a _] using rev_ind; [done|].
    rewrite length_app in Ha. simpl in Ha. rewrite removelast_app by done. simpl. rewrite app_nil_r.
    rewrite <- app_assoc, take_app_length' by lia. done.
  - rewrite !take_ge by lia. done.
Qed.

Lemma inv_length s : inv s -> (length (agVector_ s) <= S ring_size)%nat /\
  (pcf s <> Inserted -> length (agVector_ s) <= ring_size)%nat.
Proof.
  intros [Hv _ _]. rewrite Hv. destruct (pcf s); rewrite length_take; split; try done; intros; lia.
Qed.

(** The readers after one of them moved to [y]. *)
Lemma readers_moved s s' r y :
  (forall q x, readers s !! q = Some x -> reader_ok s q x) ->
  readers s' = <[r := y]> (readers s) -> agVector_ s' = agVector_ s -> pushed s' = pushed s ->
  (forall q, q <> r -> agVectorMutex_ s = Some (Reader q) -> agVectorMutex_ s' = Some (Reader q)) ->
  reader_ok s' r y ->
  forall q x, readers s' !! q = Some x -> reader_ok s' q x.
Proof.
  intros Hr -> Hv Hp Hm Hy q x. destruct (decide (q = r)) as [->|Hne].
  - rewrite lookup_insert_eq. by intros [= <-].
  - rewrite lookup_insert_ne by done. intros Hx. eapply reader_ok_mono; [by apply Hr|by apply Hm|rewrite Hv; lia|].
    exists []. by rewrite Hp.
Qed.

(** A reader that holds the mutex keeps the fetcher outside. *)
Lemma holding_outside s r : inv s -> agVectorMutex_ s = Some (Reader r) -> pcf s = Outside.
Proof. intros [_ Hf _] Hm. destruct (pcf s); congruence. Qed.

Lemma ring_step_inv s s' : inv s -> step s s' -> inv s'.
Proof.
  intros Hi. pose proof (inv_length s Hi) as [Hlen Hlen']. pose proof Hi as [Hv Hf Hr].
  destruct 1 as [s Hp Hm|s a Hp|s Hp|s Hp|s r i j Hx Hij|s r i j Hx Hn|s r i j Hx Hm|s r i j x y Hx H1 H2|s r i j Hx Hn].
  - rewrite Hp in *. constructor; simpl; try done. intros r x Hx.
    eapply reader_ok_mono; [by apply Hr|congruence|simpl; lia|by exists []].
  - rewrite Hp in *. constructor; simpl; try done; [by rewrite Hv|]. intros r x Hx.
    eapply reader_ok_mono; [by apply Hr|congruence|simpl; lia|by exists [a]].
  - rewrite Hp in *. constructor; simpl; try done; [by rewrite Hv, trim_take|]. intros r x Hx.
    eapply reader_ok_mono; [by apply Hr|congruence| |by exists []]. simpl. rewrite Hv, trim_take, !length_take. lia.
  - rewrite Hp in *. constructor; simpl; try done. intros r x Hx.
    eapply reader_ok_mono; [by apply Hr|congruence|simpl; lia|by exists []].
  - constructor; [done|done|]. by eapply (readers_moved s).
  - constructor; [done|done|]. eapply (readers_moved s); try done. simpl. lia.
  - constructor; [done| |].
    + simpl. rewrite Hm in Hf. by destruct (pcf s).
    + eapply (readers_moved s); try done; simpl; [congruence|]. by destruct (Hr _ _ Hx).
  - destruct (Hr _ _ Hx) as (Hm & _ & _). pose proof (holding_outside s r Hi Hm) as Hout. rewrite Hout in *.
    specialize (Hlen' ltac:(done)). constructor; [done|done|].
    eapply (readers_moved s); try done; simpl; [congruence|].
    pose proof (lookup_lt_Some _ _ _ H1). pose proof (lookup_lt_Some _ _ _ H2). split; [lia|].
    exists (pushed s), []. rewrite Hv in H1, H2. split; [done|].
    apply lookup_take_Some in H1 as [? _], H2 as [? _]. done.
  - destruct (Hr _ _ Hx) as (Hm & Hmax & Hmin). pose proof (holding_outside s r Hi Hm) as Hout. rewrite Hout in *.
    constructor; [done|done|].
    eapply (readers_moved s); try done; simpl; [congruence|]. lia.
Qed.

Lemma ring_reachable_inv s : reachable s -> inv s.
Proof.
  revert s. apply rtc_ind_r; [|intros s s' _ Hs IH; by eapply ring_step_inv]. by constructor.
Qed.

(** C35. The samples of [getAggregators(i, j)]: in every interleaving of the fetcher and the
    connections, the two samples that a call returns are [i] and [j] pushes of the fetcher old
    in one and the same state of the history, and a call for samples up to 29 pushes old never
    reads past the end of the vector although it checks the size before it takes the mutex. A
    call for index 30, which [/persecond/30] makes, can (see [thirty_seconds_read_past_end]). *)
Theorem samples_consistent s r :
  reachable s ->
  match readers s !! r with
  | Some (Returned i j x y) =>
      exists past recent, pushed s = recent ++ past /\ past !! i = Some x /\ past !! j = Some y
  | Some (BeyondEnd i j) => (ring_size <= Nat.max i j)%nat
  | _ => True
  end.
Proof.
  intros Hs. destruct (readers s !! r) as [x|] eqn:E; [|done]. pose proof (inv_readers s (ring_reachable_inv s Hs) r x E) as H.
  destruct x; try done. by destruct H.
Qed.

(** The vector never holds 31 samples while the mutex is free, so [/persecond/30], which
    asks for the samples 30 and 0, is never answered: no call of [getAggregators] with an
    index of 30 returns. *)
Theorem thirty_seconds_never_served s r i j x y :
  reachable s -> readers s !! r = Some (Returned i j x y) -> (i < ring_size)%nat /\ (j < ring_size)%nat.
Proof.
  intros Hs E. pose proof (inv_readers s (ring_reachable_inv s Hs) r _ E) as [H _]. split; lia.
Qed.
End Samples.

(** A run: two samples are pushed, and a reader gets both. *)
Section Example_run.

Definition after_push (a : nat) (s : server) : server :=
  Server (trim_ring (a :: agVector_ s)) None Outside (readers s) (a :: pushed s).

Lemma push_steps a s : pcf s = Outside -> agVectorMutex_ s = None -> rtc step s (after_push a s).
Proof.
  intros Hp Hm. eapply rtc_l; [by apply add_lock|]. eapply rtc_l; [by apply (add_insert _ a)|].
  eapply rtc_l; [by apply add_trim|]. eapply rtc_l; [by apply add_unlock|]. apply rtc_refl.
Qed.

Lemma pushes_steps a n s : pcf s = Outside -> agVectorMutex_ s = None -> rtc step s (Nat.iter n (after_push a) s).
Proof.
  intros Hp Hm. induction n as [|n IH]; [apply rtc_refl|]. simpl. etrans; [exact IH|].
  by destruct n; apply push_steps.
Qed.

(** A connection that asks for the samples 30 and 0 while the vector holds 31, between [insert]
    and [pop_back], passes the test of the size and finds 30 of them when it has the mutex. *)
Lemma full_vector_read_past_end (s : server (A := nat)) : reachable s -> pcf s = Outside -> agVectorMutex_ s = None ->
  readers s !! 0%nat = None -> length (agVector_ s) = ring_size ->
  exists s' : server (A := nat), reachable s' /\ readers s' !! 0%nat = Some (BeyondEnd 30 0).
Proof.
  intros Hs Hp Hm Hr Hl.
  set (r1 := <[0%nat := Waiting 30 0]> (readers s)). set (r2 := <[0%nat := Enough 30 0]> r1).
  set (r3 := <[0%nat := Holding 30 0]> r2). set (r4 := <[0%nat := BeyondEnd 30 0]> r3).
  set (v := agVector_ s) in *. set (w := trim_ring (0%nat :: v)).
  exists (Server w None Outside r4 (0%nat :: pushed s)). split; [|apply lookup_insert_eq]. unfold reachable. etrans; [exact Hs|].
  eapply rtc_l; [by apply add_lock|]. eapply rtc_l; [by apply (add_insert _ 0%nat)|].
  eapply rtc_l; [by apply (get_call _ 0 30 0)|].
  eapply rtc_l; [apply (get_check _ 0 30 0); [apply lookup_insert_eq|cbn [agVector_ length]; unfold ring_size in Hl; fold v; lia]|].
  eapply rtc_l; [by apply add_trim|]. eapply rtc_l; [by apply add_unlock|].
  eapply rtc_l; [apply (get_lock _ 0 30 0); [apply lookup_insert_eq|done]|].
  eapply rtc_l; [|apply rtc_refl]. apply (get_beyond (Server w (Some (Reader 0)) Outside r3 (0%nat :: pushed s))); [apply lookup_insert_eq|].
  cbn [agVector_]. unfold w, trim_ring. cbn [length]. rewrite Hl. cbn [Nat.ltb Nat.leb ring_size].
  rewrite removelast_firstn_len, length_take. cbn [length]. rewrite Hl. unfold ring_size. lia.
Qed.

Lemma thirty_seconds_read_past_end : exists s : server (A := nat), reachable s /\ readers s !! 0%nat = Some (BeyondEnd 30 0).
Proof.
  apply (full_vector_read_past_end (Nat.iter 30 (after_push 0%nat) init)); [by apply (pushes_steps 0%nat 30)|done..].
Qed.

Definition example : server :=
  Server [7%nat; 5%nat] None Outside
    (<[0%nat := Returned 1 0 5%nat 7%nat]> (<[0%nat := Holding 1 0]> (<[0%nat := Enough 1 0]> (<[0%nat := Waiting 1 0]> ∅))))
    [7%nat; 5%nat].

Lemma example_run_reachable : reachable example.
Proof.
  unfold reachable. etrans; [apply (push_steps 5); done|]. etrans; [apply (push_steps 7); done|].
  eapply rtc_l; [by apply (get_call _ 0 1 0)|]. eapply rtc_l; [apply (get_check _ 0 1 0); [done|simpl; lia]|].
  eapply rtc_l; [by apply (get_lock _ 0 1 0)|]. eapply rtc_l; [by apply (get_read _ 0 1 0 5%nat 7%nat)|]. apply rtc_refl.
Qed.

Lemma samples_consistent_witness :
  exists past recent, pushed example = recent ++ past /\ past !! 1%nat = Some 5%nat /\ past !! 0%nat = Some 7%nat.
Proof. exact (samples_consistent example 0 example_run_reachable). Defined.

Lemma thirty_seconds_never_served_witness : (1 < ring_size)%nat /\ (0 < ring_size)%nat.
Proof. exact (thirty_seconds_never_served example 0 1 0 5%nat 7%nat example_run_reachable eq_refl). Defined.
End Example_run.
End Aggregators.
