(* ===== verification/WidthExtender.v ===== *)
(** The counter width extender of [src/src/width_extender.h]: a [w]-bit raw
    hardware counter is turned into a 64-bit one by accumulating differences.

    [CounterWidthExtender] models the object and its two operations, called
    with the value that [( *raw_counter )()] returned. [Threads] models the
    threads that share one object (callers of [read] and [reset], and the
    watchdog that the constructor starts) as a step relation with the mutex,
    next to a hardware counter that advances at any moment. *)

From stdpp Require Import sorting.
From S2P Require Import Prelude.
Local Open Scope Z_scope.

Module CounterWidthExtender.

Record t := mk {
  extended_value : Z;
  last_raw_value : Z;
  counter_width : Z
}.

(** The constructor, up to the thread it starts. *)
Definition make (counter_width_ raw : Z) : t := mk raw raw counter_width_.

(** [internal_read] between [lock] and [unlock]; [new_raw_value] is the sample. *)
Definition internal_read (s : t) (new_raw_value : Z) : t * Z :=
  let extended :=
    if new_raw_value <? last_raw_value s
    then u64 (extended_value s
              + u64 (u64 (u64 (Z.shiftl 1 (counter_width s)) - last_raw_value s) + new_raw_value))
    else u64 (extended_value s + u64 (new_raw_value - last_raw_value s)) in
  (mk extended new_raw_value (counter_width s), extended).

Definition read := internal_read.

Definition reset (s : t) (raw : Z) : t := mk raw raw (counter_width s).

(** Abstraction: the unbounded counter [c] was last sampled at [c], and the
    extended value is [c] shifted by [base] modulo [2^64]. *)
Definition represents (s : t) (base c : Z) : Prop :=
  last_raw_value s = wrapN (counter_width s) c /\ extended_value s = u64 (base + c).

(** A difference of two samples less than one period apart. *)
Lemma raw_difference w c c' :
  0 <= w -> c <= c' < c + 2 ^ w ->
  (if wrapN w c' <? wrapN w c
   then 2 ^ w - wrapN w c + wrapN w c' else wrapN w c' - wrapN w c) = c' - c.
Proof.
  intros Hw Hc. unfold wrapN. pose proof (Z.pow_pos_nonneg 2 w).
  pose proof (Z.div_mod c (2 ^ w)). pose proof (Z.div_mod c' (2 ^ w)).
  pose proof (Z.mod_pos_bound c (2 ^ w)). pose proof (Z.mod_pos_bound c' (2 ^ w)).
  set (q := c / 2 ^ w) in *. set (q' := c' / 2 ^ w) in *.
  assert (q' = q \/ q' = q + 1) as [-> | ->] by nia;
    destruct (Z.ltb_spec (c' mod 2 ^ w) (c mod 2 ^ w)); nia.
Qed.

Lemma internal_read_extended s new_raw_value :
  0 <= counter_width s < 64 ->
  extended_value (internal_read s new_raw_value).1 =
  u64 (extended_value s +
       (if new_raw_value <? last_raw_value s
        then 2 ^ counter_width s - last_raw_value s + new_raw_value
        else new_raw_value - last_raw_value s)).
Proof.
  intros Hw. unfold internal_read; simpl. rewrite Z.shiftl_1_l.
  destruct (_ <? _); wrap_ring 64.
Qed.

Lemma internal_read_represents s base c c' :
  0 <= counter_width s < 64 -> c <= c' < c + 2 ^ counter_width s ->
  represents s base c ->
  represents (internal_read s (wrapN (counter_width s) c')).1 base c'.
Proof.
  intros Hw Hc [Hlast Hext]. split; [done|].
  rewrite internal_read_extended, Hlast, raw_difference, Hext by lia.
  rewrite wrapN_add_l by lia. f_equal; lia.
Qed.

Lemma make_represents w c : 0 <= w <= 64 -> represents (make w (wrapN w c)) (wrapN w c - c) c.
Proof.
  intros Hw. split; [done|]. simpl. replace (wrapN w c - c + c) with (wrapN w c) by lia.
  symmetry. apply wrapN_small, (fits_mono w); [lia|]. apply wrapN_fits; lia.
Qed.

Lemma internal_read_result s raw :
  (internal_read s raw).2 = extended_value (internal_read s raw).1.
Proof. done. Qed.

Lemma internal_read_width s raw : counter_width (internal_read s raw).1 = counter_width s.
Proof. done. Qed.

End CounterWidthExtender.

Module Threads.
Import CounterWidthExtender.
#[local] Opaque internal_read.

(** What a thread does next on the shared object. *)
Inductive op := Read | Reset.
Inductive phase :=
  | Idle
  | Locked (o : op)               (** holds [CounterMutex] *)
  | Sampled (o : op) (raw : Z)    (** the raw counter was read *)
  | Updated (result : option Z).  (** fields written; value to return for [Read] *)

(** [hw] is the number of events since power-on; the raw counter shows
    [wrapN w hw]. [base] and [last] are ghost: the abstraction of the object
    and the count at its last sample. [returned] lists the results of [read],
    newest first, with the count each one reports and the epoch's base. *)
Record sys := Sys {
  hw : Z;
  mutex : option nat;
  threads : nat -> phase;
  obj : t;
  base : Z;
  last : Z;
  returned : list (Z * Z * Z)
}.

Definition upd (f : nat -> phase) (i : nat) (p : phase) : nat -> phase :=
  fun j => if decide (i = j) then p else f j.

Section Steps.
Context (w : Z).

(** The environment assumption is the premise of [tick]: the hardware counter
    advances by less than one period of the raw counter between two samples,
    which is what the watchdog thread is for. *)
Inductive step : sys -> sys -> Prop :=
  | step_tick s d :
      0 <= d -> hw s + d < last s + 2 ^ w ->
      step s (Sys (hw s + d) (mutex s) (threads s) (obj s) (base s) (last s) (returned s))
  | step_lock s i o :
      threads s i = Idle -> mutex s = None ->
      step s (Sys (hw s) (Some i) (upd (threads s) i (Locked o)) (obj s) (base s) (last s)
                (returned s))
  | step_sample s i o :
      threads s i = Locked o ->
      step s (Sys (hw s) (mutex s) (upd (threads s) i (Sampled o (wrapN w (hw s)))) (obj s)
                (base s) (hw s) (returned s))
  | step_read s i raw :
      threads s i = Sampled Read raw ->
      step s (Sys (hw s) (mutex s)
                (upd (threads s) i (Updated (Some (internal_read (obj s) raw).2)))
                (internal_read (obj s) raw).1 (base s) (last s)
                (((internal_read (obj s) raw).2, base s, last s) :: returned s))
  | step_reset s i raw :
      threads s i = Sampled Reset raw ->
      step s (Sys (hw s) (mutex s) (upd (threads s) i (Updated None))
                (reset (obj s) raw) (raw - last s) (last s) (returned s))
  | step_unlock s i r :
      threads s i = Updated r ->
      step s (Sys (hw s) None (upd (threads s) i Idle) (obj s) (base s) (last s) (returned s)).

Definition init (c : Z) : sys :=
  Sys c None (fun _ => Idle) (make w (wrapN w c)) (wrapN w c - c) c [].

Definition reachable (c : Z) (s : sys) : Prop := rtc step (init c) s.

(** Only the holder of the mutex is in its critical section, and the object
    represents the count of the last completed operation. *)
Definition holder_ok (s : sys) : Prop :=
  forall i, threads s i <> Idle <-> mutex s = Some i.

Definition object_ok (s : sys) : Prop :=
  counter_width (obj s) = w /\
  match mutex s with
  | None => represents (obj s) (base s) (last s)
  | Some i =>
      match threads s i with
      | Sampled _ raw =>
          raw = wrapN w (last s) /\
          exists c, c <= last s < c + 2 ^ w /\ represents (obj s) (base s) c
      | _ => represents (obj s) (base s) (last s)
      end
  end.

Definition results_ok (s : sys) : Prop :=
  Forall (fun '(r, b, c) => r = u64 (b + c) /\ c <= last s) (returned s) /\
  Sorted (fun x y => y.2 <= x.2) (returned s).

Record inv (s : sys) : Prop := {
  inv_holder : holder_ok s;
  inv_object : object_ok s;
  inv_last : last s <= hw s < last s + 2 ^ w;
  inv_results : results_ok s
}.

Lemma upd_eq f i p : upd f i p i = p.
Proof. unfold upd. by rewrite decide_True by done. Qed.

Lemma upd_ne f i j p : i <> j -> upd f i p j = f j.
Proof. intros. unfold upd. by rewrite decide_False by done. Qed.

(** The holder of the mutex moves within its critical section. *)
Lemma holder_move s i p hw' obj' base' last' returned' :
  holder_ok s -> threads s i <> Idle -> p <> Idle ->
  holder_ok (Sys hw' (mutex s) (upd (threads s) i p) obj' base' last' returned').
Proof.
  intros Hh Hi Hp j; simpl. destruct (decide (i = j)) as [<-|Hne].
  - rewrite upd_eq. rewrite (proj1 (Hh i)) by done. done.
  - rewrite upd_ne by done. apply Hh.
Qed.

Lemma holder_mutex s i : holder_ok s -> threads s i <> Idle -> mutex s = Some i.
Proof. intros Hh. apply Hh. Qed.

Lemma results_ok_weaken hw0 m th o b c hw1 m1 th1 o1 b1 c1 l :
  c <= c1 -> results_ok (Sys hw0 m th o b c l) -> results_ok (Sys hw1 m1 th1 o1 b1 c1 l).
Proof.
  intros Hc [Hall Hs]. split; [|done]. simpl in *.
  eapply Forall_impl; [done|]. intros [[r' b'] c'] []; split; [done|lia].
Qed.

(** A read appends the count it reports, which is the newest sample. *)
Lemma results_ok_push hw0 m th o b c hw1 m1 th1 o1 b1 l :
  results_ok (Sys hw0 m th o b c l) ->
  results_ok (Sys hw1 m1 th1 o1 b1 c ((u64 (b + c), b, c) :: l)).
Proof.
  intros [Hall Hs]; split; simpl in *.
  - constructor; [split; [done|lia]|done].
  - constructor; [done|]. destruct l as [|[[r' b'] c'] l]; constructor; simpl.
    by apply Forall_cons in Hall as [[]].
Qed.

Lemma step_inv s s' : 0 <= w < 64 -> step s s' -> inv s -> inv s'.
Proof.
  intros Hw Hstep [Hh [Hcw Ho] Hl Hr]. destruct Hstep; simpl in *.
  - split; [done|done|simpl; lia|]. destruct s; simpl in *. eapply results_ok_weaken; [|done]; done.
  - split; [|split; [done|]|done|].
    + intros j; simpl. destruct (decide (i = j)) as [<-|Hne]; [rewrite upd_eq; split; congruence|].
      rewrite upd_ne by done. rewrite (Hh j), H0. split; congruence.
    + simpl. rewrite upd_eq. by rewrite H0 in Ho.
    + destruct s; eapply results_ok_weaken; [|done]; done.
  - assert (mutex s = Some i) as Hm by (apply holder_mutex; congruence || done).
    split; [apply holder_move; congruence || done|split; [done|]|simpl in *; lia|].
    + simpl. rewrite Hm, upd_eq. rewrite Hm, H in Ho. split; [done|]. by exists (last s).
    + destruct s; eapply results_ok_weaken; [|done]; simpl in *; lia.
  - assert (mutex s = Some i) as Hm by (apply holder_mutex; congruence || done).
    rewrite Hm, H in Ho. destruct Ho as [-> (c & Hc & Hrep)].
    assert (represents (internal_read (obj s) (wrapN w (last s))).1 (base s) (last s)) as Hrep'.
    { rewrite <- Hcw. apply (internal_read_represents _ _ c); rewrite ?Hcw; done. }
    split; [apply holder_move; congruence || done|split; [|]|done|].
    + simpl. by rewrite internal_read_width.
    + simpl. by rewrite Hm, upd_eq.
    + assert ((internal_read (obj s) (wrapN w (last s))).2 = u64 (base s + last s)) as ->
        by apply Hrep'.
      destruct s; eapply results_ok_push; done.
  - assert (mutex s = Some i) as Hm by (apply holder_mutex; congruence || done).
    rewrite Hm, H in Ho. destruct Ho as [-> _].
    split; [apply holder_move; congruence || done|split; [done|]|done|].
    + simpl. rewrite Hm, upd_eq. unfold reset. rewrite Hcw. apply make_represents; lia.
    + destruct s; eapply results_ok_weaken; [|done]; done.
  - assert (mutex s = Some i) as Hm by (apply holder_mutex; congruence || done).
    rewrite Hm, H in Ho. split; [|done|done|].
    + intros j; simpl. destruct (decide (i = j)) as [<-|Hne]; [rewrite upd_eq; split; congruence|].
      rewrite upd_ne, (Hh j) by done. split; congruence.
    + destruct s; eapply results_ok_weaken; [|done]; done.
Qed.

Lemma reachable_inv c s : 0 <= w < 64 -> reachable c s -> inv s.
Proof.
  intros Hw. revert s. apply rtc_ind_r; [|intros s1 s2 _ Hs IH; by eapply step_inv].
  split.
  - intros j; simpl. split; [done|discriminate].
  - split; [done|]. apply make_represents; lia.
  - simpl. pose proof (Z.pow_pos_nonneg 2 w). lia.
  - by split; constructor.
Qed.
End Steps.

(** C1. Whatever the interleaving of readers, resetters, the watchdog and the
    hardware counter, every value [read] returned is the number of hardware
    events at its sample, up to the constant fixed by the last reset, modulo
    [2^64]; the samples come in order; and between operations the object holds
    that value for its last sample. *)
Theorem read_tracks_hardware_counter (w c : Z) (s : sys) :
  0 <= w < 64 -> reachable w c s ->
  Forall (fun '(r, b, n) => r = u64 (b + n) /\ n <= last s) (returned s) /\
  Sorted (fun x y => y.2 <= x.2) (returned s) /\
  last s <= hw s < last s + 2 ^ w /\
  (mutex s = None -> represents (obj s) (base s) (last s)).
Proof.
  intros Hw Hr. destruct (reachable_inv w c s Hw Hr) as [_ [_ Ho] Hl [Hall Hs]].
  split; [done|split; [done|split; [lia|]]]. intros Hm. by rewrite Hm in Ho.
Qed.

(** At most one thread is between [lock] and [unlock] of [CounterMutex],
    and it is the recorded holder. *)
Theorem critical_section_exclusive (w c : Z) (s : sys) (i j : nat) :
  0 <= w < 64 -> reachable w c s ->
  threads s i <> Idle -> threads s j <> Idle -> i = j /\ mutex s = Some i.
Proof.
  intros Hw Hr Hi Hj. destruct (reachable_inv w c s Hw Hr) as [Hh].
  apply Hh in Hi, Hj. split; congruence.
Qed.

(** A run over a wrap of an 8-bit counter: power-on count 250, ten events, and
    one read by thread 0. *)
Definition example : sys :=
  Sys 260 None
    (upd (upd (upd (upd (fun _ => Idle) 0 (Locked Read)) 0 (Sampled Read 4))
       0 (Updated (Some 260))) 0 Idle)
    (mk 260 4 8) 0 260 [(260, 0, 260)].

Lemma example_reachable : reachable 8 250 example.
Proof.
  eapply rtc_l; [apply (step_tick 8 (init 8 250) 10); vm_compute; congruence|].
  eapply rtc_l; [by apply (step_lock _ _ 0%nat Read)|].
  eapply rtc_l; [by apply (step_sample _ _ 0%nat Read)|].
  eapply rtc_l; [by apply (step_read _ _ 0%nat 4)|].
  eapply rtc_l; [by apply (step_unlock _ _ 0%nat (Some 260))|].
  apply rtc_refl.
Qed.

Lemma read_tracks_hardware_counter_witness :
  Forall (fun '(r, b, n) => r = u64 (b + n) /\ n <= 260) (returned example) /\
  represents (obj example) 0 260.
Proof.
  destruct (read_tracks_hardware_counter 8 250 example) as (H & _ & _ & Hrep);
    [lia|exact example_reachable|].
  split; [exact H|by apply Hrep].
Defined.

(** Thread 1 inside its critical section. *)
Lemma critical_section_exclusive_witness :
  exists s, reachable 8 250 s /\ threads s 1%nat = Locked Reset /\ mutex s = Some 1%nat.
Proof.
  exists (Sys 250 (Some 1%nat) (upd (fun _ => Idle) 1 (Locked Reset)) (make 8 250) 0 250 []).
  assert (reachable 8 250
    (Sys 250 (Some 1%nat) (upd (fun _ => Idle) 1 (Locked Reset)) (make 8 250) 0 250 [])) as Hr.
  { eapply rtc_l; [by apply (step_lock _ (init 8 250) 1%nat Reset)|]. apply rtc_refl. }
  split; [exact Hr|]. split; [done|].
  apply (critical_section_exclusive 8 250 _ 1 1); done || lia.
Defined.

End Threads.
