(* ===== verification/Bits.v ===== *)
(** Bit extraction, insertion and the register layouts of [src/src/types.h] and
    [src/src/utils.h], and the counter-width truncations of
    [src/src/cpucounters.cpp] that use them. *)

From S2P Require Import Prelude.
Local Open Scope Z_scope.

(** * [build_bit_ui], [extract_bits_32], [build_bit], [extract_bits] *)

Definition build_bit_ui (beg end_ : Z) : Z :=
  let end1 := if 31 <? end_ then 31 else end_ in
  if 31 <? beg then 0
  else
    let myll := if end1 =? 31 then u32 (-1) else u32 (Z.shiftl 1 (end1 + 1) - 1) in
    Z.shiftr myll beg.

Definition extract_bits_32 (myin beg end_ : Z) : Z :=
  let beg1 := if beg <=? end_ then beg else end_ in
  let end1 := if beg <=? end_ then end_ else beg in
  Z.land (Z.shiftr myin beg1) (build_bit_ui beg1 end1).

Definition build_bit (beg end_ : Z) : Z :=
  let end1 := if 63 <? end_ then 63 else end_ in
  let myll := if end1 =? 63 then u64 (-1) else u64 (Z.shiftl 1 (end1 + 1) - 1) in
  Z.shiftr myll beg.

Definition extract_bits (myin beg end_ : Z) : Z :=
  let beg1 := if beg <=? end_ then beg else end_ in
  let end1 := if beg <=? end_ then end_ else beg in
  Z.land (Z.shiftr myin beg1) (build_bit beg1 end1).

Definition extract_bits_64 (myin beg end_ : Z) : Z := extract_bits myin beg end_.

(** The field of [x] at bit [pos], [width] bits wide: what every extraction
    routine is specified by. *)
Definition field (x pos width : Z) : Z := Z.land (Z.shiftr x pos) (Z.ones width).

Lemma field_fits x pos width : 0 <= width -> fits width (field x pos width).
Proof. intros. unfold field. rewrite fits_land_ones by done. by apply wrapN_fits. Qed.

Lemma wrapN_ones w k : 0 <= k <= w -> wrapN w (Z.shiftl 1 k - 1) = Z.ones k.
Proof.
  intros Hk. rewrite Z.shiftl_1_l, <- Z.sub_1_r || rewrite Z.shiftl_1_l.
  rewrite Z.ones_equiv, <- Z.sub_1_r. apply wrapN_small. unfold fits.
  pose proof (Z.pow_pos_nonneg 2 k). pose proof (Z.pow_le_mono_r 2 k w). lia.
Qed.

Lemma wrapN_m1 w : 0 <= w -> wrapN w (-1) = Z.ones w.
Proof.
  intros. rewrite Z.ones_equiv, <- Z.sub_1_r. unfold wrapN.
  pose proof (Z.pow_pos_nonneg 2 w).
  symmetry. apply (Z.mod_unique _ _ (-1)); lia.
Qed.

Lemma shiftr_ones a b : 0 <= b <= a -> Z.shiftr (Z.ones a) b = Z.ones (a - b).
Proof. intros. bitwise. Qed.

Lemma build_bit_ones beg end_ : 0 <= beg <= end_ -> end_ <= 63 ->
  build_bit beg end_ = Z.ones (end_ - beg + 1).
Proof.
  intros. unfold build_bit. rewrite (proj2 (Z.ltb_ge _ _)) by lia.
  destruct (Z.eqb_spec end_ 63) as [->|].
  - rewrite wrapN_m1, shiftr_ones by lia. f_equal; lia.
  - rewrite wrapN_ones, shiftr_ones by lia. f_equal; lia.
Qed.

Lemma build_bit_ui_ones beg end_ : 0 <= beg <= end_ -> end_ <= 31 ->
  build_bit_ui beg end_ = Z.ones (end_ - beg + 1).
Proof.
  intros. unfold build_bit_ui. rewrite !(proj2 (Z.ltb_ge _ _)) by lia.
  destruct (Z.eqb_spec end_ 31) as [->|].
  - rewrite wrapN_m1, shiftr_ones by lia. f_equal; lia.
  - rewrite wrapN_ones, shiftr_ones by lia. f_equal; lia.
Qed.

Lemma extract_bits_field x beg end_ : 0 <= beg <= 63 -> 0 <= end_ <= 63 ->
  extract_bits x beg end_ = field x (Z.min beg end_) (Z.abs (end_ - beg) + 1).
Proof.
  intros. unfold extract_bits, field. destruct (Z.leb_spec beg end_);
    rewrite build_bit_ones by lia; repeat f_equal; lia.
Qed.

Lemma extract_bits_32_field x beg end_ : 0 <= beg <= 31 -> 0 <= end_ <= 31 ->
  extract_bits_32 x beg end_ = field x (Z.min beg end_) (Z.abs (end_ - beg) + 1).
Proof.
  intros. unfold extract_bits_32, field. destruct (Z.leb_spec beg end_);
    rewrite build_bit_ui_ones by lia; repeat f_equal; lia.
Qed.

Lemma testbit_field x pos width i : 0 <= pos -> 0 <= width -> 0 <= i ->
  Z.testbit (field x pos width) i = (i <? width) && Z.testbit x (i + pos).
Proof.
  intros. unfold field. autorewrite with pcm_bits. by rewrite andb_comm.
Qed.
#[export] Hint Rewrite testbit_field using lia : pcm_bits.

(** * [insertBits], [roundDownTo4K], [roundUpTo4K] of [utils.h] *)

Definition insertBits (input value position width : Z) : Z :=
  let mask := if width =? 64 then u64 (Z.lnot 0) else u64 (u64 (Z.shiftl 1 width) - 1) in
  let cleared := Z.land input (u64 (Z.lnot (u64 (Z.shiftl mask position)))) in
  Z.lor cleared (u64 (Z.shiftl (Z.land value mask) position)).

Definition roundDownTo4K (number : Z) : Z := Z.land number (u64 (Z.lnot 0xFFF)).

Definition roundUpTo4K (number : Z) : Z :=
  if number mod 4096 =? 0 then number
  else u64 ((number / 4096 + 1) * 4096).

Lemma insertBits_mask width : 0 <= width <= 64 ->
  (if width =? 64 then u64 (Z.lnot 0) else u64 (u64 (Z.shiftl 1 width) - 1)) = Z.ones width.
Proof.
  intros. destruct (Z.eqb_spec width 64) as [->|]; [done|].
  rewrite wrapN_sub_l, wrapN_ones by lia. done.
Qed.

Lemma insertBits_testbit input value position width i :
  0 <= position -> 0 <= width -> position + width <= 64 -> fits 64 input -> 0 <= i ->
  Z.testbit (insertBits input value position width) i =
  if (position <=? i) && (i <? position + width)
  then Z.testbit value (i - position) else Z.testbit input i.
Proof.
  intros Hp Hw Hpw Hin Hi. unfold insertBits. rewrite insertBits_mask by lia.
  autorewrite with pcm_bits.
  destruct (Z.leb_spec position i); simpl.
  - destruct (Z.ltb_spec i 64); simpl.
    + rewrite testbit_ones by lia.
      destruct (Z.ltb_spec (i - position) width), (Z.ltb_spec i (position + width)); try lia;
        by autorewrite with pcm_bits.
    + rewrite (testbit_fits 64 input) by (done || lia).
      destruct (Z.ltb_spec i (position + width)); [lia|done].
  - rewrite !(Z.testbit_neg_r (Z.ones _)) by lia.
    destruct (Z.ltb_spec i 64); [|lia]. by autorewrite with pcm_bits.
Qed.

Lemma insertBits_fields input value position width pos' width' :
  0 <= position -> 0 <= width -> position + width <= 64 -> fits 64 input ->
  0 <= pos' -> 0 <= width' ->
  field (insertBits input value position width) position width = wrapN width value /\
  (pos' + width' <= position \/ position + width <= pos' ->
   field (insertBits input value position width) pos' width' = field input pos' width').
Proof.
  intros ? ? ? ? ? ?. split; [|intros Hdis]; apply Z.bits_inj'; intros i Hi;
    autorewrite with pcm_bits; rewrite !insertBits_testbit by (done || lia).
  - destruct (Z.ltb_spec i width); simpl; [|done].
    rewrite (proj2 (Z.leb_le _ _)), (proj2 (Z.ltb_lt _ _)) by lia. simpl. f_equal; lia.
  - destruct (Z.ltb_spec i width'); simpl; [|done].
    destruct (Z.leb_spec position (i + pos')), (Z.ltb_spec (i + pos') (position + width));
      simpl; lia || done.
Qed.

(** [insertBits] writes exactly the addressed bits: the field reads back as
    the value truncated to its width, and every field that does not overlap it
    keeps its contents. *)
Theorem insertBits_spec input value position width pos' width' :
  0 <= position -> 0 <= width -> position + width <= 64 -> fits 64 input ->
  0 <= pos' -> 0 <= width' ->
  field (insertBits input value position width) position width = wrapN width value /\
  (pos' + width' <= position \/ position + width <= pos' ->
   field (insertBits input value position width) pos' width' = field input pos' width').
Proof. apply insertBits_fields. Qed.

Lemma insertBits_spec_witness :
  field (insertBits 0xFFFF 0x12 4 4) 4 4 = 2 /\
  field (insertBits 0xFFFF 0x12 4 4) 8 8 = 0xFF.
Proof.
  destruct (insertBits_spec 0xFFFF 0x12 4 4 8 8) as [H1 H2]; try (unfold fits; lia).
  split; [exact H1|]. apply H2. lia.
Defined.

(** The two page roundings give the enclosing multiples of 4096, as long as
    the upper one exists in 64 bits. *)
Theorem round4K_spec number :
  fits 64 number ->
  roundDownTo4K number = 4096 * (number / 4096) /\
  (number <= 2 ^ 64 - 4096 ->
   4096 * (roundUpTo4K number / 4096) = roundUpTo4K number /\
   number <= roundUpTo4K number < number + 4096).
Proof.
  intros Hn. split.
  - unfold roundDownTo4K. rewrite Z.mul_comm. change 4096 with (2 ^ 12).
    rewrite <- Z.shiftr_div_pow2, <- Z.shiftl_mul_pow2 by lia.
    apply Z.bits_inj'; intros i Hi. autorewrite with pcm_bits.
    change 0xFFF with (Z.ones 12). rewrite testbit_ones by lia.
    destruct (Z.leb_spec 12 i).
    + rewrite Z.shiftr_spec by lia. replace (i - 12 + 12) with i by lia.
      destruct (Z.ltb_spec i 12), (Z.ltb_spec i 64); simpl; try lia;
        rewrite ?andb_true_r, ?andb_false_r; try done.
      symmetry. by apply (testbit_fits 64).
    + rewrite (Z.testbit_neg_r _ (i - 12)) by lia.
      destruct (Z.ltb_spec i 12), (Z.ltb_spec i 64); simpl; try lia;
        by rewrite ?andb_false_r.
  - intros Hle. unfold roundUpTo4K. unfold fits in Hn.
    pose proof (Z.div_mod number 4096). pose proof (Z.mod_pos_bound number 4096).
    destruct (Z.eqb_spec (number mod 4096) 0); [lia|].
    rewrite wrapN_small by (unfold fits; lia).
    rewrite Z.div_mul by lia. lia.
Qed.

Lemma round4K_spec_witness : roundDownTo4K 8195 = 8192 /\ 8195 <= roundUpTo4K 8195 < 8195 + 4096.
Proof.
  destruct (round4K_spec 8195) as [H1 H2]; [unfold fits; lia|].
  split; [exact H1|]. apply H2. lia.
Defined.

(** * Bit-field registers

    A register structure of [types.h] is the list of its bit-field widths in
    declaration order, lowest bits first. Members are named by position in the
    list; [index_of] finds a name. *)

Definition layout : Type := list (string * Z).

Fixpoint index_of (l : layout) (name : string) (pos : Z) : option (Z * Z) :=
  match l with
  | [] => None
  | (n, w) :: l' => if decide (n = name) then Some (pos, w) else index_of l' name (pos + w)
  end.

Definition get_field (l : layout) (name : string) (value : Z) : Z :=
  match index_of l name 0 with Some (p, w) => field value p w | None => 0 end.

Definition set_field (l : layout) (name : string) (x value : Z) : Z :=
  match index_of l name 0 with Some (p, w) => insertBits value x p w | None => value end.

Definition total_width (l : layout) : Z := foldr (fun f a => f.2 + a) 0 l.

Definition well_formed (l : layout) : bool :=
  bool_decide (NoDup l.*1) && forallb (fun f => 0 <? f.2) l && (total_width l <=? 64).

Definition EventSelectRegister : layout :=
  [("event_select", 8); ("umask", 8); ("usr", 1); ("os", 1); ("edge", 1);
   ("pin_control", 1); ("apic_int", 1); ("any_thread", 1); ("enable", 1); ("invert", 1);
   ("cmask", 8); ("in_tx", 1); ("in_txcp", 1); ("reservedX", 30)]%string.

Definition FixedEventControlRegister : layout :=
  [("os0", 1); ("usr0", 1); ("any_thread0", 1); ("enable_pmi0", 1);
   ("os1", 1); ("usr1", 1); ("any_thread1", 1); ("enable_pmi1", 1);
   ("os2", 1); ("usr2", 1); ("any_thread2", 1); ("enable_pmi2", 1);
   ("os3", 1); ("usr3", 1); ("any_thread3", 1); ("enable_pmi3", 1);
   ("reserved1", 48)]%string.

Definition UncoreEventSelectRegister : layout :=
  [("event_select", 8); ("umask", 8); ("reserved1", 1); ("occ_ctr_rst", 1); ("edge", 1);
   ("reserved2", 1); ("enable_pmi", 1); ("reserved3", 1); ("enable", 1); ("invert", 1);
   ("cmask", 8); ("reservedx", 32)]%string.

(** The two views of [BecktonUncorePMUZDPCTLFVCRegister]. *)
Definition BecktonUncorePMUZDPCTLFVCRegister : layout :=
  [("fvid", 5); ("bcmd", 3); ("resp", 3); ("evnt0", 3); ("evnt1", 3); ("evnt2", 3);
   ("evnt3", 3); ("pbox_init_err", 1)]%string.

Definition BecktonUncorePMUZDPCTLFVCRegister_wsm : layout :=
  [("fvid", 6); ("bcmd", 3); ("resp", 3); ("evnt0", 3); ("evnt1", 3); ("evnt2", 3);
   ("evnt3", 3); ("pbox_init_err", 1)]%string.

Definition BecktonUncorePMUCNTCTLRegister : layout :=
  [("en", 1); ("pmi_en", 1); ("count_mode", 2); ("storage_mode", 2); ("wrap_mode", 1);
   ("flag_mode", 1); ("rsv1", 1); ("inc_sel", 5); ("rsv2", 5); ("set_flag_sel", 3)]%string.

Definition IIOPMUCNTCTLRegister : layout :=
  [("event_select", 8); ("umask", 8); ("reserved1", 1); ("reset", 1); ("edge_det", 1);
   ("ignored", 1); ("overflow_enable", 1); ("reserved2", 1); ("enable", 1); ("invert", 1);
   ("thresh", 12); ("ch_mask", 8); ("fc_mask", 3); ("reservedX", 17)]%string.

Definition ICX_IIOPMUCNTCTLRegister : layout :=
  [("event_select", 8); ("umask", 8); ("reserved1", 1); ("reset", 1); ("edge_det", 1);
   ("ignored", 1); ("overflow_enable", 1); ("reserved2", 1); ("enable", 1); ("invert", 1);
   ("thresh", 12); ("ch_mask", 12); ("fc_mask", 3); ("reservedX", 13)]%string.

Lemma well_formed_spec l :
  well_formed l = true <->
  NoDup l.*1 /\ Forall (fun f => 0 < f.2) l /\ total_width l <= 64.
Proof.
  unfold well_formed. rewrite !andb_true_iff, bool_decide_eq_true, forallb_forall, Z.leb_le.
  rewrite Forall_forall. split; [intros [[]]|intros (? & ? & ?)]; split_and!; try done.
  - intros f ?. apply Z.ltb_lt. apply H0. by apply list_elem_of_In.
  - intros f ?%list_elem_of_In. apply Z.ltb_lt; naive_solver.
Qed.

Lemma index_of_bounds l name pos p w :
  Forall (fun f => 0 < f.2) l -> index_of l name pos = Some (p, w) ->
  pos <= p /\ 0 < w /\ p + w <= pos + total_width l.
Proof.
  intros Hall. revert pos.
  induction Hall as [|[n v] l Hv Hall IH]; intros pos Hi; [done|]; simpl in *.
  assert (0 <= total_width l).
  { clear -Hall. induction Hall as [|[] ? ?]; simpl in *; lia. }
  case_decide; simplify_eq; [lia|]. apply IH in Hi; lia.
Qed.

(** Two different members do not overlap. *)
Lemma index_of_disjoint l n1 n2 pos p1 w1 p2 w2 :
  Forall (fun f => 0 < f.2) l -> n1 <> n2 ->
  index_of l n1 pos = Some (p1, w1) -> index_of l n2 pos = Some (p2, w2) ->
  p1 + w1 <= p2 \/ p2 + w2 <= p1.
Proof.
  intros Hall Hne. revert pos.
  induction Hall as [|[n v] l Hv Hall IH]; intros pos H1 H2; [done|]; simpl in *.
  destruct (decide (n = n1)), (decide (n = n2)); simplify_eq.
  - apply index_of_bounds in H2; [lia|done].
  - apply index_of_bounds in H1; [lia|done].
  - by eapply IH.
Qed.

Lemma set_field_members l name x value :
  well_formed l = true -> is_Some (index_of l name 0) -> fits 64 value ->
  (forall p w, index_of l name 0 = Some (p, w) ->
     get_field l name (set_field l name x value) = wrapN w x) /\
  (forall other, other <> name -> get_field l other (set_field l name x value) =
     get_field l other value).
Proof.
  intros (_ & Hpos & Htot)%well_formed_spec [[p w] Hi] Hv.
  pose proof (index_of_bounds l name 0 p w Hpos Hi).
  unfold get_field, set_field. rewrite Hi. split.
  - intros p' w' [= <- <-]. apply (insertBits_fields value x p w 0 0); lia || done.
  - intros other Hne. destruct (index_of l other 0) as [[p' w']|] eqn:Ho; [|done].
    pose proof (index_of_bounds l other 0 p' w' Hpos Ho).
    apply (insertBits_fields value x p w p' w'); try lia; try done.
    pose proof (index_of_disjoint l name other 0 p w p' w' Hpos (not_eq_sym Hne) Hi Ho). lia.
Qed.

(** Only the low 64 bits of the register count. *)
Lemma insertBits_low64 input value position width : 0 <= position ->
  insertBits input value position width = insertBits (u64 input) value position width.
Proof.
  intros Hp. unfold insertBits. f_equal. apply Z.bits_inj'. intros i Hi.
  rewrite !Z.land_spec, !testbit_wrapN by lia. by destruct (i <? 64), (Z.testbit input i).
Qed.

Lemma set_field_low64 l name x value : well_formed l = true ->
  is_Some (index_of l name 0) -> set_field l name x value = set_field l name x (u64 value).
Proof.
  intros (_ & Hpos & _)%well_formed_spec [[p w] Hi]. unfold set_field. rewrite Hi.
  apply insertBits_low64. pose proof (index_of_bounds l name 0 p w Hpos Hi). lia.
Qed.

Lemma set_field_get l name x value p w : well_formed l = true -> index_of l name 0 = Some (p, w) ->
  get_field l name (set_field l name x value) = wrapN w x.
Proof.
  intros Hl Hi. rewrite set_field_low64 by (rewrite ?Hi; eauto).
  refine (proj1 (set_field_members l name x (u64 value) Hl _ _) p w Hi); [eauto|by apply wrapN_fits].
Qed.

Lemma set_field_get_other l name other x value : well_formed l = true ->
  is_Some (index_of l name 0) -> other <> name ->
  get_field l other (set_field l name x value) = get_field l other (u64 value).
Proof.
  intros Hl Hi Ho. rewrite set_field_low64 by done.
  refine (proj2 (set_field_members l name x (u64 value) Hl Hi _) other Ho). by apply wrapN_fits.
Qed.

Lemma set_field_fits l name x value : well_formed l = true -> is_Some (index_of l name 0) ->
  fits 64 (set_field l name x value).
Proof.
  intros Hl [[p w] Hi]. pose proof (proj1 (well_formed_spec l) Hl) as (_ & Hpos & Htot).
  pose proof (index_of_bounds l name 0 p w Hpos Hi). rewrite set_field_low64 by (rewrite ?Hi; eauto).
  unfold set_field. rewrite Hi. apply fits_testbit; [lia| |].
  - unfold insertBits. apply Z.lor_nonneg. split; apply Z.land_nonneg || idtac; [left; by apply wrapN_fits|].
    by apply wrapN_fits.
  - intros i Hi'. rewrite insertBits_testbit by (lia || by apply wrapN_fits).
    destruct (Z.leb_spec p i), (Z.ltb_spec i (p + w)); simpl; try lia;
      apply (testbit_fits 64); lia || by apply wrapN_fits.
Qed.

(** In a register structure whose members fit 64 bits, assigning a member
    stores the value truncated to the member's width and leaves every other
    member as it was. *)
Theorem set_field_spec l name x value :
  well_formed l = true -> is_Some (index_of l name 0) -> fits 64 value ->
  (forall p w, index_of l name 0 = Some (p, w) ->
     get_field l name (set_field l name x value) = wrapN w x) /\
  (forall other, other <> name -> get_field l other (set_field l name x value) =
     get_field l other value).
Proof. apply set_field_members. Qed.

(** Every register structure of the sources satisfies the hypothesis. *)
Lemma register_layouts_well_formed :
  forallb well_formed
    [EventSelectRegister; FixedEventControlRegister; UncoreEventSelectRegister;
     BecktonUncorePMUZDPCTLFVCRegister; BecktonUncorePMUZDPCTLFVCRegister_wsm;
     BecktonUncorePMUCNTCTLRegister; IIOPMUCNTCTLRegister; ICX_IIOPMUCNTCTLRegister] = true.
Proof. vm_compute. reflexivity. Qed.

Lemma set_field_spec_witness :
  get_field EventSelectRegister "umask" (set_field EventSelectRegister "umask" 0x141 0) = 0x41 /\
  get_field EventSelectRegister "enable"
    (set_field EventSelectRegister "umask" 0x141 (2 ^ 22)) = 1.
Proof.
  destruct (set_field_spec EventSelectRegister "umask" 0x141 0) as [H1 _];
    [vm_compute; reflexivity|vm_compute; eauto|unfold fits; lia|].
  destruct (set_field_spec EventSelectRegister "umask" 0x141 (2 ^ 22)) as [_ H2];
    [vm_compute; reflexivity|vm_compute; eauto|unfold fits; lia|].
  split; [apply (H1 8 8); vm_compute; reflexivity|].
  rewrite H2; [vm_compute; reflexivity|discriminate].
Defined.
