(* ===== verification/StrUtils.v ===== *)
(** The string functions of [src/src/utils.cpp] and [src/src/utils.h] that read what users
    and files write - numbers, bit ranges, lists of cores, event tokens - and that lay out
    the rows of the tools' tables. *)

From S2P Require Import Prelude Bits CxxString.
Local Open Scope char_scope.
Local Open Scope Z_scope.
Local Open Scope list_scope.

(** * Reading a number from a stream *)

Definition is_x (c : ascii) : bool := Ascii.eqb c "x" || Ascii.eqb c "X".

(** The base that the front of a number selects ([std::setbase(0)] detects it), and the
    number without its [0x]. *)
Definition detect_base (base : Z) (s : str) : Z * str :=
  match s with
  | z :: s' =>
      if Ascii.eqb z "0" then
        match s' with
        | x :: s'' =>
            if is_x x && ((base =? 0) || (base =? 16)) then (16, s'')
            else (if base =? 0 then 8 else base, s)
        | [] => (if base =? 0 then 8 else base, s)
        end
      else (if base =? 0 then 10 else base, s)
  | [] => (if base =? 0 then 10 else base, s)
  end.

(** [stream >> value] for a [uint64] on a good stream that does not skip white space: the
    value stored and whether the extraction succeeded. Without a digit the value is 0,
    beyond the range it is the largest one. *)
Definition num_get (base : Z) (s : str) : Z * bool :=
  let '(neg, s) := skip_sign s in
  let '(base, s) := detect_base base s in
  match s with
  | c :: _ =>
      if is_digit_of base c then
        let v := read_digits base s 0 in
        if v <? 2 ^ 64 then (if neg : bool then u64 (- v) else v, true) else (2 ^ 64 - 1, false)
      else (0, false)
  | [] => (0, false)
  end.

(** [atoi]: [strtol], cut to 32 bits. *)
Definition atoi (s : str) : Z :=
  match strto 10 s with
  | Some (neg, v) => i32 (Z.max (- 2 ^ 63) (Z.min (2 ^ 63 - 1) (if neg : bool then - v else v)))
  | None => 0
  end.

(** * [read_number] *)

(** One of space, tab, line feed, carriage return. *)
Definition is_blank (c : ascii) : bool := existsb (Ascii.eqb c) [" "; HTAB; LF; CR].

Fixpoint drop_blanks (s : str) : str :=
  match s with c :: s' => if is_blank c then drop_blanks s' else s | [] => [] end.

Definition trim_blanks (s : str) : str := rev (drop_blanks (rev (drop_blanks s))).

Definition is_hex_digit (c : ascii) : bool := in_range "0" "9" c || in_range "a" "f" c || in_range "A" "F" c.

(** [stream >> result] and the two checks after it; the input has no white space, so
    nothing remains after the digits. *)
Definition read_stream (base : Z) (input : str) : res Z :=
  let '(result, ok) := num_get base input in
  if ok : bool then Ok result else Throw InvalidArgument.

Definition read_number (s : str) : res Z :=
  match trim_blanks s with
  | [] => Throw InvalidArgument
  | (z :: x :: digits) as input =>
      if Ascii.eqb z "0" && is_x x then
        match digits with
        | [] => Throw InvalidArgument
        | _ => if forallb is_hex_digit digits then read_stream 16 input else Throw InvalidArgument
        end
      else if forallb isdigit input then read_stream 10 input else Throw InvalidArgument
  | input => if forallb isdigit input then read_stream 10 input else Throw InvalidArgument
  end.

(** * [match]: a named number in an event description *)

(** [s_expect(sname)]: reads as many characters as [sname] has, and fails on others. *)
Definition expect (sname s : str) : option str :=
  if starts_with sname s then Some (drop (length sname) s) else None.

(** [pcm_sscanf(subtoken) >> s_expect(sname) >> base >> *result]: whether it succeeded, and
    the result, which is untouched when the name does not match. A stream at its end is not
    good, so nothing is extracted from it. *)
Definition sscanf_number (base : Z) (subtoken sname : str) (result : Z) : bool * Z :=
  match expect sname subtoken with
  | Some ((_ :: _) as rest) => let '(v, ok) := num_get base rest in (ok, v)
  | _ => (false, result)
  end.

(** [match] *)
Definition match_token (subtoken sname : str) (result : Z) : bool * Z :=
  let '(ok, result) := sscanf_number 16 subtoken (sname ++ lit "0x") result in
  if ok : bool then (true, result) else sscanf_number 10 subtoken sname result.

(** * Splitting and joining *)

Fixpoint pieces (delim : ascii) (s : str) : list str :=
  match s with
  | [] => [[]]
  | c :: s' =>
      if Ascii.eqb c delim then [] :: pieces delim s'
      else match pieces delim s' with piece :: l => (c :: piece) :: l | [] => [[c]] end
  end.

(** [split]: what [std::getline(stream, token, delim)] delivers, which is nothing after a
    final delimiter. *)
Definition split (s : str) (delim : ascii) : list str :=
  let l := pieces delim s in
  if bool_decide (last l = Some []) then removelast l else l.

Definition build_csv_row (chunks : list str) (delimiter : str) : str :=
  foldl (fun left right => match left with [] => right | _ => left ++ delimiter ++ right end) [] chunks.

Definition dos2unix (s : str) : str :=
  match rev s with c :: l => if Ascii.eqb c CR then rev l else s | [] => s end.

Definition isRegisterEvent (pmu : str) : bool :=
  existsb (fun n => bool_decide (pmu = lit n))
    ["mmio"; "pcicfg"; "pmt"; "tpmi"; "package_msr"; "thread_msr"]%string.

(** Whether the first letter is one that spreadsheets take for a formula. *)
Definition check_for_injections (s : str) : bool := existsb (Ascii.eqb (front s)) ["="; "+"; "-"; "@"].

(** * Bit ranges *)

(** [parseBitsParameter] up to its assertions: there must be one or two numbers, between 0 and 63,
    else the program stops where the model goes on with what was read. *)
Definition parseBitsParameter (param : str) : res (Z * Z) :=
  bits ← match split param ":" with
         | [a] => x ← read_number a; Ok (i64 x, i64 x)
         | [a; b] => x ← read_number a; y ← read_number b; Ok (i64 x, i64 y)
         | _ => Ok (-1, -1)
         end;
  let '(first, second) := bits in
  Ok (if second <? first then (second, first) else (first, second)).

(** [readOldValueHelper] of the tools that write a register; [readValue] is what the read
    of the old value delivered. *)
Definition readOldValueHelper (bits : Z * Z) (value : Z) (write : bool) (readValue : option Z) : bool * Z :=
  if (0 <=? bits.1) && write then
    match readValue with
    | Some old_value => (true, insertBits old_value value bits.1 (u64 (bits.2 - bits.1 + 1)))
    | None => (false, value)
    end
  else (true, value).

(** * Lists of integers *)

(** The variables of [extract_integer_list]; [second]: whether [pnow] points to [snum2]. *)
Record scan := Scan { corelist : list Z; snum1 : str; snum2 : str; second : bool }.

Definition scan_init : scan := Scan [] [] [] false.

(** [for (int ix=num1; ix <= num2; ix++) corelist.push_back(ix)]; when [num2] is the
    largest integer the loop ends with an exhausted memory. *)
Definition push_range (l : list Z) (num1 num2 : Z) : res (list Z) :=
  if num2 =? 2 ^ 31 - 1 then Throw StdException else Ok (l ++ seqZ num1 (num2 - num1 + 1)).

(** What a comma does: the item read so far is added. *)
Definition finish_item (st : scan) : res scan :=
  l ← match snum1 st, snum2 st with
      | [], _ => Ok (corelist st)
      | _, [] => Ok (corelist st ++ [atoi (snum1 st)])
      | _, _ =>
          let num1 := atoi (snum1 st) in
          let num2 := atoi (snum2 st) in
          let '(num1, num2) := if num2 <? num1 then (num2, num1) else (num1, num2) in
          push_range (corelist st) (Z.max num1 0) num2
      end;
  Ok (Scan l [] [] false).

Definition scan_char (st : scan) (nchar : ascii) : res scan :=
  if Ascii.eqb nchar "-" && negb (second st) && negb (bool_decide (snum1 st = []))
  then Ok (Scan (corelist st) (snum1 st) (snum2 st) true)
  else if Ascii.eqb nchar "," then finish_item st
  else if negb (Ascii.eqb nchar " ") then
    Ok (if second st then Scan (corelist st) (snum1 st) (snum2 st ++ [nchar]) true
        else Scan (corelist st) (snum1 st ++ [nchar]) (snum2 st) false)
  else Ok st.

Fixpoint scan_chars (st : scan) (s : str) : res scan :=
  match s with [] => Ok st | c :: s' => st ← scan_char st c; scan_chars st s' end.

(** The loop ends after a comma, one that is supplied at the end of the text if needed. *)
Definition extract_integer_list (optarg : str) : res (list Z) :=
  st ← scan_chars scan_init optarg;
  st ← match last optarg with
       | None => Ok st
       | Some c => if Ascii.eqb c "," then Ok st else finish_item st
       end;
  Ok (corelist st).

(** * Command-line arguments *)

Definition QUOTE : ascii := "034".

Fixpoint drop_quotes (s : str) : str :=
  match s with c :: s' => if Ascii.eqb c QUOTE then drop_quotes s' else s | [] => [] end.

(** The quotes around a value; a value of quotes only is kept. *)
Definition strip_quotes (value : str) : str :=
  match drop_quotes (rev value) with
  | [] => value
  | l => drop_quotes (rev l)
  end.

Fixpoint extract_argument_value (arg : str) (arg_names : list str) : option str :=
  match arg_names with
  | [] => None
  | name :: l =>
      if starts_with (name ++ ["="]) arg then Some (strip_quotes (drop (length name + 1) arg))
      else extract_argument_value arg l
  end.

Definition check_argument_equals (arg : str) (arg_names : list str) : bool :=
  existsb (fun name => bool_decide (arg = name)) arg_names.

(** * Table cells *)

(** [snprintf("%4d", n)] *)
Definition print_4d (n : Z) : str :=
  let digits := if n <? 0 then "-" :: to_string (- n) else to_string n in
  replicate (4 - length digits) " " ++ digits.

(** [unit_format] of an unsigned number; [int32(...)] cuts to 32 bits. *)
Definition unit_format (n : Z) : str :=
  if n <=? 9999 then print_4d (i32 n) ++ lit "  "
  else if n <=? 9999999 then print_4d (i32 (n / 1000)) ++ lit " K"
  else if n <=? 9999999999 then print_4d (i32 (n / 1000000)) ++ lit " M"
  else if n <=? 9999999999999 then print_4d (i32 (n / 1000000000)) ++ lit " G"
  else print_4d (i32 (n / 1000000000000)) ++ lit " T".

(** [a_data]: a number right-padded to the width of its column. *)
Definition a_data (init : str) (width value : Z) : res str :=
  let str_d := unit_format value in
  if width <? size str_d then Throw LengthError
  else Ok (init ++ str_d ++ replicate (Z.to_nat (width - size str_d)) " " ++ [front init]).

(** * Numbers *)

(** Digits in base 16, as [std::hex] prints them. *)
Definition hex_char (d : Z) : ascii := if d <? 10 then byte (48 + d) else byte (87 + d).

Fixpoint hexadecimal (fuel : nat) (n : Z) : str :=
  match fuel with
  | O => []
  | S fuel' => if n <? 16 then [hex_char n] else hexadecimal fuel' (n / 16) ++ [hex_char (n mod 16)]
  end.

Definition to_hex (n : Z) : str := hexadecimal 16 n.

Lemma hex_digit_spec d : 0 <= d < 16 ->
  digit_value (hex_char d) = Some d /\ is_hex_digit (hex_char d) = true /\ is_digit_of 16 (hex_char d) = true.
Proof.
  intros Hd. assert (Hin : In d (map Z.of_nat (seq 0 16))).
  { apply in_map_iff. exists (Z.to_nat d). split; [lia|]. apply in_seq. lia. }
  repeat (destruct Hin as [<-|Hin]; [by vm_compute|]). destruct Hin.
Qed.

Lemma is_hex_digit_of c : is_hex_digit c = is_digit_of 16 c.
Proof.
  pose proof (forall_chars (fun c => Bool.eqb (is_hex_digit c) (is_digit_of 16 c))
    ltac:(vm_compute; reflexivity) c) as H. by apply Bool.eqb_prop.
Qed.

Lemma hexadecimal_digits fuel n : 0 <= n -> forallb (is_digit_of 16) (hexadecimal fuel n) = true.
Proof.
  revert n. induction fuel as [|f IH]; intros n Hn; cbn [hexadecimal]; [done|].
  destruct (Z.ltb_spec n 16).
  - simpl. by rewrite (proj2 (proj2 (hex_digit_spec n ltac:(lia)))).
  - rewrite forallb_app, IH by (apply Z.div_pos; lia). simpl.
    by rewrite (proj2 (proj2 (hex_digit_spec (n mod 16) ltac:(apply Z.mod_pos_bound; lia)))).
Qed.

Lemma read_hexadecimal fuel n : 0 <= n < 16 ^ Z.of_nat fuel -> read_digits 16 (hexadecimal fuel n) 0 = n.
Proof.
  revert n. induction fuel as [|f IH]; intros n Hn; [simpl in *; lia|].
  rewrite Nat2Z.inj_succ, Z.pow_succ_r in Hn by lia. cbn [hexadecimal]. destruct (Z.ltb_spec n 16).
  - cbn [read_digits]. rewrite (proj1 (hex_digit_spec n ltac:(lia))).
    destruct (Z.ltb_spec n 16); lia.
  - pose proof (Z.mod_pos_bound n 16 ltac:(lia)) as Hm.
    rewrite read_digits_app by (try lia; apply hexadecimal_digits, Z.div_pos; lia).
    rewrite IH by (split; [apply Z.div_pos; lia|apply Z.div_lt_upper_bound; lia]).
    cbn [read_digits]. rewrite (proj1 (hex_digit_spec _ Hm)).
    destruct (Z.ltb_spec (n mod 16) 16); [|lia]. pose proof (Z.div_mod n 16). lia.
Qed.

Lemma hexadecimal_nonempty fuel n : (0 < fuel)%nat -> hexadecimal fuel n <> [].
Proof.
  intros Hf. destruct fuel as [|f]; [lia|]. cbn [hexadecimal]. destruct (n <? 16); [done|].
  by destruct (hexadecimal f (n / 16)).
Qed.

Lemma to_string_digits n : fits 64 n -> forallb isdigit (to_string n) = true.
Proof. intros Hn. apply decimal_digits. apply Hn. Qed.

Lemma to_string_nonempty n : fits 64 n -> to_string n <> [].
Proof.
  intros Hn. destruct (decimal_front 20 n ltac:(lia) (proj1 Hn)) as (c & s & E & _).
  unfold to_string. by rewrite E.
Qed.

Lemma read_to_string n : fits 64 n -> read_digits 10 (to_string n) 0 = n.
Proof. unfold fits. intros. apply read_decimal. lia. Qed.

Lemma read_to_hex n : fits 64 n -> read_digits 16 (to_hex n) 0 = n.
Proof. unfold fits. intros. apply read_hexadecimal. lia. Qed.

(** A digit of base 16 is neither a sign nor the letter of the prefix. *)
Lemma digit_of_16 c : is_digit_of 16 c = true ->
  Ascii.eqb c "-" = false /\ Ascii.eqb c "+" = false /\ is_x c = false /\ is_blank c = false.
Proof.
  intros H. pose proof (forall_chars (fun c => negb (is_digit_of 16 c) ||
    (negb (Ascii.eqb c "-") && negb (Ascii.eqb c "+") && negb (is_x c) && negb (is_blank c)))
    ltac:(vm_compute; reflexivity) c) as Hc. cbv beta in Hc. rewrite H in Hc.
  destruct (Ascii.eqb c "-"), (Ascii.eqb c "+"), (is_x c), (is_blank c); done.
Qed.

Lemma isdigit_of_16 c : isdigit c = true -> is_digit_of 16 c = true.
Proof. intros H. unfold is_digit_of. destruct (digit_chars c H) as [-> ?]. lia. Qed.

(** What the stream makes of the digits of base 10. *)
Lemma num_get_decimal s : s <> [] -> forallb isdigit s = true ->
  num_get 10 s = let v := read_digits 10 s 0 in if v <? 2 ^ 64 then (v, true) else (2 ^ 64 - 1, false).
Proof.
  intros Hs Hd. destruct s as [|c s]; [done|]. pose proof Hd as Hd'.
  simpl in Hd. apply andb_true_iff in Hd as [Hc _].
  destruct (digit_of_16 c (isdigit_of_16 c Hc)) as (H1 & H2 & _ & _). unfold num_get.
  cbn [skip_sign]. rewrite H1, H2. replace (detect_base 10 (c :: s)) with (10, c :: s).
  - apply digits_are_digits in Hd'. cbn [forallb] in Hd'. apply andb_true_iff in Hd' as [-> _]. done.
  - cbn [detect_base]. destruct (Ascii.eqb c "0"); [|done]. destruct s as [|d s]; [done|].
    by rewrite andb_false_r.
Qed.

(** What it makes of [0x] and digits of base 16. *)
Lemma num_get_hexadecimal z x s : Ascii.eqb z "0" = true -> is_x x = true ->
  s <> [] -> forallb (is_digit_of 16) s = true ->
  num_get 16 (z :: x :: s) =
    let v := read_digits 16 s 0 in if v <? 2 ^ 64 then (v, true) else (2 ^ 64 - 1, false).
Proof.
  intros Hz Hx Hs Hd. apply Ascii.eqb_eq in Hz as ->. unfold num_get.
  change (skip_sign _) with (false, "0" :: x :: s). cbv iota beta.
  change (detect_base _ _) with
    (if is_x x && ((16 =? 0) || (16 =? 16)) then (16, s) else (16, "0" :: x :: s)).
  rewrite Hx. destruct s as [|c s]; [done|]. cbn [forallb] in Hd. apply andb_true_iff in Hd as [Hc _].
  simpl andb. cbv iota beta. by rewrite Hc.
Qed.

(** A numeral of base 10, or of base 16 after [0x], with its value. *)
Inductive numeral : str -> Z -> Prop :=
  | numeral_decimal s : s <> [] -> forallb isdigit s = true -> numeral s (read_digits 10 s 0)
  | numeral_hexadecimal x s : is_x x = true -> s <> [] -> forallb is_hex_digit s = true ->
      numeral ("0" :: x :: s) (read_digits 16 s 0).

Definition blanks (s : str) : bool := forallb is_blank s.

Lemma forallb_ext_in {A} (f g : A -> bool) l : (forall x, f x = g x) -> forallb f l = forallb g l.
Proof. intros H. induction l; simpl; [done|]. by rewrite H, IHl. Qed.

Lemma read_number_numeral s v : numeral (trim_blanks s) v ->
  read_number s = if v <? 2 ^ 64 then Ok v else Throw InvalidArgument.
Proof.
  intros Hn. unfold read_number. destruct Hn as [s' Hs Hd|x s' Hx Hs Hd].
  - assert (Hr : read_stream 10 s' = if read_digits 10 s' 0 <? 2 ^ 64 then Ok (read_digits 10 s' 0) else Throw InvalidArgument).
    { unfold read_stream. rewrite num_get_decimal by done. cbv zeta. by destruct (_ <? _). }
    destruct s' as [|z [|x digits]]; [done| |].
    + by rewrite Hd.
    + assert (is_x x = false) as ->.
      { simpl in Hd. rewrite !andb_true_iff in Hd. apply digit_of_16, isdigit_of_16, Hd. }
      by rewrite andb_false_r, Hd.
  - change (Ascii.eqb "0" "0") with true. rewrite Hx. cbn [andb]. cbv iota.
    destruct s' as [|c s']; [done|]. rewrite Hd.
    unfold read_stream. rewrite num_get_hexadecimal; [|done..|].
    + cbv zeta. by destruct (_ <? _).
    + by rewrite <- (forallb_ext_in _ _ _ is_hex_digit_of).
Qed.

Lemma drop_blanks_split s : exists b, s = b ++ drop_blanks s /\ blanks b = true.
Proof.
  induction s as [|c s (b & E & Hb)]; simpl; [by exists []|]. destruct (is_blank c) eqn:Ec.
  - exists (c :: b). simpl. rewrite Ec. split; [by f_equal|done].
  - by exists [].
Qed.

Lemma trim_blanks_split s : exists b1 b2, s = b1 ++ trim_blanks s ++ b2 /\ blanks b1 = true /\ blanks b2 = true.
Proof.
  destruct (drop_blanks_split s) as (b1 & E1 & H1).
  destruct (drop_blanks_split (rev (drop_blanks s))) as (b2 & E2 & H2).
  exists b1, (rev b2). split_and!; [|done|].
  - unfold trim_blanks. rewrite <- rev_app_distr, <- E2, rev_involutive. done.
  - unfold blanks in *. rewrite forallb_forall in *. intros c Hc. apply H2. by apply in_rev.
Qed.

(** A text whose ends are no blanks. *)
Definition solid (s : str) : Prop :=
  match s with c :: _ => is_blank c = false | [] => False end /\
  match rev s with c :: _ => is_blank c = false | [] => False end.

Lemma drop_blanks_app b s : blanks b = true -> (match s with c :: _ => is_blank c = false | [] => False end) ->
  drop_blanks (b ++ s) = s.
Proof.
  intros Hb Hs. induction b as [|c b IH]; simpl in *.
  - destruct s as [|c s]; [done|]. simpl. by rewrite Hs.
  - apply andb_true_iff in Hb as [-> Hb]. by apply IH.
Qed.

Lemma trim_blanks_solid b1 s b2 : blanks b1 = true -> blanks b2 = true -> solid s ->
  trim_blanks (b1 ++ s ++ b2) = s.
Proof.
  intros H1 H2 [Hf Hl]. unfold trim_blanks.
  rewrite drop_blanks_app; [|done|by destruct s].
  rewrite rev_app_distr, drop_blanks_app; [apply rev_involutive| |done].
  unfold blanks in *. rewrite forallb_forall in *. intros c Hc. apply H2. by apply in_rev.
Qed.

Lemma digits_solid s : s <> [] -> forallb (is_digit_of 16) s = true -> solid s.
Proof.
  intros Hs Hd. assert (Hc : forall c, In c s -> is_blank c = false).
  { rewrite forallb_forall in Hd. intros c Hc. apply digit_of_16. by apply Hd. }
  split.
  - destruct s as [|c s]; [done|]. apply Hc. by left.
  - destruct (rev s) as [|c l] eqn:E; [by apply (f_equal (@rev _)) in E; rewrite rev_involutive in E|].
    apply Hc, in_rev. rewrite E. by left.
Qed.

Lemma numeral_solid s v : numeral s v -> solid s.
Proof.
  intros [s' Hs Hd|x s' Hx Hs Hd].
  - apply digits_solid; [done|]. rewrite forallb_forall in *. intros c Hc. by apply isdigit_of_16, Hd.
  - rewrite (forallb_ext_in _ _ _ is_hex_digit_of) in Hd.
    destruct (digits_solid s' Hs Hd) as [_ Hl]. split; [done|]. simpl.
    destruct (rev s') as [|c l]; [done|]. done.
Qed.

Lemma read_digits_nonneg base s acc : 0 <= base -> 0 <= acc -> 0 <= read_digits base s acc.
Proof.
  intros Hb. revert acc. induction s as [|c s IH]; intros acc Ha; simpl; [done|].
  unfold digit_value, isdigit, in_range. pose proof (code_range c).
  repeat match goal with |- context [if ?b then _ else _] => destruct b eqn:? end;
    simplify_eq; try done; rewrite ?andb_true_iff in *; apply IH;
    change (code "0") with 48 in *; change (code "A") with 65 in *; change (code "a") with 97 in *; nia.
Qed.

Lemma numeral_nonneg s v : numeral s v -> 0 <= v.
Proof. intros []; by apply read_digits_nonneg. Qed.

(** Without a numeral between the blanks there is no number. *)
Lemma read_number_no_numeral s : (exists v, numeral (trim_blanks s) v) \/ read_number s = Throw InvalidArgument.
Proof.
  unfold read_number. destruct (trim_blanks s) as [|z [|x digits]]; [by right| |].
  - destruct (forallb isdigit [z]) eqn:Hd; [left|by right]. eexists. by apply numeral_decimal.
  - destruct (Ascii.eqb z "0" && is_x x) eqn:Hx.
    + apply andb_true_iff in Hx as [Hz Hx]. apply Ascii.eqb_eq in Hz as ->.
      destruct digits as [|d digits]; [by right|].
      destruct (forallb is_hex_digit (d :: digits)) eqn:Hd; [left|by right].
      eexists. by apply numeral_hexadecimal.
    + destruct (forallb isdigit (z :: x :: digits)) eqn:Hd; [left|by right].
      eexists. by apply numeral_decimal.
Qed.

Lemma read_number_body b1 body b2 v : blanks b1 = true -> blanks b2 = true -> numeral body v -> fits 64 v ->
  read_number (b1 ++ body ++ b2) = Ok v.
Proof.
  intros H1 H2 Hn Hv. rewrite (read_number_numeral _ v).
  - by destruct (Z.ltb_spec v (2 ^ 64)); [|unfold fits in Hv; lia].
  - rewrite trim_blanks_solid; [done..|]. by eapply numeral_solid.
Qed.

(** [read_number] accepts exactly the numerals - decimal digits, or [0x] and digits of
    base 16 - whose value fits 64 bits, between any blanks, and delivers their value. Every
    other text is answered with [std::invalid_argument]. *)
Theorem read_number_accepts s v :
  (read_number s = Ok v <->
   fits 64 v /\ exists b1 b2 body, s = b1 ++ body ++ b2 /\ blanks b1 = true /\ blanks b2 = true /\ numeral body v) /\
  (forall e, read_number s = Throw e -> e = InvalidArgument).
Proof.
  destruct (read_number_no_numeral s) as [[v' Hn]|E].
  - pose proof (read_number_numeral s v' Hn) as E. pose proof (numeral_nonneg _ _ Hn) as Hpos. split.
    + split.
      * rewrite E. destruct (Z.ltb_spec v' (2 ^ 64)); [|done]. intros [= ->]. split; [done|].
        destruct (trim_blanks_split s) as (b1 & b2 & ? & ? & ?). by exists b1, b2, (trim_blanks s).
      * intros (Hv & b1 & b2 & body & -> & H1 & H2 & Hb). by apply read_number_body.
    + rewrite E. by destruct (v' <? 2 ^ 64); intros ? [= <-].
  - split; [split|].
    + by rewrite E.
    + intros (Hv & b1 & b2 & body & -> & H1 & H2 & Hb). by apply read_number_body.
    + rewrite E. by intros ? [= <-].
Qed.

Lemma read_number_accepts_witness :
  read_number (lit " 0x1F	") = Ok 31 /\ read_number (lit "-1") = Throw InvalidArgument.
Proof.
  split; [|reflexivity]. apply (proj1 (read_number_accepts _ _)). split; [unfold fits; lia|].
  exists (lit " "), (lit "	"), (lit "0x1F"). repeat split; try reflexivity.
  apply (numeral_hexadecimal "x" (lit "1F")); [reflexivity|discriminate|reflexivity].
Defined.

Lemma numeral_to_string n : fits 64 n -> numeral (to_string n) n.
Proof.
  intros Hn. rewrite <- (read_to_string n Hn) at 2.
  by apply numeral_decimal; [apply to_string_nonempty|apply to_string_digits].
Qed.

Lemma read_number_to_string n : fits 64 n -> read_number (to_string n) = Ok n.
Proof.
  intros Hn. rewrite <- (app_nil_r (to_string n)). apply (read_number_body []); try done.
  by apply numeral_to_string.
Qed.

(** * Named numbers *)

Lemma expect_app name s : expect name (name ++ s) = Some s.
Proof. unfold expect. by rewrite starts_with_app, drop_app_length. Qed.

Lemma sscanf_number_app base name s r : s <> [] ->
  sscanf_number base (name ++ s) name r = let '(v, ok) := num_get base s in (ok, v).
Proof. intros Hs. unfold sscanf_number. rewrite expect_app. by destruct s. Qed.

Lemma starts_with_prefix name p s : starts_with (name ++ p) (name ++ s) = starts_with p s.
Proof. induction name as [|c name IH]; simpl; [done|]. by rewrite Ascii.eqb_refl. Qed.

(** The decimal digits of a number do not start with [0x]. *)
Lemma no_prefix_0x s : forallb isdigit s = true -> starts_with (lit "0x") s = false.
Proof.
  intros H. destruct s as [|c [|d s]]; [done| |]; change (lit "0x") with ["0"; "x"].
  - cbn [starts_with]. apply andb_false_r.
  - cbn [starts_with]. simpl in H. rewrite !andb_true_iff in H. destruct H as (_ & Hd & _).
    destruct (digit_of_16 d (isdigit_of_16 d Hd)) as (_ & _ & Hx & _). unfold is_x in Hx.
    apply orb_false_iff in Hx as [Hx _]. rewrite Ascii.eqb_sym in Hx. by rewrite Hx, andb_false_r.
Qed.

(** A token of an event description that is a name and a number, in decimal or as [0x] and
    hexadecimal digits, is read as this number, whatever the result held before; and a token
    of another name leaves the result alone. *)
Theorem match_reads_number name n result : fits 64 n ->
  match_token (name ++ to_string n) name result = (true, n) /\
  match_token (name ++ lit "0x" ++ to_hex n) name result = (true, n) /\
  (forall subtoken, starts_with name subtoken = false -> match_token subtoken name result = (false, result)).
Proof.
  intros Hn. pose proof (to_string_digits n Hn) as Hd. split_and!.
  - unfold match_token, sscanf_number at 1. unfold expect.
    rewrite starts_with_prefix, no_prefix_0x by done. cbv iota beta.
    rewrite sscanf_number_app, num_get_decimal by (done || by apply to_string_nonempty).
    rewrite read_to_string by done. cbv zeta. by destruct (Z.ltb_spec n (2 ^ 64)); [|unfold fits in Hn; lia].
  - unfold match_token. rewrite (assoc_L (++)), sscanf_number_app by (by apply hexadecimal_nonempty; lia).
    pose proof (hexadecimal_digits 16 n (proj1 Hn)) as Hh. fold (to_hex n) in Hh.
    replace (num_get 16 (to_hex n)) with (n, true); [done|]. unfold num_get.
    destruct (to_hex n) as [|c s] eqn:E; [by apply hexadecimal_nonempty in E; [|lia]|].
    pose proof Hh as Hc. cbn [forallb] in Hc. apply andb_true_iff in Hc as [Hc Hs].
    destruct (digit_of_16 c Hc) as (H1 & H2 & _ & _). cbn [skip_sign]. rewrite H1, H2.
    replace (detect_base 16 (c :: s)) with (16, c :: s).
    + rewrite Hc, <- E, read_to_hex by done. by destruct (Z.ltb_spec n (2 ^ 64)); [|unfold fits in Hn; lia].
    + cbn [detect_base]. destruct (Ascii.eqb c "0"); [|done]. destruct s as [|d s]; [done|].
      cbn [forallb] in Hs. apply andb_true_iff in Hs as [Hd2 _].
      destruct (digit_of_16 d Hd2) as (_ & _ & Hx & _). by rewrite Hx.
  - intros subtoken Hsub. unfold match_token, sscanf_number, expect. rewrite Hsub.
    destruct (starts_with (name ++ lit "0x") subtoken) eqn:Hx; [|done]. exfalso.
    clear - Hx Hsub. revert subtoken Hx Hsub. induction name as [|c name IH]; intros s; [by destruct s|].
    destruct s as [|d s]; [done|]. simpl. destruct (Ascii.eqb c d); [|done]. apply IH.
Qed.

Lemma match_reads_number_witness :
  match_token (lit "umask=0x1f") (lit "umask=") 7 = (true, 31) /\
  match_token (lit "umask=31") (lit "umask=") 7 = (true, 31) /\
  match_token (lit "unit=31") (lit "umask=") 7 = (false, 7).
Proof.
  destruct (match_reads_number (lit "umask=") 31 7) as (H1 & H2 & H3); [unfold fits; lia|].
  split_and!; [exact H2|exact H1|]. by apply H3.
Defined.

(** A hexadecimal number beyond 64 bits is accepted as the number 0: the second attempt
    reads the [0] of its [0x]. *)
Lemma match_overflow_is_zero :
  match_token (lit "umask=0x10000000000000000") (lit "umask=") 7 = (true, 0) /\
  match_token (lit "umask=18446744073709551616") (lit "umask=") 7 = (false, 2 ^ 64 - 1).
Proof. split; vm_compute; reflexivity. Qed.

(** * Splitting and joining *)

Lemma pieces_app d a s : lacks d a = true -> pieces d (a ++ d :: s) = a :: pieces d s.
Proof.
  induction a as [|c a IH]; simpl; [by rewrite Ascii.eqb_refl|].
  rewrite lacks_cons, andb_true_iff, negb_true_iff, Ascii.eqb_sym. intros [-> Ha]. by rewrite IH.
Qed.

Lemma pieces_single d a : lacks d a = true -> pieces d a = [a].
Proof.
  induction a as [|c a IH]; simpl; [done|].
  rewrite lacks_cons, andb_true_iff, negb_true_iff, Ascii.eqb_sym. intros [-> Ha]. by rewrite IH.
Qed.

(** The chunks with [d] between them. *)
Fixpoint join (d : ascii) (chunks : list str) : str :=
  match chunks with [] => [] | [c] => c | c :: l => c ++ d :: join d l end.

Lemma pieces_join d chunks : chunks <> [] -> forallb (lacks d) chunks = true -> pieces d (join d chunks) = chunks.
Proof.
  induction chunks as [|c [|c' l] IH]; intros Hne; [done| |]; cbn [forallb]; rewrite andb_true_iff; intros [Hc Hl].
  - by apply pieces_single.
  - change (join d (c :: c' :: l)) with (c ++ d :: join d (c' :: l)). rewrite pieces_app by done. f_equal.
    by apply IH.
Qed.

Lemma split_join d chunks : chunks <> [] -> last chunks <> Some [] -> forallb (lacks d) chunks = true ->
  split (join d chunks) d = chunks.
Proof. intros H1 H2 H3. unfold split. rewrite pieces_join by done. by rewrite bool_decide_false. Qed.

Lemma build_csv_row_join left d chunks : left <> [] ->
  foldl (fun left right => match left with [] => right | _ => left ++ [d] ++ right end) left chunks = join d (left :: chunks).
Proof.
  revert left. induction chunks as [|c l IH]; intros left Hl; [done|]. cbn [foldl].
  destruct left as [|x left]; [done|]. rewrite IH by done.
  destruct l as [|c' l]; [done|]. cbn [join]. by rewrite <- !(assoc_L (++)).
Qed.

(** A row of cells without the delimiter, the first and the last of them not empty, splits
    into the cells it was built from; empty cells inside the row are kept. *)
Theorem split_build_csv_row d chunks : chunks <> [] -> head chunks <> Some [] -> last chunks <> Some [] ->
  forallb (lacks d) chunks = true -> split (build_csv_row chunks [d]) d = chunks.
Proof.
  intros Hne Hh Hl Hd. rewrite <- (split_join d chunks) at 2 by done. f_equal.
  destruct chunks as [|c l]; [done|]. unfold build_csv_row. simpl foldl.
  apply build_csv_row_join. by intros ->.
Qed.

Lemma split_build_csv_row_witness :
  split (build_csv_row [lit "a"; []; lit "b"] [","]) "," = [lit "a"; []; lit "b"].
Proof. by apply split_build_csv_row. Defined.

(** The empty cells at the start of a row vanish. *)
Lemma build_csv_row_drops_front : build_csv_row [[]; []; lit "b"] [","] = lit "b".
Proof. reflexivity. Qed.

(** * Bit ranges *)

Lemma decimals_lack s c : isdigit c = false -> forallb isdigit s = true -> lacks c s = true.
Proof.
  intros Hc. unfold lacks. rewrite !forallb_forall. intros H x Hx.
  destruct (Ascii.eqb_spec c x) as [->|]; [|done]. by rewrite (H x Hx) in Hc.
Qed.

Lemma to_string_lacks n c : fits 64 n -> isdigit c = false -> lacks c (to_string n) = true.
Proof. intros Hn Hc. apply decimals_lack; [done|]. by apply to_string_digits. Qed.

Lemma hex_lacks c n : fits 64 n -> is_digit_of 16 c = false -> lacks c (to_hex n) = true.
Proof.
  intros Hn Hc. unfold lacks. rewrite forallb_forall. intros x Hx.
  pose proof (hexadecimal_digits 16 n (proj1 Hn)) as Hh. rewrite forallb_forall in Hh. specialize (Hh x Hx).
  apply negb_true_iff. destruct (Ascii.eqb_spec c x) as [<-|]; [congruence|done].
Qed.

(** A file of lines, each with its line end. *)
Lemma split_lines lines : forallb (lacks LF) lines = true -> split (concat (map (fun l => l ++ [LF]) lines)) LF = lines.
Proof.
  intros Hl. assert (E : pieces LF (concat (map (fun l => l ++ [LF]) lines)) = lines ++ [[]]).
  { induction lines as [|l lines IH]; [done|]. cbn [forallb] in Hl. apply andb_true_iff in Hl as [Hl Hls].
    cbn [map concat]. rewrite <- (assoc_L (++)). cbn [app]. by rewrite pieces_app, IH. }
  unfold split. rewrite E, last_app. cbn [last]. by rewrite bool_decide_eq_true_2, removelast_last.
Qed.

Lemma split_range a b d : fits 64 a -> fits 64 b -> isdigit d = false ->
  split (to_string a ++ d :: to_string b) d = [to_string a; to_string b].
Proof.
  intros Ha Hb Hd. change (to_string a ++ d :: to_string b) with (join d [to_string a; to_string b]).
  apply split_join; [done| |].
  - simpl. intros [= E]. by apply (to_string_nonempty b).
  - simpl. rewrite !to_string_lacks by done. done.
Qed.

Lemma split_one a d : fits 64 a -> isdigit d = false -> split (to_string a) d = [to_string a].
Proof.
  intros Ha Hd. change (to_string a) with (join d [to_string a]) at 1. apply split_join; [done| |].
  - simpl. intros [= E]. by apply (to_string_nonempty a).
  - simpl. by rewrite to_string_lacks.
Qed.

Lemma parseBitsParameter_range a b : 0 <= a < 64 -> 0 <= b < 64 ->
  parseBitsParameter (to_string a ++ ":" :: to_string b) = Ok (Z.min a b, Z.max a b) /\
  parseBitsParameter (to_string a) = Ok (a, a).
Proof.
  intros Ha Hb. unfold parseBitsParameter. rewrite split_range, split_one by (done || (unfold fits; lia)).
  cbn [mbind res_bind]. rewrite !read_number_to_string by (unfold fits; lia). simpl mbind.
  rewrite !swrapN_small by lia. split.
  - destruct (Z.ltb_spec b a); f_equal; f_equal; lia.
  - by rewrite Z.ltb_irrefl.
Qed.

(** The option that writes some bits of a register: a range [a:b] of bits, given in either
    order, makes the tool read the register and write back the value in exactly these bits;
    all others keep what was read. When the read fails nothing is to be written. *)
Theorem write_bits_of_range a b old value : 0 <= a < 64 -> 0 <= b < 64 -> fits 64 old -> fits 64 value ->
  exists bits, parseBitsParameter (to_string a ++ ":" :: to_string b) = Ok bits /\
    readOldValueHelper bits value true None = (false, value) /\
    exists value', readOldValueHelper bits value true (Some old) = (true, value') /\
    forall i, 0 <= i -> Z.testbit value' i =
      if (Z.min a b <=? i) && (i <=? Z.max a b) then Z.testbit value (i - Z.min a b) else Z.testbit old i.
Proof.
  intros Ha Hb Ho Hv. exists (Z.min a b, Z.max a b). split_and!.
  - by apply parseBitsParameter_range.
  - unfold readOldValueHelper. cbn [fst snd]. by destruct (Z.leb_spec 0 (Z.min a b)); [|lia].
  - unfold readOldValueHelper. cbn [fst snd]. destruct (Z.leb_spec 0 (Z.min a b)); [|lia]. cbn [andb].
    eexists. split; [done|]. intros i Hi.
    rewrite (wrapN_small 64) by (unfold fits; lia). rewrite insertBits_testbit by (done || lia).
    by replace (i <? Z.min a b + (Z.max a b - Z.min a b + 1)) with (i <=? Z.max a b) by lia.
Qed.

Lemma write_bits_of_range_witness :
  exists bits, parseBitsParameter (lit "7:4") = Ok bits /\
    exists value', readOldValueHelper bits 0x2 true (Some 0xFFF) = (true, value') /\
    (forall i, 0 <= i -> Z.testbit value' i = if (4 <=? i) && (i <=? 7) then Z.testbit 2 (i - 4) else Z.testbit 0xFFF i) /\
    value' = 0xF2F.
Proof.
  destruct (write_bits_of_range 7 4 0xFFF 2) as (bits & H1 & _ & v & H2 & H3); [lia|lia|done|done|].
  exists bits. split; [exact H1|]. exists v. split_and!; [exact H2|exact H3|].
  clear H3. vm_compute in H1. injection H1 as <-. vm_compute in H2. by injection H2 as <-.
Defined.

(** * Lists of integers *)

(** One item of a list: a number, or a range given by its two ends in either order. *)
Inductive item := Single (n : Z) | Range (a b : Z).

Definition print_item (i : item) : str :=
  match i with
  | Single n => to_string n
  | Range a b => to_string a ++ "-" :: to_string b
  end.

Definition expand (i : item) : list Z :=
  match i with
  | Single n => [n]
  | Range a b => seqZ (Z.min a b) (Z.max a b - Z.min a b + 1)
  end.

Definition item_in_range (i : item) : Prop :=
  match i with
  | Single n => 0 <= n < 2 ^ 31 - 1
  | Range a b => 0 <= a < 2 ^ 31 - 1 /\ 0 <= b < 2 ^ 31 - 1
  end.

(** The variables of the scan once the characters of an item are read. *)
Definition loaded (l : list Z) (i : item) : scan :=
  match i with
  | Single n => Scan l (to_string n) [] false
  | Range a b => Scan l (to_string a) (to_string b) true
  end.

Lemma atoi_to_string n : 0 <= n < 2 ^ 31 -> atoi (to_string n) = n.
Proof.
  intros Hn. unfold atoi, strto. assert (Hf : fits 64 n) by (unfold fits; lia).
  pose proof (read_to_string n Hf) as Hr. pose proof (to_string_digits n Hf) as Hd.
  destruct (to_string n) as [|c s] eqn:E; [by apply to_string_nonempty in E|].
  simpl in Hd. apply andb_true_iff in Hd as [Hc _].
  destruct (skip_leading_digit c s Hc) as [-> ->]. unfold is_digit_of.
  destruct (digit_chars c Hc) as [Hv Hb]. rewrite Hv. destruct (Z.ltb_spec (code c - 48) 10); [|lia].
  rewrite Hr, Z.min_r, Z.max_r by lia. apply swrapN_small; lia.
Qed.

Lemma scan_char_digit l s1 s2 sec c : isdigit c = true ->
  scan_char (Scan l s1 s2 sec) c =
    Ok (if sec : bool then Scan l s1 (s2 ++ [c]) true else Scan l (s1 ++ [c]) s2 false).
Proof.
  intros Hc. destruct (digit_not_special c Hc) as (Hs & Hm & _). unfold scan_char. rewrite Hm.
  assert (Ascii.eqb c "," = false) as ->.
  { destruct (Ascii.eqb_spec c ","); [subst; vm_compute in Hc|]; done. }
  assert (Ascii.eqb c " " = false) as ->.
  { destruct (Ascii.eqb_spec c " "); [subst; vm_compute in Hc|]; done. }
  done.
Qed.

Lemma scan_digits l s1 s2 sec s rest : forallb isdigit s = true ->
  scan_chars (Scan l s1 s2 sec) (s ++ rest) =
    scan_chars (if sec : bool then Scan l s1 (s2 ++ s) true else Scan l (s1 ++ s) s2 false) rest.
Proof.
  revert s1 s2. induction s as [|c s IH]; intros s1 s2 Hd.
  - rewrite !app_nil_r. by destruct sec.
  - simpl in Hd. apply andb_true_iff in Hd as [Hc Hd]. cbn [scan_chars app]. rewrite scan_char_digit by done.
    cbn [mbind res_bind]. destruct sec; rewrite IH by done; by rewrite <- (assoc_L (++)).
Qed.

Lemma item_fits i : item_in_range i -> match i with Single n => fits 64 n | Range a b => fits 64 a /\ fits 64 b end.
Proof. unfold fits. destruct i; simpl; lia. Qed.

Lemma scan_item l i rest : item_in_range i ->
  scan_chars (Scan l [] [] false) (print_item i ++ rest) = scan_chars (loaded l i) rest.
Proof.
  intros Hi. apply item_fits in Hi. destruct i as [n|a b]; simpl print_item.
  - by rewrite scan_digits by by apply to_string_digits.
  - destruct Hi as [Ha Hb]. rewrite <- (assoc_L (++)), scan_digits by by apply to_string_digits.
    cbn [app scan_chars]. unfold scan_char at 1. cbn [second snum1 snum2 corelist].
    rewrite Ascii.eqb_refl, bool_decide_false by by apply to_string_nonempty.
    cbn [andb negb mbind res_bind]. by rewrite scan_digits by by apply to_string_digits.
Qed.

Lemma finish_loaded l i : item_in_range i -> finish_item (loaded l i) = Ok (Scan (l ++ expand i) [] [] false).
Proof.
  intros Hi. pose proof (item_fits i Hi) as Hf. destruct i as [n|a b]; simpl in Hi; unfold finish_item; cbn [loaded snum1 snum2 corelist].
  - pose proof (to_string_nonempty n Hf). rewrite atoi_to_string by lia. by destruct (to_string n).
  - destruct Hf as [Ha Hb]. pose proof (to_string_nonempty a Ha). pose proof (to_string_nonempty b Hb).
    rewrite !atoi_to_string by lia. destruct (to_string a); [done|]. destruct (to_string b); [done|].
    unfold push_range. simpl expand. destruct (Z.ltb_spec b a).
    + rewrite (Z.max_l b 0), Z.min_r, Z.max_l by lia. by destruct (Z.eqb_spec a (2 ^ 31 - 1)); [lia|].
    + rewrite (Z.max_l a 0), Z.min_l, Z.max_r by lia. by destruct (Z.eqb_spec b (2 ^ 31 - 1)); [lia|].
Qed.

(** What is left when the last character is read: the last item, not yet added. *)
Lemma scan_items l i items : Forall item_in_range (i :: items) ->
  exists l' i', scan_chars (Scan l [] [] false) (join "," (map print_item (i :: items))) = Ok (loaded l' i') /\
    item_in_range i' /\ l' ++ expand i' = l ++ concat (map expand (i :: items)).
Proof.
  revert l i. induction items as [|j items IH]; intros l i Hf; inversion Hf as [|? ? Hi Hr]; subst.
  - exists l, i. split_and!; [|done|by cbn [map concat]; rewrite app_nil_r].
    cbn [map join]. rewrite <- (app_nil_r (print_item i)). by rewrite scan_item.
  - destruct (IH (l ++ expand i) j Hr) as (l' & i' & E & Hi' & El). exists l', i'. split_and!; [|done|].
    + change (join _ _) with (print_item i ++ "," :: join "," (map print_item (j :: items))).
      rewrite scan_item by done. cbn [scan_chars]. unfold scan_char at 1. simpl (Ascii.eqb "," _). cbn [andb].
      change (Ascii.eqb "," "-") with false. change (Ascii.eqb "," ",") with true. cbn [andb].
      rewrite finish_loaded by done. exact E.
    + rewrite El. simpl. by rewrite <- (assoc_L (++)).
Qed.

Lemma last_digit s : s <> [] -> forallb isdigit s = true -> exists c, last s = Some c /\ isdigit c = true.
Proof.
  intros Hs Hd. destruct (last s) as [c|] eqn:E; [|by apply last_None in E].
  exists c. split; [done|]. apply last_Some in E as [l ->]. rewrite forallb_app in Hd. simpl in Hd.
  rewrite !andb_true_iff in Hd. apply Hd.
Qed.

Lemma last_app_nonempty {A} (l k : list A) : k <> [] -> last (l ++ k) = last k.
Proof. intros Hk. rewrite last_app. destruct (last k) eqn:E; [done|]. by apply last_None in E. Qed.

Lemma last_items i items : Forall item_in_range (i :: items) ->
  exists c, last (join "," (map print_item (i :: items))) = Some c /\ isdigit c = true.
Proof.
  revert i. induction items as [|j items IH]; intros i Hf; inversion Hf as [|? ? Hi Hr]; subst.
  - apply item_fits in Hi. simpl. destruct i as [n|a b]; simpl print_item.
    + apply last_digit; [by apply to_string_nonempty|by apply to_string_digits].
    + destruct Hi as [Ha Hb]. change ("-" :: to_string b) with (["-"] ++ to_string b).
      rewrite (assoc_L (++)), last_app_nonempty by by apply to_string_nonempty.
      apply last_digit; [by apply to_string_nonempty|by apply to_string_digits].
  - destruct (IH j Hr) as (c & E & Hc). exists c. split; [|done].
    change (join _ _) with (print_item i ++ ["," ] ++ join "," (map print_item (j :: items))).
    rewrite (assoc_L (++)), last_app_nonempty; [done|]. intros E'. by rewrite E' in E.
Qed.

(** [extract_integer_list] reads back every list of numbers and ranges that is written with
    commas: the numbers of the items in their order, a range given in either order from its
    lower to its upper end. *)
Theorem extract_integer_list_items i items : Forall item_in_range (i :: items) ->
  extract_integer_list (join "," (map print_item (i :: items))) = Ok (concat (map expand (i :: items))).
Proof.
  intros Hf. unfold extract_integer_list. destruct (scan_items [] i items Hf) as (l & j & E & Hj & El).
  unfold scan_init. rewrite E. cbn [mbind res_bind]. destruct (last_items i items Hf) as (c & -> & Hc).
  assert (Ascii.eqb c "," = false) as ->.
  { destruct (Ascii.eqb_spec c ","); [subst; vm_compute in Hc|]; done. }
  rewrite finish_loaded by done. cbn [mbind res_bind corelist]. by rewrite El.
Qed.

Lemma extract_integer_list_items_witness :
  extract_integer_list (lit "7,3-5,9-8") = Ok [7; 3; 4; 5; 8; 9].
Proof. apply (extract_integer_list_items (Single 7) [Range 3 5; Range 9 8]). repeat constructor; simpl; lia. Defined.

(** * Table cells *)

Lemma length_decimal fuel k n : 0 <= n < 10 ^ Z.of_nat k -> (0 < k)%nat -> (length (decimal fuel n) <= k)%nat.
Proof.
  revert k n. induction fuel as [|f IH]; intros k n Hn Hk; cbn [decimal]; [simpl; lia|].
  destruct (Z.ltb_spec n 10); [simpl; lia|]. destruct k as [|[|k]]; [lia|simpl in Hn; lia|].
  rewrite length_app. simpl. enough (length (decimal f (n / 10)) <= S k)%nat by lia. apply IH; [|lia].
  rewrite Nat2Z.inj_succ, Z.pow_succ_r in Hn by lia.
  split; [apply Z.div_pos; lia|apply Z.div_lt_upper_bound; lia].
Qed.

Lemma print_4d_width n : 0 <= n <= 9999 -> size (print_4d n) = 4.
Proof.
  intros Hn. unfold print_4d. destruct (Z.ltb_spec n 0); [lia|].
  pose proof (length_decimal 20 4 n ltac:(lia) ltac:(lia)). fold (to_string n) in *.
  unfold size. rewrite length_app, length_replicate. lia.
Qed.

(** The suffixes of [unit_format], by the power of 1000 they stand for. *)
Definition units : list str := [lit "  "; lit " K"; lit " M"; lit " G"; lit " T"].

(** A number in a table takes six columns, four digits at most and a unit, up to 10^16: the
    digits are those of the number in the largest unit that keeps it positive. *)
Theorem unit_format_width n : 0 <= n < 10 ^ 16 ->
  size (unit_format n) = 6 /\
  exists k unit, 0 <= k <= 4 /\ unit_format n = print_4d (n / 1000 ^ k) ++ unit /\
    n / 1000 ^ k <= 9999 /\ (0 < k -> 10 <= n / 1000 ^ k) /\
    nth (Z.to_nat k) units [] = unit.
Proof.
  intros Hn. unfold unit_format.
  assert (Hfit : forall k u, 0 <= k -> n / 1000 ^ k <= 9999 -> size u = 2 ->
    print_4d (i32 (n / 1000 ^ k)) ++ u = print_4d (n / 1000 ^ k) ++ u /\
    size (print_4d (i32 (n / 1000 ^ k)) ++ u) = 6).
  { intros k u Hk Hle Hu. assert (0 <= n / 1000 ^ k) by (apply Z.div_pos; [lia|apply Z.pow_pos_nonneg; lia]).
    rewrite swrapN_small by lia. split; [done|]. rewrite size_app, print_4d_width by lia. lia. }
  assert (Hk : exists k, 0 <= k <= 4 /\ n / 1000 ^ k <= 9999 /\ (0 < k -> 10 <= n / 1000 ^ k) /\
    unit_format n = print_4d (i32 (n / 1000 ^ k)) ++ nth (Z.to_nat k) units []).
  { unfold unit_format.
    destruct (Z.leb_spec n 9999); [exists 0|destruct (Z.leb_spec n 9999999); [exists 1|
    destruct (Z.leb_spec n 9999999999); [exists 2|destruct (Z.leb_spec n 9999999999999); [exists 3|exists 4]]]];
      simpl Z.to_nat; cbn [nth]; rewrite ?Z.pow_0_r, ?Z.div_1_r;
      repeat (split; [lia || (intros; Z.div_mod_to_equations; lia)|]); done. }
  destruct Hk as (k & Hk & Hle & Hge & E). unfold unit_format in E. rewrite E.
  assert (Hu : size (nth (Z.to_nat k) units []) = 2).
  { assert (k = 0 \/ k = 1 \/ k = 2 \/ k = 3 \/ k = 4) as [->|[->|[->|[->| ->]]]] by lia; done. }
  destruct (Hfit k _ (proj1 Hk) Hle Hu) as [E1 E2]. split; [done|]. exists k, (nth (Z.to_nat k) units []).
  by rewrite E1.
Qed.

Lemma unit_format_width_witness : size (unit_format 123456789) = 6 /\ unit_format 123456789 = lit " 123 M".
Proof. split; [|reflexivity]. apply (unit_format_width 123456789). lia. Defined.
