(* ===== verification/HttpClient.v ===== *)
(** The client's side of the HTTP messages of [src/src/pcm-sensor-server.cpp]: reading a
    response ([operator >>] for [HTTPResponse]), and that it reads what the server writes.

    The members that [HTTPResponse] has from [HTTPMessage] - protocol, headers and body - are
    kept in the message of the stream. *)

From S2P Require Import Prelude CxxString StrUtils Url Http HttpProperties.
Local Open Scope char_scope.
Local Open Scope Z_scope.
Local Open Scope list_scope.

(** * Reading a response *)

(** The characters up to white space. *)
Fixpoint word (s : str) : str :=
  match s with c :: s => if isspace c then [] else c :: word s | [] => [] end.

(** [rs >> s] for a new string. *)
Definition read_token : S_ str := fun s =>
  if good s then
    match skip_spaces (pending s) with
    | [] => (set_bits true true (set_pending [] s), Done [])
    | p => let rest := drop (length (word p)) p in
           (set_bits (bool_decide (rest = [])) false (set_pending rest s), Done (word p))
    end
  else (set_bits false true s, Done []).

Definition HTTPReponseCode_Spare : Z := 1000.

(** [setResponseCode] from a string, with [std::stoi]. *)
Definition setResponseCode (rc : str) : res Z :=
  anInt ← stoll 10 rc;
  if (anInt <? - 2 ^ 31) || (2 ^ 31 <=? anInt) then Throw OutOfRange
  else if (anInt <? 0) || (HTTPReponseCode_Spare <? anInt) then Throw RuntimeError else Ok anInt.

Definition read_response_body (bodyExpected : bool) : S_ unit :=
  if bodyExpected then
    r ← request;
    match headers_ r !! lit "Content-Length" with
    | None => raise
    | Some h =>
        contentLength ← lift (headerValueAsNumber h);
        if contentLength =? 0 then raise
        else body ← read_string contentLength; update (set_body body)
    end
  else mret tt.

(** The code and the reason phrase; the rest is in the message. *)
Definition read_response (bodyExpected : bool) : S_ (Z * str) :=
  protocol ← read_token;
  statuscode ← read_token;
  reasonphrase ← getline [];
  failed ← (fun s => (s, Done (failbit s)));
  if failed : bool then raise
  else
    p ← lift (protocol_of_string protocol); update (set_protocol p) ;;
    code ← lift (setResponseCode statuscode);
    n ← (fun s => (s, Done (header_fuel s)));
    read_headers n [] [] ;;
    read_response_body bodyExpected ;;
    mret (code, reasonphrase).

(** * What the server writes *)

Section Roundtrip.
Context (iteration : headers -> list (str * HTTPHeader)).

(** The value of a header as it is sent, from the colon on. *)
Definition sent_field (h : str * HTTPHeader) : str * str :=
  (h.1, " " :: value_ h.2 ++ (if bool_decide (h.1 = lit "Content-Type") then lit "; charset=UTF-8" else [])).

Definition sent_fields (r : HTTPResponse) : list (str * str) := map sent_field (iteration (response_headers r)).

Lemma render_header_line h : render_header h = header_line (sent_field h).
Proof.
  unfold render_header, header_line, header_text, sent_field. cbn [fst snd].
  destruct (bool_decide _); rewrite ?app_nil_r; unfold HTTP_EOL; rewrite <- !app_assoc; cbn; by rewrite <- ?app_assoc.
Qed.

Lemma word_app w c t : forallb (fun x => negb (isspace x)) w = true -> isspace c = true -> word (w ++ c :: t) = w.
Proof.
  intros Hw Hc. induction w as [|x w IH]; simpl in *; [by rewrite Hc|].
  apply andb_true_iff in Hw as [Hx Hw]. apply negb_true_iff in Hx. rewrite Hx. by rewrite IH.
Qed.

(** A word behind at most one space. *)
Lemma read_token_at s lead w c t : good s = true -> (lead = [] \/ lead = [" "]) -> w <> [] ->
  forallb (fun x => negb (isspace x)) w = true -> isspace c = true -> pending s = lead ++ w ++ c :: t ->
  read_token s = (set_pending (c :: t) s, Done w).
Proof.
  intros Hg Hl Hne Hw Hc Hp. unfold read_token. rewrite Hg, Hp. assert (E : skip_spaces (lead ++ w ++ c :: t) = w ++ c :: t).
  { destruct w as [|x w]; [done|]. cbn [forallb] in Hw. apply andb_true_iff in Hw as [Hx _]. apply negb_true_iff in Hx.
    destruct Hl as [->| ->]; simpl; by rewrite Hx. }
  rewrite E. destruct w as [|x w]; [done|]. cbn [app]. change (x :: w ++ c :: t) with ((x :: w) ++ c :: t).
  rewrite word_app, drop_app_length by done. rewrite bool_decide_eq_false_2 by done. unfold set_bits, set_pending. cbn. by rewrite !orb_false_r.
Qed.

Lemma digits_no_space s : forallb isdigit s = true -> forallb (fun x => negb (isspace x)) s = true.
Proof.
  intros H. apply forallb_forall. intros x Hx. rewrite forallb_forall in H. specialize (H x Hx).
  destruct (digit_not_special x H) as (-> & _). done.
Qed.

Lemma response_code_known code reason : responseCodeAsString code = Ok reason -> 0 < code < 1000 /\ lacks LF reason = true.
Proof.
  unfold responseCodeAsString. destruct (List.find _ _) as [p|] eqn:E; [|done]. intros [= <-].
  apply List.find_some in E as [Hin <-%Z.eqb_eq].
  assert (H : forallb (fun p => (0 <? p.1) && (p.1 <? 1000) && lacks LF p.2) response_map_ = true) by reflexivity.
  rewrite forallb_forall in H. specialize (H p Hin). rewrite !andb_true_iff in H. destruct H as [[? ?] ?]. split; [lia|done].
Qed.

Lemma setResponseCode_text code : 0 <= code <= 1000 -> setResponseCode (to_string code) = Ok code.
Proof.
  intros Hc. unfold setResponseCode, HTTPReponseCode_Spare. rewrite stoll_to_string by lia. cbn [mbind res_bind].
  destruct (Z.ltb_spec code (- 2 ^ 31)), (Z.leb_spec (2 ^ 31) code), (Z.ltb_spec code 0), (Z.ltb_spec 1000 code); try lia; done.
Qed.

Lemma protocol_no_space p name : protocolAsString p = Ok name -> forallb (fun x => negb (isspace x)) name = true.
Proof. by destruct p; intros [= <-]. Qed.

(** A length behind a space. *)
Lemma length_field n : 0 <= n < 2 ^ 63 -> headerValueAsNumber (received (lit "Content-Length", " " :: to_string n)) = Ok n.
Proof.
  intros Hn. unfold headerValueAsNumber, received. cbn [value_ snd].
  assert (E : stoll 10 (" " :: to_string n) = stoll 10 (to_string n)) by done.
  rewrite E, stoll_to_string by done. cbn [mbind res_bind]. rewrite wrapN_small by (unfold fits; lia). done.
Qed.

Lemma add_headers_other (hs : list (str * str)) (acc : headers) (name : str) : name ∉ map fst hs -> add_headers hs acc !! name = acc !! name.
Proof.
  unfold add_headers. revert acc. induction hs as [|h hs IH]; intros acc Hn; [done|]. cbn [map foldl] in *.
  apply not_elem_of_cons in Hn as [Hn Hr]. rewrite IH by done. by rewrite lookup_insert_ne.
Qed.

Lemma add_headers_lookup (hs : list (str * str)) (acc : headers) (name value : str) : NoDup (map fst hs) -> (name, value) ∈ hs ->
  add_headers hs acc !! name = Some (received (name, value)).
Proof.
  revert acc. induction hs as [|h hs IH]; intros acc Hnd Hin; [by apply elem_of_nil in Hin|].
  cbn [map] in Hnd. apply NoDup_cons in Hnd as [Hni Hnd]. apply elem_of_cons in Hin as [<-|Hin]; [|by apply IH].
  change (add_headers hs (<[name := received (name, value)]> acc) !! name = Some (received (name, value))).
  rewrite add_headers_other by done. by rewrite lookup_insert_eq.
Qed.

Lemma read_exactly body rest s : good s = true -> pending s = body ++ rest -> size body <= max_size ->
  read_string (size body) s = (set_pending rest s, Done body).
Proof.
  intros Hg Hp Hs. unfold read_string. destruct (Z.ltb_spec max_size (size body)); [lia|]. rewrite Hg, Hp, prefix_app, suffix_app.
  rewrite size_app. pose proof (size_nonneg rest). destruct (Z.ltb_spec (size body + size rest) (size body)); [lia|].
  rewrite Z.sub_diag. cbn [Z.to_nat replicate]. rewrite app_nil_r. unfold set_bits, set_pending. cbn. by rewrite !orb_false_r.
Qed.

(** The text of a response before its body. *)
Lemma render_text r proto reason : protocolAsString (response_protocol r) = Ok proto ->
  responseCodeAsString (responseCode_ r) = Ok reason ->
  render iteration r = proto ++ " " :: to_string (responseCode_ r) ++ " " :: (reason ++ [CR]) ++ LF :: headers_text (sent_fields r) ++ response_body r.
Proof.
  intros Hp Hr. unfold render, headers_text, sent_fields. rewrite Hp, Hr.
  rewrite (map_ext render_header (fun h => header_line (sent_field h)) render_header_line), map_map.
  unfold HTTP_EOL. rewrite <- !app_assoc. cbn. rewrite <- ?app_assoc. done.
Qed.

Lemma text_tail (a b c d e rest : str) :
  (a ++ " " :: b ++ " " :: c ++ LF :: d ++ e) ++ rest = a ++ " " :: b ++ " " :: c ++ LF :: d ++ e ++ rest.
Proof. rewrite <- app_assoc. cbn. rewrite <- app_assoc. cbn. rewrite <- app_assoc. cbn. by rewrite <- app_assoc. Qed.

Lemma header_count hs : (length hs <= length (concat (map header_line hs)))%nat.
Proof.
  induction hs as [|h hs IH]; simpl; [lia|]. rewrite length_app. unfold header_line at 1. rewrite length_app. simpl. lia.
Qed.

(** C29. A client reads what the server writes. Whatever the order in which the header map is
    walked, a response with a body - whose headers have a form that can be read, among them
    the length of the body - is read back from its text with the same protocol, code and body,
    every header once with its value behind a space (and the character set for the content
    type), and what follows stays in the stream; the reason phrase is the text of the code
    with the space before it and the carriage return behind it. *)
Theorem response_roundtrip r proto reason rest :
  protocolAsString (response_protocol r) = Ok proto -> responseCodeAsString (responseCode_ r) = Ok reason ->
  forallb header_ok (sent_fields r) = true -> NoDup (map fst (iteration (response_headers r))) ->
  (lit "Content-Length", " " :: to_string (size (response_body r))) ∈ sent_fields r ->
  response_body r <> [] -> size (render iteration r ++ rest) < npos -> size (response_body r) <= max_size ->
  read_response true (connected (render iteration r ++ rest)) =
  (Io rest false false [] (MkRequest (response_protocol r) (add_headers (sent_fields r) ∅) (response_body r) false GET URL_init),
   Done (responseCode_ r, " " :: reason ++ [CR])).
Proof.
  intros Hp Hr Hok Hnd Hlen Hbody Hsize Hmax. destruct (protocol_name_ok _ _ Hp) as (Hpe & Hpn & _).
  destruct (response_code_known _ _ Hr) as [Hcode Hlf]. rewrite (render_text r proto reason Hp Hr) in *.
  set (code := to_string (responseCode_ r)) in *. set (fields := sent_fields r) in *. set (body := response_body r) in *.
  assert (Hnf : NoDup (map fst fields)) by (unfold fields, sent_fields; by rewrite map_map).
  assert (Htext : (proto ++ " " :: code ++ " " :: (reason ++ [CR]) ++ LF :: headers_text fields ++ body) ++ rest =
                  proto ++ " " :: code ++ " " :: (reason ++ [CR]) ++ LF :: headers_text fields ++ body ++ rest).
  { apply text_tail. }
  rewrite Htext in *. clear Htext. unfold connected, read_response.
  unfold mbind at 1, S_bind at 1. rewrite (read_token_at _ [] proto " " (code ++ " " :: (reason ++ [CR]) ++ LF :: headers_text fields ++ body ++ rest));
    [|done|by left|done|by eapply protocol_no_space|done|done].
  unfold mbind at 1, S_bind at 1. rewrite (read_token_at _ [" "] code " " ((reason ++ [CR]) ++ LF :: headers_text fields ++ body ++ rest));
    [|done|by right|by apply to_string_nonempty; unfold fits; lia|by apply digits_no_space, to_string_digits; unfold fits; lia|done|done].
  unfold mbind at 1, S_bind at 1. rewrite (getline_at _ [] (" " :: reason ++ [CR]) (headers_text fields ++ body ++ rest));
    [|done|done|by rewrite lacks_cons, lacks_app, Hlf].
  unfold mbind at 1, S_bind at 1. cbn [failbit set_pending].
  assert (Hcodeok : setResponseCode code = Ok (responseCode_ r)) by (apply setResponseCode_text; lia).
  unfold update at 1, set_request, request, lift, mbind, S_bind, set_pending. cbn -[read_headers read_response_body setResponseCode to_string protocol_of_string]. rewrite Hpe.
  cbn -[read_headers read_response_body setResponseCode to_string]. rewrite Hcodeok. cbn -[read_headers read_response_body to_string].
  rewrite (headers_roundtrip fields _ _ [] (body ++ rest)); try done.
  - cbn -[read_response_body]. unfold read_response_body, request, lift, mbind, S_bind. cbn [m headers_ set_headers set_protocol].
    rewrite (add_headers_lookup _ _ _ _ Hnf Hlen). pose proof (size_nonneg body).
    rewrite length_field by (unfold max_size in Hmax; lia). cbn iota beta.
    destruct (Z.eqb_spec (size body) 0) as [E|_]; [by destruct (response_body r)|].
    by rewrite (read_exactly body rest).
  - apply Forall_forall. intros x _. apply lookup_empty.
  - unfold header_fuel. cbn [pending]. pose proof (header_count fields). unfold headers_text. rewrite !length_app. lia.
  - cbn [pending]. rewrite !size_app, !size_cons, !size_app, !size_cons, !size_app, !size_cons in Hsize. rewrite !size_app in Hsize |- *.
    pose proof (size_nonneg proto). pose proof (size_nonneg code). pose proof (size_nonneg reason). pose proof (size_nonneg []). lia.
Qed.

End Roundtrip.

(** What the server sends for an empty table of samples in JSON. *)
Definition example_response : HTTPResponse :=
  MkResponse HTTP_1_1 (basic_headers ApplicationJSON (lit "{}")) (lit "{}") 200.

Lemma response_roundtrip_witness :
  read_response true (connected (render map_to_list example_response ++ lit "next")) =
  (Io (lit "next") false false []
     (MkRequest HTTP_1_1 (add_headers (sent_fields map_to_list example_response) ∅) (lit "{}") false GET URL_init),
   Done (200, " " :: lit "OK" ++ [CR])).
Proof. apply (response_roundtrip map_to_list example_response (lit "HTTP/1.1")); try (vm_compute; done). all: vm_compute; repeat constructor; set_solver. Defined.
