(* ===== verification/CpuModels.v ===== *)
(** CPU model identification and the per-model tables of [src/src/cpucounters.h]
    and [src/src/cpucounters.cpp]: which models are supported, what they are
    called, their C-state residency MSRs and the MSR addresses of their CBo/CHA
    performance monitoring boxes. *)

From S2P Require Import Prelude Bits.
Local Open Scope Z_scope.

Definition PCM_CPU_FAMILY_MODEL (family_ model_ : Z) : Z := Z.shiftl family_ 8 + model_.

(** * [enum SupportedCPUModels] *)

Definition NEHALEM_EP : Z := PCM_CPU_FAMILY_MODEL 6 26.
Definition NEHALEM : Z := PCM_CPU_FAMILY_MODEL 6 30.
Definition ATOM : Z := PCM_CPU_FAMILY_MODEL 6 28.
Definition ATOM_2 : Z := PCM_CPU_FAMILY_MODEL 6 53.
Definition CENTERTON : Z := PCM_CPU_FAMILY_MODEL 6 54.
Definition BAYTRAIL : Z := PCM_CPU_FAMILY_MODEL 6 55.
Definition AVOTON : Z := PCM_CPU_FAMILY_MODEL 6 77.
Definition CHERRYTRAIL : Z := PCM_CPU_FAMILY_MODEL 6 76.
Definition APOLLO_LAKE : Z := PCM_CPU_FAMILY_MODEL 6 92.
Definition GEMINI_LAKE : Z := PCM_CPU_FAMILY_MODEL 6 122.
Definition DENVERTON : Z := PCM_CPU_FAMILY_MODEL 6 95.
Definition SNOWRIDGE : Z := PCM_CPU_FAMILY_MODEL 6 134.
Definition ELKHART_LAKE : Z := PCM_CPU_FAMILY_MODEL 6 150.
Definition JASPER_LAKE : Z := PCM_CPU_FAMILY_MODEL 6 156.
Definition CLARKDALE : Z := PCM_CPU_FAMILY_MODEL 6 37.
Definition WESTMERE_EP : Z := PCM_CPU_FAMILY_MODEL 6 44.
Definition NEHALEM_EX : Z := PCM_CPU_FAMILY_MODEL 6 46.
Definition WESTMERE_EX : Z := PCM_CPU_FAMILY_MODEL 6 47.
Definition SANDY_BRIDGE : Z := PCM_CPU_FAMILY_MODEL 6 42.
Definition JAKETOWN : Z := PCM_CPU_FAMILY_MODEL 6 45.
Definition IVY_BRIDGE : Z := PCM_CPU_FAMILY_MODEL 6 58.
Definition HASWELL : Z := PCM_CPU_FAMILY_MODEL 6 60.
Definition HASWELL_ULT : Z := PCM_CPU_FAMILY_MODEL 6 69.
Definition HASWELL_2 : Z := PCM_CPU_FAMILY_MODEL 6 70.
Definition IVYTOWN : Z := PCM_CPU_FAMILY_MODEL 6 62.
Definition HASWELLX : Z := PCM_CPU_FAMILY_MODEL 6 63.
Definition BROADWELL : Z := PCM_CPU_FAMILY_MODEL 6 61.
Definition BROADWELL_XEON_E3 : Z := PCM_CPU_FAMILY_MODEL 6 71.
Definition BDX_DE : Z := PCM_CPU_FAMILY_MODEL 6 86.
Definition SKL_UY : Z := PCM_CPU_FAMILY_MODEL 6 78.
Definition KBL : Z := PCM_CPU_FAMILY_MODEL 6 158.
Definition KBL_1 : Z := PCM_CPU_FAMILY_MODEL 6 142.
Definition CML : Z := PCM_CPU_FAMILY_MODEL 6 166.
Definition CML_1 : Z := PCM_CPU_FAMILY_MODEL 6 165.
Definition ICL : Z := PCM_CPU_FAMILY_MODEL 6 126.
Definition ICL_1 : Z := PCM_CPU_FAMILY_MODEL 6 125.
Definition RKL : Z := PCM_CPU_FAMILY_MODEL 6 167.
Definition TGL : Z := PCM_CPU_FAMILY_MODEL 6 140.
Definition TGL_1 : Z := PCM_CPU_FAMILY_MODEL 6 141.
Definition ADL : Z := PCM_CPU_FAMILY_MODEL 6 151.
Definition ADL_1 : Z := PCM_CPU_FAMILY_MODEL 6 154.
Definition RPL : Z := PCM_CPU_FAMILY_MODEL 6 0xb7.
Definition RPL_1 : Z := PCM_CPU_FAMILY_MODEL 6 0xba.
Definition RPL_2 : Z := PCM_CPU_FAMILY_MODEL 6 0xbf.
Definition RPL_3 : Z := PCM_CPU_FAMILY_MODEL 6 0xbe.
Definition MTL : Z := PCM_CPU_FAMILY_MODEL 6 0xAA.
Definition LNL : Z := PCM_CPU_FAMILY_MODEL 6 0xBD.
Definition ARL : Z := PCM_CPU_FAMILY_MODEL 6 197.
Definition ARL_1 : Z := PCM_CPU_FAMILY_MODEL 6 198.
Definition PTL : Z := PCM_CPU_FAMILY_MODEL 6 204.
Definition BDX : Z := PCM_CPU_FAMILY_MODEL 6 79.
Definition KNL : Z := PCM_CPU_FAMILY_MODEL 6 87.
Definition SKL : Z := PCM_CPU_FAMILY_MODEL 6 94.
Definition SKX : Z := PCM_CPU_FAMILY_MODEL 6 85.
Definition ICX_D : Z := PCM_CPU_FAMILY_MODEL 6 108.
Definition ICX : Z := PCM_CPU_FAMILY_MODEL 6 106.
Definition SPR : Z := PCM_CPU_FAMILY_MODEL 6 143.
Definition EMR : Z := PCM_CPU_FAMILY_MODEL 6 207.
Definition GNR : Z := PCM_CPU_FAMILY_MODEL 6 173.
Definition SRF : Z := PCM_CPU_FAMILY_MODEL 6 175.
Definition GNR_D : Z := PCM_CPU_FAMILY_MODEL 6 174.
Definition GRR : Z := PCM_CPU_FAMILY_MODEL 6 182.
Definition END_OF_MODEL_LIST : Z := 0x0ffff.

Definition all_models : list Z :=
  [NEHALEM_EP; NEHALEM; ATOM; ATOM_2; CENTERTON; BAYTRAIL; AVOTON;
   CHERRYTRAIL; APOLLO_LAKE; GEMINI_LAKE; DENVERTON; SNOWRIDGE; ELKHART_LAKE; JASPER_LAKE;
   CLARKDALE; WESTMERE_EP; NEHALEM_EX; WESTMERE_EX; SANDY_BRIDGE; JAKETOWN; IVY_BRIDGE;
   HASWELL; HASWELL_ULT; HASWELL_2; IVYTOWN; HASWELLX; BROADWELL; BROADWELL_XEON_E3;
   BDX_DE; SKL_UY; KBL; KBL_1; CML; CML_1; ICL;
   ICL_1; RKL; TGL; TGL_1; ADL; ADL_1; RPL;
   RPL_1; RPL_2; RPL_3; MTL; LNL; ARL; ARL_1;
   PTL; BDX; KNL; SKL; SKX; ICX_D; ICX;
   SPR; EMR; GNR; SRF; GNR_D; GRR].

(** A C++ [switch] over the model: the first case list that contains it. *)
Fixpoint switch {A} (m : Z) (cases : list (list Z * A)) (default : A) : A :=
  match cases with
  | [] => default
  | (labels, a) :: cases' =>
      if bool_decide (m ∈ labels) then a else switch m cases' default
  end.

Definition PCM_SKL_PATH_CASES : list Z := [SKL_UY; KBL; KBL_1; CML; ICL; RKL; TGL; SKL].

Definition useSKLPath (cpu_family_model : Z) : bool :=
  switch cpu_family_model [(PCM_SKL_PATH_CASES, true)] false.

(** * Identification *)

(** [getCPUFamilyModelFromCPUID], from the EAX value of CPUID leaf 1. *)
Definition getCPUFamilyModelFromCPUID (eax : Z) : Z :=
  let Family_ID := Z.land (Z.shiftr eax 8) 0xF in
  let Extended_Family_ID := Z.land (Z.shiftr eax 20) 0xFF in
  let Model_ID := Z.land (Z.shiftr eax 4) 0xF in
  let Extended_Model_ID := Z.land (Z.shiftr eax 16) 0xF in
  let cpu_family_ := if negb (Family_ID =? 0x0F) then Family_ID
                     else Extended_Family_ID + Family_ID in
  let cpu_model_ := if (Family_ID =? 0x06) || (Family_ID =? 0x0F)
                    then Model_ID + Z.shiftl Extended_Model_ID 4 else Model_ID in
  PCM_CPU_FAMILY_MODEL cpu_family_ cpu_model_.

Definition isAtom (cpu_family_model_ : Z) : bool :=
  bool_decide (cpu_family_model_ ∈
    [ATOM; ATOM_2; CENTERTON; BAYTRAIL; AVOTON; CHERRYTRAIL; APOLLO_LAKE; GEMINI_LAKE;
     DENVERTON]).

Definition isCPUModelSupported (model_ : Z) : bool :=
  bool_decide (model_ ∈ [NEHALEM_EP; NEHALEM_EX; WESTMERE_EP; WESTMERE_EX]) ||
  isAtom model_ ||
  bool_decide (model_ ∈
    [SNOWRIDGE; ELKHART_LAKE; JASPER_LAKE; CLARKDALE; SANDY_BRIDGE; JAKETOWN; IVY_BRIDGE;
     HASWELL; IVYTOWN; HASWELLX; BDX_DE; BDX; BROADWELL; KNL; SKL; SKL_UY; KBL; KBL_1; CML;
     ICL; RKL; TGL; ADL; RPL; MTL; LNL; ARL; PTL; SKX; ICX; SPR; EMR; GNR; GNR_D; GRR; SRF]).

(** [checkModel]: the model after canonicalisation, and whether it is supported. *)
Definition checkModel (cpu_family_model : Z) : Z * bool :=
  let m :=
    switch cpu_family_model
      [([NEHALEM], NEHALEM_EP); ([ATOM_2], ATOM); ([HASWELL_ULT; HASWELL_2], HASWELL);
       ([BROADWELL_XEON_E3], BROADWELL); ([ICX_D], ICX); ([CML_1], CML); ([ARL_1], ARL);
       ([ICL_1], ICL); ([TGL_1], TGL); ([ADL_1], ADL); ([RPL_1; RPL_2; RPL_3], RPL)]
      cpu_family_model in
  (m, isCPUModelSupported m).

Definition isCLX (cpu_family_model_ cpu_stepping_ : Z) : bool :=
  (SKX =? cpu_family_model_) && ((4 <? cpu_stepping_) && (cpu_stepping_ <? 8)).

Definition isCPX (cpu_family_model_ cpu_stepping_ : Z) : bool :=
  (SKX =? cpu_family_model_) && (10 <=? cpu_stepping_).

(** * Names and per-model constants *)

Definition cpuFamilyModelToUArchCodename (cpu_family_model_ cpu_stepping_ : Z) : string :=
  switch cpu_family_model_
    [([CENTERTON], "Centerton");
     ([BAYTRAIL], "Baytrail");
     ([AVOTON], "Avoton");
     ([CHERRYTRAIL], "Cherrytrail");
     ([APOLLO_LAKE], "Apollo Lake");
     ([GEMINI_LAKE], "Gemini Lake");
     ([DENVERTON], "Denverton");
     ([SNOWRIDGE], "Snowridge");
     ([ELKHART_LAKE], "Elkhart Lake");
     ([JASPER_LAKE], "Jasper Lake");
     ([NEHALEM_EP; NEHALEM], "Nehalem/Nehalem-EP");
     ([ATOM], "Atom(tm)");
     ([CLARKDALE], "Westmere/Clarkdale");
     ([WESTMERE_EP], "Westmere-EP");
     ([NEHALEM_EX], "Nehalem-EX");
     ([WESTMERE_EX], "Westmere-EX");
     ([SANDY_BRIDGE], "Sandy Bridge");
     ([JAKETOWN], "Sandy Bridge-EP/Jaketown");
     ([IVYTOWN], "Ivy Bridge-EP/EN/EX/Ivytown");
     ([HASWELLX], "Haswell-EP/EN/EX");
     ([BDX_DE], "Broadwell-DE");
     ([BDX], "Broadwell-EP/EX");
     ([KNL], "Knights Landing");
     ([IVY_BRIDGE], "Ivy Bridge");
     ([HASWELL], "Haswell");
     ([BROADWELL], "Broadwell");
     ([SKL], "Skylake");
     ([SKL_UY], "Skylake U/Y");
     ([KBL], "Kabylake");
     ([KBL_1], "Kabylake/Whiskey Lake");
     ([CML], "Comet Lake");
     ([ICL], "Icelake");
     ([RKL], "Rocket Lake");
     ([TGL], "Tiger Lake");
     ([ADL], "Alder Lake");
     ([RPL], "Raptor Lake");
     ([MTL], "Meteor Lake");
     ([LNL], "Lunar Lake");
     ([ARL], "Arrow Lake");
     ([PTL], "Panther Lake");
     ([SKX],
       if cpu_stepping_ <? 0 then "Skylake-SP, Cascade Lake-SP"
       else if isCLX cpu_family_model_ cpu_stepping_ then "Cascade Lake-SP"
       else if isCPX cpu_family_model_ cpu_stepping_ then "Cooper Lake"
       else "Skylake-SP");
     ([ICX], "Icelake-SP");
     ([SPR], "Sapphire Rapids-SP");
     ([EMR], "Emerald Rapids-SP");
     ([GNR], "Granite Rapids");
     ([GNR_D], "Granite Rapids-D");
     ([GRR], "Grand Ridge");
     ([SRF], "Sierra Forest")]
    "unknown".

Close Scope string_scope.
Definition getUArchCodename (this_model this_stepping cpu_family_model_param : Z) : string :=
  if cpu_family_model_param <? 0
  then cpuFamilyModelToUArchCodename this_model this_stepping
  else cpuFamilyModelToUArchCodename cpu_family_model_param (-1).

Definition hasUPI (cpu_family_model_ : Z) : bool :=
  bool_decide (cpu_family_model_ ∈ [SKX; ICX; SPR; EMR; GNR; SRF]).

(** [getMaxIPC]; 0 with a message (and a failed assertion) when unknown. *)
Definition getMaxIPC (cpu_family_model : Z) : Z :=
  if (ICL =? cpu_family_model) || (TGL =? cpu_family_model) || (RKL =? cpu_family_model) then 5
  else
    switch cpu_family_model
      [([ADL; RPL; MTL], 6); ([LNL; ARL; PTL], 12);
       ([SNOWRIDGE; ELKHART_LAKE; JASPER_LAKE], 4); ([DENVERTON], 3);
       ([NEHALEM_EP; WESTMERE_EP; NEHALEM_EX; WESTMERE_EX; CLARKDALE; SANDY_BRIDGE; JAKETOWN;
         IVYTOWN; IVY_BRIDGE; HASWELL; HASWELLX; BROADWELL; BDX_DE; BDX] ++
        PCM_SKL_PATH_CASES ++ [SKX], 4);
       ([KNL], 2); ([ICX], 5); ([SPR; EMR; GNR; GNR_D; GRR; SRF], 6)]
      (if isAtom cpu_family_model then 2 else 0).

Definition getPCUFrequency (cpu_family_model : Z) : Z :=
  switch cpu_family_model
    [([JAKETOWN; IVYTOWN], 800000000); ([HASWELLX; BDX_DE; BDX; KNL], 1000000000);
     ([SKX; ICX; SNOWRIDGE], 1100000000)] 0.

Definition isServerCPU (cpu_family_model : Z) : bool :=
  switch cpu_family_model
    [([NEHALEM_EP; NEHALEM_EX; WESTMERE_EP; WESTMERE_EX; JAKETOWN; IVYTOWN; HASWELLX; BDX;
       BDX_DE; SKX; ICX; SNOWRIDGE; SPR; EMR; GNR; GNR_D; GRR; SRF; KNL], true)] false.

Definition isClientCPU (cpu_family_model : Z) : bool := negb (isServerCPU cpu_family_model).

(** The counts below come from [serverUncorePMUs[0]] when it exists; the argument
    is what its accessor returns then. *)
Definition getQPILinksPerSocket (cpu_family_model num_sockets : Z) (numQPIPorts : option Z) : Z :=
  switch cpu_family_model
    [([NEHALEM_EP; WESTMERE_EP; CLARKDALE], if num_sockets =? 2 then 2 else 1);
     ([NEHALEM_EX; WESTMERE_EX], 4);
     ([JAKETOWN; IVYTOWN; HASWELLX; BDX_DE; BDX; SKX; ICX; SPR; EMR; GNR; GNR_D; GRR; SRF],
      default 0 numQPIPorts)] 0.

Definition getMCPerSocket (cpu_family_model : Z) (numMC : option Z) : Z :=
  switch cpu_family_model
    [([NEHALEM_EP; WESTMERE_EP; CLARKDALE], 1); ([NEHALEM_EX; WESTMERE_EX], 2);
     ([JAKETOWN; IVYTOWN; HASWELLX; BDX_DE; SKX; ICX; SPR; EMR; GNR; GNR_D; GRR; SRF; BDX;
       KNL], default 0 numMC)] 0.

Definition getMCChannelsPerSocket (cpu_family_model : Z) (numMCChannels : option Z) : Z :=
  switch cpu_family_model
    [([NEHALEM_EP; WESTMERE_EP; CLARKDALE], 3); ([NEHALEM_EX; WESTMERE_EX], 4);
     ([JAKETOWN; IVYTOWN; HASWELLX; BDX_DE; SKX; ICX; SPR; EMR; GNR; GNR_D; GRR; SRF; BDX;
       KNL; SNOWRIDGE], default 0 numMCChannels)] 0.

(** * C-state residency MSRs ([initCStateSupportTables]) *)

Definition MAX_C_STATE : Z := 10.

(** The switch over package C-states; [None] is the default branch, which prints
    an error and installs the all-zero table. *)
Definition pkgCStateMsr_case (cpu_family_model : Z) : option (list Z) :=
  switch cpu_family_model
    [([ATOM; ATOM_2; CENTERTON; AVOTON; BAYTRAIL; CHERRYTRAIL; APOLLO_LAKE; GEMINI_LAKE;
       DENVERTON; ADL; RPL; MTL; LNL; ARL; PTL; SNOWRIDGE; ELKHART_LAKE; JASPER_LAKE],
      Some [0; 0; 0x3F8; 0; 0x3F9; 0; 0x3FA; 0; 0; 0; 0]);
     ([NEHALEM_EP; NEHALEM; CLARKDALE; WESTMERE_EP; NEHALEM_EX; WESTMERE_EX],
      Some [0; 0; 0; 0x3F8; 0; 0; 0x3F9; 0x3FA; 0; 0; 0]);
     ([SANDY_BRIDGE; JAKETOWN; IVY_BRIDGE; IVYTOWN],
      Some [0; 0; 0x60D; 0x3F8; 0; 0; 0x3F9; 0x3FA; 0; 0; 0]);
     ([HASWELL; HASWELL_2; HASWELLX; BDX_DE; BDX; KNL],
      Some [0; 0; 0x60D; 0x3F8; 0; 0; 0x3F9; 0x3FA; 0; 0; 0]);
     ([SKX; ICX; SPR; EMR; GNR; GNR_D; GRR; SRF],
      Some [0; 0; 0x60D; 0; 0; 0; 0x3F9; 0; 0; 0; 0]);
     ([HASWELL_ULT; BROADWELL] ++ PCM_SKL_PATH_CASES ++ [BROADWELL_XEON_E3],
      Some [0; 0; 0x60D; 0x3F8; 0; 0; 0x3F9; 0x3FA; 0x630; 0x631; 0x632])]
    None.

Definition coreCStateMsr_case (cpu_family_model : Z) : option (list Z) :=
  switch cpu_family_model
    [([ATOM; ATOM_2; CENTERTON], Some [0; 0; 0; 0; 0; 0; 0; 0; 0; 0; 0]);
     ([NEHALEM_EP; NEHALEM; CLARKDALE; WESTMERE_EP; NEHALEM_EX; WESTMERE_EX],
      Some [0; 0; 0; 0x3FC; 0; 0; 0x3FD; 0; 0; 0; 0]);
     ([SANDY_BRIDGE; JAKETOWN; IVY_BRIDGE; IVYTOWN; HASWELL; HASWELL_2; HASWELL_ULT; HASWELLX;
       BDX_DE; BDX; BROADWELL; BROADWELL_XEON_E3; BAYTRAIL; AVOTON; CHERRYTRAIL; APOLLO_LAKE;
       GEMINI_LAKE; DENVERTON] ++ PCM_SKL_PATH_CASES ++
      [ADL; RPL; MTL; LNL; ARL; PTL; SNOWRIDGE; ELKHART_LAKE; JASPER_LAKE; ICX; SPR; EMR; GNR;
       GNR_D; GRR; SRF],
      Some [0; 0; 0; 0x3FC; 0; 0; 0x3FD; 0x3FE; 0; 0; 0]);
     ([KNL], Some [0; 0; 0; 0; 0; 0; 0x3FF; 0; 0; 0; 0]);
     ([SKX], Some [0; 0; 0; 0; 0; 0; 0x3FD; 0; 0; 0; 0])]
    None.

Definition no_c_states : list Z := [0; 0; 0; 0; 0; 0; 0; 0; 0; 0; 0].

(** [(pkgCStateMsr, coreCStateMsr)] after the call. *)
Definition initCStateSupportTables (cpu_family_model : Z) : list Z * list Z :=
  (default no_c_states (pkgCStateMsr_case cpu_family_model),
   default no_c_states (coreCStateMsr_case cpu_family_model)).

Definition isCoreCStateResidencySupported (coreCStateMsr : option (list Z)) (state : Z) : bool :=
  if (state =? 0) || (state =? 1) then true
  else match coreCStateMsr with
       | None => false
       | Some t => (state <=? MAX_C_STATE) && negb (nth (Z.to_nat state) t 0 =? 0)
       end.

Definition isPackageCStateResidencySupported (pkgCStateMsr : option (list Z)) (state : Z) : bool :=
  if state =? 0 then true
  else match pkgCStateMsr with
       | None => false
       | Some t => (state <=? MAX_C_STATE) && negb (nth (Z.to_nat state) t 0 =? 0)
       end.

(** * MSR addresses of the CBo/CHA boxes *)

Definition ICX_CHA_MSR_PMON_BOX_CTL : list Z :=
  [0x0E00; 0x0E0E; 0x0E1C; 0x0E2A; 0x0E38; 0x0E46; 0x0E54; 0x0E62; 0x0E70; 0x0E7E; 0x0E8C; 0x0E9A;
   0x0EA8; 0x0EB6; 0x0EC4; 0x0ED2; 0x0EE0; 0x0EEE; 0x0F0A; 0x0F18; 0x0F26; 0x0F34; 0x0F42; 0x0F50;
   0x0F5E; 0x0F6C; 0x0F7A; 0x0F88; 0x0F96; 0x0FA4; 0x0FB2; 0x0FC0; 0x0FCE; 0x0FDC; 0x0B60; 0x0B6E;
   0x0B7C; 0x0B8A; 0x0B98; 0x0BA6; 0x0BB4; 0x0BC2].

Definition SNR_CHA_MSR_PMON_BOX_CTL : list Z := [0x1C00; 0x1C10; 0x1C20; 0x1C30; 0x1C40; 0x1C50].

Definition CX_MSR_PMON_BOX_CTL (cpu_family_model Cbo : Z) : Z :=
  switch cpu_family_model
    [([JAKETOWN; IVYTOWN], u32 (0x0D04 + 0x0020 * Cbo));
     ([HASWELLX; BDX_DE; BDX; SKX], u32 (0x0E00 + 0x0010 * Cbo));
     ([KNL], u32 (0x0E00 + 0x000C * Cbo));
     ([ICX], nth (Z.to_nat Cbo) ICX_CHA_MSR_PMON_BOX_CTL 0);
     ([SPR; EMR; GNR; GNR_D; GRR; SRF], u32 (0x2000 + 0x10 * Cbo));
     ([SNOWRIDGE], nth (Z.to_nat Cbo) SNR_CHA_MSR_PMON_BOX_CTL 0)]
    0.

Definition CX_MSR_PMON_CTRY (cpu_family_model Cbo Ctr : Z) : Z :=
  switch cpu_family_model
    [([JAKETOWN; IVYTOWN], u32 (0x0D16 + 0x0020 * Cbo + Ctr));
     ([HASWELLX; BDX_DE; BDX; SKX], u32 (0x0E08 + 0x0010 * Cbo + Ctr));
     ([ICX; SNOWRIDGE], CX_MSR_PMON_BOX_CTL cpu_family_model Cbo + 8 + Ctr);
     ([SPR; EMR; GNR; GNR_D; GRR; SRF], u32 (0x2008 + 0x10 * Cbo + Ctr))]
    0.

Definition CX_MSR_PMON_CTLY (cpu_family_model Cbo Ctl : Z) : Z :=
  switch cpu_family_model
    [([JAKETOWN; IVYTOWN], u32 (0x0D10 + 0x0020 * Cbo + Ctl));
     ([HASWELLX; BDX_DE; BDX; SKX], u32 (0x0E01 + 0x0010 * Cbo + Ctl));
     ([ICX; SNOWRIDGE], CX_MSR_PMON_BOX_CTL cpu_family_model Cbo + 1 + Ctl);
     ([SPR; EMR; GNR; GNR_D; GRR; SRF], u32 (0x2002 + 0x10 * Cbo + Ctl))]
    0.

Definition CX_MSR_PMON_BOX_FILTER (cpu_family_model Cbo : Z) : Z :=
  switch cpu_family_model
    [([JAKETOWN; IVYTOWN], u32 (0x0D14 + 0x0020 * Cbo));
     ([HASWELLX; BDX_DE; BDX; SKX], u32 (0x0E05 + 0x0010 * Cbo));
     ([KNL], u32 (0x0E05 + 0x000C * Cbo));
     ([ICX], CX_MSR_PMON_BOX_CTL cpu_family_model Cbo + 5);
     ([SPR; EMR; GNR; GNR_D; GRR; SRF], u32 (0x200E + 0x10 * Cbo))]
    0.

Definition CX_MSR_PMON_BOX_FILTER1 (cpu_family_model Cbo : Z) : Z :=
  switch cpu_family_model
    [([IVYTOWN], u32 (0x0D1A + 0x0020 * Cbo));
     ([HASWELLX; BDX_DE; BDX; SKX], u32 (0x0E06 + 0x0010 * Cbo))]
    0.

(** [weight32]: Kernighan's bit count; the fuel bounds the number of iterations. *)
Fixpoint weight32_loop (fuel : nat) (n count : Z) : Z :=
  match fuel with
  | O => count
  | S f => if n =? 0 then count else weight32_loop f (Z.land n (n - 1)) (count + 1)
  end.
Definition weight32 (n : Z) : Z := weight32_loop 33 n 0.

(** [getMaxNumOfCBoxesInternal] at its first call, on a build with Linux perf.
    The arguments are what the code reads: the MSR of the reference core, the
    two registers of PCI device 0x325b ([Ok None] when there is no such device,
    [Throw] when opening it throws), the physical cores per socket, and the
    number of perf PMUs of types cbox and cha. *)
Definition getMaxNumOfCBoxesInternal (cpu_family_model msr_val : Z)
    (pci_325b : res (option (Z * Z))) (num_phys_cores_per_socket perf_cbox perf_cha : Z)
    : Z * bool :=
  let '(num, based_on_core_count) :=
    switch cpu_family_model
      [([GRR; GNR; GNR_D; SRF], (Z.land msr_val 511, false));
       ([SPR; EMR],
        (match pci_325b with
         | Ok (Some (v1, v2)) => weight32 v1 + weight32 v2
         | Ok None => 0
         | Throw _ => -1
         end, false));
       ([KNL; SKX; ICX], (Z.land msr_val 63, false));
       ([SNOWRIDGE], (num_phys_cores_per_socket / 4, true))]
      (num_phys_cores_per_socket, true) in
  let num := if num <=? 0 then perf_cbox else num in
  let num := if num <=? 0 then perf_cha else num in
  (num, based_on_core_count).

(** * Properties *)

Lemma switch_default {A} m (cases : list (list Z * A)) d :
  Forall (fun c => m ∉ c.1) cases -> switch m cases d = d.
Proof.
  induction 1 as [|[labels a] cases Hm _ IH]; [done|]; simpl in *.
  by rewrite bool_decide_eq_false_2.
Qed.

Lemma not_elem_subset (m : Z) (l big : list Z) :
  forallb (fun x => bool_decide (x ∈ big)) l = true -> m ∉ big -> m ∉ l.
Proof.
  rewrite forallb_forall. intros Hsub Hm Hin. apply Hm.
  apply (bool_decide_eq_true_1 _ (Hsub m (proj1 (list_elem_of_In _ _) Hin))).
Qed.

Lemma forall_models (P : Z -> bool) m :
  forallb P all_models = true -> m ∈ all_models -> P m = true.
Proof. rewrite forallb_forall. intros HP Hm. by apply HP, list_elem_of_In. Qed.

Lemma checkModel_unknown m : m ∉ all_models -> checkModel m = (m, false).
Proof.
  intros Hm. unfold checkModel. rewrite switch_default.
  - f_equal. unfold isCPUModelSupported, isAtom.
    rewrite !bool_decide_eq_false_2; [done|..];
      (apply (not_elem_subset m _ all_models); [vm_compute; reflexivity|done]).
  - repeat constructor; simpl; apply (not_elem_subset m _ all_models);
      (vm_compute; reflexivity) || done.
Qed.

Lemma codename_known c stepping :
  c ∈ all_models -> (checkModel c).1 = c ->
  cpuFamilyModelToUArchCodename c stepping <> "unknown".
Proof.
  intros Hc%list_elem_of_In. unfold all_models in Hc.
  repeat (destruct Hc as [<-|Hc];
    [intros Hfix H; vm_compute in Hfix; (congruence ||
      (vm_compute in H; repeat case_match; discriminate))|]).
  destruct Hc.
Qed.

Definition canonical_ok (c : Z) : bool :=
  bool_decide (checkModel c = (c, true)) && bool_decide (c ∈ all_models) && (0 <? getMaxIPC c) &&
  bool_decide (is_Some (pkgCStateMsr_case c)) && bool_decide (is_Some (coreCStateMsr_case c)) &&
  bool_decide (Forall (fun t => length t = S (Z.to_nat MAX_C_STATE) /\
                                NoDup (filter (fun x => x <> 0) t))
    [(initCStateSupportTables c).1; (initCStateSupportTables c).2]).

(** [checkModel] accepts exactly the models of [SupportedCPUModels]; the
    accepted model is canonical (a second call changes nothing) and has a code
    name, a positive instruction width, and C-state tables of [MAX_C_STATE + 1]
    entries of which no two non-zero ones coincide, so no error branch of those
    switches is reachable after a successful check. *)
Theorem checkModel_complete m :
  ((checkModel m).2 = true <-> m ∈ all_models) /\
  (forall stepping, (checkModel m).2 = true ->
   let c := (checkModel m).1 in
   checkModel c = (c, true) /\
   cpuFamilyModelToUArchCodename c stepping <> "unknown" /\
   0 < getMaxIPC c /\
   is_Some (pkgCStateMsr_case c) /\ is_Some (coreCStateMsr_case c) /\
   Forall (fun t => length t = S (Z.to_nat MAX_C_STATE) /\
                    NoDup (filter (fun x => x <> 0) t))
     [(initCStateSupportTables c).1; (initCStateSupportTables c).2]).
Proof.
  assert (m ∈ all_models -> (checkModel m).2 = true) as Hyes.
  { apply (forall_models (fun m => (checkModel m).2)). vm_compute. reflexivity. }
  assert ((checkModel m).2 = true -> m ∈ all_models) as Hin.
  { intros Hok. destruct (decide (m ∈ all_models)); [done|].
    by rewrite checkModel_unknown in Hok. }
  split; [done|]. intros stepping Hm%Hin. cbv zeta.
  assert (canonical_ok (checkModel m).1 = true) as Hok.
  { revert Hm. apply (forall_models (fun m => canonical_ok (checkModel m).1)).
    vm_compute. reflexivity. }
  unfold canonical_ok in Hok. rewrite !andb_true_iff, !bool_decide_eq_true, Z.ltb_lt in Hok.
  destruct Hok as (((((H1 & H2) & H3) & H4) & H5) & H6).
  split_and!; try done. apply codename_known; [done|]. by rewrite H1.
Qed.

Lemma checkModel_complete_witness :
  (checkModel RPL_2).2 = true /\ cpuFamilyModelToUArchCodename (checkModel RPL_2).1 3 <> "unknown".
Proof.
  destruct (checkModel_complete RPL_2) as [_ H].
  assert ((checkModel RPL_2).2 = true) as Hs by (vm_compute; reflexivity).
  split; [exact Hs|]. exact (proj1 (proj2 (H 3 Hs))).
Defined.

(** ** CBo register addresses *)

(** How many boxes have addresses: the array bound of the two table-driven
    models, and otherwise the largest count [getMaxNumOfCBoxesInternal] reads. *)
Definition cbo_bound (m : Z) : Z :=
  switch m [([ICX], Z.of_nat (length ICX_CHA_MSR_PMON_BOX_CTL));
            ([SNOWRIDGE], Z.of_nat (length SNR_CHA_MSR_PMON_BOX_CTL))] 512.

(** The registers of one box; an absent one has address 0. *)
Inductive cbo_register := BoxCtl | Ctl (n : Z) | Ctr (n : Z) | Filter0 | Filter1.

Definition cbo_register_ok (r : cbo_register) : Prop :=
  match r with Ctl n | Ctr n => 0 <= n < 4 | _ => True end.

Definition cbo_address (m Cbo : Z) (r : cbo_register) : Z :=
  match r with
  | BoxCtl => CX_MSR_PMON_BOX_CTL m Cbo
  | Ctl n => CX_MSR_PMON_CTLY m Cbo n
  | Ctr n => CX_MSR_PMON_CTRY m Cbo n
  | Filter0 => CX_MSR_PMON_BOX_FILTER m Cbo
  | Filter1 => CX_MSR_PMON_BOX_FILTER1 m Cbo
  end.

(** A family whose box [c] occupies [step] addresses from [base + step * c];
    [off] is the position of a register in its box. *)
Definition linear_family (m base step : Z) (off : cbo_register -> Z) : Prop :=
  forall c r, 0 <= c < 512 -> cbo_register_ok r -> cbo_address m c r <> 0 ->
  cbo_address m c r = base + step * c + off r /\ 0 <= off r < step.

Definition off_injective (off : cbo_register -> Z) : Prop :=
  forall r1 r2, cbo_register_ok r1 -> cbo_register_ok r2 -> off r1 = off r2 -> r1 = r2.

Definition jkt_off (r : cbo_register) : Z :=
  match r with BoxCtl => 4 | Ctl n => 0x10 + n | Ctr n => 0x16 + n | Filter0 => 0x14
             | Filter1 => 0x1A end.
Definition hsx_off (r : cbo_register) : Z :=
  match r with BoxCtl => 0 | Ctl n => 1 + n | Ctr n => 8 + n | Filter0 => 5 | Filter1 => 6 end.
Definition spr_off (r : cbo_register) : Z :=
  match r with BoxCtl => 0 | Ctl n => 2 + n | Ctr n => 8 + n | Filter0 => 14 | Filter1 => 15 end.

Ltac solve_off := intros [] []; simpl; intros; try f_equal; lia.
Lemma jkt_off_injective : off_injective jkt_off. Proof. solve_off. Qed.
Lemma hsx_off_injective : off_injective hsx_off. Proof. solve_off. Qed.
Lemma spr_off_injective : off_injective spr_off. Proof. solve_off. Qed.

Lemma linear_JKT m : m ∈ [JAKETOWN; IVYTOWN] -> linear_family m 0xD00 0x20 jkt_off.
Proof.
  intros Hm c r Hc Hr Hne.
  assert (cbo_address m c r =
    match r with BoxCtl => u32 (0x0D04 + 0x20 * c) | Ctl n => u32 (0x0D10 + 0x20 * c + n)
    | Ctr n => u32 (0x0D16 + 0x20 * c + n) | Filter0 => u32 (0x0D14 + 0x20 * c)
    | Filter1 => if m =? IVYTOWN then u32 (0x0D1A + 0x20 * c) else 0 end) as E.
  { apply list_elem_of_In in Hm. by repeat (destruct Hm as [<-|Hm]; [destruct r; reflexivity|]). }
  revert Hne. rewrite E. intros Hne.
  destruct r; simpl in *; try (destruct (_ =? _); [|done]);
    rewrite wrapN_small by (unfold fits; lia); lia.
Qed.

Lemma linear_HSX m : m ∈ [HASWELLX; BDX_DE; BDX; SKX] -> linear_family m 0xE00 0x10 hsx_off.
Proof.
  intros Hm c r Hc Hr Hne.
  assert (cbo_address m c r =
    match r with BoxCtl => u32 (0x0E00 + 0x10 * c) | Ctl n => u32 (0x0E01 + 0x10 * c + n)
    | Ctr n => u32 (0x0E08 + 0x10 * c + n) | Filter0 => u32 (0x0E05 + 0x10 * c)
    | Filter1 => u32 (0x0E06 + 0x10 * c) end) as E.
  { apply list_elem_of_In in Hm. by repeat (destruct Hm as [<-|Hm]; [destruct r; reflexivity|]). }
  rewrite E. destruct r; simpl in *; rewrite wrapN_small by (unfold fits; lia); lia.
Qed.

Lemma linear_KNL : linear_family KNL 0xE00 0xC hsx_off.
Proof.
  intros c r Hc Hr Hne.
  assert (cbo_address KNL c r =
    match r with BoxCtl => u32 (0x0E00 + 0xC * c) | Filter0 => u32 (0x0E05 + 0xC * c)
    | _ => 0 end) as E by (destruct r; reflexivity).
  revert Hne. rewrite E. intros Hne.
  destruct r; simpl in *; try done; rewrite wrapN_small by (unfold fits; lia); lia.
Qed.

Lemma linear_SPR m :
  m ∈ [SPR; EMR; GNR; GNR_D; GRR; SRF] -> linear_family m 0x2000 0x10 spr_off.
Proof.
  intros Hm c r Hc Hr Hne.
  assert (cbo_address m c r =
    match r with BoxCtl => u32 (0x2000 + 0x10 * c) | Ctl n => u32 (0x2002 + 0x10 * c + n)
    | Ctr n => u32 (0x2008 + 0x10 * c + n) | Filter0 => u32 (0x200E + 0x10 * c)
    | Filter1 => 0 end) as E.
  { apply list_elem_of_In in Hm. by repeat (destruct Hm as [<-|Hm]; [destruct r; reflexivity|]). }
  revert Hne. rewrite E. intros Hne.
  destruct r; simpl in *; try done; rewrite wrapN_small by (unfold fits; lia); lia.
Qed.

Lemma linear_disjoint m base step off c1 c2 r1 r2 :
  linear_family m base step off -> off_injective off ->
  0 <= c1 < 512 -> 0 <= c2 < 512 -> cbo_register_ok r1 -> cbo_register_ok r2 ->
  cbo_address m c1 r1 <> 0 -> cbo_address m c1 r1 = cbo_address m c2 r2 ->
  c1 = c2 /\ r1 = r2.
Proof.
  intros Hlin Hinj Hc1 Hc2 Hr1 Hr2 Hne Heq.
  destruct (Hlin c1 r1) as [E1 B1]; [done..|].
  destruct (Hlin c2 r2) as [E2 B2]; [done|done|congruence|].
  assert (c1 = c2) as -> by nia. split; [done|]. apply Hinj; [done..|lia].
Qed.

(** The two models with an address table: entries at least [gap] apart. *)
Definition spaced (gap : Z) (t : list Z) : bool :=
  forallb (fun i => forallb (fun j => (i =? j)%nat || (gap <=? Z.abs (nth i t 0 - nth j t 0)))
    (seq 0 (length t))) (seq 0 (length t)).

Lemma spaced_spec gap t i j :
  spaced gap t = true -> (i < length t)%nat -> (j < length t)%nat -> i <> j ->
  gap <= Z.abs (nth i t 0 - nth j t 0).
Proof.
  unfold spaced. rewrite forallb_forall. intros H Hi Hj Hne.
  specialize (H i). rewrite forallb_forall in H.
  specialize (H ltac:(apply in_seq; lia) j ltac:(apply in_seq; lia)).
  apply orb_true_iff in H as [?%Nat.eqb_eq|?%Z.leb_le]; [done|lia].
Qed.

Lemma table_disjoint m t c1 c2 r1 r2 :
  (forall c r, cbo_address m c r <> 0 -> cbo_register_ok r ->
     cbo_address m c r = nth (Z.to_nat c) t 0 + hsx_off r) ->
  spaced 12 t = true ->
  0 <= c1 < Z.of_nat (length t) -> 0 <= c2 < Z.of_nat (length t) ->
  cbo_register_ok r1 -> cbo_register_ok r2 ->
  cbo_address m c1 r1 <> 0 -> cbo_address m c1 r1 = cbo_address m c2 r2 ->
  c1 = c2 /\ r1 = r2.
Proof.
  intros Hadr Hsp Hc1 Hc2 Hr1 Hr2 Hne Heq.
  pose proof (Hadr c1 r1 Hne Hr1) as E1. rewrite Heq in Hne. pose proof (Hadr c2 r2 Hne Hr2) as E2.
  assert (0 <= hsx_off r1 < 12 /\ 0 <= hsx_off r2 < 12) by (destruct r1, r2; simpl in *; lia).
  destruct (decide (c1 = c2)) as [->|Hc].
  - split; [done|]. apply hsx_off_injective; [done..|lia].
  - pose proof (spaced_spec 12 t (Z.to_nat c1) (Z.to_nat c2) Hsp). lia.
Qed.

Definition cbo_models : list Z :=
  [JAKETOWN; IVYTOWN] ++ [HASWELLX; BDX_DE; BDX; SKX] ++ [KNL] ++
  [SPR; EMR; GNR; GNR_D; GRR; SRF] ++ [ICX; SNOWRIDGE].

(** On every model with CBo/CHA boxes, no two registers of the addressing
    functions share an MSR: an address determines its box and its role (control
    or counter and its number, box control, filter). *)
Theorem cbo_addresses_disjoint m c1 c2 r1 r2 :
  m ∈ cbo_models -> 0 <= c1 < cbo_bound m -> 0 <= c2 < cbo_bound m ->
  cbo_register_ok r1 -> cbo_register_ok r2 ->
  cbo_address m c1 r1 <> 0 -> cbo_address m c1 r1 = cbo_address m c2 r2 ->
  c1 = c2 /\ r1 = r2.
Proof.
  unfold cbo_models. rewrite !elem_of_app. intros [Hm|[Hm|[Hm|[Hm|Hm]]]] Hc1 Hc2.
  - assert (cbo_bound m = 512) as Hb.
    { apply list_elem_of_In in Hm. by repeat (destruct Hm as [<-|Hm]; [reflexivity|]). }
    rewrite Hb in *. by apply (linear_disjoint _ _ _ _ _ _ _ _ (linear_JKT m Hm) jkt_off_injective).
  - assert (cbo_bound m = 512) as Hb.
    { apply list_elem_of_In in Hm. by repeat (destruct Hm as [<-|Hm]; [reflexivity|]). }
    rewrite Hb in *. by apply (linear_disjoint _ _ _ _ _ _ _ _ (linear_HSX m Hm) hsx_off_injective).
  - apply list_elem_of_singleton in Hm as ->. change (cbo_bound KNL) with 512 in *.
    by apply (linear_disjoint _ _ _ _ _ _ _ _ linear_KNL hsx_off_injective).
  - assert (cbo_bound m = 512) as Hb.
    { apply list_elem_of_In in Hm. by repeat (destruct Hm as [<-|Hm]; [reflexivity|]). }
    rewrite Hb in *. by apply (linear_disjoint _ _ _ _ _ _ _ _ (linear_SPR m Hm) spr_off_injective).
  - apply elem_of_cons in Hm as [->|[->|[]%not_elem_of_nil]%elem_of_cons].
    + apply (table_disjoint ICX ICX_CHA_MSR_PMON_BOX_CTL); [|vm_compute; reflexivity|done..].
      intros c [] Hne Hr; try (by exfalso; apply Hne; reflexivity);
        unfold cbo_address; cbn [hsx_off]; rewrite ?Z.add_0_r; try reflexivity.
      * change (CX_MSR_PMON_CTLY ICX c n)
          with (nth (Z.to_nat c) ICX_CHA_MSR_PMON_BOX_CTL 0 + 1 + n). lia.
      * change (CX_MSR_PMON_CTRY ICX c n)
          with (nth (Z.to_nat c) ICX_CHA_MSR_PMON_BOX_CTL 0 + 8 + n). lia.
    + apply (table_disjoint SNOWRIDGE SNR_CHA_MSR_PMON_BOX_CTL); [|vm_compute; reflexivity|done..].
      intros c [] Hne Hr; try (by exfalso; apply Hne; reflexivity);
        unfold cbo_address; cbn [hsx_off]; rewrite ?Z.add_0_r; try reflexivity.
      * change (CX_MSR_PMON_CTLY SNOWRIDGE c n)
          with (nth (Z.to_nat c) SNR_CHA_MSR_PMON_BOX_CTL 0 + 1 + n). lia.
      * change (CX_MSR_PMON_CTRY SNOWRIDGE c n)
          with (nth (Z.to_nat c) SNR_CHA_MSR_PMON_BOX_CTL 0 + 8 + n). lia.
Qed.

Lemma cbo_addresses_disjoint_witness :
  cbo_address ICX 17 (Ctr 3) = 0x0EF9 /\ cbo_address ICX 17 (Ctr 3) <> cbo_address ICX 16 (Ctr 3).
Proof.
  split; [vm_compute; reflexivity|]. intros H.
  destruct (cbo_addresses_disjoint ICX 17 16 (Ctr 3) (Ctr 3)) as [Hc _]; [| | | | | |exact H|].
  - apply list_elem_of_In. vm_compute. tauto.
  - vm_compute; split; [discriminate|reflexivity].
  - vm_compute; split; [discriminate|reflexivity].
  - vm_compute; split; [discriminate|reflexivity].
  - vm_compute; split; [discriminate|reflexivity].
  - vm_compute; discriminate.
  - discriminate Hc.
Defined.

(** ** [weight32] *)

(** The number of ones among the lowest [w] bits. *)
Definition bit_count (w : nat) (n : Z) : Z :=
  foldr Z.add 0 (map (fun i => Z.b2z (Z.testbit n (Z.of_nat i))) (seq 0 w)).

Fixpoint pop (p : positive) : nat :=
  match p with xH => 1 | xO p => pop p | xI p => S (pop p) end.

Definition popZ (n : Z) : Z := match n with Zpos p => Z.of_nat (pop p) | _ => 0 end.

Lemma popZ_even a : popZ (2 * a) = popZ a.
Proof. by destruct a. Qed.

Lemma popZ_odd a : 0 <= a -> popZ (2 * a + 1) = 1 + popZ a.
Proof.
  intros Ha. destruct a as [|p|p]; [done| |lia].
  change (Z.of_nat (S (pop p)) = 1 + Z.of_nat (pop p)). lia.
Qed.

Lemma land_odd_pred a : Z.land (2 * a + 1) (2 * a) = 2 * a.
Proof.
  apply Z.bits_inj'. intros i Hi. rewrite Z.land_spec.
  destruct (Z.eq_dec i 0) as [->|]; [by rewrite Z.testbit_even_0, andb_false_r|].
  replace i with (Z.succ (i - 1)) by lia.
  rewrite Z.testbit_odd_succ, Z.testbit_even_succ by lia. apply andb_diag.
Qed.

Lemma land_even_pred a : Z.land (2 * a) (2 * a - 1) = 2 * Z.land a (a - 1).
Proof.
  replace (2 * a - 1) with (2 * (a - 1) + 1) by lia.
  apply Z.bits_inj'. intros i Hi. rewrite Z.land_spec.
  destruct (Z.eq_dec i 0) as [->|]; [by rewrite !Z.testbit_even_0|].
  replace i with (Z.succ (i - 1)) by lia.
  by rewrite Z.testbit_odd_succ, !Z.testbit_even_succ, Z.land_spec by lia.
Qed.

(** One iteration clears exactly one set bit. *)
Lemma land_pred_pop n : 0 < n ->
  0 <= Z.land n (n - 1) < n /\ popZ (Z.land n (n - 1)) + 1 = popZ n.
Proof.
  intros Hn. destruct n as [|p|]; [lia| |lia]. clear Hn.
  induction p as [p IH|p IH|].
  - change (Zpos p~1) with (2 * Zpos p + 1).
    replace (2 * Zpos p + 1 - 1) with (2 * Zpos p) by lia.
    rewrite land_odd_pred, popZ_even, popZ_odd by lia. lia.
  - change (Zpos p~0) with (2 * Zpos p).
    rewrite land_even_pred, !popZ_even. lia.
  - change (0 <= 0 < 1 /\ 0 + 1 = 1). lia.
Qed.

Lemma weight32_loop_pop fuel n count :
  0 <= n -> popZ n < Z.of_nat fuel -> weight32_loop fuel n count = count + popZ n.
Proof.
  revert n count. induction fuel as [|fuel IH]; intros n count Hn Hf; simpl weight32_loop.
  - destruct n; simpl in *; lia.
  - destruct (Z.eqb_spec n 0) as [->|]; [simpl; lia|].
    pose proof (land_pred_pop n). rewrite IH by lia. lia.
Qed.

Lemma bit_count_S w n :
  bit_count (S w) n = Z.b2z (Z.odd n) + bit_count w (Z.div2 n).
Proof.
  unfold bit_count. cbn [seq map foldr]. rewrite Z.bit0_odd. f_equal.
  rewrite <- seq_shift, map_map. f_equal. apply map_ext. intros i.
  by rewrite Nat2Z.inj_succ, Z.div2_spec, Z.shiftr_spec, Z.add_1_r by lia.
Qed.

Lemma popZ_bit_count w n : fits (Z.of_nat w) n -> popZ n = bit_count w n.
Proof.
  revert n. induction w as [|w IH]; intros n Hn.
  - unfold fits in Hn. change (2 ^ Z.of_nat 0) with 1 in Hn.
    assert (n = 0) as -> by lia. done.
  - rewrite bit_count_S. pose proof (Z.div2_odd n) as Hd.
    assert (fits (Z.of_nat w) (Z.div2 n)).
    { unfold fits in *. rewrite Nat2Z.inj_succ, Z.pow_succ_r in Hn by lia.
      destruct (Z.odd n); simpl in *; lia. }
    rewrite <- IH by done. rewrite Hd at 1. unfold fits in *.
    destruct (Z.odd n); simpl Z.b2z; [rewrite popZ_odd by lia|rewrite Z.add_0_r, popZ_even]; lia.
Qed.

Lemma bit_count_bounds w n : 0 <= bit_count w n <= Z.of_nat w.
Proof.
  revert n. induction w as [|w IH]; intros n; [done|].
  rewrite bit_count_S. specialize (IH (Z.div2 n)). destruct (Z.odd n); simpl Z.b2z; lia.
Qed.

(** Clearing the lowest set bit until zero counts the set bits of a 32-bit
    word: [weight32] terminates within 33 tests and returns their number. *)
Theorem weight32_counts_bits n : fits 32 n -> weight32 n = bit_count 32 n.
Proof.
  intros Hn. rewrite <- (popZ_bit_count 32 n Hn). unfold weight32.
  rewrite weight32_loop_pop; [lia|unfold fits in Hn; lia|].
  rewrite (popZ_bit_count 32 n Hn). pose proof (bit_count_bounds 32 n). lia.
Qed.

Lemma weight32_counts_bits_witness : weight32 0xF0F00001 = bit_count 32 0xF0F00001.
Proof. apply weight32_counts_bits. unfold fits; lia. Defined.

(** On the models whose CBo count is read from hardware, the count is below
    the number of boxes that have disjoint addresses; on SPR and EMR it is the
    number of bits set in the two mask registers, and never fewer than those. *)
Theorem max_cboxes_bounded m msr_val v1 v2 cores cbox cha :
  m ∈ [GRR; GNR; GNR_D; SRF; SPR; EMR; KNL; SKX; ICX] ->
  fits 32 v1 -> fits 32 v2 -> 0 <= cbox <= 100 -> 0 <= cha <= 100 ->
  let n := (getMaxNumOfCBoxesInternal m msr_val (Ok (Some (v1, v2))) cores cbox cha).1 in
  0 <= n < 512 /\
  (m = SPR \/ m = EMR -> 0 < bit_count 32 v1 + bit_count 32 v2 ->
   n = bit_count 32 v1 + bit_count 32 v2).
Proof.
  intros Hm Hv1 Hv2 Hb Ha. cbv zeta.
  assert (exists b, (getMaxNumOfCBoxesInternal m msr_val (Ok (Some (v1, v2))) cores cbox cha).1 =
    (let num := if b <=? 0 then cbox else b in if num <=? 0 then cha else num) /\
    0 <= b < 512 /\ (m = SPR \/ m = EMR -> b = bit_count 32 v1 + bit_count 32 v2))
    as (b & -> & Hbnd & Hspr).
  { pose proof (bit_count_bounds 32 v1). pose proof (bit_count_bounds 32 v2).
    pose proof (wrapN_fits 9 msr_val) as H9. pose proof (wrapN_fits 6 msr_val) as H6.
    unfold fits in H9, H6. rewrite <- !fits_land_ones in H9, H6 by lia.
    apply list_elem_of_In in Hm.
    repeat (destruct Hm as [<-|Hm]; [eexists; split; [reflexivity|];
      rewrite ?weight32_counts_bits by done; split;
      [first [exact (H9 ltac:(lia)) | lia
             | change 63 with (Z.ones 6); pose proof (H6 ltac:(lia)); lia]
      |intros [E|E]; first [discriminate E|reflexivity]]|]).
    destruct Hm. }
  split; [|intros Hm'%Hspr Hpos]; simpl;
    destruct (Z.leb_spec b 0); destruct (Z.leb_spec cbox 0);
    try destruct (Z.leb_spec b 0); lia.
Qed.

Lemma max_cboxes_bounded_witness :
  (getMaxNumOfCBoxesInternal SPR 0 (Ok (Some (0xFF, 0x3))) 0 0 0).1 = 10.
Proof.
  destruct (max_cboxes_bounded SPR 0 0xFF 0x3 0 0 0) as [_ H].
  - apply list_elem_of_In. vm_compute. tauto.
  - unfold fits; lia.
  - unfold fits; lia.
  - lia.
  - lia.
  - rewrite H; [vm_compute; reflexivity|by left|vm_compute; reflexivity].
Defined.
