(* ===== verification/Capabilities.v ===== *)
(** What the library offers on each CPU model: the [...MetricsAvailable], [has...]
    predicates of class [PCM] in [src/src/cpucounters.h] (lines 2569-3000).

    Each predicate takes the members of [PCM] it reads: the canonical model left by
    [checkModel], the stepping, the number of sockets. *)

From S2P Require Import Prelude CpuModels.
Local Open Scope Z_scope.

(** [cpu_family_model == A || cpu_family_model == B || ...] *)
Definition is_one_of (cpu_family_model : Z) (models : list Z) : bool :=
  bool_decide (cpu_family_model ∈ models).

Definition memoryEventErrata (cpu_family_model : Z) : bool :=
  switch cpu_family_model
    [([SANDY_BRIDGE; JAKETOWN; IVYTOWN; IVY_BRIDGE; HASWELL; HASWELLX], true)] false.

Definition packageEnergyMetricsAvailable (cpu_family_model : Z) : bool :=
  is_one_of cpu_family_model
    [JAKETOWN; IVYTOWN; SANDY_BRIDGE; IVY_BRIDGE; HASWELL; AVOTON; CHERRYTRAIL; BAYTRAIL;
     APOLLO_LAKE; GEMINI_LAKE; DENVERTON; SNOWRIDGE; ELKHART_LAKE; JASPER_LAKE; HASWELLX;
     BROADWELL; BDX_DE; BDX; KNL] ||
  useSKLPath cpu_family_model ||
  is_one_of cpu_family_model
    [SKX; ICX; ADL; RPL; MTL; LNL; ARL; PTL; SPR; EMR; GNR; GNR_D; SRF; GRR].

Definition dramEnergyMetricsAvailable (cpu_family_model : Z) : bool :=
  is_one_of cpu_family_model
    [JAKETOWN; IVYTOWN; HASWELLX; BDX_DE; BDX; KNL; SKX; ICX; SPR; EMR; GNR; GNR_D; SRF; GRR].

Definition systemEnergyMetricAvailable (cpu_family_model : Z) : bool :=
  useSKLPath cpu_family_model ||
  is_one_of cpu_family_model [SKX; ICX; ADL; RPL; MTL; LNL; ARL; PTL; SPR; EMR; GNR; SRF; GRR].

Definition packageThermalMetricsAvailable (cpu_family_model : Z) : bool :=
  packageEnergyMetricsAvailable cpu_family_model.

(** [links]: the value of [getQPILinksPerSocket]. *)
Definition outgoingQPITrafficMetricsAvailable (cpu_family_model links : Z) : bool :=
  (0 <? links) &&
  is_one_of cpu_family_model
    [NEHALEM_EX; WESTMERE_EX; JAKETOWN; IVYTOWN; HASWELLX; BDX; SKX; ICX; SPR; EMR; GNR; SRF].

Definition incomingQPITrafficMetricsAvailable (cpu_family_model cpu_stepping links : Z) : bool :=
  (0 <? links) &&
  (is_one_of cpu_family_model [NEHALEM_EX; WESTMERE_EX; JAKETOWN; IVYTOWN] ||
   ((cpu_family_model =? SKX) && (1 <? cpu_stepping)) ||
   is_one_of cpu_family_model [ICX; SPR; EMR; GNR; SRF]).

Definition localMemoryRequestRatioMetricAvailable (cpu_family_model : Z) : bool :=
  is_one_of cpu_family_model [HASWELLX; BDX; SKX; ICX; SPR; EMR; SRF; GNR].

Definition qpiUtilizationMetricsAvailable (cpu_family_model links : Z) : bool :=
  outgoingQPITrafficMetricsAvailable cpu_family_model links.

Definition nearMemoryMetricsAvailable (cpu_family_model : Z) : bool :=
  is_one_of cpu_family_model [SRF; GNR; GNR_D].

Definition memoryTrafficMetricsAvailable (cpu_family_model : Z) : bool :=
  negb (isAtom cpu_family_model || (cpu_family_model =? CLARKDALE)).

Definition getHBMCASTransferSize (cpu_family_model : Z) : Z :=
  if SPR =? cpu_family_model then 32 else 64.

Definition memoryIOTrafficMetricAvailable (cpu_family_model : Z) : bool :=
  if cpu_family_model =? TGL then false
  else is_one_of cpu_family_model [SANDY_BRIDGE; IVY_BRIDGE; HASWELL; BROADWELL] ||
       useSKLPath cpu_family_model.

Definition IIOEventsAvailable (cpu_family_model : Z) : bool :=
  is_one_of cpu_family_model [SKX; ICX; SNOWRIDGE; SPR; EMR; GRR; SRF; GNR; GNR_D].

Definition LatencyMetricsAvailable (cpu_family_model : Z) : bool :=
  is_one_of cpu_family_model [HASWELLX; BDX; SKX; ICX; SPR; EMR] || useSKLPath cpu_family_model.

Definition DDRLatencyMetricsAvailable (cpu_family_model : Z) : bool :=
  is_one_of cpu_family_model [SKX; ICX; SPR; EMR].

Definition PMMTrafficMetricsAvailable (cpu_family_model cpu_stepping : Z) : bool :=
  isCLX cpu_family_model cpu_stepping || isCPX cpu_family_model cpu_stepping ||
  is_one_of cpu_family_model [ICX; SNOWRIDGE; SPR; EMR].

Definition PMMMemoryModeMetricsAvailable (cpu_family_model cpu_stepping : Z) : bool :=
  isCLX cpu_family_model cpu_stepping || isCPX cpu_family_model cpu_stepping ||
  is_one_of cpu_family_model [ICX; SNOWRIDGE].

Definition PMMMixedModeMetricsAvailable (cpu_family_model cpu_stepping : Z) : bool :=
  PMMMemoryModeMetricsAvailable cpu_family_model cpu_stepping.

(** Without [PCM_ENABLE_LLCRDLAT_SKX_MP], which the build does not define. *)
Definition LLCReadMissLatencyMetricsAvailable (cpu_family_model cpu_stepping num_sockets : Z) : bool :=
  is_one_of cpu_family_model [HASWELLX; BDX_DE; BDX] ||
  isCLX cpu_family_model cpu_stepping || isCPX cpu_family_model cpu_stepping ||
  ((SKX =? cpu_family_model) && (num_sockets =? 1)) ||
  is_one_of cpu_family_model [ICX; SPR; SNOWRIDGE].

Definition hasBecktonUncore (cpu_family_model : Z) : bool :=
  is_one_of cpu_family_model [NEHALEM_EX; WESTMERE_EX].

Definition hasPCICFGUncore (cpu_family_model : Z) : bool :=
  is_one_of cpu_family_model
    [JAKETOWN; SNOWRIDGE; IVYTOWN; HASWELLX; BDX_DE; SKX; ICX; SPR; EMR; GNR; GNR_D; SRF; GRR;
     BDX; KNL].

Definition isSkxCompatible (cpu_family_model : Z) : bool := is_one_of cpu_family_model [SKX].

Definition xPI (cpu_family_model : Z) : string := if hasUPI cpu_family_model then "UPI" else "QPI".

Definition hasCHA (cpu_family_model : Z) : bool :=
  is_one_of cpu_family_model [SKX; ICX; SPR; EMR; GNR; GNR_D; SRF; GRR].

Definition useSkylakeEvents (cpu_family_model : Z) : bool :=
  useSKLPath cpu_family_model || is_one_of cpu_family_model [SKX; ICX; SPR; EMR; GNR; GNR_D].

Definition hasClientMCCounters (cpu_family_model : Z) : bool :=
  is_one_of cpu_family_model
    [SANDY_BRIDGE; IVY_BRIDGE; HASWELL; BROADWELL; ADL; RPL; MTL; LNL; ARL; PTL] ||
  useSKLPath cpu_family_model.

Definition ppEnergyMetricsAvailable (cpu_family_model num_sockets : Z) : bool :=
  packageEnergyMetricsAvailable cpu_family_model && hasClientMCCounters cpu_family_model &&
  (num_sockets =? 1).

(** * The link constants: [getBytesPerFlit], [getDataBytesPerFlit], [getFlitsPerLinkCycle] *)

(** The code computes these as doubles; the model keeps the exact quotient. *)
Definition getBytesPerFlit (m : Z) : Z * Z := if hasUPI m then (172, 8) else (8, 1).
Definition getDataBytesPerFlit (m : Z) : Z * Z := if hasUPI m then (64, 9) else (8, 1).
Definition getFlitsPerLinkCycle (m : Z) : Z * Z := if hasUPI m then (5, 6) else (2, 1).

(** * Every capability is granted only to supported models *)

(** All the predicates that depend on the model and on data [x] of the system. *)
Record system := System { stepping : Z; sockets : Z; links : Z }.

Definition capabilities (m : Z) (x : system) : list bool :=
  [memoryEventErrata m; packageEnergyMetricsAvailable m; dramEnergyMetricsAvailable m;
   systemEnergyMetricAvailable m; packageThermalMetricsAvailable m;
   outgoingQPITrafficMetricsAvailable m (links x);
   incomingQPITrafficMetricsAvailable m (stepping x) (links x);
   localMemoryRequestRatioMetricAvailable m; qpiUtilizationMetricsAvailable m (links x);
   nearMemoryMetricsAvailable m; memoryIOTrafficMetricAvailable m; IIOEventsAvailable m;
   LatencyMetricsAvailable m; DDRLatencyMetricsAvailable m; PMMTrafficMetricsAvailable m (stepping x);
   PMMMemoryModeMetricsAvailable m (stepping x); PMMMixedModeMetricsAvailable m (stepping x);
   LLCReadMissLatencyMetricsAvailable m (stepping x) (sockets x); hasBecktonUncore m;
   hasPCICFGUncore m; hasUPI m; hasCHA m; useSkylakeEvents m; hasClientMCCounters m;
   ppEnergyMetricsAvailable m (sockets x)].

(** The relations between the predicates that the monitoring code relies on. *)
Definition hierarchy (m : Z) (x : system) : list (bool * bool) :=
  [(PMMMemoryModeMetricsAvailable m (stepping x), PMMTrafficMetricsAvailable m (stepping x));
   (incomingQPITrafficMetricsAvailable m (stepping x) (links x),
    outgoingQPITrafficMetricsAvailable m (links x));
   (PMMTrafficMetricsAvailable m (stepping x), hasPCICFGUncore m);
   (DDRLatencyMetricsAvailable m, LatencyMetricsAvailable m);
   (dramEnergyMetricsAvailable m, packageEnergyMetricsAvailable m);
   (systemEnergyMetricAvailable m, packageEnergyMetricsAvailable m);
   (memoryIOTrafficMetricAvailable m, hasClientMCCounters m);
   (hasUPI m, hasCHA m); (hasCHA m, hasPCICFGUncore m); (IIOEventsAvailable m, hasPCICFGUncore m);
   (hasPCICFGUncore m, isServerCPU m); (hasBecktonUncore m, isServerCPU m);
   (hasClientMCCounters m, isClientCPU m); (ppEnergyMetricsAvailable m (sockets x), isClientCPU m)].

Lemma is_one_of_true m l : is_one_of m l = true <-> m ∈ l.
Proof. apply bool_decide_eq_true. Qed.

(** A list of known models contains no other. *)
Lemma elem_of_outside m l : m ∉ all_models ->
  forallb (fun a => bool_decide (a ∈ all_models)) l = true -> bool_decide (m ∈ l) = false.
Proof.
  intros Hm Hl. apply bool_decide_eq_false. intros Hin.
  rewrite forallb_forall in Hl. eapply Hm, bool_decide_eq_true_1, Hl. by apply list_elem_of_In.
Qed.

Lemma is_one_of_outside m l : m ∉ all_models ->
  forallb (fun a => bool_decide (a ∈ all_models)) l = true -> is_one_of m l = false.
Proof. apply elem_of_outside. Qed.

Lemma eqb_outside m a : m ∉ all_models -> bool_decide (a ∈ all_models) = true -> (m =? a) = false.
Proof. intros Hm Ha%bool_decide_eq_true_1. apply Z.eqb_neq. by intros ->. Qed.

Lemma useSKLPath_outside m : m ∉ all_models -> useSKLPath m = false.
Proof. intros Hm. unfold useSKLPath. simpl. by rewrite (elem_of_outside m). Qed.

(** Reduces the predicates at a model outside the list. *)
Ltac outside Hm :=
  repeat first
    [ rewrite (is_one_of_outside _ _ Hm) by reflexivity
    | rewrite (elem_of_outside _ _ Hm) by reflexivity
    | rewrite (eqb_outside _ _ Hm) by reflexivity
    | rewrite (useSKLPath_outside _ Hm) ].

Create HintDb caps.
#[export] Hint Unfold capabilities memoryEventErrata packageEnergyMetricsAvailable
  dramEnergyMetricsAvailable systemEnergyMetricAvailable packageThermalMetricsAvailable
  outgoingQPITrafficMetricsAvailable incomingQPITrafficMetricsAvailable
  localMemoryRequestRatioMetricAvailable qpiUtilizationMetricsAvailable
  nearMemoryMetricsAvailable memoryIOTrafficMetricAvailable IIOEventsAvailable
  LatencyMetricsAvailable DDRLatencyMetricsAvailable PMMTrafficMetricsAvailable
  PMMMemoryModeMetricsAvailable PMMMixedModeMetricsAvailable LLCReadMissLatencyMetricsAvailable
  hasBecktonUncore hasPCICFGUncore hasCHA useSkylakeEvents hasClientMCCounters
  ppEnergyMetricsAvailable hasUPI isCLX isCPX switch : caps.

Lemma no_capability_outside m x : m ∉ all_models -> Forall (fun c => c = false) (capabilities m x).
Proof.
  intros Hm. autounfold with caps. rewrite !(Z.eqb_sym SKX m). outside Hm. simpl.
  rewrite !andb_false_r. by repeat constructor.
Qed.

Lemma all_models_supported_or_bare :
  Forall (fun m => checkModel m = (m, true) \/
                   forall x, Forall (fun c => c = false) (capabilities m x)) all_models.
Proof.
  unfold all_models.
  repeat (apply Forall_cons_2;
    [first [left; vm_compute; reflexivity
           |right; intros [st so li]; unfold capabilities, outgoingQPITrafficMetricsAvailable,
              incomingQPITrafficMetricsAvailable, qpiUtilizationMetricsAvailable,
              outgoingQPITrafficMetricsAvailable; simpl stepping; simpl sockets; simpl links;
            destruct (0 <? li); vm_compute; repeat constructor]|]).
  constructor.
Qed.

Lemma hierarchy_at_models x :
  Forall (fun m => Forall (fun p => p.1 = true -> p.2 = true) (hierarchy m x)) all_models.
Proof.
  destruct x as [st so li]. unfold all_models.
  repeat (apply Forall_cons_2;
    [cbv -[Z.ltb Z.leb Z.eqb];
     repeat (apply Forall_cons_2;
       [cbv beta iota;
        first [intros _; reflexivity
              |intros H; discriminate H
              |destruct (0 <? li), (so =? 1), (1 <? st), (10 <=? st), (4 <? st), (st <? 8);
               cbv; first [intros _; reflexivity|intros H; discriminate H]]|]);
     constructor|]).
  constructor.
Qed.

Lemma hierarchy_lhs_capability m x p : p ∈ hierarchy m x -> p.1 ∈ capabilities m x.
Proof.
  unfold hierarchy. rewrite !elem_of_cons, elem_of_nil.
  intros Hp. apply list_elem_of_In.
  repeat destruct Hp as [->|Hp]; simpl; tauto.
Qed.

(** The library offers a metric only on a model that [checkModel] accepts as it is:
    never on an unsupported model, nor on a variant that [checkModel] maps to another. *)
Theorem capability_implies_supported m x :
  true ∈ capabilities m x -> checkModel m = (m, true).
Proof.
  intros Hc. destruct (decide (m ∈ all_models)) as [Hm|Hm].
  - destruct (proj1 (Forall_forall _ _) all_models_supported_or_bare m Hm) as [|Hf]; [done|].
    by apply (proj1 (Forall_forall _ _) (Hf x)) in Hc.
  - by apply (proj1 (Forall_forall _ _) (no_capability_outside m x Hm)) in Hc.
Qed.

(** The capability predicates are consistent with one another: memory mode metrics
    imply persistent memory traffic metrics, incoming link traffic implies outgoing link
    traffic, UPI implies CHA, CHA and the IIO events imply PCICFG uncore access, which only
    servers have, client memory counters exist only on clients, and so on. *)
Theorem capabilities_hierarchical m x a b :
  (a, b) ∈ hierarchy m x -> a = true -> b = true.
Proof.
  intros Hp Ha. destruct (decide (m ∈ all_models)) as [Hm|Hm].
  - pose proof (proj1 (Forall_forall _ _) (hierarchy_at_models x) m Hm) as Hall.
    by apply (proj1 (Forall_forall _ _) Hall (a, b) Hp).
  - pose proof (proj1 (Forall_forall _ _) (no_capability_outside m x Hm) _ (hierarchy_lhs_capability _ _ _ Hp)).
    simpl in *. congruence.
Qed.

Lemma capability_implies_supported_witness : checkModel ICX = (ICX, true).
Proof.
  apply (capability_implies_supported ICX (System 6 2 3)).
  apply (proj2 (list_elem_of_In _ _)). vm_compute. tauto.
Defined.

Lemma capabilities_hierarchical_witness :
  PMMMemoryModeMetricsAvailable SKX 6 = true /\ hasPCICFGUncore SKX = true.
Proof.
  split; [reflexivity|].
  apply (capabilities_hierarchical SKX (System 6 2 3) (PMMTrafficMetricsAvailable SKX 6));
    [|reflexivity].
  right; right; left.
Defined.
