(* ===== verification/Registers.v ===== *)
(** Hardware access: the [HWRegister] hierarchy of [src/src/cpucounters.h], the
    [SafeMsrHandle] of [src/src/msr.h], and the raw counters of
    [src/src/width_extender.h].

    The machine is abstract: it answers a read from the history of accesses.
    Code runs in the monad [M], which threads that history, the state of the
    counter width extenders, and C++ exceptions. *)

From S2P Require Import Prelude Bits WidthExtender.
Local Open Scope Z_scope.

(** The fields of Linux's [perf_event_attr] that the sources set to something other than 0. *)
Record perf_event_attr := PerfAttr {
  perf_type : Z;
  perf_config : Z;
  perf_config1 : Z;
  perf_read_format : Z;
  perf_inherit : Z;
  perf_exclude_user : Z;
  perf_exclude_kernel : Z;
  perf_exclude_hv : Z
}.

#[export] Instance perf_event_attr_eq_dec : EqDecision perf_event_attr.
Proof. solve_decision. Defined.

(** A device register reached by one system call or load/store. Of the perf event driver:
    the system call that opens an event, whose answer is a file descriptor; a descriptor,
    which is written when it is closed; and the system call that reads [words] 64-bit words
    from a descriptor, whose answer holds them with the first in the low bits, and is none
    when the call returns any other number of bytes. [ClockPort] is the time of day in
    microseconds, and [FilePort] a file of [sysfs]: the number that its text starts with, none
    when no text can be read. *)
Inductive port :=
  | MsrPort (core msr : Z)
  | PciPort32 (handle offset : Z)
  | PciPort64 (handle offset : Z)
  | MmioPort32 (handle offset : Z)
  | MmioPort64 (handle offset : Z)
  | TscPort (core : Z)   (** [RDTSCP] executed on the core *)
  | PerfEventOpen (attr : perf_event_attr) (pid cpu group_fd : Z)
  | FileDescriptor (fd : Z)
  | PerfRead (fd : Z) (words : nat)
  | ClockPort
  | FilePort (path : list Ascii.ascii).

#[export] Instance port_eq_dec : EqDecision port.
Proof. solve_decision. Defined.

Inductive access := Write (p : port) (v : Z) | Read (p : port).

#[export] Instance access_eq_dec : EqDecision access.
Proof. solve_decision. Defined.

(** The answer of the machine to a read, after the given history (newest access
    first); [None] when the read fails. *)
Class Machine := respond : list access -> port -> option Z.

(** [SafeMsrHandle]: the core it is open on, none for an offline core. *)
Definition SafeMsrHandle : Type := option Z.

(** The subclasses of [AbstractRawCounter]; of a [ClientImcCounter] the registers whose sum
    its method of [FreeRunningBWCounters] returns. *)
Inductive AbstractRawCounter :=
  | MsrHandleCounter (msr : SafeMsrHandle) (msr_addr msr_mask : Z)
  | MBLCounter (msr : SafeMsrHandle)
  | MBTCounter (msr : SafeMsrHandle)
  | ClientImcCounter (registers : list port).

Record extender := Extender {
  ext_state : CounterWidthExtender.t;
  raw_counter : AbstractRawCounter
}.

(** The slots of a core, or their sums: the members of [PCM] and of a sample with these names. *)
Record topdown_slots := Slots {
  FrontendBound : Z;
  BadSpeculation : Z;
  BackendBound : Z;
  Retiring : Z;
  AllSlots : Z;
  MemBound : Z;
  FetchLat : Z;
  BrMispred : Z;
  HeavyOps : Z
}.

Definition no_slots : topdown_slots := Slots 0 0 0 0 0 0 0 0 0.

(** The accesses so far, newest first; the extenders; and the slots that [PCM] has summed up
    for each core ([FrontendBoundSlots], ..., zero at first). *)
Record hw := HW {
  history : list access;
  extenders : gmap nat extender;
  slots : gmap Z topdown_slots
}.

(** * The monad of code with hardware access *)

Definition M (A : Type) : Type := hw -> hw * res A.

#[export] Instance M_ret : MRet M := fun A a s => (s, Ok a).
#[export] Instance M_bind : MBind M := fun A B f m s =>
  match m s with
  | (s', Ok a) => f a s'
  | (s', Throw e) => (s', Throw e)
  end.

Definition throw {A} (e : exn) : M A := fun s => (s, Throw e).
Definition access_write (p : port) (v : Z) : M unit := fun s =>
  (HW (Write p v :: history s) (extenders s) (slots s), Ok tt).

(** [for (auto & x : l) body(x)] *)
Fixpoint forM {A} (l : list A) (body : A -> M unit) : M unit :=
  match l with
  | [] => mret tt
  | x :: l' => body x ;; forM l' body
  end.

(** As [forM], for a body that also updates the element. *)
Fixpoint mapM_ {A B} (l : list A) (body : A -> M B) : M (list B) :=
  match l with
  | [] => mret []
  | x :: l' => y ← body x; ys ← mapM_ l' body; mret (y :: ys)
  end.

(** Two computations are equivalent when they agree from every state; code is
    reordered and regrouped up to this equivalence. *)
Record agree {A} (m1 m2 : M A) : Prop := { agree_at : forall s, m1 s = m2 s }.
Arguments agree_at {A m1 m2}.

#[export] Instance M_equiv A : Equiv (M A) := agree.

#[export] Instance M_equivalence A : Equivalence (@equiv (M A) _).
Proof.
  split; [done| |].
  - intros m1 m2 [H]. constructor. intros s. by rewrite H.
  - intros m1 m2 m3 [H1] [H2]. constructor. intros s. by rewrite H1, H2.
Qed.

Lemma M_bind_cong {A B} (m m' : M A) (f f' : A -> M B) :
  m ≡ m' -> (forall a, f a ≡ f' a) -> m ≫= f ≡ m' ≫= f'.
Proof.
  intros [Hm] Hf. constructor. intros s. unfold mbind, M_bind. rewrite Hm.
  destruct (m' s) as [? [?|?]]; [apply Hf|done].
Qed.

#[export] Instance M_bind_proper A B :
  Proper (pointwise_relation A (≡) ==> (≡) ==> (≡)) (@mbind M M_bind A B).
Proof. intros f f' Hf m m' Hm. by apply M_bind_cong. Qed.

Lemma M_ret_bind {A B} (a : A) (f : A -> M B) : (mret a : M A) ≫= f ≡ f a.
Proof. done. Qed.

Lemma M_bind_ret {A} (m : M A) : m ≫= mret ≡ m.
Proof. constructor. intros s. unfold mbind, M_bind. by destruct (m s) as [? [?|?]]. Qed.

Lemma M_assoc {A B C} (m : M A) (f : A -> M B) (g : B -> M C) :
  (m ≫= f) ≫= g ≡ m ≫= (fun a => f a ≫= g).
Proof. constructor. intros s. unfold mbind, M_bind. by destruct (m s) as [? [?|?]]. Qed.

Lemma M_bind_tt {B} (f : unit -> M B) (m : M unit) : m ≫= f ≡ (m ;; f tt).
Proof. apply M_bind_cong; [done|by intros []]. Qed.

Section Code.
Context {machine : Machine}.

Definition access_read (p : port) : M (option Z) := fun s =>
  (HW (Read p :: history s) (extenders s) (slots s), Ok (respond (history s) p)).

(** * [SafeMsrHandle]

    Returns the value left in [*value], 0 before the call. *)
Definition msr_read (h : SafeMsrHandle) (msr_number : Z) : M Z :=
  match h with
  | Some core => r ← access_read (MsrPort core msr_number); mret (default 0 r)
  | None => mret 0
  end.

Definition msr_write (h : SafeMsrHandle) (msr_number value : Z) : M unit :=
  match h with
  | Some core => access_write (MsrPort core msr_number) value
  | None => mret tt
  end.

(** * Raw counters of the width extender *)

Definition IA32_QM_EVTSEL : Z := 0xC8D.
Definition IA32_QM_CTR : Z := 0xC8E.

(** Selects the monitoring event, keeping the upper bits of the selector. *)
Definition select_qm_event (msr : SafeMsrHandle) (event : Z) : M unit :=
  msr_qm_evtsel ← msr_read msr IA32_QM_EVTSEL;
  msr_write msr IA32_QM_EVTSEL
    (Z.lor (Z.land msr_qm_evtsel 0xfffffffffffffff0) (Z.land event (Z.shiftl 1 8 - 1))).

(** [for (auto & r : registers) result += read(r)]; a failing read gives 0. *)
Fixpoint read_sum (registers : list port) (result : Z) : M Z :=
  match registers with
  | [] => mret result
  | r :: registers => v ← access_read r; read_sum registers (u64 (result + default 0 v))
  end.

(** [operator () ()] of the raw counters: L3 local external bandwidth is event 3, L3
    total external bandwidth event 2. *)
Definition raw_counter_read (c : AbstractRawCounter) : M Z :=
  match c with
  | MsrHandleCounter msr msr_addr msr_mask =>
      value ← msr_read msr msr_addr; mret (Z.land value msr_mask)
  | MBLCounter msr => select_qm_event msr 3 ;; msr_read msr IA32_QM_CTR
  | MBTCounter msr => select_qm_event msr 2 ;; msr_read msr IA32_QM_CTR
  | ClientImcCounter registers => read_sum registers 0
  end.

(** * [HWRegister] *)

Inductive HWRegister :=
  | PCICFGRegister64 (handle offset : Z)
  | PCICFGRegister32 (handle offset : Z)
  | MMIORegister64 (handle offset : Z)
  | MMIORegister32 (handle offset : Z)
  | MSRRegister (handle : SafeMsrHandle) (offset : Z)
  | CounterWidthExtenderRegister (id : nat).

#[export] Instance HWRegister_eq_dec : EqDecision HWRegister.
Proof. solve_decision. Defined.

Definition extender_sample (id : nat) (k : extender -> Z -> extender * Z) : M Z := fun s =>
  match extenders s !! id with
  | None => (s, Throw NullDereference)
  | Some e =>
      match raw_counter_read (raw_counter e) s with
      | (s', Ok raw) =>
          let '(e', v) := k e raw in (HW (history s') (<[id:=e']> (extenders s')) (slots s'), Ok v)
      | (s', Throw x) => (s', Throw x)
      end
  end.

Definition set_ext_state (e : extender) (st : CounterWidthExtender.t) : extender :=
  Extender st (raw_counter e).

(** [CounterWidthExtender::read] *)
Definition extender_read (id : nat) : M Z :=
  extender_sample id (fun e raw =>
    let '(st, v) := CounterWidthExtender.read (ext_state e) raw in (set_ext_state e st, v)).

(** [operator = (uint64)] *)
Definition reg_write (r : HWRegister) (val : Z) : M unit :=
  match r with
  | PCICFGRegister64 h o =>
      access_write (PciPort32 h o) (u32 val) ;;
      access_write (PciPort32 h (o + 4)) (u32 (Z.shiftr val 32))
  | PCICFGRegister32 h o => access_write (PciPort32 h o) (u32 val)
  | MMIORegister64 h o => access_write (MmioPort64 h o) val
  | MMIORegister32 h o => access_write (MmioPort32 h o) (u32 val)
  | MSRRegister h o => msr_write h o val
  | CounterWidthExtenderRegister id =>
      if val =? 0
      then extender_sample id (fun e raw =>
             (set_ext_state e (CounterWidthExtender.reset (ext_state e) raw), 0)) ;; mret tt
      else throw StdException
  end.

(** [operator uint64 ()] *)
Definition reg_read (r : HWRegister) : M Z :=
  match r with
  | PCICFGRegister64 h o => v ← access_read (PciPort64 h o); mret (default 0 v)
  | PCICFGRegister32 h o => v ← access_read (PciPort32 h o); mret (default 0 v)
  | MMIORegister64 h o => v ← access_read (MmioPort64 h o); mret (default 0 v)
  | MMIORegister32 h o => v ← access_read (MmioPort32 h o); mret (default 0 v)
  | MSRRegister h o => msr_read h o
  | CounterWidthExtenderRegister id => extender_read id
  end.

(** [shared_ptr<HWRegister>]: dereferencing a null one is an error. *)
Definition HWRegisterPtr : Type := option HWRegister.

Definition ptr_write (p : HWRegisterPtr) (val : Z) : M unit :=
  match p with Some r => reg_write r val | None => throw NullDereference end.

Definition ptr_read (p : HWRegisterPtr) : M Z :=
  match p with Some r => reg_read r | None => throw NullDereference end.

End Code.
#[global] Arguments HWRegisterPtr : clear implicits.

(** * A machine of plain memory

    The instance used by the witnesses: configuration space and memory-mapped
    registers are cells of 32 bits, MSRs cells of 64, all initially 0. *)

Inductive cell := MsrCell (core msr : Z) | PciCell (handle offset : Z) | MmioCell (handle offset : Z).

#[export] Instance cell_eq_dec : EqDecision cell.
Proof. solve_decision. Defined.

Definition footprint (p : port) (v : Z) : list (cell * Z) :=
  match p with
  | MsrPort c m => [(MsrCell c m, v)]
  | PciPort32 h o => [(PciCell h o, u32 v)]
  | PciPort64 h o => [(PciCell h o, u32 v); (PciCell h (o + 4), u32 (Z.shiftr v 32))]
  | MmioPort32 h o => [(MmioCell h o, u32 v)]
  | MmioPort64 h o => [(MmioCell h o, u32 v); (MmioCell h (o + 4), u32 (Z.shiftr v 32))]
  | TscPort _ | PerfEventOpen _ _ _ _ | FileDescriptor _ | PerfRead _ _ | ClockPort | FilePort _ => []
  end.

Fixpoint find_cell (l : list (cell * Z)) (c : cell) : option Z :=
  match l with
  | [] => None
  | (c', v) :: l' => if decide (c' = c) then Some v else find_cell l' c
  end.

Fixpoint load (h : list access) (c : cell) : Z :=
  match h with
  | [] => 0
  | Write p v :: h' => default (load h' c) (find_cell (footprint p v) c)
  | Read _ :: h' => load h' c
  end.

Definition pair64 (lo hi : Z) : Z := Z.lor lo (Z.shiftl hi 32).

Definition memory_machine : Machine := fun h p =>
  Some match p with
       | MsrPort c m => load h (MsrCell c m)
       | PciPort32 d o => load h (PciCell d o)
       | PciPort64 d o => pair64 (load h (PciCell d o)) (load h (PciCell d (o + 4)))
       | MmioPort32 d o => load h (MmioCell d o)
       | MmioPort64 d o => pair64 (load h (MmioCell d o)) (load h (MmioCell d (o + 4)))
       | TscPort _ => Z.of_nat (length h)
       | PerfEventOpen _ _ _ _ => 3 + Z.of_nat (length h)
       | FileDescriptor _ | PerfRead _ _ | ClockPort | FilePort _ => 0
       end.

(** * Register laws

    What the performance monitoring code expects of the registers it programs,
    stated once for the hierarchy and discharged by the memory machine. *)

Definition reg_width (r : HWRegister) : Z :=
  match r with PCICFGRegister32 _ _ | MMIORegister32 _ _ => 32 | _ => 64 end.

(** A register backed by the device (an offline core has no MSRs, and an extender
    register accepts no data). *)
Definition backed (r : HWRegister) : bool :=
  match r with
  | MSRRegister None _ | CounterWidthExtenderRegister _ => false
  | _ => true
  end.

(** The cells a register occupies. *)
Definition reg_cells (r : HWRegister) : list cell :=
  match r with
  | PCICFGRegister64 h o => [PciCell h o; PciCell h (o + 4)]
  | PCICFGRegister32 h o => [PciCell h o]
  | MMIORegister64 h o => [MmioCell h o; MmioCell h (o + 4)]
  | MMIORegister32 h o => [MmioCell h o]
  | MSRRegister (Some c) o => [MsrCell c o]
  | _ => []
  end.

Class RegisterLaws (machine : Machine) := {
  read_after_write r v s : backed r = true -> fits 64 v ->
    ((reg_write r v ;; reg_read r) s).2 = Ok (wrapN (reg_width r) v);
  read_after_other r1 r2 v s : backed r1 = true -> backed r2 = true -> fits 64 v ->
    (forall c, c ∈ reg_cells r1 -> c ∉ reg_cells r2) ->
    ((reg_write r1 v ;; reg_read r2) s).2 = (reg_read r2 s).2
}.

Lemma pair64_split v : fits 64 v -> pair64 (u32 v) (u32 (Z.shiftr v 32)) = v.
Proof.
  intros Hv. unfold pair64. bitwise.
  - by rewrite (Z.testbit_neg_r _ (i - 32)), orb_false_r by lia.
  - f_equal; lia.
  - symmetry. apply (testbit_fits 64); lia || done.
Qed.

(** A cell outside the footprint of a write keeps its contents. *)
Lemma load_other p v h c :
  c ∉ (footprint p v).*1 -> load (Write p v :: h) c = load h c.
Proof.
  intros Hc. simpl. enough (find_cell (footprint p v) c = None) as -> by done.
  induction (footprint p v) as [|[c' x] l IH]; [done|]; simpl in *.
  rewrite decide_False by (intros ->; apply Hc; left). apply IH.
  intros Hin. apply Hc. by right.
Qed.

#[local] Existing Instance memory_machine.

Lemma reg_read_cells r s1 s2 :
  backed r = true -> (forall c, c ∈ reg_cells r -> load (history s1) c = load (history s2) c) ->
  (reg_read r s1).2 = (reg_read r s2).2.
Proof.
  intros Hb Hc.
  destruct r as [| | | |[|]|]; try discriminate; simpl in *; unfold respond, memory_machine;
    rewrite ?Hc by set_solver; done.
Qed.

#[export] Instance memory_machine_laws : RegisterLaws memory_machine.
Proof.
  split.
  - intros r v s Hb Hv.
    destruct r as [h o|h o|h o|h o|[c|] o|]; try discriminate;
      cbv [mbind M_bind mret M_ret reg_write reg_read access_write access_read msr_write msr_read
           respond memory_machine history fst snd]; cbn [load footprint find_cell reg_width];
      repeat first [rewrite decide_True by done | rewrite decide_False by (intros [=]; lia)];
      cbn [default id]; unfold id; rewrite ?wrapN_wrapN by lia.
    + by rewrite pair64_split, wrapN_small.
    + done.
    + by rewrite pair64_split, wrapN_small.
    + done.
    + by rewrite wrapN_small.
  - intros r1 r2 v s Hb1 Hb2 Hv Hdis.
    destruct r1 as [h o|h o|h o|h o|[c|] o|]; try discriminate;
      cbv [reg_write access_write mbind M_bind msr_write];
      apply reg_read_cells; try done; intros cl Hcl; cbn [history];
      repeat (rewrite load_other by (intros Hin; apply (Hdis cl); [|done];
        apply list_elem_of_In in Hin; apply list_elem_of_In; simpl in *; tauto)); done.
Qed.

Lemma memory_write_ok r v s : backed r = true ->
  reg_write r v s = (HW (history (reg_write r v s).1) (extenders s) (slots s), Ok tt).
Proof. by destruct r as [| | | |[]|]. Qed.

(** Registers of every kind keep what is written to them: after writing two registers
    that share no cell, each reads back its own value, cut to the width of the register -
    in particular a 64-bit PCI register written as two 32-bit halves. *)
Theorem registers_keep_values r1 r2 v1 v2 s :
  backed r1 = true -> backed r2 = true -> fits 64 v1 -> fits 64 v2 ->
  (forall c, c ∈ reg_cells r2 -> c ∉ reg_cells r1) ->
  ((reg_write r1 v1 ;; reg_write r2 v2 ;; reg_read r1) s).2 = Ok (wrapN (reg_width r1) v1) /\
  ((reg_write r1 v1 ;; reg_write r2 v2 ;; reg_read r2) s).2 = Ok (wrapN (reg_width r2) v2).
Proof.
  intros Hb1 Hb2 Hv1 Hv2 Hdis. pose proof (read_after_write r1 v1 s Hb1 Hv1) as H1.
  unfold mbind, M_bind in *. rewrite (memory_write_ok r1) in * by done.
  set (s1 := HW _ _ _) in *. split.
  - rewrite <- H1. exact (read_after_other r2 r1 v2 s1 Hb2 Hb1 Hv2 Hdis).
  - exact (read_after_write r2 v2 s1 Hb2 Hv2).
Qed.

Lemma registers_keep_values_witness :
  ((reg_write (PCICFGRegister64 1 8) (2 ^ 40 + 5) ;; reg_write (PCICFGRegister32 1 16) (2 ^ 33 + 7) ;;
    reg_read (PCICFGRegister64 1 8)) (HW [] ∅ ∅)).2 = Ok (2 ^ 40 + 5) /\
  ((reg_write (PCICFGRegister64 1 8) (2 ^ 40 + 5) ;; reg_write (PCICFGRegister32 1 16) (2 ^ 33 + 7) ;;
    reg_read (PCICFGRegister32 1 16)) (HW [] ∅ ∅)).2 = Ok 7.
Proof.
  apply (registers_keep_values (PCICFGRegister64 1 8) (PCICFGRegister32 1 16)); try done.
  intros c. simpl. rewrite !elem_of_cons, elem_of_nil. intros [->|[]] [?|[?|[]]]; done.
Defined.
