(* ===== verification/UncorePMU.v ===== *)
(** Uncore performance monitoring units: [UncorePMU] of [src/src/cpucounters.h] and
    [src/src/cpucounters.cpp], and the [PCM::program] template that writes their event selectors.

    The operations are related to the plain list of register writes they perform
    ([run_writes]); what a unit needs from its programming - selectors are written
    while the unit is frozen, and the counters are reset before they are released -
    is a property of that list. *)

From S2P Require Import Prelude CpuModels Registers.
Local Open Scope Z_scope.

(** * Unit control bits ([types.h]) *)

Definition UNC_PMON_UNIT_CTL_RST_CONTROL : Z := 2 ^ 0.
Definition UNC_PMON_UNIT_CTL_RST_COUNTERS : Z := 2 ^ 1.
Definition UNC_PMON_UNIT_CTL_FRZ : Z := 2 ^ 8.
Definition UNC_PMON_UNIT_CTL_FRZ_EN : Z := 2 ^ 16.
Definition UNC_PMON_UNIT_CTL_RSV : Z := 2 ^ 16 + 2 ^ 17.
Definition SPR_UNC_PMON_UNIT_CTL_FRZ : Z := 2 ^ 0.
Definition SPR_UNC_PMON_UNIT_CTL_RST_CONTROL : Z := 2 ^ 8.
Definition SPR_UNC_PMON_UNIT_CTL_RST_COUNTERS : Z := 2 ^ 9.
Definition UNC_PMON_UNIT_CTL_VALID_BITS_MASK : Z := 2 ^ 17 - 1.
Definition MC_CH_PCI_PMON_CTL_EN : Z := 2 ^ 22.

(** The models whose units use the [SPR_] control bits: the case labels shared by
    the switches of [UncorePMU] and [PCM::program]. *)
Definition SPR_UNIT_CASES : list Z := [SPR; EMR; GNR; GNR_D; GRR; SRF].

Definition spr_unit (m : Z) : bool := switch m [(SPR_UNIT_CASES, true)] false.

Record UncorePMU := MkUncorePMU {
  cpu_family_model_ : Z;           (** 0 until the first use *)
  unitControl : HWRegisterPtr;
  counterControl : list HWRegisterPtr;
  counterValue : list HWRegisterPtr;
  fixedCounterControl : HWRegisterPtr;
  fixedCounterValue : HWRegisterPtr;
  filter0 : HWRegisterPtr;
  filter1 : HWRegisterPtr
}.

Definition valid (pmu : UncorePMU) : bool :=
  match unitControl pmu with Some _ => true | None => false end.

Definition size (pmu : UncorePMU) : nat := length (counterControl pmu).

Definition set_model (m : Z) (pmu : UncorePMU) : UncorePMU :=
  MkUncorePMU m (unitControl pmu) (counterControl pmu) (counterValue pmu)
    (fixedCounterControl pmu) (fixedCounterValue pmu) (filter0 pmu) (filter1 pmu).

Definition set_unitControl (u : HWRegisterPtr) (pmu : UncorePMU) : UncorePMU :=
  MkUncorePMU (cpu_family_model_ pmu) u (counterControl pmu) (counterValue pmu)
    (fixedCounterControl pmu) (fixedCounterValue pmu) (filter0 pmu) (filter1 pmu).

Section Code.
Context {machine : Machine}.

(** [PCM::getInstance()->getCPUFamilyModel()] *)
Context (pcm_model : Z).

(** The cached model, and the unit with the cache filled. *)
Definition getCPUFamilyModel (pmu : UncorePMU) : Z * UncorePMU :=
  let pmu' := if cpu_family_model_ pmu =? 0 then set_model pcm_model pmu else pmu in
  (cpu_family_model_ pmu', pmu').

(** [if (p.get()) *p = v;] *)
Definition write_if (p : HWRegisterPtr) (v : Z) : M unit :=
  match p with Some r => reg_write r v | None => mret tt end.

Definition cleanup (pmu : UncorePMU) : M unit :=
  forM (counterControl pmu) (fun cc => write_if cc 0) ;;
  write_if (unitControl pmu) 0 ;;
  write_if (fixedCounterControl pmu) 0.

Definition freeze (extra : Z) (pmu : UncorePMU) : M UncorePMU :=
  let '(m, pmu) := getCPUFamilyModel pmu in
  ptr_write (unitControl pmu)
    (switch m [(SPR_UNIT_CASES, SPR_UNC_PMON_UNIT_CTL_FRZ)] (u32 (extra + UNC_PMON_UNIT_CTL_FRZ))) ;;
  mret pmu.

Definition unfreeze (extra : Z) (pmu : UncorePMU) : M UncorePMU :=
  let '(m, pmu) := getCPUFamilyModel pmu in
  ptr_write (unitControl pmu) (switch m [(SPR_UNIT_CASES, 0)] extra) ;;
  mret pmu.

(** [xPICheckMsg] is only tested against null here (its text is printed under
    [PCM_UNCORE_PMON_BOX_CHECK_STATUS], which the build does not define). *)
Definition initFreeze (extra : Z) (xPICheckMsg : bool) (pmu : UncorePMU) : M (UncorePMU * bool) :=
  match unitControl pmu with
  | None => mret (pmu, true)
  | Some u =>
      let '(m, pmu) := getCPUFamilyModel pmu in
      if spr_unit m then
        reg_write u SPR_UNC_PMON_UNIT_CTL_FRZ ;;
        reg_write u (SPR_UNC_PMON_UNIT_CTL_FRZ + SPR_UNC_PMON_UNIT_CTL_RST_CONTROL) ;;
        mret (pmu, true)
      else
        reg_write u extra ;;
        disabled ← (if xPICheckMsg then
                      v ← reg_read u;
                      mret (negb (Z.land extra UNC_PMON_UNIT_CTL_VALID_BITS_MASK =?
                                  Z.land v UNC_PMON_UNIT_CTL_VALID_BITS_MASK))
                    else mret false);
        if disabled : bool then mret (set_unitControl None pmu, false)
        else
          reg_write u (u32 (extra + UNC_PMON_UNIT_CTL_FRZ)) ;;
          mret (pmu, true)
  end.

Definition resetUnfreeze (extra : Z) (pmu : UncorePMU) : M UncorePMU :=
  let '(m, pmu) := getCPUFamilyModel pmu in
  if spr_unit m then
    ptr_write (unitControl pmu) (SPR_UNC_PMON_UNIT_CTL_FRZ + SPR_UNC_PMON_UNIT_CTL_RST_COUNTERS) ;;
    ptr_write (unitControl pmu) 0 ;;
    mret pmu
  else
    ptr_write (unitControl pmu) (u32 (extra + UNC_PMON_UNIT_CTL_FRZ + UNC_PMON_UNIT_CTL_RST_COUNTERS)) ;;
    ptr_write (unitControl pmu) extra ;;
    mret pmu.

(** The body of the loop of [PCM::program]. *)
Definition program_counter (ctrl : HWRegisterPtr) (curEvent : Z) : M unit :=
  match ctrl with
  | None => mret tt
  | Some r =>
      if spr_unit pcm_model then reg_write r curEvent
      else
        reg_write r MC_CH_PCI_PMON_CTL_EN ;;
        reg_write r (Z.lor MC_CH_PCI_PMON_CTL_EN curEvent)
  end.

Fixpoint program_loop (ctrls : list HWRegisterPtr) (events : list Z) : M unit :=
  match ctrls, events with
  | ctrl :: ctrls', curEvent :: events' => program_counter ctrl curEvent ;; program_loop ctrls' events'
  | _, _ => mret tt
  end.

(** [PCM::program]; [None] is a null [eventsBegin]. *)
Definition program (pmu : UncorePMU) (events : option (list Z)) (extra : Z) : M UncorePMU :=
  match events with
  | None => mret pmu
  | Some evs =>
      program_loop (counterControl pmu) evs ;;
      if negb (extra =? 0) then resetUnfreeze extra pmu else mret pmu
  end.

(** * The writes performed *)

Definition writes : Type := list (HWRegister * Z).

Fixpoint run_writes (l : writes) : M unit :=
  match l with
  | [] => mret tt
  | (r, v) :: l' => reg_write r v ;; run_writes l'
  end.

End Code.

(** ** Specification of the programming of a unit *)

(** Freezing, per control register format. *)
Definition freeze_log (m extra : Z) (u : HWRegister) : writes :=
  if spr_unit m
  then [(u, SPR_UNC_PMON_UNIT_CTL_FRZ);
        (u, SPR_UNC_PMON_UNIT_CTL_FRZ + SPR_UNC_PMON_UNIT_CTL_RST_CONTROL)]
  else [(u, extra); (u, u32 (extra + UNC_PMON_UNIT_CTL_FRZ))].

Definition selector_log (m : Z) (r : HWRegister) (event : Z) : writes :=
  if spr_unit m then [(r, event)]
  else [(r, MC_CH_PCI_PMON_CTL_EN); (r, Z.lor MC_CH_PCI_PMON_CTL_EN event)].

Fixpoint selectors_log (m : Z) (ctrls : list HWRegisterPtr) (events : list Z) : writes :=
  match ctrls, events with
  | Some r :: ctrls', e :: events' => selector_log m r e ++ selectors_log m ctrls' events'
  | None :: ctrls', _ :: events' => selectors_log m ctrls' events'
  | _, _ => []
  end.

Definition release_log (m extra : Z) (u : HWRegister) : writes :=
  if spr_unit m
  then [(u, SPR_UNC_PMON_UNIT_CTL_FRZ + SPR_UNC_PMON_UNIT_CTL_RST_COUNTERS); (u, 0)]
  else [(u, u32 (extra + UNC_PMON_UNIT_CTL_FRZ + UNC_PMON_UNIT_CTL_RST_COUNTERS)); (u, extra)].

(** The freeze and counter-reset bits of a control value. *)
Definition frozen_value (m v : Z) : bool := Z.testbit v (if spr_unit m then 0 else 8).
Definition resets_counters (m v : Z) : bool := Z.testbit v (if spr_unit m then 9 else 1).

(** The value last written to [u]. *)
Fixpoint last_write (u : HWRegister) (l : writes) (v0 : option Z) : option Z :=
  match l with
  | [] => v0
  | (r, v) :: l' => last_write u l' (if decide (r = u) then Some v else v0)
  end.

(** The code that programs one unit: freeze it, write its selectors, release it. *)
Definition program_unit {machine : Machine} (pcm_model extra : Z) (events : list Z)
    (pmu : UncorePMU) : M UncorePMU :=
  r ← initFreeze pcm_model extra false pmu;
  program pcm_model r.1 (Some events) extra.

Definition unit_log (m extra : Z) (u : HWRegister) (ctrls : list HWRegisterPtr) (events : list Z)
    : writes :=
  freeze_log m extra u ++ selectors_log m ctrls events ++ release_log m extra u.

(** The values the callers pass as [extra]. *)
Definition extra_values : list Z := [UNC_PMON_UNIT_CTL_RSV; UNC_PMON_UNIT_CTL_FRZ_EN].

Lemma extra_values_inv extra : extra ∈ extra_values ->
  extra = UNC_PMON_UNIT_CTL_RSV \/ extra = UNC_PMON_UNIT_CTL_FRZ_EN.
Proof. unfold extra_values. rewrite !elem_of_cons, elem_of_nil. tauto. Qed.

(** The model cache of a unit holds nothing or the model of the system. *)
Definition cache_ok (pcm_model : Z) (pmu : UncorePMU) : Prop :=
  cpu_family_model_ pmu = 0 \/ cpu_family_model_ pmu = pcm_model.

Section Refinement.
Context {machine : Machine} (pcm_model : Z).

Lemma getCPUFamilyModel_ok pmu : cache_ok pcm_model pmu ->
  getCPUFamilyModel pcm_model pmu = (pcm_model, set_model pcm_model pmu).
Proof.
  destruct pmu as [c ? ? ? ? ? ? ?]; unfold cache_ok, getCPUFamilyModel, set_model; simpl.
  intros [->| ->]; [done|]. by destruct (Z.eqb_spec pcm_model 0) as [->|].
Qed.

Lemma cache_ok_set_model pmu : cache_ok pcm_model (set_model pcm_model pmu).
Proof. by right. Qed.

Lemma run_writes_app l1 l2 : run_writes (l1 ++ l2) ≡ (run_writes l1 ;; run_writes l2).
Proof.
  induction l1 as [|[r v] l1 IH]; simpl; [done|].
  rewrite M_assoc. by apply M_bind_cong.
Qed.

Lemma run_writes_one r v : reg_write r v ≡ run_writes [(r, v)].
Proof. constructor. intros s. simpl. unfold mbind, M_bind, mret, M_ret. by destruct (reg_write r v s) as [? [[]|?]]. Qed.

Lemma program_counter_writes r e :
  program_counter pcm_model (Some r) e ≡ run_writes (selector_log pcm_model r e).
Proof.
  unfold program_counter, selector_log. destruct (spr_unit pcm_model).
  - apply run_writes_one.
  - simpl. apply M_bind_cong; [done|]. intros _. apply run_writes_one.
Qed.

Lemma program_loop_writes ctrls events :
  program_loop pcm_model ctrls events ≡ run_writes (selectors_log pcm_model ctrls events).
Proof.
  revert events. induction ctrls as [|[r|] ctrls IH]; intros [|e events]; try done; cbn [program_loop selectors_log].
  - rewrite run_writes_app, <- program_counter_writes. apply M_bind_cong; [done|by intros _].
  - unfold program_counter. rewrite M_ret_bind. apply IH.
Qed.

Lemma resetUnfreeze_writes pmu extra u : cache_ok pcm_model pmu -> unitControl pmu = Some u ->
  resetUnfreeze pcm_model extra pmu ≡
  (run_writes (release_log pcm_model extra u) ;; mret (set_model pcm_model pmu)).
Proof.
  intros Hc Hu. unfold resetUnfreeze. rewrite getCPUFamilyModel_ok by done. simpl. rewrite Hu. simpl.
  unfold release_log. destruct (spr_unit pcm_model); simpl; constructor; intros s;
    unfold mbind, M_bind, mret, M_ret; repeat (case_match; simplify_eq; try done).
Qed.

Lemma initFreeze_writes pmu extra u : cache_ok pcm_model pmu -> unitControl pmu = Some u ->
  initFreeze pcm_model extra false pmu ≡
  (run_writes (freeze_log pcm_model extra u) ;; mret (set_model pcm_model pmu, true)).
Proof.
  intros Hc Hu. unfold initFreeze. rewrite Hu, getCPUFamilyModel_ok by done.
  unfold freeze_log. destruct (spr_unit pcm_model); simpl; constructor; intros s;
    unfold mbind, M_bind, mret, M_ret; repeat (case_match; simplify_eq; try done).
Qed.

Lemma program_unit_writes pmu extra events u :
  cache_ok pcm_model pmu -> unitControl pmu = Some u -> extra <> 0 ->
  program_unit pcm_model extra events pmu ≡
  (run_writes (unit_log pcm_model extra u (counterControl pmu) events) ;;
   mret (set_model pcm_model pmu)).
Proof.
  intros Hc Hu He. unfold program_unit, unit_log.
  rewrite (M_bind_cong _ _ _ _ (initFreeze_writes _ extra _ Hc Hu) (fun _ => reflexivity _)).
  rewrite M_assoc, run_writes_app, M_assoc. apply M_bind_cong; [done|]. intros _.
  rewrite M_ret_bind. unfold program. simpl. destruct (Z.eqb_spec extra 0) as [|_]; [done|]; simpl.
  rewrite run_writes_app, M_assoc, <- program_loop_writes. apply M_bind_cong; [done|]. intros _.
  apply (resetUnfreeze_writes (set_model pcm_model pmu)); [apply cache_ok_set_model|done].
Qed.

End Refinement.

(** * The programming discipline *)

(** Every write to a register other than [u] happens while the last value written
    to [u] has the freeze bit. *)
Definition frozen_writes (m : Z) (u : HWRegister) (v0 : option Z) (log : writes) : Prop :=
  forall l1 r v l2, log = l1 ++ (r, v) :: l2 -> r <> u ->
    exists c, last_write u l1 v0 = Some c /\ frozen_value m c = true.

(** The log ends with a counter reset under freeze, immediately followed by the release. *)
Definition released_after_reset (m : Z) (u : HWRegister) (log : writes) : Prop :=
  exists l c1 c2, log = l ++ [(u, c1); (u, c2)] /\
    frozen_value m c1 = true /\ resets_counters m c1 = true /\ frozen_value m c2 = false.

Lemma last_write_app u l1 l2 v0 : last_write u (l1 ++ l2) v0 = last_write u l2 (last_write u l1 v0).
Proof. revert v0. by induction l1 as [|[r v] l1 IH]; simpl. Qed.

Lemma last_write_skip u l v0 : Forall (fun w => w.1 <> u) l -> last_write u l v0 = v0.
Proof. induction 1 as [|[r v] l Hr _ IH]; simpl in *; [done|]. by rewrite decide_False. Qed.

Lemma frozen_writes_app m u v0 l1 l2 :
  frozen_writes m u v0 l1 -> frozen_writes m u (last_write u l1 v0) l2 ->
  frozen_writes m u v0 (l1 ++ l2).
Proof.
  intros H1 H2 k1 r v k2 Heq Hr.
  destruct (app_eq_inv _ _ _ _ Heq) as [(k & -> & Hk)|(k & -> & Hk)].
  - destruct k as [|w k]; simpl in Hk.
    + destruct (H2 [] r v k2) as (c & Hc & ?); [done..|]. rewrite app_nil_r in *. eauto.
    + injection Hk as <- ->. eauto.
  - destruct (H2 k r v k2) as (c & Hc & ?); [done..|]. rewrite last_write_app. eauto.
Qed.

Lemma frozen_writes_own m u v0 l : Forall (fun w => w.1 = u) l -> frozen_writes m u v0 l.
Proof.
  intros Hl l1 r v l2 -> Hr. apply Forall_app in Hl as [_ Hl]. by apply Forall_cons in Hl as [? _].
Qed.

Lemma frozen_writes_while m u c l : Forall (fun w => w.1 <> u) l -> frozen_value m c = true ->
  frozen_writes m u (Some c) l.
Proof.
  intros Hl Hc l1 r v l2 -> _. apply Forall_app in Hl as [Hl _].
  rewrite last_write_skip by done. eauto.
Qed.

Lemma selectors_log_other m u ctrls events : (forall r, Some r ∈ ctrls -> r <> u) ->
  Forall (fun w => w.1 <> u) (selectors_log m ctrls events).
Proof.
  revert events. induction ctrls as [|[r|] ctrls IH]; intros [|e events] Hd; simpl; try done.
  - apply Forall_app. split.
    + unfold selector_log. assert (r <> u) by (apply Hd; left).
      by destruct (spr_unit m); repeat constructor.
    + apply IH. intros r' Hr'. apply Hd. by right.
  - apply IH. intros r' Hr'. apply Hd. by right.
Qed.

Lemma unit_log_disciplined m extra u ctrls events :
  extra ∈ extra_values -> (forall r, Some r ∈ ctrls -> r <> u) ->
  frozen_writes m u None (unit_log m extra u ctrls events) /\
  released_after_reset m u (unit_log m extra u ctrls events).
Proof.
  intros Hextra%extra_values_inv Hd. split.
  - apply frozen_writes_app; [|apply frozen_writes_app].
    + apply frozen_writes_own. unfold freeze_log. by destruct (spr_unit m); repeat constructor.
    + assert (exists c, last_write u (freeze_log m extra u) None = Some c /\ frozen_value m c = true)
        as (c & -> & Hc).
      { unfold freeze_log, frozen_value.
        by destruct Hextra as [->| ->], (spr_unit m); simpl; rewrite !decide_True by done; eauto. }
      apply frozen_writes_while; [by apply selectors_log_other|done].
    + apply frozen_writes_own. unfold release_log. by destruct (spr_unit m); repeat constructor.
  - unfold unit_log, release_log, released_after_reset. rewrite app_assoc.
    unfold frozen_value, resets_counters.
    by destruct Hextra as [->| ->], (spr_unit m); eexists _, _, _.
Qed.

(** C2. Programming a unit ([initFreeze], the loop of [PCM::program], [resetUnfreeze])
    performs a fixed list of register writes in which every event selector is written
    while the unit is frozen and which ends by resetting the counters under freeze and
    then releasing them, so that all counters of the unit start together from zero. *)
Theorem unit_programming_disciplined {machine : Machine} pcm_model extra events pmu u :
  cache_ok pcm_model pmu -> unitControl pmu = Some u -> extra ∈ extra_values ->
  (forall r, Some r ∈ counterControl pmu -> r <> u) ->
  exists log,
    program_unit pcm_model extra events pmu ≡ (run_writes log ;; mret (set_model pcm_model pmu)) /\
    frozen_writes pcm_model u None log /\ released_after_reset pcm_model u log.
Proof.
  intros Hc Hu Hextra Hd. exists (unit_log pcm_model extra u (counterControl pmu) events). split.
  - apply program_unit_writes; [done..|]. by apply extra_values_inv in Hextra as [->| ->].
  - by apply unit_log_disciplined.
Qed.

(** * The state of a programmed unit *)

Definition cells_disjoint (r1 r2 : HWRegister) : bool :=
  forallb (fun c => bool_decide (c ∉ reg_cells r2)) (reg_cells r1).

(** Registers that pairwise share no cell. *)
Fixpoint separate (l : list HWRegister) : bool :=
  match l with
  | [] => true
  | r :: l' => forallb (fun r' => cells_disjoint r r' && cells_disjoint r' r) l' && separate l'
  end.

Definition some_regs (l : list HWRegisterPtr) : list HWRegister := omap id l.

(** What a control register holds once programmed with [event]. *)
Definition selector_value (m event : Z) : Z :=
  if spr_unit m then event else Z.lor MC_CH_PCI_PMON_CTL_EN event.

Definition release_value (m extra : Z) : Z := if spr_unit m then 0 else extra.

Section State.
Context {machine : Machine} {laws : RegisterLaws machine}.

Lemma cells_disjoint_spec r1 r2 : cells_disjoint r1 r2 = true ->
  forall c, c ∈ reg_cells r1 -> c ∉ reg_cells r2.
Proof.
  unfold cells_disjoint. rewrite forallb_forall. intros H c Hc%list_elem_of_In.
  by apply H, bool_decide_eq_true in Hc.
Qed.

Lemma reg_cells_nonempty r : backed r = true -> exists c, c ∈ reg_cells r.
Proof. destruct r as [| | | |[]|]; try discriminate; eexists; left. Qed.

Lemma cells_disjoint_ne r1 r2 : backed r1 = true -> cells_disjoint r1 r2 = true -> r1 <> r2.
Proof.
  intros Hb Hd ->. destruct (reg_cells_nonempty r2 Hb) as [c Hc].
  by apply (cells_disjoint_spec r2 r2 Hd c).
Qed.

Lemma reg_write_ok r v s : backed r = true -> (reg_write r v s).2 = Ok tt.
Proof. by destruct r as [| | | |[]|]. Qed.

Definition write_ok (r : HWRegister) (w : HWRegister * Z) : Prop :=
  backed w.1 = true /\ fits 64 w.2 /\ (w.1 = r \/ cells_disjoint w.1 r = true).

Lemma read_after_writes_from r l s v0 v : backed r = true -> Forall (write_ok r) l ->
  (forall x, v0 = Some x -> (reg_read r s).2 = Ok (wrapN (reg_width r) x)) ->
  last_write r l v0 = Some v ->
  ((run_writes l ;; reg_read r) s).2 = Ok (wrapN (reg_width r) v).
Proof.
  intros Hr Hl. revert s v0. induction Hl as [|[r' x] l (Hb & Hv & Hd) _ IH]; intros s v0 Hs Hlast.
  { by apply Hs. }
  simpl in *. pose proof (reg_write_ok r' x s Hb) as Hw.
  unfold mbind, M_bind in *. destruct (reg_write r' x s) as [s' [[]|]] eqn:E; [|done].
  apply (IH s' _) in Hlast; [done|]. destruct (decide (r' = r)) as [->|Hne].
  - intros y [= ->]. pose proof (read_after_write r y s Hb Hv) as H.
    unfold mbind, M_bind in H. by rewrite E in H.
  - intros y ->. destruct Hd as [|Hd]; [done|].
    pose proof (read_after_other r' r x s Hb Hr Hv (cells_disjoint_spec _ _ Hd)) as H.
    unfold mbind, M_bind in H. rewrite E in H. rewrite H. by apply Hs.
Qed.

(** Reading a register after a list of writes gives the last value written to it. *)
Lemma read_after_writes r l s v : backed r = true -> Forall (write_ok r) l ->
  last_write r l None = Some v ->
  ((run_writes l ;; reg_read r) s).2 = Ok (wrapN (reg_width r) v).
Proof. intros ? ?. by apply read_after_writes_from. Qed.

(** A register that none of the writes is to reads what it read before. *)
Lemma read_untouched r l s : backed r = true -> Forall (write_ok r) l -> (forall v, (r, v) ∉ l) ->
  ((run_writes l ;; reg_read r) s).2 = (reg_read r s).2.
Proof.
  intros Hr Hl. revert s. induction Hl as [|[r' x] l (Hb & Hv & Hd) _ IH]; intros s Hn; [done|].
  simpl in *. pose proof (reg_write_ok r' x s Hb) as Hw.
  assert (Hc : cells_disjoint r' r = true) by (destruct Hd as [->|]; [by destruct (Hn x); left|done]).
  pose proof (read_after_other r' r x s Hb Hr Hv (cells_disjoint_spec _ _ Hc)) as H.
  unfold mbind, M_bind in *. destruct (reg_write r' x s) as [s' [[]|]] eqn:E; [|done].
  rewrite IH; [done|]. intros v Hin. apply (Hn v). by right.
Qed.

End State.

Lemma separate_lookup l i j r1 r2 : separate l = true -> l !! i = Some r1 -> l !! j = Some r2 ->
  i <> j -> cells_disjoint r1 r2 = true.
Proof.
  revert i j. induction l as [|r l IH]; intros i j Hs Hi Hj Hne; [done|].
  simpl in Hs. apply andb_true_iff in Hs as [Hr Hl]. rewrite forallb_forall in Hr.
  assert (forall k x, l !! k = Some x -> cells_disjoint r x = true /\ cells_disjoint x r = true) as Hx.
  { intros k x Hk. apply andb_true_iff, Hr, list_elem_of_In. by eapply list_elem_of_lookup_2. }
  destruct i as [|i], j as [|j]; simplify_eq/=; [by eapply Hx..|]. eapply IH; [done..|lia].
Qed.

Lemma separate_elem r r' l : separate (r :: l) = true -> r' ∈ l ->
  cells_disjoint r r' = true /\ cells_disjoint r' r = true.
Proof.
  intros Hs (k & Hk)%list_elem_of_lookup.
  split; [apply (separate_lookup (r :: l) 0 (S k))|apply (separate_lookup (r :: l) (S k) 0)]; done.
Qed.

Lemma elem_of_some_regs r l : r ∈ some_regs l <-> Some r ∈ l.
Proof.
  unfold some_regs. rewrite list_elem_of_omap. split; [by intros (y & ? & Hy); simpl in Hy; subst|].
  intros. by exists (Some r).
Qed.

Section Effect.
Context (m extra : Z) (u : HWRegister).

Definition event_ok (event : Z) : Prop := fits 64 event.

Lemma lor_en_fits e : fits 64 e -> fits 64 (Z.lor MC_CH_PCI_PMON_CTL_EN e).
Proof. intros. apply fits_lor; [lia| |done]. done. Qed.

Lemma selector_log_ok r r' e : backed r = true -> fits 64 e -> r = r' \/ cells_disjoint r r' = true ->
  Forall (write_ok r') (selector_log m r e).
Proof.
  intros Hb He Hd. assert (forall v, fits 64 v -> write_ok r' (r, v)) as Hok by done.
  pose proof (lor_en_fits e He). unfold selector_log.
  destruct (spr_unit m); repeat (apply Forall_cons_2; [by apply Hok|]); constructor.
Qed.

Lemma selectors_log_ok r' ctrls events :
  (forall r, Some r ∈ ctrls -> backed r = true /\ (r = r' \/ cells_disjoint r r' = true)) ->
  Forall (fits 64) events -> Forall (write_ok r') (selectors_log m ctrls events).
Proof.
  revert events. induction ctrls as [|[r|] ctrls IH]; intros [|e events] Hc He; simpl; try done;
    apply Forall_cons in He as [He Hes].
  - apply Forall_app. split.
    + apply selector_log_ok; [|done|]; apply Hc; left.
    + apply IH; [|done]. intros r0 Hr0. apply Hc. by right.
  - apply IH; [|done]. intros r0 Hr0. apply Hc. by right.
Qed.

Lemma selectors_last_write r i e ctrls events v0 :
  separate (some_regs ctrls) = true -> (forall r', Some r' ∈ ctrls -> backed r' = true) ->
  ctrls !! i = Some (Some r) -> events !! i = Some e ->
  last_write r (selectors_log m ctrls events) v0 = Some (selector_value m e).
Proof.
  revert i events v0. induction ctrls as [|c ctrls IH]; intros [|i] [|e' events] v0 Hs Hb Hi He; simplify_eq/=.
  - assert (Forall (fun w => w.1 <> r) (selectors_log m ctrls events)) as Hlater.
    { apply selectors_log_other. intros r' Hr' ->.
      apply (cells_disjoint_ne r r); [apply Hb; left| |done].
      apply (separate_elem r r (some_regs ctrls)); [done|by apply elem_of_some_regs]. }
    rewrite last_write_app, last_write_skip by done.
    unfold selector_log, selector_value. by destruct (spr_unit m); simpl; rewrite !decide_True by done.
  - assert (separate (some_regs ctrls) = true).
    { unfold some_regs in *. simpl in Hs. destruct c; simpl in Hs; [|done]. by apply andb_true_iff in Hs as []. }
    assert (forall r', Some r' ∈ ctrls -> backed r' = true) by (intros; apply Hb; by right).
    destruct c as [c|]; [rewrite last_write_app|]; by eapply IH.
Qed.

Lemma control_log_ok r' : extra ∈ extra_values -> backed u = true ->
  u = r' \/ cells_disjoint u r' = true ->
  Forall (write_ok r') (freeze_log m extra u) /\ Forall (write_ok r') (release_log m extra u).
Proof.
  intros Hextra%extra_values_inv Hb Hd.
  assert (forall v, fits 64 v -> write_ok r' (u, v)) as Hok by done.
  unfold freeze_log, release_log.
  destruct Hextra as [->| ->], (spr_unit m);
    split; repeat (apply Forall_cons_2; [by apply Hok|]); constructor.
Qed.

End Effect.

(** The registers of a unit that its programming writes: all backed by the device, no
    two sharing a cell. *)
Definition unit_registers_ok (u : HWRegister) (pmu : UncorePMU) : Prop :=
  separate (u :: some_regs (counterControl pmu)) = true /\
  forall r, r ∈ u :: some_regs (counterControl pmu) -> backed r = true.

Section Programmed.
Context {machine : Machine} {laws : RegisterLaws machine}.
Context (pcm_model extra : Z) (events : list Z) (pmu : UncorePMU) (u : HWRegister).
Context (Hcache : cache_ok pcm_model pmu) (Hu : unitControl pmu = Some u).
Context (Hextra : extra ∈ extra_values) (Hregs : unit_registers_ok u pmu).
Context (Hevents : Forall (fits 64) events).

Lemma unit_log_ok r : r ∈ u :: some_regs (counterControl pmu) ->
  Forall (write_ok r) (unit_log pcm_model extra u (counterControl pmu) events).
Proof.
  destruct Hregs as [Hs Hb]. intros Hr.
  assert (forall r', r' ∈ u :: some_regs (counterControl pmu) ->
    r' = r \/ cells_disjoint r' r = true) as Hd.
  { intros r' (i & Hi)%list_elem_of_lookup. apply list_elem_of_lookup in Hr as (j & Hj).
    destruct (decide (i = j)) as [->|]; [left; congruence|right; by eapply separate_lookup]. }
  destruct (control_log_ok pcm_model extra u r) as [Hf Hrel]; [done|apply Hb; left|apply Hd; left|].
  unfold unit_log. apply Forall_app; split; [done|]. apply Forall_app; split; [|done].
  apply selectors_log_ok; [|done]. intros r' Hr'%elem_of_some_regs.
  split; [apply Hb|apply Hd]; by right.
Qed.

Lemma unit_log_last_control :
  last_write u (unit_log pcm_model extra u (counterControl pmu) events) None =
  Some (release_value pcm_model extra).
Proof.
  unfold unit_log. rewrite !last_write_app. unfold release_log, release_value.
  by destruct (spr_unit pcm_model); simpl; rewrite !decide_True by done.
Qed.

Lemma unit_log_last_selector r i e :
  counterControl pmu !! i = Some (Some r) -> events !! i = Some e ->
  last_write r (unit_log pcm_model extra u (counterControl pmu) events) None =
  Some (selector_value pcm_model e).
Proof.
  intros Hi He. destruct Hregs as [Hs Hb].
  assert (r ∈ some_regs (counterControl pmu)) as Hin
    by (apply elem_of_some_regs; by eapply list_elem_of_lookup_2).
  assert (u <> r) as Hne.
  { apply cells_disjoint_ne; [apply Hb; left|]. by apply (separate_elem _ _ _ Hs). }
  unfold unit_log. rewrite !last_write_app. rewrite (last_write_skip r (release_log _ _ _)).
  - eapply selectors_last_write; [|intros r' Hr'; apply Hb; right; by apply elem_of_some_regs|done..].
    by apply andb_true_iff in Hs as [].
  - unfold release_log. by destruct (spr_unit pcm_model); repeat constructor.
Qed.

Lemma program_unit_run s k :
  ((program_unit pcm_model extra events pmu ;; k) s : hw * res Z) =
  (run_writes (unit_log pcm_model extra u (counterControl pmu) events) ;; k) s.
Proof.
  apply agree_at. rewrite (program_unit_writes pcm_model pmu extra events u); [by rewrite M_assoc|done..|].
  by apply extra_values_inv in Hextra as [->| ->].
Qed.

End Programmed.

(** On any machine that satisfies the register laws, a programmed unit is left
    released, and each of its control registers holds the event meant for that counter
    together with the enable bit of the register format of the model. *)
Theorem programmed_unit_state {machine : Machine} {laws : RegisterLaws machine}
    pcm_model extra events pmu u s :
  cache_ok pcm_model pmu -> unitControl pmu = Some u -> extra ∈ extra_values ->
  unit_registers_ok u pmu -> Forall (fits 64) events ->
  ((program_unit pcm_model extra events pmu ;; reg_read u) s).2 =
    Ok (wrapN (reg_width u) (release_value pcm_model extra)) /\
  forall i r e, counterControl pmu !! i = Some (Some r) -> events !! i = Some e ->
    ((program_unit pcm_model extra events pmu ;; reg_read r) s).2 =
      Ok (wrapN (reg_width r) (selector_value pcm_model e)).
Proof.
  intros Hc Hu Hx Hregs He. split.
  - rewrite (program_unit_run _ _ _ _ u) by done.
    apply read_after_writes; [apply Hregs; left|apply unit_log_ok; by (done || left)|].
    apply unit_log_last_control.
  - intros i r e Hi Hei.
    assert (r ∈ u :: some_regs (counterControl pmu))
      by (right; apply elem_of_some_regs; by eapply list_elem_of_lookup_2).
    rewrite (program_unit_run _ _ _ _ u) by done.
    apply read_after_writes; [by apply Hregs|by apply unit_log_ok|]. by eapply unit_log_last_selector.
Qed.

Definition example_unit : UncorePMU :=
  MkUncorePMU 0 (Some (PCICFGRegister32 7 0xF4))
    [Some (PCICFGRegister32 7 0xD8); None; Some (PCICFGRegister32 7 0xDC)]
    [Some (PCICFGRegister64 7 0xA0); None; Some (PCICFGRegister64 7 0xA8)] None None None None.

Lemma unit_programming_disciplined_witness :
  exists log, @program_unit memory_machine SKX UNC_PMON_UNIT_CTL_RSV [0x304; 0xC04; 0xE3] example_unit ≡
      (@run_writes memory_machine log ;; mret (set_model SKX example_unit)) /\
    frozen_writes SKX (PCICFGRegister32 7 0xF4) None log /\
    released_after_reset SKX (PCICFGRegister32 7 0xF4) log.
Proof.
  apply (@unit_programming_disciplined memory_machine SKX UNC_PMON_UNIT_CTL_RSV [0x304; 0xC04; 0xE3]
           example_unit (PCICFGRegister32 7 0xF4)).
  - by left.
  - done.
  - by left.
  - intros r Hr. simpl in Hr. rewrite !elem_of_cons, elem_of_nil in Hr.
    by destruct Hr as [[= ->]|[?|[[= ->]|[]]]].
Defined.

Lemma programmed_unit_state_witness :
  ((@program_unit memory_machine SKX UNC_PMON_UNIT_CTL_RSV [0x304; 0xC04; 0xE3] example_unit ;;
    @reg_read memory_machine (PCICFGRegister32 7 0xF4)) (HW [] ∅ ∅)).2 = Ok (2 ^ 16 + 2 ^ 17) /\
  ((@program_unit memory_machine SKX UNC_PMON_UNIT_CTL_RSV [0x304; 0xC04; 0xE3] example_unit ;;
    @reg_read memory_machine (PCICFGRegister32 7 0xDC)) (HW [] ∅ ∅)).2 = Ok (2 ^ 22 + 0xE3).
Proof.
  destruct (@programmed_unit_state memory_machine memory_machine_laws SKX UNC_PMON_UNIT_CTL_RSV
    [0x304; 0xC04; 0xE3] example_unit (PCICFGRegister32 7 0xF4) (HW [] ∅ ∅)) as [H1 H2].
  - by left.
  - done.
  - by left.
  - split; [by vm_compute|]. intros r Hr. unfold some_regs in Hr. simpl in Hr.
    rewrite !elem_of_cons, elem_of_nil in Hr. by destruct Hr as [->|[->|[->|[]]]].
  - by repeat (apply Forall_cons_2; [done|]).
  - split; [exact H1|]. exact (H2 2%nat _ _ eq_refl eq_refl).
Defined.
