(* ===== verification/ServerUncore.v ===== *)
(** The PCI configuration space uncore of a server socket: [ServerUncorePMUs] of
    [src/src/cpucounters.cpp] - the event tables of [program],
    [programServerUncoreMemoryMetrics] and [program_power_metrics], the programming of the
    memory controller, HBM, mesh-to-memory, link and home agent units, and the reads. *)

From S2P Require Import Prelude CpuModels Capabilities Registers UncorePMU.
Local Open Scope Z_scope.

(** * Event encodings ([types.h]) *)

(** [MC_CH_PCI_PMON_CTL_EVENT(x)], [Q_P_...], [M2M_...], [HA_...] are [x << 0], their
    [UMASK(x)] is [x << 8]. *)
Definition PMON_CTL_EVENT (x : Z) : Z := x.
Definition PMON_CTL_UMASK (x : Z) : Z := Z.shiftl x 8.
Definition PMON_CTL_THRESH (x : Z) : Z := Z.shiftl x 24.
Definition PMON_CTL_EDGE_DET : Z := 2 ^ 18.
Definition PMON_CTL_INVERT : Z := 2 ^ 23.
Definition Q_P_PCI_PMON_CTL_EVENT_EXT : Z := 2 ^ 21.
Definition UNC_PMON_CTL_UMASK_EXT (x : Z) : Z := Z.shiftl x 32.
Definition MC_CH_PCI_PMON_FIXED_CTL_RST : Z := 2 ^ 19.
Definition MC_CH_PCI_PMON_FIXED_CTL_EN : Z := 2 ^ 22.
Definition EDC_CH_PCI_PMON_FIXED_CTL_EN : Z := 2 ^ 0.

(** [ServerUncorePMUs::EventPosition] and the positions of other counters. *)
Definition READ : nat := 0.
Definition WRITE : nat := 1.
Definition READ2 : nat := 2.
Definition WRITE2 : nat := 3.
Definition READ_RANK_A : nat := 0.
Definition WRITE_RANK_A : nat := 1.
Definition READ_RANK_B : nat := 2.
Definition WRITE_RANK_B : nat := 3.
Definition PARTIAL : nat := 2.
Definition PMM_READ : nat := 2.
Definition PMM_WRITE : nat := 3.
Definition MM_MISS_CLEAN : nat := 2.
Definition MM_MISS_DIRTY : nat := 3.
Definition NM_HIT : nat := 0.
Definition M2M_CLOCKTICKS : nat := 1.
Definition REQUESTS_ALL : nat := 2.
Definition REQUESTS_LOCAL : nat := 3.
Definition xPI_TxL0P_POWER_CYCLES : nat := 0.
Definition xPI_L1_POWER_CYCLES : nat := 2.
Definition xPI_CLOCKTICKS : nat := 3.

Inductive ServerUncoreMemoryMetrics :=
  | PartialWrites | Pmem | PmemMemoryMode | PmemMixedMode | UnknownMetrics.

#[export] Instance ServerUncoreMemoryMetrics_eq_dec : EqDecision ServerUncoreMemoryMetrics.
Proof. solve_decision. Defined.

(** [uint32 cfg[4] = {0,0,0,0};] *)
Definition no_events : list Z := [0; 0; 0; 0].

(** * Event tables *)

(** The [MCCntConfig] and [EDCCntConfig] of [program()], [pmm]:
    [pcm->PMMTrafficMetricsAvailable()]. *)
Definition program_MCCntConfig (cpu_family_model : Z) (pmm : bool) : list Z :=
  let cfg :=
    switch cpu_family_model
      [([KNL],
        <[READ := PMON_CTL_EVENT 0x03 + PMON_CTL_UMASK 1]>
        (<[WRITE := PMON_CTL_EVENT 0x03 + PMON_CTL_UMASK 2]> no_events));
       ([SNOWRIDGE; ICX],
        <[READ := PMON_CTL_EVENT 0x04 + PMON_CTL_UMASK 0x0f]>
        (<[WRITE := PMON_CTL_EVENT 0x04 + PMON_CTL_UMASK 0x30]> no_events));
       ([SPR; EMR],
        <[READ := PMON_CTL_EVENT 0x05 + PMON_CTL_UMASK 0xcf]>
        (<[WRITE := PMON_CTL_EVENT 0x05 + PMON_CTL_UMASK 0xf0]> no_events));
       ([GNR; GNR_D; GRR; SRF],
        <[READ := PMON_CTL_EVENT 0x05 + PMON_CTL_UMASK 0xcf]>
        (<[WRITE := PMON_CTL_EVENT 0x05 + PMON_CTL_UMASK 0xf0]>
        (<[READ2 := PMON_CTL_EVENT 0x06 + PMON_CTL_UMASK 0xcf]>
        (<[WRITE2 := PMON_CTL_EVENT 0x06 + PMON_CTL_UMASK 0xf0]> no_events))))]
      (<[READ := PMON_CTL_EVENT 0x04 + PMON_CTL_UMASK 3]>
       (<[WRITE := PMON_CTL_EVENT 0x04 + PMON_CTL_UMASK 12]> no_events)) in
  if pmm then <[PMM_WRITE := PMON_CTL_EVENT 0xe7]> (<[PMM_READ := PMON_CTL_EVENT 0xe3]> cfg)
  else cfg.

Definition program_EDCCntConfig (cpu_family_model : Z) : list Z :=
  switch cpu_family_model
    [([KNL],
      <[READ := PMON_CTL_EVENT 0x01 + PMON_CTL_UMASK 1]>
      (<[WRITE := PMON_CTL_EVENT 0x02 + PMON_CTL_UMASK 1]> no_events));
     ([SPR; EMR],
      <[READ := PMON_CTL_EVENT 0x05 + PMON_CTL_UMASK 0xcf]>
      (<[WRITE := PMON_CTL_EVENT 0x05 + PMON_CTL_UMASK 0xf0]> no_events))]
    no_events.

Definition program_XPICntConfig (cpu_family_model : Z) : list Z :=
  if hasUPI cpu_family_model then
    [PMON_CTL_EVENT 0x26;
     PMON_CTL_EVENT 0x03 + PMON_CTL_UMASK 0xF;
     PMON_CTL_EVENT 0x02 + PMON_CTL_UMASK (Z.lor 0x97 0x0F);
     PMON_CTL_EVENT 0x01]
  else
    [PMON_CTL_EVENT 0x02 + Q_P_PCI_PMON_CTL_EVENT_EXT + PMON_CTL_UMASK 8;
     PMON_CTL_EVENT 0x03 + Q_P_PCI_PMON_CTL_EVENT_EXT + PMON_CTL_UMASK 4;
     PMON_CTL_EVENT 0x00 + PMON_CTL_UMASK 6;
     PMON_CTL_EVENT 0x14].

(** [setEvents2_3]: [None] when the platform has no such metrics. *)
Definition setEvents2_3 (metrics : ServerUncoreMemoryMetrics) (pmm : bool) (partial_write_event : Z)
    (cfg : list Z) : option (list Z) :=
  match metrics with
  | PmemMemoryMode | PmemMixedMode =>
      if pmm then
        Some (<[MM_MISS_DIRTY := PMON_CTL_EVENT 0xd3 + PMON_CTL_UMASK 4]>
              (<[MM_MISS_CLEAN := PMON_CTL_EVENT 0xd3 + PMON_CTL_UMASK 2]> cfg))
      else None
  | Pmem =>
      if pmm then
        Some (<[PMM_WRITE := PMON_CTL_EVENT 0xe7]> (<[PMM_READ := PMON_CTL_EVENT 0xe3]> cfg))
      else None
  | PartialWrites => Some (<[PARTIAL := partial_write_event]> cfg)
  | UnknownMetrics => None
  end.

(** The [MCCntConfig] and [EDCCntConfig] of [programServerUncoreMemoryMetrics]; [None]
    when it returns with a message and programs nothing. *)
Definition memory_metrics_config (cpu_family_model : Z) (pmm : bool)
    (metrics : ServerUncoreMemoryMetrics) (rankA rankB : Z) : option (list Z * list Z) :=
  let knl := Some
    (<[READ := PMON_CTL_EVENT 0x03 + PMON_CTL_UMASK 1]>
     (<[WRITE := PMON_CTL_EVENT 0x03 + PMON_CTL_UMASK 2]> no_events),
     <[READ := PMON_CTL_EVENT 0x01 + PMON_CTL_UMASK 1]>
     (<[WRITE := PMON_CTL_EVENT 0x02 + PMON_CTL_UMASK 1]> no_events)) in
  let ranks umask :=
    let cfg :=
      <[WRITE_RANK_A := PMON_CTL_EVENT (0xb8 + rankA) + PMON_CTL_UMASK umask]>
      (<[READ_RANK_A := PMON_CTL_EVENT (0xb0 + rankA) + PMON_CTL_UMASK umask]> no_events) in
    Some (if (0 <=? rankB) && (rankB <=? 7) then
            <[WRITE_RANK_B := PMON_CTL_EVENT (0xb8 + rankB) + PMON_CTL_UMASK umask]>
            (<[READ_RANK_B := PMON_CTL_EVENT (0xb0 + rankB) + PMON_CTL_UMASK umask]> cfg)
          else cfg, no_events) in
  if bool_decide (metrics = UnknownMetrics) then None
  else if (rankA <? 0) && (rankB <? 0) then
    switch cpu_family_model
      [([KNL], knl);
       ([SNOWRIDGE; ICX],
        let cfg :=
          if bool_decide (metrics = PmemMemoryMode) then
            <[NM_HIT := PMON_CTL_EVENT 0xd3 + PMON_CTL_UMASK 1]> no_events
          else
            <[WRITE := PMON_CTL_EVENT 0x04 + PMON_CTL_UMASK 0x30]>
            (<[READ := PMON_CTL_EVENT 0x04 + PMON_CTL_UMASK 0x0f]> no_events) in
        mc ← setEvents2_3 metrics pmm (PMON_CTL_EVENT 0x04 + PMON_CTL_UMASK 0x0c) cfg;
        Some (mc, no_events));
       ([SPR; EMR],
        let cfg :=
          <[WRITE := PMON_CTL_EVENT 0x05 + PMON_CTL_UMASK 0xf0]>
          (<[READ := PMON_CTL_EVENT 0x05 + PMON_CTL_UMASK 0xcf]> no_events) in
        mc ← setEvents2_3 metrics pmm (PMON_CTL_EVENT 0x05 + PMON_CTL_UMASK 0xcc) cfg;
        Some (mc, cfg));
       ([GNR; GNR_D; GRR; SRF],
        if bool_decide (metrics = PmemMemoryMode) then None
        else Some
          (<[READ := PMON_CTL_EVENT 0x05 + PMON_CTL_UMASK 0xcf]>
           (<[WRITE := PMON_CTL_EVENT 0x05 + PMON_CTL_UMASK 0xf0]>
           (<[READ2 := PMON_CTL_EVENT 0x06 + PMON_CTL_UMASK 0xcf]>
           (<[WRITE2 := PMON_CTL_EVENT 0x06 + PMON_CTL_UMASK 0xf0]> no_events))), no_events))]
      (mc ← setEvents2_3 metrics pmm (PMON_CTL_EVENT 0x04 + PMON_CTL_UMASK 2)
              (<[WRITE := PMON_CTL_EVENT 0x04 + PMON_CTL_UMASK 12]>
               (<[READ := PMON_CTL_EVENT 0x04 + PMON_CTL_UMASK 3]> no_events));
       Some (mc, no_events))
  else if (rankA <? 0) || (7 <? rankA) then None
  else
    switch cpu_family_model
      [([IVYTOWN], ranks 0xff); ([HASWELLX; BDX_DE; BDX; SKX], ranks 16); ([KNL], knl)] None.

Definition power_XPICntConfig (cpu_family_model : Z) : list Z :=
  let upi := hasUPI cpu_family_model in
  <[xPI_CLOCKTICKS := PMON_CTL_EVENT (if upi then 0x01 else 0x14)]>
  (<[xPI_L1_POWER_CYCLES := PMON_CTL_EVENT (if upi then 0x21 else 0x12)]>
  (<[xPI_TxL0P_POWER_CYCLES := PMON_CTL_EVENT (if upi then 0x27 else 0x0D)]> no_events)).

(** The two ranks watched by a CKE profile. *)
Definition cke_config (UNC_M_POWER_CKE_CYCLES umask_a umask_b : Z) : list Z :=
  let off umask := PMON_CTL_EVENT UNC_M_POWER_CKE_CYCLES + PMON_CTL_UMASK umask +
                   PMON_CTL_INVERT + PMON_CTL_THRESH 1 in
  let edges umask := PMON_CTL_EVENT UNC_M_POWER_CKE_CYCLES + PMON_CTL_UMASK umask +
                     PMON_CTL_THRESH 1 + PMON_CTL_EDGE_DET in
  [off umask_a; edges umask_a; off umask_b; edges umask_b].

Definition power_MCCntConfig (cpu_family_model mc_profile : Z) : list Z :=
  let UNC_M_POWER_CKE_CYCLES :=
    switch cpu_family_model [([ICX; SNOWRIDGE; SPR; EMR; SRF; GNR; GNR_D], 0x47)] 0x83 in
  let UNC_M_POWER_CHANNEL_PPD_CYCLES :=
    switch cpu_family_model [([SRF; GNR; GNR_D], 0x88)] 0x85 in
  let UNC_M_SELF_REFRESH_ENTER_SUCCESS_CYCLES_UMASK :=
    switch cpu_family_model [([SRF; GNR; GNR_D], 0x01)] 0 in
  switch mc_profile
    [([0], cke_config UNC_M_POWER_CKE_CYCLES 1 2);
     ([1], cke_config UNC_M_POWER_CKE_CYCLES 4 8);
     ([2], cke_config UNC_M_POWER_CKE_CYCLES 0x10 0x20);
     ([3], cke_config UNC_M_POWER_CKE_CYCLES 0x40 0x80);
     ([4],
      [PMON_CTL_EVENT 0x43 + PMON_CTL_UMASK UNC_M_SELF_REFRESH_ENTER_SUCCESS_CYCLES_UMASK;
       PMON_CTL_EVENT 0x43 + PMON_CTL_UMASK UNC_M_SELF_REFRESH_ENTER_SUCCESS_CYCLES_UMASK +
       PMON_CTL_THRESH 1 + PMON_CTL_EDGE_DET;
       PMON_CTL_EVENT UNC_M_POWER_CHANNEL_PPD_CYCLES; 0])]
    no_events.

(** The table of [programM2M()]. *)
Definition M2MCntConfig (cpu_family_model : Z) : list Z :=
  switch cpu_family_model
    [([SPR; EMR],
      <[PMM_WRITE := PMON_CTL_EVENT 0x25 + PMON_CTL_UMASK 0x80 + UNC_PMON_CTL_UMASK_EXT 0x18]>
      (<[PMM_READ := PMON_CTL_EVENT 0x24 + PMON_CTL_UMASK 0x20 + UNC_PMON_CTL_UMASK_EXT 0x03]>
      (<[M2M_CLOCKTICKS := PMON_CTL_EVENT 0x01]> no_events)));
     ([ICX],
      <[PMM_WRITE := PMON_CTL_EVENT 0x38 + PMON_CTL_UMASK 0x80 + UNC_PMON_CTL_UMASK_EXT 0x1C]>
      (<[PMM_READ := PMON_CTL_EVENT 0x37 + PMON_CTL_UMASK 0x20 + UNC_PMON_CTL_UMASK_EXT 0x07]>
      (<[M2M_CLOCKTICKS := 0]>
      (<[NM_HIT := PMON_CTL_EVENT 0x2c + PMON_CTL_UMASK 3]> no_events))));
     ([GNR; GNR_D; SRF],
      <[MM_MISS_DIRTY := PMON_CTL_EVENT 0x4B + PMON_CTL_UMASK 0x0A]>
      (<[MM_MISS_CLEAN := PMON_CTL_EVENT 0x4B + PMON_CTL_UMASK 0x05]>
      (<[M2M_CLOCKTICKS := 0]>
      (<[NM_HIT := PMON_CTL_EVENT 0x1F + PMON_CTL_UMASK 0x0F]> no_events))))]
    (<[PMM_WRITE := PMON_CTL_EVENT 0x38 + PMON_CTL_UMASK 0x20]>
     (<[PMM_READ := PMON_CTL_EVENT 0x37 + PMON_CTL_UMASK 0x8]>
     (<[M2M_CLOCKTICKS := 0]>
     (<[NM_HIT := PMON_CTL_EVENT 0x2c + PMON_CTL_UMASK 3]> no_events)))).

(** The table of [programHA()], without [PCM_HA_REQUESTS_READS_ONLY], which the build
    does not define. *)
Definition HACntConfig : list Z :=
  <[REQUESTS_LOCAL := PMON_CTL_EVENT 0x01 + PMON_CTL_UMASK (1 + 4)]>
  (<[REQUESTS_ALL := PMON_CTL_EVENT 0x01 + PMON_CTL_UMASK (1 + 2 + 4 + 8)]> no_events).

(** * State *)

Record ServerUncorePMUs := MkServer {
  cpu_family_model : Z;
  imcPMUs : list UncorePMU;
  edcPMUs : list UncorePMU;
  xpiPMUs : list UncorePMU;
  m3upiPMUs : list UncorePMU;
  m2mPMUs : list UncorePMU;
  haPMUs : list UncorePMU;
  hbm_m2mPMUs : list UncorePMU;
  num_imc_channels : list Z
}.

Definition set_imc l s := MkServer (cpu_family_model s) l (edcPMUs s) (xpiPMUs s) (m3upiPMUs s)
  (m2mPMUs s) (haPMUs s) (hbm_m2mPMUs s) (num_imc_channels s).
Definition set_edc l s := MkServer (cpu_family_model s) (imcPMUs s) l (xpiPMUs s) (m3upiPMUs s)
  (m2mPMUs s) (haPMUs s) (hbm_m2mPMUs s) (num_imc_channels s).
Definition set_xpi l s := MkServer (cpu_family_model s) (imcPMUs s) (edcPMUs s) l (m3upiPMUs s)
  (m2mPMUs s) (haPMUs s) (hbm_m2mPMUs s) (num_imc_channels s).
Definition set_m3upi l s := MkServer (cpu_family_model s) (imcPMUs s) (edcPMUs s) (xpiPMUs s) l
  (m2mPMUs s) (haPMUs s) (hbm_m2mPMUs s) (num_imc_channels s).
Definition set_m2m l s := MkServer (cpu_family_model s) (imcPMUs s) (edcPMUs s) (xpiPMUs s)
  (m3upiPMUs s) l (haPMUs s) (hbm_m2mPMUs s) (num_imc_channels s).
Definition set_ha l s := MkServer (cpu_family_model s) (imcPMUs s) (edcPMUs s) (xpiPMUs s)
  (m3upiPMUs s) (m2mPMUs s) l (hbm_m2mPMUs s) (num_imc_channels s).
Definition set_hbm_m2m l s := MkServer (cpu_family_model s) (imcPMUs s) (edcPMUs s) (xpiPMUs s)
  (m3upiPMUs s) (m2mPMUs s) (haPMUs s) l (num_imc_channels s).

Definition HBMAvailable (s : ServerUncorePMUs) : bool :=
  match edcPMUs s with [] => false | _ => true end.

(** The first invalid unit removed, [None] when all are valid. *)
Fixpoint erase_first_invalid (l : list UncorePMU) : option (list UncorePMU) :=
  match l with
  | [] => None
  | i :: l' => if negb (valid i) then Some l' else (cons i) <$> erase_first_invalid l'
  end.

(** [cleanupQPIHandles]: erases and calls itself again. *)
Fixpoint cleanupQPIHandles (fuel : nat) (l : list UncorePMU) : list UncorePMU :=
  match erase_first_invalid l, fuel with
  | Some l', S fuel' => cleanupQPIHandles fuel' l'
  | _, _ => l
  end.

(** * Operations *)

Section Code.
Context {machine : Machine}.

(** The members of the [PCM] singleton that the code reads: the model, and the two
    predicates on the available memory metrics. *)
Context (pcm_model : Z) (pcm_pmm pcm_hbm : bool).

Definition enableAndResetMCFixedCounter (pmu : UncorePMU) : M unit :=
  ptr_write (fixedCounterControl pmu) MC_CH_PCI_PMON_FIXED_CTL_EN ;;
  ptr_write (fixedCounterControl pmu) (MC_CH_PCI_PMON_FIXED_CTL_EN + MC_CH_PCI_PMON_FIXED_CTL_RST).

(** One iteration of the loop of [programIMC]. *)
Definition programIMC_unit (extraIMC : Z) (cfg : list Z) (pmu : UncorePMU) : M UncorePMU :=
  r ← initFreeze pcm_model extraIMC false pmu;
  enableAndResetMCFixedCounter r.1 ;;
  program pcm_model r.1 (Some cfg) extraIMC.

Definition extraIMC (m : Z) : Z := if m =? SKX then UNC_PMON_UNIT_CTL_RSV else UNC_PMON_UNIT_CTL_FRZ_EN.

Definition programIMC (MCCntConfig : list Z) (s : ServerUncorePMUs) : M ServerUncorePMUs :=
  l ← mapM_ (imcPMUs s) (programIMC_unit (extraIMC (cpu_family_model s)) MCCntConfig);
  mret (set_imc l s).

Definition programEDC (EDCCntConfig : list Z) (s : ServerUncorePMUs) : M ServerUncorePMUs :=
  l ← mapM_ (edcPMUs s) (fun pmu =>
        r ← initFreeze pcm_model UNC_PMON_UNIT_CTL_FRZ_EN false pmu;
        (if cpu_family_model s =? KNL
         then ptr_write (fixedCounterControl r.1) EDC_CH_PCI_PMON_FIXED_CTL_EN
         else enableAndResetMCFixedCounter r.1) ;;
        program pcm_model r.1 (Some EDCCntConfig) UNC_PMON_UNIT_CTL_FRZ_EN);
  mret (set_edc l s).

(** The loops of [programM2M], [programM3UPI], [programHA]. *)
Definition program_units (config : list Z) (l : list UncorePMU) : M (list UncorePMU) :=
  mapM_ l (program_unit pcm_model UNC_PMON_UNIT_CTL_RSV config).

Definition programM2M_cfg (cfg : list Z) (s : ServerUncorePMUs) : M ServerUncorePMUs :=
  l ← program_units cfg (m2mPMUs s); mret (set_m2m l s).

Definition programM2M (s : ServerUncorePMUs) : M ServerUncorePMUs :=
  programM2M_cfg (M2MCntConfig (cpu_family_model s)) s.

Definition programM3UPI (M3UPICntConfig : list Z) (s : ServerUncorePMUs) : M ServerUncorePMUs :=
  l ← program_units M3UPICntConfig (m3upiPMUs s); mret (set_m3upi l s).

Definition programHA_cfg (config : list Z) (s : ServerUncorePMUs) : M ServerUncorePMUs :=
  l ← program_units config (haPMUs s); mret (set_ha l s).

Definition programHA (s : ServerUncorePMUs) : M ServerUncorePMUs := programHA_cfg HACntConfig s.

(** One iteration of the loop of [programXPI]: a disabled link is skipped. *)
Definition programXPI_unit (extra : Z) (event : list Z) (pmu : UncorePMU) : M UncorePMU :=
  r ← initFreeze pcm_model extra true pmu;
  if r.2 : bool then program pcm_model r.1 (Some event) extra else mret r.1.

Definition programXPI (event : list Z) (s : ServerUncorePMUs) : M ServerUncorePMUs :=
  let extra := if hasUPI (cpu_family_model s) then UNC_PMON_UNIT_CTL_RSV else UNC_PMON_UNIT_CTL_FRZ_EN in
  l ← mapM_ (xpiPMUs s) (programXPI_unit extra event);
  mret (set_xpi (cleanupQPIHandles (length l) l) s).

Definition programEDC_if (EDCCntConfig : list Z) (s : ServerUncorePMUs) : M ServerUncorePMUs :=
  if pcm_hbm then programEDC EDCCntConfig s else mret s.

(** [ServerUncorePMUs::program] *)
Definition program_server (s : ServerUncorePMUs) : M ServerUncorePMUs :=
  s ← programIMC (program_MCCntConfig (cpu_family_model s) pcm_pmm) s;
  s ← programEDC_if (program_EDCCntConfig (cpu_family_model s)) s;
  s ← programM2M s;
  s ← programXPI (program_XPICntConfig (cpu_family_model s)) s;
  programHA s.

Definition programServerUncoreMemoryMetrics (metrics : ServerUncoreMemoryMetrics) (rankA rankB : Z)
    (s : ServerUncorePMUs) : M ServerUncorePMUs :=
  match memory_metrics_config (cpu_family_model s) pcm_pmm metrics rankA rankB with
  | None => mret s
  | Some (MCCntConfig, EDCCntConfig) =>
      s ← programIMC MCCntConfig s;
      s ← programEDC_if EDCCntConfig s;
      s ← programM2M s;
      mret (set_xpi [] s)
  end.

Definition program_power_metrics (mc_profile : Z) (s : ServerUncorePMUs) : M ServerUncorePMUs :=
  s ← programXPI (power_XPICntConfig (cpu_family_model s)) s;
  programIMC (power_MCCntConfig (cpu_family_model s) mc_profile) s.

Definition cleanupPMUs (s : ServerUncorePMUs) : M unit :=
  forM (xpiPMUs s) cleanup ;; forM (imcPMUs s) cleanup ;; forM (edcPMUs s) cleanup ;;
  forM (m2mPMUs s) cleanup ;; forM (haPMUs s) cleanup.

(** The loops over [allPMUs], in its order. *)
Definition for_all_PMUs (f : UncorePMU -> M UncorePMU) (s : ServerUncorePMUs) : M ServerUncorePMUs :=
  l ← mapM_ (imcPMUs s) f; s ← mret (set_imc l s);
  l ← mapM_ (edcPMUs s) f; s ← mret (set_edc l s);
  l ← mapM_ (xpiPMUs s) f; s ← mret (set_xpi l s);
  l ← mapM_ (m3upiPMUs s) f; s ← mret (set_m3upi l s);
  l ← mapM_ (m2mPMUs s) f; s ← mret (set_m2m l s);
  l ← mapM_ (haPMUs s) f; s ← mret (set_ha l s);
  l ← mapM_ (hbm_m2mPMUs s) f; mret (set_hbm_m2m l s).

Definition freezeCounters (s : ServerUncorePMUs) : M ServerUncorePMUs :=
  for_all_PMUs (freeze pcm_model (extraIMC (cpu_family_model s))) s.

Definition unfreezeCounters (s : ServerUncorePMUs) : M ServerUncorePMUs :=
  for_all_PMUs (unfreeze pcm_model (extraIMC (cpu_family_model s))) s.

(** ** Reads

    Indexing a vector past its end, which the code excludes by assertions at most, is an
    [OutOfRange] error. *)

Definition getPMUCounter (pmu : list UncorePMU) (id counter : nat) : M Z :=
  match pmu !! id with
  | Some u =>
      if (counter <? 4)%nat then
        match counterValue u !! counter with
        | Some (Some r) => reg_read r
        | Some None => mret 0
        | None => throw OutOfRange
        end
      else mret 0
  | None => mret 0
  end.

Definition getHACounter (s : ServerUncorePMUs) := getPMUCounter (haPMUs s).
Definition getMCCounter (s : ServerUncorePMUs) := getPMUCounter (imcPMUs s).
Definition getEDCCounter (s : ServerUncorePMUs) := getPMUCounter (edcPMUs s).
Definition getM2MCounter (s : ServerUncorePMUs) := getPMUCounter (m2mPMUs s).
Definition getQPILLCounter (s : ServerUncorePMUs) := getPMUCounter (xpiPMUs s).
Definition getM3UPICounter (s : ServerUncorePMUs) := getPMUCounter (m3upiPMUs s).

(** [for (i = begin; n iterations; ++i) result += term(i)] on a [uint64]. *)
Fixpoint sum_from (n begin : nat) (term : nat -> M Z) (result : Z) : M Z :=
  match n with
  | O => mret result
  | S n' => v ← term begin; sum_from n' (S begin) term (u64 (result + v))
  end.

Definition four_counter_imc (m : Z) : bool := switch m [([GNR; GNR_D; GRR; SRF], true)] false.

(** The reads (writes) of one channel: a second sub-channel on recent servers. *)
Definition channel_sum (s : ServerUncorePMUs) (first second : nat) (i : nat) : M Z :=
  v ← getMCCounter s i first;
  if four_counter_imc (cpu_family_model s)
  then v2 ← getMCCounter s i second; mret (v + v2)
  else mret v.

Definition getImcReadsForChannels (s : ServerUncorePMUs) (beginChannel endChannel : nat) : M Z :=
  sum_from (Nat.min endChannel (length (imcPMUs s)) - beginChannel) beginChannel
    (channel_sum s READ READ2) 0.

Definition getImcReads (s : ServerUncorePMUs) : M Z :=
  getImcReadsForChannels s 0 (length (imcPMUs s)).

(** [beginChannel] and [endChannel] of a controller; [None] where the assertion that
    [controller] is in range fails. *)
Definition controller_channels (s : ServerUncorePMUs) (controller : nat) : option (Z * Z) :=
  n ← num_imc_channels s !! controller;
  let beginChannel := foldl (fun a c => u32 (a + c)) 0 (take controller (num_imc_channels s)) in
  Some (beginChannel, u32 (beginChannel + n)).

Definition getImcReadsForController (s : ServerUncorePMUs) (controller : nat) : M Z :=
  match controller_channels s controller with
  | Some (b, e) => getImcReadsForChannels s (Z.to_nat b) (Z.to_nat e)
  | None => throw OutOfRange
  end.

Definition getImcWrites (s : ServerUncorePMUs) : M Z :=
  sum_from (length (imcPMUs s)) 0 (channel_sum s WRITE WRITE2) 0.

Definition getNMHits (s : ServerUncorePMUs) : M Z :=
  sum_from (length (m2mPMUs s)) 0 (fun i => getM2MCounter s i NM_HIT) 0.

Definition getNMMisses (s : ServerUncorePMUs) : M Z :=
  sum_from (length (m2mPMUs s)) 0 (fun i =>
    clean ← getM2MCounter s i MM_MISS_CLEAN;
    dirty ← getM2MCounter s i MM_MISS_DIRTY; mret (clean + dirty)) 0.

Definition getPMMReads (s : ServerUncorePMUs) : M Z :=
  sum_from (length (m2mPMUs s)) 0 (fun i => getM2MCounter s i PMM_READ) 0.

Definition getPMMWrites (s : ServerUncorePMUs) : M Z :=
  sum_from (length (m2mPMUs s)) 0 (fun i => getM2MCounter s i PMM_WRITE) 0.

(** [*pmu.counterValue[counter]] *)
Definition counter_value (pmu : UncorePMU) (counter : nat) : M Z :=
  match counterValue pmu !! counter with
  | Some p => ptr_read p
  | None => throw OutOfRange
  end.

(** [for (auto & pmu : pmus) result += *pmu.counterValue[counter]] *)
Fixpoint sum_counters (pmus : list UncorePMU) (counter : nat) (result : Z) : M Z :=
  match pmus with
  | [] => mret result
  | pmu :: pmus' => v ← counter_value pmu counter; sum_counters pmus' counter (u64 (result + v))
  end.

Definition getEdcReads (s : ServerUncorePMUs) : M Z := sum_counters (edcPMUs s) READ 0.
Definition getEdcWrites (s : ServerUncorePMUs) : M Z := sum_counters (edcPMUs s) WRITE 0.
Definition getHARequests (s : ServerUncorePMUs) : M Z := sum_counters (haPMUs s) REQUESTS_ALL 0.
Definition getHALocalRequests (s : ServerUncorePMUs) : M Z := sum_counters (haPMUs s) REQUESTS_LOCAL 0.

Definition getIncomingDataFlits (s : ServerUncorePMUs) (port : nat) : M Z :=
  match xpiPMUs s !! port with
  | None => mret 0
  | Some pmu =>
      drs ← (if hasUPI (cpu_family_model s) then mret 0 else counter_value pmu 0);
      ncb ← counter_value pmu 1;
      mret (u64 (drs + ncb))
  end.

Definition getOutgoingFlits (s : ServerUncorePMUs) (port : nat) : M Z := getQPILLCounter s port 2.

Definition getUPIL0TxCycles (s : ServerUncorePMUs) (port : nat) : M Z :=
  if hasUPI (cpu_family_model s) then getQPILLCounter s port 0 else mret 0.

Definition getQPIClocks (s : ServerUncorePMUs) (port : nat) : M Z := getQPILLCounter s port xPI_CLOCKTICKS.
Definition getQPIL0pTxCycles (s : ServerUncorePMUs) (port : nat) : M Z :=
  getQPILLCounter s port xPI_TxL0P_POWER_CYCLES.
Definition getQPIL1Cycles (s : ServerUncorePMUs) (port : nat) : M Z :=
  getQPILLCounter s port xPI_L1_POWER_CYCLES.

Definition fixed_clocks (l : list UncorePMU) (channel : nat) : M Z :=
  match l !! channel with Some pmu => ptr_read (fixedCounterValue pmu) | None => mret 0 end.

Definition getDRAMClocks (s : ServerUncorePMUs) (channel : nat) : M Z := fixed_clocks (imcPMUs s) channel.
Definition getHBMClocks (s : ServerUncorePMUs) (channel : nat) : M Z := fixed_clocks (edcPMUs s) channel.

End Code.

(** * Removal of disabled links *)

Lemma erase_first_invalid_spec l :
  match erase_first_invalid l with
  | None => filter (fun p => valid p = true) l = l
  | Some l' => filter (fun p => valid p = true) l' = filter (fun p => valid p = true) l /\
               length l = S (length l')
  end.
Proof.
  induction l as [|p l IH]; simpl; [done|]. destruct (valid p) eqn:Hp; simpl.
  - destruct (erase_first_invalid l) as [l'|]; simpl.
    + destruct IH as [IH1 IH2]. rewrite !filter_cons_True by done. split; congruence.
    + rewrite filter_cons_True by done. congruence.
  - rewrite filter_cons_False by congruence. done.
Qed.

Lemma cleanupQPIHandles_filter n l : (length l <= n)%nat ->
  cleanupQPIHandles n l = filter (fun p => valid p = true) l.
Proof.
  revert l. induction n as [|n IH]; intros l Hn; simpl;
    pose proof (erase_first_invalid_spec l) as H; destruct (erase_first_invalid l) as [l'|]; try done.
  - destruct H as [_ H]. lia.
  - destruct H as [<- H]. apply IH. lia.
Qed.

(** * Lists of computations *)

Section Lists.
Context {machine : Machine}.

Lemma mapM__ok {A B} (P : A -> B -> Prop) (f : A -> M B) l h h' bs :
  (forall a h h' b, a ∈ l -> f a h = (h', Ok b) -> P a b) ->
  mapM_ l f h = (h', Ok bs) -> Forall2 P l bs.
Proof.
  revert h bs. induction l as [|a l IH]; intros h bs HP Hrun; simpl in Hrun.
  { injection Hrun as <- <-. constructor. }
  unfold mbind, M_bind in Hrun. destruct (f a h) as [h1 [b|]] eqn:E1; [|done].
  destruct (mapM_ l f h1) as [h2 [bs'|]] eqn:E2; [|done]. injection Hrun as <- <-. constructor.
  - eapply HP; [left|done].
  - eapply IH; [|done]. intros. eapply HP; [right|]; done.
Qed.

(** A computation that never throws, whatever the machine answers, leaves the extenders
    alone and returns a result with the property [P]. *)
Definition safe_with {A} (P : A -> Prop) (m : M A) : Prop :=
  forall h, exists h' a, m h = (h', Ok a) /\ extenders h' = extenders h /\ P a.

Lemma safe_with_ret {A} (P : A -> Prop) a : P a -> safe_with P (mret a).
Proof. intros ? h. by exists h, a. Qed.

Lemma safe_with_bind {A B} (P : A -> Prop) (Q : B -> Prop) (m : M A) (f : A -> M B) :
  safe_with P m -> (forall a, P a -> safe_with Q (f a)) -> safe_with Q (m ≫= f).
Proof.
  intros Hm Hf h. destruct (Hm h) as (h1 & a & Hrun & <- & Ha). unfold mbind, M_bind. rewrite Hrun.
  by apply Hf.
Qed.

Lemma safe_with_weaken {A} (P Q : A -> Prop) m : safe_with P m -> (forall a, P a -> Q a) -> safe_with Q m.
Proof. intros Hm HPQ h. destruct (Hm h) as (h' & a & ? & ? & ?). exists h', a. auto. Qed.

Lemma safe_with_mapM_ {A B} (P : B -> Prop) (f : A -> M B) l :
  (forall a, a ∈ l -> safe_with P (f a)) -> safe_with (Forall P) (mapM_ l f).
Proof.
  induction l as [|a l IH]; intros Hf; simpl; [by apply safe_with_ret|].
  apply (safe_with_bind P); [apply Hf; left|]. intros b Hb.
  apply (safe_with_bind (Forall P)); [apply IH; intros; apply Hf; by right|].
  intros bs Hbs. apply safe_with_ret. by constructor.
Qed.

(** Registers that every machine accepts accesses to: all but the extenders. *)
Definition plain (r : HWRegister) : bool :=
  match r with CounterWidthExtenderRegister _ => false | _ => true end.

Lemma safe_reg_write r v : plain r = true -> safe_with (fun _ => True) (reg_write r v).
Proof. destruct r as [| | | |[]|]; intros ? h; try done; by eexists _, tt. Qed.

Lemma safe_reg_read r : plain r = true -> safe_with (fun _ => True) (reg_read r).
Proof. destruct r as [| | | |[]|]; intros ? h; try done; by eexists _, _. Qed.

Definition plain_ptr (p : HWRegisterPtr) : bool :=
  match p with Some r => plain r | None => false end.

Lemma safe_ptr_write p v : plain_ptr p = true -> safe_with (fun _ => True) (ptr_write p v).
Proof. destruct p; [|done]. apply safe_reg_write. Qed.

Lemma safe_ptr_read p : plain_ptr p = true -> safe_with (fun _ => True) (ptr_read p).
Proof. destruct p; [|done]. apply safe_reg_read. Qed.

End Lists.

(** * Safety of programming *)

(** A unit with a control register, all of whose registers are plain. *)
Definition unit_equipped (pmu : UncorePMU) : bool :=
  plain_ptr (unitControl pmu) &&
  forallb (fun p => match p with Some r => plain r | None => true end) (counterControl pmu).

Definition imc_equipped (pmu : UncorePMU) : bool :=
  unit_equipped pmu && plain_ptr (fixedCounterControl pmu).

Definition server_equipped (s : ServerUncorePMUs) : bool :=
  forallb imc_equipped (imcPMUs s) && forallb imc_equipped (edcPMUs s) &&
  forallb unit_equipped (xpiPMUs s) && forallb unit_equipped (m2mPMUs s) &&
  forallb unit_equipped (haPMUs s).

(** Programming changes nothing of a unit but its model cache. *)
Definition recached (pmu p : UncorePMU) : Prop := exists m, p = set_model m pmu.

Lemma recached_refl pmu : recached pmu pmu.
Proof. exists (cpu_family_model_ pmu). by destruct pmu. Qed.

Lemma recached_equipped pmu p : recached pmu p -> unit_equipped p = unit_equipped pmu /\ imc_equipped p = imc_equipped pmu.
Proof. by intros [m ->]. Qed.

Lemma recached_trans a b c : recached a b -> recached b c -> recached a c.
Proof. intros [m ->] [m' ->]. by exists m'. Qed.

Section Safety.
Context {machine : Machine} (pcm_model : Z).

Lemma set_model_equipped pmu : unit_equipped (set_model pcm_model pmu) = unit_equipped pmu /\
  imc_equipped (set_model pcm_model pmu) = imc_equipped pmu.
Proof. done. Qed.

Lemma forallb_Forall_true {A} (f : A -> bool) l : Forall (fun a => f a = true) l -> forallb f l = true.
Proof. intros H. apply forallb_forall. intros a Ha%list_elem_of_In. exact (proj1 (Forall_forall _ _) H a Ha). Qed.

Lemma getCPUFamilyModel_cases pmu : exists m, getCPUFamilyModel pcm_model pmu = (m, set_model m pmu).
Proof.
  unfold getCPUFamilyModel. destruct pmu as [c ? ? ? ? ? ? ?]; simpl.
  destruct (Z.eqb_spec c 0); [by exists pcm_model|]. by exists c.
Qed.

Lemma safe_initFreeze extra check pmu : unit_equipped pmu = true ->
  safe_with (fun r => valid r.1 = r.2 /\ (r.2 = true -> recached pmu r.1)) (initFreeze pcm_model extra check pmu).
Proof.
  intros Heq. pose proof Heq as [Hu Hc]%andb_true_iff. unfold initFreeze.
  destruct (unitControl pmu) as [u|] eqn:E; [|done]. simpl in Hu.
  destruct (getCPUFamilyModel_cases pmu) as (m & ->).
  assert (valid (set_model m pmu) = true) by (unfold valid, set_model; simpl; by rewrite E).
  destruct (spr_unit m).
  - eapply safe_with_bind; [by apply safe_reg_write|]. intros _ _.
    eapply safe_with_bind; [by apply safe_reg_write|]. intros _ _. apply safe_with_ret. split; [done|by exists m].
  - eapply safe_with_bind; [by apply safe_reg_write|]. intros _ _.
    apply (safe_with_bind (fun _ => True)).
    { destruct check; [|by apply safe_with_ret].
      eapply safe_with_bind; [by apply safe_reg_read|]. intros. by apply safe_with_ret. }
    intros [] _; [by apply safe_with_ret|].
    eapply safe_with_bind; [by apply safe_reg_write|]. intros _ _. apply safe_with_ret. split; [done|by exists m].
Qed.

Lemma safe_program_loop ctrls events :
  forallb (fun p => match p with Some r => plain r | None => true end) ctrls = true ->
  safe_with (fun _ => True) (program_loop pcm_model ctrls events).
Proof.
  revert events. induction ctrls as [|c ctrls IH]; intros [|e events] Hc; simpl; try by apply safe_with_ret.
  apply andb_true_iff in Hc as [Hc Hcs].
  apply (safe_with_bind (fun _ => True)); [|by intros; apply IH].
  unfold program_counter. destruct c as [r|]; [|by apply safe_with_ret].
  destruct (spr_unit pcm_model); [by apply safe_reg_write|].
  eapply safe_with_bind; [by apply safe_reg_write|]. intros _ _. by apply safe_reg_write.
Qed.

Lemma safe_resetUnfreeze extra pmu : unit_equipped pmu = true ->
  safe_with (recached pmu) (resetUnfreeze pcm_model extra pmu).
Proof.
  intros Heq. pose proof Heq as [Hu Hc]%andb_true_iff. unfold resetUnfreeze.
  destruct (getCPUFamilyModel_cases pmu) as (m & ->).
  destruct (spr_unit m); (eapply safe_with_bind; [by apply safe_ptr_write|]; intros _ _;
    eapply safe_with_bind; [by apply safe_ptr_write|]; intros _ _; apply safe_with_ret; by exists m).
Qed.

Lemma safe_program extra events pmu : unit_equipped pmu = true ->
  safe_with (recached pmu) (program pcm_model pmu (Some events) extra).
Proof.
  intros Heq. pose proof Heq as [Hu Hc]%andb_true_iff. unfold program.
  eapply safe_with_bind; [by apply safe_program_loop|]. intros _ _.
  destruct (negb (extra =? 0)); [by apply safe_resetUnfreeze|apply safe_with_ret, recached_refl].
Qed.

(** [initFreeze] of a unit whose presence is not checked leaves it valid. *)
Lemma initFreeze_unchecked extra pmu h h' r :
  initFreeze pcm_model extra false pmu h = (h', Ok r) -> r.2 = true.
Proof.
  unfold initFreeze. destruct (unitControl pmu); [|by intros [= <- <-]].
  destruct (getCPUFamilyModel_cases pmu) as (m & ->).
  destruct (spr_unit m); unfold mbind, M_bind, mret, M_ret;
    repeat (case_match; simplify_eq; try done); by intros [= <- <-].
Qed.

Lemma safe_initFreeze_unchecked extra pmu : unit_equipped pmu = true ->
  safe_with (fun r => recached pmu r.1) (initFreeze pcm_model extra false pmu).
Proof.
  intros Heq h. destruct (safe_initFreeze extra false pmu Heq h) as (h' & r & Hrun & Hx & _ & Hr).
  exists h', r. split_and!; [done..|]. apply Hr. by eapply initFreeze_unchecked.
Qed.

Lemma safe_program_unit extra events pmu : unit_equipped pmu = true ->
  safe_with (recached pmu) (program_unit pcm_model extra events pmu).
Proof.
  intros Heq. unfold program_unit. eapply safe_with_bind; [by apply safe_initFreeze_unchecked|].
  intros r Hr. eapply safe_with_weaken; [apply safe_program|intros p; by eapply recached_trans].
  by rewrite (proj1 (recached_equipped _ _ Hr)).
Qed.

Lemma safe_fixed pmu : imc_equipped pmu = true ->
  safe_with (fun _ => True) (enableAndResetMCFixedCounter pmu).
Proof.
  intros [_ Hf]%andb_true_iff. unfold enableAndResetMCFixedCounter.
  eapply safe_with_bind; [by apply safe_ptr_write|]. intros _ _. by apply safe_ptr_write.
Qed.

Lemma safe_programIMC cfg s : forallb imc_equipped (imcPMUs s) = true ->
  safe_with (fun s' => exists l, s' = set_imc l s /\ forallb imc_equipped l = true) (programIMC pcm_model cfg s).
Proof.
  intros Hl. unfold programIMC. rewrite forallb_forall in Hl.
  apply (safe_with_bind (Forall (fun p => imc_equipped p = true)));
    [|intros l Hp; apply safe_with_ret; exists l; split; [done|by apply forallb_Forall_true]].
  apply safe_with_mapM_. intros pmu Hpmu%list_elem_of_In%Hl.
  pose proof Hpmu as [Heq _]%andb_true_iff.
  unfold programIMC_unit. eapply safe_with_bind; [by apply safe_initFreeze_unchecked|].
  intros r Hr. destruct (recached_equipped _ _ Hr) as [Hu Hi].
  eapply safe_with_bind; [apply safe_fixed; congruence|]. intros _ _.
  eapply safe_with_weaken; [apply safe_program; congruence|]. intros p [_ ->]%recached_equipped. congruence.
Qed.

Lemma safe_programEDC cfg s : forallb imc_equipped (edcPMUs s) = true ->
  safe_with (fun s' => exists l, s' = set_edc l s /\ forallb imc_equipped l = true) (programEDC pcm_model cfg s).
Proof.
  intros Hl. unfold programEDC. rewrite forallb_forall in Hl.
  apply (safe_with_bind (Forall (fun p => imc_equipped p = true)));
    [|intros l Hp; apply safe_with_ret; exists l; split; [done|by apply forallb_Forall_true]].
  apply safe_with_mapM_. intros pmu Hpmu%list_elem_of_In%Hl.
  pose proof Hpmu as [Heq _]%andb_true_iff.
  eapply safe_with_bind; [by apply safe_initFreeze_unchecked|].
  intros r Hr. destruct (recached_equipped _ _ Hr) as [Hu Hi].
  apply (safe_with_bind (fun _ => True));
    [|intros; eapply safe_with_weaken; [apply safe_program; congruence|intros p [_ ->]%recached_equipped; congruence]].
  destruct (cpu_family_model s =? KNL); [|apply safe_fixed; congruence].
  apply safe_ptr_write. rewrite Hpmu in Hi. by apply andb_true_iff in Hi as [_ ?].
Qed.

Lemma safe_program_units cfg l : forallb unit_equipped l = true ->
  safe_with (fun l' => forallb unit_equipped l' = true) (program_units pcm_model cfg l).
Proof.
  rewrite forallb_forall. intros Hl.
  apply (safe_with_weaken (Forall (fun p => unit_equipped p = true))); [|intros l'; apply forallb_Forall_true].
  apply safe_with_mapM_. intros pmu Hpmu%list_elem_of_In%Hl.
  eapply safe_with_weaken; [by apply safe_program_unit|]. intros p [-> _]%recached_equipped. done.
Qed.

Lemma safe_programXPI_unit extra event pmu : unit_equipped pmu = true ->
  safe_with (fun p => valid p = true -> unit_equipped p = true) (programXPI_unit pcm_model extra event pmu).
Proof.
  intros Heq. unfold programXPI_unit. eapply safe_with_bind; [by apply safe_initFreeze|].
  intros [p []] [Hv Hr]; simpl in *; [|apply safe_with_ret; congruence].
  destruct (recached_equipped _ _ (Hr eq_refl)) as [Hu _].
  eapply safe_with_weaken; [apply safe_program; congruence|]. intros p' [-> _]%recached_equipped _. congruence.
Qed.

Lemma safe_programXPI event s : forallb unit_equipped (xpiPMUs s) = true ->
  safe_with (fun s' => exists l, s' = set_xpi l s /\ forallb unit_equipped l = true) (programXPI pcm_model event s).
Proof.
  rewrite forallb_forall. intros Hl. unfold programXPI.
  apply (safe_with_bind (Forall (fun p => valid p = true -> unit_equipped p = true))).
  - apply safe_with_mapM_. intros pmu Hpmu%list_elem_of_In%Hl. by apply safe_programXPI_unit.
  - intros l Hp. apply safe_with_ret. eexists. split; [done|]. rewrite cleanupQPIHandles_filter by done.
    apply forallb_forall. intros p [Hv Hin]%list_elem_of_In%list_elem_of_filter.
    by apply (proj1 (Forall_forall _ _) Hp).
Qed.

End Safety.

(** * Presence of links *)

(** Whether the link of [pmu] answers the check of [initFreeze] in state [h]: the unit
    has an [SPR_] control, or its control register reads back what was written. *)
Definition link_answers {machine : Machine} (pcm_model extra : Z) (pmu : UncorePMU) (h : hw) : Prop :=
  forall u, unitControl pmu = Some u ->
    spr_unit (getCPUFamilyModel pcm_model pmu).1 = true \/
    forall h' v, (reg_write u extra ;; reg_read u) h = (h', Ok v) ->
      Z.land extra UNC_PMON_UNIT_CTL_VALID_BITS_MASK = Z.land v UNC_PMON_UNIT_CTL_VALID_BITS_MASK.

(** What [programXPI_unit] does to a unit that has a control register: a unit that does
    not answer loses it, one that answers keeps all its registers. *)
Definition link_outcome {machine : Machine} (pcm_model extra : Z) (pmu pmu' : UncorePMU) : Prop :=
  exists h, (link_answers pcm_model extra pmu h -> pmu' = set_model (getCPUFamilyModel pcm_model pmu).1 pmu) /\
            (~ link_answers pcm_model extra pmu h -> valid pmu' = false).

Section Links.
Context {machine : Machine} (pcm_model : Z).

Lemma resetUnfreeze_result extra pmu h h' pmu' m :
  cpu_family_model_ pmu = m -> m <> 0 ->
  resetUnfreeze pcm_model extra pmu h = (h', Ok pmu') -> pmu' = pmu.
Proof.
  intros Hm Hne. unfold resetUnfreeze, getCPUFamilyModel.
  rewrite Hm. destruct (Z.eqb_spec m 0); [done|].
  intros Hrun. destruct (spr_unit _); unfold mbind, M_bind, mret, M_ret in Hrun;
    repeat (case_match; simplify_eq; try done).
Qed.

Lemma program_result extra events pmu h h' pmu' :
  cpu_family_model_ pmu <> 0 ->
  program pcm_model pmu (Some events) extra h = (h', Ok pmu') -> pmu' = pmu.
Proof.
  intros Hne. unfold program, mbind at 1, M_bind at 1.
  destruct (program_loop _ _ _ h) as [h1 [[]|]]; [|done].
  destruct (negb (extra =? 0)).
  - by apply (resetUnfreeze_result _ _ _ _ _ _ eq_refl).
  - by intros [= <- <-].
Qed.

Lemma programXPI_unit_outcome extra event pmu h h' pmu' :
  pcm_model <> 0 -> valid pmu = true ->
  programXPI_unit pcm_model extra event pmu h = (h', Ok pmu') -> link_outcome pcm_model extra pmu pmu'.
Proof.
  intros Hne Hval Hrun. exists h. unfold programXPI_unit, initFreeze, link_answers in *.
  unfold valid in Hval. destruct (unitControl pmu) as [u|] eqn:Hu; [|done]. clear Hval.
  assert (exists m, getCPUFamilyModel pcm_model pmu = (m, set_model m pmu) /\ m <> 0) as (m & Hm & Hm0).
  { destruct (getCPUFamilyModel_cases pcm_model pmu) as (m & Hm). exists m. split; [done|].
    assert (m = (getCPUFamilyModel pcm_model pmu).1) as -> by by rewrite Hm.
    unfold getCPUFamilyModel; simpl. by destruct (Z.eqb_spec (cpu_family_model_ pmu) 0). }
  rewrite Hm in *. clear Hm.
  simpl in *. destruct (spr_unit m) eqn:Hs.
  - split; [|intros []; intros u' [= <-]; by left]. intros _.
    unfold mbind, M_bind, mret, M_ret in Hrun.
    destruct (reg_write u _ h) as [h1 [[]|]]; [|done].
    destruct (reg_write u _ h1) as [h2 [[]|]]; [|done]. by apply program_result in Hrun.
  - unfold mbind, M_bind, mret, M_ret in Hrun. unfold mbind, M_bind.
    destruct (reg_write u extra h) as [h1 [[]|]] eqn:E1; [|done].
    destruct (reg_read u h1) as [h2 [v|]] eqn:E2; [|done].
    destruct (Z.eqb_spec (Z.land extra UNC_PMON_UNIT_CTL_VALID_BITS_MASK)
                (Z.land v UNC_PMON_UNIT_CTL_VALID_BITS_MASK)) as [Heq|Hneq]; simpl in Hrun.
    + split; [|intros []; intros u' [= <-]; right;
        intros h'' v' Hr; rewrite E1, E2 in Hr; congruence]. intros _.
      destruct (reg_write u _ h2) as [h3 [[]|]]; [|done]. by apply program_result in Hrun.
    + injection Hrun as <- <-. split; [|done].
      intros Hans. destruct (Hans u eq_refl) as [?|Hans']; [congruence|].
      destruct Hneq. apply (Hans' h2). by rewrite E1, E2.
Qed.

End Links.

Lemma safe_program_server {machine : Machine} pcm_model pcm_pmm pcm_hbm s :
  server_equipped s = true -> safe_with (fun _ => True) (program_server pcm_model pcm_pmm pcm_hbm s).
Proof.
  unfold server_equipped. rewrite !andb_true_iff. intros [[[[Hi He] Hx] Hm] Hh].
  unfold program_server.
  eapply safe_with_bind; [by apply safe_programIMC|]. intros _ [l [-> _]].
  apply (safe_with_bind (fun s1 => exists l', s1 = set_edc l' (set_imc l s))).
  { unfold programEDC_if. destruct pcm_hbm; [|apply safe_with_ret; by exists (edcPMUs s)].
    eapply safe_with_weaken; [by apply safe_programEDC|]. intros _ (l' & -> & _). eauto. }
  intros _ [l' ->]. unfold programM2M, programM2M_cfg, programHA, programHA_cfg.
  apply (safe_with_bind (fun s1 => exists l2, s1 = set_m2m l2 (set_edc l' (set_imc l s)))).
  { eapply safe_with_bind; [by apply safe_program_units|]. intros l2 _. apply safe_with_ret. eauto. }
  intros _ [l2 ->]. eapply safe_with_bind; [by apply safe_programXPI|]. intros _ [l3 [-> _]].
  eapply safe_with_bind; [by apply safe_program_units|]. intros l4 _. by apply safe_with_ret.
Qed.

(** Programming a server socket never fails: when every unit has its control register
    and every memory unit its fixed counter, and none is a counter extender,
    [ServerUncorePMUs::program] returns on every machine, whatever the registers answer -
    in particular when some links turn out to be disabled. *)
Theorem program_server_safe {machine : Machine} pcm_model pcm_pmm pcm_hbm s h :
  server_equipped s = true ->
  exists h' s', program_server pcm_model pcm_pmm pcm_hbm s h = (h', Ok s').
Proof.
  intros Heq. destruct (safe_program_server pcm_model pcm_pmm pcm_hbm s Heq h) as (h' & s' & ? & _ & _). eauto.
Qed.

(** After [programXPI] the socket keeps exactly the links that answered the presence
    check, in their order and with their registers unchanged, so no later read goes
    through the null control register of a disabled link. *)
Theorem programXPI_keeps_answering_links {machine : Machine} pcm_model event s h h' s' :
  pcm_model <> 0 -> Forall (fun p => valid p = true) (xpiPMUs s) ->
  programXPI pcm_model event s h = (h', Ok s') ->
  Forall (fun p => valid p = true) (xpiPMUs s') /\
  exists l extra, Forall2 (link_outcome pcm_model extra) (xpiPMUs s) l /\
    s' = set_xpi (filter (fun p => valid p = true) l) s.
Proof.
  intros Hne Hval. unfold programXPI.
  set (extra := if hasUPI _ then _ else _). unfold mbind, M_bind.
  destruct (mapM_ _ _ h) as [h1 [l|]] eqn:E; [|done]. intros [= <- <-].
  rewrite cleanupQPIHandles_filter by done. split.
  - apply Forall_forall. intros p Hp. simpl in Hp. by apply list_elem_of_filter in Hp as [].
  - exists l, extra. split; [|done]. eapply mapM__ok; [|done].
    intros p h1' h2 p' Hp Hrun. eapply programXPI_unit_outcome; [done| |done].
    by apply (proj1 (Forall_forall _ _) Hval).
Qed.

(** * Bandwidth sums *)

(** [val begin + ... + val (begin + n - 1)] *)
Fixpoint sum_range (val : nat -> Z) (begin n : nat) : Z :=
  match n with O => 0 | S n' => val begin + sum_range val (S begin) n' end.

Definition sumZ (l : list Z) : Z := foldr Z.add 0 l.

Lemma sum_range_app val b n1 n2 :
  sum_range val b (n1 + n2) = sum_range val b n1 + sum_range val (b + n1) n2.
Proof.
  revert b. induction n1 as [|n1 IH]; intros b; simpl; [by rewrite Nat.add_0_r|].
  rewrite IH. replace (b + S n1)%nat with (S b + n1)%nat by lia. lia.
Qed.

Lemma sumZ_app l1 l2 : sumZ (l1 ++ l2) = sumZ l1 + sumZ l2.
Proof. unfold sumZ. induction l1; simpl; lia. Qed.

Lemma sumZ_nonneg l : Forall (fun n => 0 <= n) l -> 0 <= sumZ l.
Proof. unfold sumZ. induction 1; simpl in *; lia. Qed.

Lemma foldl_u32_sum l a : 0 <= a -> Forall (fun n => 0 <= n) l -> a + sumZ l < 2 ^ 32 ->
  foldl (fun a c => u32 (a + c)) a l = a + sumZ l.
Proof.
  intros Ha Hl. revert a Ha. induction Hl as [|n l Hn Hl IH]; intros a Ha Hlt; simpl in *; [unfold sumZ; simpl; lia|].
  change (sumZ (n :: l)) with (n + sumZ l) in *. pose proof (sumZ_nonneg l Hl).
  rewrite wrapN_small by (unfold fits; lia). rewrite IH; lia.
Qed.

Section Sums.
Context {machine : Machine}.

Lemma sum_from_value n b term val r :
  (forall i, (b <= i < b + n)%nat -> safe_with (eq (val i)) (term i)) -> fits 64 r ->
  safe_with (eq (u64 (r + sum_range val b n))) (sum_from n b term r).
Proof.
  revert b r. induction n as [|n IH]; intros b r Hterm Hr; simpl.
  { apply safe_with_ret. rewrite Z.add_0_r. by apply wrapN_small. }
  eapply safe_with_bind; [apply Hterm; lia|]. intros _ <-.
  eapply safe_with_weaken; [apply IH; [intros; apply Hterm; lia|by apply wrapN_fits]|].
  intros _ <-. autorewrite with pcm_wrap. f_equal; lia.
Qed.

(** The values of the first [k] of [n] channels. *)
Definition values_upto val (n k : nat) : Z := sum_range val 0 (Nat.min k n).

Lemma values_between val n b e : (b <= e)%nat ->
  sum_range val b (Nat.min e n - b) = values_upto val n e - values_upto val n b.
Proof.
  intros He. unfold values_upto. destruct (Nat.le_gt_cases n b).
  - replace (Nat.min e n - b)%nat with 0%nat by lia. rewrite !Nat.min_r by lia. simpl. lia.
  - rewrite (Nat.min_l b) by lia. replace (Nat.min e n) with (b + (Nat.min e n - b))%nat at 2 by lia.
    rewrite sum_range_app. simpl. lia.
Qed.

Lemma reads_for_channels s val b e :
  (forall i, (i < length (imcPMUs s))%nat -> safe_with (eq (val i)) (channel_sum s READ READ2 i)) ->
  (b <= e)%nat ->
  safe_with (eq (u64 (values_upto val (length (imcPMUs s)) e - values_upto val (length (imcPMUs s)) b)))
    (getImcReadsForChannels s b e).
Proof.
  intros Hval He. unfold getImcReadsForChannels. rewrite <- values_between by done.
  apply (sum_from_value _ _ _ val 0); [intros; apply Hval; lia|done].
Qed.

Lemma controller_channels_value s controller n :
  num_imc_channels s !! controller = Some n -> Forall (fun n => 0 <= n) (num_imc_channels s) ->
  sumZ (num_imc_channels s) < 2 ^ 32 ->
  controller_channels s controller =
    Some (sumZ (take controller (num_imc_channels s)), sumZ (take (S controller) (num_imc_channels s))).
Proof.
  intros Hn Hpos Hsum. unfold controller_channels. rewrite Hn. simpl.
  rewrite <- (take_drop (S controller) (num_imc_channels s)), sumZ_app in Hsum.
  assert (Forall (fun n => 0 <= n) (take controller (num_imc_channels s))) by by apply Forall_take.
  assert (0 <= sumZ (drop (S controller) (num_imc_channels s))) by by apply sumZ_nonneg, Forall_drop.
  assert (0 <= n) by by eapply (Forall_lookup_1 _ _ _ _ Hpos).
  rewrite (take_S_r _ _ _ Hn), sumZ_app in *. change (sumZ [n]) with (n + 0) in *.
  assert (0 <= sumZ (take controller (num_imc_channels s))) by by apply sumZ_nonneg.
  rewrite foldl_u32_sum by (done || lia). simpl. rewrite wrapN_small; [do 2 f_equal; lia|unfold fits; lia].
Qed.

Lemma controllers_sum s val pre ns :
  (forall i, (i < length (imcPMUs s))%nat -> safe_with (eq (val i)) (channel_sum s READ READ2 i)) ->
  num_imc_channels s = pre ++ ns -> Forall (fun n => 0 <= n) (num_imc_channels s) ->
  sumZ (num_imc_channels s) < 2 ^ 32 ->
  exists rs,
    safe_with (eq rs) (mapM_ (seq (length pre) (length ns)) (getImcReadsForController s)) /\
    u64 (sumZ rs) = u64 (values_upto val (length (imcPMUs s)) (Z.to_nat (sumZ (pre ++ ns))) -
                         values_upto val (length (imcPMUs s)) (Z.to_nat (sumZ pre))).
Proof.
  intros Hval Hlist Hpos Hlt. revert pre Hlist. induction ns as [|n ns IH]; intros pre Hlist.
  { exists []. split; [by apply safe_with_ret|]. rewrite app_nil_r. by rewrite Z.sub_diag. }
  destruct (IH (pre ++ [n])) as (rs & Hrs & Hsumrs); [by rewrite <- app_assoc|].
  assert (num_imc_channels s !! length pre = Some n) as Hn by by rewrite Hlist, list_lookup_middle.
  pose proof (controller_channels_value s _ _ Hn Hpos Hlt) as Hc.
  rewrite (take_S_r _ _ _ Hn), Hlist, take_app_length in Hc.
  pose proof Hpos as Hpos'. rewrite Hlist in Hpos'.
  apply Forall_app in Hpos' as [Hpre [Hn0 Hns]%Forall_cons].
  pose proof (sumZ_nonneg _ Hpre).
  assert (sumZ (pre ++ [n]) = sumZ pre + n) as E by (rewrite sumZ_app; unfold sumZ; simpl; lia).
  rewrite <- app_assoc in Hsumrs. simpl in Hsumrs. eexists (_ :: rs). split.
  - simpl. eapply safe_with_bind.
    { unfold getImcReadsForController. rewrite Hc. apply (reads_for_channels s val); [done|]. rewrite E. lia. }
    intros _ <-. rewrite length_app in Hrs. simpl in Hrs. rewrite Nat.add_1_r in Hrs.
    eapply safe_with_bind; [done|]. intros _ <-. by apply safe_with_ret.
  - change (sumZ (?x :: rs)) with (x + sumZ rs). autorewrite with pcm_wrap.
    rewrite <- wrapN_add_r, Hsumrs by lia. autorewrite with pcm_wrap. f_equal. lia.
Qed.

End Sums.

(** When the counters hold still (every channel reads as a fixed value) and the
    channels of the memory controllers cover the channels of the socket, the reads
    reported per controller add up to the reads reported for the socket, modulo the 64
    bits of the counters: no channel is skipped or counted twice. *)
Theorem imc_reads_partition {machine : Machine} s val :
  (forall i, (i < length (imcPMUs s))%nat -> safe_with (eq (val i)) (channel_sum s READ READ2 i)) ->
  Forall (fun n => 0 <= n) (num_imc_channels s) ->
  Z.of_nat (length (imcPMUs s)) <= sumZ (num_imc_channels s) < 2 ^ 32 ->
  exists rs,
    safe_with (eq rs)
      (mapM_ (seq 0 (length (num_imc_channels s))) (getImcReadsForController s)) /\
    safe_with (eq (u64 (sumZ rs))) (getImcReads s).
Proof.
  intros Hval Hpos [Hsum Hlt].
  destruct (controllers_sum s val [] (num_imc_channels s)) as (rs & Hrs & Heq); [done..|].
  exists rs. split; [done|]. rewrite Heq. unfold getImcReads.
  eapply safe_with_weaken; [apply (reads_for_channels s val); [done|lia]|].
  intros _ <-. unfold values_upto. simpl. by rewrite !Nat.min_r by lia.
Qed.

(** * The event tables *)

(** A table of four [w]-bit selectors that leaves the enable bit to [PCM::program]. *)
Definition table_ok (w : Z) (l : list Z) : bool :=
  (length l =? 4)%nat && forallb (fun e => bool_decide (fits w e) && negb (Z.testbit e 22)) l.

Lemma switch_ind {A} (P : A -> Prop) m cases default :
  Forall (fun c => P c.2) cases -> P default -> P (switch m cases default).
Proof.
  intros Hc Hd. induction Hc as [|[labels a] cases Ha _ IH]; simpl in *; [done|]. by case_bool_decide.
Qed.

(** Proves a property of a [switch] from that of each case. *)
Ltac by_cases_of_switch tac :=
  cbv zeta;
  match goal with |- context [switch ?m ?c ?d] => pattern (switch m c d) end;
  apply switch_ind; [repeat (apply Forall_cons_2; [simpl; tac|]); constructor|tac].

Lemma rank_table_ok rankA rankB umask : 0 <= rankA <= 7 -> 0 <= umask < 2 ^ 8 ->
  table_ok 32 (let cfg :=
      <[WRITE_RANK_A := PMON_CTL_EVENT (0xb8 + rankA) + PMON_CTL_UMASK umask]>
      (<[READ_RANK_A := PMON_CTL_EVENT (0xb0 + rankA) + PMON_CTL_UMASK umask]> no_events) in
    if (0 <=? rankB) && (rankB <=? 7) then
      <[WRITE_RANK_B := PMON_CTL_EVENT (0xb8 + rankB) + PMON_CTL_UMASK umask]>
      (<[READ_RANK_B := PMON_CTL_EVENT (0xb0 + rankB) + PMON_CTL_UMASK umask]> cfg)
    else cfg) = true.
Proof.
  intros HA Hu.
  assert (forall e r, 0 <= r <= 7 -> 0xb0 <= e <= 0xb8 ->
    bool_decide (fits 32 (PMON_CTL_EVENT (e + r) + PMON_CTL_UMASK umask)) &&
    negb (Z.testbit (PMON_CTL_EVENT (e + r) + PMON_CTL_UMASK umask) 22) = true) as Hev.
  { intros e r Hr He. unfold PMON_CTL_EVENT, PMON_CTL_UMASK. rewrite Z.shiftl_mul_pow2 by lia.
    rewrite bool_decide_eq_true_2 by (unfold fits; lia).
    rewrite (testbit_fits 16); [done|lia|unfold fits; lia|lia]. }
  unfold table_ok, no_events, WRITE_RANK_A, READ_RANK_A, WRITE_RANK_B, READ_RANK_B.
  destruct (Z.leb_spec 0 rankB), (Z.leb_spec rankB 7); cbn [andb list_insert insert length forallb Nat.eqb];
    rewrite !Hev by lia; done.
Qed.

(** Every event table of the server uncore has one selector per counter, each within
    the 32 bits of the control registers and with the enable bit clear, so that what
    [PCM::program] writes is exactly the event with the counter enabled. *)
Theorem event_tables_well_formed m pmm metrics rankA rankB mc_profile :
  table_ok 32 (program_MCCntConfig m pmm) = true /\ table_ok 32 (program_EDCCntConfig m) = true /\
  table_ok 32 (program_XPICntConfig m) = true /\ table_ok 32 (power_XPICntConfig m) = true /\
  table_ok 32 (power_MCCntConfig m mc_profile) = true /\ table_ok 64 (M2MCntConfig m) = true /\
  table_ok 32 HACntConfig = true /\
  match memory_metrics_config m pmm metrics rankA rankB with
  | Some (mc, edc) => table_ok 32 mc = true /\ table_ok 32 edc = true
  | None => True
  end.
Proof.
  repeat match goal with |- _ /\ _ => split end.
  - unfold program_MCCntConfig. by destruct pmm; by_cases_of_switch ltac:(vm_compute; reflexivity).
  - unfold program_EDCCntConfig, M2MCntConfig. by_cases_of_switch ltac:(vm_compute; reflexivity).
  - unfold program_XPICntConfig. by destruct (hasUPI m).
  - unfold power_XPICntConfig. by destruct (hasUPI m).
  - unfold power_MCCntConfig.
    by_cases_of_switch ltac:(simpl; repeat case_bool_decide; vm_compute; reflexivity).
  - unfold program_EDCCntConfig, M2MCntConfig. by_cases_of_switch ltac:(vm_compute; reflexivity).
  - by vm_compute.
  - unfold memory_metrics_config. case_bool_decide; [done|].
    destruct ((rankA <? 0) && (rankB <? 0)).
    + by destruct pmm, metrics; by_cases_of_switch ltac:(vm_compute; done).
    + destruct (Z.ltb_spec rankA 0), (Z.ltb_spec 7 rankA); simpl orb; try done.
      apply switch_ind; [|done]. repeat (apply Forall_cons_2; [simpl|]); [..|constructor];
        try (split; [apply (rank_table_ok rankA rankB); lia|done]). by vm_compute.
Qed.

(** The bandwidth counters mean the same after [programServerUncoreMemoryMetrics] as
    after [program]: outside memory mode the read and write selectors of the memory
    controllers, and the HBM selectors, are the same on every model. *)
Theorem memory_metrics_keep_bandwidth_events m pmm metrics rankA rankB mc edc :
  rankA < 0 -> rankB < 0 -> metrics <> PmemMemoryMode ->
  memory_metrics_config m pmm metrics rankA rankB = Some (mc, edc) ->
  mc !! READ = program_MCCntConfig m pmm !! READ /\
  mc !! WRITE = program_MCCntConfig m pmm !! WRITE /\ edc = program_EDCCntConfig m.
Proof.
  intros HA HB Hm. unfold memory_metrics_config, program_MCCntConfig, program_EDCCntConfig.
  case_bool_decide; [done|]. rewrite !(proj2 (Z.ltb_lt _ _)) by lia. cbn [andb].
  destruct (decide (m ∈ [KNL; SNOWRIDGE; ICX; SPR; EMR; GNR; GNR_D; GRR; SRF])) as [Hin|Hout].
  - apply list_elem_of_In in Hin. simpl in Hin.
    repeat destruct Hin as [<-|Hin]; [..|done];
      destruct pmm, metrics; try done; vm_compute; intros [= <- <-]; done.
  - rewrite !elem_of_cons, elem_of_nil in Hout. simpl.
    rewrite !bool_decide_eq_false_2 by (rewrite !elem_of_cons, elem_of_nil; tauto).
    destruct pmm, metrics; try done; simpl; intros [= <- <-]; done.
Qed.

(** * Witnesses *)

(** A unit on a PCI device, laid out as the memory controller units are. *)
Definition pci_unit (handle : Z) : UncorePMU :=
  MkUncorePMU 0 (Some (PCICFGRegister32 handle 0xF4))
    (map (fun o => Some (PCICFGRegister32 handle o)) [0xD8; 0xDC; 0xE0; 0xE4])
    (map (fun o => Some (PCICFGRegister64 handle o)) [0xA0; 0xA8; 0xB0; 0xB8])
    (Some (PCICFGRegister32 handle 0xF0)) (Some (PCICFGRegister64 handle 0xD0)) None None.

Definition example_server : ServerUncorePMUs :=
  MkServer SKX [pci_unit 1; pci_unit 2; pci_unit 3] [] [pci_unit 4; pci_unit 5] [] [pci_unit 6] [] []
    [2; 1].

(** A machine of plain memory in which one device does not answer. *)
Definition one_dead_device (dead : Z) : Machine := fun h p =>
  match p with
  | PciPort32 d _ => if d =? dead then Some 0 else memory_machine h p
  | _ => memory_machine h p
  end.

(** Counters that hold still: each register reads as a function of its address. *)
Definition still_machine : Machine := fun _ p =>
  match p with PciPort64 d o => Some (2 ^ 63 + d * 100 + o) | _ => Some 0 end.

Lemma program_server_safe_witness :
  exists h' s', @program_server (one_dead_device 5) SKX true false example_server (HW [] ∅ ∅) = (h', Ok s').
Proof. apply (@program_server_safe (one_dead_device 5) SKX true false). reflexivity. Defined.

Lemma programXPI_keeps_answering_links_witness :
  Forall (fun p => valid p = true)
    (xpiPMUs (set_xpi [set_model SKX (pci_unit 4)] example_server)) /\
  exists l extra,
    Forall2 (@link_outcome (one_dead_device 5) SKX extra) (xpiPMUs example_server) l /\
    set_xpi [set_model SKX (pci_unit 4)] example_server =
      set_xpi (filter (fun p => valid p = true) l) example_server.
Proof.
  apply (@programXPI_keeps_answering_links (one_dead_device 5) SKX (program_XPICntConfig SKX)
           example_server (HW [] ∅ ∅)
           (@programXPI (one_dead_device 5) SKX (program_XPICntConfig SKX) example_server (HW [] ∅ ∅)).1).
  - done.
  - by repeat constructor.
  - vm_compute. reflexivity.
Defined.

Lemma imc_reads_partition_witness :
  exists rs,
    safe_with (eq rs)
      (mapM_ (seq 0 2) (@getImcReadsForController still_machine example_server)) /\
    safe_with (eq (u64 (sumZ rs))) (@getImcReads still_machine example_server).
Proof.
  apply (@imc_reads_partition still_machine example_server
           (fun i => 2 ^ 63 + (Z.of_nat i + 1) * 100 + 0xA0)).
  - intros [|[|[|i]]] Hi h; [by eexists _, _..|]. simpl in Hi. lia.
  - by repeat (apply Forall_cons_2; [done|]).
  - done.
Defined.

Lemma memory_metrics_keep_bandwidth_events_witness :
  exists mc edc, memory_metrics_config SPR true Pmem (-1) (-1) = Some (mc, edc) /\
  mc !! READ = program_MCCntConfig SPR true !! READ /\
  mc !! WRITE = program_MCCntConfig SPR true !! WRITE /\ edc = program_EDCCntConfig SPR.
Proof.
  eexists _, _. split; [reflexivity|].
  apply (memory_metrics_keep_bandwidth_events SPR true Pmem (-1) (-1)); done.
Defined.
