(* ===== verification/Doubles.v ===== *)
(** The [double]s of the metrics: binary64 of IEEE 754, rounding to nearest and ties to even,
    over the Standard Library's [SpecFloat], the conversions of C++ from and to integers, and
    the text of a double in a stream with [std::fixed] and [std::setprecision(3)].

    The bounds say when a metric is a number: the operations stay finite while the exponents
    of their operands are small and no divisor is zero. *)

From Stdlib Require Import SpecFloat.
From S2P Require Import Prelude CxxString.
Local Open Scope Z_scope.

Definition double : Type := spec_float.

Definition dadd : double -> double -> double := SFadd 53 1024.
Definition dsub : double -> double -> double := SFsub 53 1024.
Definition dmul : double -> double -> double := SFmul 53 1024.
Definition ddiv : double -> double -> double := SFdiv 53 1024.
Definition dlt : double -> double -> bool := SFltb.
Definition dle : double -> double -> bool := SFleb.

(** The conversion of an integer. *)
Definition of_Z (x : Z) : double := binary_normalize 53 1024 x 0 false.

(** The value of a finite double times [k], towards zero. *)
Definition scaled (m : positive) (e k : Z) : Z :=
  if 0 <=? e then Z.pos m * k * 2 ^ e else Z.pos m * k / 2 ^ (- e).

(** Conversion to an integer of the range [lo, hi]; a value outside of it, an infinity and a
    NaN have no conversion. *)
Definition to_Z (lo hi : Z) (x : double) : option Z :=
  match x with
  | S754_zero _ => Some 0
  | S754_finite s m e =>
      let v := if s then - scaled m e 1 else scaled m e 1 in
      if (lo <=? v) && (v <=? hi) then Some v else None
  | _ => None
  end.

(** * The text *)

(** [1000] times the value, to nearest and ties to even. *)
Definition thousandths (m : positive) (e : Z) : Z :=
  let q := scaled m e 1000 in
  if 0 <=? e then q
  else
    let r := 2 * ((Z.pos m * 1000) mod 2 ^ (- e)) in
    if (2 ^ (- e) <? r) || ((r =? 2 ^ (- e)) && Z.odd q) then q + 1 else q.

Definition three_digits (n : Z) : str := map (fun k => byte (48 + n / k mod 10)) [100; 10; 1].

(** The digits of a number of any size. *)
Definition integer_digits (n : Z) : str := decimal (S (Z.to_nat (Z.log2 n))) n.

Section Text.

(** The sign of a NaN, which the model does not have, shows in its text. *)
Context (nan_text : str).

Definition fixed_text (x : double) : str :=
  let sign (s : bool) := if s then lit "-" else [] in
  match x with
  | S754_zero s => sign s ++ lit "0.000"
  | S754_infinity s => sign s ++ lit "inf"
  | S754_nan => nan_text
  | S754_finite s m e =>
      let t := thousandths m e in
      sign s ++ integer_digits (t / 1000) ++ lit "." ++ three_digits (t mod 1000)
  end.

End Text.

Example fixed3_values :
  map (fixed_text (lit "-nan")) [ddiv (of_Z 2) (of_Z 3); dsub (of_Z 1) (of_Z 3); of_Z (2 ^ 64 - 1); ddiv (of_Z 1) (of_Z 0); ddiv (of_Z 1) (of_Z 16); ddiv (of_Z (-1)) (of_Z 100000)] =
    map lit ["0.667"; "-2.000"; "18446744073709551616.000"; "inf"; "0.062"; "-0.000"]%string.
Proof. vm_compute. reflexivity. Qed.

(** * Finite results *)

Definition finite (x : double) : bool := match x with S754_zero _ | S754_finite _ _ _ => true | _ => false end.

(** A finite number with a mantissa of 53 bits and an exponent between [-K] and [K]. *)
Definition within (K : Z) (x : double) : Prop :=
  match x with
  | S754_zero _ => True
  | S754_finite _ m e => Z.pos m < 2 ^ 53 /\ - K <= e <= K
  | _ => False
  end.

Definition nonzero (x : double) : Prop := match x with S754_finite _ _ _ => True | _ => False end.

Lemma within_finite K x : within K x -> finite x = true.
Proof. by destruct x. Qed.

Lemma within_weaken K K' x : K <= K' -> within K x -> within K' x.
Proof. destruct x; simpl; try done. intros ? [? ?]. split; [done|lia]. Qed.

Lemma digits2_log2 m : Zdigits2 (Z.pos m) = Z.log2 (Z.pos m) + 1.
Proof.
  simpl. assert (forall p, digits2_pos p = Pos.size p) as -> by (induction p; simpl; by rewrite ?IHp).
  destruct m; simpl; lia.
Qed.

Lemma shr_1_m r : 0 <= shr_m r -> shr_m (shr_1 r) = shr_m r / 2.
Proof.
  destruct r as [[|[p|p|]|p] r' s']; simpl; intros H; try done.
  - rewrite Pos2Z.inj_xI. Z.div_mod_to_equations. lia.
  - rewrite Pos2Z.inj_xO. Z.div_mod_to_equations. lia.
Qed.

Lemma iter_shr_m p r : 0 <= shr_m r -> shr_m (SpecFloat.iter_pos shr_1 p r) = shr_m r / 2 ^ Z.pos p.
Proof.
  revert r. induction p as [p IH|p IH|]; intros r H; cbn [SpecFloat.iter_pos].
  - assert (0 <= shr_m (shr_1 r)) by (rewrite shr_1_m by done; Z.div_mod_to_equations; lia).
    assert (0 <= shr_m (SpecFloat.iter_pos shr_1 p (shr_1 r))) by (rewrite IH by done; apply Z.div_pos; lia).
    rewrite IH, IH, shr_1_m by done. rewrite !Z.div_div by lia. f_equal.
    replace (Z.pos p~1) with (1 + (Z.pos p + Z.pos p)) by lia. rewrite !Z.pow_add_r by lia. ring.
  - assert (0 <= shr_m (SpecFloat.iter_pos shr_1 p r)) by (rewrite IH by done; apply Z.div_pos; lia).
    rewrite IH, IH by done. rewrite Z.div_div by lia. f_equal.
    replace (Z.pos p~0) with (Z.pos p + Z.pos p) by lia. by rewrite Z.pow_add_r by lia.
  - by rewrite shr_1_m.
Qed.

(** The shift that brings a mantissa to its 53 bits. *)
Lemma shr_fexp_spec m e l : 0 <= m ->
  exists r, shr_fexp 53 1024 m e l = (r, Z.max e (fexp 53 1024 (Zdigits2 m + e))) /\
    shr_m r = m / 2 ^ (Z.max e (fexp 53 1024 (Zdigits2 m + e)) - e).
Proof.
  intros Hm. unfold shr_fexp. set (f := fexp 53 1024 (Zdigits2 m + e)).
  assert (shr_m (shr_record_of_loc m l) = m) as Hr by (by destruct l as [|[]]).
  unfold shr. destruct (f - e) as [|p|p] eqn:E; (eexists; split; [f_equal; lia|]).
  - replace (Z.max e f - e) with 0 by lia. by rewrite Hr, Z.div_1_r.
  - rewrite iter_shr_m, Hr by (by rewrite Hr). f_equal. f_equal. lia.
  - replace (Z.max e f - e) with 0 by lia. by rewrite Hr, Z.div_1_r.
Qed.

Lemma fexp_normal z : - 1021 <= z -> fexp 53 1024 z = z - 53.
Proof. unfold fexp, emin. lia. Qed.

(** A positive mantissa after the shift keeps at most 53 bits, and is positive. *)
Lemma shifted_mantissa m e : 0 < m -> - 1000 <= e ->
  let e' := Z.max e (fexp 53 1024 (Zdigits2 m + e)) in
  1 <= m / 2 ^ (e' - e) < 2 ^ 53 /\ (Zdigits2 m <= 53 -> e' = e) /\ (53 < Zdigits2 m -> e' = Zdigits2 m + e - 53).
Proof.
  intros Hm He. assert (Zdigits2 m = Z.log2 m + 1) as HD by (destruct m; [lia|apply digits2_log2|lia]).
  pose proof (Z.log2_spec m Hm) as [Hlo Hhi]. pose proof (Z.log2_nonneg m).
  rewrite fexp_normal by lia. cbv zeta. split; [|lia]. destruct (Z.le_gt_cases (Zdigits2 m) 53).
  - replace (Z.max e (Zdigits2 m + e - 53) - e) with 0 by lia. rewrite Z.div_1_r. split; [lia|].
    eapply Z.lt_le_trans; [exact Hhi|]. apply Z.pow_le_mono_r; lia.
  - replace (Z.max e (Zdigits2 m + e - 53) - e) with (Z.log2 m - 52) by lia.
    assert (2 ^ Z.log2 m = 2 ^ 52 * 2 ^ (Z.log2 m - 52)) as E1 by (rewrite <- Z.pow_add_r by lia; f_equal; lia).
    rewrite Z.pow_succ_r, E1 in Hhi by lia. rewrite E1 in Hlo.
    assert (0 < 2 ^ (Z.log2 m - 52)) by (apply Z.pow_pos_nonneg; lia).
    split; [transitivity (2 ^ 52); [done|]; apply Z.div_le_lower_bound; lia|apply Z.div_lt_upper_bound; lia].
Qed.

Lemma round_nearest_even_le m l : m <= round_nearest_even m l <= m + 1.
Proof. destruct l as [|[]]; simpl; try lia. destruct (Z.even m); lia. Qed.

Lemma round_aux_within s m e l K : 0 < m -> K <= 960 -> - K <= e -> e + 1 <= K -> Zdigits2 m + e - 52 <= K ->
  exists m' e', binary_round_aux 53 1024 s m e l = S754_finite s m' e' /\ Z.pos m' < 2 ^ 53 /\ - K <= e' <= K.
Proof.
  intros Hm HK Hlo Hhi HD. unfold binary_round_aux.
  destruct (shr_fexp_spec m e l) as (r & -> & Hr); [lia|].
  destruct (shifted_mantissa m e) as (H1 & Hs & Hn); [done|lia|]. set (e1 := Z.max e _) in *. rewrite <- Hr in H1.
  assert (e <= e1 /\ e1 + 1 <= K) as [Hlo1 Hhi1] by (destruct (Z.le_gt_cases (Zdigits2 m) 53); [rewrite Hs by lia; lia|split; [lia|rewrite Hn by lia; lia]]).
  set (m2 := round_nearest_even _ _). pose proof (round_nearest_even_le (shr_m r) (loc_of_shr_record r)) as H2. fold m2 in H2.
  destruct (shr_fexp_spec m2 e1 loc_Exact) as (r2 & -> & Hr2); [lia|].
  destruct (shifted_mantissa m2 e1) as (H3 & Hs2 & Hn2); [lia|lia|]. set (e2 := Z.max e1 _) in *. rewrite <- Hr2 in H3.
  assert (Zdigits2 m2 <= 54) as HD2.
  { assert (Zdigits2 m2 = Z.log2 m2 + 1) as -> by (destruct m2; [lia|apply digits2_log2|lia]).
    pose proof (Z.log2_le_mono m2 (2 ^ 53)). rewrite Z.log2_pow2 in * by lia. lia. }
  assert (e1 <= e2 <= e1 + 1) by (destruct (Z.le_gt_cases (Zdigits2 m2) 53); [rewrite Hs2 by lia; lia|rewrite Hn2 by lia; lia]).
  destruct (shr_m r2) as [|m3|m3]; [lia| |lia]. exists m3, e2. rewrite (proj2 (Z.leb_le e2 (1024 - 53))) by lia.
  split_and!; [done|lia..].
Qed.

Lemma digits2_le m k : 0 < m < 2 ^ k -> 0 <= k -> Zdigits2 m <= k.
Proof.
  intros [Hm Hk] Hk0. assert (Zdigits2 m = Z.log2 m + 1) as -> by (destruct m; [lia|apply digits2_log2|lia]).
  enough (Z.log2 m < k) by lia. by apply Z.log2_lt_pow2.
Qed.

Lemma digits2_bounds m : 2 ^ (Zdigits2 (Z.pos m) - 1) <= Z.pos m < 2 ^ Zdigits2 (Z.pos m).
Proof. rewrite digits2_log2. pose proof (Z.log2_spec (Z.pos m)). replace (Z.log2 (Z.pos m) + 1 - 1) with (Z.log2 (Z.pos m)) by lia. rewrite Z.add_1_r. lia. Qed.

Lemma mul_within K1 K2 x y : K1 + K2 + 54 <= 960 -> within K1 x -> within K2 y ->
  within (K1 + K2 + 54) (dmul x y) /\ (nonzero x -> nonzero y -> nonzero (dmul x y)).
Proof.
  destruct x as [s| | |s m e]; destruct y as [s'| | |s' m' e']; simpl; try done.
  intros HK [Hm He] [Hm' He']. unfold dmul, SFmul.
  assert (0 < Z.pos (m * m') < 2 ^ 106) as Hp.
  { rewrite Pos2Z.inj_mul. change (2 ^ 106) with (2 ^ 53 * 2 ^ 53). nia. }
  pose proof (digits2_le (Z.pos (m * m')) 106 Hp).
  destruct (round_aux_within (xorb s s') (Z.pos (m * m')) (e + e') loc_Exact (K1 + K2 + 54)) as (m2 & e2 & -> & ? & ?); [lia..|].
  done.
Qed.

Lemma div_mantissa m1 e1 m2 e2 : Z.pos m1 < 2 ^ 53 -> Z.pos m2 < 2 ^ 53 -> - 855 <= e1 - e2 <= 855 ->
  exists q e l, SFdiv_core_binary 53 1024 (Z.pos m1) e1 (Z.pos m2) e2 = (q, e, l) /\
    0 < q < 2 ^ 106 /\ e1 - e2 - 105 <= e <= e1 - e2.
Proof.
  intros H1 H2 He12. unfold SFdiv_core_binary. cbv zeta.
  pose proof (digits2_le (Z.pos m1) 53). pose proof (digits2_le (Z.pos m2) 53).
  pose proof (digits2_bounds m1) as B1. pose proof (digits2_bounds m2) as B2.
  set (d1 := Zdigits2 (Z.pos m1)) in *. set (d2 := Zdigits2 (Z.pos m2)) in *.
  assert (1 <= d1 /\ 1 <= d2) as [Hd1 Hd2] by (unfold d1, d2; split; simpl; lia).
  rewrite fexp_normal by lia. set (e' := Z.min (d1 + e1 - (d2 + e2) - 53) (e1 - e2)).
  set (s := e1 - e2 - e').
  assert (match s with 0 => Z.pos m1 | Z.pos _ => Z.shiftl (Z.pos m1) s | Z.neg _ => 0 end = Z.pos m1 * 2 ^ s) as ->.
  { destruct s as [|p|p] eqn:Es; [by rewrite Z.mul_1_r|by rewrite Z.shiftl_mul_pow2 by lia|lia]. }
  destruct (Z.div_eucl (Z.pos m1 * 2 ^ s) (Z.pos m2)) as [q r] eqn:E.
  assert (q = Z.pos m1 * 2 ^ s / Z.pos m2) as Hq by (unfold Z.div; by rewrite E).
  exists q, e', (new_location (Z.pos m2) r). split; [done|].
  assert (0 <= s /\ d1 + s <= 106 /\ d2 <= d1 + s - 1) as (Hs & Hs1 & Hs2) by lia.
  assert (0 < 2 ^ s) by (apply Z.pow_pos_nonneg; lia).
  assert (2 ^ (d1 - 1 + s) <= Z.pos m1 * 2 ^ s < 2 ^ 106) as [L U].
  { split; [rewrite Z.pow_add_r by lia; nia|]. eapply Z.lt_le_trans; [|apply (Z.pow_le_mono_r 2 (d1 + s) 106); lia].
    rewrite Z.pow_add_r by lia. nia. }
  assert (2 ^ d2 <= 2 ^ (d1 - 1 + s)) by (apply Z.pow_le_mono_r; lia).
  split; [|lia]. split.
  - enough (1 <= q) by lia. rewrite Hq. apply Z.div_le_lower_bound; lia.
  - rewrite Hq. eapply Z.le_lt_trans; [|exact U]. apply Z.div_le_upper_bound; nia.
Qed.

Lemma div_within K1 K2 x y : 0 <= K1 -> 0 <= K2 -> K1 + K2 + 105 <= 960 -> within K1 x -> within K2 y -> nonzero y ->
  within (K1 + K2 + 105) (ddiv x y) /\ (nonzero x -> nonzero (ddiv x y)).
Proof.
  destruct x as [s| | |s m e]; destruct y as [s'| | |s' m' e']; simpl; try done.
  intros HK HK' HKK [Hm He] [Hm' He'] _. unfold ddiv, SFdiv.
  destruct (div_mantissa m e m' e') as (q & e2 & l & -> & Hq & He2); [lia..|].
  pose proof (digits2_le q 106 Hq).
  destruct (round_aux_within (xorb s s') q e2 l (K1 + K2 + 105)) as (m2 & e3 & -> & ? & ?); [lia..|].
  done.
Qed.

Lemma shl_align_spec m e e' : exists m', shl_align m e e' = (m', Z.min e e') /\ Z.pos m' = Z.pos m * 2 ^ (e - Z.min e e').
Proof.
  unfold shl_align. destruct (e' - e) as [|p|p] eqn:E.
  - exists m. split; [f_equal; lia|]. replace (e - Z.min e e') with 0 by lia. lia.
  - exists m. split; [f_equal; lia|]. replace (e - Z.min e e') with 0 by lia. lia.
  - eexists. split; [f_equal; lia|]. replace (e - Z.min e e') with (Z.pos p) by lia.
    rewrite <- (Pos2Z.inj_pow 2 p). rewrite <- Pos2Z.inj_mul. f_equal. rewrite <- Pos.mul_1_r at 1.
    assert (forall k q, Pos.iter xO q k = (q * 2 ^ k)%positive) as Hiter.
    { intros k. induction k using Pos.peano_ind; intros q; [by rewrite Pos.mul_comm|].
      rewrite Pos.iter_succ, IHk, Pos.pow_succ_r. lia. }
    by rewrite Pos.mul_1_r, Hiter.
Qed.

Lemma round_within s p e K : K <= 960 -> - K + 53 <= e -> e + 1 <= K -> Z.pos p < 2 ^ (K - e + 52) ->
  exists m' e', binary_round 53 1024 s p e = S754_finite s m' e' /\ Z.pos m' < 2 ^ 53 /\ - K <= e' <= K.
Proof.
  intros HK Hlo Hhi Hp. unfold binary_round.
  pose proof (digits2_le (Z.pos p) (K - e + 52)). set (D := Zdigits2 (Z.pos p)) in *.
  change (Z.pos (digits2_pos p)) with D. assert (1 <= D) by (unfold D; simpl; lia). rewrite fexp_normal by lia.
  destruct (shl_align_spec p e (D + e - 53)) as (p' & -> & Hp'). set (e' := Z.min e (D + e - 53)) in *.
  assert (Zdigits2 (Z.pos p') <= D + (e - e')) as HD'.
  { apply digits2_le; [|lia]. split; [lia|]. rewrite Hp', Z.pow_add_r by lia. pose proof (digits2_bounds p) as [_ U].
    fold D in U. apply Z.mul_lt_mono_pos_r; [apply Z.pow_pos_nonneg; lia|done]. }
  apply round_aux_within; lia.
Qed.

Lemma normalize_within m e z K : K <= 960 -> - K + 53 <= e -> e + 1 <= K -> Z.abs m < 2 ^ (K - e + 52) ->
  within K (binary_normalize 53 1024 m e z) /\ (m <> 0 -> nonzero (binary_normalize 53 1024 m e z)).
Proof.
  intros HK Hlo Hhi Hm. unfold binary_normalize.
  destruct m as [|p|p]; [by split|..]; destruct (round_within (match Z.pos p with Z.pos _ => false | _ => true end) p e K) as (m' & e' & E & H1); try lia.
  - by rewrite E.
  - destruct (round_within true p e K) as (m2 & e2 & -> & H2); [lia..|]. done.
Qed.

(** A positive integer has a positive double. *)
Lemma of_Z_positive x : 0 < x < 2 ^ 64 -> exists m e, of_Z x = S754_finite false m e.
Proof.
  intros H. unfold of_Z, binary_normalize. destruct x as [|p|p]; [lia| |lia].
  destruct (round_within false p 0 53) as (m & e & -> & _); [lia..|]. eauto.
Qed.

Lemma of_Z_within x : Z.abs x < 2 ^ 64 -> within 53 (of_Z x) /\ (x <> 0 -> nonzero (of_Z x)).
Proof. intros H. apply normalize_within; lia. Qed.

Lemma sum_within K x y (op : Z -> Z -> Z) m e m' e' z : (forall a b, Z.abs (op a b) <= Z.abs a + Z.abs b) ->
  0 <= K <= 860 -> Z.pos m < 2 ^ 53 -> Z.pos m' < 2 ^ 53 -> - K <= e <= K -> - K <= e' <= K ->
  within (K + 60) (binary_normalize 53 1024 (op (cond_Zopp x (Z.pos (fst (shl_align m e (Z.min e e')))))
                                               (cond_Zopp y (Z.pos (fst (shl_align m' e' (Z.min e e')))))) (Z.min e e') z).
Proof.
  intros Hop HK Hm Hm' He He'. set (z0 := Z.min e e').
  destruct (shl_align_spec m e z0) as (p & -> & Hp). destruct (shl_align_spec m' e' z0) as (p' & -> & Hp'). cbn [fst].
  apply normalize_within; [lia..|].
  eapply Z.le_lt_trans; [apply Hop|].
  assert (forall s q, Z.abs (cond_Zopp s (Z.pos q)) = Z.pos q) as Habs by (by intros [] q). rewrite !Habs, Hp, Hp'.
  assert (forall q f, Z.pos q < 2 ^ 53 -> z0 <= f <= K -> Z.pos q * 2 ^ (f - Z.min f z0) < 2 ^ (53 + (K - z0))) as Hb.
  { intros q f Hq Hf. rewrite Z.pow_add_r by lia. replace (f - Z.min f z0) with (f - z0) by lia.
    assert (0 < 2 ^ (f - z0) <= 2 ^ (K - z0)) by (split; [apply Z.pow_pos_nonneg; lia|apply Z.pow_le_mono_r; lia]). nia. }
  pose proof (Hb m e Hm ltac:(lia)). pose proof (Hb m' e' Hm' ltac:(lia)).
  replace (K + 60 - z0 + 52) with (1 + (53 + (K - z0)) + 58) by lia. rewrite !Z.pow_add_r in * by lia.
  assert (0 < 2 ^ (K - z0)) by (apply Z.pow_pos_nonneg; lia). change (2 ^ 58) with 288230376151711744. nia.
Qed.

Lemma add_within K x y : 0 <= K <= 860 -> within K x -> within K y -> within (K + 60) (dadd x y).
Proof.
  intros HK. destruct x as [[]| | |s m e]; destruct y as [[]| | |s' m' e']; try (simpl; done).
  1,2,3,4: intros; simpl in *; lia.
  intros [? ?] [? ?]. apply (sum_within K s s' Z.add); [lia|done..].
Qed.

Lemma sub_within K x y : 0 <= K <= 860 -> within K x -> within K y -> within (K + 60) (dsub x y).
Proof.
  intros HK. destruct x as [[]| | |s m e]; destruct y as [[]| | |s' m' e']; try (simpl; done).
  1,2,3,4: intros; simpl in *; lia.
  intros [? ?] [? ?]. apply (sum_within K s s' Z.sub); [lia|done..].
Qed.
