(* ===== verification/Resctrl.v ===== *)
(** The monitoring groups of the [resctrl] file system ([src/src/resctrl.cpp]): the files that
    [Resctrl::init] notes for each core, and the sums that [getL3OCC], [getMBL] and [getMBT]
    read from them.

    Whether a directory is there or can be made is an argument. A file is a [FilePort] of the
    machine: reading it gives the number that [atoll] finds in the text of [readSysFS]. *)

From S2P Require Import Prelude Bits CxxString WidthExtender Registers.
Local Open Scope Z_scope.

(** A [FileMapType] for each metric: the files of a core, one for each socket. *)
Record Resctrl := ResctrlMaps {
  L3OCC : gmap Z (list str);
  MBL : gmap Z (list str);
  MBT : gmap Z (list str)
}.

Definition Resctrl_init : Resctrl := ResctrlMaps ∅ ∅ ∅.

Definition PCMPath : str := lit "/sys/fs/resctrl/mon_groups/pcm".

(** [std::setfill('0') << std::setw(2)] *)
Definition two_wide (n : Z) : str := replicate (2 - length (to_string n)) (byte 48) ++ to_string n.

Definition getMetricFilename (dir : str) (s : nat) (metric : str) : str :=
  dir ++ lit "/mon_data/mon_L3_" ++ two_wide (Z.of_nat s) ++ lit "/" ++ metric.

Definition generateMetricFiles (dir : str) (c : nat) (metric : string) (num_sockets : nat) (fileMap : gmap Z (list str))
    : gmap Z (list str) :=
  let files := map (fun s => getMetricFilename dir s (lit metric)) (seq 0 num_sockets) in
  match files with
  | [] => fileMap
  | _ => <[Z.of_nat c := default [] (fileMap !! Z.of_nat c) ++ files]> fileMap
  end.

(** What [init] asks [PCM] and the system. *)
Record resctrl_env := ResctrlEnv {
  rc_mounted : bool;                     (** [isMounted()] *)
  rc_can_make : str -> bool;             (** the directory is there or is made *)
  rc_online : nat -> bool;
  rc_cores : nat;
  rc_sockets : nat;
  rc_L3OCC : bool;                       (** the metrics that are available *)
  rc_local : bool;
  rc_remote : bool
}.

Section Init.
Context (env : resctrl_env).

(** The loop of [init]; it ends at the first core without a directory. *)
Fixpoint init_cores (cores : list nat) (r : Resctrl) : M Resctrl :=
  match cores with
  | [] => mret r
  | c :: cores =>
      if rc_online env c then
        let dir := PCMPath ++ to_string (Z.of_nat c) in
        if rc_can_make env dir || rc_can_make env (lit "/pcm" ++ dir) then
          access_write (FilePort (dir ++ lit "/cpus_list")) (Z.of_nat c) ;;
          let add (b : bool) metric fileMap := if b then generateMetricFiles dir c metric (rc_sockets env) fileMap else fileMap in
          init_cores cores
            (ResctrlMaps (add (rc_L3OCC env) "llc_occupancy" (L3OCC r)) (add (rc_local env) "mbm_local_bytes" (MBL r))
               (add (rc_remote env) "mbm_total_bytes" (MBT r)))
        else mret r
      else init_cores cores r
  end.

Definition Resctrl_setup (r : Resctrl) : M Resctrl :=
  if rc_mounted env then init_cores (seq 0 (rc_cores env)) r else mret r.

End Init.

Section Read.
Context {machine : Machine}.

(** [size_t result += atoll(data)]; a file that cannot be read adds nothing. *)
Fixpoint sum_files (files : list str) (result : Z) : M Z :=
  match files with
  | [] => mret result
  | f :: files => v ← access_read (FilePort f); sum_files files (u64 (result + default 0 v))
  end.

Definition getMetric (fileMap : gmap Z (list str)) (core : Z) : M Z :=
  match fileMap !! core with None => mret 0 | Some files => sum_files files 0 end.

Definition getL3OCC (r : Resctrl) (core : Z) : M Z := getMetric (L3OCC r) core.
Definition getMBL (r : Resctrl) (core : Z) : M Z := getMetric (MBL r) core.
Definition getMBT (r : Resctrl) (core : Z) : M Z := getMetric (MBT r) core.

End Read.
