(* ===== verification/CounterState.v ===== *)
(** Counter values and counter states: [checked_uint64] ([src/src/utils.h]), the
    [extract...] functions and [readAndAggregate] ([src/src/cpucounters.cpp]), the classes
    [BasicCounterState], [UncoreCounterState], [SystemCounterState] with their aggregation,
    and the getters that turn two states into event counts ([src/src/cpucounters.h]). *)

From S2P Require Import Prelude WidthExtender Bits Doubles CpuModels Capabilities Registers Resctrl.
Local Open Scope Z_scope.

(** * [checked_uint64] *)

Record checked_uint64 := Checked { data : Z; overflows : Z }.

Definition checked_zero : checked_uint64 := Checked 0 0.

Definition checked_add (x o : checked_uint64) : checked_uint64 :=
  Checked (u64 (data x + data o)) (u64 (overflows x + overflows o)).

Definition counter_width : Z := 48.

(** [operator -]; the overflows of the subtrahend are not used. *)
Definition checked_sub (x o : checked_uint64) : Z :=
  u64 (data x + overflows x * 2 ^ counter_width - data o).

Definition getRawData_NoOverflowProtection (x : checked_uint64) : Z := data x.

(** * Extraction of counter values *)

(** The widths that [readCoreCounterConfig] finds, and whether Linux perf is used. *)
Record widths := Widths {
  canUsePerf : bool;
  core_gen_counter_width : Z;
  core_fixed_counter_width : Z;
  uncore_gen_counter_width : Z;
  uncore_fixed_counter_width : Z
}.

Definition extract_width (width val : Z) : Z :=
  if width =? 0 then val else extract_bits val 0 (width - 1).

Definition extractCoreGenCounterValue (c : widths) (val : Z) : Z :=
  if canUsePerf c then val else extract_width (core_gen_counter_width c) val.

Definition extractCoreFixedCounterValue (c : widths) (val : Z) : Z :=
  if canUsePerf c then val else extract_width (core_fixed_counter_width c) val.

Definition extractUncoreGenCounterValue (c : widths) (val : Z) : Z :=
  extract_width (uncore_gen_counter_width c) val.

Definition extractUncoreFixedCounterValue (c : widths) (val : Z) : Z :=
  extract_width (uncore_fixed_counter_width c) val.

Definition PCM_INVALID_QOS_MONITORING_DATA : Z := 2 ^ 64 - 1.
Definition PCM_INVALID_THERMAL_HEADROOM : Z := - 2 ^ 31.

Definition extractQOSMonitoring (val : Z) : Z :=
  if negb (Z.land val (Z.shiftl 3 62) =? 0) then PCM_INVALID_QOS_MONITORING_DATA
  else extract_bits val 0 61.

Definition extractThermalHeadroom (val : Z) : Z :=
  if negb (Z.land val (Z.shiftl 1 31) =? 0) then i32 (extract_bits val 16 22)
  else PCM_INVALID_THERMAL_HEADROOM.

(** ** The counter configuration of CPUID leaf 10 *)

Record PCM_CPUID_INFO := Cpuid { eax : Z; ebx : Z; ecx : Z; edx : Z }.

(** What the environment adds to CPUID: a value of [MSR_TSX_FORCE_ABORT] when the mode
    is available and the read succeeds, and the conditions of the two workarounds. *)
Record counter_environment := CounterEnv {
  force_rtm_abort : option Z;
  aws_virtualization : bool;
  nmi_watchdog : bool
}.

Record counter_config := CounterConfig {
  perfmon_version : Z;
  core_gen_counter_num_max : Z;
  gen_counter_width : Z;
  core_fixed_counter_num_max : Z;
  fixed_counter_width : Z
}.

(** [readCoreCounterConfig] on Linux, from the configuration held before the call. *)
Definition readCoreCounterConfig (max_cpuid : Z) (cpuinfo : PCM_CPUID_INFO) (env : counter_environment)
    (old : counter_config) : counter_config :=
  if 0xa <=? max_cpuid then
    let version := extract_bits_32 (eax cpuinfo) 0 7 in
    let gen_max := extract_bits_32 (eax cpuinfo) 8 15 in
    let gen_width := extract_bits_32 (eax cpuinfo) 16 23 in
    let '(fixed_max, fixed_width) :=
      if 1 <? version then (extract_bits_32 (edx cpuinfo) 0 4, extract_bits_32 (edx cpuinfo) 5 12)
      else if version =? 1 then (3, gen_width)
      else (core_fixed_counter_num_max old, fixed_counter_width old) in
    let gen_max :=
      match force_rtm_abort env with
      | Some TSXForceAbort => if Z.land TSXForceAbort 1 =? 0 then 3 else gen_max
      | None => gen_max
      end in
    let gen_max := if aws_virtualization env && (3 <? gen_max) then 3 else gen_max in
    let gen_max := if nmi_watchdog env then u32 (gen_max - 1) else gen_max in
    CounterConfig version gen_max gen_width fixed_max fixed_width
  else old.

Definition isFixedCounterSupported (max_cpuid : Z) (cpuinfo : PCM_CPUID_INFO) (c : Z) : bool :=
  if 0xa <=? max_cpuid then
    negb (extract_bits_32 (ecx cpuinfo) c c =? 0) || (c <? extract_bits_32 (edx cpuinfo) 4 0)
  else false.

(** * Counter states *)

Record BasicCounterState := Basic {
  InstRetiredAny : checked_uint64;
  CpuClkUnhaltedThread : checked_uint64;
  CpuClkUnhaltedRef : checked_uint64;
  Event : list checked_uint64;       (** [PERF_MAX_CUSTOM_COUNTERS] of them *)
  InvariantTSC : Z;
  CoreCStateResidency : list Z;      (** [MAX_C_STATE + 1] *)
  ThermalHeadroom : Z;
  L3Occupancy : Z;
  MemoryBWLocal : Z;
  MemoryBWTotal : Z;
  SMICount : Z;
  FrontendBoundSlots : Z;
  BadSpeculationSlots : Z;
  BackendBoundSlots : Z;
  RetiringSlots : Z;
  AllSlotsRaw : Z;
  MemBoundSlots : Z;
  FetchLatSlots : Z;
  BrMispredSlots : Z;
  HeavyOpsSlots : Z;
  MSRValues : gmap Z Z
}.

Definition PERF_MAX_CUSTOM_COUNTERS : nat := 8.

Definition BasicCounterState_init : BasicCounterState :=
  Basic checked_zero checked_zero checked_zero (replicate PERF_MAX_CUSTOM_COUNTERS checked_zero)
    0 no_c_states PCM_INVALID_THERMAL_HEADROOM 0 0 0 0 0 0 0 0 0 0 0 0 0 ∅.

(** [a[i] += b[i]] over two arrays of the same size. *)
Definition vec_add (a b : list Z) : list Z := zip_with (fun x y => u64 (x + y)) a b.

(** [BasicCounterState::operator +=]; [ThermalHeadroom] and [MSRValues] stay. *)
Definition basic_add (s o : BasicCounterState) : BasicCounterState :=
  Basic (checked_add (InstRetiredAny s) (InstRetiredAny o))
    (checked_add (CpuClkUnhaltedThread s) (CpuClkUnhaltedThread o))
    (checked_add (CpuClkUnhaltedRef s) (CpuClkUnhaltedRef o))
    (zip_with checked_add (Event s) (Event o))
    (u64 (InvariantTSC s + InvariantTSC o))
    (vec_add (CoreCStateResidency s) (CoreCStateResidency o))
    (ThermalHeadroom s)
    (u64 (L3Occupancy s + L3Occupancy o))
    (u64 (MemoryBWLocal s + MemoryBWLocal o))
    (u64 (MemoryBWTotal s + MemoryBWTotal o))
    (u64 (SMICount s + SMICount o))
    (u64 (FrontendBoundSlots s + FrontendBoundSlots o))
    (u64 (BadSpeculationSlots s + BadSpeculationSlots o))
    (u64 (BackendBoundSlots s + BackendBoundSlots o))
    (u64 (RetiringSlots s + RetiringSlots o))
    (u64 (AllSlotsRaw s + AllSlotsRaw o))
    (u64 (MemBoundSlots s + MemBoundSlots o))
    (u64 (FetchLatSlots s + FetchLatSlots o))
    (u64 (BrMispredSlots s + BrMispredSlots o))
    (u64 (HeavyOpsSlots s + HeavyOpsSlots o))
    (MSRValues s).

Record UncoreCounterState := Uncore {
  UFSStatus : list Z;
  UncMCFullWrites : Z;
  UncMCNormalReads : Z;
  UncHARequests : Z;
  UncHALocalRequests : Z;
  UncNMMiss : Z;
  UncNMHit : Z;
  UncPMMWrites : Z;
  UncPMMReads : Z;
  UncEDCFullWrites : Z;
  UncEDCNormalReads : Z;
  UncMCGTRequests : Z;
  UncMCIARequests : Z;
  UncMCIORequests : Z;
  PackageEnergyStatus : Z;
  PPEnergyStatus : list Z;           (** [MAX_PP + 1] *)
  DRAMEnergyStatus : Z;
  TOROccupancyIAMiss : Z;
  TORInsertsIAMiss : Z;
  UncClocks : Z;
  PackageCStateResidency : list Z    (** [MAX_C_STATE + 1] *)
}.

Definition UncoreCounterState_init : UncoreCounterState :=
  Uncore [] 0 0 0 0 0 0 0 0 0 0 0 0 0 0 [0; 0] 0 0 0 0 no_c_states.

(** [UncoreCounterState::operator +=]: the fields the operator does not mention keep the
    value of the left operand. *)
Definition uncore_add (s o : UncoreCounterState) : UncoreCounterState :=
  Uncore (UFSStatus s)
    (u64 (UncMCFullWrites s + UncMCFullWrites o))
    (u64 (UncMCNormalReads s + UncMCNormalReads o))
    (u64 (UncHARequests s + UncHARequests o))
    (u64 (UncHALocalRequests s + UncHALocalRequests o))
    (UncNMMiss s)
    (UncNMHit s)
    (u64 (UncPMMWrites s + UncPMMWrites o))
    (u64 (UncPMMReads s + UncPMMReads o))
    (u64 (UncEDCFullWrites s + UncEDCFullWrites o))
    (u64 (UncEDCNormalReads s + UncEDCNormalReads o))
    (u64 (UncMCGTRequests s + UncMCGTRequests o))
    (u64 (UncMCIARequests s + UncMCIARequests o))
    (u64 (UncMCIORequests s + UncMCIORequests o))
    (u64 (PackageEnergyStatus s + PackageEnergyStatus o))
    (PPEnergyStatus s)
    (u64 (DRAMEnergyStatus s + DRAMEnergyStatus o))
    (u64 (TOROccupancyIAMiss s + TOROccupancyIAMiss o))
    (u64 (TORInsertsIAMiss s + TORInsertsIAMiss o))
    (u64 (UncClocks s + UncClocks o))
    (vec_add (PackageCStateResidency s) (PackageCStateResidency o)).

(** [SocketCounterState], and the part of [SystemCounterState] that is aggregated. *)
Record SocketCounterState := Socket { basic : BasicCounterState; uncore : UncoreCounterState }.

Definition SocketCounterState_init : SocketCounterState :=
  Socket BasicCounterState_init UncoreCounterState_init.

Definition socket_add_core (s : SocketCounterState) (c : BasicCounterState) : SocketCounterState :=
  Socket (basic_add (basic s) c) (uncore s).

Definition system_add_socket (s : SocketCounterState) (o : SocketCounterState) : SocketCounterState :=
  Socket (basic_add (basic s) (basic o)) (uncore_add (uncore s) (uncore o)).

(** The aggregation at the end of [getAllCounterStates]: cores into their sockets, then
    sockets into the system. A core is its socket, whether it is online, and its state. *)
Definition aggregate_cores (cores : list (nat * bool * BasicCounterState))
    (socketStates : list SocketCounterState) : list SocketCounterState :=
  foldl (fun ss (c : nat * bool * BasicCounterState) =>
      let '(socket_id, online, st) := c in
      if online then alter (fun s => socket_add_core s st) socket_id ss else ss)
    socketStates cores.

Definition aggregate_sockets (socketStates : list SocketCounterState) : SocketCounterState :=
  foldl system_add_socket SocketCounterState_init socketStates.

(** * Getters: event counts from two states *)

Definition u64_sub (after before : Z) : Z := u64 (after - before).

(** [after.Event[i] - before.Event[i]] *)
Definition event_delta (i : nat) (before after : BasicCounterState) : Z :=
  checked_sub (nth i (Event after) checked_zero) (nth i (Event before) checked_zero).

Definition L3MissPos : nat := 0.
Definition ArchLLCMissPos : nat := 0.
Definition L3UnsharedHitPos : nat := 1.
Definition ArchLLCRefPos : nat := 1.
Definition SKLL3HitPos : nat := 1.
Definition L2HitMPos : nat := 2.
Definition SKLL2MissPos : nat := 2.
Definition HSXL2MissPos : nat := 2.
Definition L2HitPos : nat := 3.
Definition HSXL2RefPos : nat := 3.

(** The members of [PCM] the getters read: the model, and which cache metrics the
    programmed events support. *)
Record pcm_flags := Flags {
  model : Z;
  L3CacheMissesAvailable : bool;
  L2CacheMissesAvailable : bool;
  L2CacheHitsAvailable : bool;
  L3CacheHitsNoSnoopAvailable : bool;
  L3CacheHitsSnoopAvailable : bool;
  L3CacheHitsAvailable : bool;
  L3CacheOccupancyMetricAvailable : bool;
  CoreLocalMemoryBWMetricAvailable : bool;
  CoreRemoteMemoryBWMetricAvailable : bool;
  HBMmemoryTrafficMetricsAvailable : bool;
  pcm_stepping : Z;
  pcm_links : Z
}.

Section Getters.
Context (pcm : pcm_flags).

Definition getInstructionsRetired (before after : BasicCounterState) : Z :=
  checked_sub (InstRetiredAny after) (InstRetiredAny before).
Definition getCycles (before after : BasicCounterState) : Z :=
  checked_sub (CpuClkUnhaltedThread after) (CpuClkUnhaltedThread before).
Definition getRefCycles (before after : BasicCounterState) : Z :=
  checked_sub (CpuClkUnhaltedRef after) (CpuClkUnhaltedRef before).
Definition getInvariantTSC (before after : BasicCounterState) : Z :=
  u64_sub (InvariantTSC after) (InvariantTSC before).
Definition getSMICount (before after : BasicCounterState) : Z :=
  u64_sub (SMICount after) (SMICount before).
Definition getNumberOfCustomEvents (eventCounterNr : nat) (before after : BasicCounterState) : Z :=
  event_delta eventCounterNr before after.

Definition getL3CacheMisses (before after : BasicCounterState) : Z :=
  if L3CacheMissesAvailable pcm then event_delta L3MissPos before after else 0.

Definition getL2CacheMisses (before after : BasicCounterState) : Z :=
  if negb (L2CacheMissesAvailable pcm) then 0
  else if useSkylakeEvents (model pcm) ||
          is_one_of (model pcm)
            [SNOWRIDGE; ELKHART_LAKE; JASPER_LAKE; SRF; GRR; ADL; RPL; MTL; LNL; ARL; PTL]
  then event_delta SKLL2MissPos before after
  else if isAtom (model pcm) || (model pcm =? KNL) then event_delta ArchLLCMissPos before after
  else if memoryEventErrata (model pcm) then event_delta ArchLLCRefPos before after
  else u64 (event_delta L2HitMPos before after + event_delta L3UnsharedHitPos before after +
            event_delta L3MissPos before after).

Definition getL2CacheHits (before after : BasicCounterState) : Z :=
  if negb (L2CacheHitsAvailable pcm) then 0
  else if isAtom (model pcm) || (model pcm =? KNL) then
    u64_sub (event_delta ArchLLCRefPos before after) (event_delta ArchLLCMissPos before after)
  else if memoryEventErrata (model pcm) then
    let all := event_delta HSXL2RefPos before after in
    let misses := event_delta HSXL2MissPos before after in
    if misses <? all then all - misses else 0
  else event_delta L2HitPos before after.

Definition getL3CacheHitsNoSnoop (before after : BasicCounterState) : Z :=
  if L3CacheHitsNoSnoopAvailable pcm then event_delta L3UnsharedHitPos before after else 0.

Definition getL3CacheHitsSnoop (before after : BasicCounterState) : Z :=
  if negb (L3CacheHitsSnoopAvailable pcm) then 0
  else if is_one_of (model pcm)
            [SNOWRIDGE; GRR; ELKHART_LAKE; JASPER_LAKE; SRF; ADL; RPL; MTL; LNL; ARL; PTL] then
    let misses := i64 (getL3CacheMisses before after) in
    let refs := i64 (event_delta ArchLLCRefPos before after) in
    let hits := i64 (refs - misses) in
    if 0 <? hits then hits else 0
  else if useSkylakeEvents (model pcm) then event_delta SKLL3HitPos before after
  else event_delta L2HitMPos before after.

Definition getL3CacheHits (before after : BasicCounterState) : Z :=
  if negb (L3CacheHitsAvailable pcm) then 0
  else if memoryEventErrata (model pcm) then
    let LLCMiss := event_delta ArchLLCMissPos before after in
    let LLCRef := event_delta ArchLLCRefPos before after in
    if LLCMiss <? LLCRef then LLCRef - LLCMiss else 0
  else u64 (getL3CacheHitsSnoop before after + getL3CacheHitsNoSnoop before after).

Definition getL3CacheOccupancy (now : BasicCounterState) : Z :=
  if L3CacheOccupancyMetricAvailable pcm then L3Occupancy now else 0.

Definition getLocalMemoryBW (before after : BasicCounterState) : Z :=
  if CoreLocalMemoryBWMetricAvailable pcm then u64_sub (MemoryBWLocal after) (MemoryBWLocal before) else 0.

Definition getRemoteMemoryBW (before after : BasicCounterState) : Z :=
  if CoreRemoteMemoryBWMetricAvailable pcm then
    let total := u64_sub (MemoryBWTotal after) (MemoryBWTotal before) in
    let local := getLocalMemoryBW before after in
    if local <? total then total - local else 0
  else 0.

(** ** Memory traffic *)

(** [(after.F - before.F) * bytes] when the metric is available. *)
Definition traffic (available : bool) (bytes after before : Z) : Z :=
  if available then u64 (u64_sub after before * bytes) else 0.

Definition getBytesReadFromMC (before after : UncoreCounterState) : Z :=
  traffic (memoryTrafficMetricsAvailable (model pcm)) 64 (UncMCNormalReads after) (UncMCNormalReads before).
Definition getBytesWrittenToMC (before after : UncoreCounterState) : Z :=
  traffic (memoryTrafficMetricsAvailable (model pcm)) 64 (UncMCFullWrites after) (UncMCFullWrites before).
Definition getNMHits (before after : UncoreCounterState) : Z :=
  traffic (nearMemoryMetricsAvailable (model pcm)) 1 (UncNMHit after) (UncNMHit before).
Definition getNMMisses (before after : UncoreCounterState) : Z :=
  traffic (nearMemoryMetricsAvailable (model pcm)) 1 (UncNMMiss after) (UncNMMiss before).
Definition getNMMissBW (before after : UncoreCounterState) : Z :=
  traffic (nearMemoryMetricsAvailable (model pcm)) (64 * 2) (UncNMMiss after) (UncNMMiss before).
Definition getBytesReadFromPMM (before after : UncoreCounterState) : Z :=
  traffic (PMMTrafficMetricsAvailable (model pcm) (pcm_stepping pcm)) 64 (UncPMMReads after) (UncPMMReads before).
Definition getBytesWrittenToPMM (before after : UncoreCounterState) : Z :=
  traffic (PMMTrafficMetricsAvailable (model pcm) (pcm_stepping pcm)) 64 (UncPMMWrites after) (UncPMMWrites before).
Definition getBytesReadFromEDC (before after : UncoreCounterState) : Z :=
  traffic (HBMmemoryTrafficMetricsAvailable pcm) (getHBMCASTransferSize (model pcm))
    (UncEDCNormalReads after) (UncEDCNormalReads before).
Definition getBytesWrittenToEDC (before after : UncoreCounterState) : Z :=
  traffic (HBMmemoryTrafficMetricsAvailable pcm) (getHBMCASTransferSize (model pcm))
    (UncEDCFullWrites after) (UncEDCFullWrites before).
Definition getGTRequestBytesFromMC (before after : UncoreCounterState) : Z :=
  traffic (memoryIOTrafficMetricAvailable (model pcm)) 64 (UncMCGTRequests after) (UncMCGTRequests before).
Definition getIARequestBytesFromMC (before after : UncoreCounterState) : Z :=
  traffic (memoryIOTrafficMetricAvailable (model pcm)) 64 (UncMCIARequests after) (UncMCIARequests before).
Definition getIORequestBytesFromMC (before after : UncoreCounterState) : Z :=
  traffic (memoryIOTrafficMetricAvailable (model pcm)) 64 (UncMCIORequests after) (UncMCIORequests before).

Definition getConsumedEnergy (before after : UncoreCounterState) : Z :=
  u64_sub (PackageEnergyStatus after) (PackageEnergyStatus before).
Definition getConsumedEnergy_pp (powerPlane : nat) (before after : UncoreCounterState) : Z :=
  u64_sub (nth powerPlane (PPEnergyStatus after) 0) (nth powerPlane (PPEnergyStatus before) 0).
Definition getDRAMConsumedEnergy (before after : UncoreCounterState) : Z :=
  u64_sub (DRAMEnergyStatus after) (DRAMEnergyStatus before).
Definition getUncoreClocks (before after : UncoreCounterState) : Z :=
  u64_sub (UncClocks after) (UncClocks before).

(** ** Links: [b] and [a] are [incomingQPIPackets[socket][link]] of the two states *)

Definition getIncomingQPILinkBytes (b a : Z) : Z :=
  if incomingQPITrafficMetricsAvailable (model pcm) (pcm_stepping pcm) (pcm_links pcm)
  then if b <? a then u64 (64 * (a - b)) else 0
  else 0.

Definition getAllIncomingQPILinkBytes (before after : list (list Z)) : Z :=
  foldl (fun sum row => foldl (fun sum ba => u64 (sum + getIncomingQPILinkBytes ba.1 ba.2)) sum row)
    0 (zip_with (fun b a => zip b a) before after).

End Getters.

(** ** Dies *)

Definition DieCompute : Z := 2 ^ 23.
Definition DieLLC : Z := 2 ^ 24.
Definition DieMemory : Z := 2 ^ 25.
Definition DieIO : Z := 2 ^ 26.

Definition getDieTypeStr (d : Z) : string :=
  let part bit s := if negb (Z.land d bit =? 0) then s else ""%string in
  (part DieCompute "COR" +:+ part DieIO "IO" +:+ part DieLLC "LLC" +:+ part DieMemory "M")%string.

Definition getUncoreDieTypes (UFSStatus : list Z) : list Z :=
  map (fun e => Z.shiftl (extract_bits e 23 26) 23) UFSStatus.

(** ** Uncore counters by unit: [getUncoreCounter]

    The counters of a state per die, as a map from PMU id to units; a unit number counts
    through the dies. *)

Definition maxCounters : nat := 8.

Fixpoint getUncoreCounter (pmu_id : Z) (unit counter : nat)
    (before after : list (gmap Z (list (list Z)))) : Z :=
  if (counter <? maxCounters)%nat then
    match after, before with
    | a :: after', b :: before' =>
        match a !! pmu_id, b !! pmu_id with
        | Some afterUnits, Some beforeUnits =>
            match afterUnits !! unit with
            | Some au => u64_sub (nth counter au 0) (nth counter (nth unit beforeUnits []) 0)
            | None => getUncoreCounter pmu_id (unit - length afterUnits) counter before' after'
            end
        | _, _ => getUncoreCounter pmu_id unit counter before' after'
        end
    | _, _ => 0
    end
  else 0.

(** [getFreeRunningCounter]; -1 when one of the states lacks the counter. *)
Definition getFreeRunningCounter (before after : gmap Z Z) (counter : Z) : Z :=
  match before !! counter, after !! counter with
  | Some b, Some a => i64 (a - b)
  | _, _ => -1
  end.

(** [getDRAMClocks], the member of a state: memory clocks count twice on ICX and SNOWRIDGE. *)
Definition getDRAMClocks_delta (cpu_family_model before after : Z) : Z :=
  let clk := u64_sub after before in
  if (cpu_family_model =? ICX) || (cpu_family_model =? SNOWRIDGE) then u64 (2 * clk) else clk.

(** * Reading a core: [BasicCounterState::readAndAggregate] *)

Definition INST_RETIRED_ADDR : Z := 0x309.
Definition CPU_CLK_UNHALTED_THREAD_ADDR : Z := 0x30A.
Definition CPU_CLK_UNHALTED_REF_ADDR : Z := 0x30B.
Definition IA32_CR_PERF_GLOBAL_CTRL : Z := 0x38F.
Definition IA32_PERF_GLOBAL_STATUS : Z := 0x38E.
Definition IA32_PERF_GLOBAL_OVF_CTRL : Z := 0x390.
Definition IA32_PERFEVTSEL0_ADDR : Z := 0x186.
Definition IA32_PMC0 : Z := 0xC1.
Definition IA32_TIME_STAMP_COUNTER : Z := 0x10.
Definition MSR_IA32_THERM_STATUS : Z := 0x19C.
Definition MSR_SMI_COUNT : Z := 0x34.

(** A [uint64] converted to a double: 53 significant bits, to nearest, ties to even. *)
Definition to_double (x : Z) : Z :=
  if x <? 2 ^ 53 then x
  else
    let k := Z.log2 x - 52 in
    let q := x / 2 ^ k in
    let r := x mod 2 ^ k in
    let half := 2 ^ (k - 1) in
    (if (half <? r) || ((half =? r) && Z.odd q) then q + 1 else q) * 2 ^ k.

(** [(uint64)((double)x / 2^n)]: exact up to the conversion, since the divisor is a
    power of two. *)
Definition double_div_pow2 (x n : Z) : Z := to_double x / 2 ^ n.

(** The positions of the perf handles of a core. *)
Definition PERF_INST_RETIRED_POS : nat := 0.
Definition PERF_CPU_CLK_UNHALTED_THREAD_POS : nat := 1.
Definition PERF_CPU_CLK_UNHALTED_REF_POS : nat := 2.
Definition PERF_GEN_EVENT_0_POS : nat := 3.
Definition PERF_TOPDOWN_SLOTS_POS : nat := 11.
Definition PERF_TOPDOWN_FRONTEND_POS : nat := 12.
Definition PERF_TOPDOWN_BADSPEC_POS : nat := 13.
Definition PERF_TOPDOWN_BACKEND_POS : nat := 14.
Definition PERF_TOPDOWN_RETIRING_POS : nat := 15.
Definition PERF_TOPDOWN_MEM_BOUND_POS : nat := 16.
Definition PERF_TOPDOWN_FETCH_LAT_POS : nat := 17.
Definition PERF_TOPDOWN_BR_MISPRED_POS : nat := 18.
Definition PERF_TOPDOWN_HEAVY_OPS_POS : nat := 19.

Definition PERF_TOPDOWN_COUNTERS_L1 : nat := 5.
Definition PERF_TOPDOWN_COUNTERS : nat := 9.
Definition PERF_MAX_COUNTERS : nat := 20.
Definition PERF_METRICS_ADDR : Z := 0x329.
Definition TOPDOWN_SLOTS_ADDR : Z := 0x30C.

(** The members of [PCM] that [readPerfData] reads for a core: [perfEventHandle], the
    element for the core in each array of [perfEventTaskHandle], and [perfTopDownPos]. *)
Record perf_context := PerfContext {
  perf_handles : list Z;
  perf_task_handles : list (list Z);
  perf_fixed_used : nat;
  perf_gen_used : nat;
  perf_topdown : bool;                     (** [perfSupportsTopDown()] *)
  perf_topdown_pos : gmap nat Z            (** 0 where nothing was stored *)
}.

(** The members of [PCM] that the function reads for a core. *)
Record core_context := CoreContext {
  ctx_widths : widths;
  core_global_ctrl_value : Z;
  getMaxCustomCoreEvents : nat;
  lastProgrammedCustomCounters : list Z;   (** of this core; empty when it has none *)
  ctx_perf : perf_context;
  ctx_HWTMAL1 : bool;                      (** [isHWTMAL1Supported()], [isHWTMAL2Supported()] *)
  ctx_HWTMAL2 : bool;
  ctx_L3OccupancyAvailable : bool;
  ctx_LocalBWAvailable : bool;
  ctx_RemoteBWAvailable : bool;
  ctx_resctrl : option Resctrl;            (** [resctrl], when [useResctrl] is set *)
  L3ScalingFactor : Z;
  memory_bw_local : option nat;            (** the extender of this core, if any *)
  memory_bw_total : option nat;
  counts_with_TSC : bool;                  (** no Atom, or AVOTON *)
  nominal_frequency : Z;
  supportsRDTSCP : bool;
  coreCStateMsr : list Z
}.

(** Whether reading the core clears the top-down registers: without Linux perf, on a
    processor that has them. *)
Definition clears_slots (ctx : core_context) : bool := negb (canUsePerf (ctx_widths ctx)) && ctx_HWTMAL1 ctx.

Section Reading.
Context {machine : Machine} (ctx : core_context).

(** [msr->read(...) == sizeof(uint64)] *)
Definition msr_read_checked (core msr_number : Z) : M (option Z) := access_read (MsrPort core msr_number).

(** The loop of [checkCustomCoreProgramming] from counter [ctr] on. *)
Fixpoint check_programming (core : Z) (ctr : nat) (expected : list Z) (mask : Z) : M Z :=
  match expected with
  | [] => mret mask
  | e :: expected' =>
      current ← msr_read_checked core (IA32_PERFEVTSEL0_ADDR + Z.of_nat ctr);
      check_programming core (S ctr) expected'
        (match current with
         | Some c => if negb (c =? e) then Z.lor mask (u32 (Z.shiftl 1 (Z.of_nat ctr))) else mask
         | None => mask
         end)
  end.

Definition checkCustomCoreProgramming (core : Z) : M Z :=
  if canUsePerf (ctx_widths ctx) then mret 0 else check_programming core 0 (lastProgrammedCustomCounters ctx) 0.

Definition initQOSevent (event core : Z) : M unit := select_qm_event (Some core) event.

Definition getInvariantTSC_Fast (core : Z) : M Z :=
  if supportsRDTSCP ctx then v ← access_read (TscPort core); mret (default 0 v)
  else msr_read (Some core) IA32_TIME_STAMP_COUNTER.

(** A double that C++ converts to a [uint64]; out of its range this is undefined. *)
Definition double_to_uint64 (x : double) : M Z :=
  match to_Z 0 (2 ^ 64 - 1) x with Some v => mret v | None => throw OutOfRange end.

(** [readAndAggregateTSC]: the ticks, and the values of the MSRs. *)
Definition readAndAggregateTSC (core : Z) (values : gmap Z Z) : M (Z * gmap Z Z) :=
  if counts_with_TSC ctx then
    tsc ← getInvariantTSC_Fast core;
    mret (tsc, <[IA32_TIME_STAMP_COUNTER := tsc]> values)
  else
    now ← access_read ClockPort;
    let tv_sec := of_Z (default 0 now / 10 ^ 6) in
    let tv_usec := of_Z (default 0 now mod 10 ^ 6) in
    tsc ← double_to_uint64 (dmul (dadd tv_sec (ddiv tv_usec (of_Z (10 ^ 6)))) (of_Z (nominal_frequency ctx)));
    mret (tsc, values).

(** One bandwidth counter of [readAndAggregateMemoryBWCounters]. *)
Definition aggregate_bw (counter : option nat) (old : Z) : M Z :=
  match counter with
  | None => mret old
  | Some id =>
      raw ← extender_read id;
      let v := extractQOSMonitoring raw in
      if v =? PCM_INVALID_QOS_MONITORING_DATA then mret PCM_INVALID_QOS_MONITORING_DATA
      else mret (u64 (old + double_div_pow2 (u64 (v * L3ScalingFactor ctx)) 20))
  end.

(** The new local and total bandwidths. *)
Definition readAndAggregateMemoryBWCounters (core old_local old_total : Z) : M (Z * Z) :=
  match ctx_resctrl ctx with
  | Some r =>
      l ← (if ctx_LocalBWAvailable ctx then v ← getMBL r core; mret (u64 (old_local + v / (1024 * 1024))) else mret old_local);
      t ← (if ctx_RemoteBWAvailable ctx then v ← getMBT r core; mret (u64 (old_total + v / (1024 * 1024))) else mret old_total);
      mret (l, t)
  | None =>
      l ← aggregate_bw (memory_bw_local ctx) old_local;
      t ← aggregate_bw (memory_bw_total ctx) old_total;
      mret (l, t)
  end.

(** The loop over the core C-state MSRs: the residencies and [MSRValues]. *)
Fixpoint read_c_states (core : Z) (msrs : list Z) (values : gmap Z Z) : M (list Z * gmap Z Z) :=
  match msrs with
  | [] => mret ([], values)
  | index :: msrs' =>
      if index =? 0 then
        r ← read_c_states core msrs' values; mret (0 :: r.1, r.2)
      else
        v ← msr_read (Some core) index;
        r ← read_c_states core msrs' (<[index:=v]> values); mret (v :: r.1, r.2)
  end.

(** The programmable counters: all read before the overflow status is cleared. *)
Definition read_programmable (core : Z) (n : nat) : M (list Z) :=
  mapM_ (seq 0 n) (fun i => msr_read (Some core) (IA32_PMC0 + Z.of_nat i)).

(** [Event[i] += checked_uint64(...)] for each counter read. *)
Definition add_events (events : list checked_uint64) (values : list Z) (overflows mask : Z)
    : list checked_uint64 :=
  imap (fun i (e : checked_uint64) =>
      match values !! i with
      | Some v =>
          let v := if Z.testbit mask (Z.of_nat i) then u64 (-1) else v in
          checked_add e (Checked (extractCoreGenCounterValue (ctx_widths ctx) v)
                           (extract_bits overflows (Z.of_nat i) (Z.of_nat i)))
      | None => e
      end) events.

(** * Linux perf: [readPerfData] *)

(** The 64-bit words of an answer. *)
Definition words (n : nat) (v : Z) : list Z := map (fun i => u64 (Z.shiftr v (64 * Z.of_nat i))) (seq 0 n).

(** [std::copy] of [data] to position [i] of [out]. *)
Definition copy_to (i : nat) (data out : list Z) : res (list Z) :=
  if (length out <? i + length data)%nat then Throw OutOfRange
  else Ok (take i out ++ data ++ drop (i + length data) out).

Definition lift_res {A} (r : res A) : M A := fun h => (h, r).

(** One counter of a thread of the process: added to the others. *)
Definition read_task_counter (fds : list Z) (out : list Z) (ctr : nat) : M (list Z) :=
  match fds !! ctr, out !! ctr with
  | Some fd, Some old =>
      if fd =? -1 then mret out
      else
        r ← access_read (PerfRead fd 1);
        mret (match r with Some v => <[ctr := u64 (old + u64 v)]> out | None => out end)
  | _, _ => throw OutOfRange
  end.

Fixpoint read_task_counters (reads : list (list Z * nat)) (out : list Z) : M (list Z) :=
  match reads with
  | [] => mret out
  | (fds, ctr) :: reads => out ← read_task_counter fds out ctr; read_task_counters reads out
  end.

(** [readPerfDataHelper]: the group of a leader is read with one call, which gives the number
    of counters and then the counters. *)
Definition readPerfDataHelper (leader num_counters : nat) (out : list Z) : M (list Z) :=
  match perf_handles (ctx_perf ctx) !! leader with
  | None => throw OutOfRange
  | Some fd =>
      if fd <? 0 then mret (replicate (length out) 0)
      else if (PERF_MAX_COUNTERS <? num_counters)%nat then throw OutOfRange
      else
        r ← access_read (PerfRead fd (S num_counters));
        match words (S num_counters) <$> r with
        | Some (count :: data) => if negb (count =? Z.of_nat num_counters) then mret out else lift_res (copy_to 0 data out)
        | _ => mret out
        end
  end.

Definition readPerfData (out : list Z) : M (list Z) :=
  let pc := ctx_perf ctx in
  match perf_task_handles pc with
  | _ :: _ =>
      read_task_counters
        (concat (map (fun fds => map (fun ctr => (fds, ctr)) (seq 0 PERF_MAX_COUNTERS)) (perf_task_handles pc)))
        (replicate (length out) 0)
  | [] =>
      let used := (perf_fixed_used pc + perf_gen_used pc)%nat in
      out ← readPerfDataHelper PERF_INST_RETIRED_POS used out;
      if ctx_HWTMAL1 ctx && perf_topdown pc then
        let topdownCtrNum := if ctx_HWTMAL2 ctx then PERF_TOPDOWN_COUNTERS else PERF_TOPDOWN_COUNTERS_L1 in
        outTopDownData ← readPerfDataHelper PERF_TOPDOWN_SLOTS_POS topdownCtrNum (replicate (length out) 0);
        lift_res (copy_to used (take topdownCtrNum outTopDownData) out)
      else mret out
  end.

(** * The counters of a core *)

(** What the first half of [readAndAggregate] leaves in its variables. *)
Record core_readings := CoreReadings {
  cr_overflows : Z;
  cInstRetiredAny : Z;
  cCpuClkUnhaltedThread : Z;
  cCpuClkUnhaltedRef : Z;
  cCustomEvents : list Z;
  cSlots : topdown_slots
}.

Definition perf_value (perfData : list Z) (pos : Z) : M Z :=
  if pos <? 0 then throw OutOfRange
  else match perfData !! Z.to_nat pos with Some v => mret v | None => throw OutOfRange end.

Definition topdown_value (perfData : list Z) (pos : nat) : M Z :=
  perf_value perfData (default 0 (perf_topdown_pos (ctx_perf ctx) !! pos)).

Definition read_perf_slots (perfData : list Z) : M topdown_slots :=
  if ctx_HWTMAL1 ctx && perf_topdown (ctx_perf ctx) then
    fe ← topdown_value perfData PERF_TOPDOWN_FRONTEND_POS;
    bad ← topdown_value perfData PERF_TOPDOWN_BADSPEC_POS;
    be ← topdown_value perfData PERF_TOPDOWN_BACKEND_POS;
    ret ← topdown_value perfData PERF_TOPDOWN_RETIRING_POS;
    all ← topdown_value perfData PERF_TOPDOWN_SLOTS_POS;
    if ctx_HWTMAL2 ctx then
      mem ← topdown_value perfData PERF_TOPDOWN_MEM_BOUND_POS;
      fetch ← topdown_value perfData PERF_TOPDOWN_FETCH_LAT_POS;
      br ← topdown_value perfData PERF_TOPDOWN_BR_MISPRED_POS;
      heavy ← topdown_value perfData PERF_TOPDOWN_HEAVY_OPS_POS;
      mret (Slots fe bad be ret all mem fetch br heavy)
    else mret (Slots fe bad be ret all 0 0 0 0)
  else mret no_slots.

Definition read_core_perf : M core_readings :=
  perfData ← readPerfData (replicate PERF_MAX_COUNTERS 0);
  inst ← perf_value perfData (Z.of_nat PERF_INST_RETIRED_POS);
  thread ← perf_value perfData (Z.of_nat PERF_CPU_CLK_UNHALTED_THREAD_POS);
  ref ← perf_value perfData (Z.of_nat PERF_CPU_CLK_UNHALTED_REF_POS);
  custom ← mapM_ (seq 0 (getMaxCustomCoreEvents ctx)) (fun i => perf_value perfData (Z.of_nat (PERF_GEN_EVENT_0_POS + i)));
  s ← read_perf_slots perfData;
  mret (CoreReadings 0 inst thread ref custom s).

Definition get_slots (core : Z) : M topdown_slots := fun h => (h, Ok (default no_slots (slots h !! core))).
Definition put_slots (core : Z) (s : topdown_slots) : M unit := fun h =>
  (HW (history h) (extenders h) (<[core := s]> (slots h)), Ok tt).

(** [m->...Slots[core_id] += (total != 0) ? uint64((double(share) / total) * double(slots)) : 0] *)
Definition add_share (old share total slots : Z) : M Z :=
  v ← (if total =? 0 then mret 0 else double_to_uint64 (dmul (ddiv (of_Z share) (of_Z total)) (of_Z slots)));
  mret (u64 (old + v)).

(** The hardware top-down metrics: shares of the slots since the registers were last cleared. *)
Definition read_topdown (core : Z) : M topdown_slots :=
  perfMetrics ← msr_read (Some core) PERF_METRICS_ADDR;
  slots ← msr_read (Some core) TOPDOWN_SLOTS_ADDR;
  msr_write (Some core) PERF_METRICS_ADDR 0 ;;
  msr_write (Some core) TOPDOWN_SLOTS_ADDR 0 ;;
  let share b := extract_bits perfMetrics b (b + 7) in
  let total := share 16 + share 8 + share 24 + share 0 in
  s ← get_slots core;
  fe ← add_share (FrontendBound s) (share 16) total slots;
  bad ← add_share (BadSpeculation s) (share 8) total slots;
  be ← add_share (BackendBound s) (share 24) total slots;
  ret ← add_share (Retiring s) (share 0) total slots;
  let all := u64 (AllSlots s + slots) in
  if ctx_HWTMAL2 ctx then
    mem ← add_share (MemBound s) (share 56) total slots;
    fetch ← add_share (FetchLat s) (share 48) total slots;
    br ← add_share (BrMispred s) (share 40) total slots;
    heavy ← add_share (HeavyOps s) (share 32) total slots;
    put_slots core (Slots fe bad be ret all mem fetch br heavy) ;;
    mret (Slots fe bad be ret all mem fetch br heavy)
  else
    put_slots core (Slots fe bad be ret all (MemBound s) (FetchLat s) (BrMispred s) (HeavyOps s)) ;;
    mret (Slots fe bad be ret all 0 0 0 0).

Definition read_core_direct (core : Z) : M core_readings :=
  ovf ← msr_read (Some core) IA32_PERF_GLOBAL_STATUS;
  inst ← msr_read (Some core) INST_RETIRED_ADDR;
  thread ← msr_read (Some core) CPU_CLK_UNHALTED_THREAD_ADDR;
  ref ← msr_read (Some core) CPU_CLK_UNHALTED_REF_ADDR;
  custom ← read_programmable core (getMaxCustomCoreEvents ctx);
  msr_write (Some core) IA32_PERF_GLOBAL_OVF_CTRL ovf ;;
  s ← (if ctx_HWTMAL1 ctx then read_topdown core else mret no_slots);
  mret (CoreReadings ovf inst thread ref custom s).

(** The occupancy of the last-level cache before it is scaled: [cL3Occupancy]. *)
Definition read_occupancy (core : Z) : M Z :=
  match ctx_resctrl ctx with
  | None => if ctx_L3OccupancyAvailable ctx then initQOSevent 1 core ;; msr_read (Some core) IA32_QM_CTR else mret 0
  | Some _ => mret 0
  end.

(** [L3Occupancy], in kilobytes. *)
Definition scale_occupancy (core occ : Z) : M Z :=
  match ctx_resctrl ctx with
  | Some r => v ← getL3OCC r core; mret (v / 1024)
  | None =>
      let occ := extractQOSMonitoring occ in
      mret (if occ =? PCM_INVALID_QOS_MONITORING_DATA then PCM_INVALID_QOS_MONITORING_DATA
            else double_div_pow2 (u64 (occ * L3ScalingFactor ctx)) 10)
  end.

(** The arrays of the function have room for [PERF_MAX_CUSTOM_COUNTERS] counters. *)
Definition readAndAggregate (core : Z) (s : BasicCounterState) : M BasicCounterState :=
  let freezeUnfreeze := negb (canUsePerf (ctx_widths ctx)) && negb (core_global_ctrl_value ctx =? 0) in
  (if freezeUnfreeze then msr_write (Some core) IA32_CR_PERF_GLOBAL_CTRL 0 else mret tt) ;;
  corrupted ← checkCustomCoreProgramming core;
  (if (PERF_MAX_CUSTOM_COUNTERS <? getMaxCustomCoreEvents ctx)%nat then throw OutOfRange else mret tt) ;;
  r ← (if canUsePerf (ctx_widths ctx) then read_core_perf else read_core_direct core);
  occ ← read_occupancy core;
  bw ← readAndAggregateMemoryBWCounters core (MemoryBWLocal s) (MemoryBWTotal s);
  tsc ← readAndAggregateTSC core (MSRValues s);
  cs ← read_c_states core (coreCStateMsr ctx) tsc.2;
  therm ← msr_read (Some core) MSR_IA32_THERM_STATUS;
  smi ← msr_read (Some core) MSR_SMI_COUNT;
  let ovf := cr_overflows r in
  let fixed v bit := Checked (extractCoreFixedCounterValue (ctx_widths ctx) v) (extract_bits ovf bit bit) in
  occ ← scale_occupancy core occ;
  (if freezeUnfreeze
   then msr_write (Some core) IA32_CR_PERF_GLOBAL_CTRL (core_global_ctrl_value ctx) else mret tt) ;;
  let t := cSlots r in
  mret (Basic (checked_add (InstRetiredAny s) (fixed (cInstRetiredAny r) 32))
          (checked_add (CpuClkUnhaltedThread s) (fixed (cCpuClkUnhaltedThread r) 33))
          (checked_add (CpuClkUnhaltedRef s) (fixed (cCpuClkUnhaltedRef r) 34))
          (add_events (Event s) (cCustomEvents r) ovf corrupted)
          (u64 (InvariantTSC s + tsc.1))
          (vec_add (CoreCStateResidency s) cs.1)
          (extractThermalHeadroom therm)
          occ bw.1 bw.2
          (u64 (SMICount s + smi))
          (u64 (FrontendBoundSlots s + FrontendBound t)) (u64 (BadSpeculationSlots s + BadSpeculation t))
          (u64 (BackendBoundSlots s + BackendBound t)) (u64 (RetiringSlots s + Retiring t))
          (u64 (AllSlotsRaw s + AllSlots t)) (u64 (MemBoundSlots s + MemBound t))
          (u64 (FetchLatSlots s + FetchLat t)) (u64 (BrMispredSlots s + BrMispred t))
          (u64 (HeavyOpsSlots s + HeavyOps t))
          (<[MSR_SMI_COUNT:=smi]> (<[MSR_IA32_THERM_STATUS:=therm]> cs.2))).

End Reading.

(** * Differences of wrapped counters *)

(** One hardware counter between two samples: its true count [c1] at the first and [c2]
    at the second, and the overflow bit [o1] found by the first sample. *)
Record counted := Counted { c1 : Z; o1 : Z; c2 : Z }.

(** The count is below one full turn of the 48-bit counter. *)
Definition counted_ok (x : counted) : Prop := 0 <= c1 x /\ c1 x <= c2 x < c1 x + 2 ^ 48.

(** What the samples see: the counter modulo [2^48], and in the overflow status, which
    the first sample cleared, whether the counter wrapped in between. *)
Definition sample_before (x : counted) : checked_uint64 := Checked (c1 x mod 2 ^ 48) (o1 x).
Definition sample_after (x : counted) : checked_uint64 :=
  Checked (c2 x mod 2 ^ 48) (if c1 x / 2 ^ 48 <? c2 x / 2 ^ 48 then 1 else 0).

Definition checked_sum (l : list checked_uint64) : checked_uint64 := foldl checked_add checked_zero l.

Lemma checked_sum_from l x :
  data (foldl checked_add x l) = u64 (data x + foldr Z.add 0 (map data l)) \/ l = [].
Proof.
  revert x. induction l as [|y l IH]; intros x; [by right|left]. simpl.
  destruct (IH (checked_add x y)) as [->| ->]; simpl; autorewrite with pcm_wrap; f_equal; lia.
Qed.

Lemma checked_sum_data l : data (checked_sum l) = u64 (foldr Z.add 0 (map data l)).
Proof. unfold checked_sum. by destruct (checked_sum_from l checked_zero) as [->| ->]. Qed.

Lemma checked_sum_overflows_from l x :
  u64 (overflows (foldl checked_add x l)) = u64 (overflows x + foldr Z.add 0 (map overflows l)).
Proof.
  revert x. induction l as [|y l IH]; intros x; simpl; [f_equal; lia|].
  rewrite IH. simpl. autorewrite with pcm_wrap. f_equal; lia.
Qed.

Lemma sample_difference x : counted_ok x ->
  data (sample_after x) + overflows (sample_after x) * 2 ^ 48 - data (sample_before x) = c2 x - c1 x.
Proof.
  intros [H0 H]. simpl. pose proof (Z.div_mod (c1 x) (2 ^ 48)). pose proof (Z.div_mod (c2 x) (2 ^ 48)).
  pose proof (Z.mod_pos_bound (c1 x) (2 ^ 48)). pose proof (Z.mod_pos_bound (c2 x) (2 ^ 48)).
  destruct (Z.ltb_spec (c1 x / 2 ^ 48) (c2 x / 2 ^ 48)); nia.
Qed.

Lemma samples_difference l : Forall counted_ok l ->
  foldr Z.add 0 (map data (map sample_after l)) + foldr Z.add 0 (map overflows (map sample_after l)) * 2 ^ 48 -
  foldr Z.add 0 (map data (map sample_before l)) = foldr Z.add 0 (map (fun x => c2 x - c1 x) l).
Proof.
  induction 1 as [|x l Hx Hl IH]; [done|]. cbn [map foldr]. pose proof (sample_difference x Hx). lia.
Qed.

Lemma checked_sub_cong x y :
  checked_sub x y = u64 (data x + u64 (overflows x) * 2 ^ 48 - data y).
Proof.
  unfold checked_sub, counter_width. apply (cong_eq 64).
  by rewrite (cong_wrap 64 (overflows x)) by lia.
Qed.

(** Between two consecutive samples, the difference of the aggregated counters is the
    number of events that occurred on all the cores (modulo 64 bits), although each
    hardware counter has 48 bits and may have wrapped, once, in between. *)
Theorem aggregated_difference_exact l :
  Forall counted_ok l ->
  checked_sub (checked_sum (map sample_after l)) (checked_sum (map sample_before l)) =
  u64 (foldr Z.add 0 (map (fun x => c2 x - c1 x) l)).
Proof.
  intros Hl. rewrite checked_sub_cong. rewrite <- (samples_difference l Hl).
  unfold checked_sum at 2. rewrite checked_sum_overflows_from, !checked_sum_data. simpl.
  apply (cong_eq 64). repeat setoid_rewrite (cong_wrap 64); [|lia..]. unfold cong. f_equal; lia.
Qed.

Lemma aggregated_difference_exact_witness :
  checked_sub (checked_sum (map sample_after [Counted (2 ^ 48 - 5) 1 (2 ^ 48 + 7); Counted 3 0 10]))
    (checked_sum (map sample_before [Counted (2 ^ 48 - 5) 1 (2 ^ 48 + 7); Counted 3 0 10])) = 19.
Proof.
  apply (aggregated_difference_exact [Counted (2 ^ 48 - 5) 1 (2 ^ 48 + 7); Counted 3 0 10]).
  repeat (apply Forall_cons_2; [unfold counted_ok; simpl; lia|]). constructor.
Defined.

(** * Correctness of [readAndAggregate] *)

Lemma M_bind_inv {A B} (m : M A) (f : A -> M B) h h' b :
  (m ≫= f) h = (h', Ok b) -> exists h1 a, m h = (h1, Ok a) /\ f a h1 = (h', Ok b).
Proof. unfold mbind, M_bind. destruct (m h) as [h1 [a|e]]; [eauto|done]. Qed.

(** Names the results of the calls of a computation that returned. *)
Ltac inv_M H :=
  repeat match type of H with
  | (_ ≫= _) _ = (_, Ok _) =>
      let h := fresh "h" in let a := fresh "r" in let E := fresh "E" in
      apply M_bind_inv in H as (h & a & E & H)
  end.

(** The registers of a core at one moment: reads do not depend on the accesses made. *)
Definition snapshot (f : Z -> Z -> Z) : Machine := fun _ p =>
  match p with
  | MsrPort core msr => Some (f core msr)
  | TscPort core => Some (f core IA32_TIME_STAMP_COUNTER)
  | _ => None
  end.

Lemma snapshot_read f core n h h' v :
  @msr_read (snapshot f) (Some core) n h = (h', Ok v) -> v = f core n.
Proof. by intros [= <- <-]. Qed.

Lemma snapshot_core f ctx core h h' r :
  @read_core_direct (snapshot f) ctx core h = (h', Ok r) ->
  cr_overflows r = f core IA32_PERF_GLOBAL_STATUS /\ cInstRetiredAny r = f core INST_RETIRED_ADDR /\
  cCpuClkUnhaltedThread r = f core CPU_CLK_UNHALTED_THREAD_ADDR /\ cCpuClkUnhaltedRef r = f core CPU_CLK_UNHALTED_REF_ADDR.
Proof.
  unfold read_core_direct. intros H. inv_M H.
  apply snapshot_read in E as ->. apply snapshot_read in E0 as ->.
  apply snapshot_read in E1 as ->. apply snapshot_read in E2 as ->. by injection H as _ <-.
Qed.

Lemma snapshot_fixed_counters f ctx core s h h' s' :
  canUsePerf (ctx_widths ctx) = false ->
  @readAndAggregate (snapshot f) ctx core s h = (h', Ok s') ->
  let fixed addr bit :=
    Checked (extractCoreFixedCounterValue (ctx_widths ctx) (f core addr))
      (extract_bits (f core IA32_PERF_GLOBAL_STATUS) bit bit) in
  InstRetiredAny s' = checked_add (InstRetiredAny s) (fixed INST_RETIRED_ADDR 32) /\
  CpuClkUnhaltedThread s' = checked_add (CpuClkUnhaltedThread s) (fixed CPU_CLK_UNHALTED_THREAD_ADDR 33) /\
  CpuClkUnhaltedRef s' = checked_add (CpuClkUnhaltedRef s) (fixed CPU_CLK_UNHALTED_REF_ADDR 34).
Proof.
  unfold readAndAggregate. intros Hp H. rewrite Hp in H. inv_M H.
  match goal with E : read_core_direct _ _ _ = _ |- _ => apply snapshot_core in E as (<- & <- & <- & <-) end.
  by injection H as _ <-.
Qed.

Lemma extract_bits_one x i : 0 <= i <= 63 -> extract_bits x i i = if Z.testbit x i then 1 else 0.
Proof.
  intros Hi. rewrite extract_bits_field by lia. unfold field.
  rewrite Z.min_id, Z.sub_diag. simpl Z.add. change (Z.ones (Z.abs 0 + 1)) with 1.
  change 1 with (Z.ones 1) at 1. rewrite Z.land_ones by lia.
  rewrite <- Z.bit0_mod, Z.shiftr_spec, Z.add_0_l by lia. by destruct (Z.testbit x i).
Qed.

Lemma extract_width_48 x : 0 <= x -> extract_width 48 (x mod 2 ^ 48) = x mod 2 ^ 48.
Proof.
  intros Hx. unfold extract_width. simpl. rewrite extract_bits_field by lia. unfold field.
  change (Z.min 0 47) with 0. rewrite Z.shiftr_0_r. change (Z.abs (47 - 0) + 1) with 48.
  rewrite Z.land_ones by lia. by rewrite Z.mod_mod by lia.
Qed.

(** The samples of one fixed counter in two snapshots: its address, the position of its
    overflow bit, and the true counts. *)
Definition counts_fixed (f1 f2 : Z -> Z -> Z) (core addr bit : Z) (x : counted) : Prop :=
  f1 core addr = c1 x mod 2 ^ 48 /\ f2 core addr = c2 x mod 2 ^ 48 /\
  Z.testbit (f2 core IA32_PERF_GLOBAL_STATUS) bit = (c1 x / 2 ^ 48 <? c2 x / 2 ^ 48).

Lemma counted_fixed_difference f1 f2 ctx core addr bit x :
  canUsePerf (ctx_widths ctx) = false -> core_fixed_counter_width (ctx_widths ctx) = 48 ->
  0 <= bit <= 63 -> counted_ok x -> counts_fixed f1 f2 core addr bit x ->
  checked_sub
    (checked_add checked_zero (Checked (extractCoreFixedCounterValue (ctx_widths ctx) (f2 core addr))
       (extract_bits (f2 core IA32_PERF_GLOBAL_STATUS) bit bit)))
    (checked_add checked_zero (Checked (extractCoreFixedCounterValue (ctx_widths ctx) (f1 core addr))
       (extract_bits (f1 core IA32_PERF_GLOBAL_STATUS) bit bit))) = u64 (c2 x - c1 x).
Proof.
  intros Hp Hw Hbit Hx (H1 & H2 & H3). unfold extractCoreFixedCounterValue.
  rewrite Hp, Hw, H1, H2, !extract_width_48 by (destruct Hx; lia).
  rewrite checked_sub_cong. cbn [data overflows checked_add checked_zero].
  pose proof (sample_difference x Hx) as Hd. cbn [data overflows sample_after sample_before] in Hd.
  rewrite <- Hd, extract_bits_one, H3 by lia.
  apply (cong_eq 64). repeat setoid_rewrite (cong_wrap 64); [|lia..].
  by rewrite !Z.add_0_l.
Qed.

(** C5. Instructions and cycles measured end to end through the MSRs (not Linux perf), with
    fixed counters of 48 bits: if [readAndAggregate] is run on a core at two moments and
    succeeds, and each fixed counter advanced by less than [2^48], one turn, in between with
    its overflow bit set when it wrapped, then the getters return the exact number of
    instructions, core cycles and reference cycles that passed. *)
Theorem measured_counts_exact f1 f2 ctx core h1 h1' h2 h2' before after inst thread ref :
  canUsePerf (ctx_widths ctx) = false -> core_fixed_counter_width (ctx_widths ctx) = 48 ->
  counted_ok inst -> counted_ok thread -> counted_ok ref ->
  counts_fixed f1 f2 core INST_RETIRED_ADDR 32 inst ->
  counts_fixed f1 f2 core CPU_CLK_UNHALTED_THREAD_ADDR 33 thread ->
  counts_fixed f1 f2 core CPU_CLK_UNHALTED_REF_ADDR 34 ref ->
  @readAndAggregate (snapshot f1) ctx core BasicCounterState_init h1 = (h1', Ok before) ->
  @readAndAggregate (snapshot f2) ctx core BasicCounterState_init h2 = (h2', Ok after) ->
  getInstructionsRetired before after = c2 inst - c1 inst /\
  getCycles before after = c2 thread - c1 thread /\
  getRefCycles before after = c2 ref - c1 ref.
Proof.
  intros Hp Hw Hi Ht Hr Ci Ct Cr R1 R2.
  apply snapshot_fixed_counters in R1 as (Ei1 & Et1 & Er1); [|done].
  apply snapshot_fixed_counters in R2 as (Ei2 & Et2 & Er2); [|done].
  unfold getInstructionsRetired, getCycles, getRefCycles.
  rewrite Ei1, Ei2, Et1, Et2, Er1, Er2. cbn [InstRetiredAny CpuClkUnhaltedThread CpuClkUnhaltedRef BasicCounterState_init].
  rewrite (counted_fixed_difference f1 f2 ctx core _ 32 inst), (counted_fixed_difference f1 f2 ctx core _ 33 thread),
    (counted_fixed_difference f1 f2 ctx core _ 34 ref) by (done || lia).
  destruct Hi, Ht, Hr. rewrite !wrapN_small by (unfold fits; lia). done.
Qed.

(** No file descriptors of Linux perf. *)
Definition no_perf : perf_context := PerfContext [] [] 3 4 false ∅.

Definition example_context : core_context :=
  CoreContext (Widths false 48 48 48 48) 0x70000000F 4 [] no_perf true true false false false None 1 None None
    true 2000000000 true [0; 0; 0; 0x3FC; 0; 0; 0x3FD; 0; 0; 0; 0].

(** The instruction counter wraps between the two snapshots; the others do not. *)
Definition example_before (core msr : Z) : Z :=
  if msr =? INST_RETIRED_ADDR then 2 ^ 48 - 100 else if msr =? CPU_CLK_UNHALTED_THREAD_ADDR then 1000 else 7.
Definition example_after (core msr : Z) : Z :=
  if msr =? INST_RETIRED_ADDR then 50
  else if msr =? CPU_CLK_UNHALTED_THREAD_ADDR then 1600
  else if msr =? IA32_PERF_GLOBAL_STATUS then 2 ^ 32 else 7.

Lemma measured_counts_exact_witness :
  exists before after,
    getInstructionsRetired before after = 150 /\ getCycles before after = 600 /\
    getRefCycles before after = 0.
Proof.
  eexists _, _.
  refine (measured_counts_exact example_before example_after example_context 0 (HW [] ∅ ∅) _ (HW [] ∅ ∅) _ _ _
    (Counted (2 ^ 48 - 100) 0 (2 ^ 48 + 50)) (Counted 1000 0 1600) (Counted 7 0 7) _ _ _ _ _ _ _ _ _ _);
    [reflexivity|reflexivity|unfold counted_ok; simpl; lia..|repeat split|repeat split|repeat split
    |vm_compute; reflexivity|vm_compute; reflexivity].
Defined.

(** * Counters are frozen while they are read *)

(** The accesses an operation adds to the history satisfy [P]. *)
Definition emits {A} (P : list access -> Prop) (m : M A) : Prop :=
  forall h, exists l, history (m h).1 = l ++ history h /\ P l.

(** No access in the list writes the global control register of the core. *)
Definition leaves_control (core : Z) (l : list access) : Prop :=
  Forall (fun a => forall v, a <> Write (MsrPort core IA32_CR_PERF_GLOBAL_CTRL) v) l.

Section Quiet.
Context {machine : Machine} (core : Z).

Definition quiet {A} (m : M A) : Prop := emits (leaves_control core) m.

Lemma quiet_ret {A} (a : A) : quiet (mret a).
Proof. intros h. exists []. split; [done|constructor]. Qed.

Lemma quiet_bind {A B} (m : M A) (f : A -> M B) : quiet m -> (forall a, quiet (f a)) -> quiet (m ≫= f).
Proof.
  intros Hm Hf h. destruct (Hm h) as (l1 & H1 & Q1). unfold mbind, M_bind.
  destruct (m h) as [h1 [a|e]]; simpl in *; [|by exists l1].
  destruct (Hf a h1) as (l2 & H2 & Q2). exists (l2 ++ l1).
  rewrite H2, H1, app_assoc. split; [done|by apply Forall_app].
Qed.

Lemma quiet_read p : quiet (access_read p).
Proof. intros h. exists [Read p]. split; [done|]. by repeat constructor. Qed.

Lemma quiet_msr_read msr n : quiet (msr_read msr n).
Proof.
  destruct msr; [|apply quiet_ret]. apply quiet_bind; [apply quiet_read|intros; apply quiet_ret].
Qed.

Lemma quiet_msr_write c n v : n <> IA32_CR_PERF_GLOBAL_CTRL -> quiet (msr_write (Some c) n v).
Proof.
  intros Hn h. exists [Write (MsrPort c n) v]. split; [done|].
  apply Forall_cons_2; [|constructor]. intros v' [= _ H _]. done.
Qed.

Lemma quiet_msr_write_opt msr n v : n <> IA32_CR_PERF_GLOBAL_CTRL -> quiet (msr_write msr n v).
Proof. destruct msr; [apply quiet_msr_write|intros; apply quiet_ret]. Qed.

Lemma quiet_select_qm_event msr event : quiet (select_qm_event msr event).
Proof. apply quiet_bind; [apply quiet_msr_read|intros; by apply quiet_msr_write_opt]. Qed.

Lemma quiet_read_sum l result : quiet (read_sum l result).
Proof. revert result. induction l as [|p l IH]; intros result; simpl; [apply quiet_ret|]. apply quiet_bind; [apply quiet_read|]. auto. Qed.

Lemma quiet_raw_counter_read c : quiet (raw_counter_read c).
Proof.
  destruct c; simpl; [| | |apply quiet_read_sum]; (apply quiet_bind; [apply quiet_select_qm_event || apply quiet_msr_read|]);
    intros; (apply quiet_msr_read || apply quiet_ret).
Qed.

Lemma quiet_extender_read id : quiet (extender_read id).
Proof.
  intros h. unfold extender_read, extender_sample. destruct (extenders h !! id) as [e|].
  - destruct (quiet_raw_counter_read (raw_counter e) h) as (l & H & Q).
    destruct (raw_counter_read (raw_counter e) h) as [h' [v|]]; simpl in *; [|by exists l].
    destruct (CounterWidthExtender.read (ext_state e) v). by exists l.
  - exists []. split; [done|constructor].
Qed.

Lemma quiet_mapM_ {A B} (f : A -> M B) l : (forall a, quiet (f a)) -> quiet (mapM_ l f).
Proof.
  intros Hf. induction l as [|a l IH]; [apply quiet_ret|]. apply quiet_bind; [done|]. intros b.
  apply quiet_bind; [done|]. intros bs. apply quiet_ret.
Qed.

Lemma quiet_check_programming ctr expected mask : quiet (check_programming core ctr expected mask).
Proof.
  revert ctr mask. induction expected as [|e expected IH]; intros ctr mask; [apply quiet_ret|].
  apply quiet_bind; [apply quiet_read|]. intros; apply IH.
Qed.

Lemma quiet_read_c_states msrs values : quiet (read_c_states core msrs values).
Proof.
  revert values. induction msrs as [|i msrs IH]; intros values; [apply quiet_ret|]. cbn [read_c_states].
  destruct (i =? 0).
  - apply quiet_bind; [apply IH|intros; apply quiet_ret].
  - apply quiet_bind; [apply quiet_msr_read|intros].
    apply quiet_bind; [apply IH|intros; apply quiet_ret].
Qed.

Lemma quiet_throw {A} e : quiet (throw e : M A).
Proof. intros h. exists []. split; [done|constructor]. Qed.

Lemma quiet_lift_res {A} (r : res A) : quiet (lift_res r).
Proof. intros h. exists []. split; [done|constructor]. Qed.

Lemma quiet_slots c s : quiet (get_slots c) /\ quiet (put_slots c s).
Proof. split; intros h; exists []; (split; [done|constructor]). Qed.

End Quiet.

Create HintDb quiet.
#[export] Hint Resolve quiet_ret quiet_read quiet_msr_read quiet_select_qm_event quiet_extender_read
  quiet_check_programming quiet_read_c_states quiet_throw quiet_lift_res : quiet.
#[export] Hint Extern 1 (quiet _ (get_slots _)) => apply quiet_slots; exact no_slots : quiet.
#[export] Hint Extern 1 (quiet _ (put_slots _ _)) => apply quiet_slots : quiet.
#[export] Hint Extern 1 (quiet _ (msr_write _ _ _)) => apply quiet_msr_write_opt; done : quiet.

(** Solves [quiet] goals: by the lemmas of the database, along binds and case distinctions. *)
Ltac quiet :=
  repeat first
    [ progress intros
    | solve [eauto with quiet]
    | apply quiet_mapM_
    | apply quiet_bind
    | case_match ].

Section QuietReadings.
Context {machine : Machine} (core : Z) (ctx : core_context).

Lemma quiet_sum_files files result : quiet core (sum_files files result).
Proof. revert result. induction files as [|f files IH]; intros; cbn [sum_files]; quiet. Qed.

#[local] Hint Resolve quiet_sum_files : quiet.

Lemma quiet_double x : quiet core (double_to_uint64 x).
Proof. unfold double_to_uint64. quiet. Qed.

#[local] Hint Resolve quiet_double : quiet.

Lemma quiet_tsc values : quiet core (readAndAggregateTSC ctx core values).
Proof. unfold readAndAggregateTSC, getInvariantTSC_Fast. quiet. Qed.

Lemma quiet_bw local total : quiet core (readAndAggregateMemoryBWCounters ctx core local total).
Proof. unfold readAndAggregateMemoryBWCounters, aggregate_bw, getMBL, getMBT, getMetric. cbv zeta. quiet. Qed.

Lemma quiet_occupancy occ : quiet core (read_occupancy ctx core) /\ quiet core (scale_occupancy ctx core occ).
Proof. unfold read_occupancy, scale_occupancy, initQOSevent, getL3OCC, getMetric. cbv zeta. split; quiet. Qed.

Lemma quiet_task_counters reads out : quiet core (read_task_counters reads out).
Proof.
  revert out. induction reads as [|[fds ctr] reads IH]; intros; cbn [read_task_counters]; unfold read_task_counter; quiet.
Qed.

#[local] Hint Resolve quiet_task_counters : quiet.

Lemma quiet_perf : quiet core (read_core_perf ctx).
Proof. unfold read_core_perf, readPerfData, readPerfDataHelper, read_perf_slots, topdown_value, perf_value. cbv zeta. quiet. Qed.

Lemma quiet_direct : quiet core (read_core_direct ctx core).
Proof. unfold read_core_direct, read_programmable, read_topdown, add_share. cbv zeta. quiet. Qed.

End QuietReadings.

#[export] Hint Resolve quiet_tsc quiet_bw quiet_perf quiet_direct : quiet.
#[export] Hint Extern 1 (quiet _ (read_occupancy _ _)) => apply quiet_occupancy; exact 0 : quiet.
#[export] Hint Extern 1 (quiet _ (scale_occupancy _ _ _)) => apply quiet_occupancy : quiet.

(** [h'] is reached from [h] without writing the global control register of the core. *)
Definition quietly (core : Z) (h h' : hw) : Prop :=
  exists l, history h' = l ++ history h /\ leaves_control core l.

Lemma quietly_trans core h1 h2 h3 : quietly core h1 h2 -> quietly core h2 h3 -> quietly core h1 h3.
Proof.
  intros (l1 & H1 & Q1) (l2 & H2 & Q2). exists (l2 ++ l1). rewrite H2, H1, app_assoc.
  split; [done|by apply Forall_app].
Qed.

Lemma quiet_run {A} core (m : M A) h h' r : quiet core m -> m h = (h', r) -> quietly core h h'.
Proof. intros Hm Hrun. destruct (Hm h) as (l & H & Q). rewrite Hrun in H. by exists l. Qed.

(** Whether PCM stops the counters of a core to read them. *)
Definition stops_counters (ctx : core_context) : bool :=
  negb (canUsePerf (ctx_widths ctx)) && negb (core_global_ctrl_value ctx =? 0).

(** The accesses to the global control register while a core is read, newest first. *)
Definition frozen_while (stops : bool) (core value : Z) (l : list access) : list access :=
  if stops then Write (MsrPort core IA32_CR_PERF_GLOBAL_CTRL) value :: l ++ [Write (MsrPort core IA32_CR_PERF_GLOBAL_CTRL) 0]
  else l.

(** C36. The global control register while a core is read. When PCM has programmed the core
    through its registers, [readAndAggregate] first stops all counters, performs all its
    other accesses without touching the control register, and finally restores the
    programmed value. With Linux perf, or before anything is programmed, it never writes the
    control register, so that the counters keep running. *)
Theorem counters_frozen_while_read {machine : Machine} ctx core s h h' s' :
  readAndAggregate ctx core s h = (h', Ok s') ->
  exists l, leaves_control core l /\
    history h' = frozen_while (stops_counters ctx) core (core_global_ctrl_value ctx) l ++ history h.
Proof.
  intros H. unfold readAndAggregate in H. change (negb _ && negb _) with (stops_counters ctx) in H.
  assert (Hq : forall b, quiet core (if b : bool then read_core_perf ctx else read_core_direct ctx core)) by (intros []; eauto with quiet).
  assert (Ht : forall b, quiet core (if b : bool then throw OutOfRange else mret tt)) by (intros []; eauto with quiet).
  assert (Hc : quiet core (checkCustomCoreProgramming ctx core)) by (unfold checkCustomCoreProgramming; quiet).
  set (control := fun v => if stops_counters ctx then msr_write (Some core) IA32_CR_PERF_GLOBAL_CTRL v else mret tt).
  change (if stops_counters ctx then msr_write _ _ 0 else _) with (control 0) in H.
  change (if stops_counters ctx then msr_write _ _ (core_global_ctrl_value ctx) else _) with (control (core_global_ctrl_value ctx)) in H.
  inv_M H. injection H as -> _.
  match goal with E : control 0 _ = (?a, _), E' : control (core_global_ctrl_value ctx) ?b = _ |- _ =>
    assert (quietly core a b) as (l & Hl & Q);
    [|exists l; split; [exact Q|]; unfold frozen_while, control in *; destruct (stops_counters ctx);
      injection E as <- _; injection E' as <- _; cbn [history app] in Hl |- *; by rewrite Hl, <- ?app_assoc] end.
  repeat match goal with
  | E : ?m ?a = (?b, _) |- quietly _ ?a ?b => eapply (quiet_run _ m); [|exact E]
  | E : ?m ?a = (?b, _) |- quietly _ _ ?b => apply (quietly_trans _ _ a); [|eapply (quiet_run _ m); [|exact E]]
  end; eauto with quiet.
Qed.

Lemma counters_frozen_while_read_witness :
  exists l, leaves_control 0 l /\
    history (@readAndAggregate (snapshot example_before) example_context 0 BasicCounterState_init (HW [] ∅ ∅)).1 =
      Write (MsrPort 0 IA32_CR_PERF_GLOBAL_CTRL) 0x70000000F ::
        (l ++ [Write (MsrPort 0 IA32_CR_PERF_GLOBAL_CTRL) 0]) ++ [].
Proof.
  eapply (@counters_frozen_while_read (snapshot example_before) example_context 0 BasicCounterState_init (HW [] ∅ ∅)).
  vm_compute. reflexivity.
Defined.

(** * Aggregation into the system *)

(** The fields of the uncore state that [operator +=] adds. *)
Definition summed_fields : list (UncoreCounterState -> Z) :=
  [UncMCFullWrites; UncMCNormalReads; UncHARequests; UncHALocalRequests; UncPMMWrites; UncPMMReads;
   UncEDCFullWrites; UncEDCNormalReads; UncMCGTRequests; UncMCIARequests; UncMCIORequests;
   PackageEnergyStatus; DRAMEnergyStatus; TOROccupancyIAMiss; TORInsertsIAMiss; UncClocks].

Lemma summed_field_add f s o : f ∈ summed_fields -> f (uncore_add s o) = u64 (f s + f o).
Proof.
  unfold summed_fields. rewrite !elem_of_cons, elem_of_nil.
  intros Hf. repeat destruct Hf as [->|Hf]; done.
Qed.

Lemma aggregate_field_from f l s : f ∈ summed_fields ->
  u64 (f (uncore (foldl system_add_socket s l))) =
  u64 (f (uncore s) + foldr Z.add 0 (map (fun x => f (uncore x)) l)).
Proof.
  intros Hf. revert s. induction l as [|x l IH]; intros s; simpl; [f_equal; lia|].
  rewrite IH. simpl. rewrite summed_field_add by done. autorewrite with pcm_wrap. f_equal; lia.
Qed.

Lemma aggregate_field_fits f l : f ∈ summed_fields ->
  fits 64 (f (uncore (aggregate_sockets l))).
Proof.
  intros Hf. unfold aggregate_sockets.
  assert (forall s, fits 64 (f (uncore s)) -> fits 64 (f (uncore (foldl system_add_socket s l)))) as H.
  { induction l as [|x l IH]; intros s Hs; simpl; [done|]. apply IH. simpl.
    rewrite summed_field_add by done. by apply wrapN_fits. }
  apply H. revert Hf. unfold summed_fields. rewrite !elem_of_cons, elem_of_nil.
  intros Hf. by repeat destruct Hf as [->|Hf].
Qed.

(** In the system state the memory, link-agent, energy and occupancy counters of the
    uncore are the sums of those of the sockets, modulo 64 bits. *)
Theorem system_uncore_counters_are_sums f sockets :
  f ∈ summed_fields ->
  f (uncore (aggregate_sockets sockets)) = u64 (foldr Z.add 0 (map (fun x => f (uncore x)) sockets)).
Proof.
  intros Hf. rewrite <- (wrapN_small 64 (f _) (aggregate_field_fits f sockets Hf)).
  unfold aggregate_sockets. rewrite aggregate_field_from by done. f_equal.
  revert Hf. unfold summed_fields. rewrite !elem_of_cons, elem_of_nil.
  intros Hf. by repeat destruct Hf as [->|Hf].
Qed.

Lemma aggregate_near_memory_from l s :
  UncNMHit (uncore (foldl system_add_socket s l)) = UncNMHit (uncore s) /\
  UncNMMiss (uncore (foldl system_add_socket s l)) = UncNMMiss (uncore s) /\
  PPEnergyStatus (uncore (foldl system_add_socket s l)) = PPEnergyStatus (uncore s).
Proof. revert s. induction l as [|x l IH]; intros s; simpl; [done|]. by destruct (IH (system_add_socket s x)) as (-> & -> & ->). Qed.

(** The near-memory and power-plane counters are not aggregated: whatever the sockets
    counted, the near-memory hits and misses and the power-plane energy reported for the
    system by two aggregated states are zero. *)
Theorem near_memory_not_aggregated pcm sockets_before sockets_after plane :
  let before := uncore (aggregate_sockets sockets_before) in
  let after := uncore (aggregate_sockets sockets_after) in
  getNMHits pcm before after = 0 /\ getNMMisses pcm before after = 0 /\
  getNMMissBW pcm before after = 0 /\ getConsumedEnergy_pp plane before after = 0.
Proof.
  unfold aggregate_sockets, getNMHits, getNMMisses, getNMMissBW, getConsumedEnergy_pp, traffic, u64_sub.
  cbv zeta.
  destruct (aggregate_near_memory_from sockets_before SocketCounterState_init) as (-> & -> & ->).
  destruct (aggregate_near_memory_from sockets_after SocketCounterState_init) as (-> & -> & ->).
  destruct (nearMemoryMetricsAvailable (model pcm)); rewrite ?Z.sub_diag; done.
Qed.

(** * Bounds of the derived counts *)

Lemma checked_sub_fits x y : fits 64 (checked_sub x y).
Proof. by apply wrapN_fits. Qed.

Lemma u64_sub_fits x y : fits 64 (u64_sub x y).
Proof. by apply wrapN_fits. Qed.

#[export] Hint Resolve checked_sub_fits u64_sub_fits : pcm.

(** The two bandwidths never disagree through counter skew: the remote memory
    bandwidth is the total minus the local one, or 0 when the total lags behind, so that
    together they are the larger of the two differences; likewise the cache hits computed
    as references minus misses stop at 0 instead of wrapping around. *)
Theorem derived_counts_saturate pcm before after :
  CoreLocalMemoryBWMetricAvailable pcm = true -> CoreRemoteMemoryBWMetricAvailable pcm = true ->
  memoryEventErrata (model pcm) = true -> L2CacheHitsAvailable pcm = true -> L3CacheHitsAvailable pcm = true ->
  getLocalMemoryBW pcm before after + getRemoteMemoryBW pcm before after =
    Z.max (u64_sub (MemoryBWTotal after) (MemoryBWTotal before)) (getLocalMemoryBW pcm before after) /\
  getL2CacheHits pcm before after =
    Z.max 0 (event_delta HSXL2RefPos before after - event_delta HSXL2MissPos before after) /\
  getL3CacheHits pcm before after =
    Z.max 0 (event_delta ArchLLCRefPos before after - event_delta ArchLLCMissPos before after).
Proof.
  intros Hl Hr He H2 H3. unfold getRemoteMemoryBW, getL2CacheHits, getL3CacheHits.
  rewrite Hr, H2, H3, He. cbn [negb].
  assert (isAtom (model pcm) || (model pcm =? KNL) = false) as ->.
  { revert He. unfold memoryEventErrata, switch. case_bool_decide as Hin; [|done]. intros _.
    rewrite !elem_of_cons, elem_of_nil in Hin.
    destruct Hin as [->|[->|[->|[->|[->|[->|[]]]]]]]; by vm_compute. }
  repeat split.
  - destruct (Z.ltb_spec (getLocalMemoryBW pcm before after) (u64_sub (MemoryBWTotal after) (MemoryBWTotal before))); lia.
  - destruct (Z.ltb_spec (event_delta HSXL2MissPos before after) (event_delta HSXL2RefPos before after)); lia.
  - destruct (Z.ltb_spec (event_delta ArchLLCMissPos before after) (event_delta ArchLLCRefPos before after)); lia.
Qed.

(** * Uncore counters by unit *)

(** The units of a PMU over all dies. *)
Definition all_units (pmu_id : Z) (dies : list (gmap Z (list (list Z)))) : list (list Z) :=
  concat (map (fun d : gmap Z (list (list Z)) => default [] (d !! pmu_id)) dies).

(** Two states of one system have the same PMUs with the same units on each die. *)
Definition same_shape (pmu_id : Z) (before after : list (gmap Z (list (list Z)))) : Prop :=
  Forall2 (fun b a : gmap Z (list (list Z)) =>
    length <$> (b !! pmu_id) = length <$> (a !! pmu_id)) before after.

(** A unit number counts the units of a PMU through all dies: [getUncoreCounter]
    returns the difference of the requested counter of that unit, and 0 for a unit or a
    counter that does not exist. *)
Theorem getUncoreCounter_spec pmu_id unit counter before after :
  same_shape pmu_id before after ->
  getUncoreCounter pmu_id unit counter before after =
  if (counter <? maxCounters)%nat then
    match all_units pmu_id after !! unit with
    | Some au => u64_sub (nth counter au 0) (nth counter (nth unit (all_units pmu_id before) []) 0)
    | None => 0
    end
  else 0.
Proof.
  intros Hs. revert unit. induction Hs as [|b a before after Hba Hs IH]; intros unit;
    simpl; destruct (counter <? maxCounters)%nat eqn:Hc; try done.
  unfold all_units in *. simpl.
  destruct (a !! pmu_id) as [au|] eqn:Ea, (b !! pmu_id) as [bu|] eqn:Eb; simpl in Hba; try done.
  - injection Hba as Hlen. simpl. destruct (au !! unit) as [u|] eqn:Eu.
    + rewrite lookup_app_l, Eu by by eapply lookup_lt_Some.
      rewrite app_nth1 by (rewrite Hlen; by eapply lookup_lt_Some). done.
    + apply lookup_ge_None in Eu. rewrite IH, lookup_app_r by done.
      rewrite (app_nth2 bu) by lia. by rewrite Hlen.
Qed.

(** * Witnesses *)

Definition example_socket (reads hits : Z) : SocketCounterState :=
  Socket BasicCounterState_init
    (Uncore [] 1 reads 0 0 0 hits 0 0 0 0 0 0 0 0 [0; 0] 0 0 0 0 no_c_states).

Lemma system_uncore_counters_are_sums_witness :
  UncMCNormalReads (uncore (aggregate_sockets [example_socket (2 ^ 63) 5; example_socket (2 ^ 63 + 7) 6])) = 7.
Proof.
  apply (system_uncore_counters_are_sums UncMCNormalReads). right; left.
Defined.

(** The near-memory hits of two sockets that counted 5 and 6 hits since zero. *)
Example near_memory_example :
  let s := [example_socket 1 5; example_socket 1 6] in
  map (fun x => UncNMHit (uncore x)) s = [5; 6] /\ UncNMHit (uncore (aggregate_sockets s)) = 0.
Proof. done. Qed.

Definition example_flags : pcm_flags :=
  Flags HASWELLX true true true true true true true true true false 2 2.

Definition with_counters (local total : Z) (events : list Z) : BasicCounterState :=
  Basic checked_zero checked_zero checked_zero (map (fun e => Checked e 0) events) 0 no_c_states 0 0
    local total 0 0 0 0 0 0 0 0 0 0 ∅.

Lemma derived_counts_saturate_witness :
  let before := with_counters 10 20 [0; 0; 0; 0] in
  let after := with_counters 100 90 [9; 5; 3; 8] in
  getLocalMemoryBW example_flags before after + getRemoteMemoryBW example_flags before after = 90 /\
  getL2CacheHits example_flags before after = 5 /\ getL3CacheHits example_flags before after = 0.
Proof.
  apply (derived_counts_saturate example_flags (with_counters 10 20 [0; 0; 0; 0])
           (with_counters 100 90 [9; 5; 3; 8])); reflexivity.
Defined.

Lemma getUncoreCounter_spec_witness :
  getUncoreCounter 0 2 1 [{[0 := [[1; 1]]]}; {[0 := [[2; 2]; [3; 4]]]}]
    [{[0 := [[5; 5]]]}; {[0 := [[6; 6]; [7; 9]]]}] = 5.
Proof.
  etransitivity;
    [apply (getUncoreCounter_spec 0 2 1 [{[0 := [[1; 1]]]}; {[0 := [[2; 2]; [3; 4]]]}]
              [{[0 := [[5; 5]]]}; {[0 := [[6; 6]; [7; 9]]]}])|vm_compute; reflexivity].
  repeat (apply Forall2_cons; split; [vm_compute; reflexivity|]). constructor.
Defined.
