(* ===== verification/CorePMU.v ===== *)
(** Programming the core performance monitoring unit: [PCM::program], [programCoreCounters],
    [PMUinUse], [cleanupPMU] and [resetPMU] of [src/src/cpucounters.cpp]. The cores are
    programmed one after the other here; the program hands them to one thread per core,
    and each thread accesses the MSRs of its own core only. *)

From S2P Require Import Prelude WidthExtender Bits CxxString StrUtils CpuModels Capabilities Registers CounterState.
Local Open Scope Z_scope.

Create HintDb pmu.

(** * Constants of [types.h] *)

Definition IA32_CR_FIXED_CTR_CTRL : Z := 0x38D.
Definition IA32_PEBS_ENABLE_ADDR : Z := 0x3F1.
Definition MSR_OFFCORE_RSP0 : Z := 0x1A6.
Definition MSR_OFFCORE_RSP1 : Z := 0x1A7.
Definition MSR_LOAD_LATENCY : Z := 0x3F6.
Definition MSR_FRONTEND : Z := 0x3F7.
Definition MSR_PERF_GLOBAL_INUSE : Z := 0x392.
Definition MSR_PERF_CAPABILITIES : Z := 0x345.
Definition LOAD_LATENCY_EVTNR : Z := 0xcd.
Definition LOAD_LATENCY_UMASK : Z := 0x01.
Definition FRONTEND_EVTNR : Z := 0xC6.
Definition FRONTEND_UMASK : Z := 0x01.

(** [CustomCoreEventDescription]: two [int32]. *)
Record CustomCoreEventDescription := CoreEvent { event_number : Z; umask_value : Z }.

#[export] Instance CustomCoreEventDescription_eq_dec : EqDecision CustomCoreEventDescription.
Proof. solve_decision. Defined.

(** The events of the default mode, [X_EVTNR] and [X_UMASK] of [types.h] as one value [X]. *)
Definition ARCH_LLC_MISS := CoreEvent 0x2E 0x41.
Definition ARCH_LLC_REFERENCE := CoreEvent 0x2E 0x4F.
Definition HSX_L2_RQSTS_MISS := CoreEvent 0x24 0x3f.
Definition HSX_L2_RQSTS_REFERENCES := CoreEvent 0x24 0xff.
Definition SKL_MEM_LOAD_RETIRED_L3_MISS := CoreEvent 0xD1 0x20.
Definition SKL_MEM_LOAD_RETIRED_L3_HIT := CoreEvent 0xD1 0x04.
Definition SKL_MEM_LOAD_RETIRED_L2_MISS := CoreEvent 0xD1 0x10.
Definition SKL_MEM_LOAD_RETIRED_L2_HIT := CoreEvent 0xD1 0x02.
Definition CMT_MEM_LOAD_RETIRED_L2_MISS := CoreEvent 0xD1 0x80.
Definition CMT_MEM_LOAD_RETIRED_L2_HIT := CoreEvent 0xD1 0x02.
Definition MEM_LOAD_UOPS_LLC_HIT_RETIRED_XSNP_NONE := CoreEvent 0xD2 0x08.
Definition MEM_LOAD_UOPS_LLC_HIT_RETIRED_XSNP := CoreEvent 0xD2 0x07.
Definition MEM_LOAD_UOPS_RETIRED_L2_HIT := CoreEvent 0xD1 0x02.
Definition MEM_LOAD_RETIRED_L3_MISS := CoreEvent 0xCB 0x10.
Definition MEM_LOAD_RETIRED_L3_UNSHAREDHIT := CoreEvent 0xCB 0x04.
Definition MEM_LOAD_RETIRED_L2_HITM := CoreEvent 0xCB 0x08.
Definition MEM_LOAD_RETIRED_L2_HIT := CoreEvent 0xCB 0x02.

(** * The choice of events *)

(** The metrics that [program] declares available: a member [XAvailable] of [PCM] is true
    when [X] is in the list. *)
Inductive cache_metric :=
  | L2CacheHitRatio | L3CacheHitRatio | L3CacheMisses | L2CacheMisses | L2CacheHits
  | L3CacheHitsNoSnoop | L3CacheHitsSnoop | L3CacheHits.

#[export] Instance cache_metric_eq_dec : EqDecision cache_metric.
Proof. solve_decision. Defined.

(** The members of [PCM] that the choice of events sets. *)
Record core_events := CoreEvents {
  coreEventDesc : list CustomCoreEventDescription;        (** [PERF_MAX_CUSTOM_COUNTERS] *)
  hybridAtomEventDesc : list CustomCoreEventDescription;  (** [PERF_MAX_CUSTOM_COUNTERS] *)
  available : list cache_metric;
  core_gen_counter_num_used : Z
}.

(** Assigns the events at the positions from 0 on. *)
Definition set_events (new evt : list CustomCoreEventDescription) : list CustomCoreEventDescription :=
  new ++ drop (length new) evt.

Definition LLCArchEventInit : list CustomCoreEventDescription := [ARCH_LLC_MISS; ARCH_LLC_REFERENCE].

Definition all_but_no_snoop : list cache_metric :=
  [L2CacheHitRatio; L3CacheHitRatio; L3CacheMisses; L2CacheMisses; L2CacheHits; L3CacheHitsSnoop; L3CacheHits].
Definition all_metrics : list cache_metric :=
  [L2CacheHitRatio; L3CacheHitRatio; L3CacheMisses; L2CacheMisses; L2CacheHits; L3CacheHitsNoSnoop;
   L3CacheHitsSnoop; L3CacheHits].

(** One case: the events for the cores (and the Atom cores of hybrid processors), the
    metrics they give, and how many counters they take. *)
Definition choice : Type :=
  list CustomCoreEventDescription * list CustomCoreEventDescription * list cache_metric * Z.

Definition hybrid_models : list Z := [ADL; RPL; MTL; LNL; ARL; PTL].

(** The cases of the [switch] on the model. *)
Definition switch_events (cpu_family_model core_gen_counter_num_max : Z) : choice :=
  let client := LLCArchEventInit ++ [SKL_MEM_LOAD_RETIRED_L2_MISS; SKL_MEM_LOAD_RETIRED_L2_HIT] in
  let crestmont := LLCArchEventInit ++ [CMT_MEM_LOAD_RETIRED_L2_MISS; CMT_MEM_LOAD_RETIRED_L2_HIT] in
  let skylake := [SKL_MEM_LOAD_RETIRED_L3_MISS; SKL_MEM_LOAD_RETIRED_L3_HIT;
                  SKL_MEM_LOAD_RETIRED_L2_MISS; SKL_MEM_LOAD_RETIRED_L2_HIT] in
  let sandy_bridge := [ARCH_LLC_MISS; MEM_LOAD_UOPS_LLC_HIT_RETIRED_XSNP_NONE;
                       MEM_LOAD_UOPS_LLC_HIT_RETIRED_XSNP; MEM_LOAD_UOPS_RETIRED_L2_HIT] in
  let nehalem miss := [miss; MEM_LOAD_RETIRED_L3_UNSHAREDHIT; MEM_LOAD_RETIRED_L2_HITM; MEM_LOAD_RETIRED_L2_HIT] in
  switch cpu_family_model
    [(hybrid_models, (client, client, all_but_no_snoop, 4));
     ([SNOWRIDGE; ELKHART_LAKE; JASPER_LAKE], (client, [], all_but_no_snoop, 4));
     ([GRR; SRF], (crestmont, [], all_but_no_snoop, 4));
     (PCM_SKL_PATH_CASES ++ [SKX; ICX; SPR; EMR; GNR; GNR_D],
        (skylake, [],
         if core_gen_counter_num_max =? 2
         then [L3CacheHitRatio; L3CacheMisses; L3CacheHitsSnoop; L3CacheHits]
         else if core_gen_counter_num_max =? 3
         then [L3CacheHitRatio; L3CacheMisses; L2CacheMisses; L3CacheHitsSnoop; L3CacheHits]
         else all_but_no_snoop,
         if core_gen_counter_num_max =? 2 then 2 else if core_gen_counter_num_max =? 3 then 3 else 4));
     ([SANDY_BRIDGE; JAKETOWN; IVYTOWN; IVY_BRIDGE; HASWELL; HASWELLX; BROADWELL; BDX_DE; BDX],
        (sandy_bridge, [],
         if core_gen_counter_num_max =? 3
         then [L3CacheHitRatio; L3CacheMisses; L2CacheMisses; L3CacheHitsNoSnoop; L3CacheHitsSnoop; L3CacheHits]
         else all_metrics,
         if core_gen_counter_num_max =? 3 then 3 else 4));
     ([NEHALEM_EP; WESTMERE_EP; CLARKDALE], (nehalem MEM_LOAD_RETIRED_L3_MISS, [], all_metrics, 4))]
    (nehalem ARCH_LLC_MISS, [], all_metrics, 4).

(** The branch for the default events. *)
Definition default_events (cpu_family_model core_gen_counter_num_max : Z) : choice :=
  if isAtom cpu_family_model || (cpu_family_model =? KNL) then
    (LLCArchEventInit, [], [L2CacheHitRatio; L2CacheMisses; L2CacheHits], 2)
  else if memoryEventErrata cpu_family_model then
    let metrics := [L3CacheHitRatio; L3CacheMisses; L2CacheMisses; L3CacheHits] in
    if (HASWELLX =? cpu_family_model) || (HASWELL =? cpu_family_model) then
      (LLCArchEventInit ++ [HSX_L2_RQSTS_MISS; HSX_L2_RQSTS_REFERENCES], [],
       metrics ++ [L2CacheHitRatio; L2CacheHits], 4)
    else (LLCArchEventInit, [], metrics, 2)
  else switch_events cpu_family_model core_gen_counter_num_max.

Definition apply_choice (c : choice) (e : core_events) : core_events :=
  let '(core, atom, metrics, used) := c in
  CoreEvents (set_events core (coreEventDesc e)) (set_events atom (hybridAtomEventDesc e))
    (metrics ++ available e) used.

(** * What the caller asks for *)

Inductive ErrorCode := Success | MSRAccessDenied | PMUBusy | UnknownError.

#[export] Instance ErrorCode_eq_dec : EqDecision ErrorCode.
Proof. solve_decision. Defined.

Inductive ProgramMode := DEFAULT_EVENTS | CUSTOM_CORE_EVENTS | EXT_CUSTOM_CORE_EVENTS | INVALID_MODE.

#[export] Instance ProgramMode_eq_dec : EqDecision ProgramMode.
Proof. solve_decision. Defined.

Record ExtendedCustomCoreEventDescription := ExtDesc {
  fixedCfg : option Z;                      (** a [FixedEventControlRegister] *)
  nGPCounters : Z;
  gpCounterCfg : option (list Z);           (** [EventSelectRegister]s *)
  gpCounterHybridAtomCfg : option (list Z);
  OffcoreResponseMsrValue0 : Z;
  OffcoreResponseMsrValue1 : Z;
  LoadLatencyMsrValue : Z;
  FrontendMsrValue : Z;
  defaultUncoreProgramming : bool
}.

Definition invalidMsrValue : Z := 2 ^ 64 - 1.

(** [parameter_], a pointer whose type depends on the mode. *)
Inductive parameter :=
  | NoParameter
  | CustomEvents (events : list CustomCoreEventDescription)   (** four of them *)
  | ExtendedEvents (desc : ExtendedCustomCoreEventDescription).

(** [EXT_CUSTOM_CORE_EVENTS == mode_ && pExtDesc] *)
Definition extended (mode_ : ProgramMode) (p : parameter) : option ExtendedCustomCoreEventDescription :=
  match mode_, p with EXT_CUSTOM_CORE_EVENTS, ExtendedEvents d => Some d | _, _ => None end.

(** [copy custom event descriptions]: [None] for the missing array of descriptions; the
    array is read beyond its end when it is too short. *)
Definition custom_events (isAtom_or_KNL : bool) (core_gen_counter_num_max : Z)
    (desc : list CustomCoreEventDescription) (e : core_events) : res core_events :=
  let used : Z := if isAtom_or_KNL then 2 else if 3 <? core_gen_counter_num_max then 4 else 3 in
  if Z.of_nat (length desc) <? used then Throw OutOfRange
  else Ok (CoreEvents (set_events (take (Z.to_nat used) desc) (coreEventDesc e)) (hybridAtomEventDesc e)
             (available e) used).

(** * Linux perf *)

(** Constants of [linux/perf_event.h]. *)
Definition PERF_TYPE_HARDWARE : Z := 0.
Definition PERF_TYPE_RAW : Z := 4.
Definition PERF_COUNT_HW_CPU_CYCLES : Z := 0.
Definition PERF_COUNT_HW_INSTRUCTIONS : Z := 1.
Definition PERF_FORMAT_GROUP : Z := 8.

Definition PCM_PERF_COUNT_HW_REF_CPU_CYCLES : Z := 9.

Definition PCM_init_perf_event_attr (group : bool) : perf_event_attr :=
  PerfAttr (u32 (-1)) (u64 (-1)) 0 (if group then PERF_FORMAT_GROUP else 0) 0 0 0 0.

Definition with_event (e : perf_event_attr) (type config config1 : Z) : perf_event_attr :=
  PerfAttr type config config1 (perf_read_format e) (perf_inherit e) (perf_exclude_user e)
    (perf_exclude_kernel e) (perf_exclude_hv e).

(** [exclude_kernel = exclude_hv = 1 - os], [exclude_user = 1 - usr] *)
Definition with_rings (e : perf_event_attr) (os usr : Z) : perf_event_attr :=
  PerfAttr (perf_type e) (perf_config e) (perf_config1 e) (perf_read_format e) (perf_inherit e)
    (1 - usr) (1 - os) (1 - os).

(** What becomes of the attributes when the threads of a process are counted. *)
Definition with_task (e : perf_event_attr) : perf_event_attr :=
  PerfAttr (perf_type e) (perf_config e) (perf_config1 e) 0 1 (perf_exclude_user e) 1 1.

(** * Programming one core: [programCoreCounters] *)

Inductive CoreType := Core | Atom | Invalid.

#[export] Instance CoreType_eq_dec : EqDecision CoreType.
Proof. solve_decision. Defined.

(** The members of [PCM] the function only reads. *)
Record core_settings := CoreSettings {
  cs_canUsePerf : bool;
  cs_model : Z;
  hybrid : bool;
  core_type : CoreType;                 (** of this core *)
  cs_events : core_events;
  core_fixed_counter_num_used : Z;
  fixed3 : bool;                        (** [isFixedCounterSupported(3)] *)
  HWTMAL1 : bool;                       (** [isHWTMAL1Supported()] *)
  perf_top_down : bool;                 (** [perfSupportsTopDown()] *)
  readSysFS : string -> str             (** the files of the top-down events *)
}.

(** The local variables, and the members of [PCM] it changes: [perfEventHandle] of this
    core, of each task, [perfTopDownPos], [core_global_ctrl_value], [cleanupPEBS]. *)
Record locals := Locals {
  result : list Z;
  event_select_reg : Z;
  PEBSEnable : Z;
  leader_counter : Z;
  perfEventHandle : list Z;
  perfEventTaskHandle : list (list Z);
  perfTopDownPos : gmap nat Z;
  global_ctrl_value : Z;
  cleanupPEBS : bool
}.

(** The monad of the function body: the locals are changed in order, and an error code may
    be returned at any point. *)
Definition body (A : Type) : Type := locals -> M (locals * (A + ErrorCode)).

#[export] Instance body_ret : MRet body := fun A a l => mret (l, inl a).
#[export] Instance body_bind : MBind body := fun A B f m l =>
  r ← m l;
  match r with
  | (l', inl a) => f a l'
  | (l', inr e) => mret (l', inr e)
  end.

Definition return_ {A} (e : ErrorCode) : body A := fun l => mret (l, inr e).
Definition get : body locals := fun l => mret (l, inl l).
Definition modify (f : locals -> locals) : body unit := fun l => mret (f l, inl tt).
Definition lift {A} (m : M A) : body A := fun l => a ← m; mret (l, inl a).

(** [for (auto & x : l) f(x)] *)
Fixpoint each {A} (l : list A) (f : A -> body unit) : body unit :=
  match l with
  | [] => mret tt
  | x :: l' => f x ;; each l' f
  end.

Definition push_result (v : Z) (l : locals) : locals :=
  Locals (result l ++ [v]) v (PEBSEnable l) (leader_counter l) (perfEventHandle l) (perfEventTaskHandle l)
    (perfTopDownPos l) (global_ctrl_value l) (cleanupPEBS l).
Definition set_PEBS (v : Z) (l : locals) : locals :=
  Locals (result l) (event_select_reg l) v (leader_counter l) (perfEventHandle l) (perfEventTaskHandle l)
    (perfTopDownPos l) (global_ctrl_value l) (cleanupPEBS l).
Definition set_leader (v : Z) (l : locals) : locals :=
  Locals (result l) (event_select_reg l) (PEBSEnable l) v (perfEventHandle l) (perfEventTaskHandle l)
    (perfTopDownPos l) (global_ctrl_value l) (cleanupPEBS l).
Definition set_handles (own : list Z) (tasks : list (list Z)) (l : locals) : locals :=
  Locals (result l) (event_select_reg l) (PEBSEnable l) (leader_counter l) own tasks
    (perfTopDownPos l) (global_ctrl_value l) (cleanupPEBS l).
Definition set_top_down_pos (pos : nat) (v : Z) (l : locals) : locals :=
  Locals (result l) (event_select_reg l) (PEBSEnable l) (leader_counter l) (perfEventHandle l)
    (perfEventTaskHandle l) (<[pos:=v]> (perfTopDownPos l)) (global_ctrl_value l) (cleanupPEBS l).
Definition set_global_ctrl (v : Z) (l : locals) : locals :=
  Locals (result l) (event_select_reg l) (PEBSEnable l) (leader_counter l) (perfEventHandle l)
    (perfEventTaskHandle l) (perfTopDownPos l) v (cleanupPEBS l).
Definition set_cleanup_PEBS (l : locals) : locals :=
  Locals (result l) (event_select_reg l) (PEBSEnable l) (leader_counter l) (perfEventHandle l)
    (perfEventTaskHandle l) (perfTopDownPos l) (global_ctrl_value l) true.

(** [setEvent]: all fields but [reservedX] are set. *)
Definition setEvent (reg event umask : Z) : Z :=
  foldl (fun r f => set_field EventSelectRegister f.1 f.2 r) reg
    [("event_select", u64 event); ("umask", u64 umask); ("usr", 1); ("os", 1); ("edge", 0); ("pin_control", 0);
     ("apic_int", 0); ("any_thread", 0); ("enable", 1); ("invert", 0); ("cmask", 0); ("in_tx", 0);
     ("in_txcp", 0)]%string.

(** [initFixedCtrl] *)
Definition initFixedCtrl (mode_ : ProgramMode) (p : parameter) (enableCtr3 fixed3_supported : bool) : Z :=
  match extended mode_ p with
  | Some (ExtDesc (Some cfg) _ _ _ _ _ _ _ _) => cfg
  | _ =>
      foldl (fun r f => set_field FixedEventControlRegister f 1 r) 0
        (["os0"; "usr0"; "os1"; "usr1"; "os2"; "usr2"]%string ++
         if enableCtr3 && fixed3_supported then ["os3"; "usr3"]%string else [])
  end.

(** [getOCREventNr]: event select and unit mask of the offcore response event 0 or 1. *)
Definition getOCREventNr (cpu_family_model : Z) (hybrid : bool) (type : CoreType) (event : Z) : Z * Z :=
  let eCoreOCREvent := (0xB7, event + 1) in
  if hybrid && bool_decide (cpu_family_model ∈ hybrid_models) && bool_decide (type = Atom) then eCoreOCREvent
  else if bool_decide (cpu_family_model ∈
    [ATOM; ATOM_2; CENTERTON; BAYTRAIL; AVOTON; CHERRYTRAIL; APOLLO_LAKE; GEMINI_LAKE; DENVERTON; SNOWRIDGE;
     ELKHART_LAKE; JASPER_LAKE; SRF; GRR]) then eCoreOCREvent
  else
    let useGLCOCREvent := bool_decide (cpu_family_model ∈ [SPR; EMR; GNR; GNR_D] ++ hybrid_models) in
    if event =? 0 then (if useGLCOCREvent then 0x2A else 0xB7, 1)
    else if event =? 1 then (if useGLCOCREvent then 0x2B else 0xBB, 1)
    else (0, 0).

Section Code.
Context {machine : Machine}.

(** [read(msr_number, &v)] where [v] holds [old]: a failed read leaves it. *)
Definition msr_read_into (h : SafeMsrHandle) (msr_number old : Z) : M Z :=
  match h with
  | Some core => r ← access_read (MsrPort core msr_number); mret (default old r)
  | None => mret 0
  end.

(** [programPerfEventHelper]: opens the event and stores the handle at its position;
    whether it succeeded. *)
Definition programPerfEventHelper (core : Z) (handles : list Z) (e : perf_event_attr) (eventPos : nat)
    (leader tid : Z) : M (list Z * bool) :=
  fd ← access_read (PerfEventOpen e tid core leader);
  let fd := default (-1) fd in
  mret (<[eventPos:=fd]> handles, 0 <? fd).

(** The loop over the threads of the monitored process. *)
Fixpoint programPerfEvent_tasks (core : Z) (tids : list Z) (tasks : list (list Z)) (e : perf_event_attr)
    (eventPos : nat) : M (list (list Z) * bool) :=
  match tids, tasks with
  | tid :: tids', handles :: tasks' =>
      r ← programPerfEventHelper core handles e eventPos (-1) tid;
      let '(handles, ok) := r in
      if ok : bool then
        r ← programPerfEvent_tasks core tids' tasks' e eventPos;
        mret (handles :: r.1, r.2)
      else mret (handles :: tasks', false)
  | _, _ => mret (tasks, true)
  end.

(** [programPerfEvent], and the return of the error when it fails. *)
Definition programPerfEvent (core : Z) (tids : list Z) (e : perf_event_attr) (eventPos : nat) : body unit :=
  l ← get;
  match tids with
  | [] =>
      r ← lift (programPerfEventHelper core (perfEventHandle l) e eventPos (leader_counter l) (-1));
      modify (set_handles r.1 (perfEventTaskHandle l)) ;;
      if (r.2 : bool) then mret tt else return_ UnknownError
  | _ =>
      r ← lift (programPerfEvent_tasks core tids (perfEventTaskHandle l) (with_task e) eventPos);
      modify (set_handles (perfEventHandle l) r.1) ;;
      if (r.2 : bool) then mret tt else return_ UnknownError
  end.

Section OneCore.
Context (s : core_settings) (core : Z) (MSR : SafeMsrHandle) (mode_ : ProgramMode) (p : parameter)
  (tids : list Z).

(** The fixed counters with Linux perf. *)
Definition program_fixed_perf : body unit :=
  let ctrl_reg := initFixedCtrl mode_ p false (fixed3 s) in
  let bit name := get_field FixedEventControlRegister name ctrl_reg in
  let e config os usr := with_rings (with_event (PCM_init_perf_event_attr true) PERF_TYPE_HARDWARE config 0) os usr in
  programPerfEvent core tids (e PERF_COUNT_HW_INSTRUCTIONS (bit "os0") (bit "usr0"))%string PERF_INST_RETIRED_POS ;;
  modify (fun l => set_leader (nth PERF_INST_RETIRED_POS (perfEventHandle l) (-1)) l) ;;
  programPerfEvent core tids (e PERF_COUNT_HW_CPU_CYCLES (bit "os1") (bit "usr1"))%string
    PERF_CPU_CLK_UNHALTED_THREAD_POS ;;
  programPerfEvent core tids (e PCM_PERF_COUNT_HW_REF_CPU_CYCLES (bit "os2") (bit "usr2"))%string
    PERF_CPU_CLK_UNHALTED_REF_POS.

(** The fixed counters through the MSRs; all counters are disabled first. *)
Definition program_fixed_direct : M unit :=
  msr_write MSR IA32_CR_PERF_GLOBAL_CTRL 0 ;;
  msr_read_into MSR IA32_CR_FIXED_CTR_CTRL 0 ;;
  msr_write MSR INST_RETIRED_ADDR 0 ;;
  msr_write MSR CPU_CLK_UNHALTED_THREAD_ADDR 0 ;;
  msr_write MSR CPU_CLK_UNHALTED_REF_ADDR 0 ;;
  msr_write MSR IA32_CR_FIXED_CTR_CTRL (initFixedCtrl mode_ p true (fixed3 s)).

(** The MSRs that refine an extended event. *)
Definition program_extra : M unit :=
  match extended mode_ p with
  | Some d =>
      (if OffcoreResponseMsrValue0 d =? 0 then mret tt
       else msr_write MSR MSR_OFFCORE_RSP0 (OffcoreResponseMsrValue0 d)) ;;
      (if OffcoreResponseMsrValue1 d =? 0 then mret tt
       else msr_write MSR MSR_OFFCORE_RSP1 (OffcoreResponseMsrValue1 d)) ;;
      (if LoadLatencyMsrValue d =? invalidMsrValue then mret tt
       else msr_write MSR MSR_LOAD_LATENCY (LoadLatencyMsrValue d)) ;;
      (if FrontendMsrValue d =? invalidMsrValue then mret tt
       else msr_write MSR MSR_FRONTEND (FrontendMsrValue d))
  | None => mret tt
  end.

(** The event of counter [j] from the configuration [cfg], or else from the table [desc];
    [old] is the value of the previous counter. *)
Definition select_from (cfg : option (list Z)) (desc : list CustomCoreEventDescription) (j : nat) (old : Z) : M Z :=
  match cfg with
  | Some cfg =>
      match cfg !! j with
      | Some reg => mret (set_field EventSelectRegister "enable" 1 reg)
      | None => throw OutOfRange
      end
  | None =>
      reg ← msr_read_into MSR (IA32_PERFEVTSEL0_ADDR + Z.of_nat j) old;
      match desc !! j with
      | Some d => mret (setEvent reg (event_number d) (umask_value d))
      | None => throw OutOfRange
      end
  end.

Definition select_event (j : nat) (old : Z) : M Z :=
  if negb (hybrid s) || bool_decide (core_type s = Core) then
    select_from (d ← extended mode_ p; gpCounterCfg d) (coreEventDesc (cs_events s)) j old
  else if bool_decide (core_type s = Atom) then
    select_from (d ← extended mode_ p; gpCounterHybridAtomCfg d) (hybridAtomEventDesc (cs_events s)) j old
  else mret old.

(** A member of the descriptor behind [pExtDesc], which is not checked to be one: with the
    events of another mode the access is beyond their array. *)
Definition ext_field (f : ExtendedCustomCoreEventDescription -> Z) : M Z :=
  match p with ExtendedEvents d => mret (f d) | _ => throw OutOfRange end.

(** [e.config1] for the event [reg]; the last match wins. *)
Definition perf_config1_of (reg : Z) : M Z :=
  let evt := (get_field EventSelectRegister "event_select" reg, get_field EventSelectRegister "umask" reg) in
  let on (ev : Z * Z) (f : ExtendedCustomCoreEventDescription -> Z) (old : Z) : M Z :=
    if bool_decide (evt = ev) then ext_field f else mret old in
  match p with
  | NoParameter => mret 0
  | _ =>
      c ← on (getOCREventNr (cs_model s) (hybrid s) (core_type s) 0) OffcoreResponseMsrValue0 0;
      c ← on (getOCREventNr (cs_model s) (hybrid s) (core_type s) 1) OffcoreResponseMsrValue1 c;
      c ← on (LOAD_LATENCY_EVTNR, LOAD_LATENCY_UMASK) LoadLatencyMsrValue c;
      on (FRONTEND_EVTNR, FRONTEND_UMASK) FrontendMsrValue c
  end.

(** One turn of the loop over the general purpose counters. *)
Definition program_counter_j (j : nat) : body unit :=
  l ← get;
  reg ← lift (select_event j (event_select_reg l));
  modify (push_result reg) ;;
  (if match p with NoParameter => false | _ => true end &&
      (get_field EventSelectRegister "event_select" reg =? LOAD_LATENCY_EVTNR) &&
      (get_field EventSelectRegister "umask" reg =? LOAD_LATENCY_UMASK)
   then modify (fun l => set_PEBS (Z.lor (PEBSEnable l) (Z.shiftl 1 (Z.of_nat j))) l) else mret tt) ;;
  if cs_canUsePerf s then
    config1 ← lift (perf_config1_of reg);
    programPerfEvent core tids
      (with_event (PCM_init_perf_event_attr true) PERF_TYPE_RAW (u64 (2 ^ 63 + reg)) config1)
      (PERF_GEN_EVENT_0_POS + j)%nat
  else
    lift (msr_write MSR (IA32_PMC0 + Z.of_nat j) 0 ;;
          msr_write MSR (IA32_PERFEVTSEL0_ADDR + Z.of_nat j) reg).

(** The value that enables the counters. *)
Definition global_ctrl : Z :=
  let value := Z.lor 0xF (Z.shiftl 7 32) in
  let value := if fixed3 s then Z.lor value (Z.shiftl 1 35) else value in
  let value := if HWTMAL1 s then Z.lor value (Z.shiftl 1 48) else value in
  let value := if isAtom (cs_model s) || (cs_model s =? KNL) then Z.lor 3 (Z.shiftl 7 32) else value in
  foldl (fun v j => Z.lor v (Z.shiftl 1 (Z.of_nat j))) value
    (seq 0 (Z.to_nat (core_gen_counter_num_used (cs_events s)))).

(** [start counting, enable all] *)
Definition start_direct : body unit :=
  (if fixed3 s then lift (msr_write MSR TOPDOWN_SLOTS_ADDR 0) else mret tt) ;;
  (if HWTMAL1 s then lift (msr_write MSR PERF_METRICS_ADDR 0) else mret tt) ;;
  modify (fun l => if global_ctrl_value l =? 0 then set_global_ctrl global_ctrl l else l) ;;
  lift (msr_write MSR IA32_PERF_GLOBAL_OVF_CTRL global_ctrl ;;
        msr_write MSR IA32_CR_PERF_GLOBAL_CTRL global_ctrl).

(** [topDownEvents] *)
Definition topDownEvents : list (string * nat) :=
  let dir := "/sys/bus/event_source/devices/cpu/events/"%string in
  [(dir +:+ "slots", PERF_TOPDOWN_SLOTS_POS); (dir +:+ "topdown-bad-spec", PERF_TOPDOWN_BADSPEC_POS);
   (dir +:+ "topdown-be-bound", PERF_TOPDOWN_BACKEND_POS); (dir +:+ "topdown-fe-bound", PERF_TOPDOWN_FRONTEND_POS);
   (dir +:+ "topdown-retiring", PERF_TOPDOWN_RETIRING_POS)]%string ++
  if HWTMAL1 s && bool_decide (cs_model s ∈ [SPR; EMR; GNR; GNR_D]) then
    [(dir +:+ "topdown-mem-bound", PERF_TOPDOWN_MEM_BOUND_POS);
     (dir +:+ "topdown-fetch-lat", PERF_TOPDOWN_FETCH_LAT_POS);
     (dir +:+ "topdown-br-mispredict", PERF_TOPDOWN_BR_MISPRED_POS);
     (dir +:+ "topdown-heavy-ops", PERF_TOPDOWN_HEAVY_OPS_POS)]%string
  else [].

(** The tokens of an event description; [None] for an unknown one. *)
Fixpoint top_down_tokens (tokens : list str) (eventSel umask : Z) : option (Z * Z) :=
  match tokens with
  | [] => Some (eventSel, umask)
  | token :: tokens' =>
      let '(ok, eventSel) := match_token token (lit "event=") eventSel in
      if ok : bool then top_down_tokens tokens' eventSel umask
      else
        let '(ok, umask) := match_token token (lit "umask=") umask in
        if ok : bool then top_down_tokens tokens' eventSel umask else None
  end.

Fixpoint program_top_down (events : list (string * nat)) (readPos : Z) : body unit :=
  match events with
  | [] => mret tt
  | (path, pos) :: events' =>
      match top_down_tokens (split (readSysFS s path) ",") 0 0 with
      | None => return_ UnknownError
      | Some (eventSel, umask) =>
          let reg := set_field EventSelectRegister "umask" umask
                       (set_field EventSelectRegister "event_select" eventSel 0) in
          programPerfEvent core tids (with_event (PCM_init_perf_event_attr true) PERF_TYPE_RAW reg 0) pos ;;
          modify (fun l => set_leader (nth PERF_TOPDOWN_SLOTS_POS (perfEventHandle l) (-1)) l) ;;
          modify (set_top_down_pos pos readPos) ;;
          program_top_down events' (readPos + 1)
      end
  end.

Definition start_perf : body unit :=
  if fixed3 s && HWTMAL1 s && perf_top_down s then
    modify (set_leader (-1)) ;;
    program_top_down topDownEvents (core_fixed_counter_num_used s + core_gen_counter_num_used (cs_events s))
  else mret tt.

(** [programCoreCounters]; [Success] is the error code of reaching the end. *)
Definition programCoreCounters : body ErrorCode :=
  (if cs_canUsePerf s then program_fixed_perf else lift program_fixed_direct) ;;
  lift program_extra ;;
  each (seq 0 (Z.to_nat (core_gen_counter_num_used (cs_events s)))) program_counter_j ;;
  (if cs_canUsePerf s then start_perf else start_direct) ;;
  l ← get;
  (if PEBSEnable l =? 0 then mret tt
   else modify set_cleanup_PEBS ;; lift (msr_write MSR IA32_PEBS_ENABLE_ADDR (PEBSEnable l))) ;;
  mret Success.

End OneCore.
End Code.

(** * The state of [PCM] *)

(** What initialisation has found out; constant from then on. *)
Record platform := Platform {
  pf_model : Z;
  MSR : list SafeMsrHandle;             (** by core; none where the core is offline *)
  pf_hybrid : bool;
  core_types : list CoreType;
  core_gen_counter_num_max : Z;
  core_fixed_counter_num_max : Z;
  perfmon_version : Z;
  fixed3_supported : bool;
  HWTMAL1_supported : bool;             (** the static of [isHWTMAL1Supported] *)
  disable_JKT_workaround : bool;
  jkt_registers : list (Z * Z)          (** of every server uncore, the PCI handles and offsets of the workaround *)
}.

Definition num_cores (pf : platform) : nat := length (MSR pf).
Definition MSR_at (pf : platform) (i : nat) : SafeMsrHandle := nth i (MSR pf) None.
Definition isCoreOnline (pf : platform) (i : nat) : bool :=
  match MSR_at pf i with Some _ => true | None => false end.

(** [isHWTMAL1Supported] at initialisation: [ecx] of CPUID leaf 1, and the read of
    [MSR_PERF_CAPABILITIES] on core 0. *)
Definition detect_HWTMAL1 (ecx1 : Z) (has_MSR : bool) (perf_cap : option Z) (hybrid : bool) : bool :=
  if hybrid then false
  else if negb (extract_bits_32 ecx1 15 15 =? 0) && has_MSR then
    match perf_cap with Some v => 0 <? extract_bits v 15 15 | None => false end
  else false.

(** The members that programming changes. *)
Record core_pmu := CorePMU {
  mode : ProgramMode;
  events : core_events;
  pmu_canUsePerf : bool;
  programmed_core_pmu : bool;
  needToRestoreNMIWatchdog : bool;
  lastProgrammed : list (list Z);           (** [lastProgrammedCustomCounters] *)
  pmu_global_ctrl : Z;
  pmu_cleanupPEBS : bool;
  pmu_handles : list (list Z);              (** [perfEventHandle] *)
  pmu_task_handles : list (list (list Z));  (** [perfEventTaskHandle]: by thread, by core *)
  pmu_top_down_pos : gmap nat Z
}.

(** What [program] learns from Linux while it runs. *)
Record linux := Linux {
  nmi_watchdog_file : str;              (** [/proc/sys/kernel/nmi_watchdog] *)
  nmi_watchdog_file_later : str;        (** the same once 0 was written to it *)
  PCM_KEEP_NMI_WATCHDOG : option str;   (** environment variables *)
  PCM_NO_PERF : option str;
  PCM_NO_MSR : option str;
  PERF_COUNT_HW_MAX : Z;                (** of the kernel headers *)
  sysfs : string -> str;                (** the files below [/sys]; empty when missing *)
  task_dir : option (list str)          (** the entries of [/proc/<pid>/task] *)
}.

Definition is_one (v : option str) : bool := bool_decide (v = Some (lit "1")).

Definition isNMIWatchdogEnabled (watchdog : str) : bool :=
  match watchdog with [] => false | _ => atoi watchdog =? 1 end.

Definition keepNMIWatchdogEnabled (os : linux) : bool := is_one (PCM_KEEP_NMI_WATCHDOG os).

Definition isHWTMAL1Supported (pf : platform) (st : core_pmu) : bool :=
  match pmu_task_handles st with [] => HWTMAL1_supported pf | _ => false end.

Definition isHWTMAL2Supported (pf : platform) (st : core_pmu) : bool :=
  isHWTMAL1Supported pf st && bool_decide (pf_model pf ∈ [SPR; EMR; GNR; GNR_D]).

Definition perfSupportsTopDown (os : linux) (pf : platform) (st : core_pmu) : bool :=
  let dir := "/sys/bus/event_source/devices/cpu/events/"%string in
  let exists_ f := match sysfs os (dir +:+ f)%string with [] => false | _ => true end in
  forallb exists_ ["slots"; "topdown-bad-spec"; "topdown-be-bound"; "topdown-fe-bound"; "topdown-retiring"]%string &&
  (negb (isHWTMAL2Supported pf st) ||
   forallb exists_ ["topdown-br-mispredict"; "topdown-fetch-lat"; "topdown-heavy-ops"; "topdown-mem-bound"]%string).

Definition with_perf (b : bool) (st : core_pmu) : core_pmu :=
  CorePMU (mode st) (events st) b (programmed_core_pmu st) (needToRestoreNMIWatchdog st) (lastProgrammed st)
    (pmu_global_ctrl st) (pmu_cleanupPEBS st) (pmu_handles st) (pmu_task_handles st) (pmu_top_down_pos st).
Definition with_watchdog (b : bool) (st : core_pmu) : core_pmu :=
  CorePMU (mode st) (events st) (pmu_canUsePerf st) (programmed_core_pmu st) b (lastProgrammed st)
    (pmu_global_ctrl st) (pmu_cleanupPEBS st) (pmu_handles st) (pmu_task_handles st) (pmu_top_down_pos st).
Definition with_handles (own : list (list Z)) (tasks : list (list (list Z))) (st : core_pmu) : core_pmu :=
  CorePMU (mode st) (events st) (pmu_canUsePerf st) (programmed_core_pmu st) (needToRestoreNMIWatchdog st)
    (lastProgrammed st) (pmu_global_ctrl st) (pmu_cleanupPEBS st) own tasks (pmu_top_down_pos st).
Definition with_events (m : ProgramMode) (e : core_events) (st : core_pmu) : core_pmu :=
  CorePMU m e (pmu_canUsePerf st) (programmed_core_pmu st) (needToRestoreNMIWatchdog st) (lastProgrammed st)
    (pmu_global_ctrl st) (pmu_cleanupPEBS st) (pmu_handles st) (pmu_task_handles st) (pmu_top_down_pos st).
Definition with_programmed (b : bool) (st : core_pmu) : core_pmu :=
  CorePMU (mode st) (events st) (pmu_canUsePerf st) b (needToRestoreNMIWatchdog st) (lastProgrammed st)
    (pmu_global_ctrl st) (pmu_cleanupPEBS st) (pmu_handles st) (pmu_task_handles st) (pmu_top_down_pos st).
Definition with_PEBS (b : bool) (st : core_pmu) : core_pmu :=
  CorePMU (mode st) (events st) (pmu_canUsePerf st) (programmed_core_pmu st) (needToRestoreNMIWatchdog st)
    (lastProgrammed st) (pmu_global_ctrl st) b (pmu_handles st) (pmu_task_handles st) (pmu_top_down_pos st).
(** [clear], [resize] and [core_global_ctrl_value = 0] before the cores are programmed. *)
Definition with_cleared (n : nat) (st : core_pmu) : core_pmu :=
  CorePMU (mode st) (events st) (pmu_canUsePerf st) (programmed_core_pmu st) (needToRestoreNMIWatchdog st)
    (replicate n []) 0 (pmu_cleanupPEBS st) (pmu_handles st) (pmu_task_handles st) (pmu_top_down_pos st).

(** What the programming of core [i] leaves behind. *)
Definition with_locals (i : nat) (l : locals) (st : core_pmu) : core_pmu :=
  CorePMU (mode st) (events st) (pmu_canUsePerf st) (programmed_core_pmu st) (needToRestoreNMIWatchdog st)
    (<[i:=result l]> (lastProgrammed st)) (global_ctrl_value l) (cleanupPEBS l)
    (<[i:=perfEventHandle l]> (pmu_handles st))
    (zip_with (fun cores h => <[i:=h]> cores) (pmu_task_handles st) (perfEventTaskHandle l))
    (perfTopDownPos l).

Definition locals_of (i : nat) (st : core_pmu) : locals :=
  Locals [] 0 0 (-1) (nth i (pmu_handles st) []) (map (fun cores => nth i cores []) (pmu_task_handles st))
    (pmu_top_down_pos st) (pmu_global_ctrl st) (pmu_cleanupPEBS st).

Definition settings_of (os : linux) (pf : platform) (st : core_pmu) (i : nat) : core_settings :=
  CoreSettings (pmu_canUsePerf st) (pf_model pf) (pf_hybrid pf) (nth i (core_types pf) Invalid) (events st) 3
    (fixed3_supported pf) (isHWTMAL1Supported pf st) (perfSupportsTopDown os pf st) (sysfs os).

(** * The decisions of [program] *)

(** Whether Linux perf can (still) be used. *)
Definition decide_perf (os : linux) (pf : platform) (st : core_pmu) (mode_ : ProgramMode) (p : parameter)
    (pid : Z) : bool :=
  let any_thread := match extended mode_ p with
                    | Some (ExtDesc (Some cfg) _ _ _ _ _ _ _ _) => negb (Z.land cfg 0x444 =? 0)
                    | _ => false
                    end in
  let offcore := match extended mode_ p with
                 | Some d => negb (OffcoreResponseMsrValue0 d =? 0) || negb (OffcoreResponseMsrValue1 d =? 0)
                 | None => false
                 end in
  let format := sysfs os "/sys/bus/event_source/devices/cpu/format/offcore_rsp" in
  let can :=
    if is_one (PCM_NO_PERF os) then false
    else if PERF_COUNT_HW_MAX os <=? PCM_PERF_COUNT_HW_REF_CPU_CYCLES then false
    else if any_thread then false
    else if offcore && negb (bool_decide (format = lit "config1:0-63" ++ [LF])) then false
    else pmu_canUsePerf st in
  let can := if isHWTMAL1Supported pf st && negb (perfSupportsTopDown os pf st) && (pid =? -1) then false else can in
  can && negb (bool_decide (pf_model pf ∈ hybrid_models)).

(** The copy of the caller's events, or the default events. *)
Definition choose_events (pf : platform) (mode_ : ProgramMode) (p : parameter) (e : core_events)
    : res (option core_events) :=
  let core2 := isAtom (pf_model pf) || (pf_model pf =? KNL) in
  match mode_, p with
  | CUSTOM_CORE_EVENTS, NoParameter => Ok None
  | CUSTOM_CORE_EVENTS, CustomEvents desc =>
      e ← custom_events core2 (core_gen_counter_num_max pf) desc e; Ok (Some e)
  | CUSTOM_CORE_EVENTS, ExtendedEvents _ => Throw OutOfRange
  | EXT_CUSTOM_CORE_EVENTS, _ => Ok (Some e)
  | _, _ => Ok (Some (apply_choice (default_events (pf_model pf) (core_gen_counter_num_max pf)) e))
  end.

(** The number of counters of an extended description. *)
Definition extended_count (mode_ : ProgramMode) (p : parameter) (e : core_events) : core_events :=
  match extended mode_ p with
  | Some d =>
      if match gpCounterCfg d, gpCounterHybridAtomCfg d with None, None => false | _, _ => true end
      then CoreEvents (coreEventDesc e) (hybridAtomEventDesc e) (available e) (nGPCounters d)
      else e
  | None => e
  end.

(** The thread ids among the entries of the directory. *)
Definition tids_of (entries : list str) : list Z := filter (fun t => t <> 0) (map atoi entries).

(** A core programmed by an earlier step, or the first status that is not a success. *)
Definition first_failure (statuses : list ErrorCode) : ErrorCode :=
  foldr (fun s rest => if bool_decide (s = Success) then rest else s) Success statuses.

Section Program.
Context {machine : Machine} (os : linux) (pf : platform).

(** [if (h != -1) ::close(h); h = -1;] *)
Definition close_all (handles : list Z) : M unit :=
  forM handles (fun h => if h =? -1 then mret tt else access_write (FileDescriptor h) 0).

Definition closePerfHandles (st : core_pmu) : M core_pmu :=
  if pmu_canUsePerf st then
    forM (pmu_handles st) close_all ;;
    forM (pmu_task_handles st) (fun cores => forM cores close_all) ;;
    mret (with_handles (map (map (fun _ => -1)) (pmu_handles st)) [] st)
  else mret st.

(** [PCM::enableJKTWorkaround]: bit 0 of an MSR of every core, bit 1 of the registers of
    the server uncore. *)
Definition enableJKTWorkaround (enable : bool) : M unit :=
  if disable_JKT_workaround pf then mret tt
  else
    forM (MSR pf) (fun h =>
      val64 ← msr_read_into h 0x39C 0;
      msr_write h 0x39C (if enable then Z.lor val64 1 else Z.land val64 (u64 (Z.lnot 1)))) ;;
    forM (jkt_registers pf) (fun r =>
      value ← reg_read (PCICFGRegister32 r.1 r.2);
      reg_write (PCICFGRegister32 r.1 r.2) (if enable then Z.lor value 2 else Z.land value (u32 (Z.lnot 2)))).

(** [PMUinUse] for one core: the selectors, then the interrupts of the fixed counters. The
    result of a read is the number of bytes, 0 to make the value be ignored; the read of a
    file that fails gives -1, which does not. *)
Fixpoint selectors_in_use (h : SafeMsrHandle) (restore_watchdog : bool) (j n : nat) (old : Z) : M bool :=
  match n with
  | O => mret false
  | S n' =>
      reg ← msr_read_into h (IA32_PERFEVTSEL0_ADDR + Z.of_nat j) old;
      if negb (get_field EventSelectRegister "event_select" reg =? 0) ||
         negb (get_field EventSelectRegister "apic_int" reg =? 0)
      then
        if restore_watchdog && (get_field EventSelectRegister "event_select" reg =? 0x3C) &&
           (get_field EventSelectRegister "umask" reg =? 0)
        then selectors_in_use h restore_watchdog (S j) n' reg
        else mret true
      else selectors_in_use h restore_watchdog (S j) n' reg
  end.

Definition fixed_in_use (h : SafeMsrHandle) (restore_watchdog : bool) : M bool :=
  ctrl_reg ← msr_read_into h IA32_CR_FIXED_CTR_CTRL (2 ^ 64 - 1);
  mret (existsb (fun f => negb (get_field FixedEventControlRegister f ctrl_reg =? 0))
          ["enable_pmi0"; "enable_pmi1"; "enable_pmi2"]%string && negb restore_watchdog).

Definition core_in_use (h : SafeMsrHandle) (restore_watchdog : bool) : M bool :=
  (if 4 <=? perfmon_version pf then msr_read_into h MSR_PERF_GLOBAL_INUSE 0 ;; mret tt else mret tt) ;;
  msr_read_into h IA32_CR_PERF_GLOBAL_CTRL 0 ;;
  busy ← selectors_in_use h restore_watchdog 0 (Z.to_nat (core_gen_counter_num_max pf)) (2 ^ 64 - 1);
  if busy : bool then mret true else fixed_in_use h restore_watchdog.

Fixpoint cores_in_use (hs : list SafeMsrHandle) (restore_watchdog : bool) : M bool :=
  match hs with
  | [] => mret false
  | h :: hs' =>
      busy ← core_in_use h restore_watchdog;
      if busy : bool then mret true else cores_in_use hs' restore_watchdog
  end.

Definition PMUinUse (st : core_pmu) : M bool := cores_in_use (MSR pf) (needToRestoreNMIWatchdog st).

(** [cleanupPMU] *)
Definition cleanup_core (h : SafeMsrHandle) (pebs : bool) : M unit :=
  msr_write h IA32_CR_PERF_GLOBAL_CTRL (Z.shiftl 7 32) ;;
  forM (seq 0 (Z.to_nat (core_gen_counter_num_max pf)))
    (fun j => msr_write h (IA32_PERFEVTSEL0_ADDR + Z.of_nat j) 0) ;;
  (if pebs then msr_write h IA32_PEBS_ENABLE_ADDR 0 else mret tt).

Definition cleanupPMU (st : core_pmu) : M core_pmu :=
  st ← closePerfHandles (with_programmed false st);
  if pmu_canUsePerf st then mret st
  else
    forM (MSR pf) (fun h => cleanup_core h (pmu_cleanupPEBS st)) ;;
    (if pf_model pf =? JAKETOWN then enableJKTWorkaround false else mret tt) ;;
    mret (with_PEBS false st).

(** [resetPMU] *)
Definition reset_core (h : SafeMsrHandle) : M unit :=
  msr_write h IA32_CR_PERF_GLOBAL_CTRL 0 ;;
  forM (seq 0 (Z.to_nat (core_gen_counter_num_max pf)))
    (fun j => msr_write h (IA32_PERFEVTSEL0_ADDR + Z.of_nat j) 0) ;;
  ctrl_reg ← msr_read_into h IA32_CR_FIXED_CTR_CTRL (2 ^ 64 - 1);
  if existsb (fun f => negb (get_field FixedEventControlRegister f ctrl_reg =? 0))
       ["os0"; "usr0"; "enable_pmi0"; "os1"; "usr1"; "enable_pmi1"; "os2"; "usr2"; "enable_pmi2"]%string
  then msr_write h IA32_CR_FIXED_CTR_CTRL 0 else mret tt.

Definition resetPMU : M unit := forM (MSR pf) reset_core.

(** The programming of all online cores, and their statuses. *)
Fixpoint program_cores (cores : list nat) (mode_ : ProgramMode) (p : parameter) (tids : list Z) (st : core_pmu)
    : M (core_pmu * list ErrorCode) :=
  match cores with
  | [] => mret (st, [])
  | i :: cores' =>
      if isCoreOnline pf i then
        r ← programCoreCounters (settings_of os pf st i) (Z.of_nat i) (MSR_at pf i) mode_ p tids (locals_of i st);
        let status := match r.2 with inl e => e | inr e => e end in
        rest ← program_cores cores' mode_ p tids (with_locals i r.1 st);
        mret (rest.1, status :: rest.2)
      else program_cores cores' mode_ p tids st
  end.

(** The checks between the choice of events and the programming, in their order. *)
Definition check_resources (st : core_pmu) (watchdog : bool) (pid : Z) : bool :=
  (core_gen_counter_num_used (events st) <=? core_gen_counter_num_max pf) &&
  (3 <=? core_fixed_counter_num_max pf) &&
  ((pid =? -1) || pmu_canUsePerf st) &&
  (negb watchdog || pmu_canUsePerf st).

(** The threads to monitor, [None] when their directory cannot be opened; the handles
    for them are made. *)
Definition find_tids (pid : Z) : option (list Z) :=
  if pid =? -1 then Some [] else tids_of <$> task_dir os.

Definition make_task_handles (tids : list Z) (st : core_pmu) : core_pmu :=
  match tids with
  | [] => st
  | _ => with_handles (pmu_handles st)
           (replicate (length tids) (replicate (num_cores pf) (replicate PERF_MAX_COUNTERS (-1)))) st
  end.

(** [PCM::program] up to the programming of the cores. *)
Definition program_core (mode_ : ProgramMode) (p : parameter) (pid : Z) (st : core_pmu)
    : M (core_pmu * ErrorCode) :=
  let disable := isNMIWatchdogEnabled (nmi_watchdog_file os) && negb (keepNMIWatchdogEnabled os) in
  let st := if disable then with_watchdog true st else st in
  let watchdog := isNMIWatchdogEnabled (if disable then nmi_watchdog_file_later os else nmi_watchdog_file os) in
  if bool_decide (MSR pf = []) then mret (st, MSRAccessDenied)
  else
    st ← closePerfHandles st;
    let st := with_perf (decide_perf os pf st mode_ p pid) st in
    if negb (pmu_canUsePerf st) && is_one (PCM_NO_MSR os) then mret (st, UnknownError)
    else
      busy ← (if negb (programmed_core_pmu st) && negb (pmu_canUsePerf st) then PMUinUse st else mret false);
      if busy : bool then mret (st, PMUBusy)
      else
        match choose_events pf mode_ p (events st) with
        | Throw e => throw e
        | Ok None => mret (with_events mode_ (events st) st, UnknownError)
        | Ok (Some e) =>
            let st := with_events mode_ (extended_count mode_ p e) st in
            (if pf_model pf =? JAKETOWN then
               enableJKTWorkaround (existsb
                 (fun d => event_number d =? event_number MEM_LOAD_UOPS_LLC_HIT_RETIRED_XSNP)
                 (take (Z.to_nat (core_gen_counter_num_used (events st))) (coreEventDesc (events st))))
             else mret tt) ;;
            if negb (check_resources st watchdog pid) then mret (st, UnknownError)
            else
              match find_tids pid with
              | None => mret (st, UnknownError)
              | Some tids =>
                  let st := with_cleared (num_cores pf) (make_task_handles tids st) in
                  r ← program_cores (seq 0 (num_cores pf)) mode_ p tids st;
                  let status := first_failure r.2 in
                  if bool_decide (status = Success) then mret (with_programmed true r.1, Success)
                  else mret (r.1, status)
              end
        end.

End Program.

(** * The getters and the events they stand on *)

(** The members the getters read, for the metrics that were declared available. *)
Definition flags_of (m : Z) (avail : list cache_metric) (base : pcm_flags) : pcm_flags :=
  let has x := bool_decide (x ∈ avail) in
  Flags m (has L3CacheMisses) (has L2CacheMisses) (has L2CacheHits) (has L3CacheHitsNoSnoop)
    (has L3CacheHitsSnoop) (has L3CacheHits) (L3CacheOccupancyMetricAvailable base)
    (CoreLocalMemoryBWMetricAvailable base) (CoreRemoteMemoryBWMetricAvailable base)
    (HBMmemoryTrafficMetricsAvailable base) (pcm_stepping base) (pcm_links base).

(** Two states that hold the same values in the first [n] general purpose counters. *)
Definition same_counters (n : Z) (s s' : BasicCounterState) : Prop :=
  forall i, Z.of_nat i < n -> nth i (Event s) checked_zero = nth i (Event s') checked_zero.

Definition cache_getters : list (pcm_flags -> BasicCounterState -> BasicCounterState -> Z) :=
  [getL3CacheMisses; getL2CacheMisses; getL2CacheHits; getL3CacheHitsNoSnoop; getL3CacheHitsSnoop; getL3CacheHits].

(** The events that count what a getter takes the counter to hold. *)
Definition L3_miss_events : list CustomCoreEventDescription :=
  [ARCH_LLC_MISS; SKL_MEM_LOAD_RETIRED_L3_MISS; MEM_LOAD_RETIRED_L3_MISS].
Definition L2_hit_events : list CustomCoreEventDescription :=
  [SKL_MEM_LOAD_RETIRED_L2_HIT; CMT_MEM_LOAD_RETIRED_L2_HIT; MEM_LOAD_UOPS_RETIRED_L2_HIT; MEM_LOAD_RETIRED_L2_HIT;
   HSX_L2_RQSTS_REFERENCES].

(** The lists of models in [getL2CacheMisses] and [getL3CacheHitsSnoop]. *)
Definition skl_l2_miss_models : list Z :=
  [SNOWRIDGE; ELKHART_LAKE; JASPER_LAKE; SRF; GRR; ADL; RPL; MTL; LNL; ARL; PTL].
Definition llc_ref_models : list Z :=
  [SNOWRIDGE; GRR; ELKHART_LAKE; JASPER_LAKE; SRF; ADL; RPL; MTL; LNL; ARL; PTL].

(** The positions a getter reads are programmed, decided for one choice of events. *)
Definition choice_covers (m : Z) (c : choice) : bool :=
  let '(core, _, metrics, used) := c in
  let has x := bool_decide (x ∈ metrics) in
  let reads (pos : nat) := Z.of_nat pos <? used in
  let old := isAtom m || (m =? KNL) in
  implb (has L3CacheMisses) (reads L3MissPos && existsb (fun e => bool_decide (core !! L3MissPos = Some e)) L3_miss_events) &&
  implb (has L2CacheMisses)
    (if useSkylakeEvents m || is_one_of m skl_l2_miss_models then reads SKLL2MissPos
     else if old then reads ArchLLCMissPos else if memoryEventErrata m then reads ArchLLCRefPos
     else reads L2HitMPos && reads L3UnsharedHitPos && reads L3MissPos) &&
  implb (has L2CacheHits)
    (if old then reads ArchLLCRefPos && reads ArchLLCMissPos
     else if memoryEventErrata m then reads HSXL2RefPos && reads HSXL2MissPos
     else reads L2HitPos && existsb (fun e => bool_decide (core !! L2HitPos = Some e)) L2_hit_events) &&
  implb (has L3CacheHitsNoSnoop) (reads L3UnsharedHitPos) &&
  implb (has L3CacheHitsSnoop)
    (if is_one_of m llc_ref_models then reads L3MissPos && reads ArchLLCRefPos
     else if useSkylakeEvents m then reads SKLL3HitPos else reads L2HitMPos) &&
  implb (has L3CacheHits && memoryEventErrata m) (reads ArchLLCMissPos && reads ArchLLCRefPos).

Definition covers (m gen_max : Z) : bool := choice_covers m (default_events m gen_max).

(** The number of counters matters only when it is 2 or 3. *)
Lemma default_events_max m gen_max : exists g, In g [2; 3; 4] /\ default_events m gen_max = default_events m g.
Proof.
  destruct (Z.eqb_spec gen_max 2) as [->|H2]; [exists 2; split; [simpl; tauto|done]|].
  destruct (Z.eqb_spec gen_max 3) as [->|H3]; [exists 3; split; [simpl; tauto|done]|].
  exists 4. split; [simpl; tauto|]. unfold default_events, switch_events.
  by rewrite (proj2 (Z.eqb_neq _ _) H2), (proj2 (Z.eqb_neq _ _) H3).
Qed.

Lemma switch_outside {A} m (cases : list (list Z * A)) d : m ∉ all_models ->
  forallb (fun c : list Z * A => forallb (fun a => bool_decide (a ∈ all_models)) c.1) cases = true -> switch m cases d = d.
Proof.
  intros Hm Hc. apply switch_default. rewrite Forall_forall. intros c Hin.
  rewrite forallb_forall in Hc. apply (not_elem_subset m c.1 all_models); [|done].
  by apply Hc, list_elem_of_In.
Qed.

Lemma default_events_outside m g : m ∉ all_models -> default_events m g = default_events 0 g.
Proof.
  intros Hm. unfold default_events, switch_events, isAtom, memoryEventErrata. outside Hm. cbn [orb].
  do 2 (rewrite (switch_outside m); [|done|vm_compute; reflexivity]). by vm_compute.
Qed.

Lemma default_events_cover m gen_max : covers m gen_max = true.
Proof.
  unfold covers. destruct (default_events_max m gen_max) as (g & Hg & ->).
  destruct (decide (m ∈ all_models)) as [Hm|Hm].
  - apply (forall_models (fun m => choice_covers m (default_events m g))); [|done].
    repeat (destruct Hg as [<-|Hg]; [vm_compute; reflexivity|]). destruct Hg.
  - rewrite (default_events_outside m g Hm). repeat (destruct Hg as [<-|Hg]; [
      unfold choice_covers, isAtom, memoryEventErrata, useSkylakeEvents; outside Hm;
      repeat (rewrite (switch_outside m); [|done|vm_compute; reflexivity]); vm_compute; reflexivity|]).
    destruct Hg.
Qed.

Lemma same_delta n i s1 s2 s1' s2' : same_counters n s1 s1' -> same_counters n s2 s2' ->
  (Z.of_nat i <? n) = true -> event_delta i s1 s2 = event_delta i s1' s2'.
Proof. intros H1 H2 Hi%Z.ltb_lt. unfold event_delta. by rewrite H1, H2. Qed.

Lemma set_events_lookup core evt (i : nat) candidates :
  existsb (fun e => bool_decide (core !! i = Some e)) candidates = true ->
  exists x, x ∈ candidates /\ set_events core evt !! i = Some x.
Proof.
  rewrite existsb_exists. intros (x & Hx & Hi%bool_decide_eq_true_1). exists x.
  split; [by apply list_elem_of_In|]. unfold set_events. by apply lookup_app_l_Some.
Qed.

(** With the default events, on every model and for every number of available counters:
    each cache metric that is declared available is computed from programmed counters only
    - states that agree on these give the same metric -, the counter that is read as L3
    misses counts an L3 miss event, and (away from the old Atoms and the models with
    erratum, which compute them otherwise) the one read as L2 hits an L2 hit event. *)
Theorem default_events_feed_getters m gen_max e base b a b' a' :
  available e = [] ->
  let e' := apply_choice (default_events m gen_max) e in
  let pcm := flags_of m (available e') base in
  same_counters (core_gen_counter_num_used e') b b' -> same_counters (core_gen_counter_num_used e') a a' ->
  Forall (fun g => g pcm b a = g pcm b' a') cache_getters /\
  (L3CacheMissesAvailable pcm = true ->
     exists x, x ∈ L3_miss_events /\ coreEventDesc e' !! L3MissPos = Some x) /\
  (L2CacheHitsAvailable pcm = true -> isAtom m || (m =? KNL) || memoryEventErrata m = false ->
     exists x, x ∈ L2_hit_events /\ coreEventDesc e' !! L2HitPos = Some x).
Proof.
  intros Ha. pose proof (default_events_cover m gen_max) as Hc. unfold covers in Hc.
  destruct (default_events m gen_max) as [[[core atom] metrics] used]. cbn [apply_choice].
  cbv zeta. cbn [available core_gen_counter_num_used coreEventDesc]. rewrite Ha, app_nil_r.
  intros Hb Ha'. unfold choice_covers in Hc.
  rewrite !andb_true_iff in Hc. destruct Hc as [[[[[H1 H2] H3] H4] H5] H6].
  pose proof (fun i => same_delta used i b a b' a' Hb Ha') as Hd.
  assert (E3 : getL3CacheMisses (flags_of m metrics base) b a = getL3CacheMisses (flags_of m metrics base) b' a').
  { unfold getL3CacheMisses. cbn [L3CacheMissesAvailable flags_of].
    destruct (bool_decide (L3CacheMisses ∈ metrics)); [|done]. cbn [implb] in H1.
    apply andb_true_iff in H1 as [H1 _]. by apply Hd. }
  assert (Es : getL3CacheHitsSnoop (flags_of m metrics base) b a = getL3CacheHitsSnoop (flags_of m metrics base) b' a').
  { unfold getL3CacheHitsSnoop. rewrite E3. cbn [L3CacheHitsSnoopAvailable flags_of model].
    destruct (bool_decide (L3CacheHitsSnoop ∈ metrics)); [|done]. cbn [implb negb] in *.
    change (is_one_of m [_; _; _; _; _; _; _; _; _; _; _]) with (is_one_of m llc_ref_models).
    destruct (is_one_of m llc_ref_models).
    - apply andb_true_iff in H5 as [_ H5]. by rewrite (Hd _ H5).
    - destruct (useSkylakeEvents m); by apply Hd. }
  assert (En : getL3CacheHitsNoSnoop (flags_of m metrics base) b a = getL3CacheHitsNoSnoop (flags_of m metrics base) b' a').
  { unfold getL3CacheHitsNoSnoop. cbn [L3CacheHitsNoSnoopAvailable flags_of].
    destruct (bool_decide (L3CacheHitsNoSnoop ∈ metrics)); [|done]. by apply Hd. }
  split_and!.
  - repeat (apply Forall_cons_2; [try done|]); [| | |constructor].
    + unfold getL2CacheMisses. cbn [L2CacheMissesAvailable flags_of model].
      destruct (bool_decide (L2CacheMisses ∈ metrics)); [|done]. cbn [implb negb] in *.
      change (is_one_of m [_; _; _; _; _; _; _; _; _; _; _]) with (is_one_of m skl_l2_miss_models).
      destruct (useSkylakeEvents m || is_one_of m skl_l2_miss_models); [by apply Hd|].
      destruct (isAtom m || (m =? KNL)); [by apply Hd|]. destruct (memoryEventErrata m); [by apply Hd|].
      rewrite !andb_true_iff in H2. destruct H2 as [[Ha1 Ha2] Ha3].
      by rewrite (Hd _ Ha1), (Hd _ Ha2), (Hd _ Ha3).
    + unfold getL2CacheHits. cbn [L2CacheHitsAvailable flags_of model].
      destruct (bool_decide (L2CacheHits ∈ metrics)); [|done]. cbn [implb negb] in *.
      destruct (isAtom m || (m =? KNL)); [|destruct (memoryEventErrata m)];
        apply andb_true_iff in H3 as [Ha1 Ha2]; rewrite ?(Hd _ Ha1), ?(Hd _ Ha2); done.
    + unfold getL3CacheHits. rewrite Es, En. cbn [L3CacheHitsAvailable flags_of model].
      destruct (bool_decide (L3CacheHits ∈ metrics)); [|done].
      destruct (memoryEventErrata m); [|done]. cbn [implb negb andb] in *.
      apply andb_true_iff in H6 as [Ha1 Ha2]. by rewrite (Hd _ Ha1), (Hd _ Ha2).
  - cbn [L3CacheMissesAvailable flags_of]. intros Hav. rewrite Hav in H1. cbn [implb] in H1.
    apply andb_true_iff in H1 as [_ H1]. by apply set_events_lookup.
  - cbn [L2CacheHitsAvailable flags_of]. intros Hav Hold. rewrite Hav in H3. cbn [implb] in H3.
    apply orb_false_iff in Hold as [Hold Her]. rewrite Hold, Her in H3.
    apply andb_true_iff in H3 as [_ H3]. by apply set_events_lookup.
Qed.

Definition zeroed_events : core_events :=
  CoreEvents (replicate 8 (CoreEvent 0 0)) (replicate 8 (CoreEvent 0 0)) [] 0.

Definition example_counters (l : list Z) : BasicCounterState :=
  Basic checked_zero checked_zero checked_zero (map (fun v => Checked v 0) l) 0 no_c_states 0 0 0 0 0 0 0 0 0 0 0 0 0 0 ∅.

Definition example_flags : pcm_flags := Flags SANDY_BRIDGE false false false false false false false false false false 0 0.

(** On a Sandy Bridge two counters are programmed; the third may hold anything. *)
Lemma default_events_feed_getters_witness :
  let pcm := flags_of SANDY_BRIDGE (available (apply_choice (default_events SANDY_BRIDGE 4) zeroed_events)) example_flags in
  let before := example_counters [10; 20; 0] in
  getL3CacheHits pcm before (example_counters [15; 60; 7]) = 35 /\
  Forall (fun g => g pcm before (example_counters [15; 60; 7]) = g pcm before (example_counters [15; 60; 8])) cache_getters.
Proof.
  split; [vm_compute; reflexivity|].
  apply (default_events_feed_getters SANDY_BRIDGE 4 zeroed_events example_flags (example_counters [10; 20; 0])
    (example_counters [15; 60; 7]) (example_counters [10; 20; 0]) (example_counters [15; 60; 8])).
  - reflexivity.
  - intros i _. reflexivity.
  - intros [|[|i]] Hi; [reflexivity..|]. vm_compute core_gen_counter_num_used in Hi. lia.
Defined.

(** * The writes of [programCoreCounters] *)

(** The writes of a history, oldest first. *)
Fixpoint writes_of (h : list access) : list (port * Z) :=
  match h with
  | [] => []
  | Write p v :: h' => writes_of h' ++ [(p, v)]
  | Read _ :: h' => writes_of h'
  end.

Lemma body_bind_inv {A B} (m : body A) (f : A -> body B) l h h' l' b :
  (m ≫= f) l h = (h', Ok (l', inl b)) ->
  exists h1 l1 a, m l h = (h1, Ok (l1, inl a)) /\ f a l1 h1 = (h', Ok (l', inl b)).
Proof.
  unfold mbind, body_bind. intros H. apply M_bind_inv in H as (h1 & [l1 [a|e]] & E & H); [eauto|].
  discriminate H.
Qed.

Lemma lift_inv {A} (m : M A) l h h' l' a :
  lift m l h = (h', Ok (l', inl a)) -> l' = l /\ m h = (h', Ok a).
Proof.
  unfold lift. intros H. apply M_bind_inv in H as (h1 & a' & E & H).
  injection H as <- <- <-. done.
Qed.

(** Splits a successful run into the runs of its parts, and computes those of the single
    accesses and assignments. *)
Ltac run_body H :=
  repeat match type of H with
  | (_ ≫= _) _ _ = (_, Ok (_, inl _)) =>
      let h := fresh "h" in let l := fresh "l" in let a := fresh "r" in let E := fresh "E" in
      apply body_bind_inv in H as (h & l & a & E & H)
  end.
Ltac run_prim E :=
  first [ apply lift_inv in E as [-> E] | idtac ];
  match type of E with
  | msr_write (Some _) _ _ _ = _ => injection E as <- _
  | mret _ _ = _ => injection E as <- <-
  | @mret body _ _ _ _ _ = _ => injection E as <- <- <-
  | modify _ _ _ = _ => injection E as <- <- <-
  | get _ _ = _ => injection E as <- <- <-
  end.

Lemma M_ret_inv {A} (a b : A) h h' : (mret a : M A) h = (h', Ok b) -> h' = h /\ b = a.
Proof. intros H. by injection H as <- <-. Qed.

Lemma msr_write_inv core n v h h' u : msr_write (Some core) n v h = (h', Ok u) ->
  h' = HW (Write (MsrPort core n) v :: history h) (extenders h) (slots h).
Proof. intros E. by injection E as <- _. Qed.

(** A run that only reads: the writes stay as they were. *)
Definition reads_only {A} (m : M A) : Prop :=
  forall h h' a, m h = (h', Ok a) -> writes_of (history h') = writes_of (history h).

Section Writes.
Context {machine : Machine}.

Lemma reads_only_msr_read_into msr n old : reads_only (msr_read_into msr n old).
Proof. intros h h' a E. destruct msr; by injection E as <- _. Qed.

(** The enable bit of a selector. *)
Definition enabled (reg : Z) : Prop := get_field EventSelectRegister "enable" reg = 1.

Lemma EventSelectRegister_ok : well_formed EventSelectRegister = true.
Proof. vm_compute. reflexivity. Qed.

Lemma enabled_set name x reg : is_Some (Bits.index_of EventSelectRegister name 0) -> name <> "enable"%string ->
  fits 64 reg -> enabled reg -> enabled (set_field EventSelectRegister name x reg).
Proof.
  intros Hi Hn Hr He. unfold enabled. rewrite set_field_get_other; [|apply EventSelectRegister_ok|done|done].
  by rewrite wrapN_small.
Qed.

Lemma enabled_enable reg : enabled (set_field EventSelectRegister "enable" 1 reg).
Proof. unfold enabled. by rewrite (set_field_get _ _ _ _ 22 1) by (vm_compute; reflexivity). Qed.

Lemma event_field_fits name x reg : is_Some (Bits.index_of EventSelectRegister name 0) ->
  fits 64 (set_field EventSelectRegister name x reg).
Proof. apply set_field_fits, EventSelectRegister_ok. Qed.

Lemma setEvent_enabled reg event umask : enabled (setEvent reg event umask).
Proof.
  unfold setEvent. cbn [foldl fst snd].
  do 4 (apply enabled_set; [vm_compute; by eexists|discriminate|apply event_field_fits; vm_compute; by eexists|]).
  apply enabled_enable.
Qed.

(** Setting a field leaves the others. *)
Lemma field_kept name other x reg : is_Some (Bits.index_of EventSelectRegister other 0) -> name <> other ->
  fits 64 reg -> get_field EventSelectRegister name (set_field EventSelectRegister other x reg) =
    get_field EventSelectRegister name reg.
Proof.
  intros Hi Hn Hr. rewrite set_field_get_other; [|apply EventSelectRegister_ok|done|done]. by rewrite wrapN_small.
Qed.

(** The selector counts the event. *)
Definition selects (d : CustomCoreEventDescription) (reg : Z) : Prop :=
  get_field EventSelectRegister "event_select" reg = wrapN 8 (event_number d) /\
  get_field EventSelectRegister "umask" reg = wrapN 8 (umask_value d).

Lemma wrapN_8_64 x : wrapN 8 (u64 x) = wrapN 8 x.
Proof. apply Z.bits_inj'. intros i Hi. rewrite !testbit_wrapN by lia. destruct (Z.ltb_spec i 8), (Z.ltb_spec i 64); lia || done. Qed.

Lemma setEvent_selects reg d : selects d (setEvent reg (event_number d) (umask_value d)).
Proof.
  unfold selects, setEvent. cbn [foldl fst snd]. split.
  - do 12 (rewrite field_kept; [|vm_compute; by eexists|discriminate|apply event_field_fits; vm_compute; by eexists]).
    rewrite (set_field_get _ _ _ _ 0 8) by (vm_compute; reflexivity). apply wrapN_8_64.
  - do 11 (rewrite field_kept; [|vm_compute; by eexists|discriminate|apply event_field_fits; vm_compute; by eexists]).
    rewrite (set_field_get _ _ _ _ 8 8) by (vm_compute; reflexivity). apply wrapN_8_64.
Qed.

(** The selector of counter [j] is what the configuration or else the table asks for. *)
Definition chosen_from (cfg : option (list Z)) (desc : list CustomCoreEventDescription) (j : nat) (reg : Z) : Prop :=
  match cfg with
  | Some cfg => exists r, cfg !! j = Some r /\ reg = set_field EventSelectRegister "enable" 1 r
  | None => exists d, desc !! j = Some d /\ selects d reg
  end.

Definition chosen (s : core_settings) (mode_ : ProgramMode) (p : parameter) (j : nat) (reg : Z) : Prop :=
  if negb (hybrid s) || bool_decide (core_type s = Core)
  then chosen_from (d ← extended mode_ p; gpCounterCfg d) (coreEventDesc (cs_events s)) j reg
  else chosen_from (d ← extended mode_ p; gpCounterHybridAtomCfg d) (hybridAtomEventDesc (cs_events s)) j reg.

Lemma select_from_spec msr cfg desc j old h h' reg :
  select_from msr cfg desc j old h = (h', Ok reg) ->
  writes_of (history h') = writes_of (history h) /\ enabled reg /\ chosen_from cfg desc j reg.
Proof.
  unfold select_from, chosen_from. destruct cfg as [cfg|].
  - destruct (cfg !! j) as [r|]; [|done]. intros [-> ->]%M_ret_inv. split_and!; [done|apply enabled_enable|by eexists].
  - intros H. apply M_bind_inv in H as (h1 & v & E & H). apply reads_only_msr_read_into in E.
    destruct (desc !! j) as [d|]; [|done]. apply M_ret_inv in H as [-> ->].
    split_and!; [done|apply setEvent_enabled|]. exists d. split; [done|apply setEvent_selects].
Qed.

(** Away from hybrid processors whose core has no type every selector is chosen. *)
Definition typed (s : core_settings) : Prop := hybrid s = false \/ core_type s <> Invalid.

Lemma select_event_spec s msr mode_ p j old h h' reg : typed s ->
  select_event s msr mode_ p j old h = (h', Ok reg) ->
  writes_of (history h') = writes_of (history h) /\ enabled reg /\ chosen s mode_ p j reg.
Proof.
  intros Ht. unfold select_event, chosen.
  destruct (negb (hybrid s) || bool_decide (core_type s = Core)) eqn:E1; [apply select_from_spec|].
  destruct (bool_decide (core_type s = Atom)) eqn:E2; [apply select_from_spec|]. exfalso.
  apply orb_false_iff in E1 as [E1 E3%bool_decide_eq_false_1]. apply bool_decide_eq_false_1 in E2.
  destruct Ht as [Ht|Ht]; [by rewrite Ht in E1|]. by destruct (core_type s).
Qed.

Definition is_load_latency (p : parameter) (reg : Z) : bool :=
  match p with NoParameter => false | _ => true end &&
  (get_field EventSelectRegister "event_select" reg =? LOAD_LATENCY_EVTNR) &&
  (get_field EventSelectRegister "umask" reg =? LOAD_LATENCY_UMASK).

(** The counters from [j] on that sample load latencies. *)
Fixpoint pebs_mask (p : parameter) (j : nat) (regs : list Z) (mask : Z) : Z :=
  match regs with
  | [] => mask
  | reg :: regs' =>
      pebs_mask p (S j) regs' (if is_load_latency p reg then Z.lor mask (Z.shiftl 1 (Z.of_nat j)) else mask)
  end.

(** The counters from [j] on are reset and their selectors written. *)
Fixpoint selector_log (core : Z) (j : nat) (regs : list Z) : list (port * Z) :=
  match regs with
  | [] => []
  | reg :: regs' =>
      (MsrPort core (IA32_PMC0 + Z.of_nat j), 0) ::
      (MsrPort core (IA32_PERFEVTSEL0_ADDR + Z.of_nat j), reg) :: selector_log core (S j) regs'
  end.

Lemma program_counter_j_spec s core mode_ p tids j l h h' l' u :
  cs_canUsePerf s = false -> typed s ->
  program_counter_j s core (Some core) mode_ p tids j l h = (h', Ok (l', inl u)) ->
  exists reg, enabled reg /\ chosen s mode_ p j reg /\ result l' = result l ++ [reg] /\
    PEBSEnable l' = pebs_mask p j [reg] (PEBSEnable l) /\ global_ctrl_value l' = global_ctrl_value l /\
    writes_of (history h') = writes_of (history h) ++ selector_log core j [reg].
Proof.
  intros Hp Ht H. unfold program_counter_j in H. run_body H. run_prim E.
  apply lift_inv in E0 as [-> E0]. apply select_event_spec in E0 as (W & En & Ch); [|done]. run_prim E1.
  rewrite Hp in H. apply lift_inv in H as [-> H]. apply M_bind_inv in H as (h4 & [] & E3 & H).
  apply msr_write_inv in E3 as ->. apply msr_write_inv in H as ->.
  exists r0. split; [done|]. split; [done|]. unfold pebs_mask, is_load_latency.
  destruct (_ && _ && _); run_prim E2; cbn [result PEBSEnable set_PEBS push_result history];
    (split_and!; [done..|]); cbn [writes_of selector_log]; by rewrite <- W, <- app_assoc.
Qed.

Lemma counters_spec s core mode_ p tids n j l h h' l' u :
  cs_canUsePerf s = false -> typed s ->
  each (seq j n) (program_counter_j s core (Some core) mode_ p tids) l h = (h', Ok (l', inl u)) ->
  exists regs, length regs = n /\ Forall enabled regs /\
    (forall i reg, regs !! i = Some reg -> chosen s mode_ p (j + i) reg) /\ result l' = result l ++ regs /\
    PEBSEnable l' = pebs_mask p j regs (PEBSEnable l) /\ global_ctrl_value l' = global_ctrl_value l /\
    writes_of (history h') = writes_of (history h) ++ selector_log core j regs.
Proof.
  intros Hp Ht. revert j l h. induction n as [|n IH]; intros j l h H.
  - injection H as <- <- _. exists []. rewrite !app_nil_r. done.
  - cbn [seq each] in H. run_body H.
    apply program_counter_j_spec in E as (reg & En & Ch & R & P & G & W); [|done..].
    apply IH in H as (regs & Hl & En' & Ch' & R' & P' & G' & W'). exists (reg :: regs).
    rewrite R', P', G', W', R, P, G, W, <- !app_assoc. split_and!; try done; [simpl; by f_equal|by constructor|].
    intros [|i] reg1 Hi; [injection Hi as <-; by rewrite Nat.add_0_r|]. rewrite Nat.add_succ_r. by apply Ch'.
Qed.

(** The writes of an extended description. *)
Definition extra_log (core : Z) (mode_ : ProgramMode) (p : parameter) : list (port * Z) :=
  match extended mode_ p with
  | Some d =>
      (if OffcoreResponseMsrValue0 d =? 0 then [] else [(MsrPort core MSR_OFFCORE_RSP0, OffcoreResponseMsrValue0 d)]) ++
      (if OffcoreResponseMsrValue1 d =? 0 then [] else [(MsrPort core MSR_OFFCORE_RSP1, OffcoreResponseMsrValue1 d)]) ++
      (if LoadLatencyMsrValue d =? invalidMsrValue then [] else [(MsrPort core MSR_LOAD_LATENCY, LoadLatencyMsrValue d)]) ++
      (if FrontendMsrValue d =? invalidMsrValue then [] else [(MsrPort core MSR_FRONTEND, FrontendMsrValue d)])
  | None => []
  end.

(** Everything that is written to program a core with the selectors [regs]: all counters
    are stopped, the fixed counters and those of [regs] are reset and configured, and only
    then the counters are started. *)
Definition stop_log (core : Z) : list (port * Z) := [(MsrPort core IA32_CR_PERF_GLOBAL_CTRL, 0)].

Definition configure_log (s : core_settings) (core : Z) (mode_ : ProgramMode) (p : parameter) (regs : list Z)
    : list (port * Z) :=
  [(MsrPort core INST_RETIRED_ADDR, 0); (MsrPort core CPU_CLK_UNHALTED_THREAD_ADDR, 0);
   (MsrPort core CPU_CLK_UNHALTED_REF_ADDR, 0);
   (MsrPort core IA32_CR_FIXED_CTR_CTRL, initFixedCtrl mode_ p true (fixed3 s))] ++
  extra_log core mode_ p ++ selector_log core 0 regs ++
  (if fixed3 s then [(MsrPort core TOPDOWN_SLOTS_ADDR, 0)] else []) ++
  (if HWTMAL1 s then [(MsrPort core PERF_METRICS_ADDR, 0)] else []) ++
  [(MsrPort core IA32_PERF_GLOBAL_OVF_CTRL, global_ctrl s)].

Definition start_log (s : core_settings) (core : Z) : list (port * Z) :=
  [(MsrPort core IA32_CR_PERF_GLOBAL_CTRL, global_ctrl s)].

Definition pebs_log (core : Z) (p : parameter) (regs : list Z) : list (port * Z) :=
  if pebs_mask p 0 regs 0 =? 0 then [] else [(MsrPort core IA32_PEBS_ENABLE_ADDR, pebs_mask p 0 regs 0)].

Definition direct_log (s : core_settings) (core : Z) (mode_ : ProgramMode) (p : parameter) (regs : list Z)
    : list (port * Z) :=
  stop_log core ++ configure_log s core mode_ p regs ++ start_log s core ++ pebs_log core p regs.

(** A run that performs the writes [log]. *)
Definition performs {A} (log : list (port * Z)) (m : M A) : Prop :=
  forall h h' a, m h = (h', Ok a) -> writes_of (history h') = writes_of (history h) ++ log.

Lemma performs_write core n v : performs [(MsrPort core n, v)] (msr_write (Some core) n v).
Proof. intros h h' a E. by apply msr_write_inv in E as ->. Qed.

Lemma performs_ret {A} (a : A) : performs [] (mret a).
Proof. intros h h' b [-> _]%M_ret_inv. by rewrite app_nil_r. Qed.

Lemma performs_read core n old : performs [] (msr_read_into (Some core) n old).
Proof. intros h h' a E. rewrite app_nil_r. by eapply reads_only_msr_read_into. Qed.

Lemma performs_bind {A B} log1 log2 (m : M A) (f : A -> M B) :
  performs log1 m -> (forall a, performs log2 (f a)) -> performs (log1 ++ log2) (m ≫= f).
Proof.
  intros Hm Hf h h' b H. apply M_bind_inv in H as (h1 & a & E & H).
  rewrite (Hf a _ _ _ H), (Hm _ _ _ E). by rewrite <- app_assoc.
Qed.

Lemma performs_if {A} (b : bool) log (m1 m2 : M A) : performs log m1 -> performs [] m2 ->
  performs (if b then log else []) (if b then m1 else m2).
Proof. by destruct b. Qed.

Lemma performs_unless {A} (b : bool) log (m1 m2 : M A) : performs [] m1 -> performs log m2 ->
  performs (if b then [] else log) (if b then m1 else m2).
Proof. by destruct b. Qed.

Lemma program_fixed_direct_performs s core mode_ p :
  performs (stop_log core ++ take 4 (configure_log s core mode_ p [])) (program_fixed_direct s (Some core) mode_ p).
Proof.
  unfold program_fixed_direct, stop_log, configure_log. cbn [take app].
  apply (performs_bind [_] (_ :: _)); [apply performs_write|intros _].
  apply (performs_bind [] (_ :: _)); [apply performs_read|intros _].
  do 3 (apply (performs_bind [_] (_ :: _)); [apply performs_write|intros _]). apply performs_write.
Qed.

Lemma program_extra_performs core mode_ p : performs (extra_log core mode_ p) (program_extra (Some core) mode_ p).
Proof.
  unfold program_extra, extra_log. destruct (extended mode_ p) as [d|]; [|apply performs_ret].
  do 3 (apply performs_bind; [apply performs_unless; [apply performs_ret|apply performs_write]|intros _]).
  apply performs_unless; [apply performs_ret|apply performs_write].
Qed.

(** The last part, with the local variables it leaves alone. *)
Lemma start_direct_spec s core l h h' l' u : start_direct s (Some core) l h = (h', Ok (l', inl u)) ->
  result l' = result l /\ PEBSEnable l' = PEBSEnable l /\
  global_ctrl_value l' = (if global_ctrl_value l =? 0 then global_ctrl s else global_ctrl_value l) /\
  writes_of (history h') = writes_of (history h) ++
    (if fixed3 s then [(MsrPort core TOPDOWN_SLOTS_ADDR, 0)] else []) ++
    (if HWTMAL1 s then [(MsrPort core PERF_METRICS_ADDR, 0)] else []) ++
    [(MsrPort core IA32_PERF_GLOBAL_OVF_CTRL, global_ctrl s)] ++ start_log s core.
Proof.
  intros H. unfold start_direct in H. run_body H.
  assert (W1 : l0 = l /\ writes_of (history h0) = writes_of (history h) ++
    if fixed3 s then [(MsrPort core TOPDOWN_SLOTS_ADDR, 0)] else []).
  { destruct (fixed3 s); run_prim E; (split; [done|]); [done|by rewrite app_nil_r]. }
  destruct W1 as [-> W1].
  assert (W2 : l1 = l /\ writes_of (history h1) = writes_of (history h0) ++
    if HWTMAL1 s then [(MsrPort core PERF_METRICS_ADDR, 0)] else []).
  { destruct (HWTMAL1 s); run_prim E0; (split; [done|]); [done|by rewrite app_nil_r]. }
  destruct W2 as [-> W2]. run_prim E1. apply lift_inv in H as [-> H].
  rewrite (performs_bind [_] [_] _ _ (performs_write _ _ _) (fun _ => performs_write _ _ _) _ _ _ H), W2, W1.
  rewrite <- !app_assoc. by destruct (global_ctrl_value l =? 0).
Qed.

Lemma programCoreCounters_spec s core mode_ p tids l h h' l' e :
  cs_canUsePerf s = false -> typed s -> PEBSEnable l = 0 ->
  programCoreCounters s core (Some core) mode_ p tids l h = (h', Ok (l', inl e)) ->
  exists regs, result l' = result l ++ regs /\
    Z.of_nat (length regs) = Z.max 0 (core_gen_counter_num_used (cs_events s)) /\ Forall enabled regs /\
    (forall i reg, regs !! i = Some reg -> chosen s mode_ p i reg) /\
    e = Success /\ global_ctrl_value l' = (if global_ctrl_value l =? 0 then global_ctrl s else global_ctrl_value l) /\
    writes_of (history h') = writes_of (history h) ++ direct_log s core mode_ p regs.
Proof.
  intros Hp Ht H0 H. unfold programCoreCounters in H. rewrite Hp in H. run_body H.
  apply lift_inv in E as [-> E]. apply (program_fixed_direct_performs s) in E.
  apply lift_inv in E0 as [-> E0]. apply program_extra_performs in E0.
  apply counters_spec in E1 as (regs & Hl & En & Ch & R & P & G & W); [|done..].
  apply start_direct_spec in E2 as (R' & P' & G' & W'). run_prim E3.
  exists regs. rewrite H0 in P. rewrite P in P'.
  assert (HW' : writes_of (history h') = writes_of (history h3) ++ pebs_log core p regs /\
                result l' = result l3 /\ global_ctrl_value l' = global_ctrl_value l3).
  { unfold pebs_log. rewrite <- P'. destruct (PEBSEnable l3 =? 0).
    - run_prim E4. rewrite app_nil_r. by injection H as <- <- <-.
    - apply body_bind_inv in E4 as (h6 & l6 & u & E5 & E4). run_prim E5.
      apply lift_inv in E4 as [-> E4]. apply msr_write_inv in E4 as ->. by injection H as <- <- <-. }
  destruct HW' as (W2 & R2 & G2). split_and!; try done.
  - by rewrite R2, R', R.
  - lia.
  - by injection H as _ _ <-.
  - by rewrite G2, G', G.
  - rewrite W2, W', W, E0, E. unfold direct_log, configure_log. cbn [take app]. by rewrite <- !app_assoc.
Qed.

(** C3. [programCoreCounters] on the MSRs of a core performs exactly the writes of [direct_log],
    in this order: the counters are stopped first, every counter in use is reset before
    its selector is written, the extra MSRs of the events are set, and the counters are
    started last; load latency sampling is enabled when an event needs it. As many
    selectors are written as counters are used, each with its enable bit and the event that
    the caller's configuration, or else the table of events for the type of the core, has
    at its position; they are returned for the later check against corruption. *)
Theorem programCoreCounters_refines_log s core mode_ p tids l h h' l' e :
  cs_canUsePerf s = false -> typed s -> PEBSEnable l = 0 ->
  programCoreCounters s core (Some core) mode_ p tids l h = (h', Ok (l', inl e)) ->
  exists regs, result l' = result l ++ regs /\
    Z.of_nat (length regs) = Z.max 0 (core_gen_counter_num_used (cs_events s)) /\ Forall enabled regs /\
    (forall i reg, regs !! i = Some reg -> chosen s mode_ p i reg) /\
    e = Success /\ global_ctrl_value l' = (if global_ctrl_value l =? 0 then global_ctrl s else global_ctrl_value l) /\
    writes_of (history h') = writes_of (history h) ++ direct_log s core mode_ p regs.
Proof. apply programCoreCounters_spec. Qed.

End Writes.

(** * On a machine of plain memory *)

#[local] Existing Instance memory_machine.

(** What a cell holds after a list of writes. *)
Definition after_writes (log : list (port * Z)) (c : cell) (v : Z) : Z :=
  foldl (fun v w => default v (find_cell (footprint w.1 w.2) c)) v log.

Lemma load_after_writes h c : load h c = after_writes (writes_of h) c 0.
Proof.
  induction h as [|[p v|p] h IH]; [done| |done]. cbn [load writes_of]. unfold after_writes.
  rewrite foldl_app. cbn [foldl fst snd]. by rewrite IH.
Qed.

Lemma after_writes_app l1 l2 c v : after_writes (l1 ++ l2) c v = after_writes l2 c (after_writes l1 c v).
Proof. apply foldl_app. Qed.

(** MSR writes of a core, by address. *)
Definition avoids (core n : Z) (log : list (port * Z)) : Prop :=
  Forall (fun w => exists m, w.1 = MsrPort core m /\ m <> n) log.

Lemma after_writes_avoids core n log v : avoids core n log -> after_writes log (MsrCell core n) v = v.
Proof.
  unfold after_writes. intros H. revert v. induction H as [|[p x] log (m & Hp & Hm) _ IH]; intros v; [done|].
  cbn [foldl fst snd] in *. rewrite Hp. cbn [footprint find_cell].
  rewrite decide_False by (intros [=]; lia). apply IH.
Qed.

Lemma after_writes_here core n x log v : avoids core n log ->
  after_writes ((MsrPort core n, x) :: log) (MsrCell core n) v = x.
Proof.
  intros H. unfold after_writes. cbn [foldl fst snd footprint find_cell]. rewrite decide_True by done.
  by apply after_writes_avoids.
Qed.

Lemma selector_log_avoids core n j regs : (forall i, (i < length regs)%nat ->
    n <> IA32_PMC0 + Z.of_nat (j + i) /\ n <> IA32_PERFEVTSEL0_ADDR + Z.of_nat (j + i)) ->
  avoids core n (selector_log core j regs).
Proof.
  revert j. induction regs as [|reg regs IH]; intros j H; [constructor|]. cbn [selector_log].
  destruct (H O) as [H1 H2]; [simpl; lia|]. rewrite Nat.add_0_r in H1, H2.
  apply Forall_cons_2; [by eexists|]. apply Forall_cons_2; [by eexists|].
  apply IH. intros i Hi. specialize (H (S i)). rewrite Nat.add_succ_r in H. apply H. simpl. lia.
Qed.

(** Up to eight counters: their selectors and their values do not overlap. *)
Lemma selector_log_values core j regs i reg v : (j + length regs <= 8)%nat -> regs !! i = Some reg ->
  after_writes (selector_log core j regs) (MsrCell core (IA32_PERFEVTSEL0_ADDR + Z.of_nat (j + i))) v = reg /\
  after_writes (selector_log core j regs) (MsrCell core (IA32_PMC0 + Z.of_nat (j + i))) v = 0.
Proof.
  unfold IA32_PERFEVTSEL0_ADDR, IA32_PMC0.
  revert j i v. induction regs as [|r regs IH]; intros j i v Hj Hi; [done|]. simpl in Hj. cbn [selector_log].
  destruct i as [|i].
  - injection Hi as ->. rewrite Nat.add_0_r. split.
    + change (?a :: ?b :: ?l) with ([a] ++ b :: l). rewrite after_writes_app. apply after_writes_here.
      apply selector_log_avoids. unfold IA32_PERFEVTSEL0_ADDR, IA32_PMC0. lia.
    + apply after_writes_here. apply Forall_cons_2; [eexists; split; [done|unfold IA32_PERFEVTSEL0_ADDR; lia]|].
      apply selector_log_avoids. unfold IA32_PERFEVTSEL0_ADDR, IA32_PMC0. lia.
  - change (?a :: ?b :: ?l) with ([a; b] ++ l). rewrite Nat.add_succ_r, <- Nat.add_succ_l, !after_writes_app.
    split; eapply IH; (lia || done).
Qed.

(** The addresses of the selectors and values of eight counters lie apart from all others. *)
Definition counter_address (n : Z) : Prop := 0xC1 <= n < 0xC9 \/ 0x186 <= n < 0x18E.

Lemma avoids_if core n (b : bool) log1 log2 : avoids core n log1 -> avoids core n log2 ->
  avoids core n (if b then log1 else log2).
Proof. by destruct b. Qed.

Lemma avoids_one core n m v : m <> n -> avoids core n [(MsrPort core m, v)].
Proof. intros Hm. apply Forall_cons_2; [by eexists|constructor]. Qed.

Lemma avoids_nil core n : avoids core n [].
Proof. constructor. Qed.

Lemma avoids_app core n l1 l2 : avoids core n l1 -> avoids core n l2 -> avoids core n (l1 ++ l2).
Proof. apply Forall_app_2. Qed.

Lemma avoids_extra core n mode_ p : 
  n <> MSR_OFFCORE_RSP0 -> n <> MSR_OFFCORE_RSP1 -> n <> MSR_LOAD_LATENCY -> n <> MSR_FRONTEND ->
  avoids core n (extra_log core mode_ p).
Proof.
  intros. unfold extra_log. destruct (extended mode_ p); [|apply avoids_nil].
  repeat apply avoids_app; apply avoids_if; (apply avoids_nil || by apply avoids_one, not_eq_sym).
Qed.

Lemma direct_log_split s core mode_ p regs :
  direct_log s core mode_ p regs =
    (stop_log core ++ take 4 (configure_log s core mode_ p []) ++ extra_log core mode_ p) ++
    selector_log core 0 regs ++
    ((if fixed3 s then [(MsrPort core TOPDOWN_SLOTS_ADDR, 0)] else []) ++
     (if HWTMAL1 s then [(MsrPort core PERF_METRICS_ADDR, 0)] else []) ++
     [(MsrPort core IA32_PERF_GLOBAL_OVF_CTRL, global_ctrl s)]) ++ start_log s core ++ pebs_log core p regs.
Proof. unfold direct_log, configure_log. cbn [take app]. by rewrite <- !(assoc_L (++)). Qed.

(** Addresses of the configuration: the constants by value. *)
Ltac address := unfold counter_address, stop_log, start_log, pebs_log, configure_log, TOPDOWN_SLOTS_ADDR,
  PERF_METRICS_ADDR, IA32_PERF_GLOBAL_OVF_CTRL, IA32_CR_PERF_GLOBAL_CTRL, IA32_PEBS_ENABLE_ADDR,
  IA32_PERFEVTSEL0_ADDR, IA32_PMC0, IA32_CR_FIXED_CTR_CTRL, INST_RETIRED_ADDR, CPU_CLK_UNHALTED_THREAD_ADDR,
  CPU_CLK_UNHALTED_REF_ADDR, MSR_OFFCORE_RSP0, MSR_OFFCORE_RSP1, MSR_LOAD_LATENCY, MSR_FRONTEND in *.
Ltac avoid :=
  repeat apply avoids_app; try apply avoids_if; (apply avoids_nil || apply avoids_one; lia).

Lemma direct_log_counter s core mode_ p regs i reg v :
  (length regs <= 8)%nat -> regs !! i = Some reg ->
  after_writes (direct_log s core mode_ p regs) (MsrCell core (IA32_PERFEVTSEL0_ADDR + Z.of_nat i)) v = reg /\
  after_writes (direct_log s core mode_ p regs) (MsrCell core (IA32_PMC0 + Z.of_nat i)) v = 0.
Proof.
  intros Hl Hi. pose proof (lookup_lt_Some _ _ _ Hi) as Hlt. rewrite direct_log_split, !after_writes_app.
  rewrite !(after_writes_avoids _ _ (pebs_log _ _ _)), !(after_writes_avoids _ _ (start_log _ _)),
    !(after_writes_avoids _ _ [(MsrPort _ IA32_PERF_GLOBAL_OVF_CTRL, _)]), !(after_writes_avoids _ _ (if (_ : bool) then _ else _))
    by (address; avoid).
  assert (Hl' : (0 + length regs <= 8)%nat) by lia.
  split; [exact (proj1 (selector_log_values core 0 regs i reg _ Hl' Hi))|
          exact (proj2 (selector_log_values core 0 regs i reg _ Hl' Hi))].
Qed.

Lemma direct_log_global s core mode_ p regs v :
  after_writes (direct_log s core mode_ p regs) (MsrCell core IA32_CR_PERF_GLOBAL_CTRL) v = global_ctrl s.
Proof.
  rewrite direct_log_split, !after_writes_app. rewrite (after_writes_avoids _ _ (pebs_log _ _ _)) by (address; avoid).
  apply after_writes_here, avoids_nil.
Qed.

Lemma direct_log_fixed s core mode_ p regs v : (length regs <= 8)%nat ->
  after_writes (direct_log s core mode_ p regs) (MsrCell core IA32_CR_FIXED_CTR_CTRL) v =
    initFixedCtrl mode_ p true (fixed3 s).
Proof.
  intros Hl. rewrite direct_log_split, !after_writes_app.
  rewrite !(after_writes_avoids _ _ (if (_ : bool) then _ else _)), !(after_writes_avoids _ _ (pebs_log _ _ _)),
    !(after_writes_avoids _ _ (start_log _ _)), !(after_writes_avoids _ _ [(MsrPort _ IA32_PERF_GLOBAL_OVF_CTRL, _)])
    by (address; avoid).
  rewrite (after_writes_avoids _ _ (selector_log _ _ _)) by (apply selector_log_avoids; address; lia).
  rewrite (after_writes_avoids _ _ (extra_log _ _ _)) by (apply avoids_extra; address; lia).
  change (take 4 _) with ([(MsrPort core INST_RETIRED_ADDR, 0); (MsrPort core CPU_CLK_UNHALTED_THREAD_ADDR, 0);
    (MsrPort core CPU_CLK_UNHALTED_REF_ADDR, 0)] ++
    [(MsrPort core IA32_CR_FIXED_CTR_CTRL, initFixedCtrl mode_ p true (fixed3 s))]).
  rewrite after_writes_app. apply after_writes_here, avoids_nil.
Qed.

(** ** The check against corruption *)

(** The bits of the mask are the counters whose selector differs from the expected one. *)
Lemma memory_check core ctr expected mask h :
  (ctr + length expected <= 32)%nat ->
  exists h' m, check_programming core ctr expected mask h = (h', Ok m) /\
    (forall i, 0 <= i -> Z.testbit m i = Z.testbit mask i ||
      match expected !! (Z.to_nat i - ctr)%nat with
      | Some e => (Z.of_nat ctr <=? i) && negb (load (history h) (MsrCell core (IA32_PERFEVTSEL0_ADDR + i)) =? e)
      | None => false
      end).
Proof.
  revert ctr mask h. induction expected as [|e expected IH]; intros ctr mask h Hl.
  - exists h, mask. split; [done|]. intros i Hi. by rewrite orb_false_r.
  - simpl in Hl. cbn [check_programming].
    unfold msr_read_checked, access_read, mbind, M_bind, respond, memory_machine. cbn [history].
    set (c := MsrCell core (IA32_PERFEVTSEL0_ADDR + Z.of_nat ctr)).
    set (mask' := if negb (load (history h) c =? e) then _ else mask).
    destruct (IH (S ctr) mask' (HW (Read (MsrPort core (IA32_PERFEVTSEL0_ADDR + Z.of_nat ctr)) :: history h) (extenders h) (slots h)))
      as (h' & m & E & Hm); [lia|].
    exists h', m. split; [exact E|]. intros i Hi. rewrite Hm by done. cbn [history load]. unfold mask'.
    destruct (Z.eq_dec i (Z.of_nat ctr)) as [->|Hne].
    + replace (Z.to_nat (Z.of_nat ctr) - S ctr)%nat with 0%nat by lia.
      replace (Z.to_nat (Z.of_nat ctr) - ctr)%nat with 0%nat by lia. cbn [lookup list_lookup]. fold c.
      rewrite Z.leb_refl. destruct (Z.leb_spec (Z.of_nat (S ctr)) (Z.of_nat ctr)); [lia|].
      destruct (load (history h) c =? e); cbn [negb andb].
      * destruct (expected !! 0%nat); by rewrite ?orb_false_r.
      * rewrite Z.lor_spec, testbit_wrapN by lia. rewrite Z.shiftl_spec, Z.sub_diag by lia.
        destruct (Z.ltb_spec (Z.of_nat ctr) 32); [|lia]. cbn [andb]. change (Z.testbit 1 0) with true.
        by rewrite !orb_true_r.
    + assert (Hb : Z.testbit (if negb (load (history h) c =? e) then Z.lor mask (u32 (Z.shiftl 1 (Z.of_nat ctr))) else mask) i
                   = Z.testbit mask i).
      { destruct (negb _); [|done]. rewrite Z.lor_spec, testbit_wrapN, Z.shiftl_spec by lia.
        change 1 with (2 ^ 0). rewrite Z.pow2_bits_false by lia. by rewrite andb_false_r, orb_false_r. }
      rewrite Hb. f_equal. destruct (Z.ltb_spec i (Z.of_nat ctr)).
      * replace (Z.to_nat i - S ctr)%nat with 0%nat by lia. replace (Z.to_nat i - ctr)%nat with 0%nat by lia.
        destruct (Z.leb_spec (Z.of_nat (S ctr)) i), (Z.leb_spec (Z.of_nat ctr) i); try lia. cbn [andb].
        destruct (expected !! 0%nat); by destruct ((e :: expected) !! 0%nat).
      * replace (Z.to_nat i - ctr)%nat with (S (Z.to_nat i - S ctr)) by lia. cbn [lookup list_lookup].
        destruct (Z.leb_spec (Z.of_nat (S ctr)) i), (Z.leb_spec (Z.of_nat ctr) i); try lia. done.
Qed.

Lemma global_ctrl_bit s i : 0 <= i < core_gen_counter_num_used (cs_events s) -> Z.testbit (global_ctrl s) i = true.
Proof.
  intros Hi. unfold global_ctrl. generalize (if isAtom (cs_model s) || (cs_model s =? KNL) then Z.lor 3 (Z.shiftl 7 32)
    else if HWTMAL1 s then Z.lor (if fixed3 s then Z.lor (Z.lor 15 (Z.shiftl 7 32)) (Z.shiftl 1 35)
    else Z.lor 15 (Z.shiftl 7 32)) (Z.shiftl 1 48) else if fixed3 s then Z.lor (Z.lor 15 (Z.shiftl 7 32)) (Z.shiftl 1 35)
    else Z.lor 15 (Z.shiftl 7 32)). intros v.
  assert (Hin : In (Z.to_nat i) (seq 0 (Z.to_nat (core_gen_counter_num_used (cs_events s))))) by (apply in_seq; lia).
  revert v Hin. generalize (seq 0 (Z.to_nat (core_gen_counter_num_used (cs_events s)))).
  assert (Hset : forall l v, Z.testbit v i = true -> Z.testbit (foldl (fun v j => Z.lor v (Z.shiftl 1 (Z.of_nat j))) v l) i = true).
  { induction l as [|x l IH]; intros v Hv; [done|]. simpl. apply IH. by rewrite Z.lor_spec, Hv. }
  induction l as [|x l IH]; intros v Hin; [done|]. simpl. destruct Hin as [->|Hin]; [|by apply IH].
  apply Hset. rewrite Z.lor_spec, Z.shiftl_spec, Z2Nat.id, Z.sub_diag by lia. apply orb_true_r.
Qed.

(** A core that was programmed through its MSRs counts what it was told to: every counter
    starts at 0 and is enabled in its selector and globally; the check against corruption
    finds all selectors as programmed; and once another program overwrites the selector of
    one counter, the check reports exactly this counter. *)
Theorem programmed_core_is_checked s core mode_ p tids l h h' l' e ctx :
  cs_canUsePerf s = false -> typed s -> PEBSEnable l = 0 -> result l = [] ->
  core_gen_counter_num_used (cs_events s) <= 8 ->
  programCoreCounters s core (Some core) mode_ p tids l h = (h', Ok (l', inl e)) ->
  canUsePerf (ctx_widths ctx) = false -> lastProgrammedCustomCounters ctx = result l' ->
  (forall i, 0 <= i < core_gen_counter_num_used (cs_events s) ->
     load (history h') (MsrCell core (IA32_PMC0 + i)) = 0 /\
     enabled (load (history h') (MsrCell core (IA32_PERFEVTSEL0_ADDR + i))) /\
     Z.testbit (load (history h') (MsrCell core IA32_CR_PERF_GLOBAL_CTRL)) i = true) /\
  (checkCustomCoreProgramming ctx core h').2 = Ok 0 /\
  (forall i v, 0 <= i < core_gen_counter_num_used (cs_events s) ->
     v <> load (history h') (MsrCell core (IA32_PERFEVTSEL0_ADDR + i)) ->
     (checkCustomCoreProgramming ctx core
        (HW (Write (MsrPort core (IA32_PERFEVTSEL0_ADDR + i)) v :: history h') (extenders h') (slots h'))).2 = Ok (2 ^ i)).
Proof.
  intros Hp Ht H0 Hr Hu H Hctx Hlast.
  apply programCoreCounters_spec in H as (regs & R & Hl & En & _ & _ & _ & W); [|done..].
  rewrite Hr in R. cbn [app] in R. rewrite R in Hlast.
  assert (Hval : forall i reg, regs !! i = Some reg ->
    load (history h') (MsrCell core (IA32_PERFEVTSEL0_ADDR + Z.of_nat i)) = reg /\
    load (history h') (MsrCell core (IA32_PMC0 + Z.of_nat i)) = 0).
  { intros i reg Hi. rewrite !load_after_writes, W, !after_writes_app.
    pose proof (fun v => direct_log_counter s core mode_ p regs i reg v ltac:(lia) Hi) as Hc.
    split; [apply (Hc _)|apply (Hc _)]. }
  assert (Hsome : forall i, 0 <= i < core_gen_counter_num_used (cs_events s) -> exists reg, regs !! Z.to_nat i = Some reg).
  { intros i Hi. destruct (lookup_lt_is_Some_2 regs (Z.to_nat i)); [lia|eauto]. }
  split_and!.
  - intros i Hi. destruct (Hsome i Hi) as [reg Hreg]. pose proof (Hval _ _ Hreg) as [H1 H2].
    rewrite Z2Nat.id in H1, H2 by lia. rewrite H1. split_and!; [done|by eapply Forall_lookup_1|].
    rewrite load_after_writes, W, after_writes_app, direct_log_global. by apply global_ctrl_bit.
  - unfold checkCustomCoreProgramming. rewrite Hctx, Hlast.
    destruct (memory_check core 0 regs 0 h') as (h2 & m & -> & Hm); [lia|]. cbn [snd]. f_equal.
    apply Z.bits_inj'. intros i Hi. rewrite Hm by done. rewrite Z.bits_0, Nat.sub_0_r. cbn [orb].
    destruct (regs !! Z.to_nat i) as [reg|] eqn:Hreg; [|done]. pose proof (Hval _ _ Hreg) as [H1 _].
    rewrite Z2Nat.id in H1 by lia. by rewrite H1, Z.eqb_refl, andb_false_r.
  - intros i v Hi Hv. unfold checkCustomCoreProgramming. rewrite Hctx, Hlast.
    set (h2 := HW _ _ _). destruct (memory_check core 0 regs 0 h2) as (h3 & m & -> & Hm); [lia|]. cbn [snd]. f_equal.
    apply Z.bits_inj'. intros k Hk. rewrite Hm by done. rewrite Z.bits_0, Nat.sub_0_r. cbn [orb].
    destruct (regs !! Z.to_nat k) as [reg|] eqn:Hreg.
    + pose proof (Hval _ _ Hreg) as [H1 _]. rewrite Z2Nat.id in H1 by lia.
      destruct (Z.leb_spec (Z.of_nat 0) k); [|lia]. cbn [andb]. unfold h2. cbn [history].
      destruct (Z.eq_dec k i) as [->|Hne].
      * rewrite Z.pow2_bits_true by lia. cbn [load footprint find_cell]. rewrite decide_True by done. cbn [default].
        rewrite H1 in Hv. by destruct (Z.eqb_spec (id v) reg).
      * rewrite Z.pow2_bits_false by lia. rewrite load_other, H1, Z.eqb_refl; [done|].
        simpl. intros Hin. apply list_elem_of_singleton in Hin. injection Hin. lia.
    + rewrite Z.pow2_bits_false; [done|]. intros <-. destruct (Hsome i Hi) as [? Hs]. by rewrite Hs in Hreg.
Qed.

(** Counter 1 reprogrammed by somebody else on a processor with two counters. *)
Definition example_settings : core_settings :=
  CoreSettings false SANDY_BRIDGE false Core (apply_choice (default_events SANDY_BRIDGE 4) zeroed_events) 3 false false
    false (fun _ => []).

Definition example_locals : locals := Locals [] 0 0 (-1) [] [] ∅ 0 false.

Definition example_ctx (regs : list Z) : core_context :=
  CoreContext (Widths false 48 48 48 48) 0x70000000F 2 regs no_perf false false false false false None 0 None None true 0 true [].

Lemma programCoreCounters_refines_log_witness :
  exists h' l' regs, result l' = regs /\ length regs = 2%nat /\ Forall enabled regs /\
    writes_of (history h') = direct_log example_settings 5 DEFAULT_EVENTS NoParameter regs.
Proof.
  destruct (programCoreCounters_refines_log example_settings 5 DEFAULT_EVENTS NoParameter [] example_locals (HW [] ∅ ∅)
    (@programCoreCounters memory_machine example_settings 5 (Some 5) DEFAULT_EVENTS NoParameter [] example_locals (HW [] ∅ ∅)).1
    (match (@programCoreCounters memory_machine example_settings 5 (Some 5) DEFAULT_EVENTS NoParameter []
              example_locals (HW [] ∅ ∅)).2
     with Ok (l, _) => l | Throw _ => example_locals end) Success) as (regs & H1 & H2 & H3 & _ & _ & _ & H4);
    [reflexivity|by left|reflexivity|vm_compute; reflexivity|].
  eexists _, _, regs. split; [exact H1|]. split; [|split; [exact H3|exact H4]].
  apply Nat2Z.inj. rewrite H2. reflexivity.
Defined.

Lemma programmed_core_is_checked_witness :
  exists h' regs,
    (checkCustomCoreProgramming (example_ctx regs) 5 h').2 = Ok 0 /\
    (checkCustomCoreProgramming (example_ctx regs) 5
       (HW (Write (MsrPort 5 0x187) 0 :: history h') (extenders h') (slots h'))).2 = Ok 2 /\
    regs = [0x43412E; 0x434F2E].
Proof.
  eexists _, _.
  epose proof (programmed_core_is_checked example_settings 5 DEFAULT_EVENTS NoParameter [] example_locals (HW [] ∅ ∅)
    _ _ _ (example_ctx [0x43412E; 0x434F2E])) as H.
  destruct H as (_ & H2 & H3); [reflexivity|by left|reflexivity|reflexivity|vm_compute; discriminate
    |vm_compute; reflexivity|reflexivity|reflexivity|].
  split_and!; [exact H2| |reflexivity]. apply (H3 1 0); [vm_compute; split; congruence|vm_compute; discriminate].
Defined.

(** * Sharing the unit with other programs *)

Section Sharing.
Context {machine : Machine}.

Lemma reads_only_ret {A} (a : A) : reads_only (mret a).
Proof. by intros h h' b [-> _]%M_ret_inv. Qed.

Lemma reads_only_bind {A B} (m : M A) (f : A -> M B) :
  reads_only m -> (forall a, reads_only (f a)) -> reads_only (m ≫= f).
Proof.
  intros Hm Hf h h' b H. apply M_bind_inv in H as (h1 & a & E & H).
  by rewrite (Hf a _ _ _ H), (Hm _ _ _ E).
Qed.

Lemma reads_only_if {A} (b : bool) (m1 m2 : M A) : reads_only m1 -> reads_only m2 -> reads_only (if b then m1 else m2).
Proof. by destruct b. Qed.

Lemma reads_only_selectors msr w j n old : reads_only (selectors_in_use msr w j n old).
Proof.
  revert j old. induction n as [|n IH]; intros j old; cbn [selectors_in_use]; [apply reads_only_ret|].
  apply reads_only_bind; [apply reads_only_msr_read_into|intros reg].
  apply reads_only_if; [apply reads_only_if; [apply IH|apply reads_only_ret]|apply IH].
Qed.

Lemma reads_only_core_in_use pf msr w : reads_only (core_in_use pf msr w).
Proof.
  unfold core_in_use. apply reads_only_bind; [apply reads_only_if|intros _].
  - apply reads_only_bind; [apply reads_only_msr_read_into|intros _; apply reads_only_ret].
  - apply reads_only_ret.
  - apply reads_only_bind; [apply reads_only_msr_read_into|intros _].
    apply reads_only_bind; [apply reads_only_selectors|intros busy]. apply reads_only_if; [apply reads_only_ret|].
    apply reads_only_bind; [apply reads_only_msr_read_into|intros reg; apply reads_only_ret].
Qed.

Lemma reads_only_PMUinUse pf st : reads_only (PMUinUse pf st).
Proof.
  unfold PMUinUse. induction (MSR pf) as [|msr l IH]; cbn [cores_in_use]; [apply reads_only_ret|].
  apply reads_only_bind; [apply reads_only_core_in_use|intros busy]. apply reads_only_if; [apply reads_only_ret|done].
Qed.

(** Only file descriptors are closed. *)
Definition only_closes (h h' : hw) : Prop :=
  exists log, writes_of (history h') = writes_of (history h) ++ log /\
    Forall (fun w => exists fd, w.1 = FileDescriptor fd) log.

Lemma only_closes_refl h h' : writes_of (history h') = writes_of (history h) -> only_closes h h'.
Proof. intros E. exists []. by rewrite app_nil_r. Qed.

Lemma only_closes_trans h1 h2 h3 : only_closes h1 h2 -> only_closes h2 h3 -> only_closes h1 h3.
Proof.
  intros (l1 & E1 & F1) (l2 & E2 & F2). exists (l1 ++ l2). rewrite E2, E1, app_assoc.
  split; [done|by apply Forall_app_2].
Qed.

Lemma only_closes_forM {A} (l : list A) (f : A -> M unit) :
  (forall a h h' u, f a h = (h', Ok u) -> only_closes h h') ->
  forall h h' u, forM l f h = (h', Ok u) -> only_closes h h'.
Proof.
  intros Hf. induction l as [|a l IH]; intros h h' u H.
  - apply M_ret_inv in H as [-> _]. by apply only_closes_refl.
  - cbn [forM] in H. apply M_bind_inv in H as (h1 & v & E & H).
    eapply only_closes_trans; [by eapply Hf|by eapply IH].
Qed.

Lemma closePerfHandles_closes st h h' st' : closePerfHandles st h = (h', Ok st') ->
  only_closes h h' /\ programmed_core_pmu st' = programmed_core_pmu st /\ events st' = events st /\
  mode st' = mode st /\ pmu_canUsePerf st' = pmu_canUsePerf st /\
  needToRestoreNMIWatchdog st' = needToRestoreNMIWatchdog st /\ lastProgrammed st' = lastProgrammed st /\
  (pmu_canUsePerf st = true -> pmu_task_handles st' = []) /\ (pmu_canUsePerf st = false -> h' = h /\ st' = st).
Proof.
  assert (Hone : forall handles h h' u, close_all handles h = (h', Ok u) -> only_closes h h').
  { intros handles. unfold close_all. apply only_closes_forM. intros a h1 h2 u.
    destruct (a =? -1); intros E; [apply M_ret_inv in E as [-> _]; by apply only_closes_refl|].
    injection E as <- _. exists [(FileDescriptor a, 0)]. split; [done|]. repeat constructor. by eexists. }
  unfold closePerfHandles. destruct (pmu_canUsePerf st) eqn:Hp; intros H.
  - apply M_bind_inv in H as (h1 & ? & E1 & H). apply M_bind_inv in H as (h2 & ? & E2 & H).
    apply M_ret_inv in H as [-> ->]. split_and!; try done. eapply only_closes_trans.
    + eapply only_closes_forM; [|exact E1]. intros; by eapply Hone.
    + eapply only_closes_forM; [|exact E2]. intros cores h3 h4 v E. eapply only_closes_forM; [|exact E].
      intros; by eapply Hone.
  - apply M_ret_inv in H as [-> ->]. split_and!; try done. by apply only_closes_refl.
Qed.

(** The body returns early only with [UnknownError]. *)
Definition fails_unknown {A} (m : body A) : Prop :=
  forall l h h' l' e, m l h = (h', Ok (l', inr e)) -> e = UnknownError.

Lemma fails_bind {A B} (m : body A) (f : A -> body B) :
  fails_unknown m -> (forall a, fails_unknown (f a)) -> fails_unknown (m ≫= f).
Proof.
  intros Hm Hf l h h' l' e H. unfold mbind, body_bind in H. apply M_bind_inv in H as (h1 & [l1 [a|e1]] & E & H).
  - by eapply Hf.
  - apply M_ret_inv in H as [-> [= -> ->]]. by eapply Hm.
Qed.

Lemma fails_lift {A} (m : M A) : fails_unknown (lift m).
Proof. intros l h h' l' e H. apply M_bind_inv in H as (h1 & a & E & H). by apply M_ret_inv in H as [_ H]. Qed.

Lemma fails_ret {A} (a : A) : fails_unknown (mret a).
Proof. intros l h h' l' e H. by apply M_ret_inv in H as [_ H]. Qed.

Lemma fails_get : fails_unknown get.
Proof. intros l h h' l' e H. by apply M_ret_inv in H as [_ H]. Qed.

Lemma fails_modify f : fails_unknown (modify f).
Proof. intros l h h' l' e H. by apply M_ret_inv in H as [_ H]. Qed.

Lemma fails_return {A} : fails_unknown (@return_ A UnknownError).
Proof. intros l h h' l' e H. apply M_ret_inv in H as [_ H]. by injection H. Qed.

Lemma fails_if {A} (b : bool) (m1 m2 : body A) : fails_unknown m1 -> fails_unknown m2 -> fails_unknown (if b then m1 else m2).
Proof. by destruct b. Qed.

Lemma fails_each {A} (l : list A) f : (forall a, fails_unknown (f a)) -> fails_unknown (each l f).
Proof. intros Hf. induction l; [apply fails_ret|]. by apply fails_bind. Qed.

Lemma fails_programPerfEvent core tids e pos : fails_unknown (programPerfEvent core tids e pos).
Proof.
  apply fails_bind; [apply fails_get|intros l]. destruct tids as [|t tids];
    (apply fails_bind; [apply fails_lift|intros r]); (apply fails_bind; [apply fails_modify|intros _]);
    (apply fails_if; [apply fails_ret|apply fails_return]).
Qed.

Lemma fails_top_down s core tids l readPos : fails_unknown (program_top_down s core tids l readPos).
Proof.
  revert readPos. induction l as [|[path pos] l IH]; intros readPos; [apply fails_ret|]. cbn [program_top_down].
  destruct (top_down_tokens _ 0 0) as [[? ?]|]; [|apply fails_return].
  apply fails_bind; [apply fails_programPerfEvent|intros _].
  do 2 (apply fails_bind; [apply fails_modify|intros _]). apply IH.
Qed.

Lemma programCoreCounters_fails s core msr mode_ p tids : fails_unknown (programCoreCounters s core msr mode_ p tids).
Proof.
  unfold programCoreCounters, program_fixed_perf, program_counter_j, start_direct, start_perf.
  repeat first [apply fails_if|apply fails_lift|apply fails_ret|apply fails_get|apply fails_modify
    |apply fails_programPerfEvent|apply fails_top_down|apply fails_each; intros ?|apply fails_bind; [|intros ?]].
Qed.

Lemma programCoreCounters_success s core msr mode_ p tids l h h' l' e :
  programCoreCounters s core msr mode_ p tids l h = (h', Ok (l', inl e)) -> e = Success.
Proof.
  intros H. unfold programCoreCounters in H. run_body H. by apply M_ret_inv in H as [_ [= _ ->]].
Qed.

Lemma program_cores_status os pf cores mode_ p tids st h h' r :
  program_cores os pf cores mode_ p tids st h = (h', Ok r) ->
  Forall (fun e => e = Success \/ e = UnknownError) r.2.
Proof.
  revert st h h' r. induction cores as [|i cores IH]; intros st h h' r H; cbn [program_cores] in H.
  - by apply M_ret_inv in H as [_ ->].
  - destruct (isCoreOnline pf i); [|by eapply IH].
    apply M_bind_inv in H as (h1 & [l e] & E & H). apply M_bind_inv in H as (h2 & r' & E' & H).
    apply M_ret_inv in H as [_ ->]. cbn [snd]. constructor; [|by eapply IH].
    destruct e as [e|e]; [left; by eapply programCoreCounters_success|right; by eapply programCoreCounters_fails].
Qed.

Lemma first_failure_status l : Forall (fun e => e = Success \/ e = UnknownError) l ->
  first_failure l = Success \/ first_failure l = UnknownError.
Proof. induction 1 as [|e l He _ IH]; [by left|]. simpl. case_bool_decide; [done|]. destruct He; [done|by right]. Qed.

(** A unit that another program uses is left alone: when [program] answers [PMUBusy], no
    register was written - at most the perf handles of an earlier run were closed -, no
    counters were programmed before, and neither the events nor the selectors to check
    have changed. *)
Theorem busy_unit_untouched os pf mode_ p pid st h h' st' :
  program_core os pf mode_ p pid st h = (h', Ok (st', PMUBusy)) ->
  only_closes h h' /\ programmed_core_pmu st = false /\ programmed_core_pmu st' = false /\
  events st' = events st /\ lastProgrammed st' = lastProgrammed st.
Proof.
  unfold program_core. cbv zeta. set (st0 := if _ && negb (keepNMIWatchdogEnabled os) then with_watchdog true st else st).
  assert (H0 : programmed_core_pmu st0 = programmed_core_pmu st /\ events st0 = events st /\
    lastProgrammed st0 = lastProgrammed st) by (by subst st0; destruct (_ && _)).
  destruct H0 as (P0 & E0 & L0). clearbody st0. intros H.
  destruct (bool_decide (MSR pf = [])); [by apply M_ret_inv in H as [_ ?]|].
  apply M_bind_inv in H as (h1 & st1 & E & H). apply closePerfHandles_closes in E as (C1 & P1 & E1 & M1 & _ & _ & L1 & _).
  destruct (_ && is_one (PCM_NO_MSR os)); [by apply M_ret_inv in H as [_ ?]|].
  apply M_bind_inv in H as (h2 & busy & E & H). destruct busy.
  - apply M_ret_inv in H as [-> H]. injection H as ->. cbn [events lastProgrammed programmed_core_pmu with_perf] in *.
    destruct (negb (programmed_core_pmu st1)) eqn:Hn; [|by apply M_ret_inv in E as [_ ?]].
    apply negb_true_iff in Hn. cbn [andb] in E. destruct (negb _); [|by apply M_ret_inv in E as [_ ?]].
    apply reads_only_PMUinUse in E. split_and!; [|congruence..].
    eapply only_closes_trans; [done|by apply only_closes_refl].
  - exfalso. destruct (choose_events pf mode_ p _) as [[e|]|]; [| |done].
    + apply M_bind_inv in H as (h3 & ? & _ & H). destruct (negb (check_resources _ _ _ _)); [by apply M_ret_inv in H as [_ ?]|].
      destruct (find_tids os pid); [|by apply M_ret_inv in H as [_ ?]].
      apply M_bind_inv in H as (h4 & r & Er & H). apply program_cores_status in Er.
      destruct (first_failure_status _ Er) as [Es|Es]; rewrite Es in H; by apply M_ret_inv in H as [_ ?].
    + by apply M_ret_inv in H as [_ ?].
Qed.

End Sharing.

(** ** Programming all cores through their MSRs *)

(** The handles to the MSRs are those of the cores' own numbers. *)
Definition own_handles (pf : platform) : Prop :=
  forall i c, MSR_at pf i = Some c -> c = Z.of_nat i.

Definition all_typed (pf : platform) : Prop :=
  pf_hybrid pf = false \/ forall i, isCoreOnline pf i = true -> nth i (core_types pf) Invalid <> Invalid.

(** The logs of some cores, one after the other. *)
Definition cores_log (S : nat -> core_settings) (mode_ : ProgramMode) (p : parameter) (runs : list (nat * list Z))
    : list (port * Z) :=
  concat (map (fun r => direct_log (S r.1) (Z.of_nat r.1) mode_ p r.2) runs).

Section Cores.
Context {machine : Machine} (os : linux) (pf : platform).
Hypotheses (own : own_handles pf) (types : all_typed pf).

Lemma settings_typed st i : isCoreOnline pf i = true -> typed (settings_of os pf st i).
Proof. intros Hi. destruct types as [Ht|Ht]; [by left|right; by apply Ht]. Qed.

(** What stays as it was while the cores are programmed through the MSRs. *)
Definition same_setup (st st' : core_pmu) : Prop :=
  pmu_canUsePerf st' = pmu_canUsePerf st /\ events st' = events st /\ pmu_task_handles st' = pmu_task_handles st /\
  needToRestoreNMIWatchdog st' = needToRestoreNMIWatchdog st /\ mode st' = mode st.

Lemma settings_same st st' i : same_setup st st' -> settings_of os pf st' i = settings_of os pf st i.
Proof.
  intros (Hp & He & Ht & _). unfold settings_of, perfSupportsTopDown, isHWTMAL2Supported, isHWTMAL1Supported.
  by rewrite Hp, He, Ht.
Qed.

(** The selectors of one core. *)
Definition run_ok (st : core_pmu) (mode_ : ProgramMode) (p : parameter) (r : nat * list Z) : Prop :=
  Z.of_nat (length r.2) = Z.max 0 (core_gen_counter_num_used (events st)) /\ Forall enabled r.2 /\
  (forall i reg, r.2 !! i = Some reg -> chosen (settings_of os pf st r.1) mode_ p i reg).

Lemma program_cores_spec mode_ p tids cores st h h' st' statuses :
  pmu_canUsePerf st = false -> pmu_task_handles st = [] ->
  program_cores os pf cores mode_ p tids st h = (h', Ok (st', statuses)) -> Forall (fun e => e = Success) statuses ->
  exists runs, map fst runs = filter (fun i => isCoreOnline pf i = true) cores /\
    Forall (run_ok st mode_ p) runs /\ same_setup st st' /\
    writes_of (history h') = writes_of (history h) ++ cores_log (settings_of os pf st) mode_ p runs.
Proof.
  revert st h h' st' statuses. induction cores as [|i cores IH]; intros st h h' st' statuses Hp Ht H Hok; cbn [program_cores] in H.
  - apply M_ret_inv in H as [-> [= -> ->]]. exists []. by rewrite app_nil_r.
  - rewrite filter_cons. destruct (isCoreOnline pf i) eqn:Hi.
    + apply M_bind_inv in H as (h1 & [l e] & E & H). apply M_bind_inv in H as (h2 & [st2 rest] & E' & H).
      apply M_ret_inv in H as [-> [= -> ->]]. cbn [fst snd] in *. apply Forall_cons in Hok as [Hst Hok].
      assert (Hm : MSR_at pf i = Some (Z.of_nat i)).
      { pose proof Hi as Ho. unfold isCoreOnline in Ho. destruct (MSR_at pf i) as [c|] eqn:Ec; [|done].
        by rewrite (own _ _ Ec). }
      rewrite Hm in E.
      assert (Hs : same_setup st (with_locals i l st)) by (split_and!; try done; cbn; by rewrite Ht).
      apply IH in E' as (runs & Hr & Hf & Hs' & W); [|done|cbn; by rewrite Ht|done].
      destruct e as [e|e]; [|apply programCoreCounters_fails in E; congruence].
      apply programCoreCounters_spec in E as (regs & _ & Hl & En & Ch & _ & _ & W1); [|done|by apply settings_typed|done].
      exists ((i, regs) :: runs). rewrite decide_True by done. cbn [map fst].
      pose proof Hs as (? & He & ? & ? & ?). destruct Hs' as (? & ? & ? & ? & ?). split_and!; [by f_equal| |split_and!; congruence|].
      * constructor; [by split_and!|]. eapply Forall_impl; [exact Hf|]. intros r. unfold run_ok.
        by rewrite He, (settings_same st).
      * rewrite W, W1. unfold cores_log. cbn [map concat fst snd]. rewrite <- app_assoc. do 2 f_equal.
        f_equal. apply map_ext. intros r. by rewrite (settings_same st).
    + rewrite decide_False by done. by eapply IH.
Qed.

Lemma first_failure_success l : first_failure l = Success -> Forall (fun e => e = Success) l.
Proof. induction l as [|e l IH]; [constructor|]. simpl. case_bool_decide; [by constructor; auto|done]. Qed.

Lemma program_cores_perf cores mode_ p tids st h h' r :
  program_cores os pf cores mode_ p tids st h = (h', Ok r) -> pmu_canUsePerf r.1 = pmu_canUsePerf st.
Proof.
  revert st h h' r. induction cores as [|i cores IH]; intros st h h' r H; cbn [program_cores] in H.
  - by apply M_ret_inv in H as [_ ->].
  - destruct (isCoreOnline pf i); [|by eapply IH].
    apply M_bind_inv in H as (h1 & [l e] & E & H). apply M_bind_inv in H as (h2 & r' & E' & H).
    apply M_ret_inv in H as [_ ->]. by apply IH in E'.
Qed.

(** A computation whose writes, if it returns, come after the earlier ones and satisfy [P]. *)
Definition adds {A} (P : port * Z -> Prop) (m : M A) : Prop :=
  forall h h' a, m h = (h', Ok a) -> exists log, writes_of (history h') = writes_of (history h) ++ log /\ Forall P log.

Lemma adds_ret {A} P (a : A) : adds P (mret a).
Proof. intros h h' b [-> _]%M_ret_inv. exists []. by rewrite app_nil_r. Qed.

Lemma adds_bind {A B} P (m : M A) (f : A -> M B) : adds P m -> (forall a, adds P (f a)) -> adds P (m ≫= f).
Proof.
  intros Hm Hf h h' b H. apply M_bind_inv in H as (h1 & a & E & H).
  destruct (Hm _ _ _ E) as (l1 & E1 & F1), (Hf a _ _ _ H) as (l2 & E2 & F2). exists (l1 ++ l2).
  rewrite E2, E1, app_assoc. split; [done|by apply Forall_app_2].
Qed.

Lemma adds_forM {A} P (l : list A) (f : A -> M unit) : (forall a, adds P (f a)) -> adds P (forM l f).
Proof. intros Hf. induction l as [|a l IH]; [apply adds_ret|]. by apply adds_bind. Qed.

Lemma adds_if {A} P (b : bool) (m1 m2 : M A) : adds P m1 -> adds P m2 -> adds P (if b then m1 else m2).
Proof. by destruct b. Qed.

Lemma adds_reads {A} P (m : M A) : reads_only m -> adds P m.
Proof. intros Hm h h' a H. exists []. rewrite app_nil_r. split; [by eapply Hm|constructor]. Qed.

Lemma adds_msr_write (P : port * Z -> Prop) msr n v : (forall c, msr = Some c -> P (MsrPort c n, v)) -> adds P (msr_write msr n v).
Proof.
  intros HP. destruct msr as [c|]; [|apply adds_ret]. intros h h' a ->%msr_write_inv. eexists. split; [done|].
  apply Forall_singleton. by apply HP.
Qed.

(** The workaround touches one MSR of each core, and PCI configuration space. *)
Definition workaround_port (w : port * Z) : Prop :=
  (exists c, w.1 = MsrPort c 0x39C) \/ (exists h o, w.1 = PciPort32 h o).

Lemma adds_JKT enable : adds workaround_port (enableJKTWorkaround pf enable).
Proof.
  unfold enableJKTWorkaround. apply adds_if; [apply adds_ret|]. apply adds_bind; [|intros _]; apply adds_forM.
  - intros msr. apply adds_bind; [apply adds_reads, reads_only_msr_read_into|]. intros v.
    apply adds_msr_write. intros c _. left. by exists c.
  - intros [handle offset]. apply adds_bind; [apply adds_reads|intros v].
    + intros h h' a H. by injection H as <- _.
    + intros h h' a H. injection H as <- _. eexists. split; [done|]. apply Forall_singleton. right. by eexists _, _.
Qed.

(** A successful [program] through the MSRs: what was checked, and the writes. *)
Lemma program_core_direct mode_ p pid st h h' st' :
  program_core os pf mode_ p pid st h = (h', Ok (st', Success)) -> pmu_canUsePerf st' = false ->
  (pmu_canUsePerf st = false -> pmu_task_handles st = []) ->
  exists before runs st1,
    writes_of (history h') = writes_of (history h) ++ before ++ cores_log (settings_of os pf st1) mode_ p runs /\
    map fst runs = filter (fun i => isCoreOnline pf i = true) (seq 0 (num_cores pf)) /\
    Forall (run_ok st1 mode_ p) runs /\
    core_gen_counter_num_used (events st') <= core_gen_counter_num_max pf /\ pid = -1 /\
    programmed_core_pmu st' = true /\ cs_canUsePerf (settings_of os pf st1 0) = false /\ events st1 = events st' /\
    (exists e, choose_events pf mode_ p (events st) = Ok (Some e) /\ events st' = extended_count mode_ p e).
Proof.
  unfold program_core. cbv zeta. set (st0 := if _ && negb (keepNMIWatchdogEnabled os) then with_watchdog true st else st).
  assert (H0 : pmu_canUsePerf st0 = pmu_canUsePerf st /\ pmu_task_handles st0 = pmu_task_handles st /\
    events st0 = events st) by (by subst st0; destruct (_ && _)).
  destruct H0 as (P0 & T0 & E0). clearbody st0. intros H Hperf Htasks.
  destruct (bool_decide (MSR pf = [])); [by apply M_ret_inv in H as [_ ?]|].
  apply M_bind_inv in H as (h1 & st1 & E & H).
  apply closePerfHandles_closes in E as ((log1 & C1 & _) & _ & E1 & _ & P1 & _ & _ & Tt & Tf).
  assert (T1 : pmu_task_handles st1 = []).
  { destruct (pmu_canUsePerf st0) eqn:Hc; [by apply Tt|]. destruct (Tf eq_refl) as [_ ->]. rewrite T0. apply Htasks. congruence. }
  destruct (_ && is_one (PCM_NO_MSR os)); [by apply M_ret_inv in H as [_ ?]|].
  apply M_bind_inv in H as (h2 & busy & E & H). destruct busy; [by apply M_ret_inv in H as [_ ?]|].
  assert (W2 : writes_of (history h2) = writes_of (history h1)).
  { destruct (_ && _); [by eapply reads_only_PMUinUse|]. by apply M_ret_inv in E as [-> _]. }
  destruct (choose_events pf mode_ p _) as [[e|]|] eqn:Hch; [|by apply M_ret_inv in H as [_ ?]|done].
  set (st2 := with_events mode_ (extended_count mode_ p e) _) in *.
  apply M_bind_inv in H as (h3 & ? & E3 & H).
  destruct (negb (check_resources _ _ _ _)) eqn:Hres; [by apply M_ret_inv in H as [_ ?]|].
  apply negb_false_iff in Hres. unfold check_resources in Hres. rewrite !andb_true_iff in Hres.
  destruct Hres as [[[Hg Hf] Hpid] Hw].
  destruct (find_tids os pid) as [tids|] eqn:Htid; [|by apply M_ret_inv in H as [_ ?]].
  apply M_bind_inv in H as (h4 & [st3 statuses] & Er & H). cbn [fst snd] in H.
  case_bool_decide as Hs; apply M_ret_inv in H as [-> [= ->]]; [|congruence]. apply first_failure_success in Hs.
  change (pmu_canUsePerf (st3, statuses).1 = false) in Hperf.
  rewrite (program_cores_perf _ _ _ _ _ _ _ _ Er) in Hperf.
  assert (Hc2 : pmu_canUsePerf st2 = false) by (by destruct tids). rewrite Hc2, orb_false_r in Hpid.
  apply Z.eqb_eq in Hpid as ->. injection Htid as <-. cbn [make_task_handles] in *.
  assert (Hb : exists before, writes_of (history h3) = writes_of (history h) ++ before).
  { assert (exists l3, writes_of (history h3) = writes_of (history h2) ++ l3) as [l3 E3'].
    { destruct (pf_model pf =? JAKETOWN); [destruct (adds_JKT _ _ _ _ E3) as (l3 & ? & _); by exists l3|].
      apply M_ret_inv in E3 as [-> _]. exists []. by rewrite app_nil_r. }
    exists (log1 ++ l3). by rewrite E3', W2, C1, app_assoc. }
  destruct Hb as [before Hb].
  apply program_cores_spec in Er as (runs & Hr & Hfr & (Hs1 & Hs2 & Hs3 & _) & W); [|done..].
  exists before, runs, (with_cleared (num_cores pf) st2). cbn [events with_programmed programmed_core_pmu fst] in *.
  rewrite Hs2 in *. split_and!; try done.
  - by rewrite W, Hb, app_assoc.
  - by apply Z.leb_le.
  - exists e. split; [|done]. rewrite <- E0, <- E1. exact Hch.
Qed.

End Cores.

(** ** Claiming and releasing the unit, on a machine of plain memory *)

Section Release.
#[local] Existing Instance memory_machine.

(** What the MSR of a core holds; 0 for a core that is offline. *)
Definition msr_value (h : hw) (msr : SafeMsrHandle) (n : Z) : Z :=
  match msr with Some c => load (history h) (MsrCell c n) | None => 0 end.

Definition selector_busy (reg : Z) : bool :=
  negb (get_field EventSelectRegister "event_select" reg =? 0) ||
  negb (get_field EventSelectRegister "apic_int" reg =? 0).

Definition fixed_busy (reg : Z) : bool :=
  existsb (fun f => negb (get_field FixedEventControlRegister f reg =? 0))
    ["enable_pmi0"; "enable_pmi1"; "enable_pmi2"]%string.

Definition core_busy (pf : platform) (value : Z -> Z) : bool :=
  existsb (fun j => selector_busy (value (IA32_PERFEVTSEL0_ADDR + Z.of_nat j)))
    (seq 0 (Z.to_nat (core_gen_counter_num_max pf))) ||
  fixed_busy (value IA32_CR_FIXED_CTR_CTRL).

(** A read delivers the value, and values do not depend on reads. *)
Lemma memory_read msr n old h : exists h', msr_read_into msr n old h = (h', Ok (msr_value h msr n)) /\
  forall msr' n', msr_value h' msr' n' = msr_value h msr' n'.
Proof. destruct msr as [c|]; eexists; by split. Qed.

Lemma memory_selectors msr j n old h : exists h',
  selectors_in_use msr false j n old h =
    (h', Ok (existsb (fun j => selector_busy (msr_value h msr (IA32_PERFEVTSEL0_ADDR + Z.of_nat j))) (seq j n))) /\
  forall msr' n', msr_value h' msr' n' = msr_value h msr' n'.
Proof.
  revert j old h. induction n as [|n IH]; intros j old h; [by eexists|]. cbn [selectors_in_use seq existsb].
  destruct (memory_read msr (IA32_PERFEVTSEL0_ADDR + Z.of_nat j) old h) as (h1 & E & V).
  unfold mbind, M_bind. rewrite E. set (v := msr_value h msr _) in *.
  fold (selector_busy v). destruct (selector_busy v); cbn [andb orb]; [by exists h1|].
  destruct (IH (S j) v h1) as (h2 & -> & V2). exists h2. split.
  - do 2 f_equal. clear -V. induction (seq (S j) n) as [|x l IHl]; [done|]. simpl. by rewrite V, IHl.
  - intros. by rewrite V2.
Qed.

Lemma memory_core_in_use pf msr h : exists h', core_in_use pf msr false h = (h', Ok (core_busy pf (msr_value h msr))) /\
  forall msr' n', msr_value h' msr' n' = msr_value h msr' n'.
Proof.
  unfold core_in_use.
  assert (H1 : exists h1, (if 4 <=? perfmon_version pf then msr_read_into msr MSR_PERF_GLOBAL_INUSE 0 ;; mret tt
    else mret tt) h = (h1, Ok tt) /\ forall msr' n', msr_value h1 msr' n' = msr_value h msr' n').
  { destruct (4 <=? _); [|by eexists].
    destruct (memory_read msr MSR_PERF_GLOBAL_INUSE 0 h) as (h1 & E & V). unfold mbind, M_bind. rewrite E. by exists h1. }
  destruct H1 as (h1 & E1 & V1). unfold mbind at 1, M_bind at 1. rewrite E1.
  destruct (memory_read msr IA32_CR_PERF_GLOBAL_CTRL 0 h1) as (h2 & E2 & V2). unfold mbind at 1, M_bind at 1. rewrite E2.
  destruct (memory_selectors msr 0 (Z.to_nat (core_gen_counter_num_max pf)) (2 ^ 64 - 1) h2) as (h3 & E3 & V3).
  assert (Hs : forall l, existsb (fun j => selector_busy (msr_value h2 msr (IA32_PERFEVTSEL0_ADDR + Z.of_nat j))) l =
    existsb (fun j => selector_busy (msr_value h msr (IA32_PERFEVTSEL0_ADDR + Z.of_nat j))) l).
  { induction l as [|x l IHl]; [done|]. simpl. by rewrite V2, V1, IHl. }
  rewrite Hs in E3. unfold mbind at 1, M_bind at 1. rewrite E3. unfold core_busy.
  destruct (existsb _ _); cbn [orb].
  - exists h3. split; [done|]. intros. by rewrite V3, V2, V1.
  - unfold fixed_in_use. destruct (memory_read msr IA32_CR_FIXED_CTR_CTRL (2 ^ 64 - 1) h3) as (h4 & E4 & V4).
    unfold mbind, M_bind. rewrite E4. exists h4. rewrite V3, V2, V1, andb_true_r. split; [done|].
    intros. by rewrite V4, V3, V2, V1.
Qed.

Lemma memory_PMUinUse pf st h : needToRestoreNMIWatchdog st = false ->
  (PMUinUse pf st h).2 = Ok (existsb (fun msr => core_busy pf (msr_value h msr)) (MSR pf)).
Proof.
  intros Hw. unfold PMUinUse. rewrite Hw. revert h. induction (MSR pf) as [|msr l IH]; intros h; [done|].
  cbn [cores_in_use existsb]. destruct (memory_core_in_use pf msr h) as (h1 & E & V).
  unfold mbind, M_bind. rewrite E. destruct (core_busy pf (msr_value h msr)); [done|]. rewrite IH. cbn [orb]. f_equal.
  clear -V. assert (Hc : forall msr, core_busy pf (msr_value h1 msr) = core_busy pf (msr_value h msr)).
  { intros m. unfold core_busy. rewrite V. f_equal. induction (seq _ _) as [|x k IHk]; [done|]. simpl. by rewrite V, IHk. }
  induction l as [|m l IHl]; [done|]. simpl. by rewrite Hc, IHl.
Qed.

(** Logs of cores, each made of writes to the core's own MSRs: the final value of an MSR
    of core [c] has the property that the logs of [c] give it. *)
Definition own_log (c : Z) (log : list (port * Z)) : Prop := Forall (fun w => exists m, w.1 = MsrPort c m) log.

Lemma after_own_log c c' n log v : own_log c' log -> c <> c' -> after_writes log (MsrCell c n) v = v.
Proof.
  intros H Hc. unfold after_writes. revert v. induction H as [|[p x] log (m & Hp) _ IH]; intros v; [done|].
  cbn [foldl fst snd] in *. rewrite Hp. cbn [footprint find_cell].
  rewrite decide_False by (intros [=]; congruence). apply IH.
Qed.

Lemma after_cores (P : Z -> Prop) c n (logs : list (Z * list (port * Z))) v :
  Forall (fun r => own_log r.1 r.2 /\ (r.1 = c -> forall v, P (after_writes r.2 (MsrCell c n) v))) logs ->
  In c (map fst logs) \/ P v -> P (after_writes (concat (map snd logs)) (MsrCell c n) v).
Proof.
  intros H. revert v. induction H as [|[c' log] logs [Ho Hp] _ IH]; intros v Hc; [by destruct Hc|].
  cbn [map concat fst snd] in *. rewrite after_writes_app. apply IH.
  destruct (Z.eq_dec c' c) as [->|Hne]; [right; by apply Hp|]. destruct Hc as [[->|Hc]|Hc]; [done|by left|right].
  by rewrite (after_own_log c c') by (done || congruence).
Qed.

Lemma after_cores_keep c n (logs : list (Z * list (port * Z))) v :
  Forall (fun r => own_log r.1 r.2 /\ (r.1 = c -> forall v, after_writes r.2 (MsrCell c n) v = v)) logs ->
  after_writes (concat (map snd logs)) (MsrCell c n) v = v.
Proof.
  intros H. revert v. induction H as [|[c' log] logs [Ho Hp] _ IH]; intros v; [done|].
  cbn [map concat fst snd] in *. rewrite after_writes_app, IH.
  destruct (Z.eq_dec c' c) as [->|Hne]; [by apply Hp|]. by apply (after_own_log c c').
Qed.

Lemma avoids_own core n log : avoids core n log -> own_log core log.
Proof. intros H. eapply Forall_impl; [exact H|]. intros w (m & ? & _). by exists m. Qed.

Lemma direct_log_own s core mode_ p regs : own_log core (direct_log s core mode_ p regs).
Proof.
  apply (avoids_own _ (-1)). rewrite direct_log_split.
  repeat apply avoids_app; try (address; avoid).
  - change (take 4 _) with ([(MsrPort core INST_RETIRED_ADDR, 0)] ++ [(MsrPort core CPU_CLK_UNHALTED_THREAD_ADDR, 0)] ++
      [(MsrPort core CPU_CLK_UNHALTED_REF_ADDR, 0)] ++
      [(MsrPort core IA32_CR_FIXED_CTR_CTRL, initFixedCtrl mode_ p true (fixed3 s))]). address; avoid.
  - apply avoids_extra; address; lia.
  - apply selector_log_avoids. address; lia.
Qed.

(** The writes of [cleanup_core]. *)
Definition cleanup_log (pf : platform) (pebs : bool) (c : Z) : list (port * Z) :=
  (MsrPort c IA32_CR_PERF_GLOBAL_CTRL, Z.shiftl 7 32) ::
  map (fun j => (MsrPort c (IA32_PERFEVTSEL0_ADDR + Z.of_nat j), 0)) (seq 0 (Z.to_nat (core_gen_counter_num_max pf))) ++
  if pebs then [(MsrPort c IA32_PEBS_ENABLE_ADDR, 0)] else [].

Lemma performs_forM {A} (l : list A) (f : A -> M unit) (log : A -> list (port * Z)) :
  (forall a, performs (log a) (f a)) -> performs (concat (map log l)) (forM l f).
Proof. intros Hf. induction l as [|a l IH]; [apply performs_ret|]. by apply performs_bind. Qed.

Lemma concat_singletons {A B} (f : A -> B) l : concat (map (fun a => [f a]) l) = map f l.
Proof. induction l; [done|]. simpl. by f_equal. Qed.

Lemma performs_cleanup pf pebs c : performs (cleanup_log pf pebs c) (cleanup_core pf (Some c) pebs).
Proof.
  unfold cleanup_log, cleanup_core. rewrite <- concat_singletons. change (?a :: ?l) with ([a] ++ l).
  apply performs_bind; [apply performs_write|intros _]. apply performs_bind; [|intros _; apply performs_if].
  - apply performs_forM. intros j. apply performs_write.
  - apply performs_write.
  - apply performs_ret.
Qed.

(** The log of a list of handles; nothing is written for an offline core. *)
Definition cleanups (pf : platform) (pebs : bool) (msrs : list SafeMsrHandle) : list (Z * list (port * Z)) :=
  omap (fun msr : SafeMsrHandle => (fun c => (c, cleanup_log pf pebs c)) <$> msr) msrs.

Lemma performs_offline {A} (l : list A) (f : A -> M unit) : (forall a, performs [] (f a)) -> performs [] (forM l f).
Proof. intros Hf. induction l as [|a l IH]; [apply performs_ret|]. by apply (performs_bind [] []). Qed.

Lemma performs_cleanups pf pebs msrs :
  performs (concat (map snd (cleanups pf pebs msrs))) (forM msrs (fun h => cleanup_core pf h pebs)).
Proof.
  induction msrs as [|[c|] msrs IH]; [apply performs_ret| |]; cbn [forM cleanups omap list_omap fmap option_fmap option_map].
  - apply performs_bind; [apply performs_cleanup|done].
  - apply (performs_bind []); [|done]. unfold cleanup_core.
    apply (performs_bind [] []); [apply performs_ret|intros _].
    apply (performs_bind [] []); [apply performs_offline; intros j|intros _; destruct pebs]; apply performs_ret.
Qed.

Lemma cleanup_log_values pf pebs c v : core_gen_counter_num_max pf <= 8 ->
  own_log c (cleanup_log pf pebs c) /\
  after_writes (cleanup_log pf pebs c) (MsrCell c IA32_CR_FIXED_CTR_CTRL) v = v /\
  (forall j, In j (seq 0 (Z.to_nat (core_gen_counter_num_max pf))) ->
     after_writes (cleanup_log pf pebs c) (MsrCell c (IA32_PERFEVTSEL0_ADDR + Z.of_nat j)) v = 0).
Proof.
  intros Hmax.
  assert (Hm : forall n k l, (forall j, In j l -> n <> IA32_PERFEVTSEL0_ADDR + Z.of_nat j) ->
    avoids k n (map (fun j => (MsrPort k (IA32_PERFEVTSEL0_ADDR + Z.of_nat j), 0)) l)).
  { intros n k l Hn. induction l as [|j l IHl]; [constructor|]. constructor.
    - eexists. split; [done|]. apply not_eq_sym, Hn. by left.
    - apply IHl. intros i Hi. apply Hn. by right. }
  unfold cleanup_log. change (?a :: ?l) with ([a] ++ l). split_and!.
  - apply (avoids_own _ (-1)). repeat apply avoids_app; try (address; avoid). apply Hm. address. lia.
  - apply after_writes_avoids. repeat apply avoids_app; try (address; avoid).
    apply Hm. intros j Hj%in_seq. address. lia.
  - intros j Hj. rewrite !after_writes_app. pose proof (proj1 (in_seq _ _ _) Hj).
    rewrite (after_writes_avoids c _ (if pebs then _ else _)) by (address; avoid).
    generalize (after_writes [(MsrPort c IA32_CR_PERF_GLOBAL_CTRL, Z.shiftl 7 32)]
      (MsrCell c (IA32_PERFEVTSEL0_ADDR + Z.of_nat j)) v). clear -Hj Hm.
    induction (seq _ _) as [|i l IH]; [done|]. intros v. cbn [map]. change (?a :: ?l) with ([a] ++ l).
    rewrite after_writes_app. destruct (in_dec Nat.eq_dec j l) as [Hin|Hout]; [by apply IH|].
    destruct Hj as [->|Hj]; [|done]. rewrite (after_writes_avoids c) by (apply Hm; intros k Hk E; apply Hout; by replace j with k by lia).
    apply after_writes_here, avoids_nil.
Qed.

(** The workaround and the other logs leave the MSRs of the check alone. *)
Lemma after_workaround c n log v : Forall workaround_port log -> n <> 0x39C -> after_writes log (MsrCell c n) v = v.
Proof.
  intros H Hn. unfold after_writes. revert v. induction H as [|[p x] log Hp _ IH]; intros v; [done|].
  unfold workaround_port in Hp. cbn [foldl fst snd] in *. destruct Hp as [(c' & ->)|(h & o & ->)]; cbn [footprint find_cell];
    rewrite decide_False by (intros [=]; lia); apply IH.
Qed.

Lemma cleanups_own pf pebs msrs c n (P : Z -> Prop) : core_gen_counter_num_max pf <= 8 ->
  (forall v, P (after_writes (cleanup_log pf pebs c) (MsrCell c n) v)) ->
  Forall (fun r => own_log r.1 r.2 /\ (r.1 = c -> forall v, P (after_writes r.2 (MsrCell c n) v)))
    (cleanups pf pebs msrs).
Proof.
  intros Hmax HP. induction msrs as [|[c'|] l IH]; [constructor| |done]. constructor; [|done].
  split; [apply (cleanup_log_values pf pebs c' 0 Hmax)|]. cbn. by intros ->.
Qed.

Lemma cleanups_keep pf pebs msrs c n : core_gen_counter_num_max pf <= 8 ->
  (forall v, after_writes (cleanup_log pf pebs c) (MsrCell c n) v = v) ->
  Forall (fun r => own_log r.1 r.2 /\ (r.1 = c -> forall v, after_writes r.2 (MsrCell c n) v = v)) (cleanups pf pebs msrs).
Proof.
  intros Hmax HP. induction msrs as [|[c'|] l IH]; [constructor| |done]. constructor; [|done].
  split; [apply (cleanup_log_values pf pebs c' 0 Hmax)|]. cbn. by intros ->.
Qed.

Lemma cleanups_cores pf pebs msrs c : In (Some c) msrs -> In c (map fst (cleanups pf pebs msrs)).
Proof.
  induction msrs as [|[c'|] l IH]; [done| |]; intros [Hc|Hc]; try done; [left; by injection Hc|right; by apply IH|by apply IH].
Qed.

(** The registers of every core once [cleanupPMU] has run without perf. *)
Lemma cleanupPMU_values pf st h h' st' c :
  cleanupPMU pf st h = (h', Ok st') -> pmu_canUsePerf st = false -> core_gen_counter_num_max pf <= 8 ->
  In (Some c) (MSR pf) ->
  programmed_core_pmu st' = false /\
  msr_value h' (Some c) IA32_CR_FIXED_CTR_CTRL = msr_value h (Some c) IA32_CR_FIXED_CTR_CTRL /\
  (forall j, In j (seq 0 (Z.to_nat (core_gen_counter_num_max pf))) ->
     msr_value h' (Some c) (IA32_PERFEVTSEL0_ADDR + Z.of_nat j) = 0).
Proof.
  intros H Hp Hmax Hc. unfold cleanupPMU, closePerfHandles in H. apply M_bind_inv in H as (h1 & st1 & E & H).
  cbn [pmu_canUsePerf with_programmed] in E. rewrite Hp in E. apply M_ret_inv in E as [-> ->].
  cbn [pmu_canUsePerf with_programmed] in H. rewrite Hp in H.
  apply M_bind_inv in H as (h2 & ? & E1 & H). apply M_bind_inv in H as (h3 & ? & E2 & H).
  apply M_ret_inv in H as [-> ->]. apply performs_cleanups in E1.
  assert (exists log, writes_of (history h3) = writes_of (history h2) ++ log /\ Forall workaround_port log) as (log & E3 & F).
  { destruct (_ =? JAKETOWN); [by eapply adds_JKT|]. apply M_ret_inv in E2 as [-> _]. exists []. by rewrite app_nil_r. }
  assert (Hval : forall n, n <> 0x39C -> msr_value h3 (Some c) n =
    after_writes (concat (map snd (cleanups pf (pmu_cleanupPEBS (with_programmed false st)) (MSR pf)))) (MsrCell c n)
      (msr_value h (Some c) n)).
  { intros n Hn. unfold msr_value. rewrite !load_after_writes, E3, E1, !after_writes_app. by apply after_workaround. }
  split_and!; [done| |].
  - rewrite Hval by done. apply after_cores_keep. apply cleanups_keep; [done|]. intros v. by apply (cleanup_log_values pf _ c v Hmax).
  - intros j Hj. rewrite Hval by (apply in_seq in Hj; address; lia).
    apply (after_cores (fun x => x = 0)); [|left; by apply cleanups_cores].
    apply (cleanups_own _ _ _ _ _ (fun x => x = 0)); [done|]. intros v. by apply (cleanup_log_values pf _ c v Hmax).
Qed.

(** The default events begin with one that selects something, and are at least two. *)
Definition starts_with_event (desc : list CustomCoreEventDescription) : bool :=
  match desc with d :: _ => negb (wrapN 8 (event_number d) =? 0) | [] => false end.

Definition default_starts (m gen_max : Z) : bool :=
  let '(core, atom, _, used) := default_events m gen_max in
  starts_with_event core && (2 <=? used) && (negb (bool_decide (m ∈ hybrid_models)) || starts_with_event atom).

Lemma default_events_start m gen_max : default_starts m gen_max = true.
Proof.
  unfold default_starts. destruct (default_events_max m gen_max) as (g & Hg & ->).
  destruct (decide (m ∈ all_models)) as [Hm|Hm].
  - apply (forall_models (fun m => default_starts m g)); [|done].
    repeat (destruct Hg as [<-|Hg]; [vm_compute; reflexivity|]). destruct Hg.
  - rewrite (default_events_outside m g Hm). rewrite (elem_of_outside m hybrid_models Hm) by (vm_compute; reflexivity).
    repeat (destruct Hg as [<-|Hg]; [vm_compute; reflexivity|]). destruct Hg.
Qed.

Lemma default_fixed_not_busy fixed3 : fixed_busy (initFixedCtrl DEFAULT_EVENTS NoParameter true fixed3) = false.
Proof. by destruct fixed3; vm_compute. Qed.

(** With the default events the first selector of a core is not 0. *)
Lemma default_chosen_busy os pf st e i reg :
  events st = apply_choice (default_events (pf_model pf) (core_gen_counter_num_max pf)) e ->
  (pf_hybrid pf = true -> pf_model pf ∈ hybrid_models) ->
  chosen (settings_of os pf st i) DEFAULT_EVENTS NoParameter 0 reg -> selector_busy reg = true.
Proof.
  intros He Hhyb. pose proof (default_events_start (pf_model pf) (core_gen_counter_num_max pf)) as Hs.
  unfold default_starts in Hs. destruct (default_events _ _) as [[[core atom] metrics] used].
  rewrite !andb_true_iff in Hs. destruct Hs as [[Hcore _] Hatom].
  assert (Hsel : forall desc table, starts_with_event desc = true ->
    chosen_from None (set_events desc table) 0 reg -> selector_busy reg = true).
  { intros desc table Hd (d & Hd' & [Hev _]). destruct desc as [|d' desc]; [done|]. injection Hd' as ->.
    unfold selector_busy. rewrite Hev. simpl in Hd. by rewrite Hd. }
  unfold chosen. cbn [cs_events settings_of hybrid core_type extended]. rewrite He. cbn [apply_choice coreEventDesc hybridAtomEventDesc].
  destruct (negb (pf_hybrid pf) || _) eqn:Ht; [by apply Hsel|]. apply Hsel.
  apply orb_false_iff in Ht as [Ht _]. apply negb_false_iff in Ht.
  rewrite bool_decide_eq_true_2 in Hatom by (by apply Hhyb). exact Hatom.
Qed.

Lemma online_handle pf c : own_handles pf -> In (Some c) (MSR pf) ->
  exists i, c = Z.of_nat i /\ isCoreOnline pf i = true /\ In i (seq 0 (num_cores pf)).
Proof.
  intros Hown Hin. apply (In_nth _ _ None) in Hin as (i & Hi & Hc). exists i.
  split; [by apply Hown|]. split; [|apply in_seq; unfold num_cores, SafeMsrHandle in *; lia].
  unfold isCoreOnline, MSR_at. unfold SafeMsrHandle in *. by rewrite Hc.
Qed.

(** The registers of a core once [program] has run with the default events. *)
Lemma program_core_values os pf pid st h h1 st1 c :
  own_handles pf -> all_typed pf -> (pf_hybrid pf = true -> pf_model pf ∈ hybrid_models) ->
  core_gen_counter_num_max pf <= 8 -> (pmu_canUsePerf st = false -> pmu_task_handles st = []) ->
  program_core os pf DEFAULT_EVENTS NoParameter pid st h = (h1, Ok (st1, Success)) -> pmu_canUsePerf st1 = false ->
  In (Some c) (MSR pf) ->
  selector_busy (msr_value h1 (Some c) IA32_PERFEVTSEL0_ADDR) = true /\
  fixed_busy (msr_value h1 (Some c) IA32_CR_FIXED_CTR_CTRL) = false /\ 2 <= core_gen_counter_num_max pf.
Proof.
  intros Hown Htypes Hhyb Hmax Htasks H Hp Hc.
  apply program_core_direct in H as (before & runs & st2 & W & Hr & Hruns & Hused & _ & _ & _ & Hev & e & Hch & He); [|done..].
  cbn in Hch. injection Hch as <-. cbn in He. rewrite He in Hev, Hused.
  pose proof (default_events_start (pf_model pf) (core_gen_counter_num_max pf)) as Hstart.
  unfold default_starts in Hstart.
  assert (H2 : 2 <= core_gen_counter_num_used (events st2)).
  { rewrite Hev. destruct (default_events _ _) as [[[core atom] metrics] used].
    rewrite !andb_true_iff, Z.leb_le in Hstart. apply Hstart. }
  rewrite <- Hev in Hused.
  set (logs := map (fun r => (Z.of_nat r.1, direct_log (settings_of os pf st2 r.1) (Z.of_nat r.1) DEFAULT_EVENTS NoParameter r.2)) runs).
  assert (Hlogs : cores_log (settings_of os pf st2) DEFAULT_EVENTS NoParameter runs = concat (map snd logs)).
  { unfold cores_log, logs. by rewrite map_map. }
  assert (Hin : In c (map fst logs)).
  { destruct (online_handle pf c Hown Hc) as (i & -> & Hi & Hi'). unfold logs. rewrite map_map. cbn [fst].
    rewrite <- map_map. apply in_map. rewrite Hr. apply list_elem_of_In, list_elem_of_filter. split; [done|by apply list_elem_of_In]. }
  assert (Hval : forall (P : Z -> Prop) n, (forall r v, r ∈ runs -> run_ok os pf st2 DEFAULT_EVENTS NoParameter r ->
      P (after_writes (direct_log (settings_of os pf st2 r.1) (Z.of_nat r.1) DEFAULT_EVENTS NoParameter r.2)
           (MsrCell (Z.of_nat r.1) n) v)) -> P (msr_value h1 (Some c) n)).
  { intros P n HP. unfold msr_value. rewrite load_after_writes, W, !after_writes_app, Hlogs. apply after_cores; [|by left].
    unfold logs. apply Forall_map, Forall_forall. intros r Hrin. cbn [fst snd compose]. split; [apply direct_log_own|].
    intros <- v. apply HP; [done|]. rewrite Forall_forall in Hruns. by apply Hruns. }
  assert (Hlen : forall r, run_ok os pf st2 DEFAULT_EVENTS NoParameter r -> (length r.2 <= 8)%nat /\ exists reg, r.2 !! 0%nat = Some reg).
  { intros [i [|reg regs]] (Hl & _); cbn [snd] in *; [simpl in Hl; lia|]. split; [lia|by exists reg]. }
  split_and!; [| |lia].
  - apply (Hval (fun x => selector_busy x = true)). intros r v _ Hok. destruct (Hlen r Hok) as [Hl [reg Hreg]].
    pose proof (direct_log_counter (settings_of os pf st2 r.1) (Z.of_nat r.1) DEFAULT_EVENTS NoParameter r.2 0 reg v Hl Hreg) as [Hc1 _].
    rewrite Z.add_0_r in Hc1. rewrite Hc1. destruct Hok as (_ & _ & Hcho). by eapply default_chosen_busy, Hcho.
  - apply (Hval (fun x => fixed_busy x = false)). intros r v _ Hok.
    rewrite direct_log_fixed by apply (Hlen r Hok). apply default_fixed_not_busy.
Qed.

(** C4. The protocol by which programs share the unit, on a machine whose registers keep what
    was written, where the unit is programmed through the MSRs and not through Linux perf
    ([pmu_canUsePerf st1 = false]), which another program would not see this way. Once
    [program] has succeeded with the default events, every other program that asks, and has
    no NMI watchdog of its own to restore, finds the unit in use; and once [cleanupPMU] has
    run, it finds the unit free again. There are at most eight general counters, and hybrid
    processors are of a known hybrid model. *)
Theorem unit_claimed_then_released os pf pid st h h1 st1 other :
  own_handles pf -> all_typed pf -> (pf_hybrid pf = true -> pf_model pf ∈ hybrid_models) ->
  core_gen_counter_num_max pf <= 8 -> (exists c, In (Some c) (MSR pf)) ->
  (pmu_canUsePerf st = false -> pmu_task_handles st = []) -> needToRestoreNMIWatchdog other = false ->
  program_core os pf DEFAULT_EVENTS NoParameter pid st h = (h1, Ok (st1, Success)) -> pmu_canUsePerf st1 = false ->
  (PMUinUse pf other h1).2 = Ok true /\
  forall h2 st2, cleanupPMU pf st1 h1 = (h2, Ok st2) -> (PMUinUse pf other h2).2 = Ok false.
Proof.
  intros Hown Htypes Hhyb Hmax [c Hc] Htasks Hw H Hp.
  pose proof (fun c => program_core_values os pf pid st h h1 st1 c Hown Htypes Hhyb Hmax Htasks H Hp) as Hv. split.
  - rewrite memory_PMUinUse by done. f_equal. apply existsb_exists. exists (Some c). split; [done|].
    destruct (Hv c Hc) as (Hb & _ & H2). unfold core_busy. apply orb_true_iff. left. apply existsb_exists.
    exists 0%nat. split; [apply in_seq; lia|]. by rewrite Z.add_0_r.
  - intros h2 st2 Hcl. rewrite memory_PMUinUse by done. f_equal. apply not_true_iff_false. intros Hb.
    apply existsb_exists in Hb as ([c'|] & Hc' & Hb).
    + destruct (Hv c' Hc') as (_ & Hf & _).
      destruct (cleanupPMU_values pf st1 h1 h2 st2 c' Hcl Hp Hmax Hc') as (_ & Hf' & Hs).
      unfold core_busy in Hb. rewrite Hf', Hf, orb_false_r in Hb. apply existsb_exists in Hb as (j & Hj & Hb).
      by rewrite (Hs j Hj) in Hb.
    + unfold core_busy in Hb. apply orb_true_iff in Hb as [Hb|Hb]; [|done].
      by apply existsb_exists in Hb as (j & _ & Hb).
Qed.

End Release.

(** Three cores, the second offline, without Linux perf. *)
Definition example_platform : platform :=
  Platform ICX [Some 0; None; Some 2] false [Core; Core; Core] 8 4 5 true false true [].

Definition example_linux : linux := Linux (lit "0") (lit "0") None (Some (lit "1")) None 10 (fun _ => []) None.

Definition initial_pmu : core_pmu :=
  CorePMU INVALID_MODE zeroed_events true false false [] 0 false (replicate 3 (replicate PERF_MAX_COUNTERS (-1))) [] ∅.

(** The machine and the object after [program] and after [cleanupPMU], from registers that are all 0. *)
Definition state_of {A} (default : A) (r : res A) : A := match r with Ok a => a | Throw _ => default end.

Definition example_program :=
  @program_core memory_machine example_linux example_platform DEFAULT_EVENTS NoParameter (-1) initial_pmu (HW [] ∅ ∅).

Definition claimed_hw : hw := Eval vm_compute in example_program.1.

Definition claimed_pmu : core_pmu := Eval vm_compute in (state_of (initial_pmu, UnknownError) example_program.2).1.

Definition released_hw : hw := Eval vm_compute in (@cleanupPMU memory_machine example_platform claimed_pmu claimed_hw).1.

Definition released_pmu : core_pmu :=
  Eval vm_compute in state_of initial_pmu (@cleanupPMU memory_machine example_platform claimed_pmu claimed_hw).2.

Lemma unit_claimed_then_released_witness :
  (@PMUinUse memory_machine example_platform initial_pmu claimed_hw).2 = Ok true /\
  (@PMUinUse memory_machine example_platform initial_pmu released_hw).2 = Ok false.
Proof.
  destruct (unit_claimed_then_released example_linux example_platform (-1) initial_pmu (HW [] ∅ ∅)
    claimed_hw claimed_pmu initial_pmu) as [H1 H2].
  - intros [|[|[|[|i]]]] c; cbn; congruence || (intros [= <-]; reflexivity).
  - by left.
  - done.
  - cbn. lia.
  - exists 0. by left.
  - done.
  - done.
  - vm_compute. reflexivity.
  - vm_compute. reflexivity.
  - split; [exact H1|]. apply (H2 _ released_pmu). vm_compute. reflexivity.
Defined.

Lemma busy_unit_untouched_witness :
  exists h' st', only_closes (HW [Write (MsrPort 2 0x187) 0x4300C0] ∅ ∅) h' /\ programmed_core_pmu st' = false.
Proof.
  do 2 eexists.
  destruct (@busy_unit_untouched memory_machine example_linux example_platform DEFAULT_EVENTS NoParameter (-1) initial_pmu
    (HW [Write (MsrPort 2 0x187) 0x4300C0] ∅ ∅)
    (@program_core memory_machine example_linux example_platform DEFAULT_EVENTS NoParameter (-1) initial_pmu
       (HW [Write (MsrPort 2 0x187) 0x4300C0] ∅ ∅)).1
    (match (@program_core memory_machine example_linux example_platform DEFAULT_EVENTS NoParameter (-1) initial_pmu
       (HW [Write (MsrPort 2 0x187) 0x4300C0] ∅ ∅)).2
     with Ok (st, _) => st | Throw _ => initial_pmu end)) as (H1 & _ & H2 & _).
  - vm_compute. reflexivity.
  - split; [exact H1|exact H2].
Defined.

(** A read of a selector that fails does not free the unit: the read returns -1, which the
    test of its result takes for a success, and the value stays all ones. *)
Lemma failed_read_is_busy :
  (@PMUinUse (fun _ _ => None) example_platform initial_pmu (HW [] ∅ ∅)).2 = Ok true.
Proof. vm_compute. reflexivity. Qed.
