(* ===== verification/PcmUncore.v ===== *)
(** The units outside of the cores that class [PCM] keeps itself ([src/src/cpucounters.cpp],
    [src/src/cpucounters.h]): CBo/CHA, mesh-to-fabric, power control and U-box units by socket
    and die, IIO and IRP units by stack, CXL units by port, and the accelerators with their
    [IDX_PMU]; how they are created for the CBo, programmed, frozen, read and cleaned up.

    A unit is reached through the registers it holds; registers that only exist in the memory
    of the process (dummy registers, QAT telemetry files, Linux perf) are not among them. *)

From S2P Require Import Prelude Bits WidthExtender CpuModels Capabilities Registers UncorePMU ServerUncore.
Local Open Scope Z_scope.

(** * State *)

Inductive UncorePMUIDs :=
  | CBO_PMU_ID | MDF_PMU_ID | PCU_PMU_ID | UBOX_PMU_ID | PCIE_GEN5x16_PMU_ID | PCIE_GEN5x8_PMU_ID
  | INVALID_PMU_ID.

#[export] Instance UncorePMUIDs_eq_dec : EqDecision UncorePMUIDs.
Proof. solve_decision. Defined.

(** The counters of an accelerator. *)
Record IDX_PMU := MkIDX {
  perf_mode_ : bool;
  numa_node_ : Z;
  socket_id_ : Z;
  resetControl : HWRegisterPtr;
  freezeControl : HWRegisterPtr;
  generalControl : HWRegisterPtr;
  idx_counterControl : list HWRegisterPtr;
  idx_counterValue : list HWRegisterPtr;
  counterFilterWQ : list HWRegisterPtr;
  counterFilterENG : list HWRegisterPtr;
  counterFilterTC : list HWRegisterPtr;
  counterFilterPGSZ : list HWRegisterPtr;
  counterFilterXFERSZ : list HWRegisterPtr
}.

(** [UncorePMUMapType]: the units of a die by kind, in the order of the iteration over the
    unordered map; null pointers are [None]. A kind that is looked up and missing has no
    units. *)
Definition die_pmus : Type := list (UncorePMUIDs * list (option UncorePMU)).

(** The members of [PCM] that hold units; the [std::map]s are in the order of their keys. *)
Record pcm_uncore := PcmUncore {
  serverUncorePMUs : list ServerUncorePMUs;
  uncorePMUs : list (list die_pmus);            (** socket, die *)
  iioPMUs : list (list (Z * UncorePMU));        (** socket, stack *)
  irpPMUs : list (list (Z * UncorePMU));
  idxPMUs : list (list IDX_PMU);                (** kind of accelerator, device *)
  cxlPMUs : list (list (UncorePMU * UncorePMU)) (** socket, port: CXLCM and CXLDP *)
}.

Definition set_servers l st := PcmUncore l (uncorePMUs st) (iioPMUs st) (irpPMUs st) (idxPMUs st) (cxlPMUs st).
Definition set_uncore l st := PcmUncore (serverUncorePMUs st) l (iioPMUs st) (irpPMUs st) (idxPMUs st) (cxlPMUs st).
Definition set_iio l st := PcmUncore (serverUncorePMUs st) (uncorePMUs st) l (irpPMUs st) (idxPMUs st) (cxlPMUs st).
Definition set_irp l st := PcmUncore (serverUncorePMUs st) (uncorePMUs st) (iioPMUs st) l (idxPMUs st) (cxlPMUs st).
Definition set_cxl l st := PcmUncore (serverUncorePMUs st) (uncorePMUs st) (iioPMUs st) (irpPMUs st) (idxPMUs st) l.

(** What does not change: the model, the stepping, the number of sockets, whether there
    are MSR handles. *)
Record pcm_platform := PcmPlatform {
  up_model : Z;
  up_stepping : Z;
  up_sockets : Z;
  up_has_MSR : bool
}.

(** * Constants of [types.h] and [cpucounters.h] *)

Definition maxCounters : nat := 8.
Definition UCLK_FIXED_CTL_EN : Z := 2 ^ 22.
Definition CBO_MSR_PMON_CTL_TID_EN : Z := 2 ^ 19.
Definition JKT_CBO_MSR_PMON_BOX_FILTER_OPC (x : Z) : Z := u32 (Z.shiftl x 23).
Definition IVTHSX_CBO_MSR_PMON_BOX_FILTER1_OPC (x : Z) : Z := u32 (Z.shiftl x 20).
Definition BDX_CBO_MSR_PMON_BOX_GET_OPC0 (x : Z) : Z := Z.land (Z.shiftr x 20) 0x3FF.
Definition BDX_CBO_MSR_PMON_BOX_GET_FLT (x : Z) : Z := Z.land (Z.shiftr x 0x10) 1.
Definition BDX_CBO_MSR_PMON_BOX_GET_TID (x : Z) : Z := Z.land (Z.shiftr x 0x11) 1.
Definition SKX_CHA_MSR_PMON_BOX_FILTER1_REM (x : Z) : Z := x.
Definition SKX_CHA_MSR_PMON_BOX_FILTER1_LOC (x : Z) : Z := Z.shiftl x 1.
Definition SKX_CHA_MSR_PMON_BOX_FILTER1_RSV (x : Z) : Z := Z.shiftl x 2.
Definition SKX_CHA_MSR_PMON_BOX_FILTER1_NM (x : Z) : Z := Z.shiftl x 4.
Definition SKX_CHA_MSR_PMON_BOX_FILTER1_NOT_NM (x : Z) : Z := Z.shiftl x 5.
Definition SKX_CHA_MSR_PMON_BOX_FILTER1_OPC0 (x : Z) : Z := u32 (Z.shiftl x 9).
Definition SKX_CHA_MSR_PMON_BOX_FILTER1_OPC1 (x : Z) : Z := u32 (Z.shiftl x 19).
Definition SKX_CHA_MSR_PMON_BOX_FILTER1_NC (x : Z) : Z := Z.shiftl x 30.
Definition SKX_CHA_MSR_PMON_BOX_GET_OPC0 (x : Z) : Z := Z.land (Z.shiftr x 9) 0x3FF.
Definition SKX_CHA_MSR_PMON_BOX_GET_NC (x : Z) : Z := Z.land (Z.shiftr x 0x1e) 1.
Definition SKX_CHA_TOR_INSERTS_UMASK_IRQ (x : Z) : Z := x.
Definition SKX_CHA_TOR_INSERTS_UMASK_PRQ (x : Z) : Z := Z.shiftl x 2.
Definition SKX_CHA_TOR_INSERTS_UMASK_HIT (x : Z) : Z := Z.shiftl x 4.
Definition SKX_CHA_TOR_INSERTS_UMASK_MISS (x : Z) : Z := Z.shiftl x 5.

(** [PCM::EventPosition] *)
Definition TOR_OCCUPANCY : nat := 0.
Definition TOR_INSERTS : nat := 1.
Definition CXL_TxC_MEM : nat := 0.
Definition CXL_TxC_CACHE : nat := 1.
Definition CXL_RxC_MEM : nat := 4.
Definition CXL_RxC_CACHE : nat := 5.

(** [IDX_IP] *)
Definition IDX_IAA : nat := 0.
Definition IDX_DSA : nat := 1.
Definition IDX_QAT : nat := 2.
Definition IDX_MAX : nat := 3.
Definition SPR_IDX_ACCEL_COUNTER_MAX_NUM : nat := 8.
Definition SPR_QAT_ACCEL_COUNTER_MAX_NUM : nat := 16.
Definition QAT_TLM_MAX : Z := 3.

(** The numbers of stacks by model. *)
Definition stacks_count (m : Z) : nat :=
  switch m [([GRR], 3); ([GNR; GNR_D; SRF], 16); ([SPR; EMR], 12); ([ICX], 6); ([SNOWRIDGE], 5); ([BDX], 1)]%nat 6%nat.

(** The models whose CHA select opcodes in the event itself. *)
Definition extended_umask_models : list Z := [ICX; SNOWRIDGE; SPR; EMR; GNR; GNR_D; SRF; GRR].

(** * The events of the CBo *)

(** [initLLCReadMissLatencyEvents]: [events] and [opCode]. *)
Definition initLLCReadMissLatencyEvents (pf : pcm_platform) (events : list Z) (opCode : Z) : list Z * Z :=
  let m := up_model pf in
  if negb (LLCReadMissLatencyMetricsAvailable m (up_stepping pf) (up_sockets pf)) then (events, opCode)
  else
    let umask :=
      switch m [([ICX; SPR; SNOWRIDGE], 1);
                ([SKX], SKX_CHA_TOR_INSERTS_UMASK_IRQ 1 + SKX_CHA_TOR_INSERTS_UMASK_MISS 1)] 3 in
    let umask_ext := switch m [([ICX], 0xC817FE); ([SPR], 0x00C817FE); ([SNOWRIDGE], 0xC827FE)] 0 in
    let all_umasks := u64 (PMON_CTL_UMASK umask + UNC_PMON_CTL_UMASK_EXT umask_ext) in
    (<[TOR_INSERTS := u64 (PMON_CTL_EVENT 0x35 + all_umasks)]>
       (<[TOR_OCCUPANCY := u64 (PMON_CTL_EVENT 0x36 + all_umasks)]> events),
     if SKX =? m then 0x202 else 0x182).

(** [initCHARequestEvents], without [PCM_HA_REQUESTS_READS_ONLY]. *)
Definition initCHARequestEvents (pf : pcm_platform) (config : list Z) : list Z :=
  if localMemoryRequestRatioMetricAvailable (up_model pf) && hasCHA (up_model pf) then
    <[REQUESTS_LOCAL := PMON_CTL_EVENT 0x50 + PMON_CTL_UMASK (1 + 4)]>
      (<[REQUESTS_ALL := PMON_CTL_EVENT 0x50 + PMON_CTL_UMASK (1 + 2 + 4 + 8)]> config)
  else config.

(** The event of [programPCIeEventGroup] with the arguments of [programCbo] after it: the
    opcode, [nc_] and the thread filter; [None] for a model without a case. *)
Definition pcie_event_group (m : Z) (eventGroup : list Z) : res (option (list Z * Z * Z * Z)) :=
  let first := match eventGroup with e :: _ => Ok e | [] => Throw OutOfRange end in
  if is_one_of m [GNR; GNR_D; GRR; SRF; SPR; EMR; ICX; SNOWRIDGE] then
    if (length eventGroup <=? 4)%nat
    then Ok (Some (eventGroup ++ replicate (4 - length eventGroup) 0, 0, 0, 0))
    else Throw OutOfRange
  else if is_one_of m [SKX] then
    e ← first;
    let umask := if Z.land e (SKX_CHA_MSR_PMON_BOX_FILTER1_NC 1) =? 0
                 then SKX_CHA_TOR_INSERTS_UMASK_PRQ 1 else SKX_CHA_TOR_INSERTS_UMASK_IRQ 1 in
    let umask := Z.lor umask (if Z.land e (SKX_CHA_MSR_PMON_BOX_FILTER1_RSV 1) =? 0
                 then SKX_CHA_TOR_INSERTS_UMASK_MISS 1 else SKX_CHA_TOR_INSERTS_UMASK_HIT 1) in
    Ok (Some ([PMON_CTL_EVENT 0x35 + PMON_CTL_UMASK umask; 0; 0; 0],
              SKX_CHA_MSR_PMON_BOX_GET_OPC0 e, SKX_CHA_MSR_PMON_BOX_GET_NC e, 0))
  else if is_one_of m [BDX_DE; BDX; KNL; HASWELLX; IVYTOWN; JAKETOWN] then
    e ← first;
    let tid := negb (BDX_CBO_MSR_PMON_BOX_GET_TID e =? 0) in
    Ok (Some ([PMON_CTL_EVENT 0x35
                 + (if BDX_CBO_MSR_PMON_BOX_GET_FLT e =? 0 then PMON_CTL_UMASK 1 else PMON_CTL_UMASK 0x3)
                 + (if tid then CBO_MSR_PMON_CTL_TID_EN else 0); 0; 0; 0],
              BDX_CBO_MSR_PMON_BOX_GET_OPC0 e, 0, if tid then 0x3e else 0))
  else Ok None.

(** * Operations *)

Section Code.
Context {machine : Machine} (pf : pcm_platform).

Let pcm_model : Z := up_model pf.

(** ** Loops over units *)

(** [if (pmu.get()) f( *pmu );] for the units of an array. *)
Definition on_units (f : UncorePMU -> M UncorePMU) (l : list (option UncorePMU)) : M (list (option UncorePMU)) :=
  mapM_ l (fun p => match p with
                    | Some pmu => pmu' ← f pmu; mret (Some pmu')
                    | None => mret None
                    end).

Definition on_die (sel : UncorePMUIDs -> bool) (f : UncorePMU -> M UncorePMU) (d : die_pmus) : M die_pmus :=
  mapM_ d (fun e => if sel e.1 then l ← on_units f e.2; mret (e.1, l) else mret e).

Definition is_id (pmu_id id : UncorePMUIDs) : bool := bool_decide (id = pmu_id).

Definition programUncorePMUs (pmu_id : UncorePMUIDs) (pmuFunc : UncorePMU -> M UncorePMU) (st : pcm_uncore)
    : M pcm_uncore :=
  if negb (up_has_MSR pf) then mret st
  else
    l ← mapM_ (uncorePMUs st) (fun socket => mapM_ socket (on_die (is_id pmu_id) pmuFunc));
    mret (set_uncore l st).

(** [forAllUncorePMUs(socket_id, pmu_id, f)] *)
Definition forAllUncorePMUs (socket_id : nat) (pmu_id : UncorePMUIDs) (f : UncorePMU -> M UncorePMU) (st : pcm_uncore)
    : M pcm_uncore :=
  match uncorePMUs st !! socket_id with
  | Some dies => dies' ← mapM_ dies (on_die (is_id pmu_id) f); mret (set_uncore (<[socket_id := dies']> (uncorePMUs st)) st)
  | None => mret st
  end.

(** The events of a caller's array, which [PCM::program] reads up to [n] or the number of
    counters. *)
Definition events_array (n : nat) (events : list Z) (pmu : UncorePMU) : M (list Z) :=
  if (Nat.min n (size pmu) <=? length events)%nat then mret (take n events) else throw OutOfRange.

(** Freeze, program the events, release. *)
Definition freeze_and_program (n : nat) (events : list Z) (extra : Z) (pmu : UncorePMU) : M UncorePMU :=
  r ← initFreeze pcm_model extra false pmu;
  events ← events_array n events r.1;
  program pcm_model r.1 (Some events) extra.

(** ** CBo *)

(** [programCboOpcodeFilter] with its [*pmu.filter[i] = ...] *)
Definition programCboOpcodeFilter (opc0 nc_ opc1 loc rem : Z) (pmu : UncorePMU) : M unit :=
  let flag (b v : Z) := if b =? 0 then 0 else v in
  if JAKETOWN =? pcm_model then ptr_write (filter0 pmu) (JKT_CBO_MSR_PMON_BOX_FILTER_OPC opc0)
  else if is_one_of pcm_model [IVYTOWN; HASWELLX; BDX_DE; BDX] then
    ptr_write (filter1 pmu) (IVTHSX_CBO_MSR_PMON_BOX_FILTER1_OPC opc0)
  else if SKX =? pcm_model then
    ptr_write (filter1 pmu)
      (u64 (u32 (SKX_CHA_MSR_PMON_BOX_FILTER1_OPC0 opc0 + SKX_CHA_MSR_PMON_BOX_FILTER1_OPC1 opc1)
            + flag rem (SKX_CHA_MSR_PMON_BOX_FILTER1_REM 1)
            + flag loc (SKX_CHA_MSR_PMON_BOX_FILTER1_LOC 1)
            + SKX_CHA_MSR_PMON_BOX_FILTER1_NM 1
            + SKX_CHA_MSR_PMON_BOX_FILTER1_NOT_NM 1
            + flag nc_ (SKX_CHA_MSR_PMON_BOX_FILTER1_NC 1)))
  else throw StdException.

(** [*pmu.counterValue[c] = 0] for the counters of the unit. *)
Definition reset_counter_values (pmu : UncorePMU) : M unit :=
  forM (seq 0 (Nat.min maxCounters (size pmu))) (fun c =>
    match counterValue pmu !! c with
    | Some p => ptr_write p 0
    | None => throw OutOfRange
    end).

(** The filters of [programCbo], written between freezing and programming. *)
Definition write_cbo_filters (opCode nc_ llc_lookup_tid_filter loc rem : Z) (pmu : UncorePMU) : M unit :=
  (if is_one_of pcm_model extended_umask_models then mret tt
   else programCboOpcodeFilter opCode nc_ 0 loc rem pmu) ;;
  (if is_one_of pcm_model [HASWELLX; BDX_DE; BDX; SKX] && negb (llc_lookup_tid_filter =? 0)
   then ptr_write (filter0 pmu) llc_lookup_tid_filter else mret tt).

Definition programCbo_unit (events : list Z) (opCode nc_ llc_lookup_tid_filter loc rem : Z) (pmu : UncorePMU)
    : M UncorePMU :=
  r ← initFreeze pcm_model UNC_PMON_UNIT_CTL_FRZ_EN false pmu;
  write_cbo_filters opCode nc_ llc_lookup_tid_filter loc rem r.1 ;;
  events ← events_array maxCounters events r.1;
  pmu ← program pcm_model r.1 (Some events) UNC_PMON_UNIT_CTL_FRZ_EN;
  reset_counter_values pmu ;;
  mret pmu.

(** [programCbo] with its arguments. *)
Definition programCbo_events (events : list Z) (opCode nc_ llc_lookup_tid_filter loc rem : Z) (st : pcm_uncore)
    : M pcm_uncore :=
  programUncorePMUs CBO_PMU_ID (programCbo_unit events opCode nc_ llc_lookup_tid_filter loc rem) st.

Definition programCboRaw_unit (events : list Z) (f0 f1 : Z) (pmu : UncorePMU) : M UncorePMU :=
  r ← initFreeze pcm_model UNC_PMON_UNIT_CTL_FRZ_EN false pmu;
  write_if (filter0 r.1) f0 ;;
  write_if (filter1 r.1) f1 ;;
  events ← events_array 4 events r.1;
  pmu ← program pcm_model r.1 (Some events) UNC_PMON_UNIT_CTL_FRZ_EN;
  reset_counter_values pmu ;;
  mret pmu.

Definition programCboRaw (events : list Z) (f0 f1 : Z) (st : pcm_uncore) : M pcm_uncore :=
  programUncorePMUs CBO_PMU_ID (programCboRaw_unit events f0 f1) st.

(** ** The other kinds *)

Definition programMDF (events : list Z) (st : pcm_uncore) : M pcm_uncore :=
  programUncorePMUs MDF_PMU_ID (freeze_and_program 4 events UNC_PMON_UNIT_CTL_FRZ_EN) st.

(** The unit is not released: [program] gets 0 for [extra]. *)
Definition programUBOX_unit (events : option (list Z)) (pmu : UncorePMU) : M UncorePMU :=
  r ← initFreeze pcm_model UNC_PMON_UNIT_CTL_FRZ_EN false pmu;
  ptr_write (fixedCounterControl r.1) UCLK_FIXED_CTL_EN ;;
  match events with
  | Some events => events ← events_array 2 events r.1; program pcm_model r.1 (Some events) 0
  | None => mret r.1
  end.

Definition programUBOX (events : option (list Z)) (st : pcm_uncore) : M pcm_uncore :=
  programUncorePMUs UBOX_PMU_ID (programUBOX_unit events) st.

Definition programPCU_unit (PCUCntConf : list Z) (filter : Z) (pmu : UncorePMU) : M UncorePMU :=
  r ← initFreeze pcm_model UNC_PMON_UNIT_CTL_FRZ_EN false pmu;
  write_if (filter0 r.1) filter ;;
  events ← events_array 4 PCUCntConf r.1;
  program pcm_model r.1 (Some events) UNC_PMON_UNIT_CTL_FRZ_EN.

Definition programPCU (PCUCntConf : list Z) (filter : Z) (st : pcm_uncore) : M pcm_uncore :=
  programUncorePMUs PCU_PMU_ID (programPCU_unit PCUCntConf filter) st.

(** [programCbo()]: the latency and request events, then the clocks of the U-box. *)
Definition programCbo (st : pcm_uncore) : M pcm_uncore :=
  let '(events, opCode) := initLLCReadMissLatencyEvents pf (replicate maxCounters 0) 0 in
  let events := initCHARequestEvents pf events in
  st ← programCbo_events events opCode 0 0 1 1 st;
  programUBOX None st.

Definition programPCIeEventGroup (eventGroup : list Z) (st : pcm_uncore) : M pcm_uncore :=
  match pcie_event_group pcm_model eventGroup with
  | Ok (Some (events, opCode, nc_, tid)) => programCbo_events events opCode nc_ tid 1 1 st
  | Ok None => mret st
  | Throw e => throw e
  end.

(** ** IIO and IRP stacks *)

(** The units of the stacks [units] of one socket, in the order of [units]; a missing one is
    skipped. *)
Fixpoint program_stacks (f : UncorePMU -> M UncorePMU) (units : list Z) (pmus : list (Z * UncorePMU))
    : M (list (Z * UncorePMU)) :=
  match units with
  | [] => mret pmus
  | unit :: units' =>
      match list_find (fun e => e.1 = unit) pmus with
      | None => program_stacks f units' pmus
      | Some (i, (_, pmu)) => pmu' ← f pmu; program_stacks f units' (<[i := (unit, pmu')]> pmus)
      end
  end.

(** The sockets up to their number, which index the vector of units. *)
Definition program_sockets (f : UncorePMU -> M UncorePMU) (units : list Z) (pmus : list (list (Z * UncorePMU)))
    : M (list (list (Z * UncorePMU))) :=
  if negb (up_has_MSR pf) || bool_decide (pmus = []) then mret pmus
  else
    let n := Z.to_nat (up_sockets pf) in
    l ← mapM_ (take n pmus) (program_stacks f units);
    if (length pmus <? n)%nat then throw OutOfRange else mret (l ++ drop n pmus).

Definition programIIOCounters (rawEvents : list Z) (IIOStack : Z) (st : pcm_uncore) : M pcm_uncore :=
  let units := if IIOStack =? -1 then seqZ 0 (Z.of_nat (stacks_count pcm_model)) else [IIOStack] in
  l ← program_sockets (freeze_and_program 4 rawEvents UNC_PMON_UNIT_CTL_RSV) units (iioPMUs st);
  mret (set_iio l st).

Definition getMaxNumOfIIOStacks (st : pcm_uncore) : nat :=
  match iioPMUs st with s :: _ => length s | [] => 0 end.

Definition programIRPCounters (rawEvents : list Z) (IIOStack : Z) (st : pcm_uncore) : M pcm_uncore :=
  let units := if IIOStack =? -1 then seqZ 0 (Z.of_nat (getMaxNumOfIIOStacks st)) else [IIOStack] in
  l ← program_sockets (freeze_and_program 2 rawEvents UNC_PMON_UNIT_CTL_RSV) units (irpPMUs st);
  mret (set_irp l st).

(** ** CXL ports *)

Definition programCXLCM_events (events : list Z) (st : pcm_uncore) : M pcm_uncore :=
  l ← mapM_ (cxlPMUs st) (fun s => mapM_ s (fun p =>
        u ← freeze_and_program 8 events UNC_PMON_UNIT_CTL_FRZ_EN p.1; mret (u, p.2)));
  mret (set_cxl l st).

Definition programCXLDP_events (events : list Z) (st : pcm_uncore) : M pcm_uncore :=
  l ← mapM_ (cxlPMUs st) (fun s => mapM_ s (fun p =>
        u ← freeze_and_program 4 events UNC_PMON_UNIT_CTL_FRZ_EN p.2; mret (p.1, u)));
  mret (set_cxl l st).

Definition programCXLCM (st : pcm_uncore) : M pcm_uncore :=
  programCXLCM_events
    (<[CXL_TxC_CACHE := PMON_CTL_EVENT 0x02 + PMON_CTL_UMASK 0x04]>
    (<[CXL_RxC_CACHE := PMON_CTL_EVENT 0x41 + PMON_CTL_UMASK 0x04]>
    (<[CXL_TxC_MEM := PMON_CTL_EVENT 0x02 + PMON_CTL_UMASK 0x10]>
    (<[CXL_RxC_MEM := PMON_CTL_EVENT 0x41 + PMON_CTL_UMASK 0x10]> (replicate 8 0))))) st.

Definition programCXLDP (st : pcm_uncore) : M pcm_uncore :=
  programCXLDP_events (<[CXL_TxC_MEM := PMON_CTL_EVENT 0x02 + PMON_CTL_UMASK 0x20]> (replicate 4 0)) st.

(** ** Freezing, release and clean-up of everything *)

(** The part of [freezeServerUncoreCounters] and [unfreezeServerUncoreCounters] for socket
    [i]; [server] and [unit] do the work for the server uncore and for a unit. *)
Definition control_socket (server : ServerUncorePMUs -> M ServerUncorePMUs) (unit : Z -> UncorePMU -> M UncorePMU)
    (i : nat) (st : pcm_uncore) : M pcm_uncore :=
  let stack (e : Z * UncorePMU) := pmu ← unit UNC_PMON_UNIT_CTL_RSV e.2; mret (e.1, pmu) in
  match serverUncorePMUs st !! i with
  | None => mret st
  | Some s =>
      s' ← server s;
      let st := set_servers (<[i := s']> (serverUncorePMUs st)) st in
      st ← forAllUncorePMUs i PCU_PMU_ID (unit UNC_PMON_UNIT_CTL_FRZ_EN) st;
      st ← (if IIOEventsAvailable pcm_model then
              match iioPMUs st !! i with
              | Some l => l' ← mapM_ l stack; mret (set_iio (<[i := l']> (iioPMUs st)) st)
              | None => throw OutOfRange
              end
            else mret st);
      st ← match irpPMUs st !! i with
           | Some l => l' ← mapM_ l stack; mret (set_irp (<[i := l']> (irpPMUs st)) st)
           | None => mret st
           end;
      st ← forAllUncorePMUs i CBO_PMU_ID (unit UNC_PMON_UNIT_CTL_FRZ_EN) st;
      forAllUncorePMUs i MDF_PMU_ID (unit UNC_PMON_UNIT_CTL_FRZ_EN) st
  end.

Fixpoint control_sockets (server : ServerUncorePMUs -> M ServerUncorePMUs) (unit : Z -> UncorePMU -> M UncorePMU)
    (sockets : list nat) (st : pcm_uncore) : M pcm_uncore :=
  match sockets with
  | [] => mret st
  | i :: l => st ← control_socket server unit i st; control_sockets server unit l st
  end.

Definition control_all (server : ServerUncorePMUs -> M ServerUncorePMUs) (unit : Z -> UncorePMU -> M UncorePMU)
    (st : pcm_uncore) : M pcm_uncore :=
  st ← control_sockets server unit (if up_has_MSR pf then seq 0 (length (serverUncorePMUs st)) else []) st;
  l ← mapM_ (cxlPMUs st) (fun s => mapM_ s (fun p =>
        a ← unit UNC_PMON_UNIT_CTL_FRZ_EN p.1;
        b ← unit UNC_PMON_UNIT_CTL_FRZ_EN p.2;
        mret (a, b)));
  mret (set_cxl l st).

Definition freezeServerUncoreCounters (st : pcm_uncore) : M pcm_uncore :=
  control_all (freezeCounters pcm_model) (freeze pcm_model) st.

Definition unfreezeServerUncoreCounters (st : pcm_uncore) : M pcm_uncore :=
  control_all (unfreezeCounters pcm_model) (unfreeze pcm_model) st.

Definition idx_cleanup (pmu : IDX_PMU) : M unit :=
  forM (idx_counterControl pmu) (fun cc => write_if cc 0) ;;
  write_if (resetControl pmu) 3 ;;
  write_if (generalControl pmu) 0.

Definition cleanupUncorePMUs (st : pcm_uncore) : M unit :=
  forM (iioPMUs st) (fun s => forM s (fun e => cleanup e.2)) ;;
  forM (idxPMUs st) (fun s => forM s idx_cleanup) ;;
  forM (irpPMUs st) (fun s => forM s (fun e => cleanup e.2)) ;;
  forM (uncorePMUs st) (fun s => forM s (fun d => forM d (fun e => forM e.2 (fun p =>
    match p with Some pmu => cleanup pmu | None => mret tt end)))) ;;
  forM (cxlPMUs st) (fun s => forM s (fun p => cleanup p.1 ;; cleanup p.2)) ;;
  forM (serverUncorePMUs st) cleanupPMUs.

(** ** Reading *)

(** The sum over the units of one kind of a socket. *)
Fixpoint sum_units (read : UncorePMU -> M Z) (l : list (option UncorePMU)) (result : Z) : M Z :=
  match l with
  | [] => mret result
  | Some pmu :: l' => v ← read pmu; sum_units read l' (u64 (result + v))
  | None :: l' => sum_units read l' result
  end.

Fixpoint sum_dies (read : UncorePMU -> M Z) (pmu_id : UncorePMUIDs) (dies : list die_pmus) (result : Z) : M Z :=
  match dies with
  | [] => mret result
  | d :: dies' =>
      result ← match list_find (fun e => e.1 = pmu_id) d with
               | Some (_, e) => sum_units read e.2 result
               | None => mret result
               end;
      sum_dies read pmu_id dies' result
  end.

(** [*(pmu->counterValue[ctr])] *)
Definition counter_of (ctr : nat) (pmu : UncorePMU) : M Z :=
  match counterValue pmu !! ctr with Some p => ptr_read p | None => throw OutOfRange end.

Definition getUncoreCounterState (pmu_id : UncorePMUIDs) (socket ctr : nat) (st : pcm_uncore) : M Z :=
  match uncorePMUs st !! socket with
  | Some dies => if (ctr <? maxCounters)%nat then sum_dies (counter_of ctr) pmu_id dies 0 else mret 0
  | None => mret 0
  end.

Definition getUncoreClocks (socket_id : nat) (st : pcm_uncore) : M Z :=
  match uncorePMUs st !! socket_id with
  | Some dies => sum_dies (fun pmu => ptr_read (fixedCounterValue pmu)) UBOX_PMU_ID dies 0
  | None => mret 0
  end.

Definition getPCIeCounterData (socket_ ctr_ : nat) (st : pcm_uncore) : M Z :=
  getUncoreCounterState CBO_PMU_ID socket_ ctr_ st.

Definition getMaxNumOfUncorePMUs (pmu_id : UncorePMUIDs) (socket : nat) (st : pcm_uncore) : nat :=
  match uncorePMUs st !! socket with
  | Some dies => foldl (fun count d => count + match list_find (fun e => e.1 = pmu_id) d with
                                               | Some (_, e) => length e.2
                                               | None => 0
                                               end)%nat 0%nat dies
  | None => 0
  end.

Definition getIIOCounterState (socket : nat) (IIOStack : Z) (counter : nat) (st : pcm_uncore) : M Z :=
  match s ← iioPMUs st !! socket; list_find (fun e => e.1 = IIOStack) s with
  | Some (_, (_, pmu)) => counter_of counter pmu
  | None => mret 0
  end.

(** ** Accelerators *)

Definition supportIDXAccelDev : bool := is_one_of pcm_model [SPR; EMR; GNR; SRF; GNR_D].

Definition getMaxNumOfIDXAccelCtrs (accel : nat) : nat :=
  if supportIDXAccelDev then
    if (accel =? IDX_IAA)%nat || (accel =? IDX_DSA)%nat then SPR_IDX_ACCEL_COUNTER_MAX_NUM
    else if (accel =? IDX_QAT)%nat then SPR_QAT_ACCEL_COUNTER_MAX_NUM else 0%nat
  else 0%nat.

(** Indexes [idxPMUs] without looking whether it has been filled. *)
Definition getNumOfIDXAccelDevs (accel : nat) (st : pcm_uncore) : M nat :=
  if (IDX_MAX <=? accel)%nat then mret 0%nat
  else match idxPMUs st !! accel with Some l => mret (length l) | None => throw OutOfRange end.

Definition idx_freeze (pmu : IDX_PMU) : M unit := ptr_write (freezeControl pmu) 0xFFFFFFFF.
Definition idx_unfreeze (pmu : IDX_PMU) : M unit := ptr_write (freezeControl pmu) 0.

Definition idx_initFreeze (pmu : IDX_PMU) : M bool :=
  match resetControl pmu, freezeControl pmu with
  | Some r, Some _ => reg_write r 2 ;; idx_freeze pmu ;; mret true
  | _, _ => mret true
  end.

Definition idx_resetUnfreeze (pmu : IDX_PMU) : M unit := idx_unfreeze pmu.

(** [*v[i] = value] for a vector of registers. *)
Definition nth_write (l : list HWRegisterPtr) (i : nat) (value : Z) : M unit :=
  match l !! i with Some p => ptr_write p value | None => throw OutOfRange end.

(** [v.at(i)] *)
Definition vector_at (l : list Z) (i : nat) : M Z :=
  match l !! i with Some v => mret v | None => throw OutOfRange end.

(** The filters of the counters of an accelerator. *)
Record idx_filters := IdxFilters {
  filters_wq : list Z;
  filters_eng : list Z;
  filters_tc : list Z;
  filters_pgsz : list Z;
  filters_xfersz : list Z
}.

(** The format of the Linux perf driver of an event. *)
Definition idx_perf_config (event : Z) : Z :=
  Z.lor (extract_bits event 8 11) (u64 (Z.shiftl (extract_bits event 32 59) 4)).

Definition program_idx_counter (accel : nat) (events : list Z) (f : idx_filters) (pmu : IDX_PMU) (i : nat) : M unit :=
  (if perf_mode_ pmu then mret tt else nth_write (idx_counterControl pmu) i 0) ;;
  v ← vector_at (filters_wq f) i; nth_write (counterFilterWQ pmu) i (extract_bits_32 v 0 15) ;;
  v ← vector_at (filters_eng f) i; nth_write (counterFilterENG pmu) i (extract_bits_32 v 0 15) ;;
  v ← vector_at (filters_tc f) i; nth_write (counterFilterTC pmu) i (extract_bits_32 v 0 7) ;;
  v ← vector_at (filters_pgsz f) i; nth_write (counterFilterPGSZ pmu) i (extract_bits_32 v 0 7) ;;
  v ← vector_at (filters_xfersz f) i; nth_write (counterFilterXFERSZ pmu) i (extract_bits_32 v 0 7) ;;
  if perf_mode_ pmu then
    if (accel =? IDX_IAA)%nat || (accel =? IDX_DSA)%nat then
      e ← vector_at events i; nth_write (idx_counterControl pmu) i (idx_perf_config e)
    else mret tt
  else e ← vector_at events i; nth_write (idx_counterControl pmu) i e.

Definition program_idx_unit (accel maxCTR : nat) (events : list Z) (f : idx_filters) (pmu : IDX_PMU) : M unit :=
  idx_initFreeze pmu ;;
  forM (seq 0 maxCTR) (program_idx_counter accel events f pmu) ;;
  idx_resetUnfreeze pmu.

Definition programIDXAccelCounters (accel : nat) (events : list Z) (f : idx_filters) (st : pcm_uncore) : M unit :=
  let maxCTR := getMaxNumOfIDXAccelCtrs accel in
  if bool_decide (events = []) || (IDX_MAX <=? accel)%nat then mret tt
  else
    n ← getNumOfIDXAccelDevs accel st;
    if (n =? 0)%nat then mret tt
    else
      forM (default [] (idxPMUs st !! accel)) (program_idx_unit accel (Nat.min maxCTR (length events)) events f).

Definition getIDXAccelCounterState (accel dev counter_id : nat) (st : pcm_uncore) : M Z :=
  if (IDX_MAX <=? accel)%nat then mret 0
  else
    n ← getNumOfIDXAccelDevs accel st;
    if (n <=? dev)%nat || (getMaxNumOfIDXAccelCtrs accel <=? counter_id)%nat then mret 0
    else
      match l ← idxPMUs st !! accel; pmu ← l !! dev; idx_counterValue pmu !! counter_id with
      | Some p => ptr_read p
      | None => throw OutOfRange
      end.

(** [controlQATTelemetry] *)
Definition controlQATTelemetry (dev : nat) (operation : Z) (st : pcm_uncore) : M unit :=
  n ← getNumOfIDXAccelDevs IDX_QAT st;
  if (n =? 0)%nat then mret tt
  else if (n <=? dev)%nat || (QAT_TLM_MAX <=? operation) then mret tt
  else
    match l ← idxPMUs st !! IDX_QAT; l !! dev with
    | Some pmu => ptr_write (generalControl pmu) operation
    | None => throw OutOfRange
    end.

End Code.

(** * Creation of the CBo units *)

Section Init.
Context {machine : Machine}.

(** A new width extender, with its first reading of the raw counter. *)
Definition create_extender (raw : AbstractRawCounter) (width : Z) : M nat := fun s =>
  match raw_counter_read raw s with
  | (s', Ok v) =>
      let id := fresh (dom (extenders s')) in
      (HW (history s') (<[id := Extender (CounterWidthExtender.make width v) raw]> (extenders s')) (slots s'), Ok id)
  | (s', Throw e) => (s', Throw e)
  end.

(** A width extender of 48 bits for an MSR. *)
Definition new_extender (msr : SafeMsrHandle) (addr : Z) : M nat := create_extender (MsrHandleCounter msr addr (2 ^ 64 - 1)) 48.

(** The unit of box [cbo] of a socket whose reference core has the handle. *)
Definition make_cbo (m : Z) (handle : SafeMsrHandle) (cbo : Z) : M UncorePMU :=
  let reg addr := Some (MSRRegister handle addr) in
  let filter1MSR := CX_MSR_PMON_BOX_FILTER1 m cbo in
  values ← mapM_ [0; 1; 2; 3] (fun c => id ← new_extender handle (CX_MSR_PMON_CTRY m cbo c);
                                        mret (Some (CounterWidthExtenderRegister id)));
  mret (MkUncorePMU 0 (reg (CX_MSR_PMON_BOX_CTL m cbo))
          (map (fun c => reg (CX_MSR_PMON_CTLY m cbo c)) [0; 1; 2; 3]) values None None
          (reg (CX_MSR_PMON_BOX_FILTER m cbo)) (if filter1MSR =? 0 then None else reg filter1MSR)).

(** The units of the sockets: their reference cores, and the number of boxes of each. *)
Definition initCbos (m : Z) (handles : list SafeMsrHandle) (numCBoxes : nat) : M (list (list die_pmus)) :=
  if negb (hasPCICFGUncore m) then mret (map (fun _ => []) handles)
  else mapM_ handles (fun handle =>
         l ← mapM_ (seqZ 0 (Z.of_nat numCBoxes)) (fun cbo => pmu ← make_cbo m handle cbo; mret (Some pmu));
         mret [[(CBO_PMU_ID, l)]]).

End Init.

(** * The writes of the programming of one unit *)

(** The control register of a unit is there, and is none of its selectors. *)
Definition controlled_by (u : HWRegister) (pmu : UncorePMU) : Prop :=
  unitControl pmu = Some u /\ forall r, Some r ∈ counterControl pmu -> r <> u.

Definition filter_log (p : HWRegisterPtr) (v : Z) : writes := match p with Some r => [(r, v)] | None => [] end.

(** What is written when [before] is written between the freezing and the selectors. *)
Definition programming_log (m extra : Z) (u : HWRegister) (before : writes) (pmu : UncorePMU) (events : list Z) : writes :=
  freeze_log m extra u ++ before ++ selectors_log m (counterControl pmu) events ++ release_log m extra u.

Lemma freeze_log_freezes m extra u : extra ∈ extra_values ->
  exists c, last_write u (freeze_log m extra u) None = Some c /\ frozen_value m c = true.
Proof.
  intros Hextra%extra_values_inv. unfold freeze_log, frozen_value.
  by destruct Hextra as [->| ->], (spr_unit m); simpl; rewrite !decide_True by done; eauto.
Qed.

Section Unit.
Context {machine : Machine} (pcm_model : Z).

Lemma write_if_writes p v : write_if p v ≡ run_writes (filter_log p v).
Proof. destruct p; [apply run_writes_one|done]. Qed.

Lemma ptr_write_writes p r v : p = Some r -> ptr_write p v ≡ run_writes [(r, v)].
Proof. intros ->. apply run_writes_one. Qed.

(** The common shape of the functions that program a unit. *)
Lemma programming_writes {A} pmu u extra before (m : UncorePMU -> M unit) n events (k : UncorePMU -> M A) :
  cache_ok pcm_model pmu -> unitControl pmu = Some u -> extra <> 0 -> (Nat.min n (size pmu) <= length events)%nat ->
  m (set_model pcm_model pmu) ≡ run_writes before ->
  (r ← initFreeze pcm_model extra false pmu;
   m r.1 ;;
   events ← events_array n events r.1;
   pmu ← program pcm_model r.1 (Some events) extra;
   k pmu) ≡
  (run_writes (programming_log pcm_model extra u before pmu (take n events)) ;; k (set_model pcm_model pmu)).
Proof.
  intros Hc Hu He Hn Hm. unfold programming_log.
  rewrite (M_bind_cong _ _ _ _ (initFreeze_writes _ _ extra _ Hc Hu) (fun _ => reflexivity _)).
  rewrite M_assoc, run_writes_app, M_assoc. apply M_bind_cong; [done|]. intros _. rewrite M_ret_bind. cbn [fst].
  rewrite run_writes_app, M_assoc. apply M_bind_cong; [done|]. intros _.
  unfold events_array. destruct (Nat.leb_spec (Nat.min n (size (set_model pcm_model pmu))) (length events)) as [_|Hl];
    [|change (size (set_model pcm_model pmu)) with (size pmu) in Hl; lia].
  rewrite M_ret_bind. unfold program. destruct (Z.eqb_spec extra 0) as [|_]; [done|]. cbn [negb].
  rewrite run_writes_app, !M_assoc, <- program_loop_writes. apply M_bind_cong; [done|]. intros _.
  rewrite (M_bind_cong _ _ _ _ (resetUnfreeze_writes pcm_model (set_model pcm_model pmu) extra u
    (cache_ok_set_model _ _) Hu) (fun _ => reflexivity _)).
  rewrite M_assoc. apply M_bind_cong; [done|]. intros _. by rewrite M_ret_bind.
Qed.

Lemma programming_disciplined extra u before pmu events :
  extra ∈ extra_values -> controlled_by u pmu -> Forall (fun w => w.1 <> u) before ->
  frozen_writes pcm_model u None (programming_log pcm_model extra u before pmu events) /\
  released_after_reset pcm_model u (programming_log pcm_model extra u before pmu events).
Proof.
  intros Hextra [Hu Hd] Hb. unfold programming_log.
  destruct (freeze_log_freezes pcm_model extra u Hextra) as (c & Hl & Hc). apply extra_values_inv in Hextra. split.
  - apply frozen_writes_app; [|apply frozen_writes_app; [|apply frozen_writes_app]].
    + apply frozen_writes_own. unfold freeze_log. by destruct (spr_unit pcm_model); repeat constructor.
    + rewrite Hl. by apply frozen_writes_while.
    + rewrite (last_write_skip _ before), Hl by done. apply frozen_writes_while; [by apply selectors_log_other|done].
    + apply frozen_writes_own. unfold release_log. by destruct (spr_unit pcm_model); repeat constructor.
  - unfold release_log, released_after_reset. rewrite !app_assoc.
    unfold frozen_value, resets_counters.
    by destruct Hextra as [->| ->], (spr_unit pcm_model); eexists _, _, _.
Qed.

End Unit.

(** The filter of an opcode, and which of the two filters it goes to. *)
Definition opcode_filter (m opc0 nc_ loc rem : Z) : Z :=
  if JAKETOWN =? m then u32 (Z.shiftl opc0 23)
  else if m =? SKX then
    u64 (u32 (u32 (Z.shiftl opc0 9) + 0) + (if rem =? 0 then 0 else 1) + (if loc =? 0 then 0 else 2)
         + 16 + 32 + (if nc_ =? 0 then 0 else 2 ^ 30))
  else u32 (Z.shiftl opc0 20).

Definition opcode_filter_register (m : Z) (pmu : UncorePMU) : HWRegisterPtr :=
  if JAKETOWN =? m then filter0 pmu else filter1 pmu.

Definition cbo_filter_models : list Z := [JAKETOWN; IVYTOWN; HASWELLX; BDX_DE; BDX; SKX].

(** The unit has the filters that programming it on the model writes. *)
Definition filters_ready (m : Z) (pmu : UncorePMU) : Prop :=
  m ∈ extended_umask_models \/
  m ∈ cbo_filter_models /\ opcode_filter_register m pmu <> None /\ filter0 pmu <> None.

Definition cbo_filter_log (m opc0 nc_ tid loc rem : Z) (pmu : UncorePMU) : writes :=
  (if is_one_of m extended_umask_models then []
   else filter_log (opcode_filter_register m pmu) (opcode_filter m opc0 nc_ loc rem)) ++
  (if is_one_of m [HASWELLX; BDX_DE; BDX; SKX] && negb (tid =? 0) then filter_log (filter0 pmu) tid else []).

(** The filters are none of the control register. *)
Definition filters_apart (u : HWRegister) (pmu : UncorePMU) : Prop :=
  filter0 pmu <> Some u /\ filter1 pmu <> Some u.

Section Filters.
Context {machine : Machine} (pf : pcm_platform).

Lemma is_one_of_spec m l : is_one_of m l = true <-> m ∈ l.
Proof. unfold is_one_of. by rewrite bool_decide_eq_true. Qed.

Lemma opcode_filter_writes opc0 nc_ loc rem pmu : up_model pf ∈ cbo_filter_models ->
  opcode_filter_register (up_model pf) pmu <> None ->
  programCboOpcodeFilter pf opc0 nc_ 0 loc rem pmu ≡
  run_writes (filter_log (opcode_filter_register (up_model pf) pmu) (opcode_filter (up_model pf) opc0 nc_ loc rem)).
Proof.
  intros Hm Hf. unfold programCboOpcodeFilter, opcode_filter, opcode_filter_register in *.
  apply list_elem_of_In in Hm. cbn in Hm.
  destruct Hm as [Hm|[Hm|[Hm|[Hm|[Hm|[Hm|[]]]]]]]; rewrite <- Hm in *;
    (destruct (filter0 pmu), (filter1 pmu); simpl in Hf |- *; try done; apply run_writes_one).
Qed.

Lemma write_cbo_filters_writes opc0 nc_ tid loc rem pmu : filters_ready (up_model pf) pmu ->
  write_cbo_filters pf opc0 nc_ tid loc rem pmu ≡
  run_writes (cbo_filter_log (up_model pf) opc0 nc_ tid loc rem pmu).
Proof.
  intros Hr. unfold write_cbo_filters, cbo_filter_log. rewrite run_writes_app. apply M_bind_cong.
  - destruct (is_one_of (up_model pf) extended_umask_models) eqn:E; [done|].
    destruct Hr as [Hr|(Hm & Hf & _)]; [apply is_one_of_spec in Hr; congruence|]. by apply opcode_filter_writes.
  - intros _. destruct (is_one_of (up_model pf) [HASWELLX; BDX_DE; BDX; SKX] && negb (tid =? 0)) eqn:E; [|done].
    apply andb_true_iff in E as [E _]. apply is_one_of_spec in E.
    destruct Hr as [Hr|(_ & _ & Hf)].
    + exfalso. clear -E Hr. apply list_elem_of_In in E. apply list_elem_of_In in Hr. cbn in E, Hr.
      destruct E as [E|[E|[E|[E|[]]]]]; rewrite <- E in Hr;
        (repeat (destruct Hr as [Hr|Hr]; [vm_compute in Hr; discriminate|])); done.
    + destruct (filter0 pmu); [apply run_writes_one|done].
Qed.

Lemma filter_log_other u p v : p <> Some u -> Forall (fun w : HWRegister * Z => w.1 <> u) (filter_log p v).
Proof. destruct p as [r|]; intros H; repeat constructor. cbn. congruence. Qed.

Lemma cbo_filter_log_other u opc0 nc_ tid loc rem pmu : filters_apart u pmu ->
  Forall (fun w => w.1 <> u) (cbo_filter_log (up_model pf) opc0 nc_ tid loc rem pmu).
Proof.
  intros [H0 H1]. unfold cbo_filter_log, opcode_filter_register. apply Forall_app_2; repeat case_match; try constructor; by apply filter_log_other.
Qed.

End Filters.

(** ** The jobs that freeze, program, reset and release a unit

    Two ways of programming are not among them. The U-box is frozen when its fixed counter and its
    selectors are written and neither reset nor released ([ubox_writes]); the PCIe generation 5
    units of a raw configuration are programmed without being frozen first ([unfrozen_writes]). *)

Inductive job :=
  | CboJob (opCode nc_ tid loc rem : Z)   (** [programCbo] *)
  | CboRawJob (f0 f1 : Z)                 (** [programCboRaw] *)
  | PcuJob (filter : Z)                   (** [programPCU] *)
  | PlainJob (n : nat) (extra : Z).       (** IIO, IRP, MDF and CXL units, other raw units *)

Definition run_job {machine : Machine} (pf : pcm_platform) (j : job) (events : list Z) (pmu : UncorePMU) : M UncorePMU :=
  match j with
  | CboJob opCode nc_ tid loc rem => programCbo_unit pf events opCode nc_ tid loc rem pmu
  | CboRawJob f0 f1 => programCboRaw_unit pf events f0 f1 pmu
  | PcuJob filter => programPCU_unit pf events filter pmu
  | PlainJob n extra => freeze_and_program pf n events extra pmu
  end.

Definition job_counters (j : job) : nat :=
  match j with CboJob _ _ _ _ _ => maxCounters | CboRawJob _ _ | PcuJob _ => 4%nat | PlainJob n _ => n end.

Definition job_extra (j : job) : Z :=
  match j with PlainJob _ extra => extra | _ => UNC_PMON_UNIT_CTL_FRZ_EN end.

(** The filters a job writes. *)
Definition job_filters (m : Z) (j : job) (pmu : UncorePMU) : writes :=
  match j with
  | CboJob opCode nc_ tid loc rem => cbo_filter_log m opCode nc_ tid loc rem pmu
  | CboRawJob f0 f1 => filter_log (filter0 pmu) f0 ++ filter_log (filter1 pmu) f1
  | PcuJob f => filter_log (filter0 pmu) f
  | PlainJob _ _ => []
  end.

(** After the release the CBo jobs also restart the extended counters. *)
Definition job_finish {machine : Machine} (j : job) (pmu : UncorePMU) : M unit :=
  match j with CboJob _ _ _ _ _ | CboRawJob _ _ => reset_counter_values pmu | _ => mret tt end.

Definition job_ready (pf : pcm_platform) (j : job) (pmu : UncorePMU) : Prop :=
  match j with
  | CboJob _ _ _ _ _ => filters_ready (up_model pf) pmu
  | PlainJob _ extra => extra ∈ extra_values
  | _ => True
  end.

Section Jobs.
Context {machine : Machine} (pf : pcm_platform).

Lemma job_extra_values j pmu : job_ready pf j pmu -> job_extra j ∈ extra_values.
Proof. destruct j; simpl; try done; intros _; by right; left. Qed.

Lemma job_filters_other u j pmu : filters_apart u pmu ->
  Forall (fun w => w.1 <> u) (job_filters (up_model pf) j pmu).
Proof.
  intros Hf. pose proof Hf as [H0 H1]. destruct j; simpl; [by apply cbo_filter_log_other| |by apply filter_log_other|constructor].
  by apply Forall_app_2; apply filter_log_other.
Qed.

Definition job_log (j : job) (u : HWRegister) (pmu : UncorePMU) (events : list Z) : writes :=
  programming_log (up_model pf) (job_extra j) u (job_filters (up_model pf) j pmu) pmu (take (job_counters j) events).

Lemma run_job_writes j events u pmu :
  cache_ok (up_model pf) pmu -> unitControl pmu = Some u -> job_ready pf j pmu ->
  (Nat.min (job_counters j) (size pmu) <= length events)%nat ->
  run_job pf j events pmu ≡
  (run_writes (job_log j u pmu events) ;; job_finish j pmu ;; mret (set_model (up_model pf) pmu)).
Proof.
  intros Hc Hu Hj Hn. unfold job_log. pose proof (job_extra_values j pmu Hj) as Hx.
  assert (He : job_extra j <> 0) by (by apply extra_values_inv in Hx as [->| ->]).
  destruct j as [opCode nc_ tid loc rem|f0 f1|f|n extra]; cbn [run_job job_extra job_counters job_filters job_finish] in *.
  - apply (programming_writes (up_model pf) pmu u _ _ (write_cbo_filters pf opCode nc_ tid loc rem)
      _ _ (fun p => reset_counter_values p ;; mret p)); [done..|]. exact (write_cbo_filters_writes pf opCode nc_ tid loc rem (set_model (up_model pf) pmu) Hj).
  - etransitivity; [|apply (programming_writes (up_model pf) pmu u _ _
      (fun p => write_if (filter0 p) f0 ;; write_if (filter1 p) f1)
      _ _ (fun p => reset_counter_values p ;; mret p)); [done..|]].
    + apply M_bind_cong; [done|]. intros r. by rewrite M_assoc.
    + rewrite run_writes_app. apply M_bind_cong; [|intros _]; apply write_if_writes.
  - etransitivity; [|apply (programming_writes (up_model pf) pmu u _ _ (fun p => write_if (filter0 p) f)
      _ _ mret); [done..|apply write_if_writes]].
    apply M_bind_cong; [done|]. intros r. apply M_bind_cong; [done|]. intros _. apply M_bind_cong; [done|].
    intros l. by rewrite M_bind_ret.
  - etransitivity; [|apply (programming_writes (up_model pf) pmu u _ [] (fun _ => mret tt)
      _ _ mret); done].
    apply M_bind_cong; [done|]. intros r. rewrite M_ret_bind. apply M_bind_cong; [done|].
    intros l. by rewrite M_bind_ret.
Qed.

End Jobs.

(** *** The two exceptions *)

Section Exceptions.
Context {machine : Machine} (pf : pcm_platform).

(** [programUBOX]: the clock of the U-box is started while the unit is frozen, then the two
    selectors are written, if there are events; no counter is reset and nothing releases it. *)
Lemma ubox_writes pmu u r events : cache_ok (up_model pf) pmu -> unitControl pmu = Some u -> fixedCounterControl pmu = Some r ->
  (forall l, events = Some l -> (Nat.min 2 (size pmu) <= length l)%nat) ->
  programUBOX_unit pf events pmu ≡
  (run_writes (freeze_log (up_model pf) UNC_PMON_UNIT_CTL_FRZ_EN u ++ [(r, UCLK_FIXED_CTL_EN)] ++
     from_option (fun l => selectors_log (up_model pf) (counterControl pmu) (take 2 l)) [] events) ;;
   mret (set_model (up_model pf) pmu)).
Proof.
  intros Hc Hu Hr Hl. unfold programUBOX_unit.
  rewrite (M_bind_cong _ _ _ _ (initFreeze_writes _ _ UNC_PMON_UNIT_CTL_FRZ_EN _ Hc Hu) (fun _ => reflexivity _)).
  rewrite M_assoc, run_writes_app, M_assoc. apply M_bind_cong; [done|]. intros _. rewrite M_ret_bind. cbn [fst].
  rewrite run_writes_app, M_assoc. apply M_bind_cong; [by apply ptr_write_writes|]. intros _.
  destruct events as [l|]; cbn [from_option]; [|by cbn [run_writes]; rewrite M_ret_bind].
  specialize (Hl l eq_refl). unfold events_array.
  destruct (Nat.leb_spec (Nat.min 2 (size (set_model (up_model pf) pmu))) (length l)) as [_|H];
    [|change (size (set_model (up_model pf) pmu)) with (size pmu) in H; lia].
  rewrite M_ret_bind. unfold program. cbn [Z.eqb negb]. by rewrite <- program_loop_writes.
Qed.

(** A unit that is programmed without [initFreeze]: the selectors are written while it may
    count; only the reset and the release at the end are those of the other units. *)
Lemma unfrozen_writes pmu u extra events : cache_ok (up_model pf) pmu -> unitControl pmu = Some u -> extra <> 0 ->
  program (up_model pf) pmu (Some events) extra ≡
  (run_writes (selectors_log (up_model pf) (counterControl pmu) events ++ release_log (up_model pf) extra u) ;;
   mret (set_model (up_model pf) pmu)).
Proof.
  intros Hc Hu He. unfold program. destruct (Z.eqb_spec extra 0) as [|_]; [done|]. cbn [negb].
  rewrite run_writes_app, !M_assoc, <- program_loop_writes. apply M_bind_cong; [done|]. intros _.
  by apply resetUnfreeze_writes.
Qed.

End Exceptions.

(** C7. The units that the library freezes before it programs them - a CBo with its opcode and
    thread filters, a raw CBo configuration, the power control unit with its frequency bands,
    IIO, IRP, mesh-to-fabric and CXL units - are programmed by a fixed list of writes: filters
    and selectors are written while the unit is frozen, and the counters are reset under freeze
    before the unit is released. A CBo then restarts its extended counters. The unit is one whose
    control register is apart from its other registers, with the filters its job writes and an
    array of events long enough. (The U-box, which is never released, and the PCIe generation 5
    units, which are not frozen, follow the lists of [ubox_writes] and [unfrozen_writes].) *)
Theorem jobs_disciplined {machine : Machine} pf j events u pmu :
  cache_ok (up_model pf) pmu -> controlled_by u pmu -> filters_apart u pmu -> job_ready pf j pmu ->
  (Nat.min (job_counters j) (size pmu) <= length events)%nat ->
  exists log,
    run_job pf j events pmu ≡
      (run_writes log ;; job_finish j pmu ;; mret (set_model (up_model pf) pmu)) /\
    (forall w, w ∈ job_filters (up_model pf) j pmu -> w ∈ log) /\
    frozen_writes (up_model pf) u None log /\ released_after_reset (up_model pf) u log.
Proof.
  intros Hc Hu Hf Hj Hn. exists (job_log pf j u pmu events). split_and!.
  - apply run_job_writes; [done|apply Hu|done..].
  - intros w Hw. unfold job_log, programming_log. rewrite !elem_of_app. auto.
  - eapply programming_disciplined; [by eapply job_extra_values|done|by apply job_filters_other].
  - eapply programming_disciplined; [by eapply job_extra_values|done|by apply job_filters_other].
Qed.

(** * Creation and programming of the CBo units *)

(** Computations that end without an exception whatever the machine answers, given the
    condition [P] on the extenders that exist, and give a result with [Q]. Extenders are
    only created. *)
Definition more_extenders (h h' : hw) : Prop := dom (extenders h) ⊆ dom (extenders h').

Definition stable (P : hw -> Prop) : Prop := forall h h', more_extenders h h' -> P h -> P h'.

Definition works {machine : Machine} {A} (P : hw -> Prop) (Q : hw -> A -> Prop) (m : M A) : Prop :=
  forall h, P h -> exists h' a, m h = (h', Ok a) /\ more_extenders h h' /\ Q h' a.

Section Works.
Context {machine : Machine}.

Lemma stable_true : stable (fun _ => True).
Proof. by intros h h' _ _. Qed.

Lemma works_ret {A} P (Q : hw -> A -> Prop) a : (forall h, P h -> Q h a) -> works P Q (mret a).
Proof. intros H h Hh. exists h, a. split; [done|]. split; [unfold more_extenders; set_solver|auto]. Qed.

Lemma works_bind {A B} P (Q : hw -> A -> Prop) (R : hw -> B -> Prop) (m : M A) (f : A -> M B) : stable P ->
  works P Q m -> (forall a, works (fun h => P h /\ Q h a) R (f a)) -> works P R (m ≫= f).
Proof.
  intros HP Hm Hf h Hh. destruct (Hm h Hh) as (h1 & a & E & H1 & Ha).
  destruct (Hf a h1) as (h2 & b & E2 & H2 & Hb); [split; [by eapply HP|done]|].
  exists h2, b. split; [unfold mbind, M_bind; by rewrite E|]. split; [unfold more_extenders in *; set_solver|done].
Qed.

Lemma works_weaken {A} (P P' : hw -> Prop) (Q Q' : hw -> A -> Prop) m :
  works P Q m -> (forall h, P' h -> P h) -> (forall h a, Q h a -> Q' h a) -> works P' Q' m.
Proof. intros H HP HQ h Hh. destruct (H h (HP h Hh)) as (h' & a & ? & ? & ?). exists h', a. auto. Qed.

Lemma works_mapM_ {A B} P (Q : hw -> A -> B -> Prop) (f : A -> M B) l : stable P ->
  (forall a b, stable (fun h => Q h a b)) ->
  (forall a, a ∈ l -> works P (fun h => Q h a) (f a)) -> works P (fun h => Forall2 (Q h) l) (mapM_ l f).
Proof.
  intros HP HQ. induction l as [|a l IH]; intros Hf; simpl; [by apply works_ret|].
  apply (works_bind P (fun h => Q h a)); [done|apply Hf; left|]. intros b.
  apply (works_bind _ (fun h => Forall2 (Q h) l)).
  - intros h h' Hd [H1 H2]. split; [by eapply HP|by eapply HQ].
  - eapply works_weaken; [apply IH; intros; apply Hf; by right|by intros h []|done].
  - intros bs. apply works_ret. intros h [[_ Hb] Hbs]. by constructor.
Qed.

Lemma run_writes_extenders l h : Forall (fun w => plain w.1 = true) l ->
  exists h', run_writes l h = (h', Ok tt) /\ extenders h' = extenders h.
Proof.
  intros Hl. revert h. induction Hl as [|[r v] l Hr _ IH]; intros h; [by exists h|].
  simpl. unfold mbind, M_bind.
  assert (exists h1, reg_write r v h = (h1, Ok tt) /\ extenders h1 = extenders h) as (h1 & -> & <-).
  { destruct r as [| | | |[]|]; simpl in *; try done; by eexists. }
  apply IH.
Qed.

Lemma works_run_writes P l : Forall (fun w => plain w.1 = true) l -> works P (fun _ _ => True) (run_writes l).
Proof.
  intros Hl h _. destruct (run_writes_extenders l h Hl) as (h' & E & Hd).
  exists h', tt. unfold more_extenders. by rewrite Hd.
Qed.

Lemma read_sum_extenders l result h : exists h' v, read_sum l result h = (h', Ok v) /\ extenders h' = extenders h.
Proof.
  revert result h. induction l as [|p l IH]; intros result h; [by eexists _, _|]. simpl. unfold mbind, M_bind, access_read.
  destruct (IH (u64 (result + default 0 (respond (history h) p))) (HW (Read p :: history h) (extenders h) (slots h))) as (h' & v & E & Hd).
  exists h', v. by rewrite E.
Qed.

Lemma raw_counter_read_extenders c h : exists h' v, raw_counter_read c h = (h', Ok v) /\ extenders h' = extenders h.
Proof.
  destruct c as [[core|] addr mask|[core|]|[core|]|l]; [..|apply read_sum_extenders]; unfold raw_counter_read, select_qm_event, mbind, M_bind, mret, M_ret; simpl;
    by eexists _, _.
Qed.

(** The extender exists. *)
Definition has_extender (id : nat) (h : hw) : Prop := id ∈ dom (extenders h).

Lemma has_extender_stable id : stable (has_extender id).
Proof. unfold stable, has_extender, more_extenders. set_solver. Qed.

Lemma works_create_extender P raw width : works P (fun h id => has_extender id h) (create_extender raw width).
Proof.
  intros h _. unfold create_extender. destruct (raw_counter_read_extenders raw h) as (h1 & v & -> & Hd).
  eexists _, _. split; [done|]. unfold more_extenders, has_extender. simpl. rewrite dom_insert_L, Hd. set_solver.
Qed.

Lemma works_new_extender P msr addr : works P (fun h id => has_extender id h) (new_extender msr addr).
Proof. apply works_create_extender. Qed.

Lemma works_extender_reset P id : (forall h, P h -> has_extender id h) ->
  works P (fun _ _ => True) (reg_write (CounterWidthExtenderRegister id) 0).
Proof.
  intros HP h Hh. apply HP in Hh. unfold has_extender in Hh. apply elem_of_dom in Hh as [e He].
  simpl. unfold mbind, M_bind, extender_sample. rewrite He.
  destruct (raw_counter_read_extenders (raw_counter e) h) as (h1 & v & -> & Hd).
  eexists _, tt. split; [done|]. split; [|done]. unfold more_extenders. simpl. rewrite dom_insert_L, Hd. set_solver.
Qed.

End Works.

(** The registers of a unit created by [make_cbo]. *)
Definition created_cbo (m : Z) (handle : SafeMsrHandle) (cbo : Z) (ids : list nat) : UncorePMU :=
  MkUncorePMU 0 (Some (MSRRegister handle (CX_MSR_PMON_BOX_CTL m cbo)))
    (map (fun c => Some (MSRRegister handle (CX_MSR_PMON_CTLY m cbo c))) [0; 1; 2; 3])
    (map (fun id => Some (CounterWidthExtenderRegister id)) ids) None None
    (Some (MSRRegister handle (CX_MSR_PMON_BOX_FILTER m cbo)))
    (if CX_MSR_PMON_BOX_FILTER1 m cbo =? 0 then None
     else Some (MSRRegister handle (CX_MSR_PMON_BOX_FILTER1 m cbo))).

Definition is_created (m : Z) (handle : SafeMsrHandle) (cbo : Z) (h : hw) (pmu : UncorePMU) : Prop :=
  exists ids, length ids = 4%nat /\ Forall (fun id => has_extender id h) ids /\ pmu = created_cbo m handle cbo ids.

(** A CBo of a Skylake server programmed with an opcode filter. *)
Lemma jobs_disciplined_witness :
  exists log,
    @run_job memory_machine (PcmPlatform SKX 4 1 true) (CboJob 0x203 0 0 1 1) [0x404; 0; 0x2134; 0]
      (created_cbo SKX (Some 5) 2 [0; 1; 2; 3]%nat) ≡
      (@run_writes memory_machine log ;;
       @job_finish memory_machine (CboJob 0x203 0 0 1 1) (created_cbo SKX (Some 5) 2 [0; 1; 2; 3]%nat) ;;
       mret (set_model SKX (created_cbo SKX (Some 5) 2 [0; 1; 2; 3]%nat))) /\
    (forall w, w ∈ job_filters SKX (CboJob 0x203 0 0 1 1) (created_cbo SKX (Some 5) 2 [0; 1; 2; 3]%nat) -> w ∈ log) /\
    frozen_writes SKX (MSRRegister (Some 5) 0xE20) None log /\ released_after_reset SKX (MSRRegister (Some 5) 0xE20) log.
Proof.
  apply (@jobs_disciplined memory_machine (PcmPlatform SKX 4 1 true) (CboJob 0x203 0 0 1 1) [0x404; 0; 0x2134; 0]
           (MSRRegister (Some 5) 0xE20) (created_cbo SKX (Some 5) 2 [0; 1; 2; 3]%nat)).
  - by left.
  - split; [reflexivity|]. intros r Hr%list_elem_of_In. vm_compute in Hr. intuition congruence.
  - split; vm_compute; congruence.
  - right. split; [|split; vm_compute; congruence]. by do 5 right; left.
  - vm_compute. lia.
Defined.

(** The states in which [initCbos] leaves the units of the sockets. *)
Definition created_socket (m : Z) (n : nat) (handle : SafeMsrHandle) (h : hw) (s : list die_pmus) : Prop :=
  exists l, s = [[(CBO_PMU_ID, l)]] /\
    Forall2 (fun cbo p => exists pmu, p = Some pmu /\ is_created m handle cbo h pmu) (seqZ 0 (Z.of_nat n)) l.

Section Creation.
Context {machine : Machine}.

Lemma is_created_stable m handle cbo pmu : stable (fun h => is_created m handle cbo h pmu).
Proof.
  intros h h' Hd (ids & Hl & Hi & ->). exists ids. split_and!; [done| |done].
  eapply Forall_impl; [exact Hi|]. intros id. by apply has_extender_stable.
Qed.

Lemma created_socket_stable m n handle s : stable (fun h => created_socket m n handle h s).
Proof.
  intros h h' Hd (l & -> & Hl). exists l. split; [done|]. eapply Forall2_impl; [exact Hl|].
  intros cbo p (pmu & -> & Hp). exists pmu. split; [done|]. by eapply is_created_stable.
Qed.

Lemma works_make_cbo P m handle cbo : stable P -> works P (is_created m handle cbo) (make_cbo m handle cbo).
Proof.
  intros HP. unfold make_cbo.
  apply (works_bind P (fun h => Forall2 (fun _ p => exists id, p = Some (CounterWidthExtenderRegister id) /\ has_extender id h) [0; 1; 2; 3])); [done| |].
  - apply (works_mapM_ P (fun h _ p => exists id, p = Some (CounterWidthExtenderRegister id) /\ has_extender id h)); [done| |].
    + intros _ p h h' Hd (id & -> & Hid). exists id. split; [done|]. by eapply has_extender_stable.
    + intros c _. eapply works_bind; [done|apply works_new_extender|]. intros id. apply works_ret.
      intros h [_ Hid]. by exists id.
  - intros values. apply works_ret. intros h [_ Hv].
    assert (exists ids, length ids = 4%nat /\ Forall (fun id => has_extender id h) ids /\
      values = map (fun id => Some (CounterWidthExtenderRegister id)) ids) as (ids & Hl & Hi & ->).
    { do 4 (apply Forall2_cons_inv_l in Hv as (? & ? & (? & -> & ?) & Hv & ->)). apply Forall2_nil_inv_l in Hv as ->.
      eexists [_; _; _; _]. split_and!; [done| |reflexivity]. by repeat (constructor; [eassumption|]). }
    by exists ids.
Qed.

Lemma works_initCbos m handles n : hasPCICFGUncore m = true ->
  works (fun _ => True) (fun h => Forall2 (fun handle s => created_socket m n handle h s) handles) (initCbos m handles n).
Proof.
  intros Hm. unfold initCbos. rewrite Hm. cbn [negb].
  apply (works_mapM_ _ (fun h handle s => created_socket m n handle h s)); [apply stable_true|intros; apply created_socket_stable|].
  intros handle _.
  apply (works_bind _ (fun h => Forall2 (fun cbo p => exists pmu, p = Some pmu /\ is_created m handle cbo h pmu) (seqZ 0 (Z.of_nat n)))); [apply stable_true| |].
  - apply (works_mapM_ _ (fun h cbo p => exists pmu, p = Some pmu /\ is_created m handle cbo h pmu)); [apply stable_true| |].
    + intros cbo p h h' Hd (pmu & -> & Hp). exists pmu. split; [done|]. by eapply is_created_stable.
    + intros cbo _. eapply works_bind; [apply stable_true|apply works_make_cbo, stable_true|]. intros pmu. apply works_ret.
      intros h [_ Hp]. by exists pmu.
  - intros l. apply works_ret. intros h [_ Hl]. by exists l.
Qed.

End Creation.

(** ** Programming created units *)

Lemma selectors_log_regs (Pr : HWRegister -> Prop) m ctrls events :
  (forall r, Some r ∈ ctrls -> Pr r) -> Forall (fun w => Pr w.1) (selectors_log m ctrls events).
Proof.
  revert events. induction ctrls as [|[r|] ctrls IH]; intros [|e events] Hp; simpl; try done.
  - apply Forall_app_2.
    + assert (Pr r) by (apply Hp; left). unfold selector_log. by destruct (spr_unit m); repeat constructor.
    + apply IH. intros r' Hr'. apply Hp. by right.
  - apply IH. intros r' Hr'. apply Hp. by right.
Qed.

Lemma programming_log_regs (Pr : HWRegister -> Prop) m extra u before pmu events :
  Pr u -> Forall (fun w => Pr w.1) before -> (forall r, Some r ∈ counterControl pmu -> Pr r) ->
  Forall (fun w => Pr w.1) (programming_log m extra u before pmu events).
Proof.
  intros Hu Hb Hc. unfold programming_log. repeat apply Forall_app_2; [|done|by apply selectors_log_regs|].
  - unfold freeze_log. by destruct (spr_unit m); repeat constructor.
  - unfold release_log. by destruct (spr_unit m); repeat constructor.
Qed.

(** Every model with an uncore in PCI configuration space but KNL has the filters that its
    programming writes. *)
Lemma created_filters_ready m handle cbo ids : hasPCICFGUncore m = true -> m <> KNL -> 0 <= cbo < 512 ->
  filters_ready m (created_cbo m handle cbo ids).
Proof.
  intros Hm Hk Hc. unfold hasPCICFGUncore in Hm. apply is_one_of_spec, list_elem_of_In in Hm. cbn [In] in Hm.
  unfold filters_ready.
  repeat (destruct Hm as [<-|Hm]; [first
    [ left; apply is_one_of_spec; reflexivity
    | done
    | right; split; [apply is_one_of_spec; reflexivity|]; split; [|done];
      unfold opcode_filter_register, created_cbo; cbn [filter0 filter1]; try done;
      match goal with |- context [CX_MSR_PMON_BOX_FILTER1 ?m cbo =? 0] =>
        replace (CX_MSR_PMON_BOX_FILTER1 m cbo =? 0) with false;
        [done|symmetry; apply Z.eqb_neq;
         first [change (CX_MSR_PMON_BOX_FILTER1 m cbo) with (u32 (0x0D1A + 0x0020 * cbo))
               |change (CX_MSR_PMON_BOX_FILTER1 m cbo) with (u32 (0x0E06 + 0x0010 * cbo))]; unfold wrapN;
         rewrite Z.mod_small by lia; lia]
      end ]|]).
  destruct Hm.
Qed.

Section Programming.
Context {machine : Machine} (pf : pcm_platform).

Lemma works_equiv {A} P (Q : hw -> A -> Prop) (m1 m2 : M A) : m1 ≡ m2 -> works P Q m2 -> works P Q m1.
Proof. intros E H h Hh. rewrite (agree_at E). by apply H. Qed.

Lemma works_forM {A} P (f : A -> M unit) l : stable P ->
  (forall a, a ∈ l -> works P (fun _ _ => True) (f a)) -> works P (fun _ _ => True) (forM l f).
Proof.
  intros HP. induction l as [|a l IH]; intros Hf; simpl; [by apply works_ret|].
  eapply works_bind; [done|apply Hf; left|]. intros u.
  eapply works_weaken; [apply IH; intros; apply Hf; by right|by intros h []|done].
Qed.

(** A pointer to a register that is there and is written without an extender. *)
Definition none_or_plain (p : HWRegisterPtr) : Prop := forall r, p = Some r -> plain r = true.

(** A unit whose control is there and whose registers are those of a device. *)
Definition unit_ready (m : Z) (pmu : UncorePMU) : Prop :=
  cache_ok m pmu /\ plain_ptr (unitControl pmu) = true /\ Forall none_or_plain (counterControl pmu) /\
  none_or_plain (filter0 pmu) /\ none_or_plain (filter1 pmu).

(** As many counters as selectors, each behind an extender. *)
Definition values_ready (h : hw) (pmu : UncorePMU) : Prop :=
  Forall (fun p => exists id, p = Some (CounterWidthExtenderRegister id) /\ has_extender id h) (counterValue pmu) /\
  (size pmu <= length (counterValue pmu))%nat.

Definition job_restarts (j : job) : bool :=
  match j with CboJob _ _ _ _ _ | CboRawJob _ _ => true | _ => false end.

Lemma values_ready_stable pmu : stable (fun h => values_ready h pmu).
Proof.
  intros h h' Hd [Hv Hs]. split; [|done]. eapply Forall_impl; [exact Hv|]. intros p (id & -> & Hid). exists id.
  split; [done|]. by eapply has_extender_stable.
Qed.

Lemma works_reset_counters P pmu : stable P -> (forall h, P h -> values_ready h pmu) ->
  works P (fun _ _ => True) (reset_counter_values pmu).
Proof.
  intros HP Hv. unfold reset_counter_values. apply works_forM; [done|].
  intros c Hc%list_elem_of_In%in_seq h Hh. destruct (Hv h Hh) as [Hval Hs].
  destruct (lookup_lt_is_Some_2 (counterValue pmu) c) as [p Hp]; [lia|]. rewrite Hp.
  destruct (proj1 (Forall_lookup _ _) Hval c p Hp) as (id & -> & Hid).
  apply (works_extender_reset (has_extender id)); done.
Qed.

Lemma job_log_plain j u pmu events : unit_ready (up_model pf) pmu -> unitControl pmu = Some u ->
  Forall (fun w => plain w.1 = true) (job_log pf j u pmu events).
Proof.
  intros (_ & Hu & Hc & H0 & H1) E. rewrite E in Hu. unfold job_log.
  apply (programming_log_regs (fun r => plain r = true)); [done| |].
  - assert (Hf : forall p v, none_or_plain p -> Forall (fun w => plain w.1 = true) (filter_log p v)).
    { intros [r|] v H; repeat constructor. by apply H. }
    destruct j; simpl; [|by apply Forall_app_2; apply Hf|by apply Hf|constructor].
    unfold cbo_filter_log, opcode_filter_register. apply Forall_app_2; repeat case_match; try (by apply Forall_nil_2); by apply Hf.
  - intros r Hr. exact (proj1 (Forall_forall _ _) Hc _ Hr r eq_refl).
Qed.

(** Programming a unit that is ready succeeds. *)
Lemma works_run_job P j events pmu : stable P -> unit_ready (up_model pf) pmu -> job_ready pf j pmu ->
  (job_restarts j = true -> forall h, P h -> values_ready h pmu) -> (Nat.min (job_counters j) (size pmu) <= length events)%nat ->
  works P (fun _ pmu' => pmu' = set_model (up_model pf) pmu) (run_job pf j events pmu).
Proof.
  intros HP Hr Hj Hv He. pose proof Hr as (Hc & Hu & _). destruct (unitControl pmu) as [u|] eqn:E; [|done].
  eapply works_equiv; [by apply (run_job_writes pf j events u)|].
  eapply works_bind; [done|by apply works_run_writes, job_log_plain|intros []].
  apply (works_bind _ (fun _ _ => True)); [by intros h h' Hd [H _]; split; [eapply HP|]| |intros _; by apply works_ret].
  apply (works_weaken P _ (fun _ _ => True)); [|by intros h [H _]|done].
  destruct j; simpl in Hv |- *; [apply works_reset_counters; auto| |by apply works_ret..].
  apply works_reset_counters; auto.
Qed.

Lemma created_cbo_ready m handle cbo ids : unit_ready m (created_cbo m handle cbo ids).
Proof.
  split_and!; [by left|done| |by intros r [= <-]|].
  - repeat constructor; by intros r [= <-].
  - cbn [filter1 created_cbo]. case_match; [done|]. by intros r [= <-].
Qed.

Lemma created_cbo_values m handle cbo ids h : length ids = 4%nat -> Forall (fun id => has_extender id h) ids ->
  values_ready h (created_cbo m handle cbo ids).
Proof.
  intros Hl Hids. unfold values_ready. cbn [counterValue created_cbo]. split; [|by rewrite length_map, Hl].
  apply Forall_fmap. eapply Forall_impl; [exact Hids|]. intros id Hid. by exists id.
Qed.

Lemma works_programCbo_unit P m handle cbo ids events opc nc_ tid loc rem :
  m = up_model pf -> hasPCICFGUncore m = true -> m <> KNL -> 0 <= cbo < 512 -> stable P ->
  (forall h, P h -> Forall (fun id => has_extender id h) ids) -> length ids = 4%nat -> (4 <= length events)%nat ->
  works P (fun _ _ => True) (programCbo_unit pf events opc nc_ tid loc rem (created_cbo m handle cbo ids)).
Proof.
  intros -> Hm Hk Hc HP Hids Hl He. eapply works_weaken; [|done|done].
  apply (works_run_job P (CboJob opc nc_ tid loc rem)); [done|apply created_cbo_ready|by apply created_filters_ready| |].
  - intros _ h Hh. by apply created_cbo_values, Hids.
  - change (size _) with 4%nat. unfold job_counters, maxCounters. lia.
Qed.

Lemma works_map {A B} P (R : A -> B -> Prop) (g : A -> M B) l : stable P ->
  (forall a, a ∈ l -> works P (fun _ => R a) (g a)) -> works P (fun _ => Forall2 R l) (mapM_ l g).
Proof. intros HP Hg. apply (works_mapM_ P (fun _ => R)); [done| |done]. intros a b h h' _. done. Qed.

(** The kinds of units of the dies of the sockets. *)
Definition same_kinds : list (list die_pmus) -> list (list die_pmus) -> Prop :=
  Forall2 (Forall2 (fun d d' : die_pmus => map fst d = map fst d')).

(** A job on all units of a kind in all sockets. *)
Lemma works_programUncorePMUs P id f l : stable P ->
  (forall s d e p pmu, s ∈ l -> d ∈ s -> e ∈ d -> e.1 = id -> p ∈ e.2 -> p = Some pmu ->
     works P (fun _ _ => True) (f pmu)) ->
  works P (fun _ => same_kinds l) (mapM_ l (fun socket => mapM_ socket (on_die (is_id id) f))).
Proof.
  intros HP Hf. apply works_map; [done|]. intros s Hs. apply works_map; [done|]. intros d Hd. unfold on_die.
  eapply works_weaken; [apply (works_map P (fun e e' : UncorePMUIDs * list (option UncorePMU) => e.1 = e'.1)); [done|]|done|].
  - intros e He. unfold is_id. destruct (bool_decide (e.1 = id)) eqn:E; [|by apply works_ret]. apply bool_decide_eq_true in E.
    eapply works_bind; [done|unfold on_units; apply (works_map P (fun _ _ => True)); [done|]|intros; by apply works_ret].
    intros [pmu|] Hp; [|by apply works_ret]. eapply works_bind; [done|by eapply Hf|intros; by apply works_ret].
  - intros h d' H. simpl in *. clear Hd. induction H as [|e e' d d' He _ IH]; [done|]. cbn [map]. by rewrite He, IH.
Qed.

Lemma created_sockets_cbo m n handles h l : Forall2 (fun handle s => created_socket m n handle h s) handles l ->
  forall s d e p pmu, s ∈ l -> d ∈ s -> e ∈ d -> p ∈ e.2 -> p = Some pmu ->
  e.1 = CBO_PMU_ID /\ exists handle cbo, 0 <= cbo < Z.of_nat n /\ is_created m handle cbo h pmu.
Proof.
  intros Hl s d e p pmu Hs Hd He Hp ->. apply list_elem_of_lookup in Hs as (i & Hs).
  destruct (Forall2_lookup_r _ _ _ _ _ Hl Hs) as (handle & _ & units & -> & Hu).
  apply list_elem_of_singleton in Hd as ->. apply list_elem_of_singleton in He as ->. split; [done|]. cbn [snd] in Hp.
  apply list_elem_of_lookup in Hp as (j & Hp). destruct (Forall2_lookup_r _ _ _ _ _ Hu Hp) as (cbo & Hc & pmu' & [= <-] & Hm).
  exists handle, cbo. split; [|done]. apply lookup_seqZ in Hc. lia.
Qed.

Lemma created_kinds m n handles h l l' : Forall2 (fun handle s => created_socket m n handle h s) handles l ->
  same_kinds l l' -> forall s d e, s ∈ l' -> d ∈ s -> e ∈ d -> e.1 = CBO_PMU_ID.
Proof.
  intros Hl Hk s d e Hs Hd He. apply list_elem_of_lookup in Hs as (i & Hs).
  destruct (Forall2_lookup_r _ _ _ _ _ Hk Hs) as (s0 & Hs0 & Hd'). apply list_elem_of_lookup in Hd as (j & Hd).
  destruct (Forall2_lookup_r _ _ _ _ _ Hd' Hd) as (d0 & Hd0 & Hmap).
  destruct (Forall2_lookup_r _ _ _ _ _ Hl Hs0) as (handle & _ & units & -> & _).
  apply list_elem_of_lookup_2, list_elem_of_singleton in Hd0 as ->. cbn in Hmap.
  assert (e.1 ∈ map fst d) as Hin by (by apply list_elem_of_fmap_2). rewrite <- Hmap in Hin.
  by apply list_elem_of_singleton in Hin.
Qed.

Lemma programCbo_unit_KNL events opc nc_ tid loc rem handle cbo ids h : up_model pf = KNL ->
  (programCbo_unit pf events opc nc_ tid loc rem (created_cbo KNL handle cbo ids) h).2 = Throw StdException.
Proof.
  intros Hm. unfold programCbo_unit, write_cbo_filters, programCboOpcodeFilter. rewrite Hm.
  change (is_one_of KNL extended_umask_models) with false. change (JAKETOWN =? KNL) with false.
  change (is_one_of KNL [IVYTOWN; HASWELLX; BDX_DE; BDX]) with false. change (SKX =? KNL) with false. cbv iota.
  unfold initFreeze, created_cbo, getCPUFamilyModel, set_model. cbn [unitControl cpu_family_model_ Z.eqb].
  change (spr_unit KNL) with false. cbv iota. destruct handle; reflexivity.
Qed.

Lemma bind_throw {A B} (m : M A) (f : A -> M B) e h : (m h).2 = Throw e -> ((m ≫= f) h).2 = Throw e.
Proof. unfold mbind, M_bind. destruct (m h) as [h1 [a|e']]; [done|]. cbn. by intros [= ->]. Qed.

Lemma mapM__throw {A B} (f : A -> M B) a l e h : (f a h).2 = Throw e -> (mapM_ (a :: l) f h).2 = Throw e.
Proof. intros H. by apply bind_throw. Qed.

Lemma cbo_events_length :
  length (initCHARequestEvents pf (initLLCReadMissLatencyEvents pf (replicate maxCounters 0) 0).1) = 8%nat.
Proof.
  unfold initCHARequestEvents, initLLCReadMissLatencyEvents.
  destruct (negb _), (_ && _); cbn [fst]; by rewrite ?length_insert.
Qed.

End Programming.

(** C8. The CBo units as initialisation creates them, with the MSR addresses of the model, can
    be programmed by [programCbo] whatever the hardware answers: no filter that the model
    needs is missing, no event array is too short, no extender is unknown. The exception is
    Knights Landing, for which [programCboOpcodeFilter] has no case although
    [hasPCICFGUncore] includes it: there the default programming ends in an exception. *)
Theorem programCbo_after_init {machine : Machine} pf handles n h st :
  hasPCICFGUncore (up_model pf) = true -> (n <= 512)%nat -> up_has_MSR pf = true ->
  exists h1 l, initCbos (up_model pf) handles n h = (h1, Ok l) /\
    (up_model pf <> KNL -> exists h2 st', programCbo pf (set_uncore l st) h1 = (h2, Ok st')) /\
    (up_model pf = KNL -> n <> 0%nat -> handles <> [] ->
     (programCbo pf (set_uncore l st) h1).2 = Throw StdException).
Proof.
  intros Hm Hn Hmsr. destruct (works_initCbos (up_model pf) handles n Hm h I) as (h1 & l & -> & _ & Hl).
  exists h1, l. split; [done|]. pose proof (cbo_events_length pf) as Hlen. unfold programCbo.
  destruct (initLLCReadMissLatencyEvents pf (replicate maxCounters 0) 0) as [events opc]. cbn [fst] in Hlen.
  unfold programCbo_events, programUncorePMUs. rewrite Hmsr. cbn [negb uncorePMUs set_uncore].
  pose proof (created_sockets_cbo _ _ _ _ _ Hl) as Hc. split.
  - intros Hk. pose (P := fun h' : hw => more_extenders h1 h').
    assert (HP : stable P) by (unfold stable, P, more_extenders; set_solver).
    assert (Hw : works P (fun _ _ => True)
      (l0 ← mapM_ l (fun socket => mapM_ socket (on_die (is_id CBO_PMU_ID)
               (programCbo_unit pf (initCHARequestEvents pf events) opc 0 0 1 1)));
       st0 ← mret (set_uncore l0 (set_uncore l st)); programUBOX pf None st0)).
    { eapply works_bind; [done|apply works_programUncorePMUs; [done|]|].
      - intros s d e p pmu Hs Hd He _ Hp ->. destruct (Hc s d e _ pmu Hs Hd He Hp eq_refl) as (_ & handle & cbo & Hb & ids & Hi & Hids & ->).
        apply works_programCbo_unit; [done..|lia|done| |done|lia].
        intros h' Hh'. eapply Forall_impl; [exact Hids|]. intros id. by apply has_extender_stable.
      - intros l0. unfold programUBOX, programUncorePMUs. rewrite Hmsr.
        assert (HP' : stable (fun h' => P h' /\ same_kinds l l0)) by (intros h2 h3 Hd [? ?]; split; [by eapply HP|done]).
        intros h2 [Hh2 Hkinds]. revert h2 Hh2. change (works P (fun _ _ => True)
          (l1 ← mapM_ l0 (fun socket => mapM_ socket (on_die (is_id UBOX_PMU_ID) (programUBOX_unit pf None)));
           mret (set_uncore l1 (set_uncore l0 (set_uncore l st))))).
        eapply works_bind; [done|apply works_programUncorePMUs; [done|]|intros; by apply works_ret].
        intros s d e p pmu Hs Hd He Hid _ _. by rewrite (created_kinds _ _ _ _ _ _ Hl Hkinds s d e Hs Hd He) in Hid. }
    destruct (Hw h1) as (h2 & st' & E & _ & _); [unfold P, more_extenders; set_solver|]. exists h2, st'.
    rewrite <- E. unfold mbind, M_bind, mret, M_ret. by destruct (mapM_ l _ h1) as [? [?|?]].
  - intros Hk Hn0 Hh. destruct handles as [|handle handles]; [done|]. apply Forall2_cons_inv_l in Hl as (s & l' & (units & -> & Hu) & _ & ->).
    destruct n as [|n]; [done|]. rewrite seqZ_cons in Hu by lia.
    apply Forall2_cons_inv_l in Hu as (p & units' & (pmu & -> & ids & _ & _ & ->) & _ & ->).
    assert (Ht : (mapM_ ([[(CBO_PMU_ID, Some (created_cbo (up_model pf) handle 0 ids) :: units')]] :: l')
      (fun socket => mapM_ socket (on_die (is_id CBO_PMU_ID)
         (programCbo_unit pf (initCHARequestEvents pf events) opc 0 0 1 1))) h1).2 = Throw StdException).
    { apply mapM__throw, mapM__throw. unfold on_die. apply mapM__throw. change (is_id CBO_PMU_ID CBO_PMU_ID) with true.
      cbv iota. apply bind_throw. unfold on_units. apply mapM__throw, bind_throw. rewrite Hk. by apply programCbo_unit_KNL. }
    by apply bind_throw, bind_throw.
Qed.

Lemma programCbo_after_init_witness :
  exists h1 l, @initCbos memory_machine ICX [Some 0; Some 40] 3 (HW [] ∅ ∅) = (h1, Ok l) /\
    exists h2 st', @programCbo memory_machine (PcmPlatform ICX 6 2 true) (set_uncore l (PcmUncore [] [] [] [] [] [])) h1 = (h2, Ok st').
Proof.
  destruct (@programCbo_after_init memory_machine (PcmPlatform ICX 6 2 true) [Some 0; Some 40] 3 (HW [] ∅ ∅)
    (PcmUncore [] [] [] [] [] [])) as (h1 & l & E & H & _); [reflexivity|lia|reflexivity|].
  exists h1, l. split; [exact E|]. apply H. done.
Defined.

(** * Accelerators *)

Definition idx_counter_log (events : list Z) (f : idx_filters) (pmu : IDX_PMU) (i : nat) : writes :=
  let reg (l : list HWRegisterPtr) (v : Z) := filter_log (default None (l !! i)) v in
  let value (l : list Z) := default 0 (l !! i) in
  reg (idx_counterControl pmu) 0 ++
  reg (counterFilterWQ pmu) (value (filters_wq f) mod 2 ^ 16) ++
  reg (counterFilterENG pmu) (value (filters_eng f) mod 2 ^ 16) ++
  reg (counterFilterTC pmu) (value (filters_tc f) mod 2 ^ 8) ++
  reg (counterFilterPGSZ pmu) (value (filters_pgsz f) mod 2 ^ 8) ++
  reg (counterFilterXFERSZ pmu) (value (filters_xfersz f) mod 2 ^ 8) ++
  reg (idx_counterControl pmu) (value events).

(** Reset and freeze the device, write every counter, let the device run. *)
Definition idx_unit_log (n : nat) (events : list Z) (f : idx_filters) (pmu : IDX_PMU) : writes :=
  filter_log (resetControl pmu) 2 ++ filter_log (freezeControl pmu) 0xFFFFFFFF ++
  concat (map (idx_counter_log events f pmu) (seq 0 n)) ++ filter_log (freezeControl pmu) 0.

(** [n] registers of every kind. *)
Definition registers_for (n : nat) (l : list HWRegisterPtr) : Prop := (n <= length l)%nat /\ Forall (fun p => p <> None) l.

Definition idx_equipped (n : nat) (pmu : IDX_PMU) : Prop :=
  perf_mode_ pmu = false /\ resetControl pmu <> None /\ freezeControl pmu <> None /\
  Forall (registers_for n) [idx_counterControl pmu; counterFilterWQ pmu; counterFilterENG pmu; counterFilterTC pmu;
                            counterFilterPGSZ pmu; counterFilterXFERSZ pmu].

Definition idx_values_for (n : nat) (f : idx_filters) : Prop :=
  Forall (fun l : list Z => (n <= length l)%nat)
    [filters_wq f; filters_eng f; filters_tc f; filters_pgsz f; filters_xfersz f].

Section Accelerators.
Context {machine : Machine} (pf : pcm_platform).

Lemma forM_writes {A} (f : A -> M unit) (g : A -> writes) l : (forall a, a ∈ l -> f a ≡ run_writes (g a)) ->
  forM l f ≡ run_writes (concat (map g l)).
Proof.
  induction l as [|a l IH]; intros H; simpl; [done|]. rewrite run_writes_app. apply M_bind_cong; [apply H; left|].
  intros _. apply IH. intros. apply H. by right.
Qed.

Lemma nth_write_writes n l i v : registers_for n l -> (i < n)%nat ->
  nth_write l i v ≡ run_writes (filter_log (default None (l !! i)) v).
Proof.
  unfold registers_for, nth_write, HWRegisterPtr in *. intros [Hl Hn] Hi.
  destruct (lookup_lt_is_Some_2 l i) as [p Hp]; [lia|]. rewrite Hp. rewrite Forall_forall in Hn.
  destruct p as [r|]; [apply run_writes_one|]. by destruct (Hn None); [by eapply list_elem_of_lookup_2|].
Qed.

Lemma vector_at_bind {A} n (l : list Z) i (k : Z -> M A) : (n <= length l)%nat -> (i < n)%nat ->
  (v ← vector_at l i; k v) ≡ k (default 0 (l !! i)).
Proof.
  intros Hl Hi. unfold vector_at. destruct (lookup_lt_is_Some_2 l i) as [v Hv]; [lia|]. by rewrite Hv.
Qed.

Lemma low_bits v k : 0 <= k < 31 -> extract_bits_32 v 0 k = v mod 2 ^ (k + 1).
Proof.
  intros Hk. rewrite extract_bits_32_field by lia. unfold field.
  rewrite Z.min_l, Z.shiftr_0_r by lia. replace (Z.abs (k - 0) + 1) with (k + 1) by lia. apply Z.land_ones. lia.
Qed.

(** One filter of a counter: the value of the caller, cut to the field. *)
Lemma idx_filter_writes {A} n l values i k (m : M A) : registers_for n l -> (n <= length values)%nat -> (i < n)%nat -> 0 <= k < 31 ->
  (v ← vector_at values i; nth_write l i (extract_bits_32 v 0 k) ;; m) ≡
  (run_writes (filter_log (default None (l !! i)) (default 0 (values !! i) mod 2 ^ (k + 1))) ;; m).
Proof.
  intros Hl Hv Hi Hk. rewrite (vector_at_bind n) by done. rewrite low_bits by done.
  apply M_bind_cong; [by apply (nth_write_writes n)|done].
Qed.

Lemma program_idx_counter_writes accel n events f pmu i : idx_equipped n pmu -> idx_values_for n f -> (n <= length events)%nat ->
  (i < n)%nat -> program_idx_counter accel events f pmu i ≡ run_writes (idx_counter_log events f pmu i).
Proof.
  intros (Hp & _ & _ & Hr) Hf He Hi. unfold idx_values_for in Hf.
  apply Forall_cons in Hr as [Hr1 Hr]. do 5 (apply Forall_cons in Hr as [? Hr]). do 5 (apply Forall_cons in Hf as [? Hf]).
  unfold program_idx_counter, idx_counter_log. rewrite Hp. cbv zeta. rewrite run_writes_app.
  apply M_bind_cong; [by apply (nth_write_writes n)|]. intros _.
  do 5 (rewrite (idx_filter_writes n) by (done || lia); rewrite run_writes_app; apply M_bind_cong; [done|intros _]).
  rewrite (vector_at_bind n) by done. by apply (nth_write_writes n).
Qed.

Lemma program_idx_unit_writes accel n events f pmu : idx_equipped n pmu -> idx_values_for n f -> (n <= length events)%nat ->
  program_idx_unit accel n events f pmu ≡ run_writes (idx_unit_log n events f pmu).
Proof.
  intros Hq Hf He. unfold program_idx_unit, idx_unit_log.
  pose proof Hq as (_ & Hr & Hz & _). unfold idx_initFreeze, idx_resetUnfreeze, idx_unfreeze, idx_freeze.
  destruct (resetControl pmu) as [r|]; [|done]. destruct (freezeControl pmu) as [z|]; [|done]. clear Hr Hz.
  rewrite run_writes_app, M_assoc. apply M_bind_cong; [apply run_writes_one|]. intros _.
  rewrite run_writes_app, M_assoc. apply M_bind_cong; [apply run_writes_one|]. intros _.
  rewrite M_ret_bind, run_writes_app. apply M_bind_cong; [|intros _; apply run_writes_one]. apply forM_writes.
  intros i Hi%list_elem_of_In%in_seq. apply (program_idx_counter_writes _ n); [done..|lia].
Qed.

End Accelerators.

(** C30. Programming the counters of the accelerators performs exactly these writes on every
    device of the kind, in order: the counters are reset and frozen, every counter in use is
    disabled before its five filters are written with their values cut to the width of the
    field and its event last, and then the device runs. As many counters are used as there
    are events, at most those of the hardware. *)
Theorem accelerators_programmed {machine : Machine} pf accel events f st devices :
  supportIDXAccelDev pf = true -> (accel < 3)%nat -> events <> [] -> idxPMUs st !! accel = Some devices ->
  let n := Nat.min (if (accel =? 2)%nat then 16 else 8) (length events) in
  Forall (idx_equipped n) devices -> idx_values_for n f ->
  programIDXAccelCounters pf accel events f st ≡ run_writes (concat (map (idx_unit_log n events f) devices)).
Proof.
  intros Hs Ha Hne Hd n Hq Hf. unfold programIDXAccelCounters, getNumOfIDXAccelDevs.
  assert (Hn : Nat.min (getMaxNumOfIDXAccelCtrs pf accel) (length events) = n).
  { unfold getMaxNumOfIDXAccelCtrs, n. rewrite Hs. destruct accel as [|[|[|]]]; [reflexivity..|lia]. }
  rewrite Hn, Hd. unfold IDX_MAX. rewrite (proj2 (Nat.leb_gt 3 accel)) by lia.
  rewrite bool_decide_eq_false_2 by done. cbn [orb]. rewrite M_ret_bind.
  destruct devices as [|d devices]; [done|]. cbn [length Nat.eqb default id].
  apply forM_writes. intros pmu Hpmu. rewrite Forall_forall in Hq.
  apply program_idx_unit_writes; [by apply Hq|done|]. subst n. lia.
Qed.

Definition example_idx (handle : Z) : IDX_PMU :=
  let regs (base step : Z) (make : Z -> Z -> HWRegister) := map (fun r => Some (make handle (base + step * r))) (seqZ 0 8) in
  MkIDX false 0 0 (Some (MMIORegister32 handle 0x10)) (Some (MMIORegister32 handle 0x20)) None
    (regs 0x100 8 MMIORegister64) (regs 0x200 8 MMIORegister64) (regs 0x300 0x20 MMIORegister32)
    (regs 0x304 0x20 MMIORegister32) (regs 0x308 0x20 MMIORegister32) (regs 0x30C 0x20 MMIORegister32)
    (regs 0x310 0x20 MMIORegister32).

Definition example_filters : idx_filters :=
  IdxFilters [0x1FFFF; 1] [2; 3] [0x100; 4] [5; 6] [7; 8].

Lemma accelerators_programmed_witness :
  @programIDXAccelCounters memory_machine (PcmPlatform SPR 0 1 true) 1 [0x1000000F1; 0x200000080] example_filters
    (PcmUncore [] [] [] [] [[]; [example_idx 9]; []] []) ≡
  @run_writes memory_machine (idx_unit_log 2 [0x1000000F1; 0x200000080] example_filters (example_idx 9)).
Proof.
  rewrite (@accelerators_programmed memory_machine (PcmPlatform SPR 0 1 true) 1 [0x1000000F1; 0x200000080] example_filters
    (PcmUncore [] [] [] [] [[]; [example_idx 9]; []] []) [example_idx 9]).
  - cbn [map concat]. by rewrite app_nil_r.
  - reflexivity.
  - lia.
  - done.
  - reflexivity.
  - repeat constructor; vm_compute; congruence || lia.
  - repeat constructor; vm_compute; lia.
Defined.

(** A filter list that is too short ends the programming with an exception when the device is
    already frozen, and it stays frozen. *)
Lemma short_filters_leave_device_frozen :
  let r := @programIDXAccelCounters memory_machine (PcmPlatform SPR 0 1 true) 1 [0xF1; 0x80]
    (IdxFilters [1] [2; 3] [0; 4] [5; 6] [7; 8]) (PcmUncore [] [] [] [] [[]; [example_idx 9]; []] []) (HW [] ∅ ∅) in
  r.2 = Throw OutOfRange /\ (@reg_read memory_machine (MMIORegister32 9 0x20) r.1).2 = Ok 0xFFFFFFFF.
Proof. vm_compute. done. Qed.

(** On Snowridge the box filter has no address, which the unit takes for MSR 0:
    [programCboRaw] writes its filter there. *)
Lemma snowridge_filter_is_msr_0 handle cbo ids : filter0 (created_cbo SNOWRIDGE handle cbo ids) = Some (MSRRegister handle 0).
Proof. reflexivity. Qed.

(** * Clean-up *)

Definition cleanup_log (pmu : UncorePMU) : writes :=
  concat (map (fun cc => filter_log cc 0) (counterControl pmu)) ++
  filter_log (unitControl pmu) 0 ++ filter_log (fixedCounterControl pmu) 0.

Definition idx_cleanup_log (pmu : IDX_PMU) : writes :=
  concat (map (fun cc => filter_log cc 0) (idx_counterControl pmu)) ++
  filter_log (resetControl pmu) 3 ++ filter_log (generalControl pmu) 0.

(** The units of all kinds, in the order of their clean-up around the accelerators. *)
Definition units_before_idx (st : pcm_uncore) : list UncorePMU := concat (map (map snd) (iioPMUs st)).

Definition cleaned_server_units (s : ServerUncorePMUs) : list UncorePMU :=
  xpiPMUs s ++ imcPMUs s ++ edcPMUs s ++ m2mPMUs s ++ haPMUs s.

Definition units_after_idx (st : pcm_uncore) : list UncorePMU :=
  concat (map (map snd) (irpPMUs st)) ++
  concat (map (fun s => concat (map (fun d => concat (map (fun e => omap id e.2) d)) s)) (uncorePMUs st)) ++
  concat (map (fun s => concat (map (fun p => [p.1; p.2]) s)) (cxlPMUs st)) ++
  concat (map cleaned_server_units (serverUncorePMUs st)).

Definition cleanup_all_log (st : pcm_uncore) : writes :=
  concat (map cleanup_log (units_before_idx st)) ++
  concat (map idx_cleanup_log (concat (idxPMUs st))) ++
  concat (map cleanup_log (units_after_idx st)).

(** The control registers of all units: selectors, unit controls, fixed controls. *)
Definition unit_controls (pmu : UncorePMU) : list HWRegister :=
  some_regs (counterControl pmu) ++ some_regs [unitControl pmu; fixedCounterControl pmu].

Definition cleaned_units (st : pcm_uncore) : list UncorePMU := units_before_idx st ++ units_after_idx st.

(** The units of the servers that [cleanupPMUs] does not name: M3UPI units, which [programM3UPI]
    programs, and the M2M units of high-bandwidth memory, which are only frozen and released. *)
Definition missed_units (st : pcm_uncore) : list UncorePMU :=
  concat (map (fun s => m3upiPMUs s ++ hbm_m2mPMUs s) (serverUncorePMUs st)).

(** The control registers of all units and of the accelerators that the clean-up zeroes. *)
Definition accelerator_controls (d : IDX_PMU) : list HWRegister :=
  some_regs (idx_counterControl d) ++ some_regs [generalControl d].

Definition cleaned_registers (st : pcm_uncore) : list HWRegister :=
  concat (map unit_controls (cleaned_units st)) ++ concat (map accelerator_controls (concat (idxPMUs st))).

Section Cleanup.
Context {machine : Machine}.

Lemma cleanup_writes pmu : cleanup pmu ≡ run_writes (cleanup_log pmu).
Proof.
  unfold cleanup, cleanup_log. rewrite run_writes_app. apply M_bind_cong.
  - apply forM_writes. intros. apply write_if_writes.
  - intros _. rewrite run_writes_app. apply M_bind_cong; [|intros _]; apply write_if_writes.
Qed.

Lemma idx_cleanup_writes pmu : idx_cleanup pmu ≡ run_writes (idx_cleanup_log pmu).
Proof.
  unfold idx_cleanup, idx_cleanup_log. rewrite run_writes_app. apply M_bind_cong.
  - apply forM_writes. intros. apply write_if_writes.
  - intros _. rewrite run_writes_app. apply M_bind_cong; [|intros _]; apply write_if_writes.
Qed.

Lemma concat_map_concat {A B} (g : A -> list B) (l : list (list A)) :
  concat (map g (concat l)) = concat (map (fun x => concat (map g x)) l).
Proof. induction l as [|x l IH]; [done|]. cbn. by rewrite map_app, concat_app, IH. Qed.

(** A loop over the elements of which [us] gives the units. *)
Lemma forM_units {A} (f : A -> M unit) (us : A -> list UncorePMU) l :
  (forall a, a ∈ l -> f a ≡ run_writes (concat (map cleanup_log (us a)))) ->
  forM l f ≡ run_writes (concat (map cleanup_log (concat (map us l)))).
Proof.
  intros H. pose proof (concat_map_concat cleanup_log (map us l)) as E. unfold writes in *. rewrite E, map_map.
  by apply forM_writes.
Qed.

Lemma cleanupPMUs_writes s : cleanupPMUs s ≡ run_writes (concat (map cleanup_log (cleaned_server_units s))).
Proof.
  unfold cleanupPMUs, cleaned_server_units. rewrite !map_app, !concat_app.
  assert (H : forall l, forM l cleanup ≡ run_writes (concat (map cleanup_log l))).
  { intros l. apply forM_writes. intros. apply cleanup_writes. }
  do 4 (rewrite run_writes_app; apply M_bind_cong; [apply H|intros _]). apply H.
Qed.

Lemma cleanupUncorePMUs_writes st : cleanupUncorePMUs st ≡ run_writes (cleanup_all_log st).
Proof.
  assert (Hs : forall l : list (list (Z * UncorePMU)),
    forM l (fun s => forM s (fun e => cleanup e.2)) ≡ run_writes (concat (map cleanup_log (concat (map (map snd) l))))).
  { intros l. apply (forM_units _ (map snd)). intros s _. rewrite map_map. apply forM_writes. intros. apply cleanup_writes. }
  unfold cleanupUncorePMUs, cleanup_all_log, units_after_idx. rewrite run_writes_app.
  apply M_bind_cong; [apply Hs|intros _]. rewrite run_writes_app. apply M_bind_cong; [|intros _].
  { pose proof (concat_map_concat idx_cleanup_log (idxPMUs st)) as E. unfold writes in *. rewrite E.
    apply forM_writes. intros s _. apply forM_writes. intros. apply idx_cleanup_writes. }
  unfold writes in *. rewrite !map_app, !concat_app, run_writes_app. apply M_bind_cong; [apply Hs|intros _].
  rewrite run_writes_app. apply M_bind_cong; [|intros _].
  { apply forM_units. intros s _. apply forM_units. intros d _. apply forM_units. intros e _.
    induction e.2 as [|[pmu|] l IH]; [done| |].
    + cbn [forM omap list_omap id map concat]. rewrite run_writes_app. by apply M_bind_cong; [apply cleanup_writes|].
    + cbn [forM omap list_omap id]. by rewrite M_ret_bind. }
  rewrite run_writes_app. apply M_bind_cong; [|intros _].
  - apply forM_units. intros s _. apply forM_units. intros p _. cbn [map concat]. rewrite app_nil_r, run_writes_app.
    apply M_bind_cong; [|intros _]; apply cleanup_writes.
  - apply forM_units. intros s _. apply cleanupPMUs_writes.
Qed.

End Cleanup.

Lemma elem_of_filter_log p v w : w ∈ filter_log p v <-> p = Some w.1 /\ w.2 = v.
Proof.
  destruct p as [r|]; simpl; [|split; [by intros ?%elem_of_nil|by intros []]].
  rewrite list_elem_of_singleton. destruct w as [r' v']. simpl. split; [by intros [= -> ->]|by intros [[= ->] ->]].
Qed.

Lemma elem_of_concat_map {A B} (g : A -> list B) l b : b ∈ concat (map g l) <-> exists a, a ∈ l /\ b ∈ g a.
Proof.
  rewrite list_elem_of_In, in_concat. setoid_rewrite in_map_iff. split.
  - intros (x & (a & <- & Ha) & Hb). exists a. by rewrite !list_elem_of_In.
  - intros (a & Ha & Hb). exists (g a). rewrite !list_elem_of_In in *. eauto.
Qed.

Lemma cleanup_log_spec pmu w : w ∈ cleanup_log pmu <-> w.1 ∈ unit_controls pmu /\ w.2 = 0.
Proof.
  unfold cleanup_log, unit_controls. rewrite !elem_of_app, elem_of_concat_map, !elem_of_filter_log, !elem_of_some_regs.
  setoid_rewrite elem_of_filter_log. rewrite !elem_of_cons, elem_of_nil. split.
  - intros [(a & Ha & -> & ->)|[[Ha ->]|[Ha ->]]]; split; try done; rewrite ?Ha; tauto.
  - intros [[H|[H|[H|[]]]] ->]; [left; by exists (Some w.1)|right; left; by rewrite H|right; right; by rewrite H].
Qed.

Lemma cleanup_all_log_values st w : w ∈ cleanup_all_log st ->
  w.2 = 0 \/ w.2 = 3 /\ exists d, d ∈ concat (idxPMUs st) /\ resetControl d = Some w.1.
Proof.
  unfold cleanup_all_log. rewrite !elem_of_app, !elem_of_concat_map. intros [H|[H|H]].
  - destruct H as (pmu & _ & [_ H]%cleanup_log_spec). by left.
  - destruct H as (d & Hd & H). unfold idx_cleanup_log in H. rewrite !elem_of_app, elem_of_concat_map, !elem_of_filter_log in H.
    setoid_rewrite elem_of_filter_log in H. destruct H as [(_ & _ & _ & H)|[[H1 H2]|[_ H]]]; eauto.
  - destruct H as (pmu & _ & [_ H]%cleanup_log_spec). by left.
Qed.

Lemma last_write_const r c l v0 : (forall v, (r, v) ∈ l -> v = c) -> (exists v, (r, v) ∈ l) \/ v0 = Some c ->
  last_write r l v0 = Some c.
Proof.
  revert v0. induction l as [|[r' v'] l IH]; intros v0 Hc He; simpl.
  { by destruct He as [(v & ?%elem_of_nil)|]. }
  apply IH; [intros v Hv; apply Hc; by right|]. destruct (decide (r' = r)) as [->|Hne].
  - right. f_equal. apply Hc. left.
  - destruct He as [(v & Hv)|He]; [|by right]. apply elem_of_cons in Hv as [[= <- _]|Hv]; [done|left; eauto].
Qed.

Lemma last_write_none r l v0 : (forall v, (r, v) ∉ l) -> last_write r l v0 = v0.
Proof.
  revert v0. induction l as [|[r' v'] l IH]; intros v0 H; [done|]. cbn [last_write].
  rewrite decide_False by (intros ->; apply (H v'); left). apply IH. intros v Hv. apply (H v). by right.
Qed.

(** A register of the clean-up that is no reset register is zeroed. *)
Lemma cleanup_all_log_spec st r v : (forall d, d ∈ concat (idxPMUs st) -> resetControl d <> Some r) ->
  (r, v) ∈ cleanup_all_log st <-> r ∈ cleaned_registers st /\ v = 0.
Proof.
  intros Hd. unfold cleanup_all_log, cleaned_registers, cleaned_units. rewrite map_app, concat_app, !elem_of_app, !elem_of_concat_map.
  setoid_rewrite cleanup_log_spec. cbn [fst snd].
  assert (H : forall d, d ∈ concat (idxPMUs st) -> (r, v) ∈ idx_cleanup_log d <-> r ∈ accelerator_controls d /\ v = 0).
  { intros d Hin. unfold idx_cleanup_log, accelerator_controls.
    rewrite !elem_of_app, elem_of_concat_map, !elem_of_filter_log, !elem_of_some_regs, list_elem_of_singleton.
    setoid_rewrite elem_of_filter_log. cbn [fst snd]. pose proof (Hd d Hin). naive_solver. }
  split.
  - intros [(p & Hp & Hr & ->)|[(d & Hin & Hr)|(p & Hp & Hr & ->)]]; [eauto 6| |eauto 6]. apply H in Hr as [Hr ->]; [eauto 6|done].
  - intros [[[(p & Hp & Hr)|(p & Hp & Hr)]|(d & Hin & Hr)] ->]; [eauto 6..|]. right; left. exists d. split; [done|]. by apply H.
Qed.

(** C23. [cleanupUncorePMUs] and the control registers of the process, on any machine with the laws
    of registers: each control register - event selector, unit control, fixed counter control -
    of the IIO and IRP units, of the CBo and the other units of the dies, of the CXL ports, of
    the links, memory channels, M2M units and home agents of the servers, and each event
    selector and the enabling register of the accelerators, reads 0 afterwards; every other
    register, those of the M3UPI units and of the M2M units of high-bandwidth memory
    ([missed_units]) included, reads what it read before. The register in question must not
    share its cells with another register of the clean-up and not be the reset register of
    an accelerator. *)
Theorem cleanup_zeroes {machine : Machine} {laws : RegisterLaws machine} st r s :
  backed r = true ->
  (forall w, w ∈ cleanup_all_log st -> backed w.1 = true /\ (w.1 = r \/ cells_disjoint w.1 r = true)) ->
  (forall d, d ∈ concat (idxPMUs st) -> resetControl d <> Some r) ->
  (r ∈ cleaned_registers st -> ((cleanupUncorePMUs st ;; reg_read r) s).2 = Ok 0) /\
  (r ∉ cleaned_registers st -> ((cleanupUncorePMUs st ;; reg_read r) s).2 = (reg_read r s).2).
Proof.
  intros Hb Hw Hd. rewrite (agree_at (M_bind_cong _ _ _ _ (cleanupUncorePMUs_writes st) (fun _ => reflexivity _)) s).
  assert (Hfits : forall w, w ∈ cleanup_all_log st -> fits 64 w.2).
  { intros w [->|[-> _]]%cleanup_all_log_values; unfold fits; lia. }
  assert (Hlog : Forall (write_ok r) (cleanup_all_log st)).
  { apply Forall_forall. intros [r' v] Hin. destruct (Hw _ Hin). split_and!; [done|by apply (Hfits _ Hin)|done]. }
  split; intros Hr.
  - rewrite (read_after_writes r _ s 0 Hb Hlog); [by destruct r|]. apply last_write_const.
    + intros v Hv. by apply (cleanup_all_log_spec st r v Hd) in Hv as [_ ?].
    + left. exists 0. by apply cleanup_all_log_spec.
  - apply read_untouched; [done..|]. intros v Hv. by apply (cleanup_all_log_spec st r v Hd) in Hv as [? _].
Qed.

(** A socket with a CBo, an accelerator and an M3UPI unit that counts. *)
Definition example_m3upi : UncorePMU :=
  MkUncorePMU 0 (Some (PCICFGRegister32 7 0xF4)) [Some (PCICFGRegister32 7 0xD8)] [Some (PCICFGRegister64 7 0xA0)] None None None None.

Definition example_uncore : pcm_uncore :=
  PcmUncore [MkServer 0 [] [] [] [example_m3upi] [] [] [] []]
    [[[(CBO_PMU_ID, [Some (created_cbo SKX (Some 5) 2 [0; 1; 2; 3]%nat); None])]]] [] []
    [[]; [example_idx 9]; []] [].

(** The selector of the CBo and an event of the accelerator are zeroed, the selector of the
    M3UPI unit still holds what [programM3UPI] wrote. *)
Lemma cleanup_zeroes_witness :
  let s := HW [Write (PciPort32 7 0xD8) 0x42] ∅ ∅ in
  ((cleanupUncorePMUs (machine := memory_machine) example_uncore ;;
    reg_read (machine := memory_machine) (MSRRegister (Some 5) 0xE21)) s).2 = Ok 0 /\
  ((cleanupUncorePMUs (machine := memory_machine) example_uncore ;;
    reg_read (machine := memory_machine) (MMIORegister64 9 0x100)) s).2 = Ok 0 /\
  (exists pmu, pmu ∈ missed_units example_uncore /\ PCICFGRegister32 7 0xD8 ∈ unit_controls pmu) /\
  ((cleanupUncorePMUs (machine := memory_machine) example_uncore ;;
    reg_read (machine := memory_machine) (PCICFGRegister32 7 0xD8)) s).2 = Ok 0x42.
Proof.
  intros s.
  assert (H : forall r, r ∈ [MSRRegister (Some 5) 0xE21; MMIORegister64 9 0x100; PCICFGRegister32 7 0xD8] ->
    Forall (fun w => backed w.1 = true /\ (w.1 = r \/ cells_disjoint w.1 r = true)) (cleanup_all_log example_uncore)).
  { intros r Hr. rewrite !elem_of_cons, elem_of_nil in Hr. destruct Hr as [->|[->|[->|[]]]]; apply (bool_decide_unpack _); by vm_compute. }
  assert (Hd : forall d, d ∈ concat (idxPMUs example_uncore) -> d = example_idx 9).
  { intros d Hd%list_elem_of_In. by destruct Hd as [<-|[]]. }
  split_and!.
  - apply (fun H1 H2 H3 => proj1 (@cleanup_zeroes memory_machine memory_machine_laws example_uncore (MSRRegister (Some 5) 0xE21) s H1 H2 H3)); [done| | |].
    + by apply Forall_forall, H; left.
    + intros d ->%Hd. discriminate.
    + apply (bool_decide_unpack _). by vm_compute.
  - apply (fun H1 H2 H3 => proj1 (@cleanup_zeroes memory_machine memory_machine_laws example_uncore (MMIORegister64 9 0x100) s H1 H2 H3)); [done| | |].
    + by apply Forall_forall, H; right; left.
    + intros d ->%Hd. discriminate.
    + apply (bool_decide_unpack _). by vm_compute.
  - exists example_m3upi. split; vm_compute; left.
  - transitivity ((reg_read (machine := memory_machine) (PCICFGRegister32 7 0xD8) s).2); [|by vm_compute].
    apply (fun H1 H2 H3 => proj2 (@cleanup_zeroes memory_machine memory_machine_laws example_uncore (PCICFGRegister32 7 0xD8) s H1 H2 H3)); [done| | |].
    + by apply Forall_forall, H; right; right; left.
    + intros d ->%Hd. discriminate.
    + apply (bool_decide_unpack _). by vm_compute.
Defined.
