(* ===== verification/Discovery.v ===== *)
(** Discovery of units through the hardware ([src/src/pci.h], [src/src/mmio.cpp],
    [src/src/uncore_pmu_discovery.h], [src/src/uncore_pmu_discovery.cpp],
    [src/src/tpmi.cpp] and their users in [src/src/cpucounters.cpp]): the walk over the
    extended capabilities of the PCI devices, the tables of the uncore counters in memory and
    the units made of them, and the register areas of TPMI.

    The list of devices and the table of NUMA nodes come from the operating system and are
    arguments. A mapping of physical memory ([MMIORange]) is named by its first address and
    always succeeds. *)

From S2P Require Import Prelude Bits WidthExtender CpuModels Capabilities Registers UncorePMU ServerUncore PcmUncore.
Local Open Scope Z_scope.

(** * Capabilities of PCI devices *)

(** What [forAllIntelDevices] finds, in its order. *)
Record pci_device := PciDevice { dev_handle : Z; dev_NUMANode : Z; dev_id : Z }.

(** [VSEC]: the two halves [raw_value64]. *)
Definition VSEC : Type := Z * Z.

Definition VSEC_low : layout :=
  [("cap_id", 16); ("cap_version", 4); ("cap_next", 12); ("vsec_id", 16); ("vsec_version", 4);
   ("vsec_length", 12)]%string.

Definition VSEC_high : layout :=
  [("entryID", 16); ("NumEntries", 8); ("EntrySize", 8); ("tBIR", 3); ("Address", 29)]%string.

Definition cap_id (v : VSEC) : Z := get_field VSEC_low "cap_id" v.1.
Definition cap_next (v : VSEC) : Z := get_field VSEC_low "cap_next" v.1.
Definition vsec_id (v : VSEC) : Z := get_field VSEC_low "vsec_id" v.1.
Definition entryID (v : VSEC) : Z := get_field VSEC_high "entryID" v.2.
Definition NumEntries (v : VSEC) : Z := get_field VSEC_high "NumEntries" v.2.
Definition tBIR (v : VSEC) : Z := get_field VSEC_high "tBIR" v.2.
Definition Address (v : VSEC) : Z := get_field VSEC_high "Address" v.2.

Section Walk.
Context {machine : Machine} {S : Type}.
Context (matchFunc : VSEC -> bool) (processFunc : Z -> VSEC -> Z -> S -> M S).

(** The base address register of a matching capability, and the call of [processFunc]. *)
Definition process_bar (d : pci_device) (header : VSEC) (st : S) : M S :=
  let h := dev_handle d in
  let barOffset := 0x10 + tBIR header * 4 in
  r ← access_read (PciPort32 h barOffset);
  match r with
  | None | Some 0 => mret st
  | Some bar =>
      if extract_bits_32 bar 0 0 =? 0 then
        let type := extract_bits_32 bar 2 1 in
        if type =? 0 then processFunc (Z.land bar (Z.lnot 0xf)) header (dev_NUMANode d) st
        else if type =? 2 then
          r ← access_read (PciPort32 h (barOffset + 4));
          match r with
          | Some bar_high =>
              processFunc (Z.land (Z.lor (u64 (Z.shiftl bar_high 32)) bar) (Z.lnot 0xf)) header (dev_NUMANode d) st
          | None => mret st
          end
        else mret st
      else mret st
  end.

(** The [do] loop over the capabilities; [None] when the fuel is used up. *)
Fixpoint walk (fuel : nat) (d : pci_device) (offset : Z) (st : S) : M (option S) :=
  match fuel with
  | O => mret None
  | Datatypes.S fuel =>
      let h := dev_handle d in
      if offset =? 0 then mret (Some st)
      else
        r ← access_read (PciPort32 h offset);
        match r with
        | None | Some 0 => mret (Some st)
        | Some _ =>
            r0 ← access_read (PciPort64 h offset);
            match r0 with
            | None => mret (Some st)
            | Some raw0 =>
                r1 ← access_read (PciPort64 h (offset + 8));
                match r1 with
                | None => mret (Some st)
                | Some raw1 =>
                    let header := (raw0, raw1) in
                    st ← (if matchFunc header then process_bar d header st else mret st);
                    let next := Z.land (cap_next header) (Z.lnot 3) in
                    if offset =? next then mret (Some st) else walk fuel d next st
                end
            end
        end
  end.

(** [processDVSEC] over the devices. *)
Fixpoint processDVSEC (fuel : nat) (devices : list pci_device) (st : S) : M (option S) :=
  match devices with
  | [] => mret (Some st)
  | d :: devices =>
      r ← access_read (PciPort32 (dev_handle d) 4);
      res ← (if Z.land (default 0 r) 0x100000 =? 0 then mret (Some st) else walk fuel d 0x100 st);
      match res with
      | Some st => processDVSEC fuel devices st
      | None => mret None
      end
  end.

End Walk.

(** More than the number of capabilities that a device can have, see
    [walk_ends_or_cycles]. *)
Definition capability_fuel : nat := 1025.

(** * Reading of physical memory *)

Section Memory.
Context {machine : Machine}.

(** The loop of [mmio_memcpy]: the words copied, and whether it was not stopped by a word of
    ones. *)
Fixpoint copy_words (k : nat) (mapBegin i : Z) (checkFailures : bool) : M (list Z * bool) :=
  match k with
  | O => mret ([], true)
  | S k =>
      r ← access_read (MmioPort32 mapBegin (i - mapBegin));
      let value := default 0 r in
      if checkFailures && (value =? 2 ^ 32 - 1) then mret ([], false)
      else
        rest ← copy_words k mapBegin (i + 4) checkFailures;
        mret (value :: rest.1, rest.2)
  end.

Definition mmio_memcpy (src n : Z) (checkFailures : bool) : M (list Z * bool) :=
  copy_words (Z.to_nat ((u64 (src + n) - src + 3) / 4)) (roundDownTo4K src) src checkFailures.

End Memory.

(** The 64-bit words of 32-bit ones, low half first. *)
Fixpoint words64 (l : list Z) : list Z :=
  match l with
  | lo :: hi :: l => Z.lor lo (Z.shiftl hi 32) :: words64 l
  | _ => []
  end.

(** * The tables of the uncore counters *)

Record GlobalPMU := MkGlobalPMU {
  gl_type : Z; stride : Z; maxUnits : Z; gl_accessType : Z; globalCtrlAddr : Z; gl_statusOffset : Z; numStatus : Z
}.

Record BoxPMU := MkBoxPMU {
  numRegs : Z; ctrlOffset : Z; bitWidth : Z; ctrOffset : Z; bx_statusOffset : Z; accessType : Z;
  boxCtrlAddr : Z; boxType : Z; boxID : Z
}.

Definition GlobalPMU_words : layout * layout :=
  ([("type", 8); ("stride", 8); ("maxUnits", 10); ("__reserved1", 36); ("accessType", 2)]%string,
   [("statusOffset", 8); ("numStatus", 16); ("__reserved2", 40)]%string).

Definition BoxPMU_words : layout * layout :=
  ([("numRegs", 8); ("ctrlOffset", 8); ("bitWidth", 8); ("ctrOffset", 8); ("statusOffset", 8); ("__reserved1", 22);
    ("accessType", 2)]%string,
   [("boxType", 16); ("boxID", 16); ("__reserved2", 32)]%string).

(** The unions of the tables with their structures: three words of 64 bits. *)
Definition global_of (table : list Z) : GlobalPMU :=
  let t i := default 0 (table !! i) in
  let f0 name := get_field GlobalPMU_words.1 name (t 0%nat) in
  let f2 name := get_field GlobalPMU_words.2 name (t 2%nat) in
  MkGlobalPMU (f0 "type") (f0 "stride") (f0 "maxUnits") (f0 "accessType") (t 1%nat) (f2 "statusOffset")
    (f2 "numStatus").

Definition box_of (table : list Z) : BoxPMU :=
  let t i := default 0 (table !! i) in
  let f0 name := get_field BoxPMU_words.1 name (t 0%nat) in
  let f2 name := get_field BoxPMU_words.2 name (t 2%nat) in
  MkBoxPMU (f0 "numRegs") (f0 "ctrlOffset") (f0 "bitWidth") (f0 "ctrOffset") (f0 "statusOffset") (f0 "accessType")
    (t 1%nat) (f2 "boxType") (f2 "boxID").

(** The members of [UncorePMUDiscovery]: by socket and die. *)
Abbreviation BoxPMUMap := (gmap Z (list BoxPMU)).

Record UncorePMUDiscovery := MkDiscovery {
  boxPMUs : list (list BoxPMUMap);
  globalPMUs : list (list GlobalPMU)
}.

(** [v.resize(max(n, v.size()))] and [v[socket].push_back(x)] *)
Definition push_at {A} (socket : nat) (x : A) (v : list (list A)) : list (list A) :=
  alter (fun l => l ++ [x]) socket (v ++ replicate (socket + 1 - length v) []).

Definition push_box (b : BoxPMU) (m : BoxPMUMap) : BoxPMUMap :=
  <[boxType b := default [] (m !! boxType b) ++ [b]]> m.

Section Constructor.
Context {machine : Machine} (mapNUMANodeToSocket : Z -> Z).

(** The loop over the units [u]; [None] when a read fails. *)
Fixpoint read_units (k : nat) (u bar step : Z) (boxPMUMap : BoxPMUMap) : M (option BoxPMUMap) :=
  match k with
  | O => mret (Some boxPMUMap)
  | S k =>
      r ← mmio_memcpy (u64 (bar + (u + 1) * step)) 24 true;
      if r.2 : bool then
        let table := words64 r.1 in
        if (default 0 (table !! 0%nat) =? 0) && (default 0 (table !! 1%nat) =? 0)
        then read_units k (u + 1) bar step boxPMUMap
        else read_units k (u + 1) bar step (push_box (box_of table) boxPMUMap)
      else mret None
  end.

Definition processTables (bar : Z) (vsec : VSEC) (NUMANode : Z) (d : UncorePMUDiscovery) : M UncorePMUDiscovery :=
  r ← mmio_memcpy bar 24 true;
  if r.2 : bool then
    let global := global_of (words64 r.1) in
    let socket := if 0 <=? NUMANode then Z.to_nat (Z.max 0 (mapNUMANodeToSocket NUMANode)) else 0%nat in
    let globals := push_at socket global (globalPMUs d) in
    let step := stride global * 8 in
    units ← read_units (Z.to_nat (maxUnits global)) 0 bar step ∅;
    match units with
    | Some boxPMUMap => mret (MkDiscovery (push_at socket boxPMUMap (boxPMUs d)) globals)
    | None => mret (MkDiscovery (boxPMUs d) globals)
    end
  else mret d.

(** The constructor; [disabled] is the environment variable PCM_NO_UNCORE_PMU_DISCOVERY. *)
Definition make_discovery (disabled : bool) (devices : list pci_device) : M (option UncorePMUDiscovery) :=
  if disabled then mret (Some (MkDiscovery [] []))
  else processDVSEC (fun v => (cap_id v =? 0x23) && (entryID v =? 1)) processTables capability_fuel devices
         (MkDiscovery [] []).

End Constructor.

(** * The accessors of [UncorePMUDiscovery] *)

Definition SPR_PCU_BOX_TYPE : Z := 4.
Definition SPR_IMC_BOX_TYPE : Z := 6.
Definition SPR_UPILL_BOX_TYPE : Z := 8.
Definition SPR_MDF_BOX_TYPE : Z := 11.
Definition SPR_CXLCM_BOX_TYPE : Z := 12.
Definition SPR_CXLDP_BOX_TYPE : Z := 13.
Definition BHS_MDF_BOX_TYPE : Z := 20.
Definition BHS_PCIE_GEN5x16_TYPE : Z := 21.
Definition BHS_PCIE_GEN5x8_TYPE : Z := 22.

(** [accessTypeEnum] *)
Definition access_MSR : Z := 0.
Definition access_MMIO : Z := 1.
Definition access_PCICFG : Z := 2.
Definition unknownAccessType : Z := 255.

Section Accessors.
Context (d : UncorePMUDiscovery) (bt : Z) (socket die : nat).

(** [boxPMUs[socket][die][boxType]], where the subscript of the map makes a missing entry. *)
Definition boxes : list BoxPMU :=
  match boxPMUs d !! socket with
  | Some dies => match dies !! die with Some m => default [] (m !! bt) | None => [] end
  | None => []
  end.

Definition getNumDies : nat := length (default [] (boxPMUs d !! socket)).
Definition getNumBoxes : nat := length boxes.

Definition validBox (pos : nat) : bool :=
  (socket <? length (boxPMUs d))%nat && (die <? getNumDies)%nat && (pos <? length boxes)%nat.

Definition registerStep (b : BoxPMU) : Z :=
  let width := bitWidth b in
  if accessType b =? access_MSR then if width <=? 64 then 1 else 0
  else if (accessType b =? access_PCICFG) || (accessType b =? access_MMIO) then
    if width <=? 8 then 1 else if width <=? 16 then 2 else if width <=? 32 then 4 else if width <=? 64 then 8 else 0
  else 0.

(** The bodies of the accessors for a valid box. *)
Definition box_at (pos : nat) : option BoxPMU := if validBox pos then boxes !! pos else None.

Definition getBoxCtlAddr (pos : nat) : Z := match box_at pos with Some b => boxCtrlAddr b | None => 0 end.

(** The overload with a counter. *)
Definition getBoxCtlAddrOf (pos : nat) (c : Z) : Z :=
  match box_at pos with
  | Some b =>
      if c <? numRegs b then
        let step := if bt =? SPR_IMC_BOX_TYPE then 4 else registerStep b in
        u64 (boxCtrlAddr b + ctrlOffset b + c * step)
      else 0
  | None => 0
  end.

Definition getBoxCtrAddr (pos : nat) (c : Z) : Z :=
  match box_at pos with
  | Some b => if c <? numRegs b then u64 (boxCtrlAddr b + ctrOffset b + c * registerStep b) else 0
  | None => 0
  end.

Definition getBoxAccessType (pos : nat) : Z :=
  match box_at pos with Some b => accessType b | None => unknownAccessType end.

Definition getBoxNumRegs (pos : nat) : Z := match box_at pos with Some b => numRegs b | None => 0 end.

End Accessors.

(** * Units made of discovered boxes *)

Section Units.
Context (d : UncorePMUDiscovery) (socket : nat).

(** The boxes of a type on the dies of the socket, die by die. *)
Definition all_boxes (bt : Z) : list (nat * nat) :=
  concat (map (fun die => map (pair die) (seq 0 (getNumBoxes d bt socket die))) (seq 0 (getNumDies d socket))).

(** [addPMUsFromDiscoveryRef]: units of MSRs; no filter for a negative [filter0]. *)
Definition msr_unit (handle : SafeMsrHandle) (bt : Z) (fltr : Z) (die box : nat) : UncorePMU :=
  let msr addr := Some (MSRRegister handle addr) in
  MkUncorePMU 0 (msr (getBoxCtlAddr d bt socket die box))
    (map (fun c => msr (getBoxCtlAddrOf d bt socket die box c)) [0; 1; 2; 3])
    (map (fun c => msr (getBoxCtrAddr d bt socket die box c)) [0; 1; 2; 3]) None None
    (if fltr <? 0 then None else msr (u64 (getBoxCtlAddr d bt socket die box + fltr))) None.

Definition addPMUsFromDiscovery (handle : SafeMsrHandle) (bt : Z) (fltr : Z) : list UncorePMU :=
  omap (fun db =>
    if (getBoxAccessType d bt socket db.1 db.2 =? access_MSR) && (4 <=? getBoxNumRegs d bt socket db.1 db.2)
    then Some (msr_unit handle bt fltr db.1 db.2) else None) (all_boxes bt).

(** The registers [0, n_regs) of a box. *)
Definition regs (bt : Z) (die pos : nat) : list Z := seqZ 0 (getBoxNumRegs d bt socket die pos).

(** [createCXLPMU]: the registers are in the page of the unit control. *)
Definition createCXLPMU (bt : Z) (die pos : nat) : UncorePMU :=
  let unitControlAddr := getBoxCtlAddr d bt socket die pos in
  let aligned := Z.land unitControlAddr (Z.lnot 4095) in
  let mmio addr := Some (MMIORegister64 aligned (u64 (addr - aligned))) in
  MkUncorePMU 0 (mmio unitControlAddr)
    (map (fun r => mmio (getBoxCtlAddrOf d bt socket die pos r)) (regs bt die pos))
    (map (fun r => mmio (getBoxCtrAddr d bt socket die pos r)) (regs bt die pos)) None None None None.

Definition makeCXLPMUs (m : Z) : list (UncorePMU * UncorePMU) :=
  if is_one_of m [SPR; EMR; GNR; GNR_D; SRF] then
    concat (map (fun die =>
      map (fun pos => (createCXLPMU SPR_CXLCM_BOX_TYPE die pos, createCXLPMU SPR_CXLDP_BOX_TYPE die pos))
        (seq 0 (Nat.min (getNumBoxes d SPR_CXLCM_BOX_TYPE socket die) (getNumBoxes d SPR_CXLDP_BOX_TYPE socket die))))
      (seq 0 (getNumDies d socket)))
  else [].

(** [makeRegister] of the PCI boxes: the address holds the location; [open_pci] gives the
    handle of a device (bus, device, function) that exists. *)
Definition PCI_ENABLE : Z := 0x80000000.

Definition PCICFGAddress : layout := [("offset", 12); ("function", 3); ("device", 5); ("bus", 8)]%string.

Definition make_pci_register (open_pci : Z -> Z -> Z -> option Z) (rawAddr : Z) : HWRegisterPtr :=
  let f name := get_field PCICFGAddress name rawAddr in
  if Z.land rawAddr PCI_ENABLE =? 0 then None
  else match open_pci (f "bus"%string) (f "device"%string) (f "function"%string) with
       | Some handle => Some (PCICFGRegister64 handle (f "offset"%string))
       | None => None
       end.

(** The units [getPCICFGPMUsFromDiscovery] hands to its callback. *)
Definition getPCICFGPMUsFromDiscovery (open_pci : Z -> Z -> Z -> option Z) (bt : Z) : list UncorePMU :=
  omap (fun dp =>
    if getBoxAccessType d bt socket dp.1 dp.2 =? access_PCICFG then
      match make_pci_register open_pci (getBoxCtlAddr d bt socket dp.1 dp.2) with
      | Some ctl =>
          Some (MkUncorePMU 0 (Some ctl)
            (map (fun r => make_pci_register open_pci (getBoxCtlAddrOf d bt socket dp.1 dp.2 r)) (regs bt dp.1 dp.2))
            (map (fun r => make_pci_register open_pci (getBoxCtrAddr d bt socket dp.1 dp.2 r)) (regs bt dp.1 dp.2))
            None None None None)
      | None => None
      end
    else None) (all_boxes bt).

(** The memory controllers of Sapphire Rapids. *)
Definition SERVER_MC_CH_PMON_FIXED_CTL_OFFSET : Z := 0x54.
Definition SERVER_MC_CH_PMON_FIXED_CTR_OFFSET : Z := 0x38.

Definition imc_register (bits rawAddr : Z) : HWRegisterPtr :=
  let alignedAddr := Z.land rawAddr (Z.lnot 4095) in
  let alignDelta := Z.land rawAddr 4095 in
  if bits =? 32 then Some (MMIORegister32 alignedAddr alignDelta)
  else if bits =? 64 then Some (MMIORegister64 alignedAddr alignDelta) else None.

Definition discovered_imcs : list UncorePMU :=
  omap (fun dp =>
    let ctl := getBoxCtlAddr d SPR_IMC_BOX_TYPE socket dp.1 dp.2 in
    if getBoxAccessType d SPR_IMC_BOX_TYPE socket dp.1 dp.2 =? access_MMIO then
      match imc_register 32 ctl with
      | Some c =>
          Some (MkUncorePMU 0 (Some c)
            (map (fun r => imc_register 32 (getBoxCtlAddrOf d SPR_IMC_BOX_TYPE socket dp.1 dp.2 r))
               (regs SPR_IMC_BOX_TYPE dp.1 dp.2))
            (map (fun r => imc_register 64 (getBoxCtrAddr d SPR_IMC_BOX_TYPE socket dp.1 dp.2 r))
               (regs SPR_IMC_BOX_TYPE dp.1 dp.2))
            (imc_register 32 (u64 (ctl + SERVER_MC_CH_PMON_FIXED_CTL_OFFSET)))
            (imc_register 64 (u64 (ctl + SERVER_MC_CH_PMON_FIXED_CTR_OFFSET))) None None)
      | None => None
      end
    else None) (all_boxes SPR_IMC_BOX_TYPE).

(** [num_imc_channels]: two channels for each controller. *)
Definition discovered_channels (imcs : list UncorePMU) : list Z :=
  replicate ((length imcs + 1) / 2) 2.

End Units.

(** * TPMI *)

Definition TPMIInvalidValue : Z := 2 ^ 32 - 1.

Definition PFS : layout :=
  [("TPMI_ID", 8); ("NumEntries", 8); ("EntrySize", 16); ("CapOffset", 16); ("Attribute", 2); ("Reserved", 14)]%string.

(** [PFSInstance]: the base addresses by identifier. *)
Record PFSInstance := MkPFSInstance { pfsMap : gmap Z (list Z); pfs_NUMANode : Z }.

Definition push_address (id addr : Z) (m : gmap Z (list Z)) : gmap Z (list Z) :=
  <[id := default [] (m !! id) ++ [addr]]> m.

Section TPMI.
Context {machine : Machine}.

(** The loop over the entries [p]: an entry whose first word reads all ones is left out. The
    words of a valid entry are read once more for the debug output. *)
Fixpoint read_entries (k : nat) (p base pfs : Z) (m : gmap Z (list Z)) : M (gmap Z (list Z)) :=
  match k with
  | O => mret m
  | S k =>
      let size := get_field PFS "EntrySize" pfs * 4 in
      let addr := u64 (base + get_field PFS "CapOffset" pfs * 1024 + p * size) in
      r ← mmio_memcpy addr 4 false;
      if default 0 (r.1 !! 0%nat) =? TPMIInvalidValue then read_entries k (p + 1) base pfs m
      else
        forM (seqZ 0 ((size + 7) / 8)) (fun i => mmio_memcpy (u64 (addr + i * 8)) 8 false ;; mret tt) ;;
        read_entries k (p + 1) base pfs (push_address (get_field PFS "TPMI_ID" pfs) addr m)
  end.

Fixpoint read_tables (pfsArray : list Z) (base : Z) (m : gmap Z (list Z)) : M (gmap Z (list Z)) :=
  match pfsArray with
  | [] => mret m
  | pfs :: pfsArray =>
      m ← read_entries (Z.to_nat (get_field PFS "NumEntries" pfs)) 0 base pfs m;
      read_tables pfsArray base m
  end.

(** What a partial copy leaves in an array of [n] zeros. *)
Definition copied (n : nat) (words : list Z) : list Z :=
  take n (words64 (words ++ replicate (2 * n - length words) 0)).

Definition process_pfs (bar : Z) (vsec : VSEC) (NUMANode : Z) (instances : list PFSInstance) : M (list PFSInstance) :=
  let base := u64 (bar + 8 * Address vsec) in
  r ← mmio_memcpy base (NumEntries vsec * 8) true;
  m ← read_tables (copied (Z.to_nat (NumEntries vsec)) r.1) base ∅;
  mret (instances ++ [MkPFSInstance m NUMANode]).

(** [PFSInstances::get] on its first call. *)
Definition get_PFSInstances (devices : list pci_device) : M (option (list PFSInstance)) :=
  processDVSEC (fun v => (cap_id v =? 0xb) && (vsec_id v =? 0x42)) process_pfs capability_fuel devices [].

(** [TPMIHandleMMIO]: the page and the offset of each entry. *)
Definition TPMIHandle : Type := list (Z * Z).

Definition make_TPMIHandle (instances : list PFSInstance) (instance : nat) (ID requestedRelativeOffset : Z)
    : res TPMIHandle :=
  match instances !! instance with
  | None => Throw OutOfRange
  | Some i =>
      Ok (map (fun addr =>
            let requestedAddr := u64 (addr + requestedRelativeOffset) in
            let baseAddr := roundDownTo4K requestedAddr in
            (baseAddr, requestedAddr - baseAddr)) (default [] (pfsMap i !! ID)))
  end.

Definition TPMI_getNumEntries (t : TPMIHandle) : nat := length t.

Definition TPMI_read64 (t : TPMIHandle) (entryPos : nat) : M Z :=
  match t !! entryPos with
  | Some (range, offset) => reg_read (MMIORegister64 range offset)
  | None => throw OutOfRange
  end.

Definition TPMI_write64 (t : TPMIHandle) (entryPos : nat) (val : Z) : M unit :=
  match t !! entryPos with
  | Some (range, offset) => reg_write (MMIORegister64 range offset) val
  | None => throw OutOfRange
  end.

End TPMI.

(** * A machine whose registers do not change *)

Definition static_machine (cfg : port -> option Z) : Machine := fun _ p => cfg p.

(** A computation that gives a result whatever happened before. *)
Definition yields {A} (m : M A) (a : A) : Prop := forall s, (m s).2 = Ok a.

Lemma yields_ret {A} (a : A) : yields (mret a) a.
Proof. done. Qed.

Lemma yields_bind {A B} (m : M A) (f : A -> M B) a b : yields m a -> yields (f a) b -> yields (m ≫= f) b.
Proof.
  intros Hm Hf s. unfold mbind, M_bind. specialize (Hm s). destruct (m s) as [s' r]. simpl in Hm. subst r. apply Hf.
Qed.

Lemma yields_read cfg p : yields (@access_read (static_machine cfg) p) (cfg p).
Proof. done. Qed.

#[export] Hint Resolve yields_ret yields_read : pcm.

(** * The walk over the capabilities *)

Section Chain.
Context (cfg : port -> option Z) (d : pci_device).

(** The capability at an offset, when it is there and readable. *)
Definition capability (offset : Z) : option VSEC :=
  if offset =? 0 then None
  else match cfg (PciPort32 (dev_handle d) offset) with
       | None | Some 0 => None
       | Some _ =>
           match cfg (PciPort64 (dev_handle d) offset), cfg (PciPort64 (dev_handle d) (offset + 8)) with
           | Some raw0, Some raw1 => Some (raw0, raw1)
           | _, _ => None
           end
       end.

Definition next_of (v : VSEC) : Z := Z.land (cap_next v) (Z.lnot 3).

(** The list of capabilities from an offset on, with their offsets: it ends where there is no
    capability, or with one that names itself as the next. *)
Inductive chain : Z -> list Z -> list VSEC -> Prop :=
  | chain_end offset : capability offset = None -> chain offset [] []
  | chain_self offset v : capability offset = Some v -> next_of v = offset -> chain offset [offset] [v]
  | chain_next offset v os l : capability offset = Some v -> next_of v <> offset ->
      chain (next_of v) os l -> chain offset (offset :: os) (v :: l).

(** The base address of a capability. *)
Definition base_address (v : VSEC) : option Z :=
  match cfg (PciPort32 (dev_handle d) (0x10 + tBIR v * 4)) with
  | None | Some 0 => None
  | Some bar =>
      if extract_bits_32 bar 0 0 =? 0 then
        let type := extract_bits_32 bar 2 1 in
        if type =? 0 then Some (Z.land bar (Z.lnot 0xf))
        else if type =? 2 then
          match cfg (PciPort32 (dev_handle d) (0x10 + tBIR v * 4 + 4)) with
          | Some high => Some (Z.land (Z.lor (u64 (Z.shiftl high 32)) bar) (Z.lnot 0xf))
          | None => None
          end
        else None
      else None
  end.

Lemma chain_deterministic offset os l os' l' : chain offset os l -> chain offset os' l' -> os = os' /\ l = l'.
Proof.
  intros H. revert os' l'. induction H as [o Ho|o v Ho Hn|o v os l Ho Hn _ IH]; intros os' l' H'; inversion H'; subst; try congruence.
  - done.
  - split; congruence.
  - match goal with Hv : capability _ = Some ?v0, Hc : chain (next_of ?v0) _ _ |- _ =>
      assert (v0 = v) as -> by congruence; by destruct (IH _ _ Hc) as [-> ->] end.
Qed.

Lemma chain_suffix offset os l i o : chain offset os l -> os !! i = Some o -> chain o (drop i os) (drop i l).
Proof.
  intros H. revert i. induction H as [o' Ho|o' v Ho Hn|o' v os l Ho Hn H IH]; intros i Hi; [done|..];
    destruct i as [|i]; simpl in *; try (injection Hi as <-).
  - by apply chain_self.
  - done.
  - by apply chain_next.
  - by apply IH.
Qed.

Lemma chain_offsets_apart offset os l : chain offset os l -> NoDup os.
Proof.
  intros H. apply NoDup_alt. intros i j o Hi Hj.
  destruct (chain_deterministic _ _ _ _ _ (chain_suffix _ _ _ _ _ H Hi) (chain_suffix _ _ _ _ _ H Hj)) as [E _].
  apply lookup_lt_Some in Hi, Hj. apply (f_equal length) in E. rewrite !length_drop in E. lia.
Qed.

Lemma next_of_bounds v : exists k, next_of v = 4 * k /\ 0 <= k < 1024.
Proof.
  unfold next_of. assert (E : cap_next v = field v.1 20 12) by reflexivity. rewrite E.
  pose proof (field_fits v.1 20 12 ltac:(lia)) as Hf. set (x := field _ _ _) in *. unfold fits in Hf. exists (x / 4).
  change 3 with (Z.ones 2). rewrite <- Z.ldiff_land, Z.ldiff_ones_r, Z.shiftl_mul_pow2, Z.shiftr_div_pow2 by lia.
  clearbody x. change (2 ^ 12) with 4096 in Hf. change (2 ^ 2) with 4.
  split; [lia|]. split; [apply Z.div_pos; lia|apply Z.div_lt_upper_bound; lia].
Qed.

Lemma chain_offsets offset os l : chain offset os l -> offset = 0x100 \/ (exists v, offset = next_of v) ->
  Forall (fun o => exists k, o = 4 * k /\ 0 <= k < 1024) os.
Proof.
  intros H. induction H as [o Ho|o v Ho Hn|o v os l Ho Hn H IH]; intros Hoff; constructor.
  - destruct Hoff as [->|[v' ->]]; [by exists 64|apply next_of_bounds].
  - constructor.
  - destruct Hoff as [->|[v' ->]]; [by exists 64|apply next_of_bounds].
  - apply IH. eauto.
Qed.

Lemma chain_length os l : chain 0x100 os l -> (length l <= 1024)%nat.
Proof.
  intros H. assert (length l = length os) as ->.
  { clear -H. induction H; simpl; congruence. }
  pose proof (chain_offsets_apart _ _ _ H) as Hnd. pose proof (chain_offsets _ _ _ H (or_introl eq_refl)) as Hb.
  assert (Hs : os ⊆+ map (Z.mul 4) (seqZ 0 1024)).
  { apply NoDup_submseteq; [done|]. intros o Ho. rewrite Forall_forall in Hb. destruct (Hb o Ho) as (k & -> & Hk).
    apply list_elem_of_In, in_map, list_elem_of_In, elem_of_seqZ. lia. }
  apply submseteq_length in Hs. rewrite length_map, length_seqZ in Hs. lia.
Qed.

(** The walk as a search: the capabilities until the end, if it is within the fuel. *)
Fixpoint search (fuel : nat) (offset : Z) : option (list VSEC) :=
  match fuel with
  | O => None
  | S fuel =>
      match capability offset with
      | None => Some []
      | Some v => if offset =? next_of v then Some [v] else option_map (cons v) (search fuel (next_of v))
      end
  end.

Lemma search_chain fuel offset l : search fuel offset = Some l -> exists os, chain offset os l.
Proof.
  revert offset l. induction fuel as [|fuel IH]; intros offset l H; [done|]. simpl in H.
  destruct (capability offset) as [v|] eqn:E; [|injection H as <-; eexists; by constructor].
  destruct (Z.eqb_spec offset (next_of v)); [injection H as <-; eexists; by apply chain_self|].
  destruct (search fuel (next_of v)) as [l'|] eqn:E'; [|done]. injection H as <-.
  destruct (IH _ _ E') as [os Hos]. eexists. by apply chain_next.
Qed.

Lemma chain_search fuel offset os l : chain offset os l -> (length l < fuel)%nat -> search fuel offset = Some l.
Proof.
  intros H. revert fuel. induction H as [o Ho|o v Ho Hn|o v os l Ho Hn H IH]; intros [|fuel] Hf; try (simpl in Hf; lia);
    simpl; rewrite Ho; [done| |].
  - by rewrite (proj2 (Z.eqb_eq _ _)).
  - rewrite (proj2 (Z.eqb_neq _ _)) by done. by rewrite IH by (simpl in Hf; lia).
Qed.

(** Searching further than the number of places for a capability finds nothing new. *)
Lemma search_enough fuel : search capability_fuel 0x100 = None -> search fuel 0x100 = None.
Proof.
  intros H. destruct (search fuel 0x100) as [l|] eqn:E; [|done]. apply search_chain in E as [os Hos].
  pose proof (chain_length _ _ Hos). rewrite (chain_search capability_fuel _ _ _ Hos) in H; [done|unfold capability_fuel; lia].
Qed.

End Chain.

(** What the walk does with the capabilities: those that match and have a base address are
    handed on in their order. *)
Definition hand_on {S} (cfg : port -> option Z) (d : pci_device) (matchFunc : VSEC -> bool)
    (P : Z -> VSEC -> Z -> S -> S) (st : S) (v : VSEC) : S :=
  if matchFunc v then
    match base_address cfg d v with Some bar => P bar v (dev_NUMANode d) st | None => st end
  else st.

Section WalkSpec.
Context (cfg : port -> option Z) {S : Type} (matchFunc : VSEC -> bool).
Context (processFunc : Z -> VSEC -> Z -> S -> M S) (P : Z -> VSEC -> Z -> S -> S).
Context (HP : forall bar v numa st, yields (processFunc bar v numa st) (P bar v numa st)).

Lemma process_bar_yields d v st :
  yields (@process_bar (static_machine cfg) S processFunc d v st)
    (match base_address cfg d v with Some bar => P bar v (dev_NUMANode d) st | None => st end).
Proof.
  unfold process_bar, base_address. eapply yields_bind; [apply yields_read|].
  destruct (cfg (PciPort32 (dev_handle d) (0x10 + tBIR v * 4))) as [[|bar|bar]|]; try done.
  all: destruct (extract_bits_32 _ 0 0 =? 0); [|done]; cbv zeta.
  all: destruct (_ =? 0); [apply HP|]; destruct (_ =? 2); [|done].
  all: eapply yields_bind; [apply yields_read|]; destruct (cfg (PciPort32 _ (_ + 4))); [apply HP|done].
Qed.

Lemma walk_yields fuel d offset st :
  yields (@walk (static_machine cfg) S matchFunc processFunc fuel d offset st)
    (option_map (foldl (hand_on cfg d matchFunc P) st) (search cfg d fuel offset)).
Proof.
  revert offset st. induction fuel as [|fuel IH]; intros offset st; [done|]. simpl. unfold capability.
  destruct (offset =? 0); [done|]. eapply yields_bind; [apply yields_read|].
  destruct (cfg (PciPort32 (dev_handle d) offset)) as [[|x|x]|]; try done.
  all: eapply yields_bind; [apply yields_read|]; destruct (cfg (PciPort64 _ offset)) as [raw0|]; [|done].
  all: eapply yields_bind; [apply yields_read|]; destruct (cfg (PciPort64 _ (offset + 8))) as [raw1|]; [|done].
  all: apply (yields_bind _ _ (hand_on cfg d matchFunc P st (raw0, raw1)));
    [unfold hand_on; destruct (matchFunc _); [apply process_bar_yields|done]|].
  all: fold (next_of (raw0, raw1)); destruct (offset =? next_of (raw0, raw1)); [done|].
  all: specialize (IH (next_of (raw0, raw1)) (hand_on cfg d matchFunc P st (raw0, raw1))).
  all: by destruct (search cfg d fuel _).
Qed.

End WalkSpec.

(** C22. On a device whose capabilities do not change, the walk either follows a list of at
    most 1024 capabilities, all at different offsets, and hands the matching ones on in
    order - whatever fuel above the length of the list it is given -, or the list has no end
    and the walk never ends. *)
Theorem walk_ends_or_cycles cfg {S : Type} matchFunc processFunc P d (st : S) :
  (forall bar v numa st, yields (processFunc bar v numa st) (P bar v numa st)) ->
  (exists os l, chain cfg d 0x100 os l /\ NoDup os /\ (length l <= 1024)%nat /\
     forall fuel, (length l < fuel)%nat ->
       yields (@walk (static_machine cfg) S matchFunc processFunc fuel d 0x100 st)
         (Some (foldl (hand_on cfg d matchFunc P) st l))) \/
  (~ exists os l, chain cfg d 0x100 os l) /\
  (forall fuel, yields (@walk (static_machine cfg) S matchFunc processFunc fuel d 0x100 st) None).
Proof.
  intros HP. pose proof (fun fuel => walk_yields cfg matchFunc processFunc P HP fuel d 0x100 st) as Hw.
  destruct (search cfg d capability_fuel 0x100) as [l|] eqn:E.
  - left. destruct (search_chain _ _ _ _ _ E) as [os Hos]. exists os, l. split_and!; [done|by eapply chain_offsets_apart|by eapply chain_length|].
    intros fuel Hf. specialize (Hw fuel). by rewrite (chain_search _ _ _ _ _ _ Hos Hf) in Hw.
  - right. split.
    + intros (os & l & Hos). pose proof (chain_length _ _ _ _ Hos).
      rewrite (chain_search _ _ capability_fuel _ _ _ Hos) in E; [done|unfold capability_fuel; lia].
    + intros fuel. specialize (Hw fuel). by rewrite (search_enough _ _ _ E) in Hw.
Qed.

(** A device of the configuration space given by its words of 32 bits. *)
Definition pci_words (words : list (Z * Z)) : port -> option Z := fun p =>
  let word o := default 0 (list_find (fun w => w.1 = o) words ≫= (fun iw => Some iw.2.2)) in
  match p with
  | PciPort32 _ o => Some (word o)
  | PciPort64 _ o => Some (Z.lor (word o) (Z.shiftl (word (o + 4)) 32))
  | _ => None
  end.

(** A device with two capabilities, the second one for the uncore counters at 0xFE000000. *)
Definition example_config : list (Z * Z) :=
  [(4, 0x100000); (0x10, 0xFE000000); (0x100, 0x1401000B); (0x140, 0x00010023); (0x148, 1)].

Definition example_device : pci_device := PciDevice 7 1 0x9A.

Lemma walk_ends_or_cycles_witness :
  let cfg := pci_words example_config in
  let is_uncore := fun v => (cap_id v =? 0x23) && (entryID v =? 1) in
  let collect := fun bar (_ : VSEC) numa st => (bar, numa) :: st in
  (exists os l, chain cfg example_device 0x100 os l /\ NoDup os /\ (length l <= 1024)%nat /\
     forall fuel, (length l < fuel)%nat ->
       yields (@walk (static_machine cfg) _ is_uncore (fun bar v numa st => mret (collect bar v numa st)) fuel
                 example_device 0x100 [])
         (Some (foldl (hand_on cfg example_device is_uncore collect) [] l))) \/
  (~ exists os l, chain cfg example_device 0x100 os l) /\
  (forall fuel, yields (@walk (static_machine cfg) _ is_uncore (fun bar v numa st => mret (collect bar v numa st)) fuel
                          example_device 0x100 []) None).
Proof. by apply walk_ends_or_cycles. Defined.

(** The walk over that device finds the table. *)
Lemma example_device_has_table :
  (@walk (static_machine (pci_words example_config)) (list (Z * Z)) (fun v => (cap_id v =? 0x23) && (entryID v =? 1))
     (fun bar _ numa st => mret ((bar, numa) :: st)) capability_fuel example_device 0x100 [] (HW [] ∅ ∅)).2 =
  Ok (Some [(0xFE000000, 1)]).
Proof. vm_compute. done. Qed.

(** The protection of the walk against endless lists only covers a capability that names
    itself: two that name each other keep it running. *)
Lemma two_capabilities_cycle fuel :
  yields (@walk (static_machine (pci_words [(0x100, 0x1401000B); (0x140, 0x1001000B)])) unit (fun _ => false)
    (fun _ _ _ _ => mret tt) fuel example_device 0x100 tt) None.
Proof.
  pose proof (walk_yields (pci_words [(0x100, 0x1401000B); (0x140, 0x1001000B)]) (fun _ => false)
    (fun _ _ _ _ => mret tt) (fun _ _ _ _ => tt) (fun _ _ _ _ => yields_ret tt) fuel example_device 0x100 tt) as H.
  by rewrite (search_enough _ _ fuel) in H.
Qed.

(** * Tables in memory *)

Section Tables.
Context (cfg : port -> option Z) (mem : Z -> Z).
Context (Hmem : forall h o, cfg (MmioPort32 h o) = Some (mem (h + o))).

(** The words from an address on. *)
Definition words_at (k : nat) (addr : Z) : list Z := map (fun j => mem (addr + 4 * j)) (seqZ 0 (Z.of_nat k)).

Definition readable (k : nat) (addr : Z) : Prop := Forall (fun w => w <> 2 ^ 32 - 1) (words_at k addr).

Lemma words_at_S k addr : words_at (S k) addr = mem addr :: words_at k (addr + 4).
Proof.
  unfold words_at. rewrite Nat2Z.inj_succ, seqZ_cons by lia. cbn [map]. rewrite Z.add_0_r, Z.pred_succ. f_equal.
  change (Z.succ 0) with (1 + 0). rewrite <- fmap_add_seqZ. unfold fmap.
  induction (seqZ 0 (Z.of_nat k)) as [|j l IH]; [done|]. cbn. rewrite IH. do 2 f_equal. lia.
Qed.

Lemma copy_words_yields k mapBegin i check : check = false \/ readable k i ->
  yields (@copy_words (static_machine cfg) k mapBegin i check) (words_at k i, true).
Proof.
  revert i. induction k as [|k IH]; intros i H; [done|]. rewrite words_at_S. simpl.
  eapply yields_bind; [apply yields_read|]. rewrite Hmem. replace (mapBegin + (i - mapBegin)) with i by lia. cbn [default id].
  assert (Hr : check && (mem i =? 2 ^ 32 - 1) = false /\ (check = false \/ readable k (i + 4))).
  { destruct H as [->|H]; [by split; [|left]|]. unfold readable in H. rewrite words_at_S in H. apply Forall_cons in H as [Hi H].
    split; [|by right]. rewrite (proj2 (Z.eqb_neq _ _)) by done. apply andb_false_r. }
  destruct Hr as [-> Hr]. eapply yields_bind; [by apply IH|]. apply yields_ret.
Qed.

Lemma mmio_memcpy_yields (k : nat) addr check : 0 <= addr -> addr + 4 * Z.of_nat k < 2 ^ 64 -> check = false \/ readable k addr ->
  yields (@mmio_memcpy (static_machine cfg) addr (4 * Z.of_nat k) check) (words_at k addr, true).
Proof.
  intros Ha Hb H. unfold mmio_memcpy. rewrite wrapN_small by (unfold fits; lia).
  assert (E : (addr + 4 * Z.of_nat k - addr + 3) / 4 = Z.of_nat k) by (symmetry; apply (Z.div_unique _ _ _ 3); lia).
  rewrite E, Nat2Z.id. by apply copy_words_yields.
Qed.
End Tables.

(** * The discovery of the units *)

Section DiscoveryTable.
Context (cfg : port -> option Z) (mem : Z -> Z).
Context (Hmem : forall h o, cfg (MmioPort32 h o) = Some (mem (h + o))).

(** An entry of the table: three words of 64 bits. *)
Definition entry (addr : Z) : list Z := words64 (words_at mem 6 addr).

Definition used (table : list Z) : bool :=
  negb ((default 0 (table !! 0%nat) =? 0) && (default 0 (table !! 1%nat) =? 0)).

(** The entries of the units, in order, and the boxes they describe. *)
Definition unit_entry (bar step u : Z) : list Z := entry (bar + (u + 1) * step).

Definition boxes_of (bar step : Z) (us : list Z) : list BoxPMU :=
  map box_of (filter (fun t => used t = true) (map (unit_entry bar step) us)).

Definition table_readable (bar : Z) : Prop :=
  let g := global_of (entry bar) in
  forall u, 0 <= u <= maxUnits g -> readable mem 6 (bar + u * (stride g * 8)).

Lemma push_boxes_lookup m l t :
  default [] (foldl (fun m b => push_box b m) m l !! t) = default [] (m !! t) ++ filter (fun b => boxType b = t) l.
Proof.
  revert m. induction l as [|b l IH]; intros m; simpl; [by rewrite app_nil_r|]. rewrite IH. unfold push_box.
  destruct (decide (boxType b = t)) as [<-|Ht].
  - rewrite lookup_insert_eq, filter_cons_True by done. cbn [default id]. by rewrite <- app_assoc.
  - by rewrite lookup_insert_ne, filter_cons_False.
Qed.

Lemma read_units_yields k u bar step m : 0 <= bar -> 0 <= u -> 0 <= step -> bar + (u + Z.of_nat k) * step + 24 < 2 ^ 64 ->
  (forall v, u <= v < u + Z.of_nat k -> readable mem 6 (bar + (v + 1) * step)) ->
  yields (@read_units (static_machine cfg) k u bar step m)
    (Some (foldl (fun m b => push_box b m) m (boxes_of bar step (seqZ u (Z.of_nat k))))).
Proof.
  revert u m. induction k as [|k IH]; intros u m Hb Hu Hs Hbound Hr; [done|].
  rewrite Nat2Z.inj_succ, seqZ_cons by lia. rewrite Z.pred_succ. simpl.
  assert (Ha : 0 <= bar + (u + 1) * step < 2 ^ 64 - 24) by nia.
  rewrite wrapN_small by (unfold fits; lia).
  eapply yields_bind; [apply (mmio_memcpy_yields cfg mem Hmem 6); [lia|lia|right; apply Hr; lia]|]. cbn [fst snd].
  fold (entry (bar + (u + 1) * step)). unfold boxes_of. cbn [map]. fold (unit_entry bar step u).
  destruct (_ && _) eqn:E.
  - rewrite filter_cons_False by (unfold used; by rewrite E). apply IH; [lia..|nia|]. intros v Hv. apply Hr. lia.
  - rewrite filter_cons_True by (unfold used; by rewrite E). apply IH; [lia..|nia|]. intros v Hv. apply Hr. lia.
Qed.
End DiscoveryTable.

Lemma push_at_other {A} n (x : A) v s : s <> n -> default [] (push_at n x v !! s) = default [] (v !! s).
Proof.
  intros H. unfold push_at. rewrite list_lookup_alter_ne by congruence. destruct (decide (s < length v)%nat) as [Hs|Hs].
  - by rewrite lookup_app_l.
  - rewrite lookup_app_r, (lookup_ge_None_2 v s) by lia.
    destruct (replicate _ _ !! _) as [y|] eqn:E; [|done]. by apply lookup_replicate in E as [-> _].
Qed.

Lemma push_at_self {A} n (x : A) v : push_at n x v !! n = Some (default [] (v !! n) ++ [x]).
Proof.
  unfold push_at. rewrite list_lookup_alter, decide_True by done. destruct (decide (n < length v)%nat) as [Hs|Hs].
  - rewrite lookup_app_l by done. destruct (lookup_lt_is_Some_2 v n Hs) as [y Hy]. by rewrite Hy.
  - rewrite lookup_app_r, lookup_replicate_2 by lia. by rewrite (lookup_ge_None_2 v n) by lia.
Qed.

Lemma global_bounds t : 0 <= maxUnits (global_of t) < 2 ^ 10 /\ 0 <= stride (global_of t) < 2 ^ 8.
Proof. split; apply field_fits; lia. Qed.

(** The socket of a table. *)
Definition socket_of (mapNUMANodeToSocket : Z -> Z) (NUMANode : Z) : nat :=
  if 0 <=? NUMANode then Z.to_nat (Z.max 0 (mapNUMANodeToSocket NUMANode)) else 0%nat.

Definition table_boxes (mem : Z -> Z) (bar : Z) : list BoxPMU :=
  let g := global_of (entry mem bar) in boxes_of mem bar (stride g * 8) (seqZ 0 (maxUnits g)).

Lemma boxes_push d m bt socket s die globals :
  boxes (MkDiscovery (push_at socket m (boxPMUs d)) globals) bt s die =
  if decide ((s, die) = (socket, getNumDies d socket)) then default [] (m !! bt) else boxes d bt s die.
Proof.
  unfold boxes, getNumDies. cbn [boxPMUs].
  pose proof (push_at_self socket m (boxPMUs d)) as Hself. pose proof (push_at_other socket m (boxPMUs d) s) as Hother.
  destruct (decide (s = socket)) as [->|Hs].
  - rewrite Hself. destruct (decide _) as [[= ->]|Hd].
    + rewrite lookup_app_r, Nat.sub_diag by done. done.
    + destruct (boxPMUs d !! socket) as [dies|]; cbn [default] in *.
      * destruct (decide (die < length dies)%nat); [by rewrite lookup_app_l|].
        rewrite !lookup_ge_None_2; [done|lia|rewrite length_app; simpl]. assert (die <> length dies) by (intros ->; by apply Hd). lia.
      * destruct die; [done|]. by destruct die.
  - rewrite decide_False by congruence. specialize (Hother Hs).
    destruct (push_at _ _ _ !! s), (boxPMUs d !! s); cbn in Hother; by subst.
Qed.

(** C31. Reading a table whose words can all be read adds one die to its socket: the boxes of
    each type on it are the boxes of that type among the used entries of the table, in
    their order, and nothing else changes. *)
Theorem discovery_reads_table cfg mem nodes bar v NUMANode d :
  (forall h o, cfg (MmioPort32 h o) = Some (mem (h + o))) ->
  0 <= bar < 2 ^ 64 - 2 ^ 22 -> table_readable mem bar ->
  let socket := socket_of nodes NUMANode in
  exists d',
    yields (@processTables (static_machine cfg) nodes bar v NUMANode d) d' /\
    getNumDies d' socket = S (getNumDies d socket) /\
    (forall bt, boxes d' bt socket (getNumDies d socket) = filter (fun b => boxType b = bt) (table_boxes mem bar)) /\
    (forall bt s die, (s, die) <> (socket, getNumDies d socket) -> boxes d' bt s die = boxes d bt s die).
Proof.
  intros Hmem Hbar Hread socket. pose proof (global_bounds (entry mem bar)) as [Hmax Hstride].
  set (m := foldl (fun m b => push_box b m) ∅ (table_boxes mem bar)).
  exists (MkDiscovery (push_at socket m (boxPMUs d)) (push_at socket (global_of (entry mem bar)) (globalPMUs d))).
  unfold table_readable in Hread. split_and!.
  - unfold processTables. eapply yields_bind.
    { apply (mmio_memcpy_yields cfg mem Hmem 6); [lia|lia|]. right.
      specialize (Hread 0). rewrite Z.mul_0_l, Z.add_0_r in Hread. apply Hread. lia. }
    cbn [fst snd]. fold (entry mem bar). cbv zeta. eapply yields_bind.
    { apply (read_units_yields cfg mem Hmem); [lia..|nia|]. intros u Hu. apply Hread. lia. }
    rewrite Z2Nat.id by lia. apply yields_ret.
  - unfold getNumDies. cbn [boxPMUs]. rewrite push_at_self. cbn. rewrite length_app. simpl. lia.
  - intros bt. rewrite boxes_push, decide_True by done. subst m. by rewrite push_boxes_lookup.
  - intros bt s die Hne. by rewrite boxes_push, decide_False.
Qed.

(** A machine with a table at 0x10000: two places of 32 bytes, one with a PCU box of four
    48-bit MSR registers at 0x2FC0 and one left empty. *)
Definition example_memory (addr : Z) : Z :=
  if addr =? 0x10000 then 0x20400
  else if addr =? 0x10020 then 0x08300204
  else if addr =? 0x10028 then 0x2FC0
  else if addr =? 0x10030 then 0x00000004
  else 0.

Definition example_table_machine : port -> option Z := fun p =>
  match p with MmioPort32 h o => Some (example_memory (h + o)) | _ => None end.

Lemma discovery_reads_table_witness :
  exists d',
    yields (@processTables (static_machine example_table_machine) (fun n => n) 0x10000 (0, 0) 1 (MkDiscovery [] [])) d' /\
    getNumDies d' 1 = 1%nat /\
    (forall bt, boxes d' bt 1 0 = filter (fun b => boxType b = bt) (table_boxes example_memory 0x10000)) /\
    (forall bt s die, (s, die) <> (1%nat, 0%nat) -> boxes d' bt s die = boxes (MkDiscovery [] []) bt s die).
Proof.
  apply (discovery_reads_table example_table_machine example_memory (fun n => n) 0x10000 (0, 0) 1 (MkDiscovery [] [])).
  - done.
  - lia.
  - unfold table_readable. cbv zeta. intros u Hu. set (g := global_of _) in *.
    assert (Hg1 : maxUnits g = 2) by (vm_compute; done). assert (Hg2 : stride g = 4) by (vm_compute; done).
    rewrite Hg1 in Hu. rewrite Hg2. assert (E : u = 0 \/ u = 1 \/ u = 2) by lia.
    destruct E as [->|[->| ->]]; repeat constructor; vm_compute; discriminate.
Defined.

Lemma example_table_box : table_boxes example_memory 0x10000 = [MkBoxPMU 4 2 48 8 0 0 0x2FC0 4 0].
Proof. vm_compute. done. Qed.

(** * The registers of the discovered units *)

(** What a table entry always satisfies. *)
Definition box_ok (b : BoxPMU) : Prop :=
  fits 8 (numRegs b) /\ fits 8 (ctrlOffset b) /\ fits 8 (ctrOffset b) /\ fits 64 (boxCtrlAddr b).

Lemma box_of_ok t0 t1 t2 : fits 64 t1 -> box_ok (box_of [t0; t1; t2]).
Proof. intros H. split_and!; [apply field_fits; lia..|done]. Qed.

(** The registers of a box in a row, [step] apart, behind the box control. *)
Lemma row_apart a o step c c' : fits 64 a -> fits 8 o -> 0 < step <= 8 -> fits 8 c -> fits 8 c' -> c <> c' ->
  u64 (a + o + c * step) <> u64 (a + o + c' * step).
Proof.
  unfold fits, wrapN. intros Ha Ho Hs Hc Hc' Hne E. apply Hne. clear Hne.
  assert (H1 : 0 <= c * step < 2 ^ 11) by nia. assert (H2 : 0 <= c' * step < 2 ^ 11) by nia.
  assert (c * step = c' * step); [|nia].
  generalize dependent (c * step). generalize dependent (c' * step).
  change (2 ^ 64) with 18446744073709551616 in *. change (2 ^ 11) with 2048 in *. change (2 ^ 8) with 256 in *.
  intros y Hy x E Hx. Z.div_mod_to_equations. lia.
Qed.

Lemma row_behind a o step c : fits 64 a -> fits 8 o -> 0 < o -> 0 <= step <= 8 -> fits 8 c -> u64 (a + o + c * step) <> a.
Proof.
  unfold fits, wrapN. intros Ha Ho Hp Hs Hc E.
  assert (H1 : 0 <= c * step < 2 ^ 11) by nia. generalize dependent (c * step).
  change (2 ^ 64) with 18446744073709551616 in *. change (2 ^ 11) with 2048 in *. change (2 ^ 8) with 256 in *.
  intros x E Hx. Z.div_mod_to_equations. lia.
Qed.

Lemma NoDup_map_distinct {A B} (f : A -> B) l : NoDup l -> (forall x y, x ∈ l -> y ∈ l -> f x = f y -> x = y) -> NoDup (map f l).
Proof.
  induction l as [|x l IH]; intros Hnd Hf; [constructor|]. apply NoDup_cons in Hnd as [Hx Hnd]. cbn. apply NoDup_cons. split.
  - intros (y & Hy & Hin)%list_elem_of_fmap. rewrite (Hf x y) in Hx; [done|left|by right|done].
  - apply IH; [done|]. intros y z Hy Hz. apply Hf; by right.
Qed.

Section DiscoveredUnits.
Context (d : UncorePMUDiscovery) (socket : nat) (handle : SafeMsrHandle) (bt fltr : Z).

(** The boxes describe MSRs that lie behind the box control. *)
Context (Hboxes : forall die b, b ∈ boxes d bt socket die ->
  box_ok b /\ bitWidth b <= 64 /\ 0 < ctrlOffset b).

Lemma discovered_unit pmu : pmu ∈ addPMUsFromDiscovery d socket handle bt fltr ->
  exists die pos b, b ∈ boxes d bt socket die /\ box_at d bt socket die pos = Some b /\ accessType b = access_MSR /\
    4 <= numRegs b /\ pmu = msr_unit d socket handle bt fltr die pos.
Proof.
  unfold addPMUsFromDiscovery. rewrite list_elem_of_omap. intros ([die pos] & _ & E). cbn [fst snd] in E.
  unfold getBoxAccessType, getBoxNumRegs in E. destruct (box_at d bt socket die pos) as [b|] eqn:Hb; [|done].
  destruct (Z.eqb_spec (accessType b) access_MSR) as [Ha|]; [|done].
  destruct (Z.leb_spec 4 (numRegs b)); [|done]. injection E as <-. exists die, pos, b. split_and!; try done.
  unfold box_at in Hb. destruct (validBox _ _ _ _ _); [|done]. by eapply list_elem_of_lookup_2.
Qed.

Lemma row_step b : accessType b = access_MSR -> bitWidth b <= 64 ->
  0 < (if bt =? SPR_IMC_BOX_TYPE then 4 else registerStep b) <= 8 /\ 0 < registerStep b <= 8.
Proof.
  intros Ha Hw. unfold registerStep. rewrite Ha, (proj2 (Z.leb_le _ _)) by done. by destruct (bt =? _).
Qed.

Lemma discovered_registers pmu : pmu ∈ addPMUsFromDiscovery d socket handle bt fltr ->
  exists die b, b ∈ boxes d bt socket die /\ controlled_by (MSRRegister handle (boxCtrlAddr b)) pmu /\
    size pmu = 4%nat /\ NoDup (counterControl pmu) /\ NoDup (counterValue pmu).
Proof.
  intros (die & pos & b & Hin & Hb & Ha & Hn & ->)%discovered_unit. exists die, b.
  destruct (Hboxes die b Hin) as ((Hr & Hc & Hv & Haddr) & Hw & Hpos). destruct (row_step b Ha Hw) as [Hs1 Hs2].
  assert (Hctl : forall c, c ∈ [0; 1; 2; 3] -> fits 8 c /\ (c <? numRegs b) = true).
  { intros c Hc'. rewrite !elem_of_cons, elem_of_nil in Hc'. split; [unfold fits; lia|apply Z.ltb_lt; lia]. }
  split; [done|]. unfold msr_unit, controlled_by, size. cbn [unitControl counterControl counterValue].
  unfold getBoxCtlAddr. rewrite Hb. split_and!; [done| |done| |].
  - intros r Hr'. change (map ?f _) with (f <$> [0; 1; 2; 3]) in Hr'. apply list_elem_of_fmap in Hr' as (c & [= ->] & Hcin).
    destruct (Hctl c Hcin) as [Hc8 Hlt]. unfold getBoxCtlAddrOf. rewrite Hb, Hlt. intros [= E].
    by apply row_behind in E; [|done..|lia|done].
  - apply NoDup_map_distinct; [by apply (bool_decide_unpack _)|]. intros x y Hx Hy [= E].
    destruct (Hctl x Hx) as [Hx8 Hxl], (Hctl y Hy) as [Hy8 Hyl]. unfold getBoxCtlAddrOf in E. rewrite Hb, Hxl, Hyl in E.
    destruct (decide (x = y)); [done|]. by apply row_apart in E.
  - apply NoDup_map_distinct; [by apply (bool_decide_unpack _)|]. intros x y Hx Hy [= E].
    destruct (Hctl x Hx) as [Hx8 Hxl], (Hctl y Hy) as [Hy8 Hyl]. unfold getBoxCtrAddr in E. rewrite Hb, Hxl, Hyl in E.
    destruct (decide (x = y)); [done|]. by apply row_apart in E.
Qed.

End DiscoveredUnits.

(** C32. A unit that [addPMUsFromDiscovery] makes of the tables of the hardware, which are
    units of MSRs, is programmed by the jobs of [PcmUncore] with their discipline: its four selectors and its four counters are different
    registers, none of them its control, and programming it is a list of writes in which
    filters and selectors are written to the frozen unit and the counters are reset before
    the release. The units in PCI configuration space (PCIe generation 5), which are not
    frozen first, are not made by this function. *)
Theorem discovered_units_programmed {machine : Machine} pf d socket handle bt fltr j events pmu :
  (forall die b, b ∈ boxes d bt socket die -> box_ok b /\ bitWidth b <= 64 /\ 0 < ctrlOffset b) ->
  fltr <> 0 -> fltr < 2 ^ 31 -> pmu ∈ addPMUsFromDiscovery d socket handle bt fltr ->
  job_ready pf j pmu -> (4 <= length events)%nat ->
  exists die b log, b ∈ boxes d bt socket die /\
    run_job pf j events pmu ≡ (run_writes log ;; job_finish j pmu ;; mret (set_model (up_model pf) pmu)) /\
    (forall w, w ∈ job_filters (up_model pf) j pmu -> w ∈ log) /\
    frozen_writes (up_model pf) (MSRRegister handle (boxCtrlAddr b)) None log /\
    released_after_reset (up_model pf) (MSRRegister handle (boxCtrlAddr b)) log /\
    NoDup (counterControl pmu) /\ NoDup (counterValue pmu).
Proof.
  intros Hboxes Hf0 Hf1 Hpmu Hj Hn.
  destruct (discovered_registers d socket handle bt fltr Hboxes pmu Hpmu) as (die & b & Hin & Hu & Hsize & Hnd1 & Hnd2).
  set (u := MSRRegister handle (boxCtrlAddr b)) in *.
  assert (Hap : filters_apart u pmu).
  { destruct (discovered_unit d socket handle bt fltr pmu Hpmu) as (die' & pos & b' & Hin' & Hb & _ & _ & ->).
    assert (Eu : Some u = Some (MSRRegister handle (boxCtrlAddr b'))).
    { rewrite <- (proj1 Hu). unfold msr_unit. cbn [unitControl]. unfold getBoxCtlAddr. by rewrite Hb. }
    split; [|done]. rewrite Eu. unfold msr_unit. cbn [filter0]. unfold getBoxCtlAddr. rewrite Hb.
    destruct (Z.ltb_spec fltr 0); [done|]. intros [= E]. destruct (Hboxes die' b' Hin') as ((_ & _ & _ & Ha) & _).
    unfold fits, wrapN in *. change (2 ^ 64) with 18446744073709551616 in *. change (2 ^ 31) with 2147483648 in *.
    Z.div_mod_to_equations. lia. }
  assert (Hc : cache_ok (up_model pf) pmu).
  { destruct (discovered_unit d socket handle bt fltr pmu Hpmu) as (? & ? & ? & _ & _ & _ & _ & ->). by left. }
  exists die, b, (job_log pf j u pmu events). split_and!; [done| | | | |done|done].
  - apply run_job_writes; [done|apply Hu|done|]. rewrite Hsize. lia.
  - intros w Hw. unfold job_log, programming_log. rewrite !elem_of_app. auto.
  - eapply programming_disciplined; [by eapply job_extra_values|done|by apply job_filters_other].
  - eapply programming_disciplined; [by eapply job_extra_values|done|by apply job_filters_other].
Qed.

(** The PCU of the example table. *)
Definition example_discovery : UncorePMUDiscovery :=
  MkDiscovery [[{[ 4 := [MkBoxPMU 4 2 48 8 0 0 0x2FC0 4 0] ]}]] [[]].

Lemma discovered_units_programmed_witness :
  exists die b log, b ∈ boxes example_discovery SPR_PCU_BOX_TYPE 0 die /\
    @run_job memory_machine (PcmPlatform SPR 4 1 true) (PcuJob 0x1F) [1; 2; 3; 4]
      (msr_unit example_discovery 0 (Some 3) SPR_PCU_BOX_TYPE 0xE 0 0) ≡
      (@run_writes memory_machine log ;;
       @job_finish memory_machine (PcuJob 0x1F) (msr_unit example_discovery 0 (Some 3) SPR_PCU_BOX_TYPE 0xE 0 0) ;;
       mret (set_model SPR (msr_unit example_discovery 0 (Some 3) SPR_PCU_BOX_TYPE 0xE 0 0))) /\
    (forall w, w ∈ job_filters SPR (PcuJob 0x1F) (msr_unit example_discovery 0 (Some 3) SPR_PCU_BOX_TYPE 0xE 0 0) -> w ∈ log) /\
    frozen_writes SPR (MSRRegister (Some 3) (boxCtrlAddr b)) None log /\
    released_after_reset SPR (MSRRegister (Some 3) (boxCtrlAddr b)) log /\
    NoDup (counterControl (msr_unit example_discovery 0 (Some 3) SPR_PCU_BOX_TYPE 0xE 0 0)) /\
    NoDup (counterValue (msr_unit example_discovery 0 (Some 3) SPR_PCU_BOX_TYPE 0xE 0 0)).
Proof.
  apply (@discovered_units_programmed memory_machine (PcmPlatform SPR 4 1 true) example_discovery 0 (Some 3)
           SPR_PCU_BOX_TYPE 0xE (PcuJob 0x1F) [1; 2; 3; 4]).
  - intros die b Hb%list_elem_of_In. destruct die as [|die]; vm_compute in Hb; [|by destruct die].
    destruct Hb as [<-|[]]. unfold box_ok, fits. cbn. lia.
  - done.
  - lia.
  - by left.
  - done.
  - simpl. lia.
Defined.

(** * TPMI *)

Section TPMISpec.
Context (cfg : port -> option Z) (mem : Z -> Z).
Context (Hmem : forall h o, cfg (MmioPort32 h o) = Some (mem (h + o))).

(** The entries of a feature that answer, and their addresses. *)
Definition entry_address (base pfs p : Z) : Z :=
  base + get_field PFS "CapOffset" pfs * 1024 + p * (get_field PFS "EntrySize" pfs * 4).

Definition answering (base pfs : Z) (ps : list Z) : list Z :=
  filter (fun a => mem a <> TPMIInvalidValue) (map (entry_address base pfs) ps).

Lemma forM_yields {A} (f : A -> M unit) l : (forall x, x ∈ l -> yields (f x) tt) -> yields (forM l f) tt.
Proof.
  induction l as [|x l IH]; intros H; [done|]. simpl. eapply yields_bind; [apply H; left|]. apply IH. intros y Hy. apply H. by right.
Qed.

Lemma pfs_bounds pfs : 0 <= get_field PFS "CapOffset" pfs < 2 ^ 16 /\ 0 <= get_field PFS "EntrySize" pfs < 2 ^ 16 /\
  0 <= get_field PFS "NumEntries" pfs < 2 ^ 8.
Proof. split_and!; apply field_fits; lia. Qed.

Lemma read_entries_yields k p base pfs m : 0 <= base < 2 ^ 64 - 2 ^ 28 -> 0 <= p -> p + Z.of_nat k <= 256 ->
  yields (@read_entries (static_machine cfg) k p base pfs m)
    (foldl (fun m a => push_address (get_field PFS "TPMI_ID" pfs) a m) m (answering base pfs (seqZ p (Z.of_nat k)))).
Proof.
  pose proof (pfs_bounds pfs) as (Hc & Hs & _). intros Hb. revert p m. induction k as [|k IH]; intros p m Hp Hk; [done|].
  rewrite Nat2Z.inj_succ, seqZ_cons by lia. rewrite Z.pred_succ. cbn [read_entries]. cbv zeta.
  set (size := get_field PFS "EntrySize" pfs * 4) in *.
  assert (Ha : 0 <= entry_address base pfs p < 2 ^ 64 - 2 ^ 19) by (unfold entry_address; fold size; nia).
  change (base + _ * 1024 + p * size) with (entry_address base pfs p). change (Z.succ p) with (p + 1).
  rewrite (wrapN_small 64 (entry_address _ _ _)) by (unfold fits; lia).
  eapply yields_bind; [apply (mmio_memcpy_yields cfg mem Hmem 1); [lia|lia|by left]|].
  change (default 0 ((words_at mem 1 (entry_address base pfs p), true).1 !! 0%nat)) with (mem (entry_address base pfs p + 4 * 0)).
  rewrite Z.mul_0_r, Z.add_0_r. unfold answering. cbn [map]. destruct (Z.eqb_spec (mem (entry_address base pfs p)) TPMIInvalidValue) as [E|E].
  - rewrite filter_cons_False by (by intros []). apply IH; lia.
  - rewrite filter_cons_True by done. eapply yields_bind; [|apply IH; lia].
    apply forM_yields. intros i Hi%elem_of_seqZ. eapply yields_bind; [|apply yields_ret].
    assert (Hi8 : 0 <= i * 8 <= size + 7) by (clear -Hi; Z.div_mod_to_equations; lia).
    assert (Hsz : size < 2 ^ 18) by (subst size; lia).
    rewrite wrapN_small by (unfold fits; lia). apply (mmio_memcpy_yields cfg mem Hmem 2); [lia|lia|by left].
Qed.

End TPMISpec.

Section TPMISpec2.
Context (cfg : port -> option Z) (mem : Z -> Z).
Context (Hmem : forall h o, cfg (MmioPort32 h o) = Some (mem (h + o))).

(** The addresses of a feature, over all its tables. *)
Definition feature_addresses (base : Z) (tables : list Z) (id : Z) : list Z :=
  concat (map (fun pfs => answering mem base pfs (seqZ 0 (get_field PFS "NumEntries" pfs)))
            (filter (fun pfs => get_field PFS "TPMI_ID" pfs = id) tables)).

Lemma push_addresses_lookup l id m i :
  default [] (foldl (fun m a => push_address id a m) m l !! i) =
  default [] (m !! i) ++ (if decide (id = i) then l else []).
Proof.
  revert m. induction l as [|a l IH]; intros m; simpl; [by destruct (decide _); rewrite app_nil_r|].
  rewrite IH. unfold push_address. destruct (decide (id = i)) as [<-|Hi].
  - rewrite lookup_insert_eq. cbn. by rewrite <- app_assoc.
  - by rewrite lookup_insert_ne.
Qed.

Lemma read_tables_yields tables base m : 0 <= base < 2 ^ 64 - 2 ^ 28 ->
  exists m', yields (@read_tables (static_machine cfg) tables base m) m' /\
    forall id, default [] (m' !! id) = default [] (m !! id) ++ feature_addresses base tables id.
Proof.
  intros Hb. revert m. induction tables as [|pfs tables IH]; intros m.
  - exists m. split; [done|]. intros id. by rewrite app_nil_r.
  - destruct (pfs_bounds pfs) as (_ & _ & Hn).
    destruct (IH (foldl (fun m a => push_address (get_field PFS "TPMI_ID" pfs) a m) m
      (answering mem base pfs (seqZ 0 (get_field PFS "NumEntries" pfs))))) as (m' & Hm' & Hl).
    exists m'. split.
    + cbn [read_tables]. eapply yields_bind; [|exact Hm'].
      pose proof (read_entries_yields cfg mem Hmem (Z.to_nat (get_field PFS "NumEntries" pfs)) 0 base pfs m) as H.
      rewrite Z2Nat.id in H by lia. apply H; lia.
    + intros id. rewrite Hl, push_addresses_lookup. unfold feature_addresses.
      destruct (decide (get_field PFS "TPMI_ID" pfs = id)) as [E|E].
      * rewrite filter_cons_True by done. cbn [map concat]. by rewrite app_assoc.
      * rewrite filter_cons_False by done. by rewrite app_nil_r.
Qed.
End TPMISpec2.

Lemma lookup_map {A B} (f : A -> B) l i : map f l !! i = option_map f (l !! i).
Proof. apply list_lookup_fmap. Qed.

Lemma words64_length n l : length l = (2 * n)%nat -> length (words64 l) = n.
Proof.
  revert l. induction n as [|n IH]; intros [|lo [|hi l]] H; try (simpl in H; lia); [done|].
  cbn. rewrite IH; [done|]. simpl in H. lia.
Qed.

(** The page and the offset of an address. *)
Lemma page_of_address a : fits 64 a ->
  exists page, roundDownTo4K a = 4096 * page /\ 0 <= a - roundDownTo4K a < 4096.
Proof.
  intros Ha. destruct (round4K_spec a Ha) as [E _]. exists (a / 4096). rewrite E. split; [done|].
  Z.div_mod_to_equations. lia.
Qed.

(** When the tables of a TPMI instance can be read, the instance lists under every
    identifier the addresses of the entries that answer, table by table; and reading entry
    [i] of a handle for a register reads the 64-bit register at the [i]-th address plus the
    offset of the register, through a mapping of its page. *)
Theorem tpmi_registers cfg mem bar v NUMANode instances id offset i addr :
  (forall h o, cfg (MmioPort32 h o) = Some (mem (h + o))) ->
  let base := u64 (bar + 8 * Address v) in
  let n := Z.to_nat (NumEntries v) in
  base < 2 ^ 64 - 2 ^ 28 -> readable mem (2 * n) base ->
  feature_addresses mem base (words64 (words_at mem (2 * n) base)) id !! i = Some addr ->
  exists m,
    yields (@process_pfs (static_machine cfg) bar v NUMANode instances) (instances ++ [MkPFSInstance m NUMANode]) /\
    default [] (m !! id) = feature_addresses mem base (words64 (words_at mem (2 * n) base)) id /\
    exists t page delta,
      make_TPMIHandle (instances ++ [MkPFSInstance m NUMANode]) (length instances) id offset = Ok t /\
      TPMI_getNumEntries t = length (feature_addresses mem base (words64 (words_at mem (2 * n) base)) id) /\
      4096 * page + delta = u64 (addr + offset) /\ 0 <= delta < 4096 /\
      forall s, @TPMI_read64 (static_machine cfg) t i s =
        @reg_read (static_machine cfg) (MMIORegister64 (4096 * page) delta) s.
Proof.
  intros Hmem base n Hbase Hread Hi.
  assert (Hbase0 : 0 <= base) by apply (wrapN_fits 64 (bar + 8 * Address v) ltac:(lia)).
  assert (Hn : 0 <= NumEntries v < 2 ^ 8) by (apply field_fits; lia).
  assert (Hlen : length (words_at mem (2 * n) base) = (2 * n)%nat) by (unfold words_at; rewrite length_map, length_seqZ; lia).
  assert (Hcopied : copied n (words_at mem (2 * n) base) = words64 (words_at mem (2 * n) base)).
  { unfold copied. rewrite Hlen, Nat.sub_diag, app_nil_r. apply take_ge. clear -Hlen.
    by rewrite (words64_length _ _ Hlen). }
  destruct (read_tables_yields cfg mem Hmem (words64 (words_at mem (2 * n) base)) base ∅) as (m & Hm & Hl); [lia|].
  exists m. split_and!.
  - unfold process_pfs. fold base. eapply yields_bind.
    { pose proof (mmio_memcpy_yields cfg mem Hmem (2 * n) base true) as H.
      replace (4 * Z.of_nat (2 * n)) with (NumEntries v * 8) in H by lia. apply H; [lia|lia|by right]. }
    cbn [fst]. fold n. rewrite Hcopied. eapply yields_bind; [exact Hm|]. apply yields_ret.
  - by rewrite Hl.
  - assert (Hid : default [] (m !! id) = feature_addresses mem base (words64 (words_at mem (2 * n) base)) id).
    { by rewrite Hl, lookup_empty. }
    clear Hl.
    destruct (page_of_address (u64 (addr + offset)) ltac:(by apply wrapN_fits)) as (page & Hp & Hd).
    eexists _, page, (u64 (addr + offset) - roundDownTo4K (u64 (addr + offset))). split_and!.
    + unfold make_TPMIHandle. rewrite lookup_app_r, Nat.sub_diag by done. cbn [lookup list_lookup pfsMap]. reflexivity.
    + unfold TPMI_getNumEntries. rewrite length_map. by rewrite Hid.
    + lia.
    + lia.
    + lia.
    + intros s. unfold TPMI_read64, TPMIHandle. rewrite lookup_map, Hid, Hi. cbn. by rewrite <- Hp.
Qed.

(** A machine with one TPMI table at 0x20000: feature 2, two entries of four words at 0x20400,
    of which the second does not answer. *)
Definition example_tpmi_memory (addr : Z) : Z :=
  if addr =? 0x20000 then 0x00040202 else if addr =? 0x20004 then 0x1
  else if addr =? 0x20410 then 2 ^ 32 - 1 else 0x77.

Definition example_tpmi_machine : port -> option Z := fun p =>
  match p with MmioPort32 h o => Some (example_tpmi_memory (h + o)) | _ => None end.

Definition example_tpmi_header : VSEC := (0, 0x10000 + Z.shiftl 0x1000 35).

Lemma tpmi_registers_witness :
  exists m,
    yields (@process_pfs (static_machine example_tpmi_machine) 0x18000 example_tpmi_header 0 [])
      [MkPFSInstance m 0] /\
    default [] (m !! 2) = [0x20400] /\
    exists t page delta,
      make_TPMIHandle [MkPFSInstance m 0] 0 2 0x18 = Ok t /\ TPMI_getNumEntries t = 1%nat /\
      4096 * page + delta = 0x20418 /\ 0 <= delta < 4096 /\
      forall s, @TPMI_read64 (static_machine example_tpmi_machine) t 0 s =
        @reg_read (static_machine example_tpmi_machine) (MMIORegister64 (4096 * page) delta) s.
Proof.
  apply (tpmi_registers example_tpmi_machine example_tpmi_memory 0x18000 example_tpmi_header 0 [] 2 0x18 0 0x20400).
  - done.
  - vm_compute. reflexivity.
  - apply (bool_decide_unpack _). vm_compute. exact I.
  - vm_compute. reflexivity.
Defined.
