(* ===== verification/ServerMetrics.v ===== *)
(** The metrics of the uncore that the tools choose ([programServerUncoreLatencyMetrics],
    [programServerUncoreMemoryMetrics] and [programServerUncorePowerMetrics] of
    [src/src/cpucounters.cpp]).

    [PCM::Success] is the answer except where a function returns before it does anything. *)

From S2P Require Import Prelude WidthExtender CpuModels Capabilities Registers UncorePMU ServerUncore CounterState CorePMU PcmUncore.
Local Open Scope Z_scope.

(** * Tables *)

(** [DDRConfig] *)
Definition latency_DDRConfig (cpu_family_model : Z) (enable_pmm : bool) : list Z :=
  if enable_pmm then
    [PMON_CTL_EVENT 0xe0 + PMON_CTL_UMASK 1; PMON_CTL_EVENT 0xe3 + PMON_CTL_UMASK 0;
     PMON_CTL_EVENT 0xe4 + PMON_CTL_UMASK 1; PMON_CTL_EVENT 0xe7 + PMON_CTL_UMASK 0]
  else if (ICX =? cpu_family_model) || (SPR =? cpu_family_model) || (EMR =? cpu_family_model) then
    [PMON_CTL_EVENT 0x80 + PMON_CTL_UMASK 1; PMON_CTL_EVENT 0x10 + PMON_CTL_UMASK 1;
     PMON_CTL_EVENT 0x81 + PMON_CTL_UMASK 0; PMON_CTL_EVENT 0x20 + PMON_CTL_UMASK 0]
  else
    [PMON_CTL_EVENT 0x80 + PMON_CTL_UMASK 0; PMON_CTL_EVENT 0x10 + PMON_CTL_UMASK 0;
     PMON_CTL_EVENT 0x81 + PMON_CTL_UMASK 0; PMON_CTL_EVENT 0x20 + PMON_CTL_UMASK 0].

Definition PCU_MSR_PMON_CTL_EVENT (x : Z) : Z := Z.shiftl x 0.
Definition PCU_MSR_PMON_CTL_OCC_SEL (x : Z) : Z := Z.shiftl x 14.
Definition PCU_MSR_PMON_CTL_EDGE_DET : Z := Z.shiftl 1 18.
Definition PCU_MSR_PMON_CTL_EXTRA_SEL : Z := Z.shiftl 1 21.
Definition PCU_MSR_PMON_BOX_FILTER_BAND_0 (x : Z) : Z := Z.shiftl x 0.
Definition PCU_MSR_PMON_BOX_FILTER_BAND_1 (x : Z) : Z := Z.shiftl x 8.
Definition PCU_MSR_PMON_BOX_FILTER_BAND_2 (x : Z) : Z := Z.shiftl x 16.

(** [PCUCntConf]: the clock ticks, which profiles 5 to 8 may replace, and three events. *)
Definition power_PCUCntConf (cpu_family_model pcu_profile : Z) : list Z :=
  let E := PCU_MSR_PMON_CTL_EVENT in
  let edge := PCU_MSR_PMON_CTL_EDGE_DET in
  let clock := switch cpu_family_model [([SPR; EMR; SRF; GNR; GNR_D], E 1)] (E 0) in
  let none := [clock; 0; 0; 0] in
  switch pcu_profile
    [([0], [clock; E 0xB; E 0xC; E 0xD]);
     ([1], switch cpu_family_model [([SPR; EMR; SRF; GNR; GNR_D], [clock; E 0x35; E 0x36; E 0x37])]
             [clock; E 0x80 + PCU_MSR_PMON_CTL_OCC_SEL 1; E 0x80 + PCU_MSR_PMON_CTL_OCC_SEL 2; E 0x80 + PCU_MSR_PMON_CTL_OCC_SEL 3]);
     ([2], [clock; E 0x09; E 0x0A; E 0x04]);
     ([3], [clock; E 0x04; E 0x05; E 0x07]);
     ([4], [clock; E 0x06; E 0x05; E 0x07]);
     ([5], switch cpu_family_model
             [([JAKETOWN], [clock; E 0 + PCU_MSR_PMON_CTL_EXTRA_SEL + edge; E 0 + PCU_MSR_PMON_CTL_EXTRA_SEL; 0]);
              ([IVYTOWN], [clock; E 0x60 + edge; E 0x60; 0]);
              ([HASWELLX], [E 0x79; E 0x74 + edge; E 0x74; E 0x79 + edge]);
              ([BDX_DE; BDX; SKX; ICX; SNOWRIDGE; SPR; EMR; SRF; GNR; GNR_D], [clock; E 0x74 + edge; E 0x74; 0])] none);
     ([6], switch cpu_family_model
             [([IVYTOWN], [clock; 0; E 0x2B + edge; E 0x2D + edge]);
              ([HASWELLX; BDX_DE; BDX; SKX; ICX; SNOWRIDGE; SPR; EMR; SRF; GNR; GNR_D],
               [E 0x4E; E 0x4E + edge; E 0x2B + edge; E 0x2D + edge])] none);
     ([7], switch cpu_family_model [([HASWELLX; BDX_DE; BDX], [E 0x7E; E 0x7D; E 0x7A; E 0x7B])] none);
     ([8], switch cpu_family_model [([HASWELLX; BDX_DE; BDX], [E 0x7C; 0; 0; 0])] none)]
    none.

(** The filter of the PCU; [None] for a null pointer. *)
Definition band_filter (freq_bands : option (Z * Z * Z)) : Z :=
  let '(b0, b1, b2) := default (10, 20, 30) freq_bands in
  u64 (PCU_MSR_PMON_BOX_FILTER_BAND_0 b0 + PCU_MSR_PMON_BOX_FILTER_BAND_1 b1 + PCU_MSR_PMON_BOX_FILTER_BAND_2 b2).

(** * Programming *)

(** [PCM::HBMmemoryTrafficMetricsAvailable] *)
Definition hbm_available (st : pcm_uncore) : bool :=
  match serverUncorePMUs st with s :: _ => HBMAvailable s | [] => false end.

(** [for (auto& u : serverUncorePMUs) ...] *)
Definition on_servers {machine : Machine} (f : ServerUncorePMUs -> M ServerUncorePMUs) (st : pcm_uncore) : M pcm_uncore :=
  l ← mapM_ (serverUncorePMUs st) f; mret (set_servers l st).

Section Programs.
Context {machine : Machine} (pf : pcm_platform).

Let m : Z := up_model pf.
Let pmm : bool := PMMTrafficMetricsAvailable m (up_stepping pf).

Definition programServerUncoreLatencyMetrics (enable_pmm : bool) (st : pcm_uncore) : M (pcm_uncore * ErrorCode) :=
  st ← (if DDRLatencyMetricsAvailable m then on_servers (programIMC m (latency_DDRConfig m enable_pmm)) st else mret st);
  mret (st, Success).

(** [MSR.empty() || serverUncorePMUs.empty()] *)
Definition no_server_access (st : pcm_uncore) : bool := negb (up_has_MSR pf) || (length (serverUncorePMUs st) =? 0)%nat.

Definition PCM_programServerUncoreMemoryMetrics (metrics : ServerUncoreMemoryMetrics) (rankA rankB : Z) (st : pcm_uncore)
  : M (pcm_uncore * ErrorCode) :=
  if no_server_access st then mret (st, MSRAccessDenied)
  else
    st ← on_servers (programServerUncoreMemoryMetrics m pmm (hbm_available st) metrics rankA rankB) st;
    st ← programCXLCM pf st;
    st ← programCXLDP pf st;
    mret (st, Success).

Definition programServerUncorePowerMetrics (mc_profile pcu_profile : Z) (freq_bands : option (Z * Z * Z)) (st : pcm_uncore)
  : M (pcm_uncore * ErrorCode) :=
  if no_server_access st then mret (st, MSRAccessDenied)
  else
    st ← on_servers (program_power_metrics m mc_profile) st;
    st ← programPCU pf (power_PCUCntConf m pcu_profile) (band_filter freq_bands) st;
    mret (st, Success).

End Programs.
