(* ===== verification/UncoreInit.v ===== *)
(** Creation of the units that [PCM] keeps itself: [initUncorePMUsDirect] of
    [src/src/cpucounters.cpp], with the register addresses of [src/src/types.h].

    The places of the accelerators (found by a scan of the PCI buses) and the number of
    boxes of a socket are arguments; the QAT units, whose registers are files of the driver,
    are left out. The order of the kinds of units in a die is that of their creation. *)

From S2P Require Import Prelude Bits WidthExtender CpuModels Capabilities Registers UncorePMU ServerUncore PcmUncore Discovery.
Local Open Scope Z_scope.

(** * Addresses ([types.h]) *)

Definition UCLK_FIXED_CTR_ADDR : Z := 0x704.
Definition UCLK_FIXED_CTL_ADDR : Z := 0x703.
Definition UBOX_MSR_PMON_CTL0_ADDR : Z := 0x705.
Definition UBOX_MSR_PMON_CTL1_ADDR : Z := 0x706.
Definition UBOX_MSR_PMON_CTR0_ADDR : Z := 0x709.
Definition UBOX_MSR_PMON_CTR1_ADDR : Z := 0x70a.
Definition SPR_UCLK_FIXED_CTR_ADDR : Z := 0x2FDF.
Definition SPR_UCLK_FIXED_CTL_ADDR : Z := 0x2FDE.
Definition SPR_UBOX_MSR_PMON_BOX_CTL_ADDR : Z := 0x2FD0.
Definition SPR_UBOX_MSR_PMON_CTL0_ADDR : Z := 0x2FD2.
Definition SPR_UBOX_MSR_PMON_CTL1_ADDR : Z := 0x2FD3.
Definition SPR_UBOX_MSR_PMON_CTR0_ADDR : Z := 0x2FD8.
Definition SPR_UBOX_MSR_PMON_CTR1_ADDR : Z := 0x2FD9.
Definition BHS_UCLK_FIXED_CTR_ADDR : Z := 0x3FFD.
Definition BHS_UCLK_FIXED_CTL_ADDR : Z := 0x3FFE.
Definition BHS_UBOX_MSR_PMON_BOX_CTL_ADDR : Z := 0x3FF0.
Definition BHS_UBOX_MSR_PMON_CTL0_ADDR : Z := 0x3FF2.
Definition BHS_UBOX_MSR_PMON_CTL1_ADDR : Z := 0x3FF3.
Definition BHS_UBOX_MSR_PMON_CTR0_ADDR : Z := 0x3FF8.
Definition BHS_UBOX_MSR_PMON_CTR1_ADDR : Z := 0x3FF9.
Definition GRR_UCLK_FIXED_CTR_ADDR : Z := 0x3F5F.
Definition GRR_UCLK_FIXED_CTL_ADDR : Z := 0x3F5E.
Definition GRR_UBOX_MSR_PMON_BOX_CTL_ADDR : Z := 0x3F50.
Definition GRR_UBOX_MSR_PMON_CTL0_ADDR : Z := 0x3F52.
Definition GRR_UBOX_MSR_PMON_CTL1_ADDR : Z := 0x3F53.
Definition GRR_UBOX_MSR_PMON_CTR0_ADDR : Z := 0x3F58.
Definition GRR_UBOX_MSR_PMON_CTR1_ADDR : Z := 0x3F59.
Definition JKTIVT_UCLK_FIXED_CTR_ADDR : Z := 0x0C09.
Definition JKTIVT_UCLK_FIXED_CTL_ADDR : Z := 0x0C08.
Definition JKTIVT_UBOX_MSR_PMON_CTL0_ADDR : Z := 0x0C10.
Definition JKTIVT_UBOX_MSR_PMON_CTL1_ADDR : Z := 0x0C11.
Definition JKTIVT_UBOX_MSR_PMON_CTR0_ADDR : Z := 0x0C16.
Definition JKTIVT_UBOX_MSR_PMON_CTR1_ADDR : Z := 0x0C17.
Definition JKTIVT_PCU_MSR_PMON_CTR3_ADDR : Z := 0x0C39.
Definition JKTIVT_PCU_MSR_PMON_CTR2_ADDR : Z := 0x0C38.
Definition JKTIVT_PCU_MSR_PMON_CTR1_ADDR : Z := 0x0C37.
Definition JKTIVT_PCU_MSR_PMON_CTR0_ADDR : Z := 0x0C36.
Definition JKTIVT_PCU_MSR_PMON_BOX_FILTER_ADDR : Z := 0x0C34.
Definition JKTIVT_PCU_MSR_PMON_CTL3_ADDR : Z := 0x0C33.
Definition JKTIVT_PCU_MSR_PMON_CTL2_ADDR : Z := 0x0C32.
Definition JKTIVT_PCU_MSR_PMON_CTL1_ADDR : Z := 0x0C31.
Definition JKTIVT_PCU_MSR_PMON_CTL0_ADDR : Z := 0x0C30.
Definition JKTIVT_PCU_MSR_PMON_BOX_CTL_ADDR : Z := 0x0C24.
Definition HSX_PCU_MSR_PMON_CTR3_ADDR : Z := 0x071A.
Definition HSX_PCU_MSR_PMON_CTR2_ADDR : Z := 0x0719.
Definition HSX_PCU_MSR_PMON_CTR1_ADDR : Z := 0x0718.
Definition HSX_PCU_MSR_PMON_CTR0_ADDR : Z := 0x0717.
Definition HSX_PCU_MSR_PMON_BOX_FILTER_ADDR : Z := 0x0715.
Definition HSX_PCU_MSR_PMON_CTL3_ADDR : Z := 0x0714.
Definition HSX_PCU_MSR_PMON_CTL2_ADDR : Z := 0x0713.
Definition HSX_PCU_MSR_PMON_CTL1_ADDR : Z := 0x0712.
Definition HSX_PCU_MSR_PMON_CTL0_ADDR : Z := 0x0711.
Definition HSX_PCU_MSR_PMON_BOX_CTL_ADDR : Z := 0x0710.
Definition GRR_M2IOSF_IIO_UNIT_CTL : Z := 0x2900.
Definition GRR_M2IOSF_IIO_CTR0 : Z := 0x2908.
Definition GRR_M2IOSF_IIO_CTL0 : Z := 0x2902.
Definition GRR_M2IOSF_REG_STEP : Z := 0x10.
Definition GRR_M2IOSF_NUM : Z := 3.
Definition SPR_M2IOSF_IIO_UNIT_CTL : Z := 0x3000.
Definition SPR_M2IOSF_IIO_CTR0 : Z := 0x3008.
Definition SPR_M2IOSF_IIO_CTL0 : Z := 0x3002.
Definition SPR_M2IOSF_REG_STEP : Z := 0x10.
Definition SPR_M2IOSF_NUM : Z := 12.
Definition BHS_M2IOSF_IIO_UNIT_CTL : Z := 0x2900.
Definition BHS_M2IOSF_IIO_CTR0 : Z := 0x2908.
Definition BHS_M2IOSF_IIO_CTL0 : Z := 0x2902.
Definition BHS_M2IOSF_REG_STEP : Z := 0x10.
Definition BHS_M2IOSF_NUM : Z := 16.
Definition SKX_IIO_CBDMA_UNIT_CTL : Z := 0x0A40.
Definition SKX_IIO_CBDMA_CTR0 : Z := 0x0A41.
Definition SKX_IIO_CBDMA_CTL0 : Z := 0x0A48.
Definition SKX_IIO_PM_REG_STEP : Z := 0x0020.
Definition SNR_IIO_CBDMA_UNIT_CTL : Z := 0x1E00.
Definition SNR_IIO_CBDMA_CTR0 : Z := 0x1E01.
Definition SNR_IIO_CBDMA_CTL0 : Z := 0x1E08.
Definition SNR_IIO_PM_REG_STEP : Z := 0x0010.
Definition ICX_IIO_CTL_REG_OFFSET : Z := 0x0008.
Definition ICX_IIO_CTR_REG_OFFSET : Z := 0x0001.
Definition ICX_IIO_UNIT_CTL : list Z := [0x0A50; 0x0A70; 0x0A90; 0x0AE0; 0x0B00; 0x0B20].
Definition GRR_IRP_UNIT_CTL : list Z := [0x2A00; 0x2A10; 0x2A20].
Definition GRR_IRP_CTL_REG_OFFSET : Z := 0x0002.
Definition GRR_IRP_CTR_REG_OFFSET : Z := 0x0008.
Definition BHS_IRP_UNIT_CTL : list Z := [0x2A00; 0x2A10; 0x2A20; 0x2A30; 0x2A40; 0x2A50; 0x2A60; 0x2A70; 0x2A80; 0x2A90; 0x2AA0; 0x2AB0; 0x2AC0; 0x2AD0; 0x2AE0; 0x2AF0].
Definition BHS_IRP_CTL_REG_OFFSET : Z := 0x0002.
Definition BHS_IRP_CTR_REG_OFFSET : Z := 0x0008.
Definition SPR_IRP_UNIT_CTL : list Z := [0x3400; 0x3410; 0x3420; 0x3430; 0x3440; 0x3450; 0x3460; 0x3470; 0x3480; 0x3490; 0x34A0; 0x34B0].
Definition SPR_IRP_CTL_REG_OFFSET : Z := 0x0002.
Definition SPR_IRP_CTR_REG_OFFSET : Z := 0x0008.
Definition ICX_IRP_UNIT_CTL : list Z := [0x0A4A; 0x0A6A; 0x0A8A; 0x0ADA; 0x0AFA; 0x0B1A].
Definition ICX_IRP_CTL_REG_OFFSET : Z := 0x0003.
Definition ICX_IRP_CTR_REG_OFFSET : Z := 0x0001.
Definition SNR_IRP_UNIT_CTL : list Z := [0x1EA0; 0x1EB0; 0x1EC0; 0x1ED0; 0x1EE0].
Definition SNR_IRP_CTL_REG_OFFSET : Z := 0x0008.
Definition SNR_IRP_CTR_REG_OFFSET : Z := 0x0001.
Definition SKX_IRP_UNIT_CTL : list Z := [0x0A58; 0x0A78; 0x0A98; 0x0AB8; 0x0AD8; 0x0AF8].
Definition SKX_IRP_CTL_REG_OFFSET : Z := 0x0003.
Definition SKX_IRP_CTR_REG_OFFSET : Z := 0x0001.
Definition BHS_PCIE_GEN5_PCI_PMON_BOX_CTL_ADDR : Z := 0x620.
Definition BHS_PCIE_GEN5_PCI_PMON_CTL0_ADDR : Z := 0x630.
Definition BHS_PCIE_GEN5_PCI_PMON_CTR0_ADDR : Z := 0x650.
Definition SPR_IDX_ACCEL_PMON_BASE_OFFSET : Z := 0x68.
Definition SPR_IDX_ACCEL_PMON_BASE_MASK : Z := 0xFFFF.
Definition SPR_IDX_ACCEL_PMON_BASE_RATIO : Z := 0x100.
Definition SPR_IDX_PMON_RESET_CTL_OFFSET : Z := 0x10.
Definition SPR_IDX_PMON_FREEZE_CTL_OFFSET : Z := 0x20.
Definition MSR_UNCORE_PMON_GLOBAL_CTL : Z := 0x700.
Definition IVT_MSR_UNCORE_PMON_GLOBAL_CTL : Z := 0x0C00.
Definition SPR_MSR_UNCORE_PMON_GLOBAL_CTL : Z := 0x2FF0.

(** * Kinds of units *)

Section Units.
Context (m : Z) (handle : SafeMsrHandle).

Definition msr (addr : Z) : HWRegisterPtr := Some (MSRRegister handle addr).

(** A unit of four counters. *)
Definition msr4 (ctl : Z) (ctls ctrs : list Z) (fltr : HWRegisterPtr) : UncorePMU :=
  MkUncorePMU 0 (msr ctl) (map msr ctls) (map msr ctrs) None None fltr None.

(** A U-box: two counters and the fixed counter of the uncore clock. *)
Definition ubox (ctl : HWRegisterPtr) (ctls ctrs : list Z) (fixed_ctl fixed_ctr : Z) : UncorePMU :=
  MkUncorePMU 0 ctl (map msr ctls) (map msr ctrs) (msr fixed_ctl) (msr fixed_ctr) None None.

(** The U-box of the model; [None] where the die is not made for it. *)
Definition init_ubox : option UncorePMU :=
  if is_one_of m [IVYTOWN; JAKETOWN] then
    Some (ubox None [JKTIVT_UBOX_MSR_PMON_CTL0_ADDR; JKTIVT_UBOX_MSR_PMON_CTL1_ADDR]
            [JKTIVT_UBOX_MSR_PMON_CTR0_ADDR; JKTIVT_UBOX_MSR_PMON_CTR1_ADDR]
            JKTIVT_UCLK_FIXED_CTL_ADDR JKTIVT_UCLK_FIXED_CTR_ADDR)
  else if is_one_of m [SPR; EMR] then
    Some (ubox (msr SPR_UBOX_MSR_PMON_BOX_CTL_ADDR) [SPR_UBOX_MSR_PMON_CTL0_ADDR; SPR_UBOX_MSR_PMON_CTL1_ADDR]
            [SPR_UBOX_MSR_PMON_CTR0_ADDR; SPR_UBOX_MSR_PMON_CTR1_ADDR]
            SPR_UCLK_FIXED_CTL_ADDR SPR_UCLK_FIXED_CTR_ADDR)
  else if is_one_of m [SRF; GNR; GNR_D] then
    Some (ubox (msr BHS_UBOX_MSR_PMON_BOX_CTL_ADDR) [BHS_UBOX_MSR_PMON_CTL0_ADDR; BHS_UBOX_MSR_PMON_CTL1_ADDR]
            [BHS_UBOX_MSR_PMON_CTR0_ADDR; BHS_UBOX_MSR_PMON_CTR1_ADDR]
            BHS_UCLK_FIXED_CTL_ADDR BHS_UCLK_FIXED_CTR_ADDR)
  else if m =? GRR then
    Some (ubox (msr GRR_UBOX_MSR_PMON_BOX_CTL_ADDR) [GRR_UBOX_MSR_PMON_CTL0_ADDR; GRR_UBOX_MSR_PMON_CTL1_ADDR]
            [GRR_UBOX_MSR_PMON_CTR0_ADDR; GRR_UBOX_MSR_PMON_CTR1_ADDR]
            GRR_UCLK_FIXED_CTL_ADDR GRR_UCLK_FIXED_CTR_ADDR)
  else if isServerCPU m && hasPCICFGUncore m then
    Some (ubox None [UBOX_MSR_PMON_CTL0_ADDR; UBOX_MSR_PMON_CTL1_ADDR]
            [UBOX_MSR_PMON_CTR0_ADDR; UBOX_MSR_PMON_CTR1_ADDR] UCLK_FIXED_CTL_ADDR UCLK_FIXED_CTR_ADDR)
  else None.

(** The power control units, from the tables of the hardware on the newer models. *)
Definition init_pcus (discovery : option UncorePMUDiscovery) (s : nat) : option (list UncorePMU) :=
  if is_one_of m [IVYTOWN; JAKETOWN] then
    Some [msr4 JKTIVT_PCU_MSR_PMON_BOX_CTL_ADDR
            [JKTIVT_PCU_MSR_PMON_CTL0_ADDR; JKTIVT_PCU_MSR_PMON_CTL1_ADDR; JKTIVT_PCU_MSR_PMON_CTL2_ADDR; JKTIVT_PCU_MSR_PMON_CTL3_ADDR]
            [JKTIVT_PCU_MSR_PMON_CTR0_ADDR; JKTIVT_PCU_MSR_PMON_CTR1_ADDR; JKTIVT_PCU_MSR_PMON_CTR2_ADDR; JKTIVT_PCU_MSR_PMON_CTR3_ADDR]
            (msr JKTIVT_PCU_MSR_PMON_BOX_FILTER_ADDR)]
  else if is_one_of m [BDX_DE; BDX; KNL; HASWELLX; SKX; ICX] then
    Some [msr4 HSX_PCU_MSR_PMON_BOX_CTL_ADDR
            [HSX_PCU_MSR_PMON_CTL0_ADDR; HSX_PCU_MSR_PMON_CTL1_ADDR; HSX_PCU_MSR_PMON_CTL2_ADDR; HSX_PCU_MSR_PMON_CTL3_ADDR]
            [HSX_PCU_MSR_PMON_CTR0_ADDR; HSX_PCU_MSR_PMON_CTR1_ADDR; HSX_PCU_MSR_PMON_CTR2_ADDR; HSX_PCU_MSR_PMON_CTR3_ADDR]
            (msr HSX_PCU_MSR_PMON_BOX_FILTER_ADDR)]
  else if is_one_of m [SPR; EMR; GNR; GNR_D; SRF] then
    Some (match discovery with Some d => addPMUsFromDiscovery d s handle SPR_PCU_BOX_TYPE 0xE | None => [] end)
  else None.

Definition init_mdfs (discovery : option UncorePMUDiscovery) (s : nat) : option (list UncorePMU) :=
  let add bt := Some (match discovery with Some d => addPMUsFromDiscovery d s handle bt (-1) | None => [] end) in
  if is_one_of m [SPR; EMR] then add SPR_MDF_BOX_TYPE
  else if is_one_of m [GNR; GNR_D; SRF] then add BHS_MDF_BOX_TYPE
  else None.

(** [addPCICFGPMUsFallback]: every device with one of the identifiers, on socket 0. *)
Definition fallback_unit (h : Z) : UncorePMU :=
  let reg addr := Some (PCICFGRegister64 h addr) in
  MkUncorePMU 0 (reg BHS_PCIE_GEN5_PCI_PMON_BOX_CTL_ADDR)
    (map (fun r => reg (BHS_PCIE_GEN5_PCI_PMON_CTL0_ADDR + 8 * r)) [0; 1; 2; 3])
    (map (fun r => reg (BHS_PCIE_GEN5_PCI_PMON_CTR0_ADDR + 8 * r)) [0; 1; 2; 3]) None None None None.

Definition addPCICFGPMUsFallback (devices : list pci_device) (s : nat) (DIDs : list Z) : list UncorePMU :=
  if (s =? 0)%nat then
    concat (map (fun d => omap (fun did => if dev_id d =? did then Some (fallback_unit (dev_handle d)) else None) DIDs) devices)
  else [].

(** The ports of PCI Express generation 5: the units of 16 and of 8 lanes; [no_discovery] is
    the environment variable PCM_NO_PCIE_GEN5_DISCOVERY. *)
Definition init_pcie (open_pci : Z -> Z -> Z -> option Z) (devices : list pci_device) (no_discovery : bool)
    (discovery : option UncorePMUDiscovery) (s : nat) : option (list UncorePMU * list UncorePMU) :=
  if is_one_of m [GNR; GNR_D; GRR; SRF] then
    if no_discovery then
      Some (addPCICFGPMUsFallback devices s [0x0DB0; 0x0DB1; 0x0DB2; 0x0DB3],
            addPCICFGPMUsFallback devices s [0x0DB6; 0x0DB7; 0x0DB8; 0x0DB9])
    else
      let add bt := match discovery with Some d => getPCICFGPMUsFromDiscovery d s open_pci bt | None => [] end in
      Some (add BHS_PCIE_GEN5x16_TYPE, add BHS_PCIE_GEN5x8_TYPE)
  else None.

(** I/O stacks whose registers are a step apart. *)
Definition iio_stacks (unit_ctl ctl0 ctr0 step count : Z) : list (Z * UncorePMU) :=
  map (fun unit =>
    let off := step * unit in
    (unit, msr4 (unit_ctl + off) [ctl0 + off; ctl0 + off + 1; ctl0 + off + 2; ctl0 + off + 3]
             [ctr0 + off; ctr0 + off + 1; ctr0 + off + 2; ctr0 + off + 3] None)) (seqZ 0 count).

Definition init_iio : list (Z * UncorePMU) :=
  if m =? SKX then iio_stacks SKX_IIO_CBDMA_UNIT_CTL SKX_IIO_CBDMA_CTL0 SKX_IIO_CBDMA_CTR0 SKX_IIO_PM_REG_STEP 6
  else if m =? ICX then
    imap (fun unit a =>
      (Z.of_nat unit, msr4 a (map (fun c => a + ICX_IIO_CTL_REG_OFFSET + c) [0; 1; 2; 3])
                        (map (fun c => a + ICX_IIO_CTR_REG_OFFSET + c) [0; 1; 2; 3]) None)) ICX_IIO_UNIT_CTL
  else if m =? SNOWRIDGE then
    iio_stacks SNR_IIO_CBDMA_UNIT_CTL SNR_IIO_CBDMA_CTL0 SNR_IIO_CBDMA_CTR0 SNR_IIO_PM_REG_STEP 5
  else if is_one_of m [SPR; EMR] then
    iio_stacks SPR_M2IOSF_IIO_UNIT_CTL SPR_M2IOSF_IIO_CTL0 SPR_M2IOSF_IIO_CTR0 SPR_M2IOSF_REG_STEP SPR_M2IOSF_NUM
  else if is_one_of m [GNR; GNR_D; SRF] then
    iio_stacks BHS_M2IOSF_IIO_UNIT_CTL BHS_M2IOSF_IIO_CTL0 BHS_M2IOSF_IIO_CTR0 BHS_M2IOSF_REG_STEP BHS_M2IOSF_NUM
  else if m =? GRR then
    iio_stacks GRR_M2IOSF_IIO_UNIT_CTL GRR_M2IOSF_IIO_CTL0 GRR_M2IOSF_IIO_CTR0 GRR_M2IOSF_REG_STEP GRR_M2IOSF_NUM
  else [].

(** The table of the IRP units of the model, and the offsets of their registers. *)
Definition irp_table : option (list Z * Z * Z) :=
  if m =? SKX then Some (SKX_IRP_UNIT_CTL, SKX_IRP_CTL_REG_OFFSET, SKX_IRP_CTR_REG_OFFSET)
  else if m =? ICX then Some (ICX_IRP_UNIT_CTL, ICX_IRP_CTL_REG_OFFSET, ICX_IRP_CTR_REG_OFFSET)
  else if m =? SNOWRIDGE then Some (SNR_IRP_UNIT_CTL, SNR_IRP_CTL_REG_OFFSET, SNR_IRP_CTR_REG_OFFSET)
  else if is_one_of m [SPR; EMR] then Some (SPR_IRP_UNIT_CTL, SPR_IRP_CTL_REG_OFFSET, SPR_IRP_CTR_REG_OFFSET)
  else if is_one_of m [GNR; GNR_D; SRF] then Some (BHS_IRP_UNIT_CTL, BHS_IRP_CTL_REG_OFFSET, BHS_IRP_CTR_REG_OFFSET)
  else if m =? GRR then Some (GRR_IRP_UNIT_CTL, GRR_IRP_CTL_REG_OFFSET, GRR_IRP_CTR_REG_OFFSET)
  else None.

(** Two counters; the other two places of the unit are null pointers. *)
Definition init_irp : list (Z * UncorePMU) :=
  match irp_table with
  | Some (table, ctl, ctr) =>
      imap (fun unit a =>
        (Z.of_nat unit, MkUncorePMU 0 (msr a) [msr (a + ctl + 0); msr (a + ctl + 1); None; None]
                          [msr (a + ctr + 0); msr (a + ctr + 1); None; None] None None None None)) table
  | None => []
  end.

End Units.

(** * The whole initialisation *)

Record init_env := InitEnv {
  ie_model : Z;
  ie_handles : list SafeMsrHandle;      (** of the reference core of each socket *)
  ie_boxes : nat;                       (** [getMaxNumOfCBoxesInternal()] *)
  ie_discovery : option UncorePMUDiscovery;
  ie_open_pci : Z -> Z -> Z -> option Z;
  ie_devices : list pci_device;
  ie_no_gen5_discovery : bool;
  ie_iaa : list (Z * Z * Z);            (** base address, NUMA node and socket of each device *)
  ie_dsa : list (Z * Z * Z)
}.

Section Init.
Context {machine : Machine} (env : init_env).

Let m : Z := ie_model env.

Definition globalFreezeUncoreCountersInternal (freeze : Z) : M unit :=
  forM (ie_handles env) (fun handle =>
    if is_one_of m [SPR; EMR] then msr_write handle SPR_MSR_UNCORE_PMON_GLOBAL_CTL freeze
    else if is_one_of m [SKX; ICX] then msr_write handle MSR_UNCORE_PMON_GLOBAL_CTL (u64 (Z.shiftl (u64 (1 - freeze)) 61))
    else if is_one_of m [HASWELLX; BDX] then msr_write handle MSR_UNCORE_PMON_GLOBAL_CTL (u64 (Z.shiftl (u64 (1 - freeze)) 29))
    else if m =? IVYTOWN then msr_write handle IVT_MSR_UNCORE_PMON_GLOBAL_CTL (u64 (Z.shiftl (u64 (1 - freeze)) 29))
    else mret tt).

Definition globalFreezeUncoreCounters : M unit := globalFreezeUncoreCountersInternal 1.
Definition globalUnfreezeUncoreCounters : M unit := globalFreezeUncoreCountersInternal 0.

(** The units of a socket but the CBo: no die when nothing resizes the vector of dies. *)
Definition init_die (s : nat) (handle : SafeMsrHandle) : list die_pmus :=
  let entry id (l : list UncorePMU) : die_pmus := [(id, map Some l)] in
  let parts : list (option die_pmus) :=
    [option_map (fun u => entry UBOX_PMU_ID [u]) (init_ubox m handle);
     option_map (entry PCU_PMU_ID) (init_pcus m handle (ie_discovery env) s);
     option_map (entry MDF_PMU_ID) (init_mdfs m handle (ie_discovery env) s);
     option_map (fun p => entry PCIE_GEN5x16_PMU_ID p.1 ++ entry PCIE_GEN5x8_PMU_ID p.2)
       (init_pcie m (ie_open_pci env) (ie_devices env) (ie_no_gen5_discovery env) (ie_discovery env) s)] in
  match omap id parts with [] => [] | l => [concat l] end.

(** Adds the CBo units of [initCbos] to the first die. *)
Definition add_cbos (dies cbos : list die_pmus) : list die_pmus :=
  match dies, cbos with
  | d :: dies, c :: _ => (d ++ c) :: dies
  | [], c :: _ => [c]
  | _, [] => dies
  end.

(** [createIDXPMU]; its general control register exists only in memory. *)
Definition createIDXPMU (info : Z * Z * Z) : M IDX_PMU :=
  let '(addr, numaNode, socketId) := info in
  let alignedAddr := Z.land addr (Z.lnot 4095) in
  v ← reg_read (MMIORegister64 alignedAddr SPR_IDX_ACCEL_PMON_BASE_OFFSET);
  let pmon_offset := Z.land v SPR_IDX_ACCEL_PMON_BASE_MASK * SPR_IDX_ACCEL_PMON_BASE_RATIO in
  let row64 (offset step : Z) := map (fun r => Some (MMIORegister64 alignedAddr (offset + r * step + pmon_offset))) (seqZ 0 8) in
  let row32 (offset step : Z) := map (fun r => Some (MMIORegister32 alignedAddr (offset + r * step + pmon_offset))) (seqZ 0 8) in
  mret (MkIDX false numaNode socketId
    (Some (MMIORegister32 alignedAddr (SPR_IDX_PMON_RESET_CTL_OFFSET + pmon_offset)))
    (Some (MMIORegister32 alignedAddr (SPR_IDX_PMON_FREEZE_CTL_OFFSET + pmon_offset))) None
    (row64 0x100 8) (row64 0x200 8) (row32 0x300 32) (row32 0x310 32) (row32 0x304 32) (row32 0x308 32) (row32 0x30C 32)).

Definition initUncorePMUsDirect : M pcm_uncore :=
  forM (ie_handles env) (fun _ => globalUnfreezeUncoreCounters) ;;
  let dies := imap (init_die) (ie_handles env) in
  idx ← (if supportIDXAccelDev (PcmPlatform m 0 0 true) then
           iaa ← mapM_ (ie_iaa env) createIDXPMU;
           dsa ← mapM_ (ie_dsa env) createIDXPMU;
           mret [iaa; dsa; []]
         else mret []);
  cbos ← initCbos m (ie_handles env) (ie_boxes env);
  mret (PcmUncore [] (zip_with add_cbos dies cbos) (map (init_iio m) (ie_handles env)) (map (init_irp m) (ie_handles env)) idx
          (match ie_discovery env with
           | Some d => map (fun s => makeCXLPMUs d s m) (seq 0 (length (ie_handles env)))
           | None => map (fun _ => []) (ie_handles env)
           end)).

End Init.

(** * The addresses do not collide *)

(** The MSRs of the registers of a unit. *)
Definition pointers (pmu : UncorePMU) : list HWRegisterPtr :=
  [unitControl pmu; fixedCounterControl pmu; fixedCounterValue pmu; filter0 pmu; filter1 pmu] ++
  counterControl pmu ++ counterValue pmu.

Definition msr_address (p : HWRegisterPtr) : option Z :=
  match p with Some (MSRRegister _ a) => Some a | _ => None end.

Definition msr_addresses (pmu : UncorePMU) : list Z := omap msr_address (pointers pmu).

(** The units at fixed addresses. *)
Definition fixed_units (m : Z) (handle : SafeMsrHandle) : list UncorePMU :=
  omap id [init_ubox m handle] ++ default [] (init_pcus m handle None 0) ++
  map snd (init_iio m handle) ++ map snd (init_irp m handle).

Definition fixed_addresses (m : Z) : list Z := concat (map msr_addresses (fixed_units m None)).

(** As many boxes as any of the processors has, at most those with an address. *)
Definition boxes_in_use (m : Z) : Z := Z.min 128 (cbo_bound m).

Definition cbo_registers : list cbo_register :=
  [BoxCtl; Filter0; Filter1; Ctl 0; Ctl 1; Ctl 2; Ctl 3; Ctr 0; Ctr 1; Ctr 2; Ctr 3].

(** The addresses of the boxes of most models are a row: its start and the size of a box. *)
Definition cbo_row (m : Z) : option (Z * Z) :=
  if is_one_of m [JAKETOWN; IVYTOWN] then Some (0xD00, 0x20)
  else if is_one_of m [HASWELLX; BDX_DE; BDX; SKX] then Some (0xE00, 0x10)
  else if m =? KNL then Some (0xE00, 0xC)
  else if is_one_of m [SPR; EMR; GNR; GNR_D; GRR; SRF] then Some (0x2000, 0x10)
  else None.

Lemma cbo_row_spec m base step c r : cbo_row m = Some (base, step) -> 0 <= c < 128 -> cbo_register_ok r ->
  cbo_address m c r <> 0 -> base <= cbo_address m c r < base + step * 128.
Proof.
  unfold cbo_row. intros H Hc Hr Hne.
  assert (Hlin : exists off, linear_family m base step off /\ 0 <= step).
  { destruct (is_one_of m [JAKETOWN; IVYTOWN]) eqn:E1; [injection H as <- <-; eexists; split; [apply linear_JKT, is_one_of_spec; exact E1|lia]|].
    destruct (is_one_of m [HASWELLX; BDX_DE; BDX; SKX]) eqn:E2; [injection H as <- <-; eexists; split; [apply linear_HSX, is_one_of_spec; exact E2|lia]|].
    destruct (Z.eqb_spec m KNL) as [->|]; [injection H as <- <-; eexists; split; [apply linear_KNL|lia]|].
    destruct (is_one_of m [SPR; EMR; GNR; GNR_D; GRR; SRF]) eqn:E3; [injection H as <- <-; eexists; split; [apply linear_SPR, is_one_of_spec; exact E3|lia]|done]. }
  destruct Hlin as (off & Hlin & Hstep). destruct (Hlin c r) as [-> Hoff]; [lia|done|done|]. nia.
Qed.

Fixpoint distinct (l : list Z) : bool :=
  match l with [] => true | a :: l => negb (existsb (Z.eqb a) l) && distinct l end.

Lemma distinct_spec l : distinct l = true -> NoDup l.
Proof.
  induction l as [|a l IH]; [constructor|]. simpl. rewrite andb_true_iff, negb_true_iff. intros [Ha Hl].
  constructor; [|by apply IH]. intros Hin%list_elem_of_In.
  assert (existsb (Z.eqb a) l = true) as E; [|congruence]. apply existsb_exists. exists a. split; [done|apply Z.eqb_refl].
Qed.

Definition fixed_disjoint (m : Z) : bool :=
  let fixed := fixed_addresses m in
  distinct fixed && forallb (fun a => 0 <? a) fixed &&
  match cbo_row m with
  | Some (base, step) => forallb (fun a => (a <? base) || (base + step * 128 <=? a)) fixed
  | None =>
      if bool_decide (fixed = []) then true
      else forallb (fun c => forallb (fun r => negb (existsb (Z.eqb (cbo_address m c r)) fixed)) cbo_registers)
        (seqZ 0 (boxes_in_use m))
  end.

Lemma all_fixed_disjoint : forallb fixed_disjoint all_models = true.
Proof. vm_compute. done. Qed.

(** C33. On every model the units that the constructor places at fixed addresses - U-box, power
    control, I/O stacks and their ring ports - use different MSRs, and none that belongs to
    one of the first 128 boxes. *)
Theorem fixed_units_apart m : m ∈ all_models ->
  NoDup (fixed_addresses m) /\
  forall c r, 0 <= c < boxes_in_use m -> cbo_register_ok r -> cbo_address m c r ∉ fixed_addresses m.
Proof.
  intros Hm. pose proof (forall_models _ m all_fixed_disjoint Hm) as H. unfold fixed_disjoint in H. cbv zeta in H.
  rewrite !andb_true_iff in H. destruct H as [[Hnd Hpos] Hc]. split; [by apply distinct_spec|].
  intros c r Hcb Hr Hin. apply list_elem_of_In in Hin. rewrite forallb_forall in Hpos.
  pose proof (proj1 (Z.ltb_lt _ _) (Hpos _ Hin)) as Hne.
  destruct (cbo_row m) as [[base step]|] eqn:Erow.
  { rewrite forallb_forall in Hc. specialize (Hc _ Hin). unfold boxes_in_use in Hcb.
    pose proof (cbo_row_spec m base step c r Erow ltac:(lia) Hr ltac:(lia)). lia. }
  destruct (bool_decide (fixed_addresses m = [])) eqn:Ee.
  { apply bool_decide_eq_true in Ee. by rewrite Ee in Hin. }
  rewrite forallb_forall in Hc. specialize (Hc c). rewrite forallb_forall in Hc.
  assert (Hr' : In r cbo_registers).
  { destruct r as [|n|n| |]; simpl in Hr; [by left| | |by right; left|by right; right; left];
      assert (E : n = 0 \/ n = 1 \/ n = 2 \/ n = 3) by lia; destruct E as [->|[->|[->| ->]]]; simpl; tauto. }
  assert (Hcin : In c (seqZ 0 (boxes_in_use m))) by (apply list_elem_of_In, elem_of_seqZ; lia).
  specialize (Hc Hcin r Hr'). apply negb_true_iff in Hc.
  assert (existsb (Z.eqb (cbo_address m c r)) (fixed_addresses m) = true) as E; [|congruence].
  apply existsb_exists. exists (cbo_address m c r). split; [done|apply Z.eqb_refl].
Qed.

Lemma fixed_units_apart_witness :
  NoDup (fixed_addresses GNR) /\
  forall c r, 0 <= c < 128 -> cbo_register_ok r -> cbo_address GNR c r ∉ fixed_addresses GNR.
Proof. apply (fixed_units_apart GNR). apply (bool_decide_unpack _). vm_compute. exact I. Defined.
