(* ===== verification/UncoreCommands.v ===== *)
(** The life of the units that [PCM] keeps itself: what [initUncorePMUsDirect] of
    [src/src/cpucounters.cpp] creates can be programmed by every [program...] function, in
    any order and any number of times. The definitions of this file are specification. *)

From S2P Require Import Prelude WidthExtender CpuModels Capabilities Registers UncorePMU ServerUncore CorePMU PcmUncore Discovery ServerMetrics UncoreInit.
Local Open Scope Z_scope.

(** The units of [ServerUncorePMUs] that raw events program. *)
Inductive server_unit := M3UPI | XPI | IMC | HA | M2M.

Definition program_server_unit {machine : Machine} (m : Z) (u : server_unit) (cfg : list Z) (s : ServerUncorePMUs)
    : M ServerUncorePMUs :=
  match u with
  | M3UPI => programM3UPI m cfg s
  | XPI => programXPI m cfg s
  | IMC => programIMC m cfg s
  | HA => programHA_cfg m cfg s
  | M2M => programM2M_cfg m cfg s
  end.

(** The calls that program units outside of the cores. *)
Inductive command :=
  | Server (u : server_unit) (cfg : list Z)
  | LatencyMetrics (enable_pmm : bool)
  | MemoryMetrics (metrics : ServerUncoreMemoryMetrics) (rankA rankB : Z)
  | PowerMetrics (mc_profile pcu_profile : Z) (freq_bands : option (Z * Z * Z))
  | PCU (events : list Z) (filter : Z)
  | UBOX (events : option (list Z))
  | MDF (events : list Z)
  | Cbo
  | CboRaw (events : list Z) (f0 f1 : Z)
  | IIO (events : list Z) (stack : Z)
  | IRP (events : list Z) (stack : Z)
  | CXLCM
  | CXLDP
  | CXLCMRaw (events : list Z)
  | CXLDPRaw (events : list Z)
  | PCIe (x16 : bool) (events : list Z).

Definition run_command {machine : Machine} (pf : pcm_platform) (c : command) (st : pcm_uncore) : M pcm_uncore :=
  match c with
  | Server u cfg => on_servers (program_server_unit (up_model pf) u cfg) st
  | LatencyMetrics enable_pmm => r ← programServerUncoreLatencyMetrics pf enable_pmm st; mret r.1
  | MemoryMetrics metrics rankA rankB => r ← PCM_programServerUncoreMemoryMetrics pf metrics rankA rankB st; mret r.1
  | PowerMetrics mc pcu bands => r ← programServerUncorePowerMetrics pf mc pcu bands st; mret r.1
  | PCU events filter => programPCU pf events filter st
  | UBOX events => programUBOX pf events st
  | MDF events => programMDF pf events st
  | Cbo => programCbo pf st
  | CboRaw events f0 f1 => programCboRaw pf events f0 f1 st
  | IIO events stack => programIIOCounters pf events stack st
  | IRP events stack => programIRPCounters pf events stack st
  | CXLCM => programCXLCM pf st
  | CXLDP => programCXLDP pf st
  | CXLCMRaw events => programCXLCM_events pf events st
  | CXLDPRaw events => programCXLDP_events pf events st
  | PCIe x16 events =>
      programUncorePMUs pf (if x16 then PCIE_GEN5x16_PMU_ID else PCIE_GEN5x8_PMU_ID)
        (fun pmu => program (up_model pf) pmu (Some events) UNC_PMON_UNIT_CTL_FRZ_EN) st
  end.

Fixpoint run_commands {machine : Machine} (pf : pcm_platform) (cs : list command) (st : pcm_uncore) : M pcm_uncore :=
  match cs with
  | [] => mret st
  | c :: cs => st ← run_command pf c st; run_commands pf cs st
  end.

(** The caller's array of events is as long as [PCM] reads; [programCbo] has no filter for
    Knights Landing. *)
Definition command_ok (m : Z) (c : command) : Prop :=
  match c with
  | PCU events _ | MDF events | CboRaw events _ _ | IIO events _ | CXLDPRaw events => (4 <= length events)%nat
  | CXLCMRaw events => (8 <= length events)%nat
  | UBOX (Some events) | IRP events _ => (2 <= length events)%nat
  | Cbo => m <> KNL
  | _ => True
  end.

(** What the programming of a unit of each kind relies on. *)
Definition unit_ok (m : Z) (id : UncorePMUIDs) (h : hw) (pmu : UncorePMU) : Prop :=
  match id with
  | UBOX_PMU_ID =>
      cache_ok m pmu /\ none_or_plain (unitControl pmu) /\ Forall none_or_plain (counterControl pmu) /\
      plain_ptr (fixedCounterControl pmu) = true
  | CBO_PMU_ID => unit_ready m pmu /\ values_ready h pmu /\ (m <> KNL -> filters_ready m pmu)
  | _ => unit_ready m pmu
  end.

Definition entry_ok (m : Z) (h : hw) (e : UncorePMUIDs * list (option UncorePMU)) : Prop :=
  Forall (fun p => forall pmu, p = Some pmu -> unit_ok m e.1 h pmu) e.2.

(** A server socket whose units have their registers. *)
Definition server_ready (s : ServerUncorePMUs) : Prop :=
  forallb imc_equipped (imcPMUs s) = true /\ forallb imc_equipped (edcPMUs s) = true /\
  forallb unit_equipped (xpiPMUs s) = true /\ forallb unit_equipped (m2mPMUs s) = true /\ forallb unit_equipped (haPMUs s) = true /\
  forallb unit_equipped (m3upiPMUs s) = true.

Record state_ok (m : Z) (sockets : nat) (h : hw) (st : pcm_uncore) : Prop := StateOk {
  servers_ok : Forall server_ready (serverUncorePMUs st);
  dies_ok : Forall (Forall (Forall (entry_ok m h))) (uncorePMUs st);
  iio_ok : Forall (Forall (fun e => unit_ready m e.2)) (iioPMUs st) /\ length (iioPMUs st) = sockets;
  irp_ok : Forall (Forall (fun e => unit_ready m e.2)) (irpPMUs st) /\ length (irpPMUs st) = sockets;
  cxl_ok : Forall (Forall (fun p => unit_ready m p.1 /\ unit_ready m p.2)) (cxlPMUs st)
}.

Lemma Forall_stable {A} (R : hw -> A -> Prop) l : (forall a, stable (fun h => R h a)) -> stable (fun h => Forall (R h) l).
Proof. intros HR h h' Hd H. eapply Forall_impl; [exact H|]. intros a. by apply HR. Qed.

Lemma unit_ok_stable m id pmu : stable (fun h => unit_ok m id h pmu).
Proof.
  intros h h' Hd. destruct id; simpl; try tauto. intros (H1 & H2 & H3). split_and!; [done| |done]. by eapply values_ready_stable.
Qed.

Lemma entry_ok_stable m e : stable (fun h => entry_ok m h e).
Proof. apply Forall_stable. intros p h h' Hd H pmu Hp. eapply unit_ok_stable; [done|by apply H]. Qed.

Lemma dies_ok_stable m (l : list (list die_pmus)) : stable (fun h => Forall (Forall (Forall (entry_ok m h))) l).
Proof. do 3 (apply Forall_stable; intros ?). apply entry_ok_stable. Qed.

Lemma state_ok_stable m n st : stable (fun h => state_ok m n h st).
Proof. intros h h' Hd []. split; try done. by eapply dies_ok_stable. Qed.

Section Commands.
Context {machine : Machine} (pf : pcm_platform).

Let m : Z := up_model pf.

Lemma works_Forall {A B} P (R : hw -> B -> Prop) (f : A -> M B) l : stable P -> (forall b, stable (fun h => R h b)) ->
  (forall a, a ∈ l -> works P R (f a)) -> works P (fun h => Forall (R h)) (mapM_ l f).
Proof.
  intros HP HR Hf. eapply works_weaken; [apply (works_mapM_ P (fun h _ => R h)); auto|done|].
  intros h bs H. simpl in H. clear Hf. induction H; constructor; auto.
Qed.

(** A job on all units of a kind keeps every unit as it must be. *)
Lemma works_program_kind n id (f : UncorePMU -> M UncorePMU) st :
  (forall pmu, works (fun h => unit_ok m id h pmu) (unit_ok m id) (f pmu)) ->
  works (fun h => state_ok m n h st) (state_ok m n) (programUncorePMUs pf id f st).
Proof.
  intros Hf. unfold programUncorePMUs. destruct (negb (up_has_MSR pf)); [by apply works_ret|].
  eapply works_bind; [apply state_ok_stable| |intros l; apply works_ret; intros h [[] Hl]; split; [done|exact Hl|done..]].
  intros h Hst. apply (works_Forall (fun h => state_ok m n h st)); [apply state_ok_stable| |intros s Hs|done].
  { intros s. apply Forall_stable. intros d. apply Forall_stable, entry_ok_stable. }
  apply works_Forall; [apply state_ok_stable|intros d; apply Forall_stable, entry_ok_stable|intros d Hd].
  apply works_Forall; [apply state_ok_stable|apply entry_ok_stable|intros e He].
  assert (Hin : forall h, state_ok m n h st -> entry_ok m h e).
  { intros h0 []. pose proof (proj1 (Forall_forall _ _) dies_ok0 s Hs) as H1. pose proof (proj1 (Forall_forall _ _) H1 d Hd) as H2.
    exact (proj1 (Forall_forall _ _) H2 e He). }
  unfold is_id. destruct (bool_decide (e.1 = id)) eqn:E; [|by apply works_ret]. apply bool_decide_eq_true in E.
  eapply works_bind; [apply state_ok_stable| |intros l; apply works_ret; intros h0 [_ Hl]; exact Hl].
  unfold on_units, entry_ok. cbn [fst snd]. apply works_Forall; [apply state_ok_stable| |].
  { intros p h1 h2 Hd' Hp' pmu Hpmu. eapply unit_ok_stable; [done|by apply Hp']. }
  intros [pmu|] Hp; [|by apply works_ret].
  eapply works_bind; [apply state_ok_stable| |].
  - eapply works_weaken; [apply (Hf pmu)| |done]. intros h0 H0. rewrite <- E.
    exact (proj1 (Forall_forall _ _) (Hin h0 H0) _ Hp pmu eq_refl).
  - intros pmu'. apply works_ret. intros h0 [_ Hpmu'] ? [= <-]. by rewrite E.
Qed.

Lemma unit_ready_set_model pmu : unit_ready m pmu -> unit_ready m (set_model m pmu).
Proof. intros (_ & H). split; [apply cache_ok_set_model|exact H]. Qed.

(** A job that restarts no counters, on a unit that may not be ready. *)
Lemma works_plain_job j events pmu : job_restarts j = false -> job_ready pf j pmu ->
  (job_counters j <= length events)%nat ->
  works (fun _ => unit_ready m pmu) (fun _ pmu' => unit_ready m pmu') (run_job pf j events pmu).
Proof.
  intros Hj Hr He h Hp. eapply works_weaken; [apply (works_run_job pf (fun _ => True) j events pmu)| | |exact Hp];
    [by intros ??|done|done|congruence|lia|done|]. intros h' pmu' ->. by apply unit_ready_set_model.
Qed.

Lemma works_keep {A} P (Q : hw -> A -> Prop) (c : M A) : stable P -> works P Q c -> works P (fun h a => P h /\ Q h a) c.
Proof. intros HP H h Hh. destruct (H h Hh) as (h' & a & E & Hd & Ha). exists h', a. split_and!; [done..|by eapply HP|done]. Qed.

Lemma works_cbo_job j events pmu : job_restarts j = true -> (filters_ready m pmu \/ m = KNL -> job_ready pf j pmu) ->
  (job_counters j <= length events)%nat ->
  works (fun h => unit_ok m CBO_PMU_ID h pmu) (unit_ok m CBO_PMU_ID) (run_job pf j events pmu).
Proof.
  intros Hj Hr He h Hp. pose proof Hp as (Hu & _ & Hf).
  assert (Hjr : job_ready pf j pmu) by (apply Hr; destruct (decide (m = KNL)); auto).
  revert h Hp. eapply works_weaken; [apply works_keep; [apply (unit_ok_stable m CBO_PMU_ID pmu)|]|done|].
  - apply (works_run_job pf (fun h => unit_ok m CBO_PMU_ID h pmu) j events pmu);
      [apply unit_ok_stable|done|done|by intros _ h0 (_ & Hv & _)|lia].
  - intros h pmu' [(_ & Hv & _) ->]. split_and!; [by apply unit_ready_set_model|exact Hv|exact Hf].
Qed.

Lemma works_selectors P ctrls events : Forall none_or_plain ctrls ->
  works P (fun _ _ => True) (program_loop m ctrls events).
Proof.
  intros Hc. eapply works_equiv; [apply program_loop_writes|]. apply works_run_writes.
  apply (selectors_log_regs (fun r => plain r = true)). intros r Hr. exact (proj1 (Forall_forall _ _) Hc _ Hr r eq_refl).
Qed.

Lemma works_initFreeze P extra pmu : stable P -> cache_ok m pmu -> none_or_plain (unitControl pmu) ->
  works P (fun _ r => r.1 = pmu \/ r.1 = set_model m pmu) (initFreeze m extra false pmu).
Proof.
  intros HP Hc Hu. destruct (unitControl pmu) as [u|] eqn:Eu.
  - eapply works_equiv; [by apply (initFreeze_writes m pmu extra u)|].
    eapply works_bind; [done|apply works_run_writes|intros []; apply works_ret; auto].
    specialize (Hu u eq_refl). unfold freeze_log. destruct (spr_unit m); by repeat constructor.
  - unfold initFreeze. rewrite Eu. apply works_ret. auto.
Qed.

Lemma works_programUBOX_unit events pmu : command_ok m (UBOX events) ->
  works (fun h => unit_ok m UBOX_PMU_ID h pmu) (unit_ok m UBOX_PMU_ID) (programUBOX_unit pf events pmu).
Proof.
  intros He h Hp. pose proof Hp as (Hc & Hu & _). revert h Hp. unfold programUBOX_unit.
  eapply works_bind; [apply unit_ok_stable|by apply works_initFreeze; [apply unit_ok_stable|..]|].
  intros [pmu' b]. cbn [fst]. intros h [Hp Hr].
  assert (Hp' : unit_ok m UBOX_PMU_ID h pmu').
  { destruct Hr as [->| ->]; [exact Hp|]. destruct Hp as (_ & Hp). split; [apply cache_ok_set_model|exact Hp]. }
  clear Hp Hr Hc Hu. pose proof Hp' as (_ & _ & Hs & Hf). revert h Hp'.
  destruct (fixedCounterControl pmu') as [r|] eqn:Er; [|done].
  eapply works_bind; [apply unit_ok_stable| |].
  { eapply works_equiv; [by apply (ptr_write_writes _ r)|]. apply works_run_writes. by repeat constructor. }
  intros []. destruct events as [events|]; [|apply works_ret; by intros h []].
  assert (E : forall h, events_array 2 events pmu' h = (h, Ok (take 2 events))).
  { intros h. unfold events_array. simpl in He. by destruct (Nat.leb_spec (Nat.min 2 (size pmu')) (length events)); [|lia]. }
  intros h [Hp _]. unfold mbind at 1, M_bind. rewrite E. revert h Hp. unfold program. cbn [Z.eqb negb].
  eapply works_bind; [apply unit_ok_stable|by apply works_selectors|intros []; apply works_ret; by intros h []].
Qed.

(** ** The vectors of stacks *)

Lemma works_program_stacks (f : UncorePMU -> M UncorePMU) units pmus :
  (forall pmu, works (fun _ => unit_ready m pmu) (fun _ pmu' => unit_ready m pmu') (f pmu)) ->
  works (fun _ => Forall (fun e => unit_ready m e.2) pmus) (fun _ l => Forall (fun e => unit_ready m e.2) l)
    (program_stacks f units pmus).
Proof.
  intros Hf. revert pmus. induction units as [|unit units IH]; intros pmus; simpl; [by apply works_ret|].
  destruct (list_find _ pmus) as [[i [n pmu]]|] eqn:E; [|apply IH].
  apply list_find_Some in E as (Hi & _ & _).
  eapply (works_bind _ (fun _ pmu' => unit_ready m pmu')); [by intros ??| |].
  - intros h Hp. apply Hf. exact (proj1 (Forall_lookup _ _) Hp i _ Hi).
  - intros pmu'. eapply works_weaken; [apply IH| |done]. intros h [Hp Hu]. by apply Forall_insert.
Qed.

Lemma works_program_sockets (f : UncorePMU -> M UncorePMU) units pmus : length pmus = Z.to_nat (up_sockets pf) ->
  (forall pmu, works (fun _ => unit_ready m pmu) (fun _ pmu' => unit_ready m pmu') (f pmu)) ->
  works (fun _ => Forall (Forall (fun e => unit_ready m e.2)) pmus)
    (fun _ l => Forall (Forall (fun e => unit_ready m e.2)) l /\ length l = Z.to_nat (up_sockets pf)) (program_sockets pf f units pmus).
Proof.
  intros Hl Hf. unfold program_sockets. destruct (negb _ || _); [by apply works_ret|].
  rewrite <- Hl, firstn_all, drop_all, Nat.ltb_irrefl.
  eapply works_bind; [by intros ??| |intros l; apply works_ret; intros h [_ H]; rewrite app_nil_r; exact H].
  eapply works_weaken; [apply (works_mapM_ (fun _ => Forall (Forall (fun e => unit_ready m e.2)) pmus)
    (fun _ _ s => Forall (fun e => unit_ready m e.2) s))|done|].
  - by intros ??.
  - by intros ????.
  - intros s Hs h Hp. apply works_program_stacks; [done|]. exact (proj1 (Forall_forall _ _) Hp s Hs).
  - intros h l H. simpl in H. split; [|by symmetry; eapply Forall2_length].
    clear -H. induction H; constructor; auto.
Qed.

(** ** Every call *)

Let sockets : nat := Z.to_nat (up_sockets pf).

Lemma works_stacks (f : UncorePMU -> M UncorePMU) units pmus :
  (forall pmu, works (fun _ => unit_ready m pmu) (fun _ pmu' => unit_ready m pmu') (f pmu)) ->
  forall P, stable P -> (forall h, P h -> Forall (Forall (fun e => unit_ready m e.2)) pmus /\ length pmus = sockets) ->
  works P (fun h l => P h /\ Forall (Forall (fun e => unit_ready m e.2)) l /\ length l = sockets) (program_sockets pf f units pmus).
Proof.
  intros Hf P HP H. apply works_keep; [done|]. intros h Hh. destruct (H h Hh) as [Hr Hl].
  by apply works_program_sockets.
Qed.

Lemma works_cxl (sel : UncorePMU * UncorePMU -> UncorePMU) (put : UncorePMU * UncorePMU -> UncorePMU -> UncorePMU * UncorePMU)
    (f : UncorePMU -> M UncorePMU) st :
  (forall pmu, works (fun _ => unit_ready m pmu) (fun _ pmu' => unit_ready m pmu') (f pmu)) ->
  (forall p, unit_ready m p.1 /\ unit_ready m p.2 -> unit_ready m (sel p)) ->
  (forall p u, unit_ready m p.1 /\ unit_ready m p.2 -> unit_ready m u -> unit_ready m (put p u).1 /\ unit_ready m (put p u).2) ->
  works (fun h => state_ok m sockets h st) (state_ok m sockets)
    (l ← mapM_ (cxlPMUs st) (fun s => mapM_ s (fun p => u ← f (sel p); mret (put p u))); mret (set_cxl l st)).
Proof.
  intros Hf Hsel Hput. set (R := fun p : UncorePMU * UncorePMU => unit_ready m p.1 /\ unit_ready m p.2).
  eapply (works_bind _ (fun _ l => Forall (Forall R) l)); [apply state_ok_stable| |intros l; apply works_ret; by intros h [[] Hl]; split].
  apply works_Forall; [apply state_ok_stable|by intros ????|intros s Hs].
  apply works_Forall; [apply state_ok_stable|by intros ????|intros p Hp].
  intros h Hst. pose proof Hst as [_ _ _ _ Hc].
  assert (Hpr : R p). { pose proof (proj1 (Forall_forall _ _) Hc s Hs) as H1. exact (proj1 (Forall_forall _ _) H1 p Hp). }
  apply (works_bind (fun _ => True) (fun _ u => unit_ready m u)); [by intros ??| | |done].
  - intros h' _. by apply Hf, Hsel.
  - intros u. apply works_ret. intros h' [_ Hu]. by apply Hput.
Qed.

Lemma works_safe {A} P (Q : A -> Prop) (c : M A) : safe_with Q c -> works P (fun _ => Q) c.
Proof.
  intros H h _. destruct (H h) as (h' & a & E & Hx & Ha). exists h', a. unfold more_extenders. by rewrite Hx.
Qed.

Lemma safe_server_unit u cfg s : server_ready s -> safe_with server_ready (program_server_unit m u cfg s).
Proof.
  intros (Hi & He & Hx & H2 & Hh & H3).
  destruct u; cbn [program_server_unit]; unfold programM3UPI, programHA_cfg, programM2M_cfg;
    try (eapply safe_with_bind; [by apply safe_program_units|]; intros l Hl; by apply safe_with_ret).
  - eapply safe_with_weaken; [by apply safe_programXPI|]. by intros _ (l & -> & Hl).
  - eapply safe_with_weaken; [by apply safe_programIMC|]. by intros _ (l & -> & Hl).
Qed.

Lemma safe_memory_metrics metrics rankA rankB pmm hbm s : server_ready s ->
  safe_with server_ready (programServerUncoreMemoryMetrics m pmm hbm metrics rankA rankB s).
Proof.
  intros (Hi & He & Hx & H2 & Hh & H3). unfold programServerUncoreMemoryMetrics, programM2M, programM2M_cfg, programEDC_if.
  destruct (memory_metrics_config _ _ _ _ _) as [[mc edc]|]; [|by apply safe_with_ret].
  eapply safe_with_bind; [by apply safe_programIMC|]. intros _ (l & -> & Hl).
  apply (safe_with_bind (fun s' => exists l', s' = set_edc l' (set_imc l s) /\ forallb imc_equipped l' = true)).
  { destruct hbm; [by apply safe_programEDC|]. apply safe_with_ret. by exists (edcPMUs s). }
  intros _ (l' & -> & Hl').
  apply (safe_with_bind (fun s' => exists l2, s' = set_m2m l2 (set_edc l' (set_imc l s)) /\ forallb unit_equipped l2 = true)).
  { eapply safe_with_bind; [by apply safe_program_units|]. intros l2 Hl2. apply safe_with_ret. by exists l2. }
  intros _ (l2 & -> & Hl2). apply safe_with_ret. by split_and!.
Qed.

Lemma safe_power_metrics mc s : server_ready s -> safe_with server_ready (program_power_metrics m mc s).
Proof.
  intros (Hi & He & Hx & H2 & Hh & H3). unfold program_power_metrics.
  eapply safe_with_bind; [by apply safe_programXPI|]. intros _ (l & -> & Hl).
  eapply safe_with_weaken; [by apply safe_programIMC|]. intros _ (l' & -> & Hl'). by split_and!.
Qed.

Lemma works_on_servers (f : ServerUncorePMUs -> M ServerUncorePMUs) st :
  (forall s, server_ready s -> safe_with server_ready (f s)) ->
  works (fun h => state_ok m sockets h st) (state_ok m sockets) (on_servers f st).
Proof.
  intros Hf. unfold on_servers.
  apply (works_bind _ (fun _ l => Forall server_ready l)); [apply state_ok_stable| |intros l; apply works_ret; by intros h [[] Hl]; split].
  intros h Hst. pose proof Hst as [Hs _ _ _ _]. revert h Hst.
  apply works_Forall; [apply state_ok_stable|by intros ????|]. intros s Hin. apply works_safe, Hf.
  exact (proj1 (Forall_forall _ _) Hs s Hin).
Qed.

Lemma works_cxlcm events st : (8 <= length events)%nat ->
  works (fun h => state_ok m sockets h st) (state_ok m sockets) (programCXLCM_events pf events st).
Proof.
  intros He. apply (works_cxl fst (fun p u => (u, p.2))); [|by intros p []|by intros p u []].
  intros pmu. apply (works_plain_job (PlainJob 8 UNC_PMON_UNIT_CTL_FRZ_EN)); [done|by right; left|done].
Qed.

Lemma works_cxldp events st : (4 <= length events)%nat ->
  works (fun h => state_ok m sockets h st) (state_ok m sockets) (programCXLDP_events pf events st).
Proof.
  intros He. apply (works_cxl snd (fun p u => (p.1, u))); [|by intros p []|by intros p u []].
  intros pmu. apply (works_plain_job (PlainJob 4 UNC_PMON_UNIT_CTL_FRZ_EN)); [done|by right; left|done].
Qed.

Lemma works_pcu events filter st : (4 <= length events)%nat ->
  works (fun h => state_ok m sockets h st) (state_ok m sockets) (programPCU pf events filter st).
Proof. intros He. apply works_program_kind. intros pmu. by apply (works_plain_job (PcuJob filter)). Qed.

Lemma power_events_length pcu_profile : length (power_PCUCntConf m pcu_profile) = 4%nat.
Proof. unfold power_PCUCntConf, switch. repeat case_match; reflexivity. Qed.

(** A step that keeps the state well formed, before another one. *)
Lemma works_then {A} (Q : hw -> A -> Prop) (c : M pcm_uncore) (f : pcm_uncore -> M A) st :
  works (fun h => state_ok m sockets h st) (state_ok m sockets) c ->
  (forall st', works (fun h => state_ok m sockets h st') Q (f st')) ->
  works (fun h => state_ok m sockets h st) Q (c ≫= f).
Proof.
  intros Hc Hf. eapply works_bind; [apply state_ok_stable|exact Hc|intros st'].
  eapply works_weaken; [apply Hf|by intros h []|done].
Qed.

(** The answer of a call is left aside. *)
Lemma works_answer (c : M (pcm_uncore * ErrorCode)) st :
  works (fun h => state_ok m sockets h st) (fun h r => state_ok m sockets h r.1) c ->
  works (fun h => state_ok m sockets h st) (state_ok m sockets) (r ← c; mret r.1).
Proof.
  intros Hc. eapply works_bind; [apply state_ok_stable|exact Hc|]. intros r. apply works_ret. by intros h [].
Qed.

Lemma works_latency_metrics pmm st :
  works (fun h => state_ok m sockets h st) (fun h r => state_ok m sockets h r.1) (programServerUncoreLatencyMetrics pf pmm st).
Proof.
  unfold programServerUncoreLatencyMetrics. apply works_then; [|intros st'; by apply works_ret].
  destruct (DDRLatencyMetricsAvailable _); [|by apply works_ret]. apply works_on_servers. intros s Hs.
  pose proof Hs as (Hi & ?). eapply safe_with_weaken; [by apply safe_programIMC|]. by intros _ (l & -> & Hl).
Qed.

Lemma works_memory_metrics metrics rankA rankB st :
  works (fun h => state_ok m sockets h st) (fun h r => state_ok m sockets h r.1)
    (PCM_programServerUncoreMemoryMetrics pf metrics rankA rankB st).
Proof.
  unfold PCM_programServerUncoreMemoryMetrics. destruct (no_server_access _ _); [by apply works_ret|].
  apply works_then; [apply works_on_servers; intros; by apply safe_memory_metrics|intros ?].
  apply works_then; [apply works_cxlcm; simpl; lia|intros ?].
  apply works_then; [apply works_cxldp; simpl; lia|intros ?]. by apply works_ret.
Qed.

Lemma works_power_metrics mc pcu bands st :
  works (fun h => state_ok m sockets h st) (fun h r => state_ok m sockets h r.1) (programServerUncorePowerMetrics pf mc pcu bands st).
Proof.
  unfold programServerUncorePowerMetrics. destruct (no_server_access _ _); [by apply works_ret|].
  apply works_then; [apply works_on_servers; intros; by apply safe_power_metrics|intros ?].
  apply works_then; [apply works_pcu; by rewrite power_events_length|intros ?]. by apply works_ret.
Qed.

(** The PCIe units are programmed without being frozen first. *)
Lemma works_program P events pmu : stable P -> unit_ready m pmu ->
  works P (fun _ pmu' => unit_ready m pmu') (program m pmu (Some events) UNC_PMON_UNIT_CTL_FRZ_EN).
Proof.
  intros HP Hr. pose proof Hr as (Hc & Hu & Hs & _). unfold program.
  eapply works_bind; [done|by apply works_selectors|intros []]. cbn [Z.eqb negb].
  destruct (unitControl pmu) as [u|] eqn:E; [|done].
  eapply works_equiv; [by apply (resetUnfreeze_writes m pmu UNC_PMON_UNIT_CTL_FRZ_EN u)|].
  apply (works_bind _ (fun _ _ => True)); [by intros h h' Hd [H _]; split; [eapply HP|]| |intros []; apply works_ret; intros _ _; by apply unit_ready_set_model].
  apply works_run_writes. unfold release_log. destruct (spr_unit m); by repeat constructor.
Qed.

Lemma works_command c st : command_ok m c ->
  works (fun h => state_ok m sockets h st) (state_ok m sockets) (run_command pf c st).
Proof.
  intros Hc. destruct c as [u cfg|pmm|metrics ra rb|mc pcu bands|events filter|events|events| |events f0 f1|events stack|events stack| | |events|events|x16 events];
    cbn [run_command].
  - apply works_on_servers. intros s. apply safe_server_unit.
  - apply works_answer, works_latency_metrics.
  - apply works_answer, works_memory_metrics.
  - apply works_answer, works_power_metrics.
  - by apply works_pcu.
  - apply works_program_kind. intros pmu. by apply works_programUBOX_unit.
  - apply works_program_kind. intros pmu. apply (works_plain_job (PlainJob 4 UNC_PMON_UNIT_CTL_FRZ_EN)); [done|by right; left|done].
  - unfold programCbo. pose proof (cbo_events_length pf) as Hlen.
    destruct (initLLCReadMissLatencyEvents pf (replicate maxCounters 0) 0) as [events opc]. cbn [fst] in Hlen.
    eapply works_bind; [apply state_ok_stable|apply works_program_kind; intros pmu|].
    + apply (works_cbo_job (CboJob opc 0 0 1 1)); [done|by intros [?|?]|]. simpl. unfold maxCounters. lia.
    + intros st'. eapply works_weaken; [apply works_program_kind; intros pmu; by apply works_programUBOX_unit|by intros h []|done].
  - apply works_program_kind. intros pmu. by apply (works_cbo_job (CboRawJob f0 f1)).
  - unfold programIIOCounters. eapply works_bind; [apply state_ok_stable|apply works_stacks; [|apply state_ok_stable|by intros h []]|].
    + intros pmu. apply (works_plain_job (PlainJob 4 UNC_PMON_UNIT_CTL_RSV)); [done|by left|done].
    + intros l. apply works_ret. intros h (_ & [] & Hl). by split.
  - unfold programIRPCounters. eapply works_bind; [apply state_ok_stable|apply works_stacks; [|apply state_ok_stable|by intros h []]|].
    + intros pmu. apply (works_plain_job (PlainJob 2 UNC_PMON_UNIT_CTL_RSV)); [done|by left|done].
    + intros l. apply works_ret. intros h (_ & [] & Hl). by split.
  - apply works_cxlcm. simpl. lia.
  - apply works_cxldp. simpl. lia.
  - by apply works_cxlcm.
  - by apply works_cxldp.
  - apply works_program_kind. intros pmu. destruct x16; intros h Hp; by apply (works_program (fun _ => True)).
Qed.

Lemma works_commands cs st : Forall (command_ok m) cs ->
  works (fun h => state_ok m sockets h st) (state_ok m sockets) (run_commands pf cs st).
Proof.
  intros Hcs. revert st. induction Hcs as [|c cs Hc _ IH]; intros st; [by apply works_ret|].
  eapply works_bind; [apply state_ok_stable|by apply works_command|].
  intros st'. eapply works_weaken; [apply IH|by intros h []|done].
Qed.

End Commands.

(** * Creation *)

Section Creation.
Context {machine : Machine} (env : init_env).

Let m : Z := ie_model env.

Lemma Forall_map_plain {A} (f : A -> HWRegisterPtr) l : (forall a, none_or_plain (f a)) -> Forall none_or_plain (map f l).
Proof. intros Hf. apply Forall_fmap, Forall_forall. auto. Qed.

Lemma msr4_ready handle ctl ctls ctrs fltr : none_or_plain fltr -> unit_ready m (msr4 handle ctl ctls ctrs fltr).
Proof. intros Hf. split_and!; [by left|done|apply Forall_map_plain; by intros a r [= <-]|done|done]. Qed.

Lemma init_ubox_ok handle h pmu : init_ubox m handle = Some pmu -> unit_ok m UBOX_PMU_ID h pmu.
Proof.
  unfold init_ubox. intros E. repeat case_match; simplify_eq;
    (split_and!; [by left|by intros r [= <-]|apply Forall_map_plain; by intros a r [= <-]|done]).
Qed.

Lemma msr_units_ready d s handle bt fltr : Forall (unit_ready m) (addPMUsFromDiscovery d s handle bt fltr).
Proof.
  apply Forall_forall. intros pmu. unfold addPMUsFromDiscovery. rewrite list_elem_of_omap. intros (db & _ & E).
  case_match; [|done]. injection E as <-. split_and!; [by left|done| |cbn; case_match; by intros r [= <-]|done].
  apply (Forall_map_plain (fun c => Some (MSRRegister handle _))). by intros a r [= <-].
Qed.

Lemma pci_register_plain open_pci a : none_or_plain (make_pci_register open_pci a).
Proof. unfold make_pci_register. intros r E. repeat case_match; by simplify_eq. Qed.

Lemma pci_units_ready d s open_pci bt : Forall (unit_ready m) (getPCICFGPMUsFromDiscovery d s open_pci bt).
Proof.
  apply Forall_forall. intros pmu. unfold getPCICFGPMUsFromDiscovery. rewrite list_elem_of_omap. intros (dp & _ & E).
  repeat case_match; simplify_eq. split_and!; [by left| |apply Forall_map_plain; intros a; exact (pci_register_plain _ _)|done|done].
  cbn [unitControl plain_ptr]. by eapply pci_register_plain.
Qed.

Lemma fallback_units_ready devices s dids : Forall (unit_ready m) (addPCICFGPMUsFallback devices s dids).
Proof.
  unfold addPCICFGPMUsFallback. destruct (s =? 0)%nat; [|done]. apply Forall_forall. intros pmu Hp.
  apply elem_of_concat_map in Hp as (d & _ & Hp). apply list_elem_of_omap in Hp as (did & _ & E). case_match; [|done].
  injection E as <-. split_and!; [by left|done|apply Forall_map_plain; by intros a r [= <-]|done|done].
Qed.

Lemma entries_ok id h l : (forall pmu, unit_ready m pmu -> unit_ok m id h pmu) -> Forall (unit_ready m) l ->
  Forall (entry_ok m h) [(id, map Some l)].
Proof.
  intros Hid Hl. apply Forall_cons; split; [|done]. unfold entry_ok. apply Forall_fmap. eapply Forall_impl; [exact Hl|].
  intros pmu Hp ? [= <-]. auto.
Qed.

Lemma init_pcus_ready handle s l : init_pcus m handle (ie_discovery env) s = Some l -> Forall (unit_ready m) l.
Proof.
  unfold init_pcus. intros E. repeat case_match; simplify_eq; try apply msr_units_ready; try done;
    (apply Forall_cons; split; [|done]; apply msr4_ready; by intros r [= <-]).
Qed.

Lemma init_mdfs_ready handle s l : init_mdfs m handle (ie_discovery env) s = Some l -> Forall (unit_ready m) l.
Proof. unfold init_mdfs. intros E. repeat case_match; simplify_eq; by try apply msr_units_ready. Qed.

Lemma init_pcie_ready s p : init_pcie m (ie_open_pci env) (ie_devices env) (ie_no_gen5_discovery env) (ie_discovery env) s = Some p ->
  Forall (unit_ready m) p.1 /\ Forall (unit_ready m) p.2.
Proof.
  unfold init_pcie. intros E. repeat case_match; simplify_eq; cbn [fst snd];
    by split; try apply fallback_units_ready; try apply pci_units_ready.
Qed.

Lemma init_die_ok s handle h : Forall (Forall (entry_ok m h)) (init_die env s handle).
Proof.
  unfold init_die. set (parts := omap id _).
  assert (H : Forall (Forall (entry_ok m h)) parts).
  { apply Forall_forall. intros part Hp. apply list_elem_of_omap in Hp as (o & Ho & E). cbn [id] in E. subst o.
    rewrite !elem_of_cons, elem_of_nil in Ho. destruct Ho as [E|[E|[E|[E|[]]]]].
    - destruct (init_ubox _ _) as [u|] eqn:Eu; [|done]. injection E as ->. apply Forall_cons; split; [|done].
      apply Forall_cons; split; [|done]. intros pmu [= <-]. by eapply init_ubox_ok.
    - destruct (init_pcus _ _ _ _) as [l|] eqn:El; [|done]. injection E as ->. by apply entries_ok; [|eapply init_pcus_ready].
    - destruct (init_mdfs _ _ _ _) as [l|] eqn:El; [|done]. injection E as ->. by apply entries_ok; [|eapply init_mdfs_ready].
    - destruct (init_pcie _ _ _ _ _ _) as [p|] eqn:El; [|done]. injection E as ->. apply init_pcie_ready in El as [H1 H2].
      by apply (Forall_app_2 _ [_] [_]); apply entries_ok. }
  destruct parts as [|part parts']; [done|]. apply Forall_cons; split; [|done]. by apply Forall_concat.
Qed.

Lemma msr4_stacks_ready handle unit_ctl ctl0 ctr0 step count :
  Forall (fun e => unit_ready m e.2) (iio_stacks handle unit_ctl ctl0 ctr0 step count).
Proof. apply Forall_fmap, Forall_forall. intros u _. by apply msr4_ready. Qed.

Lemma init_iio_ready handle : Forall (fun e => unit_ready m e.2) (init_iio m handle).
Proof.
  unfold init_iio. repeat case_match; try apply msr4_stacks_ready; [|done].
  apply Forall_lookup. intros i e. rewrite list_lookup_imap. intros (a & _ & ->)%fmap_Some_1. by apply msr4_ready.
Qed.

Lemma init_irp_ready handle : Forall (fun e => unit_ready m e.2) (init_irp m handle).
Proof.
  unfold init_irp. destruct (irp_table m) as [[[table ctl] ctr]|]; [|done].
  apply Forall_lookup. intros i e. rewrite list_lookup_imap. intros (a & _ & ->)%fmap_Some_1.
  split_and!; [by left|done| |done|done]. by repeat constructor; intros r [= <-].
Qed.

Lemma cxl_ready d s : Forall (fun p => unit_ready m p.1 /\ unit_ready m p.2) (makeCXLPMUs d s m).
Proof.
  unfold makeCXLPMUs. case_match; [|done]. apply Forall_concat, Forall_fmap, Forall_forall. intros die _.
  apply Forall_fmap, Forall_forall. intros pos _.
  assert (H' : forall bt, unit_ready m (createCXLPMU d s bt die pos)).
  { intros bt. split_and!; [by left|done|apply Forall_map_plain; by intros a r [= <-]|done|done]. }
  split; apply H'.
Qed.

Lemma works_unfreeze P : stable P -> works P (fun _ _ => True) (globalUnfreezeUncoreCounters env).
Proof.
  intros HP. apply works_forM; [done|]. intros handle _.
  assert (Hw : forall a v, works P (fun _ _ => True) (msr_write handle a v)).
  { intros a v. eapply works_equiv; [apply (run_writes_one (MSRRegister handle a))|]. apply works_run_writes. by repeat constructor. }
  repeat case_match; try apply Hw. by apply works_ret.
Qed.

Lemma works_createIDXPMU P info : works P (fun _ _ => True) (createIDXPMU info).
Proof.
  intros h _. destruct info as [[addr node] socket].
  unfold createIDXPMU, mbind, M_bind. cbn.
  eexists _, _. split; [reflexivity|]. split; [unfold more_extenders; simpl; set_solver|done].
Qed.

Lemma works_cbos : (ie_boxes env <= 512)%nat ->
  works (fun _ => True) (fun h l => Forall (Forall (Forall (entry_ok m h))) l /\ length l = length (ie_handles env))
    (initCbos m (ie_handles env) (ie_boxes env)).
Proof.
  intros Hn. destruct (hasPCICFGUncore m) eqn:Hm.
  - eapply works_weaken; [by apply works_initCbos|done|]. intros h l Hl. simpl in Hl.
    split; [|by symmetry; eapply Forall2_length].
    apply Forall_lookup. intros i s Hs. destruct (Forall2_lookup_r _ _ _ _ _ Hl Hs) as (handle & _ & units & -> & Hu).
    do 2 (apply Forall_cons; split; [|done]). apply Forall_lookup. intros j p Hp pmu ->.
    destruct (Forall2_lookup_r _ _ _ _ _ Hu Hp) as (cbo & Hc & ? & [= <-] & ids & Hl4 & Hids & ->).
    apply lookup_seqZ in Hc. split_and!; [apply created_cbo_ready|by apply created_cbo_values|].
    intros Hk. apply created_filters_ready; [done..|lia].
  - unfold initCbos. rewrite Hm. apply works_ret. intros h _. split; [|by rewrite length_map].
    apply Forall_forall. intros s Hs. apply list_elem_of_fmap in Hs as (handle & -> & _). constructor.
Qed.

Lemma add_cbos_ok h dies cbos : Forall (Forall (entry_ok m h)) dies -> Forall (Forall (entry_ok m h)) cbos ->
  Forall (Forall (entry_ok m h)) (add_cbos dies cbos).
Proof.
  intros [|d dies' Hd Hds] [|c cbos' Hc Hcs]; simpl; repeat (apply Forall_cons; split); try done. by apply Forall_app.
Qed.

Lemma works_initUncorePMUsDirect : (ie_boxes env <= 512)%nat ->
  works (fun _ => True) (state_ok m (length (ie_handles env))) (initUncorePMUsDirect env).
Proof.
  intros Hn. unfold initUncorePMUsDirect.
  apply (works_bind (fun _ => True) (fun _ _ => True)); [by intros ??|apply works_forM; [by intros ??|]; intros; by apply works_unfreeze|intros _].
  apply (works_bind _ (fun _ _ => True)); [by intros ??| |intros idx].
  { destruct (supportIDXAccelDev _); [|by apply works_ret].
    eapply (works_bind _ (fun _ _ => True)); [by intros ??| |intros iaa].
    { eapply works_weaken; [apply (works_map (fun _ => True) (fun _ _ => True)); [done|intros; apply works_createIDXPMU]|done|done]. }
    eapply (works_bind _ (fun _ _ => True)); [by intros ??| |intros dsa; by apply works_ret].
    eapply works_weaken; [apply (works_map (fun _ => True) (fun _ _ => True)); [done|intros; apply works_createIDXPMU]|done|done]. }
  apply (works_bind _ (fun h l => Forall (Forall (Forall (entry_ok m h))) l /\ length l = length (ie_handles env)));
    [by intros ??|by eapply works_weaken; [apply works_cbos| |]|intros cbos].
  apply works_ret. intros h (_ & Hc & Hl). split; cbn [serverUncorePMUs uncorePMUs iioPMUs irpPMUs cxlPMUs]; [done|..].
  - apply Forall_lookup. intros i s Hs. rewrite lookup_zip_with in Hs.
    apply bind_Some in Hs as (dies & Hd & Hs). apply bind_Some in Hs as (c & Hci & [= <-]).
    rewrite list_lookup_imap in Hd. apply fmap_Some_1 in Hd as (handle & _ & ->).
    apply add_cbos_ok; [apply init_die_ok|]. by eapply (proj1 (Forall_lookup _ _)).
  - split; [|by rewrite length_map]. apply Forall_fmap, Forall_forall. intros handle _. apply init_iio_ready.
  - split; [|by rewrite length_map]. apply Forall_fmap, Forall_forall. intros handle _. apply init_irp_ready.
  - destruct (ie_discovery env) as [d|]; apply Forall_forall; intros s Hs;
      apply list_elem_of_fmap in Hs as (i & -> & _); [apply cxl_ready|constructor].
Qed.

End Creation.

(** C9. Whatever the hardware answers, the constructor's [initUncorePMUsDirect] ends without an
    exception, and the units it leaves - at fixed addresses, from discovery tables, or found
    on the PCI bus -, beside server sockets whose units have their registers, can then be
    programmed by every call that programs memory controllers, links, PCU, U-box, MDF, CBo,
    IIO, IRP and CXL units or chooses latency, memory or power metrics, in any order and any
    number of times: no null pointer is followed, no vector is read behind its end, no
    extender is unknown. The server sockets are given as ready ([server_ready], which is what
    [created_units_programmable] finds for those the constructor makes), the caller's event
    arrays must have the length [PCM] reads, and [programCbo] must not be called on Knights
    Landing, where it throws. *)
Theorem init_then_program {machine : Machine} env pf servers cs h :
  up_model pf = ie_model env -> up_sockets pf = Z.of_nat (length (ie_handles env)) -> (ie_boxes env <= 512)%nat ->
  Forall server_ready servers -> Forall (command_ok (up_model pf)) cs ->
  exists h' st, (st ← initUncorePMUsDirect env; run_commands pf cs (set_servers servers st)) h = (h', Ok st) /\
    state_ok (up_model pf) (length (ie_handles env)) h' st.
Proof.
  intros Hm Hs Hb Hsv Hcs. assert (Hw : works (fun _ => True) (state_ok (up_model pf) (length (ie_handles env)))
    (st ← initUncorePMUsDirect env; run_commands pf cs (set_servers servers st))).
  { eapply works_bind; [done|by apply works_initUncorePMUsDirect|intros st].
    eapply works_weaken; [by apply (works_commands pf cs (set_servers servers st))| |].
    - intros h0 [_ []]. rewrite Hs, Nat2Z.id, Hm. by split.
    - intros h0 st0. by rewrite Hs, Nat2Z.id. }
  destruct (Hw h I) as (h' & st & E & _ & Hst). by exists h', st.
Qed.

(** A Skylake server with two sockets of four boxes, and a memory channel and a link. *)
Definition example_env : init_env :=
  InitEnv SKX [Some 0; Some 28] 4 None (fun _ _ _ => None) [] false [] [].

Definition example_unit (function : Z) : UncorePMU :=
  let r offset := Some (PCICFGRegister64 function offset) in
  MkUncorePMU 0 (r 0xF4) [r 0xD8; r 0xDC; r 0xE0; r 0xE4] [r 0xA0; r 0xA8; r 0xB0; r 0xB8] (r 0xF0) (r 0xD0) None None.

Definition example_server : ServerUncorePMUs :=
  MkServer SKX [example_unit 1] [] [example_unit 2] [] [example_unit 3] [] [] [1].

Definition example_commands : list command :=
  [Cbo; PowerMetrics 2 5 None; IIO [1; 2; 3; 4] (-1); PCU [1; 2; 3; 4] 0x1F; MemoryMetrics PartialWrites (-1) (-1);
   UBOX None; Cbo; IRP [5; 6] 2].

Lemma init_then_program_witness :
  exists h' st,
    (st ← @initUncorePMUsDirect memory_machine example_env;
     @run_commands memory_machine (PcmPlatform SKX 4 2 true) example_commands (set_servers [example_server] st)) (HW [] ∅ ∅) = (h', Ok st) /\
    state_ok SKX 2 h' st.
Proof.
  apply (@init_then_program memory_machine example_env (PcmPlatform SKX 4 2 true) [example_server] example_commands (HW [] ∅ ∅)).
  - reflexivity.
  - reflexivity.
  - simpl. lia.
  - by repeat constructor.
  - by repeat constructor; simpl; try lia.
Defined.
