(* ===== verification/RawEvents.v ===== *)
(** The event descriptions of the tool [pcm-raw] ([addEvent], [addEvents] of
    [src/src/pcm-raw.cpp]) with the telemetry database of [src/src/pmt.cpp] they refer to, in
    the build without the JSON event lists.

    An event is [pmu/token,token,.../]; a file of events, one to a line, is cut into groups
    that fit the counters. The records of the telemetry database, which come from XML files,
    and the number of core counters are arguments. *)

From Stdlib Require Import Sorting.Sorted.
From S2P Require Import Prelude Bits CxxString StrUtils.
Local Open Scope char_scope.
Local Open Scope Z_scope.
Local Open Scope list_scope.

(** * Data ([cpucounters.h]) *)

(** [std::array<uint64, 6>] *)
Definition RawEventEncoding : Type := list Z.
Definition RawEventConfig : Type := RawEventEncoding * str.

Record RawPMUConfig := MkRawPMUConfig {
  programmable : list RawEventConfig;
  fixed : list RawEventConfig
}.

Definition empty_config : RawPMUConfig := MkRawPMUConfig [] [].

(** [std::map<std::string, RawPMUConfig>]: in the order of the keys. *)
Definition RawPMUConfigs : Type := list (str * RawPMUConfig).

Fixpoint str_ltb (a b : str) : bool :=
  match a, b with
  | _, [] => false
  | [], _ :: _ => true
  | x :: a', y :: b' => (code x <? code y) || ((code x =? code y) && str_ltb a' b')
  end.

(** [m.find(key)] *)
Fixpoint find_pmu (key : str) (m : RawPMUConfigs) : option RawPMUConfig :=
  match m with
  | [] => None
  | (k, c) :: m' => if bool_decide (k = key) then Some c else find_pmu key m'
  end.

(** [m[key] = f(m[key])], which creates the entry when it is missing. *)
Fixpoint update_pmu (key : str) (f : RawPMUConfig -> RawPMUConfig) (m : RawPMUConfigs) : RawPMUConfigs :=
  match m with
  | [] => [(key, f empty_config)]
  | (k, c) :: m' =>
      if bool_decide (k = key) then (k, f c) :: m'
      else if str_ltb key k then (key, f empty_config) :: m
      else (k, c) :: update_pmu key f m'
  end.

Definition push_event (fix_ : bool) (e : RawEventConfig) (c : RawPMUConfig) : RawPMUConfig :=
  if fix_ then MkRawPMUConfig (programmable c) (fixed c ++ [e])
  else MkRawPMUConfig (programmable c ++ [e]) (fixed c).

(** [MSRType] *)
Definition Static : Z := 0.
Definition Freerun : Z := 1.

(** * The telemetry database *)

Record PMTRecord := MkPMTRecord {
  uid : Z;
  fullName : str;
  sampleType : str;
  qWordOffset : Z;
  lsb : Z;
  msb : Z
}.

Definition tolower (c : ascii) : ascii := if in_range "A" "Z" c then byte (code c + 32) else c.
Definition to_lower (s : str) : str := map tolower s.

Definition occurs_in (s name : str) : bool := match index_of_sub name s with Some _ => true | None => false end.

Definition lookup_records (records : list PMTRecord) (name : str) : list PMTRecord :=
  filter (fun r => occurs_in (fullName r) name = true) records.

Definition ilookup_records (records : list PMTRecord) (name : str) : list PMTRecord :=
  filter (fun r => occurs_in (to_lower (fullName r)) (to_lower name) = true) records.

(** * One event *)

Inductive AddEventStatus := OK | Failed | FailedTooManyEvents.

(** [ServerUncoreCounterState::maxCounters] *)
Definition maxUncoreCounters : Z := 8.

Definition initCoreConfig : RawEventConfig := ([0; 0; 0; 2 ^ 64 - 1; 2 ^ 64 - 1; 0], []).

(** [stream >> setw(255) >> word] on a stream that does not skip white space, with [rest]
    left in it. *)
Fixpoint non_space (s : str) : str :=
  match s with c :: s' => if isspace c then [] else c :: non_space s' | [] => [] end.

Definition read_word (rest old : str) : bool * str :=
  match rest with
  | [] => (false, old)
  | _ => let w := take 255 (non_space rest) in (negb (bool_decide (w = [])), w)
  end.

Definition sscanf_word (item sname old : str) : bool * str :=
  match expect sname item with Some rest => read_word rest old | None => (false, old) end.

(** The numeric tokens and the element of the encoding each sets; [width] is another name
    of the last one. *)
Definition numeric_tokens : list (str * nat) :=
  [(lit "config=", 0%nat); (lit "config1=", 1%nat); (lit "config2=", 2%nat); (lit "config3=", 3%nat);
   (lit "config4=", 4%nat); (lit "config5=", 5%nat); (lit "width=", 5%nat)].

Fixpoint match_numbers (tokens : list (str * nat)) (item : str) (first : RawEventEncoding) : bool * RawEventEncoding :=
  match tokens with
  | [] => (false, first)
  | (name, i) :: tokens =>
      let '(ok, v) := match_token item name (default 0 (first !! i)) in
      let first := <[i := v]> first in
      if ok : bool then (true, first) else match_numbers tokens item first
  end.

(** The locals of [addEvent]. *)
Record event_scan := EventScan {
  es_config : RawEventConfig;
  es_fixed : bool;
  es_lookup : str
}.

Section AddEvent.
Context (records : list PMTRecord) (maxCustomCoreEvents : Z).

Definition tooManyEvents (pmuName : str) (event_pos : Z) : bool :=
  if isRegisterEvent pmuName then false
  else
    let maxCounters := if bool_decide (pmuName = lit "core") || bool_decide (pmuName = lit "atom")
                       then maxCustomCoreEvents else maxUncoreCounters in
    maxCounters <=? event_pos.

(** [pmtAddRecord]; [None] is [Failed]. *)
Definition pmtAddRecord (pmuName : str) (found : list PMTRecord) (first : bool) (config : RawEventConfig) : option RawEventConfig :=
  if bool_decide (pmuName = lit "pmt") then
    match found with
    | [] => None
    | r :: rest =>
        if negb (bool_decide (rest = [])) && negb first then None
        else
          let enc := <[0%nat := uid r]> (<[1%nat := qWordOffset r]>
                     (<[2%nat := if bool_decide (sampleType r = lit "Snapshot") then Static else Freerun]>
                     (<[3%nat := lsb r]> (<[4%nat := msb r]> config.1)))) in
          Some (enc, fullName r)
    end
  else Some config.

(** One token; [None] is [Failed]. *)
Definition process_item (pmuName : str) (st : event_scan) (item : str) : option event_scan :=
  let '(first, name) := es_config st in
  let '(ok, first) := match_numbers numeric_tokens item first in
  if ok : bool then Some (EventScan (first, name) (es_fixed st) (es_lookup st))
  else
    let '(ok, name) := sscanf_word item (lit "name=") name in
    if ok : bool then
      if check_for_injections name then None else Some (EventScan (first, name) (es_fixed st) (es_lookup st))
    else
      let add found only_first lookup :=
        option_map (fun c => EventScan c (es_fixed st) lookup) (pmtAddRecord pmuName found only_first (first, name)) in
      let '(ok, lookup) := sscanf_word item (lit "lookup=") (es_lookup st) in
      if ok : bool then add (lookup_records records lookup) false lookup
      else
        let '(ok, lookup) := sscanf_word item (lit "ilookup=") lookup in
        if ok : bool then add (ilookup_records records lookup) false lookup
        else
          let '(ok, lookup) := sscanf_word item (lit "lookupf=") lookup in
          if ok : bool then add (lookup_records records lookup) true lookup
          else
            let '(ok, lookup) := sscanf_word item (lit "ilookupf=") lookup in
            if ok : bool then add (ilookup_records records lookup) true lookup
            else if bool_decide (item = lit "fixed") then Some (EventScan (first, name) true lookup)
            else None.

Fixpoint process_items (pmuName : str) (st : event_scan) (items : list str) : option event_scan :=
  match items with
  | [] => Some st
  | item :: items => st ← process_item pmuName st item; process_items pmuName st items
  end.

(** The name of the unit and the configuration of a description that is not empty; [None]
    is [Failed]. *)
Definition parse_event (eventStr : str) : option (str * event_scan) :=
  match split eventStr "/" with
  | pmuName :: configStr :: _ =>
      let pmuName := match pmuName with [] => lit "core" | _ => pmuName end in
      match configStr with
      | [] => None
      | _ =>
          let config := if bool_decide (pmuName = lit "core") || bool_decide (pmuName = lit "atom")
                        then initCoreConfig else (replicate 6 0, []) in
          st ← process_items pmuName (EventScan config false []) (split configStr ",");
          Some (pmuName, st)
      end
  | _ => None
  end.

Definition addEvent (cur : RawPMUConfigs) (eventStr : str) : AddEventStatus * RawPMUConfigs :=
  match eventStr with
  | [] => (OK, cur)
  | _ =>
      match parse_event eventStr with
      | None => (Failed, cur)
      | Some (pmuName, st) =>
          if negb (es_fixed st) then
            let cur := update_pmu pmuName id cur in   (* [curPMUConfigs[pmuName]] *)
            let n := length (programmable (default empty_config (find_pmu pmuName cur))) in
            if tooManyEvents pmuName (Z.of_nat n) then (FailedTooManyEvents, cur)
            else (OK, update_pmu pmuName (push_event false (es_config st)) cur)
          else (OK, update_pmu pmuName (push_event true (es_config st)) cur)
      end
  end.

(** * The events of a file *)

(** The finished groups and the current one. *)
Definition groups : Type := list RawPMUConfigs * RawPMUConfigs.

Definition doFinishGroup (g : groups) : groups :=
  match g.2 with [] => g | _ => (g.1 ++ [g.2], []) end.

(** The line without its separator, and whether the separator ends the group. *)
Definition strip_separator (line : str) : str * bool :=
  match rev line with
  | "," :: l => (rev l, false)
  | ";" :: l => (rev l, true)
  | _ => (line, false)
  end.

(** One turn of the loop; [None] is [return false]. *)
Definition add_line (g : groups) (line : str) : option groups :=
  match line with
  | [] => Some g
  | c :: _ =>
      if Ascii.eqb c "#" then Some g
      else
        let '(line, finishGroup) := strip_separator line in
        let '(status, cur) := addEvent g.2 line in
        let g := (g.1, cur) in
        g ← (match status with
             | Failed => None
             | FailedTooManyEvents =>
                 let g := doFinishGroup g in
                 let '(status, cur) := addEvent g.2 line in
                 match status with OK => Some (g.1, cur) | _ => None end
             | OK => Some g
             end);
        Some (if finishGroup then doFinishGroup g else g)
  end.

Fixpoint add_lines (g : groups) (lines : list str) : option groups :=
  match lines with
  | [] => Some g
  | line :: lines => g ← add_line g line; add_lines g lines
  end.

(** [addEvents] for a file with the given contents, on an empty vector of groups. *)
Definition addEvents (contents : str) : option (list RawPMUConfigs) :=
  option_map (fun g => (doFinishGroup g).1) (add_lines ([], []) (split contents LF)).

End AddEvent.

(** * The map of configurations *)

Lemma str_ltb_irrefl a : str_ltb a a = false.
Proof. induction a as [|x a IH]; [done|]. simpl. by rewrite Z.ltb_irrefl, Z.eqb_refl, IH. Qed.

Lemma code_inj x y : code x = code y -> x = y.
Proof. intros E. by rewrite <- (byte_code x), E, byte_code. Qed.

Lemma str_ltb_trans a b c : str_ltb a b = true -> str_ltb b c = true -> str_ltb a c = true.
Proof.
  revert b c. induction a as [|x a IH]; intros [|y b] [|z c]; simpl; try done.
  rewrite !orb_true_iff, !andb_true_iff, !Z.ltb_lt, !Z.eqb_eq.
  intros [H1|[H1 H1']] [H2|[H2 H2']]; [left; lia..|]. right. split; [lia|by eapply IH].
Qed.

Lemma str_ltb_total a b : a <> b -> str_ltb a b = false -> str_ltb b a = true.
Proof.
  revert b. induction a as [|x a IH]; intros [|y b] Hne; simpl; try done.
  rewrite orb_false_iff, orb_true_iff, andb_true_iff, andb_false_iff, Z.ltb_ge, Z.ltb_lt, Z.eqb_neq, Z.eqb_eq.
  intros [H1 H2]. destruct (Z.eq_dec (code x) (code y)) as [E|]; [|lia]. right. split; [done|].
  destruct H2 as [H2|H2]; [done|]. apply IH; [|done]. intros ->. apply Hne. f_equal. by apply code_inj.
Qed.

Definition sorted_keys : RawPMUConfigs -> Prop := StronglySorted (fun a b => str_ltb a.1 b.1 = true).

Lemma find_pmu_None key m : Forall (fun e => str_ltb key e.1 = true) m -> find_pmu key m = None.
Proof.
  induction 1 as [|[k c] m Hk _ IH]; [done|]. simpl in *. rewrite bool_decide_eq_false_2; [done|].
  intros ->. by rewrite str_ltb_irrefl in Hk.
Qed.

Lemma find_update_same key f m : sorted_keys m -> find_pmu key (update_pmu key f m) = Some (f (default empty_config (find_pmu key m))).
Proof.
  induction 1 as [|[k c] m Hs IH Hk]; simpl; [by rewrite bool_decide_eq_true_2|].
  destruct (bool_decide_reflect (k = key)) as [->|Hne]; simpl; [by rewrite bool_decide_eq_true_2|].
  destruct (str_ltb key k) eqn:E; simpl.
  - rewrite bool_decide_eq_true_2, find_pmu_None by done || (eapply Forall_impl; [exact Hk|]; intros e He; by eapply str_ltb_trans). done.
  - by rewrite bool_decide_eq_false_2, IH.
Qed.

Lemma find_update_other key k' f m : k' <> key -> find_pmu k' (update_pmu key f m) = find_pmu k' m.
Proof.
  intros Hne. assert (Hb : bool_decide (key = k') = false) by (apply bool_decide_eq_false_2; congruence).
  induction m as [|[k c] m IH]; simpl; [by rewrite Hb|].
  destruct (bool_decide_reflect (k = key)) as [->|]; simpl; [by rewrite Hb|].
  destruct (str_ltb key k); simpl; [by rewrite Hb|by rewrite IH].
Qed.

Lemma update_pmu_keys P key f m : P key -> Forall (fun e => P e.1) m -> Forall (fun e => P e.1) (update_pmu key f m).
Proof.
  intros Hp. induction 1 as [|[k c] m Hk Hm IH]; simpl; [by repeat constructor|].
  destruct (bool_decide _); [by constructor|]. destruct (str_ltb key k); by repeat constructor.
Qed.

Lemma update_pmu_sorted key f m : sorted_keys m -> sorted_keys (update_pmu key f m).
Proof.
  induction 1 as [|[k c] m Hs IH Hk]; simpl; [by repeat constructor|].
  destruct (bool_decide_reflect (k = key)) as [->|Hne]; [by constructor|].
  destruct (str_ltb key k) eqn:E.
  - constructor; [by constructor|]. constructor; [done|]. eapply Forall_impl; [exact Hk|]. intros e He. by eapply str_ltb_trans.
  - constructor; [done|]. apply (update_pmu_keys (fun k' => str_ltb k k' = true)); [|done]. by apply str_ltb_total.
Qed.

Lemma update_pmu_id key c m : find_pmu key m = Some c -> sorted_keys m -> update_pmu key id m = m.
Proof.
  intros Hf Hs. revert Hf. induction Hs as [|[k c'] m Hs IH Hk]; simpl; [done|].
  destruct (bool_decide_reflect (k = key)) as [->|Hne]; [done|]. intros Hf.
  destruct (str_ltb key k) eqn:E; [|by rewrite IH].
  rewrite find_pmu_None in Hf; [done|]. eapply Forall_impl; [exact Hk|]. intros e He. by eapply str_ltb_trans.
Qed.

Lemma update_pmu_touched key f m : update_pmu key f (update_pmu key id m) = update_pmu key f m.
Proof.
  induction m as [|[k c] m IH]; simpl; [by rewrite bool_decide_eq_true_2|].
  destruct (bool_decide_reflect (k = key)) as [->|Hne]; simpl; [by rewrite bool_decide_eq_true_2|].
  destruct (str_ltb key k) eqn:E; simpl; [by rewrite bool_decide_eq_true_2|].
  by rewrite bool_decide_eq_false_2, E, IH.
Qed.

(** * Groups *)

(** The events of a unit in a group. *)
Definition events_of (fx : bool) (pmu : str) (m : RawPMUConfigs) : list RawEventConfig :=
  let c := default empty_config (find_pmu pmu m) in if fx then fixed c else programmable c.

Lemma events_of_push fx cfg pmu m fx' pmu' : sorted_keys m ->
  events_of fx' pmu' (update_pmu pmu (push_event fx cfg) m) =
  events_of fx' pmu' m ++ (if bool_decide ((pmu', fx') = (pmu, fx)) then [cfg] else []).
Proof.
  intros Hs. unfold events_of. destruct (decide (pmu' = pmu)) as [->|Hne].
  - rewrite find_update_same by done. destruct fx, fx'; simpl;
      [by rewrite bool_decide_eq_true_2|by rewrite bool_decide_eq_false_2, app_nil_r|
       by rewrite bool_decide_eq_false_2, app_nil_r|by rewrite bool_decide_eq_true_2].
  - by rewrite find_update_other, bool_decide_eq_false_2, app_nil_r by congruence.
Qed.

Section Groups.
Context (records : list PMTRecord) (maxCustomCoreEvents : Z) (Hmax : 1 <= maxCustomCoreEvents).

(** The limit of [tooManyEvents] for a unit that is not one of registers. *)
Definition tooManyEvents_limit (pmu : str) : Z :=
  if bool_decide (pmu = lit "core") || bool_decide (pmu = lit "atom") then maxCustomCoreEvents else maxUncoreCounters.

(** No entry is empty, and no unit has more events than [tooManyEvents] allows. *)
Record group_ok (m : RawPMUConfigs) : Prop := GroupOk {
  keys_sorted : sorted_keys m;
  no_empty_entry : Forall (fun e => programmable e.2 <> [] \/ fixed e.2 <> []) m;
  within_counters : forall pmu, isRegisterEvent pmu = false ->
    Z.of_nat (length (events_of false pmu m)) <= tooManyEvents_limit pmu
}.

Lemma push_event_nonempty fx cfg pmu m :
  Forall (fun e => programmable e.2 <> [] \/ fixed e.2 <> []) m ->
  Forall (fun e => programmable e.2 <> [] \/ fixed e.2 <> []) (update_pmu pmu (push_event fx cfg) m).
Proof.
  assert (Hp : forall c, programmable (push_event fx cfg c) <> [] \/ fixed (push_event fx cfg c) <> []).
  { intros c. destruct fx; simpl; [right|left]; by destruct (_ c). }
  induction 1 as [|[k c] m Hk Hm IH]; cbn [update_pmu]; [constructor; [apply Hp|constructor]|].
  destruct (bool_decide _); [constructor; [apply Hp|done]|].
  destruct (str_ltb pmu k); [constructor; [apply Hp|by constructor]|by constructor].
Qed.

Lemma group_ok_nil : group_ok [].
Proof.
  split; [constructor|constructor|]. intros pmu _. simpl. unfold tooManyEvents_limit, maxUncoreCounters.
  destruct (_ || _); lia.
Qed.

(** Adding an event to a group that has room for it. *)
Lemma group_ok_push fx cfg pmu m : group_ok m ->
  fx = true \/ tooManyEvents maxCustomCoreEvents pmu (Z.of_nat (length (events_of false pmu m))) = false ->
  group_ok (update_pmu pmu (push_event fx cfg) m).
Proof.
  intros [Hs Hn Hw] Hroom. split; [by apply update_pmu_sorted|by apply push_event_nonempty|].
  intros pmu' Hr. rewrite events_of_push, length_app by done. specialize (Hw pmu' Hr).
  destruct (bool_decide_reflect ((pmu', false) = (pmu, fx))) as [[= -> <-]|]; cbn [length]; [|lia].
  destruct Hroom as [|Hroom]; [done|]. unfold tooManyEvents in Hroom. rewrite Hr in Hroom. unfold tooManyEvents_limit.
  apply Z.leb_gt in Hroom. lia.
Qed.

(** What [addEvent] does with a description that is parsed. *)
Lemma addEvent_parsed m s pmu st : group_ok m -> s <> [] -> parse_event records s = Some (pmu, st) ->
  (addEvent records maxCustomCoreEvents m s = (OK, update_pmu pmu (push_event (es_fixed st) (es_config st)) m) /\
   group_ok (update_pmu pmu (push_event (es_fixed st) (es_config st)) m)) \/
  (addEvent records maxCustomCoreEvents m s = (FailedTooManyEvents, m) /\ m <> []).
Proof.
  intros Hok Hs Hp. pose proof Hok as [Hsort _ _]. unfold addEvent. rewrite Hp. destruct s as [|c s]; [done|].
  destruct (es_fixed st) eqn:Hfx; cbn [negb].
  { left. split; [done|]. apply group_ok_push; [done|by left]. }
  rewrite find_update_same by done. cbn [default id from_option].
  destruct (tooManyEvents maxCustomCoreEvents pmu (Z.of_nat (length (programmable (default empty_config (find_pmu pmu m)))))) eqn:Htm.
  - right. destruct (find_pmu pmu m) as [c'|] eqn:Hf.
    + rewrite (update_pmu_id pmu c') by done. split; [done|]. by intros ->.
    + exfalso. change (length _) with 0%nat in Htm. unfold tooManyEvents, maxUncoreCounters in Htm.
      destruct (isRegisterEvent pmu); [done|]. apply Z.leb_le in Htm. destruct (_ || _); lia.
  - left. split; [|apply group_ok_push; [done|by right]].
    by rewrite update_pmu_touched.
Qed.

(** The event of a line: none for an empty line or a comment; [None] when it is not
    understood. *)
Definition line_event (line : str) : option (option (str * bool * RawEventConfig)) :=
  match line with
  | [] => Some None
  | c :: _ =>
      if Ascii.eqb c "#" then Some None
      else match (strip_separator line).1 with
           | [] => Some None
           | s => option_map (fun r => Some (r.1, es_fixed r.2, es_config r.2)) (parse_event records s)
           end
  end.

(** The events of a unit in all groups, in order. *)
Definition all_events (fx : bool) (pmu : str) (g : groups) : list RawEventConfig :=
  concat (map (events_of fx pmu) g.1) ++ events_of fx pmu g.2.

Record groups_ok (g : groups) : Prop := GroupsOk {
  finished_ok : Forall (fun m => group_ok m /\ m <> []) g.1;
  current_ok : group_ok g.2
}.

Lemma groups_ok_nil : groups_ok ([], []).
Proof. split; [constructor|apply group_ok_nil]. Qed.

Lemma doFinishGroup_spec g : groups_ok g ->
  groups_ok (doFinishGroup g) /\ (doFinishGroup g).2 = [] /\
  (forall fx pmu, all_events fx pmu (doFinishGroup g) = all_events fx pmu g).
Proof.
  destruct g as [all cur]. intros [Hf Hc]. unfold doFinishGroup. cbn [snd fst]. destruct cur as [|e cur]; [by split_and!|].
  split_and!; [|done|].
  - split; [|apply group_ok_nil]. apply Forall_app. split; [done|]. apply Forall_cons. split; [by split; [apply Hc|]|constructor].
  - intros fx pmu. unfold all_events. cbn [fst snd]. rewrite map_app, concat_app. cbn [map concat].
    rewrite (app_nil_r (events_of fx pmu (e :: cur))). replace (events_of fx pmu []) with (@nil RawEventConfig) by (by destruct fx).
    apply app_nil_r.
Qed.

Definition of_unit (fx : bool) (pmu : str) (e : str * bool * RawEventConfig) : list RawEventConfig :=
  if bool_decide ((pmu, fx) = e.1) then [e.2] else [].

(** Adding the event of a line. *)
Lemma add_event_line g s pmu st : groups_ok g -> s <> [] -> parse_event records s = Some (pmu, st) ->
  exists g', (let '(status, cur) := addEvent records maxCustomCoreEvents g.2 s in
     match status with
     | Failed => None
     | FailedTooManyEvents =>
         let g' := doFinishGroup (g.1, cur) in
         let '(status, cur) := addEvent records maxCustomCoreEvents g'.2 s in
         match status with OK => Some (g'.1, cur) | _ => None end
     | OK => Some (g.1, cur)
     end) = Some g' /\ groups_ok g' /\
    forall fx p, all_events fx p g' = all_events fx p g ++ of_unit fx p (pmu, es_fixed st, es_config st).
Proof.
  intros Hok Hs Hp. pose proof Hok as [Hf Hc].
  assert (Hpush : forall all cur, groups_ok (all, cur) -> forall fx p,
    all_events fx p (all, update_pmu pmu (push_event (es_fixed st) (es_config st)) cur) =
    all_events fx p (all, cur) ++ of_unit fx p (pmu, es_fixed st, es_config st)).
  { intros all cur [_ [Hsort _ _]] fx p. unfold all_events, of_unit. cbn [fst snd] in *. by rewrite events_of_push, (assoc_L (++)). }
  destruct (addEvent_parsed g.2 s pmu st Hc Hs Hp) as [[E Hg]|[E Hne]]; rewrite E.
  - eexists. split; [done|]. split; [by split|]. destruct g. by apply Hpush.
  - destruct g as [all cur]. cbn [fst snd] in *. destruct (doFinishGroup_spec (all, cur) Hok) as (Hok' & Hnil & Hev).
    destruct (doFinishGroup (all, cur)) as [all' cur']. cbn [fst snd] in *. subst cur'.
    destruct (addEvent_parsed [] s pmu st group_ok_nil Hs Hp) as [[E' Hg]|[E' Hbad]]; [|done]. rewrite E'.
    eexists. split; [done|]. split; [split; [apply Hok'|done]|]. intros fx p. rewrite <- Hev. by apply Hpush.
Qed.

Lemma add_line_spec g line : groups_ok g ->
  match line_event line with
  | None => add_line records maxCustomCoreEvents g line = None
  | Some e => exists g', add_line records maxCustomCoreEvents g line = Some g' /\ groups_ok g' /\
      forall fx p, all_events fx p g' = all_events fx p g ++ from_option (of_unit fx p) [] e
  end.
Proof.
  intros Hok. unfold line_event, add_line. destruct line as [|c l]; [exists g; by split_and!; [..|intros; rewrite app_nil_r]|].
  destruct (Ascii.eqb c "#"); [exists g; by split_and!; [..|intros; rewrite app_nil_r]|].
  destruct (strip_separator (c :: l)) as [s fin]. cbn [fst].
  assert (Hfin : forall g', groups_ok g' -> exists g'', Some (if fin then doFinishGroup g' else g') = Some g'' /\ groups_ok g'' /\
    forall fx p, all_events fx p g'' = all_events fx p g').
  { intros g' Hg'. destruct (doFinishGroup_spec g' Hg') as (H1 & _ & H3). destruct fin; eauto 10. }
  destruct s as [|c' s].
  - destruct g as [all cur]. cbn [addEvent snd fst mbind option_bind]. destruct (Hfin (all, cur) Hok) as (g'' & -> & Hg & Hev).
    exists g''. split_and!; [done..|]. intros fx p. rewrite app_nil_r. apply Hev.
  - destruct (parse_event records (c' :: s)) as [[pmu st]|] eqn:Hp; cbn [option_map fst snd].
    + destruct (add_event_line g (c' :: s) pmu st Hok) as (g' & E & Hg' & Hev); [done..|].
      destruct (Hfin g' Hg') as (g'' & E2 & Hg'' & Hev2). exists g''. split_and!; [|done|intros fx p; by rewrite Hev2, Hev].
      destruct (addEvent _ _ g.2 _) as [status cur]. cbn [fst snd] in *.
      exact (eq_trans (f_equal (fun o : option groups => o ≫= fun g0 => Some (if fin then doFinishGroup g0 else g0)) E) E2).
    + unfold addEvent. rewrite Hp. done.
Qed.

Lemma add_lines_spec g lines : groups_ok g ->
  match mapM line_event lines with
  | None => add_lines records maxCustomCoreEvents g lines = None
  | Some l => exists g', add_lines records maxCustomCoreEvents g lines = Some g' /\ groups_ok g' /\
      forall fx p, all_events fx p g' = all_events fx p g ++ concat (map (of_unit fx p) (omap id l))
  end.
Proof.
  revert g. induction lines as [|line lines IH]; intros g Hok; simpl.
  { exists g. split_and!; [done..|]. intros. by rewrite app_nil_r. }
  pose proof (add_line_spec g line Hok) as Hl. destruct (line_event line) as [e|]; simpl; [|by rewrite Hl].
  destruct Hl as (g1 & -> & Hok1 & Hev1). specialize (IH g1 Hok1). simpl. destruct (mapM line_event lines) as [l|]; simpl; [|done].
  destruct IH as (g2 & -> & Hok2 & Hev2). exists g2. split_and!; [done..|]. intros fx p. rewrite Hev2, Hev1, <- (assoc_L (++)).
  f_equal. by destruct e.
Qed.

End Groups.

Lemma accepted_groups_ok records maxCustomCoreEvents contents gs : 1 <= maxCustomCoreEvents ->
  addEvents records maxCustomCoreEvents contents = Some gs -> Forall (fun m => group_ok maxCustomCoreEvents m /\ m <> []) gs.
Proof.
  intros Hmax. pose proof (add_lines_spec records _ Hmax ([], []) (split contents LF) (groups_ok_nil _ Hmax)) as H. unfold addEvents.
  destruct (mapM _ _) as [l|]; [|by rewrite H]. destruct H as (g & -> & Hok & _). intros [= <-].
  by destruct (doFinishGroup_spec _ Hmax g Hok) as ([Hf _] & _).
Qed.




(** * Printed events *)

Definition print_tokens (enc : RawEventEncoding) (name : str) (fx : bool) : list str :=
  imap (fun i v => lit "config" ++ (match i with O => [] | _ => to_string (Z.of_nat i) end) ++ lit "=0x" ++ to_hex v) enc ++
  [lit "name=" ++ name] ++ (if fx then [lit "fixed"] else []).

Definition print_event (pmu : str) (enc : RawEventEncoding) (name : str) (fx : bool) : str :=
  pmu ++ lit "/" ++ join "," (print_tokens enc name fx) ++ lit "/".

(** Names that a description can carry. *)
Definition name_ok (name : str) : Prop :=
  name <> [] /\ (length name <= 255)%nat /\ forallb (fun c => negb (isspace c)) name = true /\
  lacks "," name = true /\ lacks "/" name = true /\ check_for_injections name = false.

Lemma non_space_all s : forallb (fun c => negb (isspace c)) s = true -> non_space s = s.
Proof.
  induction s as [|c s IH]; [done|]. simpl. rewrite andb_true_iff, negb_true_iff. intros [-> Hs]. by rewrite IH.
Qed.

Lemma read_word_name name old : name_ok name -> read_word name old = (true, name).
Proof.
  intros (Hne & Hl & Hs & _). unfold read_word. destruct name as [|c s] eqn:E; [done|]. rewrite <- E in *.
  rewrite non_space_all, take_ge, bool_decide_eq_false_2 by (done || lia). done.
Qed.

(** The token of the number [i] sets element [i]. *)
Lemma match_config i v (first : RawEventEncoding) : (i < 6)%nat -> length first = 6%nat -> fits 64 v ->
  match_numbers numeric_tokens
    (lit "config" ++ (match i with O => [] | _ => to_string (Z.of_nat i) end) ++ lit "=0x" ++ to_hex v) first = (true, <[i := v]> first).
Proof.
  intros Hi Hl Hv. assert (Hid : forall j, <[j := default 0 (first !! j)]> first = first).
  { intros j. destruct (first !! j) as [x|] eqn:E; [by apply list_insert_id|]. apply list_insert_ge. by apply lookup_ge_None. }
  assert (Hyes : forall name r, match_token (name ++ lit "0x" ++ to_hex v) name r = (true, v)) by (intros; by apply match_reads_number).
  assert (Hno : forall name s r, starts_with name s = false -> match_token s name r = (false, r)) by (intros name s r; by apply (match_reads_number name 0 r)).
  destruct i as [|[|[|[|[|[|]]]]]]; [..|lia]; unfold numeric_tokens; cbn [match_numbers];
    repeat (rewrite Hno by reflexivity; cbv iota beta; rewrite Hid);
    match goal with |- context [match_token ?s ?name ?r] => change s with (name ++ lit "0x" ++ to_hex v) end; by rewrite Hyes.
Qed.

Section Printed.
Context (records : list PMTRecord).

Lemma process_config pmu i v first name fx lookup : (i < 6)%nat -> length first = 6%nat -> fits 64 v ->
  process_item records pmu (EventScan (first, name) fx lookup)
    (lit "config" ++ (match i with O => [] | _ => to_string (Z.of_nat i) end) ++ lit "=0x" ++ to_hex v) =
  Some (EventScan (<[i := v]> first, name) fx lookup).
Proof. intros Hi Hl Hv. unfold process_item. cbn [es_config es_fixed es_lookup]. by rewrite match_config. Qed.

(** The tokens of the elements from the [k]th on replace them. *)
Lemma process_configs pmu k enc first name fx lookup rest : (k + length enc <= 6)%nat -> length first = 6%nat ->
  Forall (fits 64) enc ->
  process_items records pmu (EventScan (first, name) fx lookup)
    (imap (fun i v => lit "config" ++ (match (k + i)%nat with O => [] | _ => to_string (Z.of_nat (k + i)) end) ++ lit "=0x" ++ to_hex v) enc ++ rest) =
  process_items records pmu (EventScan (take k first ++ enc ++ drop (k + length enc) first, name) fx lookup) rest.
Proof.
  revert k first. induction enc as [|v enc IH]; intros k first Hk Hl Hf.
  { rewrite Nat.add_0_r. cbn [app imap]. by rewrite take_drop. }
  apply Forall_cons in Hf as [Hv Hf]. cbn [length] in Hk. cbn [imap app process_items]. rewrite Nat.add_0_r, process_config by (done || lia).
  cbn [mbind option_bind].
  rewrite (imap_ext _ (fun i v => lit "config" ++ (match (S k + i)%nat with O => [] | _ => to_string (Z.of_nat (S k + i)) end) ++ lit "=0x" ++ to_hex v)).
  2: { intros i x _. unfold compose. by replace (k + S i)%nat with (S k + i)%nat by lia. }
  rewrite (IH (S k)) by (rewrite ?length_insert; done || lia). do 3 f_equal.
  rewrite drop_insert_lt by lia. rewrite (take_S_r _ k v) by (apply list_lookup_insert_eq; lia).
  rewrite take_insert_ge by lia. rewrite <- (assoc_L (++)). cbn [app length].
  by replace (k + S (length enc))%nat with (S k + length enc)%nat by lia.
Qed.

Lemma process_name pmu first name old fx lookup : length first = 6%nat -> name_ok name ->
  process_item records pmu (EventScan (first, old) fx lookup) (lit "name=" ++ name) = Some (EventScan (first, name) fx lookup).
Proof.
  intros Hl Hn. unfold process_item. cbn [es_config es_fixed es_lookup].
  assert (Hno : forall nm s r, starts_with nm s = false -> match_token s nm r = (false, r)) by (intros nm s r; by apply (match_reads_number nm 0 r)).
  assert (E : match_numbers numeric_tokens (lit "name=" ++ name) first = (false, first)).
  { unfold numeric_tokens. cbn [match_numbers]. repeat (rewrite Hno by reflexivity; cbv iota beta).
    repeat match goal with |- context [<[?j := default 0 (first !! ?j)]> first] =>
      replace (<[j := default 0 (first !! j)]> first) with first by
        (destruct (first !! j) as [x|] eqn:E; [symmetry; by apply list_insert_id|symmetry; apply list_insert_ge; by apply lookup_ge_None]) end.
    done. }
  rewrite E. cbv iota beta. unfold sscanf_word at 1. rewrite expect_app, read_word_name by done.
  by destruct Hn as (_ & _ & _ & _ & _ & ->).
Qed.

Lemma process_fixed pmu cfg fx lookup : length cfg.1 = 6%nat ->
  process_item records pmu (EventScan cfg fx lookup) (lit "fixed") = Some (EventScan cfg true lookup).
Proof.
  destruct cfg as [first name]. cbn [fst]. intros Hl. do 7 (destruct first as [|? first]; try done).
Qed.

(** The tokens of an event consist of letters, digits and the characters of its name. *)
Lemma tokens_lack c enc name fx : (length enc <= 6)%nat -> Forall (fits 64) enc -> lacks c name = true ->
  is_digit_of 16 c = false -> lacks c (lit "config5=0xname=fixed") = true -> forallb (lacks c) (print_tokens enc name fx) = true.
Proof.
  intros Hl Henc Hname Hc Hlit. unfold print_tokens. rewrite !forallb_app, !andb_true_iff.
  assert (Hd : isdigit c = false) by (destruct (isdigit c) eqn:E; [apply isdigit_of_16 in E; congruence|done]).
  assert (Hsub : forall s, (forall x, In x s -> In x (lit "config5=0xname=fixed")) -> lacks c s = true).
  { intros s Hs. unfold lacks in *. rewrite forallb_forall in *. auto. }
  split_and!.
  - rewrite forallb_forall. intros tok Htok%list_elem_of_In. apply list_elem_of_lookup in Htok as (i & Htok).
    rewrite list_lookup_imap in Htok. apply fmap_Some_1 in Htok as (v & Hv & ->).
    assert (Hfv : fits 64 v) by (by eapply (proj1 (Forall_lookup _ _) Henc)).
    rewrite !lacks_app, !andb_true_iff. split_and!; [by apply Hsub; vm_compute; tauto| |by apply Hsub; vm_compute; tauto|by apply hex_lacks].
    destruct i; [done|]. apply to_string_lacks; [|done]. apply lookup_lt_Some in Hv. unfold fits. lia.
  - cbn [forallb]. rewrite andb_true_r, lacks_app, Hname, andb_true_r. apply Hsub. vm_compute. tauto.
  - destruct fx; cbn [forallb]; [|done]. rewrite andb_true_r. apply Hsub. vm_compute. tauto.
Qed.

Definition event_ok (e : str * RawEventEncoding * str * bool) : Prop :=
  let '(pmu, enc, name, fx) := e in
  pmu <> [] /\ lacks "/" pmu = true /\ lacks LF pmu = true /\ front pmu <> "#" /\ length enc = 6%nat /\ Forall (fits 64) enc /\ name_ok name.

Lemma parse_print_event pmu enc name fx : event_ok (pmu, enc, name, fx) ->
  parse_event records (print_event pmu enc name fx) = Some (pmu, EventScan (enc, name) fx []).
Proof.
  intros (Hp & Hps & _ & _ & Hl & Henc & Hn). pose proof Hn as (Hne & _ & _ & Hcomma & Hslash & _).
  assert (Hj : lacks "/" (join "," (print_tokens enc name fx)) = true).
  { pose proof (tokens_lack "/" enc name fx ltac:(lia) Henc Hslash eq_refl eq_refl) as H. revert H. generalize (print_tokens enc name fx).
    intros l. induction l as [|a [|b l] IH]; [done|simpl; by rewrite andb_true_r|]. intros H. cbn [forallb] in H. apply andb_true_iff in H as [Ha H].
    cbn [join]. rewrite lacks_app, Ha, lacks_cons. by apply IH. }
  unfold parse_event, print_event, split at 1.
  change (pmu ++ lit "/" ++ ?s ++ lit "/") with (pmu ++ "/" :: s ++ ["/"]).
  rewrite !pieces_app, (pieces_single _ []) by done.
  change (bool_decide (last [pmu; join "," (print_tokens enc name fx); []] = Some [])) with true. cbn [removelast].
  destruct pmu as [|c pmu']; [done|]. remember (c :: pmu') as pmu eqn:E. clear E c pmu'.
  assert (Htok : exists t l, print_tokens enc name fx = t :: l /\ t <> []).
  { destruct enc as [|v enc]; [done|]. eexists _, _. split; [reflexivity|done]. }
  destruct (join "," (print_tokens enc name fx)) as [|c s] eqn:Ej.
  { exfalso. destruct Htok as (tk & l & E & Ht). rewrite E in Ej. destruct tk; [done|]. by destruct l. }
  rewrite <- Ej, split_join.
  - set (cfg := if _ || _ then _ else _). assert (Hcfg : length cfg.1 = 6%nat) by (unfold cfg; by destruct (_ || _)).
    destruct cfg as [first old]. unfold print_tokens. cbn [fst] in Hcfg.
    rewrite (process_configs pmu 0 enc first) by (done || lia). cbn [take app process_items].
    rewrite drop_ge, app_nil_r, process_name by (done || lia). cbn [mbind option_bind].
    destruct fx; cbn [process_items]; [|done]. by rewrite process_fixed.
  - by destruct Htok as (? & ? & -> & _).
  - unfold print_tokens. rewrite (assoc_L (++)), last_app. destruct fx; [done|]. cbn [last app].
    rewrite last_app. cbn [last]. by destruct name.
  - by apply tokens_lack; [lia|..].
Qed.

End Printed.

Definition print_file (evs : list (str * RawEventEncoding * str * bool)) : str :=
  concat (map (fun l => l ++ [LF]) (map (fun '(pmu, enc, name, fx) => print_event pmu enc name fx) evs)).

Lemma printed_line records e : event_ok e ->
  let '(pmu, enc, name, fx) := e in
  lacks LF (print_event pmu enc name fx) = true /\ line_event records (print_event pmu enc name fx) = Some (Some (pmu, fx, (enc, name))).
Proof.
  destruct e as [[[pmu enc] name] fx]. intros He. pose proof He as (Hp & _ & Hlf & Hc & Hl & Henc & Hn).
  pose proof Hn as (_ & _ & Hs & _). split.
  - unfold print_event. rewrite !lacks_app, Hlf. cbn [lacks forallb lit String.list_ascii_of_string].
    assert (Hname : lacks LF name = true).
    { unfold lacks. rewrite forallb_forall in *. intros x Hx. specialize (Hs x Hx). apply negb_true_iff in Hs.
      apply negb_true_iff. destruct (Ascii.eqb_spec LF x) as [<-|]; done. }
    pose proof (tokens_lack LF enc name fx ltac:(lia) Henc Hname eq_refl eq_refl) as H. revert H. generalize (print_tokens enc name fx).
    intros l H. rewrite andb_true_l, andb_true_r. change (lacks LF (lit "/")) with true. rewrite andb_true_l.
    induction l as [|a [|b l] IH]; [done|simpl in H; by rewrite andb_true_r in H|]. cbn [forallb] in H. apply andb_true_iff in H as [Ha H].
    cbn [join]. rewrite lacks_app, Ha, lacks_cons. by apply IH.
  - unfold line_event. assert (Es : strip_separator (print_event pmu enc name fx) = (print_event pmu enc name fx, false)).
    { unfold strip_separator, print_event. by rewrite !rev_app_distr. }
    pose proof (parse_print_event records pmu enc name fx He) as Hparse. rewrite Es. cbn [fst].
    destruct pmu as [|c pmu]; [done|]. simpl in Hc. destruct (print_event (c :: pmu) enc name fx) as [|c' s] eqn:E; [done|].
    assert (c' = c) as -> by (cbn in E; by injection E). destruct (Ascii.eqb_spec c "#"); [done|]. by rewrite Hparse.
Qed.

(** C27. A file of events written one to a line is read back: [addEvents] succeeds and its
    groups contain, for every unit and in the order of the file, exactly the events that were
    printed, with all six numbers and the name. *)
Theorem events_file_roundtrip records maxCustomCoreEvents evs : 1 <= maxCustomCoreEvents -> Forall event_ok evs ->
  exists gs, addEvents records maxCustomCoreEvents (print_file evs) = Some gs /\
    forall fx pmu, concat (map (events_of fx pmu) gs) =
      omap (fun '(pmu', enc, name, fx') => if bool_decide ((pmu, fx) = (pmu', fx')) then Some (enc, name) else None) evs.
Proof.
  intros Hmax Hok. pose proof (add_lines_spec records _ Hmax ([], []) (split (print_file evs) LF) (groups_ok_nil _ Hmax)) as H.
  unfold print_file in H. rewrite split_lines in H.
  2: { apply forallb_forall. intros l Hl%list_elem_of_In. apply list_elem_of_fmap in Hl as (e & -> & He).
       pose proof (printed_line records e (proj1 (Forall_forall _ _) Hok e He)). destruct e as [[[? ?] ?] ?]. tauto. }
  assert (E : mapM (line_event records) (map (fun '(pmu, enc, name, fx) => print_event pmu enc name fx) evs) =
    Some (map (fun '(pmu, enc, name, fx) => Some (pmu, fx, (enc, name))) evs)).
  { clear H. induction Hok as [|e evs He _ IH]; [done|]. pose proof (printed_line records e He) as Hp. cbn [map mapM].
    destruct e as [[[pmu enc] name] fx]. destruct Hp as [_ ->]. simpl. by rewrite IH. }
  rewrite E in H. destruct H as (g & Hg & Hgok & Hev). unfold addEvents.
  destruct (doFinishGroup_spec _ Hmax g Hgok) as (_ & Hnil & Hfin).
  exists (doFinishGroup g).1. unfold print_file. rewrite split_lines, Hg.
  - split; [done|]. intros fx pmu. specialize (Hfin fx pmu). rewrite Hev in Hfin. unfold all_events at 1 in Hfin. rewrite Hnil in Hfin.
    replace (events_of fx pmu []) with (@nil RawEventConfig) in Hfin by (by destruct fx). rewrite app_nil_r in Hfin.
    rewrite Hfin. unfold all_events. cbn [fst snd]. replace (events_of fx pmu ([] : RawPMUConfigs)) with (@nil RawEventConfig) by (by destruct fx).
    cbn [fst snd map concat app]. clear. induction evs as [|[[[pmu' enc] name] fx'] evs IH]; [done|]. simpl. unfold of_unit at 1.
    cbn [fst snd]. unfold omap in IH. destruct (bool_decide _); cbn [app]; by rewrite IH.
  - apply forallb_forall. intros l Hl%list_elem_of_In. apply list_elem_of_fmap in Hl as (e & -> & He).
    pose proof (printed_line records e (proj1 (Forall_forall _ _) Hok e He)). destruct e as [[[? ?] ?] ?]. tauto.
Qed.

Definition example_events : list (str * RawEventEncoding * str * bool) :=
  [(lit "core", [0x30203; 1; 2; 3; 4; 5], lit "LD_BLOCKS", false); (lit "imc", [0xF04; 0; 0; 0; 0; 0], lit "CAS.RD", false);
   (lit "core", [0x333; 0; 0; 0; 0; 2 ^ 64 - 1], lit "F", true)].

Lemma events_file_roundtrip_witness :
  exists gs, addEvents [] 4 (print_file example_events) = Some gs /\
    concat (map (events_of true (lit "core")) gs) = [([0x333; 0; 0; 0; 0; 2 ^ 64 - 1], lit "F")].
Proof.
  destruct (events_file_roundtrip [] 4 example_events) as (gs & E & Hev); [lia| |].
  - apply Forall_forall. intros e He%list_elem_of_In. simpl in He.
    repeat (destruct He as [<-|He]; [unfold event_ok, name_ok; split_and!; (reflexivity || done || (simpl; lia) || (apply (bool_decide_unpack _); vm_compute; exact I))|]).
    destruct He.
  - exists gs. split; [exact E|]. rewrite Hev. reflexivity.
Defined.
