(* ===== verification/RawProgram.v ===== *)
(** Programming and reading of the events of [pcm-raw]: [PCM::program] for groups of raw
    events, [readMSRs], [readPCICFGRegisters], [readTPMIRegisters], [readMMIORegisters],
    [readPMTRegisters] ([src/src/cpucounters.cpp]) and the getters of register events
    ([src/src/cpucounters.h]).

    The list of PCI devices, the TPMI instances that [Discovery] finds (the handles of the
    Linux TPMI driver are left out) and the telemetry files are arguments. *)

From S2P Require Import Prelude Bits CxxString StrUtils WidthExtender CpuModels Capabilities Registers UncorePMU CounterState.
From S2P Require Import ServerUncore CorePMU PcmUncore Discovery ServerMetrics UncoreInit UncoreCommands RawEvents.
Local Open Scope Z_scope.

(** * State *)

(** The positions in an encoding ([PCICFGEventPosition], [MMIOEventPosition],
    [TPMIEventPosition], [PMTEventPosition], [MSREventPosition]). *)
Definition deviceID : nat := 0.
Definition offset_pos : nat := 1.
Definition type_pos : nat := 2.
Definition membar_bits1 : nat := 3.
Definition membar_bits2 : nat := 4.
Definition width_pos : nat := 5.
Definition lsb_pos : nat := 3.
Definition msb_pos : nat := 4.

(** An element of an encoding, which has six. *)
Definition at_pos (e : RawEventEncoding) (i : nat) : Z := nth i e 0.

(** What the maps of register locations and values distinguish: [PCICFGRegisterEncodingCmp],
    [MMIORegisterEncodingCmp], [TPMIRegisterEncodingCmp], [PMTRegisterEncodingCmp]. *)
Definition PCICFG_key (e : RawEventEncoding) : list Z := [at_pos e deviceID; at_pos e offset_pos; at_pos e width_pos].
Definition MMIO_key (e : RawEventEncoding) : list Z :=
  PCICFG_key e ++ [at_pos e membar_bits1; at_pos e membar_bits2].
Definition TPMI_key (e : RawEventEncoding) : list Z := [at_pos e 0; at_pos e 1].
Definition PMT_key (e : RawEventEncoding) : list Z := [at_pos e 0].

(** The members of [PCM] that raw events use. A PCI register is a handle and an offset, a
    memory-mapped one a page and an offset, a telemetry array its identifier and instance. *)
Record raw_pcm := RawPcm {
  rp_core : core_pmu;
  rp_uncore : pcm_uncore;
  threadMSRConfig : RawPMUConfig;
  packageMSRConfig : RawPMUConfig;
  pcicfgConfig : RawPMUConfig;
  mmioConfig : RawPMUConfig;
  pmtConfig : RawPMUConfig;
  tpmiConfig : RawPMUConfig;
  PCICFGRegisterLocations : gmap (list Z) (list (Z * Z));
  MMIORegisterLocations : gmap (list Z) (list (Z * Z));
  TPMIRegisterLocations : gmap (list Z) (list TPMIHandle);
  PMTRegisterLocations : gmap (list Z) (list (Z * nat))
}.

Definition with_pcicfg c l s := RawPcm (rp_core s) (rp_uncore s) (threadMSRConfig s) (packageMSRConfig s) c (mmioConfig s) (pmtConfig s) (tpmiConfig s) l (MMIORegisterLocations s) (TPMIRegisterLocations s) (PMTRegisterLocations s).


(** * The core events of a group *)








(** * Locations of register events *)

Section Locations.
Context {machine : Machine}.
Context (devices : list pci_device) (dev_exists : pci_device -> bool).








End Locations.

(** * Programming *)





Section Program.
Context {machine : Machine} (os : linux) (pf : platform) (up : pcm_platform).
Context (devices : list pci_device) (dev_exists : pci_device -> bool).
Context (instances : list PFSInstance) (telem_instances : Z -> nat).






End Program.

(** * Reading *)

Section Reading.
Context {machine : Machine}.

(** [readMSRs]: every index once. *)
Fixpoint readMSRs (handle : SafeMsrHandle) (configs : list RawEventConfig) (MSRValues : gmap Z Z) : M (gmap Z Z) :=
  match configs with
  | [] => mret MSRValues
  | c :: configs =>
      let index := at_pos c.1 0 in
      match MSRValues !! index with
      | Some _ => readMSRs handle configs MSRValues
      | None => v ← msr_read handle index; readMSRs handle configs (<[index := v]> MSRValues)
      end
  end.

Definition read_pcicfg (width : Z) (r : Z * Z) : M Z :=
  if width =? 16 then v ← access_read (PciPort32 r.1 r.2); mret (extract_bits_32 (default 0 v) 0 15)
  else if width =? 32 then v ← access_read (PciPort32 r.1 r.2); mret (default 0 v)
  else if width =? 64 then v ← access_read (PciPort64 r.1 r.2); mret (default (2 ^ 64 - 1) v)
  else mret (2 ^ 64 - 1).

Definition read_mmio (width : Z) (r : Z * Z) : M Z :=
  if width =? 16 then v ← access_read (MmioPort32 r.1 r.2); mret (extract_bits_32 (default 0 v) 0 15)
  else if width =? 32 then v ← access_read (MmioPort32 r.1 r.2); mret (default 0 v)
  else if width =? 64 then v ← access_read (MmioPort64 r.1 r.2); mret (default 0 v)
  else mret (2 ^ 64 - 1).

(** The values of the configurations in turn: those of the registers at its locations. *)
Fixpoint read_registers {L} (key vkey : RawEventEncoding -> list Z) (read : RawEventEncoding -> L -> M (list Z))
    (locs : gmap (list Z) (list L)) (configs : list RawEventConfig) (values : gmap (list Z) (list Z)) : M (gmap (list Z) (list Z)) :=
  match configs with
  | [] => mret values
  | c :: configs =>
      l ← mapM_ (default [] (locs !! key c.1)) (read c.1);
      read_registers key vkey read locs configs (<[vkey c.1 := concat l]> values)
  end.

Definition configs_of (c : RawPMUConfig) : list RawEventConfig := programmable c ++ fixed c.

Definition readPCICFGRegisters (s : raw_pcm) (values : gmap (list Z) (list Z)) : M (gmap (list Z) (list Z)) :=
  read_registers PCICFG_key PCICFG_key (fun e r => v ← read_pcicfg (at_pos e width_pos) r; mret [v])
    (PCICFGRegisterLocations s) (configs_of (pcicfgConfig s)) values.

Definition readMMIORegisters (s : raw_pcm) (values : gmap (list Z) (list Z)) : M (gmap (list Z) (list Z)) :=
  read_registers MMIO_key MMIO_key (fun e r => v ← read_mmio (at_pos e width_pos) r; mret [v])
    (MMIORegisterLocations s) (configs_of (mmioConfig s)) values.

Definition readTPMIRegisters (s : raw_pcm) (values : gmap (list Z) (list Z)) : M (gmap (list Z) (list Z)) :=
  read_registers TPMI_key TPMI_key (fun _ h => mapM_ (seq 0 (TPMI_getNumEntries h)) (TPMI_read64 h))
    (TPMIRegisterLocations s) (configs_of (tpmiConfig s)) values.

(** [TelemetryArray::get] on the bytes of the file; reading behind its end, which the
    assertion excludes, is an error. *)
Definition telemetry_get (data : list Z) (qWordOffset lsb msb : Z) : M Z :=
  let word := take 8 (drop (Z.to_nat (qWordOffset * 8)) data) in
  if (length word <? 8)%nat then throw OutOfRange
  else mret (extract_bits (foldr (fun b v => b + 256 * v) 0 word) (u32 lsb) (u32 msb)).

(** [telem] is the contents of the files when they are loaded; [PMTValues] is keyed by the
    whole encoding. *)
Definition readPMTRegisters (telem : Z -> nat -> list Z) (s : raw_pcm) (values : gmap (list Z) (list Z)) : M (gmap (list Z) (list Z)) :=
  read_registers PMT_key (fun e => e)
    (fun e r => v ← telemetry_get (telem r.1 r.2) (at_pos e offset_pos) (at_pos e lsb_pos) (at_pos e msb_pos); mret [v])
    (PMTRegisterLocations s) (configs_of (pmtConfig s)) values.

End Reading.

(** * The getters ([cpucounters.h]) *)

(** The loop of [getRegisterEvent] over the values of the two samples. *)
Fixpoint register_values (type : Z) (before after : list Z) : res (list Z) :=
  match before, after with
  | [], _ => Ok []
  | b :: before, a :: after =>
      l ← register_values type before after;
      if type =? Freerun then Ok (u64 (a - b) :: l) else if type =? Static then Ok (a :: l) else Ok l
  | _ :: _, [] => if (type =? Freerun) || (type =? Static) then Throw OutOfRange else Ok []
  end.

Definition getRegisterEvent (vkey : RawEventEncoding -> list Z) (eventEnc : RawEventEncoding)
    (beforeValues afterValues : gmap (list Z) (list Z)) : res (list Z) :=
  match beforeValues !! vkey eventEnc, afterValues !! vkey eventEnc with
  | Some before, Some after => register_values (at_pos eventEnc type_pos) before after
  | _, _ => Ok []
  end.

Definition getTPMIEvent := getRegisterEvent TPMI_key.
Definition getPCICFGEvent := getRegisterEvent PCICFG_key.
Definition getMMIOEvent := getRegisterEvent MMIO_key.
Definition getPMTEvent := getRegisterEvent (fun e => e).

Definition getMSREvent (index type : Z) (before after : gmap Z Z) : Z :=
  if type =? Freerun then
    match before !! index, after !! index with Some b, Some a => u64 (a - b) | _, _ => 0 end
  else if type =? Static then default 0 (after !! index) else 0.

(** * Programming an accepted group *)










Section Accepted.
Context {machine : Machine} (os : linux) (pf : platform) (up : pcm_platform).
Context (devices : list pci_device) (dev_exists : pci_device -> bool).
Context (instances : list PFSInstance) (telem_instances : Z -> nat).













End Accepted.







(** A PCU, and a group with two of its events and a register of a PCI device. *)
Definition example_pcu : UncorePMU := msr4 (Some 0) 0x700 [0x701; 0x702; 0x703; 0x704] [0x707; 0x708; 0x709; 0x70A] (Some (MSRRegister (Some 0) 0x705)).

Definition example_raw : raw_pcm :=
  RawPcm initial_pmu (PcmUncore [] [[[(PCU_PMU_ID, [Some example_pcu])]]] [[]] [[]] [] []) empty_config empty_config empty_config
    empty_config empty_config empty_config ∅ ∅ ∅ ∅.

Definition example_raw_file : str :=
  lit "pcu/config=0x0b,config1=0x1f,name=A/," ++ [LF] ++ lit "pcu/config=0x74,name=B/," ++ [LF] ++
  lit "pcicfg/config=0x3451,config1=0x104,config2=1,width=32,name=C/;".

Definition example_raw_group : RawPMUConfigs :=
  Eval vm_compute in default [] (head (default [] (addEvents [] 8 example_raw_file))).


(** * What an event of registers counts

    Two readings, each of registers that stand still meanwhile. *)

Definition pcicfg_value (cfg : port -> option Z) (width : Z) (r : Z * Z) : Z :=
  if width =? 16 then extract_bits_32 (default 0 (cfg (PciPort32 r.1 r.2))) 0 15
  else if width =? 32 then default 0 (cfg (PciPort32 r.1 r.2))
  else if width =? 64 then default (2 ^ 64 - 1) (cfg (PciPort64 r.1 r.2)) else 2 ^ 64 - 1.

Definition mmio_value (cfg : port -> option Z) (width : Z) (r : Z * Z) : Z :=
  if width =? 16 then extract_bits_32 (default 0 (cfg (MmioPort32 r.1 r.2))) 0 15
  else if width =? 32 then default 0 (cfg (MmioPort32 r.1 r.2))
  else if width =? 64 then default 0 (cfg (MmioPort64 r.1 r.2)) else 2 ^ 64 - 1.

Definition tpmi_values (cfg : port -> option Z) (h : TPMIHandle) : list Z :=
  map (fun r => default 0 (cfg (MmioPort64 r.1 r.2))) h.

(** An event by its type: the difference, the last value, or nothing. *)
Definition measured (type : Z) (before after : list Z) : list Z :=
  if type =? Freerun then zip_with (fun b a => u64 (a - b)) before after else if type =? Static then after else [].

Lemma register_values_measured type before after : length before = length after ->
  register_values type before after = Ok (measured type before after).
Proof.
  unfold measured. revert after. induction before as [|b before IH]; intros [|a after] Hl; try done.
  - by destruct (type =? Freerun), (type =? Static).
  - cbn [register_values]. rewrite IH by (injection Hl; done). destruct (type =? Freerun); [done|]. by destruct (type =? Static).
Qed.

Lemma mapM_yields {A B} (f : A -> M B) (g : A -> B) l :
  (forall x, x ∈ l -> yields (f x) (g x)) -> yields (mapM_ l f) (map g l).
Proof.
  induction l as [|x l IH]; intros H; [by apply yields_ret|]. simpl. eapply yields_bind; [apply H; left|].
  eapply yields_bind; [apply IH; intros y Hy; apply H; by right|apply yields_ret].
Qed.

Section Readings.
Context (cfg : port -> option Z).
#[local] Instance standing : Machine := static_machine cfg.

Lemma read_pcicfg_yields width r : yields (@read_pcicfg (static_machine cfg) width r) (pcicfg_value cfg width r).
Proof.
  unfold read_pcicfg, pcicfg_value. repeat case_match; (eapply yields_bind; [apply yields_read|apply yields_ret]) || apply yields_ret.
Qed.

Lemma read_mmio_yields width r : yields (@read_mmio (static_machine cfg) width r) (mmio_value cfg width r).
Proof.
  unfold read_mmio, mmio_value. repeat case_match; (eapply yields_bind; [apply yields_read|apply yields_ret]) || apply yields_ret.
Qed.

Lemma tpmi_entries_yields h :
  yields (mapM_ (seq 0 (TPMI_getNumEntries h)) (@TPMI_read64 (static_machine cfg) h)) (tpmi_values cfg h).
Proof.
  set (g := fun i => default 0 (r ← h !! i; cfg (MmioPort64 r.1 r.2))).
  assert (E : tpmi_values cfg h = map g (seq 0 (length h))).
  { unfold tpmi_values, TPMIHandle in *. apply list_eq. intros i. rewrite !lookup_map.
    destruct (h !! i) as [r|] eqn:Hr.
    - rewrite lookup_seq_lt by (by eapply lookup_lt_Some). cbn. unfold g. by rewrite Hr.
    - rewrite lookup_seq_ge by (by apply lookup_ge_None). done. }
  rewrite E. apply (mapM_yields _ g). intros i Hi%elem_of_seq. unfold TPMI_read64, g.
  destruct (lookup_lt_is_Some_2 h i) as [[a o] Ha]; [lia|]. unfold TPMIHandle in *. rewrite Ha. cbn.
  unfold reg_read. eapply yields_bind; [apply yields_read|apply yields_ret].
Qed.

End Readings.

(** The value kept for every configuration, where those with one key are read alike. *)
Lemma read_registers_yields {L} key vkey (read : RawEventEncoding -> L -> M (list Z)) (V : RawEventEncoding -> L -> list Z) locs configs values :
  (forall e l, yields (read e l) (V e l)) ->
  (forall e e', vkey e = vkey e' -> key e = key e' /\ forall l, V e l = V e' l) ->
  exists values', yields (read_registers key vkey read locs configs values) values' /\
    (forall c, c ∈ configs -> values' !! vkey c.1 = Some (concat (map (V c.1) (default [] (locs !! key c.1))))) /\
    (forall k, k ∉ map (fun c => vkey c.1) configs -> values' !! k = values !! k).
Proof.
  intros Hread Hkey. revert values. induction configs as [|c configs IH]; intros values.
  { exists values. split; [apply yields_ret|]. split; [by intros c ?%elem_of_nil|done]. }
  set (v := concat (map (V c.1) (default [] (locs !! key c.1)))). destruct (IH (<[vkey c.1 := v]> values)) as (values' & Hy & Hin & Hout).
  exists values'. split; [|split].
  - cbn [read_registers]. eapply yields_bind; [apply (mapM_yields _ (V c.1)); intros; apply Hread|exact Hy].
  - intros c' [->|Hc']%elem_of_cons; [|by apply Hin].
    destruct (decide (vkey c.1 ∈ map (fun c => vkey c.1) configs)) as [Hd|Hd].
    + apply list_elem_of_fmap in Hd as (c2 & E & Hc2). rewrite E, (Hin c2 Hc2). destruct (Hkey _ _ E) as [-> HV]. do 2 f_equal.
      apply map_ext. intros l. by rewrite HV.
    + rewrite (Hout _ Hd). by rewrite lookup_insert_eq.
  - intros k Hk. cbn [map] in Hk. apply not_elem_of_cons in Hk as [H1 H2]. rewrite (Hout k H2). by rewrite lookup_insert_ne.
Qed.

Lemma PCICFG_key_parts e e' : PCICFG_key e = PCICFG_key e' -> at_pos e width_pos = at_pos e' width_pos.
Proof. by intros [=]. Qed.

Lemma MMIO_key_parts e e' : MMIO_key e = MMIO_key e' -> at_pos e width_pos = at_pos e' width_pos.
Proof. by intros [=]. Qed.

(** Two readings of one kind and the events between them. *)
Lemma events_between {L} key (read1 read2 : RawEventEncoding -> L -> M (list Z)) V1 V2 locs configs values :
  (forall e l, yields (read1 e l) (V1 e l)) -> (forall e l, yields (read2 e l) (V2 e l)) ->
  (forall e l, length (V1 e l) = length (V2 e l)) ->
  (forall e e', key e = key e' -> forall l, V1 e l = V1 e' l /\ V2 e l = V2 e' l) ->
  exists before after,
    yields (read_registers key key read1 locs configs values) before /\
    yields (read_registers key key read2 locs configs values) after /\
    forall c, c ∈ configs -> getRegisterEvent key c.1 before after =
      Ok (measured (at_pos c.1 type_pos) (concat (map (V1 c.1) (default [] (locs !! key c.1))))
                                         (concat (map (V2 c.1) (default [] (locs !! key c.1))))).
Proof.
  intros H1 H2 Hlen Hkey.
  destruct (read_registers_yields key key read1 V1 locs configs values H1) as (before & Hb & Hin1 & _).
  { intros e e' E. split; [done|]. intros l. by apply Hkey. }
  destruct (read_registers_yields key key read2 V2 locs configs values H2) as (after & Ha & Hin2 & _).
  { intros e e' E. split; [done|]. intros l. by apply Hkey. }
  exists before, after. split_and!; [done..|]. intros c Hc. unfold getRegisterEvent. rewrite Hin1, Hin2 by done.
  apply register_values_measured. induction (default [] _) as [|l ls IH]; [done|]. cbn [map concat]. by rewrite !length_app, IH, Hlen.
Qed.

(** The event of a register of PCI configuration space, of memory or of TPMI between two
    samples: for every register found for it, in one order, the difference of the two values
    modulo 2^64 when it runs freely and the second value when it is static, however many
    events name the same register. *)
Theorem register_events_measured cfg1 cfg2 s values :
  (exists before after,
    yields (@readPCICFGRegisters (static_machine cfg1) s values) before /\
    yields (@readPCICFGRegisters (static_machine cfg2) s values) after /\
    forall c, c ∈ configs_of (pcicfgConfig s) -> let locs := default [] (PCICFGRegisterLocations s !! PCICFG_key c.1) in
      getPCICFGEvent c.1 before after = Ok (measured (at_pos c.1 type_pos)
        (map (pcicfg_value cfg1 (at_pos c.1 width_pos)) locs) (map (pcicfg_value cfg2 (at_pos c.1 width_pos)) locs))) /\
  (exists before after,
    yields (@readMMIORegisters (static_machine cfg1) s values) before /\
    yields (@readMMIORegisters (static_machine cfg2) s values) after /\
    forall c, c ∈ configs_of (mmioConfig s) -> let locs := default [] (MMIORegisterLocations s !! MMIO_key c.1) in
      getMMIOEvent c.1 before after = Ok (measured (at_pos c.1 type_pos)
        (map (mmio_value cfg1 (at_pos c.1 width_pos)) locs) (map (mmio_value cfg2 (at_pos c.1 width_pos)) locs))) /\
  (exists before after,
    yields (@readTPMIRegisters (static_machine cfg1) s values) before /\
    yields (@readTPMIRegisters (static_machine cfg2) s values) after /\
    forall c, c ∈ configs_of (tpmiConfig s) -> let locs := default [] (TPMIRegisterLocations s !! TPMI_key c.1) in
      getTPMIEvent c.1 before after = Ok (measured (at_pos c.1 type_pos)
        (concat (map (tpmi_values cfg1) locs)) (concat (map (tpmi_values cfg2) locs)))).
Proof.
  assert (Hsingle : forall A (f : A -> Z) l, concat (map (fun r => [f r]) l) = map f l).
  { intros A f l. induction l as [|x l IH]; [done|]. cbn [map concat app]. by rewrite IH. }
  split_and!.
  - destruct (events_between PCICFG_key
      (fun e r => v ← @read_pcicfg (static_machine cfg1) (at_pos e width_pos) r; mret [v])
      (fun e r => v ← @read_pcicfg (static_machine cfg2) (at_pos e width_pos) r; mret [v])
      (fun e r => [pcicfg_value cfg1 (at_pos e width_pos) r]) (fun e r => [pcicfg_value cfg2 (at_pos e width_pos) r])
      (PCICFGRegisterLocations s) (configs_of (pcicfgConfig s)) values) as (b & a & Hb & Ha & H).
    1-2: intros e r; eapply yields_bind; [apply read_pcicfg_yields|apply yields_ret].
    1: done. 1: by intros e e' ->%PCICFG_key_parts.
    exists b, a. split_and!; [done..|]. intros c Hc. cbv zeta. etrans; [exact (H c Hc)|]. by rewrite !Hsingle.
  - destruct (events_between MMIO_key
      (fun e r => v ← @read_mmio (static_machine cfg1) (at_pos e width_pos) r; mret [v])
      (fun e r => v ← @read_mmio (static_machine cfg2) (at_pos e width_pos) r; mret [v])
      (fun e r => [mmio_value cfg1 (at_pos e width_pos) r]) (fun e r => [mmio_value cfg2 (at_pos e width_pos) r])
      (MMIORegisterLocations s) (configs_of (mmioConfig s)) values) as (b & a & Hb & Ha & H).
    1-2: intros e r; eapply yields_bind; [apply read_mmio_yields|apply yields_ret].
    1: done. 1: by intros e e' ->%MMIO_key_parts.
    exists b, a. split_and!; [done..|]. intros c Hc. cbv zeta. etrans; [exact (H c Hc)|]. by rewrite !Hsingle.
  - destruct (events_between TPMI_key
      (fun _ h => mapM_ (seq 0 (TPMI_getNumEntries h)) (@TPMI_read64 (static_machine cfg1) h))
      (fun _ h => mapM_ (seq 0 (TPMI_getNumEntries h)) (@TPMI_read64 (static_machine cfg2) h))
      (fun _ => tpmi_values cfg1) (fun _ => tpmi_values cfg2)
      (TPMIRegisterLocations s) (configs_of (tpmiConfig s)) values) as (b & a & Hb & Ha & H).
    1-2: intros e r; apply tpmi_entries_yields.
    1: by intros; unfold tpmi_values; rewrite !length_map. 1: done.
    exists b, a. by split_and!.
Qed.

(** A free-running register that counted [n] between the samples, fewer than it can hold:
    a register of 64 bits gives [n], also across its overflow; a narrower one gives [n] only
    when it did not overflow, and else almost 2^64. *)
Theorem free_running_wraps w start n :
  w = 16 \/ w = 32 \/ w = 64 -> 0 <= start < 2 ^ w -> 0 <= n < 2 ^ w ->
  register_values Freerun [start] [wrapN w (start + n)] =
    Ok [if (w =? 64) || (start + n <? 2 ^ w) then n else 2 ^ 64 - (2 ^ w - n)].
Proof.
  intros Hw Hs Hn. cbn [register_values]. change (Freerun =? Freerun) with true. cbv iota. cbn [mbind res_bind]. do 2 f_equal. unfold wrapN.
  destruct Hw as [->|[->| ->]]; cbn [Z.eqb orb Pos.eqb];
    change (2 ^ 64) with 18446744073709551616 in *; change (2 ^ 32) with 4294967296 in *; change (2 ^ 16) with 65536 in *.
  - destruct (Z.ltb_spec (start + n) 65536); Z.div_mod_to_equations; lia.
  - destruct (Z.ltb_spec (start + n) 4294967296); Z.div_mod_to_equations; lia.
  - Z.div_mod_to_equations; lia.
Qed.

Lemma free_running_wraps_witness : register_values Freerun [0xFFFFFFF0] [0x10] = Ok [2 ^ 64 - (2 ^ 32 - 0x20)].
Proof. apply (free_running_wraps 32 0xFFFFFFF0 0x20); [by right; left|done|done]. Defined.

Definition example_sampled : raw_pcm :=
  with_pcicfg (default empty_config (find_pmu (lit "pcicfg") example_raw_group)) {[ [0x3451; 0x104; 32] := [(77, 0x104); (78, 0x104)] ]}
    example_raw.

Definition example_sample (v w : Z) : port -> option Z := fun p =>
  match p with PciPort32 h _ => Some (if h =? 77 then v else w) | _ => None end.

Lemma register_events_measured_witness :
  exists before after,
    yields (@readPCICFGRegisters (static_machine (example_sample 5 100)) example_sampled ∅) before /\
    yields (@readPCICFGRegisters (static_machine (example_sample 12 99)) example_sampled ∅) after /\
    getPCICFGEvent [0x3451; 0x104; 1; 0; 0; 32] before after = Ok [7; 2 ^ 64 - 1].
Proof.
  destruct (proj1 (register_events_measured (example_sample 5 100) (example_sample 12 99) example_sampled ∅)) as (b & a & Hb & Ha & H).
  exists b, a. split; [exact Hb|]. split; [exact Ha|].
  etrans; [apply (H ([0x3451; 0x104; 1; 0; 0; 32], lit "C")); by left|]. vm_compute. reflexivity.
Defined.
