(* ===== verification/Topology.v ===== *)
(** The topology of the system: [src/src/topologyentry.h], [PCM::discoverSystemTopology] of
    [src/src/cpucounters.cpp] as built for Linux, and the tree of [src/src/topology.h].

    The CPUID instruction on a logical processor, the processors listed in [/proc/cpuinfo],
    the number of present processors and whether a thread can be moved to a processor are
    arguments. *)

From Stdlib Require Import Sorting.Sorted.
From stdpp Require Import sorting.
From S2P Require Import Prelude Bits CounterState.
Local Open Scope Z_scope.

(** * Entries *)

Record TopologyEntry := Entry {
  os_id : Z;
  thread_id : Z;
  core_id : Z;
  module_id : Z;
  tile_id : Z;
  die_id : Z;
  die_grp_id : Z;
  socket_id : Z;
  socket_unique_core_id : Z;
  l3_cache_id : Z;
  native_cpu_model : Z;
  te_core_type : Z
}.

Definition TopologyEntry_init : TopologyEntry := Entry (-1) (-1) (-1) (-1) (-1) (-1) (-1) (-1) (-1) (-1) (-1) (-1).

#[export] Instance entry_eq_dec : EqDecision TopologyEntry.
Proof. solve_decision. Defined.

(** [DomainTypeID] *)
Definition InvalidDomainTypeID : Z := 0.
Definition LogicalProcessorDomain : Z := 1.
Definition CoreDomain : Z := 2.
Definition ModuleDomain : Z := 3.
Definition TileDomain : Z := 4.
Definition DieDomain : Z := 5.
Definition DieGrpDomain : Z := 6.
Definition SocketPackageDomain : Z := 0xffff.

Definition isSameSocket (a b : TopologyEntry) : bool := socket_id a =? socket_id b.
Definition isSameDieGroup (a b : TopologyEntry) : bool := (die_grp_id a =? die_grp_id b) && isSameSocket a b.
Definition isSameDie (a b : TopologyEntry) : bool := (die_id a =? die_id b) && isSameDieGroup a b.
Definition isSameTile (a b : TopologyEntry) : bool := (tile_id a =? tile_id b) && isSameDie a b.
Definition isSameModule (a b : TopologyEntry) : bool := (module_id a =? module_id b) && isSameTile a b.
Definition isSameCore (a b : TopologyEntry) : bool := (core_id a =? core_id b) && isSameModule a b.

(** [operator <] *)
Definition entry_lt (a b : TopologyEntry) : bool :=
  if negb (socket_id a =? socket_id b) then socket_id a <? socket_id b
  else if negb (die_grp_id a =? die_grp_id b) then die_grp_id a <? die_grp_id b
  else if negb (die_id a =? die_id b) then die_id a <? die_id b
  else if negb (tile_id a =? tile_id b) then tile_id a <? tile_id b
  else if negb (module_id a =? module_id b) then module_id a <? module_id b
  else if negb (core_id a =? core_id b) then core_id a <? core_id b
  else thread_id a <? thread_id b.

(** * The widths of the fields of an APIC identifier *)

Record core_masks := CoreMasks {
  smtMaskWidth : Z;
  coreMaskWidth : Z;
  l2CacheMaskShift : Z;
  l3CacheMaskShift : Z
}.

(** The level types of leaf 0xB: the shift of the SMT level and of the core level. [None]:
    the leaf does not end within the fuel. *)
Fixpoint read_levels (leaf : Z -> PCM_CPUID_INFO) (fuel : nat) (subleaf : Z) (levels : option Z * option Z) : option (option Z * option Z) :=
  match fuel with
  | O => None
  | S fuel =>
      let r := leaf subleaf in
      if ebx r =? 0 then Some levels
      else
        let levelType := extract_bits_32 (ecx r) 8 15 in
        let levelShift := extract_bits_32 (eax r) 0 4 in
        read_levels leaf fuel (subleaf + 1)
          (if levelType =? 1 then (Some levelShift, levels.2)
           else if levelType =? 2 then (levels.1, Some levelShift) else levels)
  end.

(** [for ( ; width > 1; width >>= 1) shift++] *)
Fixpoint mask_shift (fuel : nat) (width shift : Z) : Z :=
  match fuel with
  | O => shift
  | S fuel => if 1 <? width then mask_shift fuel (Z.shiftr width 1) (shift + 1) else shift
  end.

(** The shift of the cache that subleaf [it] of leaf 4 describes; its width is below 2^13. *)
Definition cache_shift (r : PCM_CPUID_INFO) : Z := mask_shift 13 (1 + extract_bits_32 (eax r) 14 25) 0.

(** [initCoreMasks]: [None] is [return false]. *)
Definition initCoreMasks (cpuid : Z -> Z -> PCM_CPUID_INFO) (fuel : nat) : option core_masks :=
  '(smt, core) ← read_levels (cpuid 0xb) fuel 0 (None, None);
  smt ← smt;
  let coreWidth := match core with Some c => u32 (c - smt) | None => smt end in
  let l2 := cache_shift (cpuid 0x4 2) in
  let l3 := cache_shift (cpuid 0x4 3) in
  if 31 <? l3 then None else Some (CoreMasks smt coreWidth l2 l3).

Record domain := Domain { dom_type : Z; levelShift : Z; nextLevelShift : Z }.

(** The domains of leaf 0x1F. *)
Fixpoint read_domains (leaf : Z -> PCM_CPUID_INFO) (fuel : nat) (subleaf prev : Z) : option (list domain) :=
  match fuel with
  | O => None
  | S fuel =>
      let r := leaf subleaf in
      let type := extract_bits_32 (ecx r) 8 15 in
      if type =? InvalidDomainTypeID then Some []
      else
        let next := extract_bits_32 (eax r) 0 4 in
        l ← read_domains leaf fuel (subleaf + 1) next; Some (Domain type prev next :: l)
  end.

(** [topologyDomains] with the domain of the socket. *)
Definition topologyDomains (leaf : Z -> PCM_CPUID_INFO) (fuel : nat) : option (list domain) :=
  l ← read_domains leaf fuel 0 0;
  Some match last l with
       | Some d => l ++ [Domain SocketPackageDomain (nextLevelShift d) 32]
       | None => []
       end.

(** [topologyDomainMap]: a later domain of the same type replaces an earlier one. *)
Definition find_domain (l : list domain) (t : Z) : option domain := last (filter (fun d => dom_type d = t) l).

Definition getID (l : list domain) (apic_id t : Z) : Z :=
  match find_domain l t with
  | Some d => extract_bits_32 apic_id (levelShift d) (u32 (nextLevelShift d - 1))
  | None => 0
  end.

Definition fillEntry (e : TopologyEntry) (smtMaskWidth coreMaskWidth l2CacheMaskShift apic_id : Z) : TopologyEntry :=
  let core := i32 (if coreMaskWidth =? 0 then 0
                   else extract_bits_32 apic_id smtMaskWidth (u32 (smtMaskWidth + coreMaskWidth - 1))) in
  Entry (os_id e) (i32 (if smtMaskWidth =? 0 then 0 else extract_bits_32 apic_id 0 (u32 (smtMaskWidth - 1)))) core
    (module_id e) (i32 (extract_bits_32 apic_id l2CacheMaskShift 31)) (die_id e) (die_grp_id e)
    (i32 (extract_bits_32 apic_id (u32 (smtMaskWidth + coreMaskWidth)) 31)) core (l3_cache_id e)
    (native_cpu_model e) (te_core_type e).

Definition with_l3 (id : Z) (e : TopologyEntry) : TopologyEntry :=
  Entry (os_id e) (thread_id e) (core_id e) (module_id e) (tile_id e) (die_id e) (die_grp_id e) (socket_id e)
    (socket_unique_core_id e) id (native_cpu_model e) (te_core_type e).

(** [populateEntry]; [apicB] and [apic1F] are [edx] of the leaves 0xB and 0x1F. *)
Definition populateEntry (domains : list domain) (masks : core_masks) (apicB apic1F : Z) (e : TopologyEntry) : res TopologyEntry :=
  let l3 := i32 (extract_bits_32 apicB (l3CacheMaskShift masks) 31) in
  match domains with
  | [] => Ok (with_l3 l3 (fillEntry e (smtMaskWidth masks) (coreMaskWidth masks) (l2CacheMaskShift masks) apicB))
  | _ =>
      let id t := i32 (getID domains apic1F t) in
      let tile := i32 (extract_bits_32 apicB (l2CacheMaskShift masks) 31) in
      match find_domain domains CoreDomain, find_domain domains SocketPackageDomain with
      | Some d1, Some d2 =>
          Ok (Entry (os_id e) (id LogicalProcessorDomain) (id CoreDomain) (id ModuleDomain)
                (if tile =? 0 then id TileDomain else tile) (id DieDomain) (id DieGrpDomain) (id SocketPackageDomain)
                (i32 (extract_bits_32 apic1F (levelShift d1) (u32 (levelShift d2 - 1)))) l3 (native_cpu_model e) (te_core_type e))
      | _, _ => Throw RuntimeError
      end
  end.

Definition populateHybridEntry (hybrid : bool) (r : PCM_CPUID_INFO) (e : TopologyEntry) : TopologyEntry :=
  if hybrid then
    Entry (os_id e) (thread_id e) (core_id e) (module_id e) (tile_id e) (die_id e) (die_grp_id e) (socket_id e)
      (socket_unique_core_id e) (l3_cache_id e) (extract_bits_32 (eax r) 0 23) (extract_bits_32 (eax r) 24 31)
  else e.

(** * The tree *)

Inductive status := Offline | Online.
#[export] Instance status_eq_dec : EqDecision status.
Proof. solve_decision. Defined.

Record HyperThread := MkHyperThread { osID : Z; te : TopologyEntry; ht_status : status }.

(** [Core]: its threads; the bound on their number is the same for all cores. *)
Definition core_node : Type := list HyperThread.

Record socket_node := SocketNode { logicalID : Z; cores : list core_node }.

Record SystemRoot := MkSystemRoot { sockets : list socket_node; offlinedThreadsAtStart : list HyperThread }.

Definition ht_isOnline (h : HyperThread) : bool := match ht_status h with Online => true | Offline => false end.

(** [SystemRoot::addSocket] *)
Definition addSocket (logical_id : Z) (r : SystemRoot) : SystemRoot :=
  MkSystemRoot (sockets r ++ [SocketNode logical_id []]) (offlinedThreadsAtStart r).

(** [Core::addHyperThreadInfo] *)
Definition addHyperThreadInfo (max_threads_per_core : Z) (os : Z) (e : TopologyEntry) (threads : core_node) : res core_node :=
  if max_threads_per_core <=? thread_id e then Throw RuntimeError
  else if existsb (fun h => osID h =? os) threads then Ok threads
  else Ok (threads ++ [MkHyperThread os e Online]).

(** The loop of [Socket::findCoreByTopologyEntry] with what [SystemRoot::addThread] does to
    the core that is found, or the new core. *)
Fixpoint add_to_cores (max_threads_per_core os : Z) (e : TopologyEntry) (l : list core_node) : res (list core_node) :=
  match l with
  | [] => c ← addHyperThreadInfo max_threads_per_core os e []; Ok [c]
  | [] :: _ => Throw RuntimeError    (* [hyperThread( 0 )] *)
  | (h :: _) as c :: l' =>
      if isSameCore (te h) e then c' ← addHyperThreadInfo max_threads_per_core os e c; Ok (c' :: l')
      else l'' ← add_to_cores max_threads_per_core os e l'; Ok (c :: l'')
  end.

(** The first socket with the identifier of the entry, when there is one. *)
Fixpoint add_to_sockets (max_threads_per_core os : Z) (e : TopologyEntry) (l : list socket_node) : res (option (list socket_node)) :=
  match l with
  | [] => Ok None
  | s :: l' =>
      if logicalID s =? socket_id e then
        c ← add_to_cores max_threads_per_core os e (cores s); Ok (Some (SocketNode (logicalID s) c :: l'))
      else r ← add_to_sockets max_threads_per_core os e l'; Ok (option_map (cons s) r)
  end.

Definition addThread (max_threads_per_core os : Z) (e : TopologyEntry) (r : SystemRoot) : res SystemRoot :=
  l ← add_to_sockets max_threads_per_core os e (sockets r);
  Ok match l with
     | Some l => MkSystemRoot l (offlinedThreadsAtStart r)
     | None => MkSystemRoot (sockets r) (offlinedThreadsAtStart r ++ [MkHyperThread os e Offline])
     end.

(** [Socket::setRefCore] and [Socket::isOnline]: the reference core is the first one. *)
Definition refCore (s : socket_node) : res core_node := match cores s with c :: _ => Ok c | [] => Throw RuntimeError end.
Definition core_isOnline (c : core_node) : bool := existsb ht_isOnline c.

Fixpoint findThread (os : Z) (l : list HyperThread) : option HyperThread :=
  match l with [] => None | h :: l => if osID h =? os then Some h else findThread os l end.

(** All threads of the tree in its order. *)
Definition socket_threads (s : socket_node) : list HyperThread := concat (cores s).
Definition tree_threads (r : SystemRoot) : list HyperThread := concat (map socket_threads (sockets r)).

(** [SystemRoot::findThreadByOSID] *)
Definition findThreadByOSID (os : Z) (r : SystemRoot) : option HyperThread :=
  findThread os (tree_threads r ++ offlinedThreadsAtStart r).

(** * Discovery *)

Record pcm_topology := PcmTopology {
  num_cores : nat;
  num_online_cores : Z;
  num_sockets : nat;
  threads_per_core : Z;
  num_phys_cores_per_socket : Z;
  topology : list TopologyEntry;
  systemTopology : SystemRoot;
  socketRefCore : list Z;
  num_online_sockets : Z
}.

Definition entry_online (e : TopologyEntry) : bool :=
  negb (os_id e =? -1) && negb (core_id e =? -1) && negb (socket_id e =? -1).

Definition isCoreOnline (t : list TopologyEntry) (i : nat) : bool := entry_online (nth i t TopologyEntry_init).

(** [socketIdMap[id] = 0]: the keys in their order. *)
Fixpoint add_key (id : Z) (keys : list Z) : list Z :=
  match keys with
  | [] => [id]
  | k :: keys' => if id <? k then id :: keys else if id =? k then keys else k :: add_key id keys'
  end.

(** The processors of [/proc/cpuinfo] in turn: the topology, the keys of [socketIdMap] and
    the number of online cores. *)
Fixpoint read_processors (populate : Z -> option TopologyEntry) (processors : list Z) (t : list TopologyEntry) (keys : list Z) (online : Z)
    : res (list TopologyEntry * list Z * Z) :=
  match processors with
  | [] => Ok (t, keys, online)
  | os :: processors =>
      match populate os with
      | None => read_processors populate processors t keys online
      | Some e =>
          if (os <? 0) || (Z.of_nat (length t) <=? os) then Throw OutOfRange
          else read_processors populate processors (<[Z.to_nat os := e]> t) (add_key (u32 (socket_id e)) keys) (online + 1)
      end
  end.

(** The logical identifier of a socket: the position of its key. *)
Fixpoint key_index (id : Z) (keys : list Z) : Z :=
  match keys with [] => 0 | k :: keys => if id =? k then 0 else 1 + key_index id keys end.

Definition with_socket (id : Z) (e : TopologyEntry) : TopologyEntry :=
  Entry (os_id e) (thread_id e) (core_id e) (module_id e) (tile_id e) (die_id e) (die_grp_id e) id
    (socket_unique_core_id e) (l3_cache_id e) (native_cpu_model e) (te_core_type e).

Definition renumber (keys : list Z) (e : TopologyEntry) : TopologyEntry :=
  if entry_online e then with_socket (key_index (u32 (socket_id e)) keys) e else e.

(** The loop that counts the threads of each core in the sorted topology. *)
Fixpoint count_threads (l : list TopologyEntry) (firstCore : TopologyEntry) (current best : Z) : Z :=
  match l with
  | [] => Z.max best current
  | e :: l =>
      if isSameCore e firstCore then count_threads l firstCore (current + 1) best
      else count_threads l e 1 (Z.max best current)
  end.

Fixpoint skip_offline (l : list TopologyEntry) : list TopologyEntry :=
  match l with e :: l' => if entry_online e then l else skip_offline l' | [] => [] end.

(** [a <= b] of the order by which [std::sort] sorts. *)
Definition entry_le (a b : TopologyEntry) : Prop := entry_lt b a = false.
#[export] Instance entry_le_dec : RelDecision entry_le.
Proof. intros a b. unfold entry_le. apply _. Defined.

Definition max_threads (t : list TopologyEntry) : Z :=
  match skip_offline (merge_sort entry_le t) with
  | [] => 0                      (* an assertion fails *)
  | (e :: _) as l => count_threads l e 0 0
  end.

Fixpoint add_threads (max_threads_per_core : Z) (i : nat) (l : list TopologyEntry) (r : SystemRoot) : res SystemRoot :=
  match l with
  | [] => Ok r
  | e :: l => r ← addThread max_threads_per_core (Z.of_nat i) e r; add_threads max_threads_per_core (S i) l r
  end.

(** [socketRefCore]: the last online core of every socket. *)
Definition set_ref (refs : list Z) (ie : nat * TopologyEntry) : list Z :=
  if entry_online ie.2 then <[Z.to_nat (socket_id ie.2) := Z.of_nat ie.1]> refs else refs.

Definition ref_cores (n : nat) (t : list TopologyEntry) : list Z := foldl set_ref (replicate n (-1)) (imap (fun i e => (i, e)) t).

(** [PCM::discoverSystemTopology] from the maximal processor number on. *)
Definition discoverSystemTopology (populate : Z -> option TopologyEntry) (max_present : Z) (processors : list Z) : res (option pcm_topology) :=
  if max_present =? -1 then Ok None
  else
    let n := Z.to_nat (max_present + 1) in
    r ← read_processors populate processors (replicate n TopologyEntry_init) [] 0;
    let '(t, keys, online) := r in
    let nsockets := Nat.max (length keys) 1 in
    let t := map (renumber keys) t in
    let threads := max_threads t in
    let phys := if Z.of_nat n =? online then Z.of_nat n / Z.of_nat nsockets / threads else 0 in
    let root := foldl (fun r s => addSocket s r) (MkSystemRoot [] []) (map Z.of_nat (seq 0 (length keys))) in
    root ← add_threads threads 0 t root;
    _ ← mapM refCore (sockets root);
    let refs := ref_cores nsockets t in
    Ok (Some (PcmTopology n (if online =? 0 then Z.of_nat n else online) nsockets threads phys t root refs
                (Z.of_nat (length (filter (fun c => c <> -1) refs))))).

(** * Order and equality of entries *)

(** Lexicographic order on keys of the same length. *)
Fixpoint lex_lt (a b : list Z) : bool :=
  match a, b with
  | x :: a, y :: b => if x =? y then lex_lt a b else x <? y
  | _, _ => false
  end.

Lemma lex_irrefl a : lex_lt a a = false.
Proof. induction a as [|x a IH]; simpl; [done|]. by rewrite Z.eqb_refl. Qed.

Lemma lex_trans a b c : lex_lt a b = true -> lex_lt b c = true -> lex_lt a c = true.
Proof.
  revert b c. induction a as [|x a IH]; intros [|y b] [|z c]; simpl; try done.
  destruct (Z.eqb_spec x y), (Z.eqb_spec y z), (Z.eqb_spec x z); subst; rewrite ?Z.ltb_lt; try lia; try done; eauto.
Qed.

Lemma lex_total a b : length a = length b -> lex_lt a b = false -> lex_lt b a = false -> a = b.
Proof.
  revert b. induction a as [|x a IH]; intros [|y b] Hl; simpl; try done.
  rewrite (Z.eqb_sym y x). destruct (Z.eqb_spec x y) as [->|]; [|rewrite !Z.ltb_ge; lia].
  intros. f_equal. apply IH; auto.
Qed.

(** A longer key decides like its beginning, where that differs. *)
Lemma lex_app a b c d : length a = length b -> lex_lt a b = true -> lex_lt (a ++ c) (b ++ d) = true.
Proof.
  revert b. induction a as [|x a IH]; intros [|y b] Hl; simpl; try done.
  destruct (x =? y); [|done]. apply IH. by injection Hl.
Qed.

Lemma lex_app_same a c d : lex_lt (a ++ c) (a ++ d) = lex_lt c d.
Proof. induction a as [|x a IH]; [done|]. simpl. by rewrite Z.eqb_refl. Qed.

Definition core_key (e : TopologyEntry) : list Z :=
  [socket_id e; die_grp_id e; die_id e; tile_id e; module_id e; core_id e].

Lemma entry_lt_lex a b : entry_lt a b = lex_lt (core_key a ++ [thread_id a]) (core_key b ++ [thread_id b]).
Proof.
  unfold entry_lt, core_key. cbn [app lex_lt].
  repeat match goal with |- context [?x =? ?y] => destruct (Z.eqb_spec x y); cbn [negb] end; try done.
  match goal with H : thread_id a = thread_id b |- _ => rewrite H end. by rewrite Z.ltb_irrefl.
Qed.

Lemma isSameCore_key a b : isSameCore a b = true <-> core_key a = core_key b.
Proof.
  unfold isSameCore, isSameModule, isSameTile, isSameDie, isSameDieGroup, isSameSocket, core_key.
  rewrite !andb_true_iff, !Z.eqb_eq. split; [intros (?&?&?&?&?&?); congruence|intros [=]; tauto].
Qed.

Lemma isSameCore_false a b : isSameCore a b = false <-> core_key a <> core_key b.
Proof. rewrite <- isSameCore_key. by destruct (isSameCore a b). Qed.

#[export] Instance entry_le_trans : Transitive entry_le.
Proof.
  intros a b c. unfold entry_le. rewrite !entry_lt_lex. intros H1 H2.
  apply not_true_iff_false. intros H3. set (ka := core_key a ++ _) in *. set (kb := core_key b ++ _) in *. set (kc := core_key c ++ _) in *.
  destruct (lex_lt ka kb) eqn:E.
  - by rewrite (lex_trans kc ka kb H3 E) in H2.
  - assert (Ek : ka = kb) by (by apply lex_total). rewrite Ek in H3. congruence.
Qed.

#[export] Instance entry_le_total : Total entry_le.
Proof.
  intros a b. unfold entry_le. destruct (entry_lt b a) eqn:E; [right|by left].
  rewrite entry_lt_lex in *. apply not_true_iff_false. intros H. pose proof (lex_trans _ _ _ E H) as Hx. by rewrite lex_irrefl in Hx.
Qed.

(** Sorted entries are sorted by their cores. *)
Definition core_le (a b : TopologyEntry) : Prop := lex_lt (core_key b) (core_key a) = false.

Lemma entry_le_core a b : entry_le a b -> core_le a b.
Proof.
  unfold entry_le, core_le. rewrite entry_lt_lex. intros H. apply not_true_iff_false. intros H'.
  by rewrite (lex_app (core_key b) (core_key a) [thread_id b] [thread_id a] eq_refl H') in H.
Qed.

(** * The number of threads of a core *)

Definition core_size (t : list TopologyEntry) (e : TopologyEntry) : Z :=
  Z.of_nat (length (filter (fun x => core_key x = core_key e) t)).

Lemma core_size_cons x t e : core_size (x :: t) e = (if isSameCore x e then 1 else 0) + core_size t e.
Proof.
  unfold core_size. rewrite filter_cons. destruct (isSameCore x e) eqn:E.
  - rewrite decide_True by (by apply isSameCore_key). cbn [length]. lia.
  - rewrite decide_False by (by apply isSameCore_false). done.
Qed.

Lemma core_size_nonneg t e : 0 <= core_size t e.
Proof. unfold core_size. lia. Qed.

Lemma core_size_key t a b : core_key a = core_key b -> core_size t a = core_size t b.
Proof. unfold core_size. by intros ->. Qed.

Lemma core_size_zero t e : (forall x, x ∈ t -> core_key x <> core_key e) -> core_size t e = 0.
Proof.
  induction t as [|x t IH]; intros H; [done|]. rewrite core_size_cons, (proj2 (isSameCore_false x e)) by (apply H; left).
  rewrite IH; [done|]. intros y Hy. apply H. by right.
Qed.

Lemma count_threads_spec l f cur best : StronglySorted core_le (f :: l) -> 0 <= cur ->
  let r := count_threads l f cur best in
  (best <= r /\ cur + core_size l f <= r /\ (forall y, y ∈ l -> core_key y <> core_key f -> core_size l y <= r)) /\
  (r = best \/ r = cur + core_size l f \/ exists y, y ∈ l /\ core_key y <> core_key f /\ r = core_size l y).
Proof.
  cbv zeta. revert f cur best. induction l as [|e l IH]; intros f cur best Hs Hcur; cbn [count_threads].
  { unfold core_size. cbn. split; [split_and!; try lia; by intros y ?%elem_of_nil|]. lia. }
  inversion_clear Hs as [|? ? Hs' Hf]. apply Forall_cons in Hf as [Hfe Hfl].
  rewrite core_size_cons. destruct (isSameCore e f) eqn:E.
  - apply isSameCore_key in E.
    assert (Hsf : StronglySorted core_le (f :: l)) by (constructor; [by inversion Hs'|done]).
    destruct (IH f (cur + 1) best Hsf ltac:(lia)) as [(H1 & H2 & H3) H4].
    assert (Hother : forall y, core_key y <> core_key f -> core_size (e :: l) y = core_size l y).
    { intros y Hy. rewrite core_size_cons, (proj2 (isSameCore_false e y)) by congruence. lia. }
    split; [split_and!; [done|lia|]|].
    + intros y [->|Hy]%elem_of_cons Hne; [congruence|]. rewrite Hother by done. auto.
    + destruct H4 as [H4|[H4|(y & Hy & Hne & H4)]]; [by left|right; left; lia|]. right. right. exists y. rewrite Hother by done.
      split; [by right|done].
  - apply isSameCore_false in E. destruct (IH e 1 (Z.max best cur) Hs' ltac:(lia)) as [(H1 & H2 & H3) H4].
    assert (Hzero : core_size l f = 0).
    { apply core_size_zero. intros x Hx Ex. apply E. inversion Hs' as [|? ? Hsl Hel]. subst.
      pose proof (proj1 (Forall_forall _ _) Hel x Hx) as Hex. unfold core_le in *. rewrite Ex in Hex.
      by apply lex_total. }
    assert (He : core_size (e :: l) e = 1 + core_size l e) by (rewrite core_size_cons, (proj2 (isSameCore_key e e)); done).
    assert (Hother : forall y, core_key y <> core_key e -> core_size (e :: l) y = core_size l y).
    { intros y Hy. rewrite core_size_cons, (proj2 (isSameCore_false e y)) by congruence. lia. }
    split; [split_and!; [lia|lia|]|].
    + intros y Hy Hne. destruct (decide (core_key y = core_key e)) as [Ek|Ek].
      * rewrite (core_size_key _ _ _ Ek), He. lia.
      * rewrite Hother by done. apply elem_of_cons in Hy as [->|Hy]; [done|]. auto.
    + destruct H4 as [H4|[H4|(y & Hy & Hne & H4)]].
      * destruct (Z.max_spec best cur) as [[_ E']|[_ E']]; [right; left; lia|left; lia].
      * right. right. exists e. rewrite He. split; [by left|]. split; [congruence|done].
      * destruct (decide (core_key y = core_key f)) as [Ek|Ek].
        { rewrite (core_size_key _ _ _ Ek) in H4. rewrite H4 in *. right. left. lia. }
        right. right. exists y. rewrite Hother by done. split; [by right|done].
Qed.

Lemma core_size_perm t t' e : t ≡ₚ t' -> core_size t e = core_size t' e.
Proof. intros H. unfold core_size. by rewrite H. Qed.

(** Entries as [discoverSystemTopology] has them: of online cores, with identifiers from
    CPUID, and of the others. *)
Definition entry_valid (e : TopologyEntry) : Prop :=
  e = TopologyEntry_init \/ (0 <= os_id e /\ 0 <= core_id e /\ 0 <= socket_id e).

Lemma valid_online e : entry_valid e -> entry_online e = true -> 0 <= os_id e /\ 0 <= core_id e /\ 0 <= socket_id e.
Proof. by intros [->|H]. Qed.

Lemma valid_offline e : entry_valid e -> entry_online e = false -> e = TopologyEntry_init.
Proof.
  intros [->|(H1 & H2 & H3)]; [done|]. unfold entry_online. rewrite !andb_false_iff, !negb_false_iff, !Z.eqb_eq. lia.
Qed.

(** The entries of online cores come after the others. *)
Lemma skip_offline_sorted l : Forall entry_valid l -> StronglySorted entry_le l ->
  skip_offline l = filter (fun e => entry_online e = true) l.
Proof.
  intros Hv Hs. induction Hs as [|e l Hs IH He]; [done|]. apply Forall_cons in Hv as [Hve Hv]. cbn [skip_offline].
  rewrite filter_cons. destruct (entry_online e) eqn:E; [|by rewrite decide_False, IH].
  rewrite decide_True by done. f_equal. symmetry. clear IH Hs.
  induction l as [|x l IH]; [done|]. apply Forall_cons in Hv as [Hvx Hv], He as [Hx He]. rewrite filter_cons_True; [by rewrite IH|].
  destruct (entry_online x) eqn:Ex; [done|]. apply valid_offline in Ex as ->; [|done].
  apply valid_online in E as (_ & _ & Hsk); [|done]. unfold entry_le, entry_lt in Hx. cbn [socket_id TopologyEntry_init] in Hx.
  destruct (Z.eqb_spec (-1) (socket_id e)); [lia|]. cbn [negb] in Hx. apply Z.ltb_ge in Hx. lia.
Qed.

Lemma StronglySorted_mono {A} (R R' : A -> A -> Prop) l : (forall a b, R a b -> R' a b) -> StronglySorted R l -> StronglySorted R' l.
Proof. intros HR. induction 1 as [|a l Hs IH Ha]; constructor; [done|]. eapply Forall_impl; eauto. Qed.

(** [threads_per_core] is the size of the largest core. *)
Lemma max_threads_spec t : Forall entry_valid t ->
  (forall e, e ∈ t -> entry_online e = true -> core_size t e <= max_threads t) /\
  ((exists e, e ∈ t /\ entry_online e = true) -> exists e, e ∈ t /\ entry_online e = true /\ max_threads t = core_size t e).
Proof.
  intros Hv. unfold max_threads. pose proof (merge_sort_Permutation entry_le t) as Hp.
  assert (Hs : StronglySorted entry_le (merge_sort entry_le t)).
  { apply Sorted_StronglySorted; [exact _|]. apply Sorted_merge_sort. exact _. }
  set (l := merge_sort entry_le t) in *. rewrite skip_offline_sorted by (done || by rewrite Hp).
  set (o := filter _ l). assert (Ho : forall e, e ∈ o <-> e ∈ t /\ entry_online e = true).
  { intros e. unfold o. rewrite list_elem_of_filter, Hp. tauto. }
  assert (Hsize : forall e, entry_online e = true -> entry_valid e -> core_size t e = core_size o e).
  { intros e He Hve. rewrite <- (core_size_perm _ _ e Hp). unfold o. clear o Ho Hs.
    assert (Hvl : Forall entry_valid l) by (by rewrite Hp). clear Hp Hv. induction Hvl as [|x l' Hx Hl IH]; [done|].
    rewrite core_size_cons, filter_cons. destruct (entry_online x) eqn:Ex.
    - by rewrite decide_True, core_size_cons, IH.
    - rewrite decide_False, IH by done. apply valid_offline in Ex as ->; [|done].
      rewrite (proj2 (isSameCore_false _ _)); [done|]. intros [= E]. apply valid_online in He; [lia|done]. }
  assert (Hso : StronglySorted core_le o).
  { apply (StronglySorted_mono entry_le); [apply entry_le_core|]. unfold o. clear -Hs. induction Hs as [|x l Hs IH Hx]; [constructor|].
    rewrite filter_cons. case_decide; [|done]. constructor; [done|]. apply Forall_forall. intros y [_ Hy]%list_elem_of_filter.
    exact (proj1 (Forall_forall _ _) Hx y Hy). }
  destruct o as [|f o'] eqn:Eo.
  - split; [|intros (e & H)]; [intros e H1 H2|]; exfalso; eapply not_elem_of_nil; apply Ho; eauto.
  - assert (Hff : StronglySorted core_le (f :: f :: o')).
    { constructor; [done|]. constructor; [unfold core_le; apply lex_irrefl|]. by inversion Hso. }
    assert (Hvo : forall e, e ∈ f :: o' -> entry_online e = true /\ entry_valid e).
    { intros e [He1 He2]%Ho. split; [done|]. exact (proj1 (Forall_forall _ _) Hv e He1). }
    destruct (count_threads_spec (f :: o') f 0 0 Hff ltac:(lia)) as [(H1 & H2 & H3) H4]. split.
    + intros e He1 He2. assert (He : e ∈ f :: o') by (by apply Ho). destruct (Hvo e He) as [_ Hve]. rewrite (Hsize e He2 Hve).
      destruct (decide (core_key e = core_key f)) as [Ek|]; [rewrite (core_size_key _ _ _ Ek); lia|auto].
    + intros _. destruct (Hvo f ltac:(left)) as [Hf1 Hf2].
      assert (Hf : f ∈ t /\ entry_online f = true) by (apply Ho; left).
      assert (Hpos : 1 <= core_size (f :: o') f).
      { rewrite core_size_cons, (proj2 (isSameCore_key f f)) by done. pose proof (core_size_nonneg o' f). lia. }
      destruct H4 as [H4|[H4|(y & Hy & _ & H4)]].
      * exists f. rewrite (Hsize f Hf1 Hf2). split; [apply Hf|]. split; [done|lia].
      * exists f. rewrite (Hsize f Hf1 Hf2). split; [apply Hf|]. split; [done|lia].
      * exists y. destruct (Hvo y Hy) as [Hy1 Hy2]. rewrite (Hsize y Hy1 Hy2). split; [by apply Ho|done].
Qed.

(** * The tree as groups of the entries *)

Definition ht_key (h : HyperThread) : list Z := core_key (te h).

(** The different cores of some threads in the order of their first thread. *)
Definition core_keys (l : list HyperThread) : list (list Z) :=
  foldl (fun ks h => if decide (ht_key h ∈ ks) then ks else ks ++ [ht_key h]) [] l.

Definition threads_of_core (l : list HyperThread) (k : list Z) : core_node := filter (fun h => ht_key h = k) l.

Definition cores_of (l : list HyperThread) : list core_node := map (threads_of_core l) (core_keys l).

Definition threads_of_socket (l : list HyperThread) (s : nat) : list HyperThread :=
  filter (fun h => socket_id (te h) = Z.of_nat s) l.

(** The tree for [n] sockets. *)
Definition tree_of (n : nat) (l : list HyperThread) : SystemRoot :=
  MkSystemRoot (map (fun s => SocketNode (Z.of_nat s) (cores_of (threads_of_socket l s))) (seq 0 n))
    (filter (fun h => ht_status h = Offline) l).

(** The thread that an entry becomes. *)
Definition in_sockets (n : nat) (e : TopologyEntry) : bool := (0 <=? socket_id e) && (socket_id e <? Z.of_nat n).
Definition thread_of (n i : nat) (e : TopologyEntry) : HyperThread :=
  MkHyperThread (Z.of_nat i) e (if in_sockets n e then Online else Offline).

Lemma core_keys_snoc l h : core_keys (l ++ [h]) = if decide (ht_key h ∈ core_keys l) then core_keys l else core_keys l ++ [ht_key h].
Proof. unfold core_keys. by rewrite foldl_app. Qed.

Lemma elem_of_core_keys l k : k ∈ core_keys l <-> exists h, h ∈ l /\ ht_key h = k.
Proof.
  induction l as [|h l IH] using rev_ind; [split; [by intros ?%elem_of_nil|by intros (? & ?%elem_of_nil & _)]|].
  rewrite core_keys_snoc. setoid_rewrite elem_of_app. setoid_rewrite list_elem_of_singleton.
  case_decide as Hd.
  - rewrite IH. split; [intros (x & Hx & E); eauto|]. intros (x & [Hx| ->] & E); [eauto|]. subst k. by apply IH.
  - rewrite elem_of_app, list_elem_of_singleton, IH. split.
    + intros [(x & Hx & E)| ->]; eauto.
    + intros (x & [Hx| ->] & E); [left; eauto|by right].
Qed.

Lemma core_keys_NoDup l : NoDup (core_keys l).
Proof.
  induction l as [|h l IH] using rev_ind; [constructor|]. rewrite core_keys_snoc. case_decide; [done|].
  apply NoDup_app. split; [done|]. split; [intros k Hk ->%list_elem_of_singleton; done|apply NoDup_singleton].
Qed.

Lemma threads_of_core_snoc l h k : threads_of_core (l ++ [h]) k = threads_of_core l k ++ (if decide (ht_key h = k) then [h] else []).
Proof. unfold threads_of_core. rewrite filter_app, filter_cons, filter_nil. by case_decide. Qed.

Lemma filter_none {A} (P : A -> Prop) `{forall x, Decision (P x)} l : (forall x, x ∈ l -> ~ P x) -> filter P l = [].
Proof.
  induction l as [|x l IH]; intros Hl; [done|]. rewrite filter_cons_False by (apply Hl; left). apply IH. intros y Hy. apply Hl. by right.
Qed.

Section AddThread.
Context (m os : Z) (e : TopologyEntry) (Hm : thread_id e < m).

Let h : HyperThread := MkHyperThread os e Online.

Lemma addHyperThreadInfo_new c : (forall x, x ∈ c -> osID x <> os) -> addHyperThreadInfo m os e c = Ok (c ++ [h]).
Proof.
  intros Hc. unfold addHyperThreadInfo. destruct (Z.leb_spec m (thread_id e)); [lia|].
  destruct (existsb _ c) eqn:E; [|done]. apply existsb_exists in E as (x & Hx%list_elem_of_In & E). apply Z.eqb_eq in E.
  by destruct (Hc x Hx).
Qed.

Lemma add_to_cores_groups l ks : (forall x, x ∈ l -> osID x <> os) -> NoDup ks ->
  (forall k, k ∈ ks -> exists x, x ∈ l /\ ht_key x = k) ->
  add_to_cores m os e (map (threads_of_core l) ks) =
    Ok (map (threads_of_core (l ++ [h])) ks ++ (if decide (ht_key h ∈ ks) then [] else [[h]])).
Proof.
  intros Hos. induction ks as [|k ks IH]; intros Hnd Hne; cbn [map add_to_cores].
  { rewrite decide_False by apply not_elem_of_nil. rewrite addHyperThreadInfo_new by (by intros x ?%elem_of_nil). done. }
  apply NoDup_cons in Hnd as [Hk Hnd].
  assert (Hin : forall x, x ∈ threads_of_core l k -> x ∈ l /\ ht_key x = k).
  { intros x. unfold threads_of_core. rewrite list_elem_of_filter. tauto. }
  destruct (Hne k ltac:(left)) as (x & Hx & Ex).
  assert (Hxin : x ∈ threads_of_core l k) by (unfold threads_of_core; by apply list_elem_of_filter).
  destruct (threads_of_core l k) as [|h1 c] eqn:E; [by apply elem_of_nil in Hxin|].
  destruct (Hin h1 ltac:(left)) as [_ Eh1]. destruct (isSameCore (te h1) e) eqn:Esame.
  - apply isSameCore_key in Esame. assert (Ekey : ht_key h = k) by (rewrite <- Eh1; unfold ht_key, h; cbn; congruence).
    rewrite addHyperThreadInfo_new by (intros y Hy; apply Hos; by apply Hin). cbn [mbind res_bind].
    rewrite (decide_True (P := ht_key h ∈ k :: ks)), app_nil_r by (rewrite Ekey; left). f_equal. f_equal.
    + rewrite threads_of_core_snoc, E, decide_True by done. done.
    + apply map_ext_in. intros k' Hk'%list_elem_of_In. rewrite threads_of_core_snoc, decide_False, app_nil_r; [done|]. intros E'. congruence.
  - apply isSameCore_false in Esame. assert (Ekey : ht_key h <> k) by (rewrite <- Eh1; unfold ht_key, h; cbn; congruence).
    rewrite IH by (done || (intros; apply Hne; by right)). cbn [mbind res_bind]. f_equal. rewrite <- app_comm_cons. f_equal.
    + by rewrite threads_of_core_snoc, E, decide_False, app_nil_r.
    + f_equal. destruct (decide (ht_key h ∈ ks)) as [Hd|Hd].
      * by rewrite decide_True by (by right).
      * by rewrite decide_False by (intros [?|?]%elem_of_cons; done).
Qed.

Lemma add_to_cores_spec l : (forall x, x ∈ l -> osID x <> os) -> add_to_cores m os e (cores_of l) = Ok (cores_of (l ++ [h])).
Proof.
  intros Hos. unfold cores_of. rewrite add_to_cores_groups; [|done|apply core_keys_NoDup|intros k; apply elem_of_core_keys].
  rewrite core_keys_snoc. f_equal. case_decide as Hd; [by rewrite app_nil_r|]. rewrite map_app. f_equal. cbn [map]. f_equal.
  rewrite threads_of_core_snoc, decide_True by done. unfold threads_of_core.
  rewrite filter_none; [done|]. intros x Hx E. apply Hd. apply elem_of_core_keys. eauto.
Qed.

End AddThread.

Lemma threads_of_socket_snoc l h s :
  threads_of_socket (l ++ [h]) s = threads_of_socket l s ++ (if decide (socket_id (te h) = Z.of_nat s) then [h] else []).
Proof. unfold threads_of_socket. rewrite filter_app, filter_cons, filter_nil. by case_decide. Qed.

Lemma add_to_sockets_spec m os e l ss :
  (forall x, x ∈ l -> osID x <> os) -> NoDup ss ->
  ((exists s, s ∈ ss /\ socket_id e = Z.of_nat s) -> thread_id e < m) ->
  add_to_sockets m os e (map (fun s => SocketNode (Z.of_nat s) (cores_of (threads_of_socket l s))) ss) =
    Ok (if existsb (fun s => Z.of_nat s =? socket_id e) ss
        then Some (map (fun s => SocketNode (Z.of_nat s) (cores_of (threads_of_socket (l ++ [MkHyperThread os e Online]) s))) ss)
        else None).
Proof.
  intros Hos. induction ss as [|s ss IH]; intros Hnd Hm; [done|]. apply NoDup_cons in Hnd as [Hs Hnd].
  cbn [map add_to_sockets logicalID cores existsb]. destruct (Z.eqb_spec (Z.of_nat s) (socket_id e)) as [E|E]; cbn [orb].
  - rewrite add_to_cores_spec.
    + cbn [mbind res_bind]. rewrite threads_of_socket_snoc, decide_True by done. do 3 f_equal. apply map_ext_in. intros s' Hs'%list_elem_of_In.
      rewrite threads_of_socket_snoc, decide_False, app_nil_r; [done|]. cbn [te]. intros E'. apply Hs. by replace s with s' by lia.
    + apply Hm. exists s. split; [left|done].
    + intros x Hx. apply Hos. unfold threads_of_socket in Hx. by apply list_elem_of_filter in Hx as [_ Hx].
  - rewrite IH by (done || (intros (s' & Hs' & E'); apply Hm; exists s'; split; [by right|done])). cbn [mbind res_bind].
    rewrite threads_of_socket_snoc, decide_False, app_nil_r by (cbn [te]; lia). by destruct (existsb _ ss).
Qed.

Lemma in_sockets_seq n e : in_sockets n e = existsb (fun s => Z.of_nat s =? socket_id e) (seq 0 n).
Proof.
  apply eq_bool_prop_intro. split.
  - intros H%Is_true_true_1. unfold in_sockets in H. apply andb_true_iff in H as [H1%Z.leb_le H2%Z.ltb_lt].
    apply Is_true_true_2, existsb_exists. exists (Z.to_nat (socket_id e)). rewrite in_seq. split; [lia|]. apply Z.eqb_eq. lia.
  - intros (s & Hs%in_seq & E%Z.eqb_eq)%Is_true_true_1%existsb_exists. apply Is_true_true_2. unfold in_sockets.
    rewrite <- E. apply andb_true_iff. rewrite Z.leb_le, Z.ltb_lt. lia.
Qed.

Lemma addThread_tree m n i e l : (forall x, x ∈ l -> osID x <> Z.of_nat i) -> (in_sockets n e = true -> thread_id e < m) ->
  addThread m (Z.of_nat i) e (tree_of n l) = Ok (tree_of n (l ++ [thread_of n i e])).
Proof.
  intros Hos Hm. unfold addThread, tree_of, thread_of. cbn [sockets offlinedThreadsAtStart].
  rewrite add_to_sockets_spec; [|done|apply NoDup_seq|].
  - rewrite <- in_sockets_seq. cbn [mbind res_bind]. f_equal. destruct (in_sockets n e) eqn:E; f_equal.
    + by rewrite filter_app, filter_cons_False, filter_nil, app_nil_r.
    + apply map_ext_in. intros s Hs%in_seq. f_equal. f_equal.
      rewrite threads_of_socket_snoc, decide_False, app_nil_r; [done|]. cbn [te]. intros E'. unfold in_sockets in E.
      apply andb_false_iff in E as [E%Z.leb_gt|E%Z.ltb_ge]; lia.
    + by rewrite filter_app, filter_cons_True, filter_nil.
  - intros (s & Hs%elem_of_seq & E). apply Hm. rewrite in_sockets_seq. apply existsb_exists. exists s. rewrite in_seq. split; [lia|]. by apply Z.eqb_eq.
Qed.

Lemma add_threads_tree m n k l done_ : (forall x, x ∈ done_ -> osID x < Z.of_nat k) ->
  (forall e, e ∈ l -> in_sockets n e = true -> thread_id e < m) ->
  add_threads m k l (tree_of n done_) = Ok (tree_of n (done_ ++ imap (fun i e => thread_of n (k + i) e) l)).
Proof.
  revert k done_. induction l as [|e l IH]; intros k done_ Hd Hm; cbn [add_threads imap]; [by rewrite app_nil_r|].
  rewrite addThread_tree; [|intros x Hx%Hd; lia|apply Hm; left]. cbn [mbind res_bind]. rewrite IH.
  - rewrite <- (assoc_L (++)), Nat.add_0_r. cbn [app]. do 4 f_equal. apply imap_ext. intros i x _. unfold compose. f_equal. lia.
  - intros x [Hx%Hd| ->%list_elem_of_singleton]%elem_of_app; [lia|]. cbn. lia.
  - intros x Hx. apply Hm. by right.
Qed.

(** An entry with a thread number that its core cannot have. *)
Lemma add_threads_refused m n k l done_ : (forall x, x ∈ done_ -> osID x < Z.of_nat k) ->
  (exists e, e ∈ l /\ in_sockets n e = true /\ m <= thread_id e) ->
  add_threads m k l (tree_of n done_) = Throw RuntimeError.
Proof.
  revert k done_. induction l as [|e l IH]; intros k done_ Hd (x & Hx & Hin & Hm); [by apply elem_of_nil in Hx|]. cbn [add_threads].
  destruct (decide (in_sockets n e = true /\ m <= thread_id e)) as [[Hin' Hm']|Hne].
  - enough (addThread m (Z.of_nat k) e (tree_of n done_) = Throw RuntimeError) as -> by done.
    unfold addThread. enough (add_to_sockets m (Z.of_nat k) e (sockets (tree_of n done_)) = Throw RuntimeError) as -> by done.
    rewrite in_sockets_seq in Hin'. unfold tree_of. cbn [sockets]. clear -Hin' Hm'.
    assert (Hc : forall l ks, (forall k, k ∈ ks -> threads_of_core l k <> []) ->
      add_to_cores m (Z.of_nat k) e (map (threads_of_core l) ks) = Throw RuntimeError).
    { assert (Hadd : forall c, addHyperThreadInfo m (Z.of_nat k) e c = Throw RuntimeError).
      { intros c. unfold addHyperThreadInfo. destruct (Z.leb_spec m (thread_id e)); [done|lia]. }
      intros l ks. induction ks as [|c ks IH]; intros Hks; cbn [map add_to_cores]; [by rewrite Hadd|].
      pose proof (Hks c ltac:(left)). destruct (threads_of_core l c) as [|h1 c1]; [done|].
      destruct (isSameCore _ _); [by rewrite Hadd|]. rewrite IH; [done|]. intros c' Hc'. apply Hks. by right. }
    induction (seq 0 n) as [|s ss IH]; [done|]. cbn [map add_to_sockets logicalID cores existsb] in *.
    destruct (Z.of_nat s =? socket_id e); [|by rewrite IH].
    enough (add_to_cores m (Z.of_nat k) e (cores_of (threads_of_socket done_ s)) = Throw RuntimeError) as -> by done. apply Hc.
    intros c (h & Hh & E)%elem_of_core_keys E'. assert (Hin : h ∈ threads_of_core (threads_of_socket done_ s) c).
    { unfold threads_of_core. by apply list_elem_of_filter. }
    rewrite E' in Hin. by apply elem_of_nil in Hin.
  - rewrite addThread_tree.
    + cbn [mbind res_bind]. apply IH.
      * intros y [Hy%Hd| ->%list_elem_of_singleton]%elem_of_app; [lia|]. cbn. lia.
      * exists x. apply elem_of_cons in Hx as [->|Hx]; [|done]. by destruct Hne.
    + intros y Hy%Hd. lia.
    + intros Hin'. apply Z.nle_gt. intros Hm'. by apply Hne.
Qed.

(** Every thread is in the tree or in the list of offline ones, once. *)
Lemma cores_of_perm l : concat (cores_of l) ≡ₚ l.
Proof.
  unfold cores_of. assert (H : forall ks, NoDup ks -> concat (map (threads_of_core l) ks) ≡ₚ filter (fun h => ht_key h ∈ ks) l).
  { intros ks. induction ks as [|k ks IH]; intros Hnd; cbn [map concat].
    - rewrite filter_none; [done|]. intros x _. apply not_elem_of_nil.
    - apply NoDup_cons in Hnd as [Hk Hnd]. rewrite IH by done. clear IH Hnd. induction l as [|h l IH]; [done|].
      unfold threads_of_core in *. rewrite !filter_cons. destruct (decide (ht_key h = k)) as [E|E].
      + rewrite decide_False by congruence. rewrite decide_True by (rewrite E; left). cbn. by rewrite IH.
      + destruct (decide (ht_key h ∈ ks)) as [E'|E'].
        * rewrite decide_True by (by right). rewrite <- Permutation_middle. by rewrite IH.
        * rewrite decide_False by (intros [?|?]%elem_of_cons; done). done. }
  rewrite H by apply core_keys_NoDup. clear H. enough (filter (fun h => ht_key h ∈ core_keys l) l = l) as -> by done.
  assert (Hall : Forall (fun h => ht_key h ∈ core_keys l) l).
  { apply Forall_forall. intros h Hh. apply elem_of_core_keys. eauto. }
  revert Hall. generalize (core_keys l) as ks. intros ks. induction 1 as [|h l' Hh _ IH]; [done|].
  by rewrite filter_cons_True, IH.
Qed.

Lemma tree_perm n l : (forall h, h ∈ l -> ht_status h = Offline <-> in_sockets n (te h) = false) ->
  tree_threads (tree_of n l) ++ offlinedThreadsAtStart (tree_of n l) ≡ₚ l.
Proof.
  intros Hl. unfold tree_threads, tree_of. cbn [sockets offlinedThreadsAtStart]. rewrite map_map. cbn [socket_threads cores].
  assert (H : concat (map (fun s => socket_threads (SocketNode (Z.of_nat s) (cores_of (threads_of_socket l s)))) (seq 0 n)) ≡ₚ
              filter (fun h => in_sockets n (te h) = true) l).
  { assert (Hs : forall ss, NoDup ss -> concat (map (fun s => socket_threads (SocketNode (Z.of_nat s) (cores_of (threads_of_socket l s)))) ss) ≡ₚ
      filter (fun h => existsb (fun s => Z.of_nat s =? socket_id (te h)) ss = true) l).
    { intros ss. clear Hl. induction ss as [|s ss IH]; intros Hnd; cbn [map concat existsb].
      - by rewrite filter_none by done.
      - apply NoDup_cons in Hnd as [Hs Hnd]. unfold socket_threads at 1. cbn [cores]. rewrite cores_of_perm, IH by done. clear IH.
        induction l as [|h l IH]; [done|]. unfold threads_of_socket in *. rewrite !filter_cons.
        destruct (Z.eqb_spec (Z.of_nat s) (socket_id (te h))) as [E|E]; cbn [orb].
        + rewrite (decide_True (P := socket_id (te h) = _)), (decide_True (P := true = true)), decide_False by (done || (intros (s' & Hs' & E')%existsb_exists;
            apply Z.eqb_eq in E'; apply Hs; apply list_elem_of_In; by replace s with s' by lia)). cbn. by rewrite IH.
        + rewrite (decide_False (P := socket_id (te h) = _)) by congruence. destruct (decide (existsb _ ss = true)).
          * rewrite <- Permutation_middle. by rewrite IH.
          * done. }
    rewrite Hs by apply NoDup_seq. clear Hs. apply reflexive_eq. clear Hl. induction l as [|h l IH]; [done|].
    rewrite !filter_cons, in_sockets_seq, IH. done. }
  rewrite H. clear H. induction l as [|h l IH]; [done|]. rewrite !filter_cons.
  specialize (IH (fun x Hx => Hl x (proj2 (elem_of_cons _ _ _) (or_intror Hx)))). specialize (Hl h ltac:(left)).
  destruct (in_sockets n (te h)).
  - rewrite decide_True, decide_False by (done || (intros E%Hl; done)). cbn. by rewrite IH.
  - rewrite decide_False, decide_True by (done || by apply Hl). rewrite <- Permutation_middle. by rewrite IH.
Qed.

(** * The numbers of the sockets *)

Lemma elem_of_add_key id keys k : k ∈ add_key id keys <-> k = id \/ k ∈ keys.
Proof.
  induction keys as [|x keys IH]; cbn [add_key]; [by rewrite list_elem_of_singleton, elem_of_nil; tauto|].
  destruct (id <? x); [by rewrite !elem_of_cons|]. destruct (Z.eqb_spec id x) as [->|].
  - rewrite !elem_of_cons. tauto.
  - rewrite !elem_of_cons, IH. tauto.
Qed.

Lemma add_key_sorted id keys : StronglySorted Z.lt keys -> StronglySorted Z.lt (add_key id keys).
Proof.
  induction 1 as [|x keys Hs IH Hx]; cbn [add_key]; [by repeat constructor|].
  destruct (Z.ltb_spec id x).
  - constructor; [by constructor|]. constructor; [done|]. eapply Forall_impl; [exact Hx|]. intros y Hy. simpl in Hy. lia.
  - destruct (Z.eqb_spec id x); [by constructor|]. constructor; [done|]. apply Forall_forall. intros y [->|Hy]%elem_of_add_key; [lia|].
    exact (proj1 (Forall_forall _ _) Hx y Hy).
Qed.

Lemma key_index_lookup id keys : id ∈ keys -> keys !! Z.to_nat (key_index id keys) = Some id /\ 0 <= key_index id keys < Z.of_nat (length keys).
Proof.
  induction keys as [|x keys IH]; [by intros ?%elem_of_nil|]. intros H. cbn [key_index length].
  destruct (Z.eqb_spec id x) as [->|Hne]; [split; [done|lia]|]. apply elem_of_cons in H as [|H]; [done|].
  destruct (IH H) as [H1 H2]. split; [|lia]. replace (Z.to_nat (1 + key_index id keys)) with (S (Z.to_nat (key_index id keys))) by lia. done.
Qed.

Lemma key_index_at keys i k : StronglySorted Z.lt keys -> keys !! i = Some k -> key_index k keys = Z.of_nat i.
Proof.
  intros Hs. revert i. induction Hs as [|x keys Hs IH Hx]; intros i Hi; [done|]. cbn [key_index]. destruct i as [|i].
  - injection Hi as ->. by rewrite Z.eqb_refl.
  - simpl in Hi. pose proof (proj1 (Forall_forall _ _) Hx k (list_elem_of_lookup_2 _ _ _ Hi)) as Hlt. simpl in Hlt.
    destruct (Z.eqb_spec k x); [lia|]. rewrite (IH i Hi). lia.
Qed.

(** * Discovery *)

(** The entry of a processor that [/proc/cpuinfo] lists and that can be reached. *)
Definition entry_of (populate : Z -> option TopologyEntry) (processors : list Z) (i : nat) : TopologyEntry :=
  if decide (Z.of_nat i ∈ processors) then default TopologyEntry_init (populate (Z.of_nat i)) else TopologyEntry_init.

Section Discovery.
Context (populate : Z -> option TopologyEntry).

Lemma read_processors_spec ps t keys k : NoDup ps -> (forall os, os ∈ ps -> 0 <= os < Z.of_nat (length t)) -> StronglySorted Z.lt keys ->
  exists t' keys', read_processors populate ps t keys k = Ok (t', keys', k + Z.of_nat (length (filter (fun os => is_Some (populate os)) ps))) /\
    length t' = length t /\ StronglySorted Z.lt keys' /\
    (forall i, (i < length t)%nat -> nth i t' TopologyEntry_init =
       (if decide (Z.of_nat i ∈ ps) then default (nth i t TopologyEntry_init) (populate (Z.of_nat i)) else nth i t TopologyEntry_init)) /\
    (forall x, x ∈ keys' <-> x ∈ keys \/ exists os e, os ∈ ps /\ populate os = Some e /\ x = u32 (socket_id e)).
Proof.
  revert t keys k. induction ps as [|os ps IH]; intros t keys k Hnd Hr Hs; cbn [read_processors].
  { exists t, keys. split_and!; [cbn; by rewrite Z.add_0_r|done|done| |].
    - intros i _. by rewrite decide_False by apply not_elem_of_nil.
    - intros x. split; [by left|]. intros [H|(os & e & H & _)]; [done|by apply elem_of_nil in H]. }
  apply NoDup_cons in Hnd as [Hos Hnd]. rewrite filter_cons. destruct (populate os) as [e|] eqn:E.
  - pose proof (Hr os ltac:(left)) as Hos'. rewrite (proj2 (orb_false_iff _ _)) by (rewrite Z.ltb_ge, Z.leb_gt; lia).
    rewrite decide_True by done.
    destruct (IH (<[Z.to_nat os := e]> t) (add_key (u32 (socket_id e)) keys) (k + 1)) as (t' & keys' & H1 & H2 & H3 & H4 & H5); [done| |by apply add_key_sorted|].
    { intros x Hx. rewrite length_insert. apply Hr. by right. }
    rewrite length_insert in *. exists t', keys'. split_and!; [|done|done| |].
    + rewrite H1. cbn [length]. do 2 f_equal. lia.
    + intros i Hi. rewrite (H4 i Hi). destruct (decide (os = Z.of_nat i)) as [->|Hne].
      * rewrite decide_False by done. rewrite Nat2Z.id, decide_True by (by left). rewrite E. cbn [default].
        by rewrite nth_lookup, list_lookup_insert_eq.
      * rewrite !nth_lookup, list_lookup_insert_ne by lia.
        destruct (decide (Z.of_nat i ∈ ps)); [by rewrite decide_True by (by right)|].
        rewrite decide_False; [done|]. intros [?|?]%elem_of_cons; [lia|done].
    + intros x. rewrite H5, elem_of_add_key. split.
      * intros [[->|H]|(os' & e' & Ho & Hp & ->)]; [right; exists os, e; split; [left|done]|by left|right; exists os', e'; split; [by right|done]].
      * intros [H|(os' & e' & Ho & Hp & ->)]; [by left; right|]. apply elem_of_cons in Ho as [->|Ho]; [left; left; congruence|right; eauto].
  - destruct (IH t keys k) as (t' & keys' & H1 & H2 & H3 & H4 & H5); [done|intros; apply Hr; by right|done|].
    rewrite decide_False by (by intros [? ?]). exists t', keys'. split_and!; [done|done|done| |].
    + intros i Hi. rewrite (H4 i Hi). destruct (decide (os = Z.of_nat i)) as [->|Hne].
      * rewrite decide_False, decide_True by (done || by left). by rewrite E.
      * destruct (decide (Z.of_nat i ∈ ps)); [by rewrite decide_True by (by right)|].
        rewrite decide_False; [done|]. intros [?|?]%elem_of_cons; [lia|done].
    + intros x. rewrite H5. split; intros [H|(os' & e' & Ho & Hp & ->)]; try by left.
      * right. exists os', e'. split; [by right|done].
      * apply elem_of_cons in Ho as [->|Ho]; [congruence|right; eauto].
Qed.

(** What [discoverSystemTopology] relies on. *)
Record machine_ok (max_present : Z) (ps : list Z) : Prop := MachineOk {
  some_present : 0 <= max_present;
  listed_once : NoDup ps;
  listed_present : forall os, os ∈ ps -> 0 <= os <= max_present;
  populated : forall os e, os ∈ ps -> populate os = Some e -> os_id e = os /\ 0 <= core_id e /\ 0 <= socket_id e < 2 ^ 31;
  one_online : exists os e, os ∈ ps /\ populate os = Some e
}.

Lemma with_socket_online s e : entry_online e = true -> s <> -1 -> entry_online (with_socket s e) = true.
Proof.
  unfold entry_online. rewrite !andb_true_iff, !negb_true_iff, !Z.eqb_neq. cbn. tauto.
Qed.

Lemma entry_of_valid mx ps i : machine_ok mx ps -> entry_valid (entry_of populate ps i) /\
  (entry_online (entry_of populate ps i) = true -> exists e, Z.of_nat i ∈ ps /\ populate (Z.of_nat i) = Some e /\ entry_of populate ps i = e).
Proof.
  intros Hok. unfold entry_of. destruct (decide (Z.of_nat i ∈ ps)) as [Hi|]; [|by split; [left|]].
  destruct (populate (Z.of_nat i)) as [e|] eqn:E; cbn [default]; [|by split; [left|]].
  destruct (populated _ _ Hok _ _ Hi E) as (H1 & H2 & H3). change (2 ^ 31) with 2147483648 in H3.
  split; [right; cbn; lia|]. intros _. by exists e.
Qed.

Lemma populated_online mx ps os e : machine_ok mx ps -> os ∈ ps -> populate os = Some e -> entry_online e = true.
Proof.
  intros Hok Hos E. destruct (populated _ _ Hok _ _ Hos E) as (H1 & H2 & H3). pose proof (listed_present _ _ Hok _ Hos).
  unfold entry_online. rewrite !andb_true_iff, !negb_true_iff, !Z.eqb_neq. lia.
Qed.

(** The topology as a function of the processors that can be reached. *)
Definition entries (mx : Z) (ps : list Z) : list TopologyEntry := map (entry_of populate ps) (seq 0 (Z.to_nat (mx + 1))).

Lemma read_entries mx ps : machine_ok mx ps -> exists keys online,
  read_processors populate ps (replicate (Z.to_nat (mx + 1)) TopologyEntry_init) [] 0 = Ok (entries mx ps, keys, online) /\
  StronglySorted Z.lt keys /\ forall x, x ∈ keys <-> exists os e, os ∈ ps /\ populate os = Some e /\ x = socket_id e.
Proof.
  intros Hok. destruct (read_processors_spec ps (replicate (Z.to_nat (mx + 1)) TopologyEntry_init) [] 0) as (t' & keys & H1 & H2 & H3 & H4 & H5);
    [apply Hok| |constructor|].
  { intros os Hos. rewrite length_replicate. pose proof (listed_present _ _ Hok _ Hos). lia. }
  assert (t' = entries mx ps) as ->.
  { apply (list_eq_same_length _ _ (length t')); [unfold entries; by rewrite H2, length_replicate, length_map, length_seq|done|].
    intros i x y Hi Hx Hy. rewrite H2, length_replicate in Hi. unfold entries in Hy.
    rewrite list_lookup_fmap, lookup_seq_lt in Hy by done. cbn in Hy. injection Hy as <-.
    specialize (H4 i). rewrite length_replicate in H4. specialize (H4 Hi). rewrite nth_lookup, Hx in H4. cbn in H4. rewrite H4.
    unfold entry_of. by rewrite nth_lookup, lookup_replicate_2. }
  exists keys. eexists. split_and!; [exact H1|done|].
  - intros x. rewrite H5. split.
    + intros [?%elem_of_nil|(os & e & Ho & E & ->)]; [done|]. exists os, e. split_and!; [done|done|].
      destruct (populated _ _ Hok _ _ Ho E) as (_ & _ & Hs). apply wrapN_small. unfold fits. change (2 ^ 31) with 2147483648 in Hs. change (2 ^ 32) with 4294967296. lia.
    + intros (os & e & Ho & E & ->). right. exists os, e. split_and!; [done|done|].
      destruct (populated _ _ Hok _ _ Ho E) as (_ & _ & Hs). symmetry. apply wrapN_small. unfold fits. change (2 ^ 31) with 2147483648 in Hs. change (2 ^ 32) with 4294967296. lia.
Qed.

(** The renumbered topology. *)
Definition renumbered (mx : Z) (ps keys : list Z) : list TopologyEntry := map (renumber keys) (entries mx ps).

Definition keys_of (ps keys : list Z) : Prop :=
  StronglySorted Z.lt keys /\ forall x, x ∈ keys <-> exists os e, os ∈ ps /\ populate os = Some e /\ x = socket_id e.

Lemma renumbered_spec mx ps keys e : machine_ok mx ps -> keys_of ps keys -> e ∈ renumbered mx ps keys ->
  entry_valid e /\ in_sockets (length keys) e = entry_online e.
Proof.
  intros Hok [Hs Hk] (e0 & -> & (i & -> & Hi)%list_elem_of_fmap)%list_elem_of_fmap.
  destruct (entry_of_valid mx ps i Hok) as [Hv Ho]. unfold renumber. destruct (entry_online (entry_of populate ps i)) eqn:E.
  - destruct (Ho eq_refl) as (e & Hin & Hp & ->). destruct (populated _ _ Hok _ _ Hin Hp) as (H1 & H2 & H3).
    rewrite wrapN_small by (unfold fits; change (2 ^ 31) with 2147483648 in H3; change (2 ^ 32) with 4294967296; lia).
    destruct (key_index_lookup (socket_id e) keys) as [_ Hr]; [apply Hk; eauto|].
    rewrite with_socket_online by ((unfold entry_of in E; by rewrite decide_True, Hp in E) || lia). split; [right; cbn; lia|]. unfold in_sockets. cbn [socket_id with_socket].
    rewrite andb_true_iff, Z.leb_le, Z.ltb_lt. lia.
  - split; [done|]. destruct Hv as [->|(H1 & H2 & H3)]; [done|]. unfold entry_online in E.
    rewrite !andb_false_iff, !negb_false_iff, !Z.eqb_eq in E. lia.
Qed.

(** Every socket has a thread. *)
Lemma renumbered_socket mx ps keys s : machine_ok mx ps -> keys_of ps keys -> (s < length keys)%nat ->
  exists i e, renumbered mx ps keys !! i = Some e /\ entry_online e = true /\ socket_id e = Z.of_nat s.
Proof.
  intros Hok [Hs Hk] Hlt. destruct (lookup_lt_is_Some_2 keys s Hlt) as [x Hx].
  destruct (proj1 (Hk x) (list_elem_of_lookup_2 _ _ _ Hx)) as (os & e & Hin & Hp & ->).
  pose proof (listed_present _ _ Hok _ Hin) as Hr. destruct (populated _ _ Hok _ _ Hin Hp) as (H1 & H2 & H3).
  pose proof (populated_online _ _ _ _ Hok Hin Hp) as Ho.
  exists (Z.to_nat os), (renumber keys e). split.
  - unfold renumbered, entries. rewrite !list_lookup_fmap, lookup_seq_lt by lia. cbn. do 2 f_equal. unfold entry_of.
    rewrite Z2Nat.id, decide_True, Hp by (done || lia). done.
  - unfold renumber. rewrite Ho.
    rewrite wrapN_small by (unfold fits; change (2 ^ 31) with 2147483648 in H3; change (2 ^ 32) with 4294967296; lia).
    rewrite (key_index_at keys s) by done. split; [apply with_socket_online; [done|lia]|done].
Qed.

Lemma keys_nonempty mx ps keys : machine_ok mx ps -> keys_of ps keys -> (0 < length keys)%nat.
Proof.
  intros Hok [Hs Hk]. destruct (one_online _ _ Hok) as (os & e & Ho & E).
  assert (H : socket_id e ∈ keys) by (apply Hk; eauto). destruct keys; [by apply elem_of_nil in H|cbn; lia].
Qed.

End Discovery.

(** The reference core of a socket: its last online core. *)
Lemma ref_cores_spec n t s : (forall e, e ∈ t -> entry_online e = true -> 0 <= socket_id e) ->
  (exists i e, t !! i = Some e /\ entry_online e = true /\ socket_id e = Z.of_nat s) -> (s < n)%nat ->
  exists i e, ref_cores n t !! s = Some (Z.of_nat i) /\ t !! i = Some e /\ entry_online e = true /\ socket_id e = Z.of_nat s /\
    forall j e', (i < j)%nat -> t !! j = Some e' -> entry_online e' = true -> socket_id e' <> Z.of_nat s.
Proof.
  intros Hv Hex Hs. unfold ref_cores.
  assert (Hlen : forall l refs, length (foldl set_ref refs l) = length refs).
  { intros l. induction l as [|ie l IH]; intros refs; [done|]. cbn [foldl]. rewrite IH. unfold set_ref. case_match; [|done]. apply length_insert. }
  induction t as [|e t IH] using rev_ind; [by destruct Hex as (i & e & H & _)|].
  rewrite imap_app, foldl_app. cbn [imap foldl]. unfold compose. rewrite Nat.add_0_r. unfold set_ref at 1. cbn [fst snd].
  assert (Hlast : (t ++ [e]) !! length t = Some e) by by apply list_lookup_middle.
  destruct (decide (entry_online e = true /\ socket_id e = Z.of_nat s)) as [[Ho Es]|Hne].
  - exists (length t), e. rewrite Ho, Es, Nat2Z.id, list_lookup_insert_eq by (by rewrite Hlen, length_replicate). split_and!; try done.
    intros j e' Hj Hl. apply lookup_lt_Some in Hl. rewrite length_app in Hl. cbn in Hl. lia.
  - destruct IH as (i & e' & H1 & H2 & H3 & H4 & H5).
    + intros x Hx. apply Hv. apply elem_of_app. by left.
    + destruct Hex as (i & e' & Hl & Ho & Es). apply lookup_snoc_Some in Hl as [[Hi Hl]|[_ ->]]; [by exists i, e'|]. by destruct Hne.
    + exists i, e'. split_and!; [|by apply lookup_app_l_Some|done|done|].
      * destruct (entry_online e) eqn:Ho; [|done]. rewrite list_lookup_insert_ne; [done|]. intros E. apply Hne. split; [done|].
        pose proof (Hv e ltac:(apply elem_of_app; right; left) Ho). lia.
      * intros j x Hj Hl Ho. apply lookup_snoc_Some in Hl as [[Hi Hl]|[_ ->]]; [by eapply H5|]. intros E. by apply Hne.
Qed.

Lemma ref_cores_length n t : length (ref_cores n t) = n.
Proof.
  unfold ref_cores. rewrite <- (length_replicate n (-1)) at 2. generalize (replicate n (-1)) as refs.
  induction (imap _ t) as [|ie l IH]; intros refs; [done|]. cbn [foldl]. rewrite IH. unfold set_ref. case_match; [|done]. apply length_insert.
Qed.

Lemma mapM_Ok {A B} (f : A -> res B) l : (forall x, x ∈ l -> exists y, f x = Ok y) -> exists ys, mapM f l = Ok ys.
Proof.
  induction l as [|x l IH]; intros Hl; [by exists []|]. destruct (Hl x ltac:(left)) as [y Hy].
  destruct IH as [ys Hys]; [intros; apply Hl; by right|]. exists (y :: ys). cbn [mapM]. rewrite Hy. cbn [mbind res_bind]. by rewrite Hys.
Qed.

(** Every socket has a reference core of its own. *)
Lemma refCores_found n l : (forall s, (s < n)%nat -> exists h, h ∈ threads_of_socket l s) -> exists refs, mapM refCore (sockets (tree_of n l)) = Ok refs.
Proof.
  intros Hs. apply mapM_Ok. intros x (s & -> & Hin%elem_of_seq)%list_elem_of_fmap.
  destruct (Hs s ltac:(lia)) as (h & Hh).
  assert (Hk : ht_key h ∈ core_keys (threads_of_socket l s)) by (apply elem_of_core_keys; eauto).
  unfold refCore, cores_of. cbn [cores]. destruct (core_keys (threads_of_socket l s)) as [|k ks]; [by apply elem_of_nil in Hk|].
  cbn [map]. eauto.
Qed.

Lemma initial_tree n : foldl (fun r s => addSocket s r) (MkSystemRoot [] []) (map Z.of_nat (seq 0 n)) = tree_of n [].
Proof.
  induction n as [|n IH]; [done|]. rewrite seq_S, map_app, foldl_app, IH. cbn. unfold addSocket, tree_of. cbn [sockets offlinedThreadsAtStart].
  by rewrite seq_S, map_app.
Qed.

Lemma filter_all {A} (P : A -> Prop) `{forall x, Decision (P x)} (l : list A) : (forall x, x ∈ l -> P x) -> filter P l = l.
Proof.
  induction l as [|x l IH]; intros Hl; [done|]. rewrite filter_cons_True by (apply Hl; left). f_equal. apply IH. intros y Hy. apply Hl. by right.
Qed.

(** The threads of the processors: [l] in the order of their numbers. *)
Definition all_threads (n : nat) (t : list TopologyEntry) : list HyperThread := imap (thread_of n) t.

Section Correct.
Context (populate : Z -> option TopologyEntry) (mx : Z) (ps keys : list Z).
Context (Hok : machine_ok populate mx ps) (Hkeys : keys_of populate ps keys).

Let t : list TopologyEntry := renumbered populate mx ps keys.
Let n : nat := length keys.

Lemma reference_cores : forall s, (s < n)%nat ->
  exists i e, ref_cores n t !! s = Some (Z.of_nat i) /\ t !! i = Some e /\ entry_online e = true /\ socket_id e = Z.of_nat s /\
    forall j e', (i < j)%nat -> t !! j = Some e' -> entry_online e' = true -> socket_id e' <> Z.of_nat s.
Proof.
  intros s Hs. apply ref_cores_spec; [|by apply (renumbered_socket _ mx ps keys)|done].
  intros e He Ho. destruct (renumbered_spec _ mx ps keys e Hok Hkeys He) as [Hv _]. by apply (valid_online e Hv Ho).
Qed.

Lemma all_online : length (filter (fun c => c <> -1) (ref_cores n t)) = n.
Proof.
  rewrite filter_all; [apply ref_cores_length|]. intros c Hc. apply list_elem_of_lookup in Hc as [s Hc].
  pose proof (lookup_lt_Some _ _ _ Hc) as Hs. rewrite ref_cores_length in Hs.
  destruct (reference_cores s Hs) as (i & e & H & _). rewrite Hc in H. injection H as ->. lia.
Qed.

Lemma all_refCores : exists refs, mapM refCore (sockets (tree_of n (all_threads n t))) = Ok refs.
Proof.
  apply refCores_found. intros s Hs. destruct (renumbered_socket _ mx ps keys s Hok Hkeys Hs) as (i & e & Hl & Ho & Es).
  exists (thread_of n i e). unfold threads_of_socket. apply list_elem_of_filter. split; [done|].
  apply (list_elem_of_lookup_2 _ i). unfold all_threads. rewrite list_lookup_imap. fold t in Hl. by rewrite Hl.
Qed.

Lemma threads_partitioned : tree_threads (tree_of n (all_threads n t)) ++ offlinedThreadsAtStart (tree_of n (all_threads n t)) ≡ₚ all_threads n t.
Proof.
  apply tree_perm. intros h Hh. unfold all_threads in Hh. apply elem_of_lookup_imap in Hh as (i & e & -> & _). cbn. by destruct (in_sockets n e).
Qed.

End Correct.

(** The largest core of the threads of online processors. *)
Definition largest_core (t : list TopologyEntry) (m : Z) : Prop :=
  (forall e, e ∈ t -> entry_online e = true -> core_size t e <= m) /\
  exists e, e ∈ t /\ entry_online e = true /\ m = core_size t e.

Lemma max_threads_largest populate mx ps keys : machine_ok populate mx ps -> keys_of populate ps keys ->
  largest_core (renumbered populate mx ps keys) (max_threads (renumbered populate mx ps keys)).
Proof.
  intros Hok Hkeys. destruct (max_threads_spec (renumbered populate mx ps keys)) as [H1 H2].
  { apply Forall_forall. intros e He. by apply (renumbered_spec _ _ _ _ _ Hok Hkeys) in He as [? _]. }
  split; [done|]. apply H2. destruct (renumbered_socket _ _ _ _ 0 Hok Hkeys (keys_nonempty _ _ _ _ Hok Hkeys)) as (i & e & Hl & Ho & _).
  exists e. split; [by eapply list_elem_of_lookup_2|done].
Qed.

(** What is computed from the processors and the keys. *)
Lemma discover_unfold populate mx ps : machine_ok populate mx ps -> exists keys phys online, keys_of populate ps keys /\
  let t := renumbered populate mx ps keys in let ns := length keys in
  discoverSystemTopology populate mx ps =
    (root ← add_threads (max_threads t) 0 t (tree_of ns []);
     _ ← mapM refCore (sockets root);
     Ok (Some (PcmTopology (Z.to_nat (mx + 1)) online ns (max_threads t) phys t root (ref_cores ns t)
                 (Z.of_nat (length (filter (fun c => c <> -1) (ref_cores ns t))))))).
Proof.
  intros Hok. destruct (read_entries populate mx ps Hok) as (keys & online & Hread & Hs & Hk).
  exists keys. do 2 eexists. split; [by split|]. cbv zeta. unfold discoverSystemTopology.
  pose proof (some_present _ _ _ Hok). destruct (Z.eqb_spec mx (-1)); [lia|].
  rewrite Hread. cbn [mbind res_bind]. rewrite Nat.max_l by (apply (keys_nonempty populate mx ps); [done|by split]).
  rewrite initial_tree. reflexivity.
Qed.

(** C21. What [discoverSystemTopology] computes from the processors it can reach, when every
    thread number is below the number of threads of the largest core: one entry per present
    processor, with the identifiers from CPUID and the sockets numbered in the order of their
    APIC identifiers; [threads_per_core] is the size of the largest core; the tree holds, for
    every socket, the threads grouped by core in the order of their numbers, and beside it the
    unreachable processors; the reference core of every socket is its last online core, so
    that all sockets count as online. A thread number above that bound makes it throw. *)
Theorem discovered_topology populate mx ps : machine_ok populate mx ps -> exists keys m,
  StronglySorted Z.lt keys /\ (forall x, x ∈ keys <-> exists os e, os ∈ ps /\ populate os = Some e /\ x = socket_id e) /\
  let t := map (fun i => renumber keys (entry_of populate ps i)) (seq 0 (Z.to_nat (mx + 1))) in
  let ns := length keys in
  largest_core t m /\
  ((forall e, e ∈ t -> entry_online e = true -> thread_id e < m) -> exists p,
    discoverSystemTopology populate mx ps = Ok (Some p) /\
    topology p = t /\ num_sockets p = ns /\ threads_per_core p = m /\ num_online_sockets p = Z.of_nat ns /\
    systemTopology p = tree_of ns (imap (thread_of ns) t) /\
    forall s, (s < ns)%nat -> exists i e, socketRefCore p !! s = Some (Z.of_nat i) /\
      t !! i = Some e /\ entry_online e = true /\ socket_id e = Z.of_nat s /\
      forall j e', (i < j)%nat -> t !! j = Some e' -> entry_online e' = true -> socket_id e' <> Z.of_nat s) /\
  ((exists e, e ∈ t /\ entry_online e = true /\ m <= thread_id e) -> discoverSystemTopology populate mx ps = Throw RuntimeError).
Proof.
  intros Hok. destruct (discover_unfold populate mx ps Hok) as (keys & phys & online & Hkeys & E). cbv zeta in *.
  exists keys, (max_threads (renumbered populate mx ps keys)). split; [apply Hkeys|]. split; [apply Hkeys|].
  assert (Et : map (fun i => renumber keys (entry_of populate ps i)) (seq 0 (Z.to_nat (mx + 1))) = renumbered populate mx ps keys).
  { unfold renumbered, entries. by rewrite map_map. }
  rewrite Et. split; [by apply max_threads_largest|].
  assert (Hin : forall e, e ∈ renumbered populate mx ps keys -> in_sockets (length keys) e = entry_online e).
  { intros e He. by apply (renumbered_spec populate mx ps keys e Hok Hkeys). }
  split.
  - intros Hm. rewrite add_threads_tree in E; [|by intros x ?%elem_of_nil|intros e He Hi; apply Hm; [done|by rewrite <- Hin]].
    cbn [mbind res_bind app] in E. destruct (all_refCores _ _ _ _ Hok Hkeys) as [refs Hrefs]. unfold all_threads in Hrefs.
    change (fun i e => thread_of (length keys) (0 + i) e) with (thread_of (length keys)) in E. rewrite Hrefs in E.
    eexists. split; [exact E|]. cbn [topology num_sockets threads_per_core num_online_sockets systemTopology socketRefCore].
    rewrite (all_online _ _ _ _ Hok Hkeys). split_and!; try done. by apply reference_cores.
  - intros (e & He & Ho & Hm). rewrite add_threads_refused in E; [done|by intros x ?%elem_of_nil|].
    exists e. split_and!; [done|by rewrite Hin|done].
Qed.

Definition example_entry (os : Z) : option TopologyEntry :=
  if (0 <=? os) && (os <? 4) then
    Some (Entry os (Z.land os 1) 0 0 0 0 0 (8 * Z.shiftr os 1 + 8) 0 0 (-1) (-1))
  else None.

Lemma example_machine_ok : machine_ok example_entry 4 [0; 2; 1; 3; 4].
Proof.
  constructor; [done| | | |].
  - repeat constructor; rewrite ?elem_of_cons, ?elem_of_nil; lia.
  - intros os. rewrite !elem_of_cons, elem_of_nil. lia.
  - intros os e _. unfold example_entry. destruct ((0 <=? os) && (os <? 4)) eqn:E; [|done]. intros [= <-].
    apply andb_true_iff in E as [H1%Z.leb_le H2%Z.ltb_lt]. cbn [os_id core_id socket_id].
    assert (0 <= Z.shiftr os 1 < 2) by (rewrite Z.shiftr_div_pow2 by lia; change (2 ^ 1) with 2; Z.div_mod_to_equations; lia).
    change (2 ^ 31) with 2147483648. lia.
  - exists 0. eexists. split; [left|reflexivity].
Qed.

(** Two sockets with a core of two threads each, and a processor that is offline. *)
Lemma discovered_topology_witness : exists keys m,
  StronglySorted Z.lt keys /\ (forall x, x ∈ keys <-> exists os e, os ∈ [0; 2; 1; 3; 4] /\ example_entry os = Some e /\ x = socket_id e) /\
  let t := map (fun i => renumber keys (entry_of example_entry [0; 2; 1; 3; 4] i)) (seq 0 (Z.to_nat (4 + 1))) in
  let ns := length keys in
  largest_core t m /\
  ((forall e, e ∈ t -> entry_online e = true -> thread_id e < m) -> exists p,
    discoverSystemTopology example_entry 4 [0; 2; 1; 3; 4] = Ok (Some p) /\
    topology p = t /\ num_sockets p = ns /\ threads_per_core p = m /\ num_online_sockets p = Z.of_nat ns /\
    systemTopology p = tree_of ns (imap (thread_of ns) t) /\
    forall s, (s < ns)%nat -> exists i e, socketRefCore p !! s = Some (Z.of_nat i) /\
      t !! i = Some e /\ entry_online e = true /\ socket_id e = Z.of_nat s /\
      forall j e', (i < j)%nat -> t !! j = Some e' -> entry_online e' = true -> socket_id e' <> Z.of_nat s) /\
  ((exists e, e ∈ t /\ entry_online e = true /\ m <= thread_id e) -> discoverSystemTopology example_entry 4 [0; 2; 1; 3; 4] = Throw RuntimeError).
Proof. exact (discovered_topology example_entry 4 [0; 2; 1; 3; 4] example_machine_ok). Defined.

Example discovered_example :
  match discoverSystemTopology example_entry 4 [0; 2; 1; 3; 4] with
  | Ok (Some p) => (num_sockets p, threads_per_core p, socketRefCore p, map (map osID) (concat (map cores (sockets (systemTopology p)))),
                    map osID (offlinedThreadsAtStart (systemTopology p)))
  | _ => (0%nat, 0, [], [], [])
  end = (2%nat, 2, [1; 3], [[0; 1]; [2; 3]], [4]).
Proof. vm_compute. reflexivity. Qed.

(** Every processor is exactly once in the tree or in its list of offline threads. *)
Theorem every_thread_once populate mx ps p : machine_ok populate mx ps -> discoverSystemTopology populate mx ps = Ok (Some p) ->
  map osID (tree_threads (systemTopology p) ++ offlinedThreadsAtStart (systemTopology p)) ≡ₚ map Z.of_nat (seq 0 (Z.to_nat (mx + 1))).
Proof.
  intros Hok Hp. destruct (discover_unfold populate mx ps Hok) as (keys & phys & online & Hkeys & E). cbv zeta in *. rewrite Hp in E. clear Hp.
  set (t := renumbered populate mx ps keys) in *.
  destruct (decide (Exists (fun e => in_sockets (length keys) e = true /\ max_threads t <= thread_id e) t)) as [Hex|Hno].
  - apply Exists_exists in Hex. by rewrite add_threads_refused in E by (done || by intros x ?%elem_of_nil).
  - rewrite add_threads_tree in E; [|by intros x ?%elem_of_nil|].
    + cbn [mbind res_bind app] in E. destruct (all_refCores _ _ _ _ Hok Hkeys) as [refs Hrefs]. unfold all_threads in Hrefs.
      change (fun i e => thread_of (length keys) (0 + i) e) with (thread_of (length keys)) in E. fold t in Hrefs. rewrite Hrefs in E.
      injection E as ->. cbn [systemTopology]. pose proof (threads_partitioned populate mx ps keys) as Hperm. fold t in Hperm. unfold all_threads in Hperm.
      rewrite Hperm. apply reflexive_eq. apply list_eq. intros i. rewrite !list_lookup_fmap, list_lookup_imap. unfold t, renumbered, entries.
      rewrite !list_lookup_fmap. destruct (decide (i < Z.to_nat (mx + 1))%nat).
      * by rewrite lookup_seq_lt.
      * by rewrite lookup_seq_ge by lia.
    + intros e He Hi. apply Z.nle_gt. intros Hm. apply Hno, Exists_exists. eauto.
Qed.

Lemma every_thread_once_witness : exists p, discoverSystemTopology example_entry 4 [0; 2; 1; 3; 4] = Ok (Some p) /\
  map osID (tree_threads (systemTopology p) ++ offlinedThreadsAtStart (systemTopology p)) ≡ₚ map Z.of_nat (seq 0 (Z.to_nat (4 + 1))).
Proof.
  destruct (discoverSystemTopology example_entry 4 [0; 2; 1; 3; 4]) as [[p|]|e] eqn:E; [|by vm_compute in E|by vm_compute in E].
  exists p. split; [reflexivity|]. exact (every_thread_once example_entry 4 [0; 2; 1; 3; 4] p example_machine_ok E).
Defined.

(** * The fields of an APIC identifier *)

(** The domains of leaf 0x1F follow each other. *)
Fixpoint chain (from : Z) (l : list domain) (to : Z) : Prop :=
  match l with
  | [] => from = to
  | d :: l => levelShift d = from /\ levelShift d < nextLevelShift d /\ chain (nextLevelShift d) l to
  end.

(** The domains have at least one bit. *)
Definition positive_widths (l : list domain) : Prop := Forall (fun d => levelShift d < nextLevelShift d) l.

Lemma read_domains_chain leaf fuel subleaf prev l : read_domains leaf fuel subleaf prev = Some l -> positive_widths l ->
  chain prev l (default prev (nextLevelShift <$> last l)).
Proof.
  revert subleaf prev l. induction fuel as [|fuel IH]; intros subleaf prev l; cbn [read_domains]; [done|].
  case_match; [by intros [= <-]|]. intros (l' & E & [= <-])%bind_Some [Hd Hl]%Forall_cons. cbn [chain levelShift nextLevelShift] in *.
  split_and!; [done|done|]. specialize (IH _ _ _ E Hl). destruct l' as [|d l']; [done|]. rewrite last_cons_cons. 
  destruct (last (d :: l')) eqn:El; [done|]. by apply last_None in El.
Qed.

Lemma chain_app a l1 b l2 c : chain a l1 b -> chain b l2 c -> chain a (l1 ++ l2) c.
Proof. revert a. induction l1 as [|d l1 IH]; cbn; [by intros a ->|]. intros a (H1 & H2 & H3) H4. eauto. Qed.

Lemma chain_le a l b : chain a l b -> a <= b.
Proof. revert a. induction l as [|d l IH]; cbn; [lia|]. intros a (H1 & H2 & H3%IH). lia. Qed.

Lemma topologyDomains_chain leaf fuel l : topologyDomains leaf fuel = Some l -> l <> [] -> positive_widths l -> chain 0 l 32.
Proof.
  unfold topologyDomains. intros (l0 & E & [= <-])%bind_Some Hne Hp. destruct (last l0) as [d|] eqn:El; [|done].
  apply Forall_app in Hp as [H1 H2]. apply Forall_cons in H2 as [H2 _]. cbn [levelShift nextLevelShift] in H2.
  apply (chain_app _ _ (nextLevelShift d)); [|by cbn]. pose proof (read_domains_chain _ _ _ _ _ E H1) as Hc. by rewrite El in Hc.
Qed.

(** The identifiers at the places of their domains. *)
Definition reassemble (ids : list (domain * Z)) : Z := foldr (fun di acc => Z.lor (Z.shiftl di.2 (levelShift di.1)) acc) 0 ids.

Lemma find_domain_unique l d : NoDup (map dom_type l) -> d ∈ l -> find_domain l (dom_type d) = Some d.
Proof.
  intros Hnd Hd. unfold find_domain. induction l as [|x l IH]; [by apply elem_of_nil in Hd|].
  cbn in Hnd. apply NoDup_cons in Hnd as [Hx Hnd]. rewrite filter_cons. apply elem_of_cons in Hd as [->|Hd].
  - rewrite decide_True by done. rewrite filter_none; [done|]. intros y Hy E. apply Hx. rewrite <- E. by apply list_elem_of_fmap_2.
  - rewrite decide_False; [by apply IH|]. intros E. apply Hx. rewrite E. by apply list_elem_of_fmap_2.
Qed.

Lemma chain_fields x l a b : chain a l b -> 0 <= a -> b <= 32 ->
  reassemble (map (fun d => (d, extract_bits_32 x (levelShift d) (u32 (nextLevelShift d - 1)))) l) = Z.shiftl (field x a (b - a)) a.
Proof.
  revert a. induction l as [|d l IH]; intros a; cbn [chain map reassemble foldr].
  - intros -> Ha _. rewrite Z.sub_diag. unfold field. by rewrite Z.land_0_r, Z.shiftl_0_l.
  - intros (Ea & Hlt & Hc) Ha Hb. pose proof (chain_le _ _ _ Hc) as Hle. fold (reassemble (map (fun d => (d, extract_bits_32 x (levelShift d) (u32 (nextLevelShift d - 1)))) l)).
    rewrite (IH _ Hc) by lia. cbn [fst snd]. rewrite Ea, wrapN_small by (unfold fits; change (2 ^ 32) with 4294967296; lia).
    rewrite extract_bits_32_field by lia. replace (Z.min a (nextLevelShift d - 1)) with a by lia.
    replace (Z.abs (nextLevelShift d - 1 - a) + 1) with (nextLevelShift d - a) by lia.
    apply Z.bits_inj'. intros i Hi. rewrite Z.lor_spec, !Z.shiftl_spec by lia.
    assert (Hf : forall s w, 0 <= s -> 0 <= w -> Z.testbit (field x s w) (i - s) = (s <=? i) && (i <? s + w) && Z.testbit x i).
    { intros s w Hs Hw. destruct (Z.leb_spec s i); [|by rewrite Z.testbit_neg_r by lia]. rewrite testbit_field by lia.
      replace (i - s + s) with i by lia. cbn [andb]. f_equal. destruct (Z.ltb_spec (i - s) w), (Z.ltb_spec i (s + w)); lia || done. }
    rewrite !Hf by lia. destruct (Z.testbit x i); rewrite ?andb_true_r, ?andb_false_r; [|done].
    destruct (Z.leb_spec a i), (Z.leb_spec (nextLevelShift d) i), (Z.ltb_spec i (a + (nextLevelShift d - a))), (Z.ltb_spec i (nextLevelShift d + (b - nextLevelShift d))),
      (Z.ltb_spec i (a + (b - a))); cbn; lia || done.
Qed.

(** The identifiers that [getID] reads from an APIC identifier of leaf 0x1F are all of it:
    put back at the places of their domains they give the APIC identifier, so two logical
    processors differ in one of them; when the domains have different types and every domain
    has at least one bit. *)
Theorem domain_ids_recompose leaf fuel l apic : topologyDomains leaf fuel = Some l -> l <> [] ->
  NoDup (map dom_type l) -> positive_widths l -> fits 32 apic ->
  reassemble (map (fun d => (d, getID l apic (dom_type d))) l) = apic.
Proof.
  intros Hl Hne Hnd Hp Hx. pose proof (topologyDomains_chain _ _ _ Hl Hne Hp) as Hc.
  transitivity (reassemble (map (fun d => (d, extract_bits_32 apic (levelShift d) (u32 (nextLevelShift d - 1)))) l)).
  - f_equal. apply map_ext_in. intros d Hd%list_elem_of_In. unfold getID. by rewrite find_domain_unique.
  - rewrite (chain_fields apic l 0 32) by (done || lia). rewrite Z.shiftl_0_r. unfold field. rewrite Z.shiftr_0_r, fits_land_ones by lia.
    by apply wrapN_small.
Qed.

Definition example_leaf (subleaf : Z) : PCM_CPUID_INFO :=
  match subleaf with
  | 0 => Cpuid 1 0 0x100 0
  | 1 => Cpuid 7 0 0x201 0
  | _ => Cpuid 0 0 0 0
  end.

Lemma domain_ids_recompose_witness :
  topologyDomains example_leaf 4 = Some [Domain 1 0 1; Domain 2 1 7; Domain 0xffff 7 32] /\
  reassemble (map (fun d => (d, getID [Domain 1 0 1; Domain 2 1 7; Domain 0xffff 7 32] 0x1234 (dom_type d))) [Domain 1 0 1; Domain 2 1 7; Domain 0xffff 7 32]) = 0x1234.
Proof.
  split; [reflexivity|]. apply (domain_ids_recompose example_leaf 4); [reflexivity|done| | |done].
  - repeat constructor; rewrite ?elem_of_cons, ?elem_of_nil; cbn; lia.
  - repeat constructor.
Defined.

(** A domain without bits, which leaf 0x1F has for the logical processors of a processor
    without SMT, is read with the whole APIC identifier. *)
Lemma empty_domain_id apic l : fits 32 apic -> find_domain l LogicalProcessorDomain = Some (Domain LogicalProcessorDomain 0 0) ->
  getID l apic LogicalProcessorDomain = apic.
Proof.
  intros Hx E. unfold getID. rewrite E. cbn [levelShift nextLevelShift]. change (u32 (0 - 1)) with 4294967295.
  unfold extract_bits_32. change (0 <=? 4294967295) with true. cbn beta iota. change (build_bit_ui 0 4294967295) with (Z.ones 32).
  rewrite Z.shiftr_0_r, fits_land_ones by lia. by apply wrapN_small.
Qed.

(** * The entry of a processor *)

(** The body of the loop over [/proc/cpuinfo]: [None] for a processor that the thread cannot
    be moved to, and for one without the domains of a core and of a socket. *)
Definition populate_processor (domains : list domain) (masks : core_masks) (reachable : Z -> bool) (apicB apic1F : Z -> Z)
    (hybrid : bool) (leaf1A : Z -> PCM_CPUID_INFO) (os : Z) : option TopologyEntry :=
  if reachable os then
    let e := Entry os (-1) (-1) (-1) (-1) (-1) (-1) (-1) (-1) (-1) (-1) (-1) in
    match populateEntry domains masks (apicB os) (apic1F os) e with
    | Ok e => Some (populateHybridEntry hybrid (leaf1A os) e)
    | Throw _ => None
    end
  else None.

(** The widths of the fields: a core number of less than 32 bits, and a socket number that is
    not all of the APIC identifier. *)
Definition fields_ok (domains : list domain) (masks : core_masks) : Prop :=
  match domains with
  | [] => 0 <= smtMaskWidth masks /\ 0 <= coreMaskWidth masks /\ 1 <= smtMaskWidth masks + coreMaskWidth masks <= 31
  | _ => exists d1 d2, find_domain domains CoreDomain = Some d1 /\ 0 <= levelShift d1 < nextLevelShift d1 /\ nextLevelShift d1 <= 31 /\
           find_domain domains SocketPackageDomain = Some d2 /\ 1 <= levelShift d2 <= 31 /\ nextLevelShift d2 = 32
  end.

Lemma signed_field apic from to : 0 <= from <= to -> to <= 31 -> to - from < 31 -> 0 <= i32 (extract_bits_32 apic from to) < 2 ^ 31.
Proof.
  intros H1 H2 H3. rewrite extract_bits_32_field by lia. replace (Z.abs (to - from) + 1) with (to - from + 1) by lia.
  pose proof (field_fits apic (Z.min from to) (to - from + 1) ltac:(lia)) as [H4 H5].
  pose proof (Z.pow_le_mono_r 2 (to - from + 1) 31 ltac:(lia) ltac:(lia)).
  rewrite swrapN_small; [lia|lia|]. change (2 ^ (32 - 1)) with (2 ^ 31). change (2 ^ 31) with 2147483648 in *. lia.
Qed.

(** The entries of [populateEntry] are as discovery needs them. *)
Lemma populate_processor_entry domains masks reachable apicB apic1F hybrid leaf1A os e : fields_ok domains masks ->
  populate_processor domains masks reachable apicB apic1F hybrid leaf1A os = Some e ->
  os_id e = os /\ 0 <= core_id e /\ 0 <= socket_id e < 2 ^ 31.
Proof.
  unfold populate_processor. intros Hf. destruct (reachable os); [|done].
  assert (Hh : forall r x, os_id (populateHybridEntry hybrid r x) = os_id x /\ core_id (populateHybridEntry hybrid r x) = core_id x /\
    socket_id (populateHybridEntry hybrid r x) = socket_id x) by (intros; unfold populateHybridEntry; by destruct hybrid).
  destruct (populateEntry _ _ _ _ _) as [x|] eqn:E; [|done]. intros [= <-]. destruct (Hh (leaf1A os) x) as (-> & -> & ->).
  unfold populateEntry in E. destruct domains as [|d ds].
  - injection E as <-. cbn [with_l3 fillEntry os_id core_id socket_id]. destruct Hf as (H1 & H2 & H3). split; [done|].
    rewrite !wrapN_small by (unfold fits; change (2 ^ 32) with 4294967296; lia). split; [|apply signed_field; lia].
    destruct (Z.eqb_spec (coreMaskWidth masks) 0); [done|]. apply signed_field; lia.
  - destruct Hf as (d1 & d2 & H1 & H2 & H3 & H4 & H5 & H6). rewrite H1, H4 in E. injection E as <-. cbn [os_id core_id socket_id]. split; [done|].
    unfold getID. rewrite H1, H4, H6. rewrite !wrapN_small by (unfold fits; change (2 ^ 32) with 4294967296; lia). split; apply signed_field; lia.
Qed.

(** So discovery with the entries from CPUID needs only this of the processors. *)
Lemma populated_machine domains masks reachable apicB apic1F hybrid leaf1A mx ps : fields_ok domains masks ->
  0 <= mx -> NoDup ps -> (forall os, os ∈ ps -> 0 <= os <= mx) ->
  (exists os, os ∈ ps /\ reachable os = true) ->
  machine_ok (populate_processor domains masks reachable apicB apic1F hybrid leaf1A) mx ps.
Proof.
  intros Hf Hmx Hnd Hr (os & Hos & Hre). constructor; [done|done|done| |].
  - intros os' e _. by apply populate_processor_entry.
  - exists os. unfold populate_processor. rewrite Hre. unfold populateEntry. destruct domains as [|d ds]; [eauto|].
    destruct Hf as (d1 & d2 & -> & _ & _ & -> & _). eauto.
Qed.
