(* ===== verification/Rdt.v ===== *)
(** Resource monitoring of the cores: the resource monitoring identifiers (RMID) that
    [initRDT] of [src/src/cpucounters.cpp] gives to the cores and [cleanupRDT] takes back,
    and the bandwidth counters made for them.

    CPUID and what decides for the resctrl driver of Linux are arguments; the driver itself
    is not modelled. *)

From S2P Require Import Prelude WidthExtender CpuModels Capabilities Registers UncorePMU ServerUncore CounterState CorePMU PcmUncore Topology.
Local Open Scope Z_scope.

(** * State *)

Record rdt_env := RdtEnv {
  re_cpuid : Z -> Z -> PCM_CPUID_INFO;
  re_NO_RDT : bool;                 (** [PCM_NO_RDT=1] *)
  re_ENFORCE_MBM : bool;            (** [PCM_ENFORCE_MBM=1] *)
  re_USE_RESCTRL : bool;            (** [PCM_USE_RESCTRL=1] *)
  re_resctrl_mounted : bool;
  re_secure_boot : bool;
  re_model : Z;
  re_stepping : Z;
  re_topology : list TopologyEntry;
  re_sockets : nat                  (** [num_sockets] *)
}.

(** The members that [initRDT] sets; the counters are named by their extenders. *)
Record rdt_state := Rdt {
  useResctrl : bool;
  rdt_bw_local : list nat;          (** [memory_bw_local] *)
  rdt_bw_total : list nat;          (** [memory_bw_total] *)
  rdt_L3ScalingFactor : Z
}.

Definition rdt_init : rdt_state := Rdt false [] [] 0.

Definition IA32_PQR_ASSOC : Z := 0xC8F.

(** * What the processor has *)

Section Metrics.
Context (env : rdt_env).

Definition isRDTDisabled : bool := re_NO_RDT env.
Definition isMBMEnforced : bool := re_ENFORCE_MBM env.

Definition QOSMetricAvailable : bool := negb isRDTDisabled && Z.testbit (ebx (re_cpuid env 0x7 0)) 12.
Definition L3QOSMetricAvailable : bool := negb isRDTDisabled && Z.testbit (edx (re_cpuid env 0xf 0)) 1.

Definition rdt_available : bool := QOSMetricAvailable && L3QOSMetricAvailable.

Definition rdt_L3CacheOccupancyMetricAvailable : bool := rdt_available && Z.testbit (edx (re_cpuid env 0xf 0x1)) 0.

(** The erratum SKZ4. *)
Definition mbm_excluded : bool := negb isMBMEnforced && (re_model env =? SKX) && (re_stepping env <? 5).

Definition rdt_CoreLocalMemoryBWMetricAvailable : bool :=
  negb mbm_excluded && rdt_available && Z.testbit (edx (re_cpuid env 0xf 0x1)) 1.
Definition rdt_CoreRemoteMemoryBWMetricAvailable : bool :=
  negb mbm_excluded && rdt_available && Z.testbit (edx (re_cpuid env 0xf 0x1)) 2.

Definition getMaxRMID : Z := u32 (ebx (re_cpuid env 0xf 0) + 1).
Definition getL3ScalingFactor : Z := ebx (re_cpuid env 0xf 0x1).

End Metrics.

(** * Operations *)

Section Code.
Context {machine : Machine} (env : rdt_env).

Definition rdt_handle (core : nat) : SafeMsrHandle := Some (Z.of_nat core).
Definition rdt_socket (core : nat) : Z := socket_id (nth core (re_topology env) TopologyEntry_init).
Definition RMID_MASK : Z := Z.shiftl 1 10 - 1.
Definition CLOS_MASK : Z := 0xffffffff00000000.

(** The registers of a core whose socket is at [rmid]. *)
Definition associate (core : nat) (rmid : Z) : M unit :=
  msr_pqr_assoc ← msr_read (rdt_handle core) IA32_PQR_ASSOC;
  msr_write (rdt_handle core) IA32_PQR_ASSOC (Z.lor (Z.land msr_pqr_assoc CLOS_MASK) (Z.land rmid RMID_MASK)) ;;
  msr_write (rdt_handle core) IA32_QM_EVTSEL (Z.shiftl (Z.land rmid RMID_MASK) 32).

(** [push_back] of the counters of a core. *)
Definition push_bandwidth (core : nat) (st : rdt_state) : M rdt_state :=
  if rdt_CoreLocalMemoryBWMetricAvailable env then
    l ← create_extender (MBLCounter (rdt_handle core)) 24;
    if rdt_CoreRemoteMemoryBWMetricAvailable env then
      t ← create_extender (MBTCounter (rdt_handle core)) 24;
      mret (Rdt (useResctrl st) (rdt_bw_local st ++ [l]) (rdt_bw_total st ++ [t]) (rdt_L3ScalingFactor st))
    else mret (Rdt (useResctrl st) (rdt_bw_local st ++ [l]) (rdt_bw_total st) (rdt_L3ScalingFactor st))
  else mret st.

(** The element of [rmid] for a socket. *)
Definition next_rmid (rmid : list Z) (socket : Z) : option Z := if 0 <=? socket then rmid !! Z.to_nat socket else None.

Fixpoint assign_RMIDs (cores : list nat) (rmid : list Z) (st : rdt_state) : M rdt_state :=
  match cores with
  | [] => mret st
  | core :: cores =>
      if isCoreOnline (re_topology env) core then
        match next_rmid rmid (rdt_socket core) with
        | None => throw OutOfRange
        | Some id =>
            associate core id ;;
            st ← push_bandwidth core st;
            assign_RMIDs cores (<[Z.to_nat (rdt_socket core) := u32 (id - 1)]> rmid) st
        end
      else assign_RMIDs cores rmid st
  end.

Definition rdt_cores : list nat := seq 0 (length (re_topology env)).

Definition initRDT (st : rdt_state) : M rdt_state :=
  if negb (rdt_available env) then mret st
  else if re_USE_RESCTRL env || re_resctrl_mounted env || re_secure_boot env then
    mret (Rdt true (rdt_bw_local st) (rdt_bw_total st) (rdt_L3ScalingFactor st))
  else
    st ← assign_RMIDs rdt_cores (replicate (re_sockets env) (u32 (getMaxRMID env - 1))) st;
    mret (Rdt (useResctrl st) (rdt_bw_local st) (rdt_bw_total st) (getL3ScalingFactor env)).

(** One iteration of the loop of [cleanupRDT]. *)
Definition dissociate (core : nat) : M unit :=
  msr_pqr_assoc ← msr_read (rdt_handle core) IA32_PQR_ASSOC;
  msr_write (rdt_handle core) IA32_PQR_ASSOC (Z.land msr_pqr_assoc CLOS_MASK) ;;
  msr_write (rdt_handle core) IA32_QM_EVTSEL 0.

Definition cleanupRDT (st : rdt_state) : M unit :=
  if negb (rdt_available env) || useResctrl st then mret tt
  else forM rdt_cores (fun core => if isCoreOnline (re_topology env) core then dissociate core else mret tt).

(** The counters that [readAndAggregateMemoryBWCounters] reads for a core. *)
Definition core_bandwidth (st : rdt_state) (core : nat) : option nat * option nat :=
  (rdt_bw_local st !! core, rdt_bw_total st !! core).

End Code.

(** * On a machine of plain memory *)

#[local] Existing Instance memory_machine.

Definition msr_of (h : hw) (core : nat) (n : Z) : Z := msr_value h (rdt_handle core) n.
Definition rmid_of (h : hw) (core : nat) : Z := Z.land (msr_of h core IA32_PQR_ASSOC) (2 ^ 32 - 1).
Definition selected_rmid (h : hw) (core : nat) : Z := Z.shiftr (msr_of h core IA32_QM_EVTSEL) 32.
Definition clos_of (h : hw) (core : nat) : Z := Z.land (msr_of h core IA32_PQR_ASSOC) CLOS_MASK.

(** The registers of other cores are left as they are. *)
Definition others_kept (core : nat) (h h' : hw) : Prop := forall c n, c <> core -> msr_of h' c n = msr_of h c n.

Lemma others_kept_trans core h1 h2 h3 : others_kept core h1 h2 -> others_kept core h2 h3 -> others_kept core h1 h3.
Proof. intros H1 H2 c n Hc. by rewrite H2, H1. Qed.

Lemma msr_read_value core n h :
  msr_read (rdt_handle core) n h = (HW (Read (MsrPort (Z.of_nat core) n) :: history h) (extenders h) (slots h), Ok (msr_of h core n)).
Proof. done. Qed.

Lemma msr_write_value core n v h :
  msr_write (rdt_handle core) n v h = (HW (Write (MsrPort (Z.of_nat core) n) v :: history h) (extenders h) (slots h), Ok tt).
Proof. done. Qed.

Lemma msr_of_read core n h c k : msr_of (HW (Read (MsrPort (Z.of_nat core) n) :: history h) (extenders h) (slots h)) c k = msr_of h c k.
Proof. done. Qed.

Lemma msr_of_write core n v l x y c k :
  msr_of (HW (Write (MsrPort (Z.of_nat core) n) v :: l) x y) c k =
  if decide (c = core /\ k = n) then v else msr_of (HW l x y) c k.
Proof.
  unfold msr_of, msr_value, rdt_handle. cbn [history load footprint find_cell].
  destruct (decide (c = core /\ k = n)) as [[-> ->]|Hne]; [by rewrite decide_True|].
  rewrite decide_False by (intros [=]; apply Hne; lia). done.
Qed.

Lemma msr_of_selected core v h x y p1 p2 c k :
  msr_of (HW (Read p1 :: Write (MsrPort (Z.of_nat core) IA32_QM_EVTSEL) v :: Read p2 :: history h) x y) c k =
  if decide (c = core /\ k = IA32_QM_EVTSEL) then v else msr_of h c k.
Proof. exact (msr_of_write core IA32_QM_EVTSEL v (Read p2 :: history h) x y c k). Qed.

Lemma high_of_selected id : 0 <= id < 2 ^ 32 -> Z.shiftr (Z.shiftl id 32) 32 = id.
Proof. intros H. rewrite Z.shiftr_shiftl_l by lia. apply Z.shiftl_0_r. Qed.

Lemma rmid_mask id : 0 <= Z.land id RMID_MASK < 2 ^ 10.
Proof. unfold RMID_MASK. change (Z.shiftl 1 10 - 1) with (Z.ones 10). rewrite Z.land_ones by lia. apply Z.mod_pos_bound. lia. Qed.

(** Selecting an event keeps the identifier. *)
Lemma select_keeps sel event : 0 <= Z.shiftr sel 32 < 2 ^ 32 -> 0 <= event < 2 ^ 8 ->
  Z.shiftr (Z.lor (Z.land sel 0xfffffffffffffff0) (Z.land event (Z.shiftl 1 8 - 1))) 32 = Z.shiftr sel 32.
Proof.
  intros Hs He. rewrite Z.shiftr_lor, !Z.shiftr_land. change (Z.shiftr 0xfffffffffffffff0 32) with (Z.ones 32).
  rewrite Z.land_ones by lia. change (Z.shiftr (Z.shiftl 1 8 - 1) 32) with 0. rewrite Z.land_0_r, Z.lor_0_r.
  by apply Z.mod_small.
Qed.

Lemma pqr_parts old id : 0 <= id < 2 ^ 10 ->
  Z.land (Z.lor (Z.land old CLOS_MASK) id) (2 ^ 32 - 1) = id /\
  Z.land (Z.lor (Z.land old CLOS_MASK) id) CLOS_MASK = Z.land old CLOS_MASK.
Proof.
  intros Hid. rewrite !Z.land_lor_distr_l, <- !Z.land_assoc. change (Z.land CLOS_MASK (2 ^ 32 - 1)) with 0.
  change (Z.land CLOS_MASK CLOS_MASK) with CLOS_MASK. rewrite Z.land_0_r, Z.lor_0_l. split.
  - change (2 ^ 32 - 1) with (Z.ones 32). rewrite Z.land_ones by lia. apply Z.mod_small. lia.
  - replace (Z.land id CLOS_MASK) with 0; [by rewrite Z.lor_0_r|]. symmetry.
    replace id with (Z.land id (Z.ones 10)); [|rewrite Z.land_ones by lia; apply Z.mod_small; lia].
    rewrite <- Z.land_assoc. change (Z.land (Z.ones 10) CLOS_MASK) with 0. apply Z.land_0_r.
Qed.

(** ** A core *)

(** What a core has after it got an identifier. *)
Record assigned (core : nat) (id : Z) (h h' : hw) : Prop := Assigned {
  as_rmid : rmid_of h' core = Z.land id RMID_MASK;
  as_selected : selected_rmid h' core = Z.land id RMID_MASK;
  as_clos : clos_of h' core = clos_of h core;
  as_others : others_kept core h h';
  as_extenders : forall x e, extenders h !! x = Some e -> extenders h' !! x = Some e
}.

Lemma associate_runs core id h : exists h', associate core id h = (h', Ok tt) /\ assigned core id h h' /\ extenders h' = extenders h.
Proof.
  pose proof (rmid_mask id) as Hm. destruct (pqr_parts (msr_of h core IA32_PQR_ASSOC) _ Hm) as [P1 P2].
  eexists. unfold associate, mbind, M_bind. rewrite msr_read_value. split; [reflexivity|]. cbn [history extenders].
  assert (Hne : ~ (core = core /\ IA32_PQR_ASSOC = IA32_QM_EVTSEL)) by (unfold IA32_PQR_ASSOC, IA32_QM_EVTSEL; lia).
  split; [|done]. split.
  - unfold rmid_of. rewrite msr_of_write, decide_False, msr_of_write, decide_True by done. exact P1.
  - unfold selected_rmid. rewrite msr_of_write, decide_True by done. apply high_of_selected. lia.
  - unfold clos_of. rewrite msr_of_write, decide_False, msr_of_write, decide_True by done. exact P2.
  - intros c n Hc. rewrite !msr_of_write. by rewrite !decide_False by tauto.
  - done.
Qed.

(** Making a bandwidth counter keeps the identifier of the core and gives a counter of it. *)
Lemma create_bandwidth (raw : SafeMsrHandle -> AbstractRawCounter) event core id h0 h :
  (forall s, raw_counter_read (raw (rdt_handle core)) s = (select_qm_event (rdt_handle core) event ;; msr_read (rdt_handle core) IA32_QM_CTR) s) ->
  0 <= event < 2 ^ 8 -> assigned core id h0 h ->
  exists h' x, create_extender (raw (rdt_handle core)) 24 h = (h', Ok x) /\ assigned core id h0 h' /\
    (exists e, extenders h' !! x = Some e /\ raw_counter e = raw (rdt_handle core)) /\
    forall y e, extenders h !! y = Some e -> extenders h' !! y = Some e.
Proof.
  intros Hraw He [A1 A2 A3 A4 A5]. unfold create_extender. rewrite Hraw. unfold select_qm_event, mbind, M_bind. rewrite msr_read_value.
  rewrite msr_write_value, msr_read_value. cbn [history extenders]. eexists _, _. split; [reflexivity|].
  pose proof (rmid_mask id) as Hm. set (sel := Z.lor _ _).
  assert (Hsel : Z.shiftr sel 32 = Z.land id RMID_MASK).
  { unfold sel. rewrite select_keeps; [exact A2| |done]. fold (selected_rmid h core). rewrite A2. lia. }
  assert (Hx : forall e0 y e, extenders h !! y = Some e -> (<[fresh (dom (extenders h)) := e0]> (extenders h)) !! y = Some e).
  { intros e0 y e Hy. rewrite lookup_insert_ne; [done|]. intros <-. apply elem_of_dom_2 in Hy. by apply is_fresh in Hy. }
  split_and!.
  - split; cbn [extenders].
    + unfold rmid_of. rewrite msr_of_selected, decide_False by (unfold IA32_PQR_ASSOC, IA32_QM_EVTSEL; lia). exact A1.
    + unfold selected_rmid. rewrite msr_of_selected, decide_True by done. exact Hsel.
    + unfold clos_of. rewrite msr_of_selected, decide_False by (unfold IA32_PQR_ASSOC, IA32_QM_EVTSEL; lia). exact A3.
    + intros c n Hc. rewrite msr_of_selected, decide_False by tauto. by apply A4.
    + intros y e Hy. apply Hx. by apply A5.
  - eexists. split; [apply lookup_insert_eq|done].
  - apply Hx.
Qed.

(** ** All cores *)

Section Assignment.
Context (env : rdt_env).

#[local] Abbreviation online := (isCoreOnline (re_topology env)).
#[local] Abbreviation local_available := (rdt_CoreLocalMemoryBWMetricAvailable env).
#[local] Abbreviation remote_available := (rdt_CoreRemoteMemoryBWMetricAvailable env).

(** The counters of a list belong to the cores. *)
Definition counts_cores (raw : SafeMsrHandle -> AbstractRawCounter) (h : hw) (ids : list nat) (cores : list nat) : Prop :=
  Forall2 (fun id core => exists e, extenders h !! id = Some e /\ raw_counter e = raw (rdt_handle core)) ids cores.

Definition counters_for (h : hw) (st : rdt_state) (cores : list nat) : Prop :=
  (local_available = true -> counts_cores MBLCounter h (rdt_bw_local st) cores) /\
  (local_available = true -> remote_available = true -> counts_cores MBTCounter h (rdt_bw_total st) cores).

Definition keeps_extenders (h h' : hw) : Prop := forall y e, extenders h !! y = Some e -> extenders h' !! y = Some e.

Lemma counts_cores_keep raw h h' ids cores : keeps_extenders h h' -> counts_cores raw h ids cores -> counts_cores raw h' ids cores.
Proof. intros Hk H. eapply Forall2_impl; [exact H|]. intros id core (e & He & Hr). exists e. auto. Qed.

Lemma counters_for_keep h h' st cores : keeps_extenders h h' -> counters_for h st cores -> counters_for h' st cores.
Proof. intros Hk [H1 H2]. split; intros; eapply counts_cores_keep; eauto. Qed.

Lemma counts_cores_snoc raw h h' ids cores x core : keeps_extenders h h' -> counts_cores raw h ids cores ->
  (exists e, extenders h' !! x = Some e /\ raw_counter e = raw (rdt_handle core)) -> counts_cores raw h' (ids ++ [x]) (cores ++ [core]).
Proof. intros Hk H Hx. apply Forall2_app; [by eapply counts_cores_keep|by constructor]. Qed.

Lemma push_runs core id h0 h st cores : assigned core id h0 h -> counters_for h st cores ->
  exists h' st', push_bandwidth env core st h = (h', Ok st') /\ assigned core id h0 h' /\
    useResctrl st' = useResctrl st /\ counters_for h' st' (cores ++ [core]).
Proof.
  intros Ha [Hl Ht]. unfold push_bandwidth. destruct local_available eqn:El; [|by eexists _, _; split_and!; [done..|split; congruence]].
  destruct (create_bandwidth MBLCounter 3 core id h0 h) as (h1 & l & E1 & A1 & X1 & K1); [reflexivity|lia|done|].
  unfold mbind, M_bind. rewrite E1. destruct remote_available eqn:Er.
  - destruct (create_bandwidth MBTCounter 2 core id h0 h1) as (h2 & t & E2 & A2 & X2 & K2); [reflexivity|lia|done|]. rewrite E2.
    eexists _, _. split; [reflexivity|]. split; [done|]. split; [done|]. split; intros; cbn [rdt_bw_local rdt_bw_total].
    + eapply counts_cores_snoc; [exact K2| |destruct X1 as (e & ? & ?); exists e; auto]. eapply counts_cores_keep; [exact K1|auto].
    + eapply counts_cores_snoc; [exact K2| |exact X2]. eapply counts_cores_keep; [exact K1|auto].
  - eexists _, _. split; [reflexivity|]. split; [done|]. split; [done|]. split; intros; [|congruence]. cbn [rdt_bw_local].
    eapply counts_cores_snoc; [exact K1|auto|exact X1].
Qed.

(** Which core gets which identifier. *)
Fixpoint allot (cores : list nat) (rmid : list Z) : list (nat * Z) :=
  match cores with
  | [] => []
  | core :: cores =>
      if online core then
        match next_rmid rmid (rdt_socket env core) with
        | None => []
        | Some id => (core, id) :: allot cores (<[Z.to_nat (rdt_socket env core) := u32 (id - 1)]> rmid)
        end
      else allot cores rmid
  end.

Lemma allot_in cores rmid core id : (core, id) ∈ allot cores rmid -> core ∈ cores /\ online core = true.
Proof.
  revert rmid. induction cores as [|c cores IH]; intros r; cbn [allot]; [by intros ?%elem_of_nil|].
  destruct (online c) eqn:Ho; [|intros H; destruct (IH _ H); by split; [right|]]. destruct (next_rmid r _); [|by intros ?%elem_of_nil].
  intros [[= -> _]|H]%elem_of_cons; [by split; [left|]|]. destruct (IH _ H). by split; [right|].
Qed.

Definition online_cores_of (socket : Z) (cores : list nat) : list nat :=
  filter (fun core => online core = true /\ rdt_socket env core = socket) cores.

Definition sockets_valid (cores : list nat) (rmid : list Z) : Prop :=
  forall core, core ∈ cores -> online core = true -> 0 <= rdt_socket env core < Z.of_nat (length rmid).

Lemma next_rmid_valid cores rmid core : sockets_valid cores rmid -> core ∈ cores -> online core = true ->
  exists id, next_rmid rmid (rdt_socket env core) = Some id /\ rmid !! Z.to_nat (rdt_socket env core) = Some id.
Proof.
  intros Hv Hc Ho. specialize (Hv core Hc Ho). unfold next_rmid. destruct (Z.leb_spec 0 (rdt_socket env core)); [|lia].
  destruct (lookup_lt_is_Some_2 rmid (Z.to_nat (rdt_socket env core))) as [id E]; [lia|]. eauto.
Qed.

Lemma sockets_valid_tail core cores rmid i v : sockets_valid (core :: cores) rmid -> sockets_valid cores (<[i := v]> rmid).
Proof. intros Hv c Hc. rewrite length_insert. apply Hv. by right. Qed.

Lemma assign_runs cores : NoDup cores -> forall rmid st h before,
  sockets_valid cores rmid -> counters_for h st before ->
  exists h' st', assign_RMIDs env cores rmid st h = (h', Ok st') /\
    (forall core id, (core, id) ∈ allot cores rmid ->
       rmid_of h' core = Z.land id RMID_MASK /\ selected_rmid h' core = Z.land id RMID_MASK /\ clos_of h' core = clos_of h core) /\
    (forall core n, core ∉ cores -> msr_of h' core n = msr_of h core n) /\
    useResctrl st' = useResctrl st /\ counters_for h' st' (before ++ filter (fun core => online core = true) cores).
Proof.
  induction cores as [|core cores IH]; intros Hnd rmid st h before Hv Hb.
  { exists h, st. cbn. rewrite app_nil_r. split_and!; try done. by intros core id ?%elem_of_nil. }
  apply NoDup_cons in Hnd as [Hni Hnd]. cbn [assign_RMIDs allot]. destruct (online core) eqn:Ho.
  - destruct (next_rmid_valid _ _ core Hv) as (id & -> & _); [left|done|].
    destruct (associate_runs core id h) as (h1 & E1 & A1 & X1).
    destruct (push_runs core id h h1 st before A1) as (h2 & st2 & E2 & A2 & U2 & C2).
    { eapply counters_for_keep; [|exact Hb]. intros y e. by rewrite X1. }
    destruct (IH Hnd (<[Z.to_nat (rdt_socket env core) := u32 (id - 1)]> rmid) st2 h2 _ (sockets_valid_tail _ _ _ _ _ Hv) C2)
      as (h3 & st3 & E3 & R3 & K3 & U3 & C3).
    exists h3, st3. unfold mbind, M_bind. rewrite E1, E2, E3. split_and!; [done| | |congruence|].
    + destruct A2 as [A B C D F]. intros c i [[= -> ->]|Hin]%elem_of_cons.
      * unfold rmid_of, selected_rmid, clos_of in *. by rewrite !(K3 core _ Hni).
      * destruct (R3 c i Hin) as (? & ? & Hc). split_and!; [done|done|]. rewrite Hc. unfold clos_of. rewrite D; [done|].
        intros ->. by apply Hni, (allot_in _ _ _ _ Hin).
    + intros c n Hc. rewrite K3 by (intros ?; apply Hc; by right). destruct A2 as [_ _ _ D _]. apply D. intros ->. apply Hc. left.
    + rewrite filter_cons_True by done. by rewrite <- app_assoc in C3.
  - destruct (IH Hnd rmid st h before) as (h3 & st3 & E3 & R3 & K3 & U3 & C3); [intros c Hc; apply Hv; by right|done|].
    exists h3, st3. rewrite E3. split_and!; [done|done| |done|].
    + intros c n Hc. apply K3. intros ?. apply Hc. by right.
    + rewrite filter_cons_False; [done|congruence].
Qed.
(** The online cores of a socket in a list. *)
Definition online_count (socket : Z) (cores : list nat) : nat := length (online_cores_of socket cores).

(** There are as many identifiers left for every socket as cores that wait for one. *)
Definition enough (cores : list nat) (rmid : list Z) : Prop :=
  forall s id, rmid !! s = Some id -> 0 <= id < 2 ^ 32 /\ Z.of_nat (online_count (Z.of_nat s) cores) <= id + 1 \/ online_count (Z.of_nat s) cores = 0%nat.

Lemma enough_tail core cores rmid id : online core = true -> rmid !! Z.to_nat (rdt_socket env core) = Some id -> 0 <= rdt_socket env core ->
  enough (core :: cores) rmid -> enough cores (<[Z.to_nat (rdt_socket env core) := u32 (id - 1)]> rmid).
Proof.
  intros Ho Hid Hs He s v Hv. assert (Hcount : online_count (rdt_socket env core) (core :: cores) = S (online_count (rdt_socket env core) cores)).
  { unfold online_count, online_cores_of. by rewrite filter_cons_True by done. }
  destruct (decide (s = Z.to_nat (rdt_socket env core))) as [->|Hne].
  - rewrite list_lookup_insert_eq in Hv by by eapply lookup_lt_Some. injection Hv as <-.
    destruct (He _ _ Hid) as [[Hr Hc]|Hc]; rewrite Z2Nat.id, Hcount in * by done; [|lia].
    destruct (decide (id = 0)) as [->|]; [right; lia|]. left. rewrite wrapN_small by (unfold fits; lia). lia.
  - rewrite list_lookup_insert_ne in Hv by done. destruct (He _ _ Hv) as [[Hr Hc]|Hc]; [left; split; [done|]|right].
    all: unfold online_count, online_cores_of in *; rewrite filter_cons_False in Hc by (intros [_ E]; lia); done.
Qed.

Lemma enough_skip core cores rmid : online core = false -> enough (core :: cores) rmid -> enough cores rmid.
Proof.
  intros Ho He s v Hv. specialize (He s v Hv). unfold online_count, online_cores_of in *. by rewrite filter_cons_False in He by (intros [? _]; congruence).
Qed.

Lemma online_count_cons core cores s :
  online_count s (core :: cores) = ((if decide (online core = true /\ rdt_socket env core = s) then 1 else 0) + online_count s cores)%nat.
Proof. unfold online_count, online_cores_of. rewrite filter_cons. by destruct (decide _). Qed.

Lemma online_count_in core cores : core ∈ cores -> online core = true -> (0 < online_count (rdt_socket env core) cores)%nat.
Proof.
  intros Hc Ho. assert (H : core ∈ online_cores_of (rdt_socket env core) cores) by by apply list_elem_of_filter.
  unfold online_count. destruct (online_cores_of _ _); [by apply elem_of_nil in H|cbn; lia].
Qed.

(** The identifiers handed out are among those that the socket had. *)
Lemma allot_bounds cores rmid : sockets_valid cores rmid -> enough cores rmid ->
  forall core id, (core, id) ∈ allot cores rmid ->
    exists v, rmid !! Z.to_nat (rdt_socket env core) = Some v /\ 0 <= id <= v.
Proof.
  revert rmid. induction cores as [|core cores IH]; intros rmid Hv He c i; cbn [allot]; [by intros ?%elem_of_nil|].
  destruct (online core) eqn:Ho; [|apply IH; [intros c' Hc'; apply Hv; by right|by eapply enough_skip]].
  destruct (next_rmid_valid _ _ core Hv) as (id & -> & Hid); [left|done|].
  pose proof (Hv core ltac:(left) Ho) as Hs. pose proof (He _ _ Hid) as Hn. rewrite Z2Nat.id, online_count_cons, decide_True in Hn by (done || lia).
  intros [[= -> ->]|Hin]%elem_of_cons; [exists id; split; [done|lia]|].
  destruct (allot_in _ _ _ _ Hin) as [Hc Hoc]. pose proof (online_count_in c cores Hc Hoc) as Hpos. pose proof (Hv c ltac:(by right) Hoc) as Hsc.
  destruct (IH (<[Z.to_nat (rdt_socket env core) := u32 (id - 1)]> rmid)) with (core := c) (id := i) as (v & Hv' & Hi);
    [by apply (sockets_valid_tail core)|apply enough_tail; by try lia|done|].
  destruct (decide (rdt_socket env c = rdt_socket env core)) as [E|Hne].
  - rewrite E in *. rewrite list_lookup_insert_eq in Hv' by by eapply lookup_lt_Some. injection Hv' as <-. exists id. split; [done|].
    rewrite wrapN_small in Hi by (unfold fits; lia). lia.
  - rewrite list_lookup_insert_ne in Hv' by lia. by exists v.
Qed.

(** No two cores of a socket get the same identifier. *)
Lemma allot_distinct cores rmid : sockets_valid cores rmid -> enough cores rmid ->
  NoDup (map (fun p => (rdt_socket env p.1, p.2)) (allot cores rmid)) /\
  map fst (allot cores rmid) = filter (fun core => online core = true) cores.
Proof.
  revert rmid. induction cores as [|core cores IH]; intros rmid Hv He; cbn [allot]; [by split; [constructor|]|].
  destruct (online core) eqn:Ho.
  - destruct (next_rmid_valid _ _ core Hv) as (id & -> & Hid); [left|done|].
    pose proof (Hv core ltac:(left) Ho) as Hs. pose proof (He _ _ Hid) as Hn. rewrite Z2Nat.id, online_count_cons, decide_True in Hn by (done || lia).
    set (rmid' := <[_ := _]> rmid). assert (Hv' : sockets_valid cores rmid') by by apply (sockets_valid_tail core).
    assert (He' : enough cores rmid') by by apply enough_tail; try lia.
    destruct (IH rmid' Hv' He') as (H2 & H3). cbn [map fst]. rewrite filter_cons_True, H3 by done. split; [|done].
    apply NoDup_cons. split; [|done]. intros ([c i] & [= E1 E2] & Hin)%list_elem_of_fmap. cbn [fst snd] in *. subst i.
    destruct (allot_bounds cores rmid' Hv' He' c id Hin) as (v & Hlv & Hi). rewrite <- E1 in Hlv. unfold rmid' in Hlv.
    rewrite list_lookup_insert_eq in Hlv by by eapply lookup_lt_Some. injection Hlv as <-.
    destruct (allot_in _ _ _ _ Hin) as [Hc Hoc]. pose proof (online_count_in c cores Hc Hoc) as Hpos. rewrite <- E1 in Hpos.
    rewrite wrapN_small in Hi by (unfold fits; lia). lia.
  - rewrite filter_cons_False by congruence. apply IH; [intros c Hc; apply Hv; by right|by eapply enough_skip].
Qed.

End Assignment.

(** ** Giving back *)

Lemma dissociate_runs core h : exists h', dissociate core h = (h', Ok tt) /\
  msr_of h' core IA32_PQR_ASSOC = clos_of h core /\ msr_of h' core IA32_QM_EVTSEL = 0 /\ others_kept core h h'.
Proof.
  eexists. unfold dissociate, mbind, M_bind. rewrite msr_read_value. split; [reflexivity|]. cbn [history extenders]. split_and!.
  - rewrite msr_of_write, decide_False, msr_of_write, decide_True by (done || unfold IA32_PQR_ASSOC, IA32_QM_EVTSEL; lia). done.
  - by rewrite msr_of_write, decide_True.
  - intros c n Hc. rewrite !msr_of_write. by rewrite !decide_False by tauto.
Qed.

Lemma dissociate_all env cores h : NoDup cores ->
  exists h', forM cores (fun core => if isCoreOnline (re_topology env) core then dissociate core else mret tt) h = (h', Ok tt) /\
    (forall core, core ∈ cores -> isCoreOnline (re_topology env) core = true ->
       msr_of h' core IA32_PQR_ASSOC = clos_of h core /\ msr_of h' core IA32_QM_EVTSEL = 0) /\
    (forall core n, core ∉ cores -> msr_of h' core n = msr_of h core n).
Proof.
  intros Hnd. revert h. induction Hnd as [|core cores Hni _ IH]; intros h.
  { exists h. split_and!; [done| |done]. by intros core ?%elem_of_nil. }
  cbn [forM]. destruct (isCoreOnline (re_topology env) core) eqn:Ho.
  - destruct (dissociate_runs core h) as (h1 & E1 & P1 & Q1 & K1). destruct (IH h1) as (h2 & E2 & R2 & K2).
    exists h2. unfold mbind, M_bind. rewrite E1, E2. split_and!; [done| |].
    + intros c [->|Hc]%elem_of_cons Hoc; [by rewrite !K2|]. destruct (R2 c Hc Hoc) as [E ?]. split; [|done]. rewrite E. unfold clos_of.
      rewrite K1; [done|by intros ->].
    + intros c n [Hc1 Hc2]%not_elem_of_cons. rewrite K2 by done. by apply K1.
  - destruct (IH h) as (h2 & E2 & R2 & K2). exists h2. split_and!; [exact E2| |].
    + intros c [->|Hc]%elem_of_cons Hoc; [congruence|by apply R2].
    + intros c n [Hc1 Hc2]%not_elem_of_cons. by apply K2.
Qed.

(** The counter of a core is made for that core. *)
Definition own_counter (raw : SafeMsrHandle -> AbstractRawCounter) (h : hw) (id : option nat) (core : nat) : Prop :=
  exists x e, id = Some x /\ extenders h !! x = Some e /\ raw_counter e = raw (rdt_handle core).

(** ** Enough identifiers *)

Section Apart.
Context (env : rdt_env).

Definition rdt_online (core : nat) : Prop := (core < length (re_topology env))%nat /\ isCoreOnline (re_topology env) core = true.

(** Every online core is in a socket, and no socket has more online cores than identifiers. *)
Record identifiers_suffice : Prop := IdentifiersSuffice {
  ten_bits : getMaxRMID env <= 2 ^ 10;
  in_socket : forall core, rdt_online core -> 0 <= rdt_socket env core < Z.of_nat (re_sockets env);
  enough_RMIDs : forall s, Z.of_nat (online_count env (Z.of_nat s) (rdt_cores env)) <= getMaxRMID env
}.

Context (Henv : identifiers_suffice).

Let rmid : list Z := replicate (re_sockets env) (u32 (getMaxRMID env - 1)).

Lemma in_rdt_cores core : core ∈ rdt_cores env <-> (core < length (re_topology env))%nat.
Proof. unfold rdt_cores. rewrite elem_of_seq. lia. Qed.

Lemma rdt_sockets_valid : sockets_valid env (rdt_cores env) rmid.
Proof. intros core Hc Ho. unfold rmid. rewrite length_replicate. apply (in_socket Henv). split; [by apply in_rdt_cores|done]. Qed.

Lemma getMaxRMID_range : 0 <= getMaxRMID env < 2 ^ 32.
Proof. unfold getMaxRMID. apply (wrapN_fits 32). lia. Qed.

Lemma first_rmid : getMaxRMID env <> 0 -> u32 (getMaxRMID env - 1) = getMaxRMID env - 1.
Proof. intros H. pose proof getMaxRMID_range. apply wrapN_small. unfold fits. lia. Qed.

Lemma rdt_enough : enough env (rdt_cores env) rmid.
Proof.
  intros s id [-> Hs]%lookup_replicate. pose proof getMaxRMID_range. pose proof (enough_RMIDs Henv s).
  destruct (decide (getMaxRMID env = 0)); [right; lia|left]. rewrite first_rmid by done. lia.
Qed.

(** The identifier of an online core. *)
Lemma rdt_allotted core : rdt_online core -> exists id, (core, id) ∈ allot env (rdt_cores env) rmid /\ 0 <= id < getMaxRMID env.
Proof.
  intros [Hc Ho]. destruct (allot_distinct env _ _ rdt_sockets_valid rdt_enough) as [_ Hfst].
  assert (Hf : core ∈ map fst (allot env (rdt_cores env) rmid)) by (rewrite Hfst; apply list_elem_of_filter; split; [done|by apply in_rdt_cores]).
  apply list_elem_of_fmap in Hf as ([c id] & -> & Hid). exists id. split; [exact Hid|]. cbn [fst] in *.
  destruct (allot_bounds env _ _ rdt_sockets_valid rdt_enough _ _ Hid) as (v & [-> _]%lookup_replicate & Hi).
  destruct (decide (getMaxRMID env = 0)) as [E|]; [|rewrite first_rmid in Hi by done; lia].
  pose proof (online_count_in env c (rdt_cores env) (proj2 (in_rdt_cores c) Hc) Ho) as Hp. destruct (in_socket Henv c (conj Hc Ho)) as [Hs _].
  pose proof (enough_RMIDs Henv (Z.to_nat (rdt_socket env c))) as Hn. rewrite Z2Nat.id in Hn by done. lia.
Qed.

Lemma rdt_allotted_apart c1 c2 id : (c1, id) ∈ allot env (rdt_cores env) rmid -> (c2, id) ∈ allot env (rdt_cores env) rmid ->
  rdt_socket env c1 = rdt_socket env c2 -> c1 = c2.
Proof.
  intros [n1 L1]%list_elem_of_lookup [n2 L2]%list_elem_of_lookup E.
  destruct (allot_distinct env _ _ rdt_sockets_valid rdt_enough) as [Hnd _].
  assert (n1 = n2); [|congruence]. eapply (NoDup_lookup _ n1 n2 _ Hnd); [by rewrite list_lookup_fmap, L1|].
  rewrite list_lookup_fmap, L2. cbn. by rewrite E.
Qed.

Lemma initRDT_runs h : rdt_available env = true -> re_USE_RESCTRL env || re_resctrl_mounted env || re_secure_boot env = false ->
  exists h' st, initRDT env rdt_init h = (h', Ok st) /\ useResctrl st = false /\
    (forall core, rdt_online core -> exists id, (core, id) ∈ allot env (rdt_cores env) rmid /\ 0 <= id < getMaxRMID env /\
       rmid_of h' core = id /\ selected_rmid h' core = id /\ clos_of h' core = clos_of h core) /\
    counters_for env h' st (filter (fun core => isCoreOnline (re_topology env) core = true) (rdt_cores env)).
Proof.
  intros Hav Hno.
  destruct (assign_runs env (rdt_cores env) (NoDup_seq _ _) rmid rdt_init h [] rdt_sockets_valid) as (h1 & st1 & E1 & R1 & _ & U1 & C1);
    [split; intros; constructor|].
  eexists h1, _. unfold initRDT. rewrite Hav, Hno. cbn [negb]. unfold mbind, M_bind. fold rmid. rewrite E1. split_and!; [reflexivity|exact U1| |exact C1].
  intros core Hc. destruct (rdt_allotted core Hc) as (id & Hid & Hr). destruct (R1 _ _ Hid) as (A & B & D). exists id.
  assert (Em : Z.land id RMID_MASK = id); [|rewrite Em in A, B; split_and!; done || lia].
  unfold RMID_MASK. change (Z.shiftl 1 10 - 1) with (Z.ones 10). pose proof (ten_bits Henv). rewrite Z.land_ones by lia. apply Z.mod_small. lia.
Qed.

End Apart.

(** C14. Cores are monitored apart, where resource monitoring is available and is programmed
    through the MSRs and not through the resource control file system. On a machine of plain
    memory, when a socket has no more online cores than identifiers, [initRDT] gives every online core an identifier of its own
    among those of its socket, the same in the register that tags its requests and in the one
    that selects what is read, and keeps its class of service; where no core is offline, the
    bandwidth counters that are read for a core are the ones made for it; and [cleanupRDT]
    takes the identifiers back and leaves the classes of service as they were. *)
Theorem rdt_cores_apart env h :
  rdt_available env = true -> re_USE_RESCTRL env || re_resctrl_mounted env || re_secure_boot env = false ->
  identifiers_suffice env ->
  exists h' st, initRDT env rdt_init h = (h', Ok st) /\
    (forall core, rdt_online env core ->
       0 <= rmid_of h' core < getMaxRMID env /\ selected_rmid h' core = rmid_of h' core /\ clos_of h' core = clos_of h core) /\
    (forall c1 c2, rdt_online env c1 -> rdt_online env c2 -> c1 <> c2 -> rdt_socket env c1 = rdt_socket env c2 -> rmid_of h' c1 <> rmid_of h' c2) /\
    ((forall core, (core < length (re_topology env))%nat -> rdt_online env core) -> forall core, rdt_online env core ->
       rdt_CoreLocalMemoryBWMetricAvailable env = true -> own_counter MBLCounter h' (core_bandwidth st core).1 core /\
       (rdt_CoreRemoteMemoryBWMetricAvailable env = true -> own_counter MBTCounter h' (core_bandwidth st core).2 core)) /\
    exists h'', cleanupRDT env st h' = (h'', Ok tt) /\
      forall core, rdt_online env core -> msr_of h'' core IA32_PQR_ASSOC = clos_of h core /\ msr_of h'' core IA32_QM_EVTSEL = 0.
Proof.
  intros Hav Hno Henv. destruct (initRDT_runs env Henv h Hav Hno) as (h1 & st & E1 & U1 & Hpair & Cl & Ct).
  exists h1, st. split_and!; [exact E1|..].
  - intros core Hc. destruct (Hpair core Hc) as (id & _ & Hr & -> & -> & ->). split_and!; done || lia.
  - intros c1 c2 H1 H2 Hne Hs E. destruct (Hpair c1 H1) as (i1 & Hi1 & _ & E1' & _). destruct (Hpair c2 H2) as (i2 & Hi2 & _ & E2' & _).
    apply Hne. eapply (rdt_allotted_apart env Henv); [exact Hi1| |exact Hs]. by rewrite <- E1', E, E2'.
  - intros Hall core [Hc Ho] Hl. assert (Hseq : rdt_cores env !! core = Some core) by (apply lookup_seq; lia).
    rewrite filter_all in Cl, Ct by (intros c Hcc%in_rdt_cores; by destruct (Hall c Hcc)).
    split; [|intros Hr]; [destruct (Forall2_lookup_r _ _ _ _ _ (Cl Hl) Hseq) as (x & Hx & e & ? & ?)|
      destruct (Forall2_lookup_r _ _ _ _ _ (Ct Hl Hr) Hseq) as (x & Hx & e & ? & ?)]; by exists x, e.
  - destruct (dissociate_all env (rdt_cores env) h1 (NoDup_seq _ _)) as (h2 & E2 & R2 & _). exists h2. unfold cleanupRDT.
    rewrite Hav, U1. split; [exact E2|]. intros core Hcore. pose proof Hcore as [Hc Ho].
    destruct (R2 core (proj2 (in_rdt_cores env core) Hc) Ho) as [-> ->]. by destruct (Hpair core Hcore) as (id & _ & _ & _ & _ & ->).
Qed.

(** Two sockets of two cores, four identifiers each, with both bandwidth counters. *)
Definition example_rdt_cpuid (leaf subleaf : Z) : PCM_CPUID_INFO :=
  if leaf =? 7 then Cpuid 0 (2 ^ 12) 0 0
  else if subleaf =? 0 then Cpuid 0 3 0 2 else Cpuid 0 65536 3 7.
Definition example_rdt_env (offline : Z) : rdt_env :=
  RdtEnv example_rdt_cpuid false false false false false ICX 6
    (map (fun k => let id := if k =? offline then -1 else k in Entry id 0 (k mod 2) 0 0 0 0 (k / 2) (k mod 2) (k / 2) (-1) (-1)) [0; 1; 2; 3]) 2.

Lemma rdt_cores_apart_witness :
  let env := example_rdt_env (-1) in let h := HW [Write (MsrPort 2 IA32_PQR_ASSOC) (2 ^ 32 * 5 + 9)] ∅ ∅ in
  exists h' st, initRDT env rdt_init h = (h', Ok st) /\ rmid_of h' 2 <> rmid_of h' 3 /\ clos_of h' 2 = 2 ^ 32 * 5.
Proof.
  intros env h. destruct (rdt_cores_apart env h) as (h' & st & E & H1 & H2 & _).
  - reflexivity.
  - reflexivity.
  - split; [by vm_compute| |].
    + intros core [Hc _]. cbn in Hc. do 4 (destruct core as [|core]; [by vm_compute|]). lia.
    + intros s. pose proof (length_filter (fun core => isCoreOnline (re_topology env) core = true /\ rdt_socket env core = Z.of_nat s) (rdt_cores env)) as Hl.
      change (length (rdt_cores env)) with 4%nat in Hl. change (getMaxRMID env) with 4. unfold online_count, online_cores_of. lia.
  - exists h', st. split; [exact E|]. split.
    + apply H2; [split; [cbn; lia|reflexivity]|split; [cbn; lia|reflexivity]|done|reflexivity].
    + destruct (H1 2%nat) as (_ & _ & ->); [split; [cbn; lia|reflexivity]|]. reflexivity.
Defined.

(** With an offline core the counters are read for the wrong cores: [initRDT] makes one for
    every online core, [readAndAggregateMemoryBWCounters] looks for that of a core at its own
    number. Core 1 is offline here; the counter of core 2 is found for core 1, that of core 3
    for core 2, and core 3 has none. *)
Lemma offline_core_shifts_counters :
  match initRDT (example_rdt_env 1) rdt_init (HW [] ∅ ∅) with
  | (h, Ok st) =>
      map (fun core => id ← (core_bandwidth st core).1; raw_counter <$> extenders h !! id) [0; 1; 2; 3]%nat =
      [Some (MBLCounter (Some 0)); Some (MBLCounter (Some 2)); Some (MBLCounter (Some 3)); None]
  | _ => False
  end.
Proof. by vm_compute. Qed.
