(* ===== verification/Bandwidth.v ===== *)
(** The free-running memory bandwidth counters of [src/src/bw.cpp], how
    [PCM::initUncoreObjects] of [src/src/cpucounters.cpp] creates them, and the energy
    counters that [PCM::initEnergyMonitoring] creates.

    A mapping of physical memory is named by its first address. *)

From S2P Require Import Prelude Bits CpuModels Capabilities Registers PcmUncore.
Local Open Scope Z_scope.

Section Code.
Context {machine : Machine}.

(** * Client processors *)

Definition PCM_CLIENT_IMC_BAR_OFFSET : Z := 0x48.
Definition PCM_TGL_IMC_STEP : Z := 0x10000.
Definition PCM_TGL_IMC_DRAM_DATA_READS : list Z := [0x5058; 0xd858].
Definition PCM_TGL_IMC_DRAM_DATA_WRITES : list Z := [0x50A0; 0xd8A0].
Definition PCM_TGL_IMC_EVENT_BASE : list Z := [0x5000; 0xd000].

(** [imcHandle] is device 0:0:0.0. *)
Definition getClientIMCStartAddr (imcHandle : Z) : M Z :=
  r ← access_read (PciPort64 imcHandle PCM_CLIENT_IMC_BAR_OFFSET);
  let imcbar := default 0 r in
  if imcbar =? 0 then throw StdException else mret (Z.land imcbar (u64 (Z.lnot (u64 (4096 - 1))))).

(** An object of a subclass: the registers whose sum each method returns; none where the
    subclass does not override the method, which returns 0. *)
Record FreeRunningBWCounters := FreeRunning {
  bw_getImcReads : list port;
  bw_getImcWrites : list port;
  bw_getGtRequests : list port;
  bw_getIaRequests : list port;
  bw_getIoRequests : list port
}.

(** The register at offset [offsets[model]] of [mmioRange[i][model]]. *)
Definition tgl_register (startAddr i base offset : Z) : port :=
  MmioPort64 (startAddr + i * PCM_TGL_IMC_STEP + base) (offset - base).

Definition tgl_registers (startAddr : Z) (offsets : list Z) : list port :=
  concat (map (fun i => zip_with (tgl_register startAddr i) PCM_TGL_IMC_EVENT_BASE offsets) [0; 1]).

Definition TGLClientBW (imcHandle : Z) : M FreeRunningBWCounters :=
  startAddr ← getClientIMCStartAddr imcHandle;
  mret (FreeRunning (tgl_registers startAddr PCM_TGL_IMC_DRAM_DATA_READS) (tgl_registers startAddr PCM_TGL_IMC_DRAM_DATA_WRITES) [] [] []).

Definition PCM_CLIENT_IMC_DRAM_GT_REQUESTS : Z := 0x5040.
Definition PCM_CLIENT_IMC_DRAM_IA_REQUESTS : Z := 0x5044.
Definition PCM_CLIENT_IMC_DRAM_IO_REQUESTS : Z := 0x5048.
Definition PCM_CLIENT_IMC_DRAM_DATA_READS : Z := 0x5050.
Definition PCM_CLIENT_IMC_DRAM_DATA_WRITES : Z := 0x5054.
Definition PCM_CLIENT_IMC_EVENT_BASE : Z := 0x5000.

Definition ClientBW (imcHandle : Z) : M FreeRunningBWCounters :=
  startAddr ← getClientIMCStartAddr imcHandle;
  let reg offset := [MmioPort32 (startAddr + PCM_CLIENT_IMC_EVENT_BASE) (offset - PCM_CLIENT_IMC_EVENT_BASE)] in
  mret (FreeRunning (reg PCM_CLIENT_IMC_DRAM_DATA_READS) (reg PCM_CLIENT_IMC_DRAM_DATA_WRITES)
          (reg PCM_CLIENT_IMC_DRAM_GT_REQUESTS) (reg PCM_CLIENT_IMC_DRAM_IA_REQUESTS) (reg PCM_CLIENT_IMC_DRAM_IO_REQUESTS)).

Definition PCM_ADL_IMC_EVENT_BASE : Z := 0xd000.
Definition PCM_ADL_IMC_DRAM_DATA_READS : Z := 0x858.
Definition PCM_ADL_IMC_DRAM_DATA_WRITES : Z := 0x8A0.

Definition ADLClientBW (imcHandle : Z) : M FreeRunningBWCounters :=
  startAddr ← getClientIMCStartAddr imcHandle;
  let reg offset := [MmioPort32 (startAddr + PCM_ADL_IMC_EVENT_BASE) offset] in
  mret (FreeRunning (reg PCM_ADL_IMC_DRAM_DATA_READS) (reg PCM_ADL_IMC_DRAM_DATA_WRITES) [] [] []).

(** The extenders of [initUncoreObjects]. *)
Record client_counters := ClientCounters {
  clientImcReads : nat;
  clientImcWrites : nat;
  clientGtRequests : nat;
  clientIaRequests : nat;
  clientIoRequests : nat
}.

Definition uses_TGLClientBW (m : Z) : bool := is_one_of m [TGL; ADL; RPL; MTL; LNL; ARL; PTL].

Definition init_client_bw (m imcHandle : Z) : M client_counters :=
  bw ← (if uses_TGLClientBW m then TGLClientBW imcHandle else ClientBW imcHandle);
  reads ← create_extender (ClientImcCounter (bw_getImcReads bw)) 32;
  writes ← create_extender (ClientImcCounter (bw_getImcWrites bw)) 32;
  gt ← create_extender (ClientImcCounter (bw_getGtRequests bw)) 32;
  ia ← create_extender (ClientImcCounter (bw_getIaRequests bw)) 32;
  io ← create_extender (ClientImcCounter (bw_getIoRequests bw)) 32;
  mret (ClientCounters reads writes gt ia io).

(** * Servers *)

Definition PCM_SERVER_IMC_DRAM_DATA_READS : Z := 0x2290.
Definition PCM_SERVER_IMC_DRAM_DATA_WRITES : Z := 0x2298.
Definition PCM_SERVER_IMC_PMM_DATA_READS : Z := 0x22a0.
Definition PCM_SERVER_IMC_PMM_DATA_WRITES : Z := 0x22a8.

Definition server_bar (mmioBase memOffset : Z) : Z :=
  Z.lor (Z.shiftl (Z.land mmioBase (Z.shiftl 1 29 - 1)) 23) (Z.shiftl (Z.land memOffset (Z.shiftl 1 11 - 1)) 12).

(** [getServerBars]; [ubox0Handle] is the U-box of the socket. *)
Definition getServerBars (regBase numIMC ubox0Handle : Z) : M (list Z) :=
  b ← access_read (PciPort32 ubox0Handle 0xd0);
  let mmioBase := default 0 b in
  mapM_ (seqZ 0 numIMC) (fun i =>
    o ← access_read (PciPort32 ubox0Handle (regBase + i * 4));
    let memBar := server_bar mmioBase (default 0 o) in
    if memBar =? 0 then throw StdException else mret memBar).

Definition getServerMemBars (numIMC ubox0Handle : Z) : M (list Z) := getServerBars 0xd8 numIMC ubox0Handle.

Definition getServerSCFBar (ubox0Handle : Z) : M Z := l ← getServerBars 0xd4 1 ubox0Handle; mret (nth 0 l 0).

(** A [ServerBW]: the memory controllers of a socket. *)
Definition ServerBW (numIMC ubox0Handle : Z) : M (list Z) := getServerMemBars numIMC ubox0Handle.
Definition server_sum (offset : Z) (bars : list Z) : M Z := read_sum (map (fun bar => MmioPort64 bar offset) bars) 0.

Definition ServerBW_getImcReads : list Z -> M Z := server_sum PCM_SERVER_IMC_DRAM_DATA_READS.
Definition ServerBW_getImcWrites : list Z -> M Z := server_sum PCM_SERVER_IMC_DRAM_DATA_WRITES.
Definition ServerBW_getPMMReads : list Z -> M Z := server_sum PCM_SERVER_IMC_PMM_DATA_READS.
Definition ServerBW_getPMMWrites : list Z -> M Z := server_sum PCM_SERVER_IMC_PMM_DATA_WRITES.

(** * Energy *)

Definition MSR_PKG_ENERGY_STATUS : Z := 0x611.
Definition MSR_DRAM_ENERGY_STATUS : Z := 0x619.
Definition MSR_SYS_ENERGY_STATUS : Z := 0x64D.
Definition MSR_PP0_ENERGY_STATUS : Z := 0x639.
Definition MSR_PP1_ENERGY_STATUS : Z := 0x641.
Definition MSR_RAPL_POWER_UNIT : Z := 0x606.
Definition MSR_PKG_POWER_INFO : Z := 0x614.

(** The extenders of the energy counters. *)
Record energy_counters := EnergyCounters {
  energy_status : list nat;
  dram_energy_status : list nat;
  pp_energy_status : list nat;
  system_energy_status : option nat
}.

(** The unit of energy as a power of two of joules, or of microjoules on the two Atoms:
    [joulesPerEnergyUnit] is [2 ^ unit / 1000000] there, and [2 ^ -unit] elsewhere. *)
Inductive energy_unit := MicroJoules (unit : Z) | JoulesFraction (unit : Z).

(** [(int32)(double(x) * (1. / double(1ULL << power_unit)))] *)
Definition watts (power_unit x : Z) : Z := Z.shiftr x power_unit.

Record power_info := PowerInfo {
  joulesPerEnergyUnit : energy_unit;
  pkgThermalSpecPower : Z;
  pkgMinimumPower : Z;
  pkgMaximumPower : Z
}.

Definition read_power_info (m : Z) (handle : SafeMsrHandle) : M power_info :=
  rapl_power_unit ← msr_read handle MSR_RAPL_POWER_UNIT;
  let energy_status_unit := extract_bits rapl_power_unit 8 12 in
  let power_unit := extract_bits rapl_power_unit 0 3 in
  package_power_info ← msr_read handle MSR_PKG_POWER_INFO;
  mret (PowerInfo (if is_one_of m [CHERRYTRAIL; BAYTRAIL] then MicroJoules energy_status_unit else JoulesFraction energy_status_unit)
          (watts power_unit (extract_bits package_power_info 0 14))
          (watts power_unit (extract_bits package_power_info 16 30))
          (watts power_unit (extract_bits package_power_info 32 46))).

(** A counter of 32 bits for every reference core. *)
Definition energy_extenders (handles : list SafeMsrHandle) (addr : Z) : M (list nat) :=
  mapM_ handles (fun handle => create_extender (MsrHandleCounter handle addr (2 ^ 64 - 1)) 32).

(** [initEnergyMonitoring] before any counter exists; [handles] are the reference cores of
    the sockets. *)
Definition initEnergyMonitoring (m : Z) (handles : list SafeMsrHandle) : M (option power_info * energy_counters) :=
  match handles with
  | [] => mret (None, EnergyCounters [] [] [] None)
  | first :: _ =>
      let available := packageEnergyMetricsAvailable m in
      info ← (if available then i ← read_power_info m first; mret (Some i) else mret None);
      pkg ← (if available then energy_extenders handles MSR_PKG_ENERGY_STATUS else mret []);
      dram ← (if available && dramEnergyMetricsAvailable m then energy_extenders handles MSR_DRAM_ENERGY_STATUS else mret []);
      pp ← (if ppEnergyMetricsAvailable m (Z.of_nat (length handles)) && (length handles =? 1)%nat
            then mapM_ [MSR_PP0_ENERGY_STATUS; MSR_PP1_ENERGY_STATUS] (fun addr => create_extender (MsrHandleCounter first addr (2 ^ 64 - 1)) 32)
            else mret []);
      sys ← (if systemEnergyMetricAvailable m then id ← create_extender (MsrHandleCounter first MSR_SYS_ENERGY_STATUS 0xFFFFFFFF) 32; mret (Some id)
             else mret None);
      mret (info, EnergyCounters pkg dram pp sys)
  end.

End Code.
