(* ===== verification/ServerInit.v ===== *)
(** Creation of [ServerUncorePMUs]: the constructor with [initRegisterLocations],
    [initBuses] and [initDirect] of [src/src/cpucounters.cpp], the register addresses of
    [src/src/types.h], the search for devices on the PCI buses ([src/src/pci.h]), and the
    server part of [PCM::initUncoreObjects].

    The PCI devices that exist and their handles, the segments of the MCFG table and the
    environment variables are arguments. Memory ranges can be mapped, and Linux perf is not
    used for the uncore. *)

From S2P Require Import Prelude Bits CpuModels Capabilities WidthExtender Registers UncorePMU ServerUncore PcmUncore Discovery Bandwidth.
Local Open Scope Z_scope.

(** * Where the units are ([types.h]): device and function *)

Definition location : Type := Z * Z.

Definition JKTIVT_MC : list (list location) :=
  [[(16, 4); (16, 5); (16, 0); (16, 1)]; [(30, 4); (30, 5); (30, 0); (30, 1)]].
Definition HSX_MC : list (list location) :=
  [[(20, 0); (20, 1); (21, 0); (21, 1)]; [(23, 0); (23, 1); (24, 0); (24, 1)]].
Definition KNL_MC0 : list location := [(8, 2); (8, 3); (8, 4)].
Definition KNL_MC1 : list location := [(9, 2); (9, 3); (9, 4)].
(** The fourth channels do not exist: [-1]. *)
Definition SKX_MC : list (list location) :=
  [[(10, 2); (10, 6); (11, 2); (u32 (-1), u32 (-1))]; [(12, 2); (12, 6); (13, 2); (u32 (-1), u32 (-1))]].
Definition KNL_EDC : list location := [(24, 2); (25, 2); (26, 2); (27, 2); (28, 2); (29, 2); (30, 2); (31, 2)].
Definition HSX_HA : list location := [(18, 1); (18, 5)].
Definition JKTIVT_QPI : list location := [(8, 2); (9, 2); (24, 2)].
Definition HSX_QPI : list location := [(8, 2); (9, 2); (10, 2)].
Definition SKX_QPI : list location := [(14, 0); (15, 0); (16, 0)].
Definition CPX_QPI : list location := [(14, 4); (15, 4); (16, 4)].
Definition ICX_QPI : list location := [(2, 1); (3, 1); (4, 1)].
Definition SPR_QPI : list location := [(1, 1); (2, 1); (3, 1); (4, 1)].
Definition BHS_QPI : list location := [(16, 1); (17, 1); (18, 1); (19, 1); (20, 1); (21, 1)].
Definition SKX_M3UPI : list location := [(0x12, 1); (0x12, 2); (0x12, 5)].
Definition CPX_M3UPI : list location := [(0x12, 1); (0x12, 2); (0x13, 1); (0x13, 2); (0x14, 1); (0x14, 2)].
Definition ICX_M3UPI : list location := [(5, 1); (6, 1); (7, 1)].
Definition SPR_M3UPI : list location := [(5, 1); (6, 1); (7, 1); (8, 1)].
Definition BHS_M3UPI : list location := [(24, 0); (25, 0); (26, 0); (27, 0); (28, 0); (29, 0)].
Definition SKX_M2M : list location := [(8, 0); (9, 0)].
Definition SERVER_M2M : list location := [(12, 0); (13, 0); (14, 0); (15, 0)].
Definition SERVER_HBM_M2M : list location :=
  [(12, 1); (13, 1); (14, 1); (15, 1); (12, 2); (13, 2); (14, 2); (15, 2);
   (12, 3); (13, 3); (14, 3); (15, 3); (12, 4); (13, 4); (14, 4); (15, 4)].
Definition BHS_M2M : list location :=
  [(5, 1); (5, 2); (5, 3); (5, 4); (5, 5); (5, 6); (5, 7); (6, 1); (6, 2); (6, 3); (6, 4); (6, 5)].

Record locations := Locations {
  MCRegisterLocation : list (list location);   (** controller, channel *)
  XPIRegisterLocation : list location;
  M3UPIRegisterLocation : list location;
  EDCRegisterLocation : list location;
  M2MRegisterLocation : list location;
  HBM_M2MRegisterLocation : list location;
  HARegisterLocation : list location
}.

Definition initRegisterLocations (m : Z) (isCPX : bool) : res locations :=
  switch m
    [([JAKETOWN; IVYTOWN], Ok (Locations JKTIVT_MC JKTIVT_QPI [] [] [] [] []));
     ([HASWELLX; BDX_DE; BDX], Ok (Locations HSX_MC HSX_QPI [] [] [] [] HSX_HA));
     ([SKX], Ok (Locations SKX_MC (SKX_QPI ++ if isCPX then CPX_QPI else []) (if isCPX then CPX_M3UPI else SKX_M3UPI) [] SKX_M2M [] []));
     ([ICX], Ok (Locations [] ICX_QPI ICX_M3UPI [] SERVER_M2M [] []));
     ([SPR; EMR], Ok (Locations [] SPR_QPI SPR_M3UPI [] SERVER_M2M SERVER_HBM_M2M []));
     ([KNL], Ok (Locations [KNL_MC0; KNL_MC1] [] [] KNL_EDC [] [] []));
     ([SRF; GNR], Ok (Locations [] BHS_QPI BHS_M3UPI [] BHS_M2M [] []));
     ([GNR_D], Ok (Locations [] [] [] [] (take 8 BHS_M2M) [] []));
     ([SNOWRIDGE], Ok (Locations [] [] [] [] SERVER_M2M [] []));
     ([GRR], Ok (Locations [] [] [] [] [] [] []))]
    (Throw StdException).

(** * Where the registers of a unit are *)

(** Offsets: the unit control (of 64 bits?), the counter controls (of 64 bits?) and values,
    and the control and value of the fixed counter. *)
Record pmon_layout := PmonLayout {
  box_ctl64 : bool;
  box_ctl : Z;
  ctl64 : bool;
  ctls : list (option Z);
  ctrs : list (option Z);
  fixed_ctl : option Z;
  fixed_ctr : option Z
}.

Definition KNX_MC_layout := PmonLayout false 0xB30 false (map Some [0xB20; 0xB24; 0xB28; 0xB2C]) (map Some [0xB00; 0xB08; 0xB10; 0xB18]) (Some 0xB44) (Some 0xB3C).
Definition XPF_MC_layout := PmonLayout false 0x0F4 false (map Some [0x0D8; 0x0DC; 0x0E0; 0x0E4]) (map Some [0x0A0; 0x0A8; 0x0B0; 0x0B8]) (Some 0x0F0) (Some 0x0D0).
Definition KNX_EDC_layout := PmonLayout false 0xA30 false (map Some [0xA20; 0xA24; 0xA28; 0xA2C]) (map Some [0xA00; 0xA08; 0xA10; 0xA18]) (Some 0xA44) (Some 0xA3C).
Definition XPF_HA_layout := PmonLayout false 0xF4 false (map Some [0xD8; 0xDC; 0xE0; 0xE4]) (map Some [0xA0; 0xA8; 0xB0; 0xB8]) None None.
Definition SERVER_M2M_layout := PmonLayout false 0x438 true (map Some [0x468; 0x470; 0x478; 0x480]) (map Some [0x440; 0x448; 0x450; 0x458]) None None.
Definition SKX_M2M_layout := PmonLayout false 0x258 true (map Some [0x228; 0x230; 0x238; 0x240]) (map Some [0x200; 0x208; 0x210; 0x218]) None None.
Definition ICX_M3UPI_layout := PmonLayout false 0xA0 false (map Some [0xD8; 0xDC; 0xE0; 0xE4]) (map Some [0xA8; 0xB0; 0xB8; 0xC0]) None None.
Definition BHS_M3UPI_layout := PmonLayout true 0x408 true (map Some [0x430; 0x438; 0x440; 0x448]) (map Some [0x410; 0x418; 0x420; 0x428]) None None.
(** Three counters, and a place without registers. *)
Definition M3UPI_layout := PmonLayout false 0xF4 false [Some 0xD8; Some 0xDC; Some 0xE0; None] [Some 0xA0; Some 0xA8; Some 0xB0; None] None None.
Definition U_L_layout := PmonLayout false 0x378 false (map Some [0x350; 0x358; 0x360; 0x368]) (map Some [0x318; 0x320; 0x328; 0x330]) None None.
Definition ICX_UPI_layout := PmonLayout false 0x318 false (map Some [0x350; 0x358; 0x360; 0x368]) (map Some [0x320; 0x328; 0x330; 0x338]) None None.
Definition SPR_UPI_layout := PmonLayout false 0x318 false (map (fun i => Some (0x350 + 8 * i)) [0; 1; 2; 3]) (map (fun i => Some (0x320 + 8 * i)) [0; 1; 2; 3]) None None.
Definition Q_P_layout := PmonLayout false 0x0F4 false (map Some [0x0D8; 0x0DC; 0x0E0; 0x0E4]) (map Some [0x0A0; 0x0A8; 0x0B0; 0x0B8]) None None.

(** [PCICFGRegister32], or of 64 bits. *)
Definition pci_register (wide : bool) (handle offset : Z) : HWRegister :=
  if wide then PCICFGRegister64 handle offset else PCICFGRegister32 handle offset.

Definition pci_pmu (l : pmon_layout) (handle : Z) : UncorePMU :=
  MkUncorePMU 0 (Some (pci_register (box_ctl64 l) handle (box_ctl l)))
    (map (fmap (pci_register (ctl64 l) handle)) (ctls l)) (map (fmap (PCICFGRegister64 handle)) (ctrs l))
    (PCICFGRegister32 handle <$> fixed_ctl l) (PCICFGRegister64 handle <$> fixed_ctr l) None None.

Definition imc_layout (m : Z) : pmon_layout := if m =? KNL then KNX_MC_layout else XPF_MC_layout.
Definition m2m_layout (m : Z) : pmon_layout := if is_one_of m [ICX; SNOWRIDGE; SPR; EMR; GNR; GNR_D; SRF] then SERVER_M2M_layout else SKX_M2M_layout.
Definition m3upi_layout (m : Z) : pmon_layout :=
  switch m [([ICX; SPR; EMR], ICX_M3UPI_layout); ([GNR; SRF], BHS_M3UPI_layout)] M3UPI_layout.
Definition xpi_layout (m : Z) : pmon_layout :=
  switch m [([SKX], U_L_layout); ([ICX], ICX_UPI_layout); ([SPR; EMR; GNR; SRF], SPR_UPI_layout)] Q_P_layout.

Definition SERVER_MC_CH_PMON_BASE_ADDR : Z := 0x22800.
Definition SERVER_MC_CH_PMON_STEP : Z := 0x4000.
Definition SERVER_HBM_CH_PMON_BASE_ADDR : Z := 0x141c00.
Definition SERVER_HBM_CH_PMON_STEP : Z := 0x4000.
Definition SERVER_HBM_BOX_PMON_STEP : Z := 0x9000.
Definition BHS_MC_CH_PMON_BASE_ADDR : Z := 0x024e800.
Definition GNR_D_A_MC_CH_PMON_BASE_ADDR : Z := 0x0104800.
Definition GNR_D_B_MC_CH_PMON_BASE_ADDR : Z := 0x0208800.
Definition SERVER_MC_CH_PMON_BOX_CTL_OFFSET : Z := 0x00.
Definition SERVER_MC_CH_PMON_CTL0_OFFSET : Z := 0x40.
Definition SERVER_MC_CH_PMON_CTR0_OFFSET : Z := 0x08.

(** [createIMCPMU]: the registers in memory from [addr] on. *)
Definition createIMCPMU (addr : Z) : UncorePMU :=
  let alignedAddr := Z.land addr (u64 (Z.lnot 4095)) in
  let alignDelta := Z.land addr 4095 in
  let r32 o := Some (MMIORegister32 alignedAddr (o + alignDelta)) in
  let r64 o := Some (MMIORegister64 alignedAddr (o + alignDelta)) in
  MkUncorePMU 0 (r32 SERVER_MC_CH_PMON_BOX_CTL_OFFSET)
    (map (fun c => r32 (SERVER_MC_CH_PMON_CTL0_OFFSET + 4 * c)) [0; 1; 2; 3])
    (map (fun c => r64 (SERVER_MC_CH_PMON_CTR0_OFFSET + 8 * c)) [0; 1; 2; 3])
    (r32 SERVER_MC_CH_PMON_FIXED_CTL_OFFSET) (r64 SERVER_MC_CH_PMON_FIXED_CTR_OFFSET) None None.

(** * Devices on the PCI buses *)

Definition IMC_DEV_IDS : list Z :=
  [0x03cb0; 0x03cb1; 0x03cb4; 0x03cb5; 0x0EB4; 0x0EB5; 0x0EB0; 0x0EB1; 0x0EF4; 0x0EF5; 0x0EF0; 0x0EF1;
   0x2fb0; 0x2fb1; 0x2fb4; 0x2fb5; 0x2fd0; 0x2fd1; 0x2fd4; 0x2fd5; 0x6fb0; 0x6fb1; 0x6fb4; 0x6fb5;
   0x6fd0; 0x6fd1; 0x6fd4; 0x6fd5; 0x2042; 0x2046; 0x204a; 0x7840; 0x7841; 0x7842; 0x7843; 0x7844; 0x781f].
Definition UPI_DEV_IDS : list Z := [0x2058; 0x3441; 0x3241].
Definition M2M_DEV_IDS : list Z := [0x2066; 0x344A; 0x324A].
Definition UBOX0_DEV_IDS : list Z := [0x3451; 0x3251].
Definition PCM_INTEL_PCI_VENDOR_ID : Z := 0x8086.
Definition PCM_PCI_VENDOR_ID_OFFSET : Z := 0.
Definition PCM_INVALID_DEV_ADDR : Z := u32 (Z.lnot 0).
Definition PCM_INVALID_FUNC_ADDR : Z := u32 (Z.lnot 0).
Definition SERVER_UBOX0_REGISTER_DEV_ADDR : Z := 0.
Definition SERVER_UBOX0_REGISTER_FUNC_ADDR : Z := 1.

(** A record of the MCFG table: a segment and its first and last bus. *)
Record MCFGRecord := Mcfg { PCISegmentGroupNumber : Z; startBusNumber : Z; endBusNumber : Z }.

(** The buses on which the first units of the sockets are: group and bus. *)
Record socket_buses := SocketBuses {
  socket2iMCbus : list (Z * Z);
  socket2UPIbus : list (Z * Z);
  socket2M2Mbus : list (Z * Z);
  socket2UBOX0bus : list (Z * Z)
}.

Definition no_buses : socket_buses := SocketBuses [] [] [] [].

(** Code that also changes the vectors of buses, which are static: what it has filled is
    kept when it throws. *)
Definition MS (A : Type) : Type := socket_buses * hw -> (socket_buses * hw) * res A.

#[export] Instance MS_ret : MRet MS := fun A a s => (s, Ok a).
#[export] Instance MS_bind : MBind MS := fun A B f m s =>
  match m s with
  | (s', Ok a) => f a s'
  | (s', Throw e) => (s', Throw e)
  end.

Definition lift_hw {A} (m : M A) : MS A := fun s => let r := m s.2 in ((s.1, r.1), r.2).
Definition ms_throw {A} (e : exn) : MS A := fun s => (s, Throw e).
Definition get_buses : MS socket_buses := fun s => (s, Ok s.1).
Definition put_buses (b : socket_buses) : MS unit := fun s => ((b, s.2), Ok tt).

(** What is given from outside. *)
Record server_env := ServerEnv {
  se_model : Z;                                   (** [cpu_family_model] *)
  se_cpuid_model : Z;                             (** [getCPUFamilyModelFromCPUID()] *)
  se_stepping : Z;
  se_isCPX : bool;
  se_sockets : nat;                               (** [getNumSockets()] *)
  se_mcfg : list MCFGRecord;
  se_open : Z -> Z -> Z -> Z -> option Z;         (** the handle of a device: group, bus, device, function *)
  se_discovery : option UncorePMUDiscovery;
  se_no_imc_discovery : bool;                     (** [PCM_NO_IMC_DISCOVERY] *)
  se_no_upill_discovery : bool                    (** [PCM_NO_UPILL_DISCOVERY] *)
}.

Section Code.
Context {machine : Machine} (env : server_env).

Let m : Z := se_model env.

Section Scan.
Context {S : Type}.

(** The [probe] of [forAllDevices]; [f] gets group, bus, device, function and identifier. *)
Definition probe (f : Z -> Z -> Z -> Z -> Z -> S -> M S) (requestedVendorID group bus device function : Z) (s : S) : M S :=
  match se_open env group bus device function with
  | None => mret s
  | Some h =>
      r ← access_read (PciPort32 h 0);
      let value := default 0 r in
      let vendor_id := Z.land value 0xffff in
      let device_id := Z.land (Z.shiftr value 16) 0xffff in
      if (0 <=? requestedVendorID) && negb (vendor_id =? requestedVendorID) then mret s
      else f group bus device function device_id s
  end.

Fixpoint for_each {X} (l : list X) (body : X -> S -> M S) (s : S) : M S :=
  match l with [] => mret s | x :: l => s ← body x s; for_each l body s end.

(** A negative device or function number stands for all of them. *)
Definition forAllDevices (f : Z -> Z -> Z -> Z -> Z -> S -> M S) (requestedVendorID requestedDevice requestedFunction : Z) : S -> M S :=
  for_each (se_mcfg env) (fun r =>
    for_each (seqZ (startBusNumber r) (endBusNumber r - startBusNumber r + 1)) (fun bus =>
      for_each (if requestedDevice <? 0 then seqZ 0 32 else [requestedDevice]) (fun device =>
        for_each (if requestedFunction <? 0 then seqZ 0 8 else [requestedFunction]) (fun function =>
          probe f requestedVendorID (PCISegmentGroupNumber r) bus device function)))).

Definition forAllIntelDevices (f : Z -> Z -> Z -> Z -> Z -> S -> M S) : Z -> Z -> S -> M S := forAllDevices f PCM_INTEL_PCI_VENDOR_ID.

End Scan.

(** [initSocket2Bus]: the vector as it is, or filled when it is empty. *)
Definition initSocket2Bus (socket2bus : list (Z * Z)) (device function : Z) (DEV_IDS : list Z) : M (list (Z * Z)) :=
  if (device =? PCM_INVALID_DEV_ADDR) || (function =? PCM_INVALID_FUNC_ADDR) then mret socket2bus
  else match socket2bus with
  | _ :: _ => mret socket2bus
  | [] => forAllIntelDevices (fun group bus _ _ device_id l =>
            mret (if existsb (Z.eqb device_id) DEV_IDS then l ++ [(group, bus)] else l)) device function []
  end.

(** [PciHandleType h(group, bus, device, function)] *)
Definition open_or_throw (group bus device function : Z) : M Z :=
  match se_open env group bus device function with Some h => mret h | None => throw RuntimeError end.

(** [getBusFromSocket]: [k] sockets are left. *)
Fixpoint bus_from (k : nat) (cur_bus : Z) : M Z :=
  h ← open_or_throw 0 cur_bus 5 0;
  r ← access_read (PciPort32 h 0x108);
  let cur_bus := Z.land (Z.shiftr (default 0 r) 8) 0x0ff in
  match k with
  | O => mret cur_bus
  | Datatypes.S k => if 0x0ff <? cur_bus + 1 then mret (-1) else bus_from k (cur_bus + 1)
  end.

Definition getBusFromSocket (socket : nat) : M Z := bus_from socket 0.

Definition createIntelPerfMonDevice (groupnr bus dev func : Z) : M (option Z) :=
  match se_open env groupnr (u32 bus) dev func with
  | None => mret None
  | Some h =>
      r ← access_read (PciPort32 h PCM_PCI_VENDOR_ID_OFFSET);
      mret (if Z.land (default 0 r) 0xffff =? PCM_INTEL_PCI_VENDOR_ID then Some h else None)
  end.

(** The devices of several places that exist. *)
Definition create_devices (groupnr bus : Z) (l : list location) : M (list Z) :=
  hs ← mapM_ l (fun r => createIntelPerfMonDevice groupnr bus r.1 r.2); mret (omap id hs).

(** * Buses *)

Record unit_buses := UnitBuses { groupnr : Z; iMCbus : Z; UPIbus : Z; M2Mbus : Z }.

Definition scan_M2M (first : location) : MS (list (Z * Z)) :=
  b ← get_buses;
  s2b ← lift_hw (initSocket2Bus (socket2M2Mbus b) first.1 first.2 M2M_DEV_IDS);
  put_buses (SocketBuses (socket2iMCbus b) (socket2UPIbus b) s2b (socket2UBOX0bus b)) ;; mret s2b.

Definition scan_iMC (first : location) : MS (list (Z * Z)) :=
  b ← get_buses;
  s2b ← lift_hw (initSocket2Bus (socket2iMCbus b) first.1 first.2 IMC_DEV_IDS);
  put_buses (SocketBuses s2b (socket2UPIbus b) (socket2M2Mbus b) (socket2UBOX0bus b)) ;; mret s2b.

Definition scan_UPI (first : location) : MS (list (Z * Z)) :=
  b ← get_buses;
  s2b ← lift_hw (initSocket2Bus (socket2UPIbus b) first.1 first.2 UPI_DEV_IDS);
  put_buses (SocketBuses (socket2iMCbus b) s2b (socket2M2Mbus b) (socket2UBOX0bus b)) ;; mret s2b.

Definition initSocket2Ubox0Bus : MS (list (Z * Z)) :=
  b ← get_buses;
  s2b ← lift_hw (initSocket2Bus (socket2UBOX0bus b) SERVER_UBOX0_REGISTER_DEV_ADDR SERVER_UBOX0_REGISTER_FUNC_ADDR UBOX0_DEV_IDS);
  put_buses (SocketBuses (socket2iMCbus b) (socket2UPIbus b) (socket2M2Mbus b) s2b) ;; mret s2b.

Definition init_m2m_bus (socket : nat) (l : locations) (u : unit_buses) : MS unit_buses :=
  match M2MRegisterLocation l with
  | [] => mret u
  | first :: _ =>
      s2b ← scan_M2M first;
      mret match s2b !! socket with
           | Some gb => UnitBuses gb.1 (iMCbus u) (UPIbus u) (i32 gb.2)
           | None => u
           end
  end.

(** Subscripts past the end, which are undefined, are errors. *)
Definition at_socket (l : list (Z * Z)) (socket : nat) : MS (Z * Z) :=
  match l !! socket with Some gb => mret gb | None => ms_throw OutOfRange end.

Definition init_imc_bus (socket : nat) (l : locations) (u : unit_buses) : MS unit_buses :=
  match MCRegisterLocation l with
  | (first :: _) :: _ =>
      s2b ← scan_iMC first;
      if (se_sockets env =? length s2b)%nat then
        gb ← at_socket s2b socket;
        b ← get_buses;
        u ← (if (se_sockets env =? length (socket2M2Mbus b))%nat
             then gb' ← at_socket (socket2M2Mbus b) socket;
                  mret (if negb (gb.1 =? gb'.1) then UnitBuses (groupnr u) (iMCbus u) (UPIbus u) (-1) else u)
             else mret u);
        mret (UnitBuses gb.1 (i32 gb.2) (UPIbus u) (M2Mbus u))
      else if (se_sockets env <=? 4)%nat then
        bus ← lift_hw (getBusFromSocket socket);
        if bus <? 0 then ms_throw StdException else mret (UnitBuses (groupnr u) bus (UPIbus u) (M2Mbus u))
      else ms_throw StdException
  | _ => mret u
  end.

Definition init_upi_bus (socket : nat) (l : locations) (u : unit_buses) : MS unit_buses :=
  let set_UPI bus := UnitBuses (groupnr u) (iMCbus u) bus (M2Mbus u) in
  match hasUPI m, XPIRegisterLocation l with
  | true, first :: _ =>
      s2b ← scan_UPI first;
      if (se_sockets env =? length s2b)%nat then
        gb ← at_socket s2b socket;
        mret (set_UPI (if negb (groupnr u =? gb.1) then -1 else i32 gb.2))
      else mret u
  | _, _ => mret (set_UPI (iMCbus u))
  end.

Definition initBuses (socket : nat) (l : locations) : MS unit_buses :=
  u ← init_m2m_bus socket l (UnitBuses 0 (-1) (-1) (-1));
  u ← init_imc_bus socket l u;
  if (se_sockets env =? 1)%nat then mret u else init_upi_bus socket l u.

(** * Units *)

(** The memory controllers on PCI: the units, and the number of channels of each controller
    that has any. *)
Fixpoint pci_imcs (u : unit_buses) (ctrls : list (list location)) : M (list UncorePMU * list Z) :=
  match ctrls with
  | [] => mret ([], [])
  | ctrl :: ctrls =>
      hs ← create_devices (groupnr u) (iMCbus u) ctrl;
      rest ← pci_imcs u ctrls;
      mret (map (pci_pmu (imc_layout m)) hs ++ rest.1, if (0 <? length hs)%nat then Z.of_nat (length hs) :: rest.2 else rest.2)
  end.

Definition populateM2MPMUs (u : unit_buses) (l : list location) : M (list UncorePMU) :=
  hs ← (if 0 <=? M2Mbus u then create_devices (groupnr u) (M2Mbus u) l else mret []);
  mret (map (pci_pmu (m2m_layout m)) hs).

(** The device of the U-box of a socket on its bus. *)
Definition ubox_handle (gb : Z * Z) : M Z := open_or_throw gb.1 gb.2 SERVER_UBOX0_REGISTER_DEV_ADDR SERVER_UBOX0_REGISTER_FUNC_ADDR.

(** The U-box of the socket when the bus scan finds it: [initAndCheckSocket2Ubox0Bus]. *)
Definition with_ubox {A} (socket : nat) (absent : A) (k : Z -> M A) : MS A :=
  s2b ← initSocket2Ubox0Bus;
  match s2b !! socket with
  | None => mret absent
  | Some gb => lift_hw (h ← ubox_handle gb; k h)
  end.

(** Memory channels found from the U-box: [numChannels] for each M2M unit. *)
Definition ubox_imcs (numChannels numM2M socket : nat) : MS (list UncorePMU * list Z) :=
  with_ubox socket ([], []) (fun h =>
    memBars ← getServerMemBars (Z.of_nat numM2M) h;
    mret (concat (map (fun memBar =>
            map (fun channel => createIMCPMU (u64 (memBar + SERVER_MC_CH_PMON_BASE_ADDR + Z.of_nat channel * SERVER_MC_CH_PMON_STEP)))
              (seq 0 numChannels)) memBars),
          map (fun _ => Z.of_nat numChannels) memBars)).

Definition initBHSiMCPMUsBase (base : Z) (numChannelsParam numM2M socket : nat) : MS (list UncorePMU * list Z) :=
  let numChannels := Nat.min numChannelsParam numM2M in
  with_ubox socket ([], []) (fun h =>
    memBar ← getServerSCFBar h;
    mret (map (fun channel => createIMCPMU (u64 (memBar + base + Z.of_nat channel * SERVER_MC_CH_PMON_STEP))) (seq 0 numChannels),
          replicate numChannels 1)).

Definition numChannels : nat :=
  if is_one_of m [SNOWRIDGE; ICX] then (if se_cpuid_model env =? ICX_D then 3 else 2)
  else if se_no_imc_discovery env && is_one_of m [SPR; EMR] then 3 else 0.

(** The memory channels that are not PCI devices of their own. *)
Definition init_mmio_imcs (numM2M socket : nat) : MS (list UncorePMU * list Z) :=
  if (0 <? numChannels)%nat then ubox_imcs numChannels numM2M socket
  else if is_one_of m [SPR; EMR] then
    let imcs := match se_discovery env with Some d => discovered_imcs d socket | None => [] end in
    mret (imcs, match imcs with [] => [] | _ => discovered_channels imcs end)
  else mret ([], []).

Definition init_bhs_imcs (numM2M socket : nat) : MS (list UncorePMU * list Z) :=
  switch m
    [([GRR], initBHSiMCPMUsBase BHS_MC_CH_PMON_BASE_ADDR 2 numM2M socket);
     ([GNR; SRF], initBHSiMCPMUsBase BHS_MC_CH_PMON_BASE_ADDR 12 numM2M socket);
     ([GNR_D], initBHSiMCPMUsBase (if se_stepping env =? 0 then GNR_D_A_MC_CH_PMON_BASE_ADDR else GNR_D_B_MC_CH_PMON_BASE_ADDR) 8 numM2M socket)]
    (mret ([], [])).

Definition init_knl_edcs (u : unit_buses) (l : locations) : M (list UncorePMU) :=
  if m =? KNL then hs ← create_devices (groupnr u) (iMCbus u) (EDCRegisterLocation l); mret (map (pci_pmu KNX_EDC_layout) hs)
  else mret [].

(** Two channels of high-bandwidth memory for each of its M2M units. *)
Definition init_hbm_edcs (numHBM socket : nat) : MS (list UncorePMU) :=
  if (numHBM =? 0)%nat then mret []
  else with_ubox socket [] (fun h =>
    bar ← getServerSCFBar h;
    mret (concat (map (fun box => map (fun channel =>
      createIMCPMU (u64 (bar + SERVER_HBM_CH_PMON_BASE_ADDR + Z.of_nat box * SERVER_HBM_BOX_PMON_STEP + Z.of_nat channel * SERVER_HBM_CH_PMON_STEP)))
      (seq 0 2)) (seq 0 numHBM)))).

Definition init_m3upis (u : unit_buses) (l : locations) : M (list UncorePMU) :=
  hs ← (if 0 <=? UPIbus u then create_devices (groupnr u) (UPIbus u) (M3UPIRegisterLocation l) else mret []);
  mret (map (pci_pmu (m3upi_layout m)) hs).

Definition init_has (u : unit_buses) (l : locations) : M (list UncorePMU) :=
  hs ← create_devices (groupnr u) (iMCbus u) (HARegisterLocation l); mret (map (pci_pmu XPF_HA_layout) hs).

(** The links: none on a single socket; on Emerald Rapids those of the discovery table,
    when it has any. *)
Definition init_xpis (socket : nat) (u : unit_buses) (l : locations) : M (list UncorePMU) :=
  if (se_sockets env =? 1)%nat then mret []
  else
    let found :=
      if (se_sockets env <=? 4)%nat && negb (se_no_upill_discovery env) && (m =? EMR)
      then match se_discovery env with Some d => getPCICFGPMUsFromDiscovery d socket (se_open env 0) SPR_UPILL_BOX_TYPE | None => [] end
      else [] in
    match found with
    | _ :: _ => mret found
    | [] => hs ← create_devices (groupnr u) (UPIbus u) (XPIRegisterLocation l); mret (map (pci_pmu (xpi_layout m)) hs)
    end.

(** The rest of [initDirect], when there are memory channels. *)
Definition init_other_units (socket : nat) (l : locations) (u : unit_buses) (imcs m2m hbm : list UncorePMU) (channels : list Z) : MS ServerUncorePMUs :=
  knl ← lift_hw (init_knl_edcs u l);
  edcs ← init_hbm_edcs (length hbm) socket;
  m3upi ← lift_hw (init_m3upis u l);
  ha ← lift_hw (init_has u l);
  xpi ← lift_hw (init_xpis socket u l);
  mret (MkServer m imcs (knl ++ edcs) xpi m3upi m2m ha hbm channels).

Definition initDirect (socket : nat) (l : locations) (u : unit_buses) : MS ServerUncorePMUs :=
  pci ← lift_hw (pci_imcs u (MCRegisterLocation l));
  m2m ← lift_hw (populateM2MPMUs u (M2MRegisterLocation l));
  hbm ← lift_hw (populateM2MPMUs u (HBM_M2MRegisterLocation l));
  mmio ← init_mmio_imcs (length m2m) socket;
  bhs ← init_bhs_imcs (length m2m) socket;
  match pci.1 ++ mmio.1 ++ bhs.1 with
  | [] => ms_throw StdException
  | imcs => init_other_units socket l u imcs m2m hbm (pci.2 ++ mmio.2 ++ bhs.2)
  end.

(** The constructor *)
Definition new_server (socket : nat) : MS ServerUncorePMUs :=
  match initRegisterLocations m (se_isCPX env) with
  | Throw e => ms_throw e
  | Ok l => u ← initBuses socket l; initDirect socket l u
  end.

(** * [initUncoreObjects] *)

Fixpoint new_servers (l : list nat) : MS (list ServerUncorePMUs) :=
  match l with
  | [] => mret []
  | socket :: l => s ← new_server socket; rest ← new_servers l; mret (s :: rest)
  end.

(** An exception leaves no units. *)
Definition init_servers : MS (list ServerUncorePMUs) := fun s =>
  match new_servers (seq 0 (se_sockets env)) s with
  | (s', Throw _) => (s', Ok [])
  | r => r
  end.

(** The free-running counters of Ice Lake and Snow Ridge. *)
Fixpoint init_serverBW (servers : list ServerUncorePMUs) (buses : list (Z * Z)) (n : nat) : M (list (list Z)) :=
  match n, servers, buses with
  | Datatypes.S n, s :: servers, gb :: buses =>
      h ← ubox_handle gb;
      bw ← ServerBW (Z.of_nat (length (num_imc_channels s))) h;
      rest ← init_serverBW servers buses n;
      mret (bw :: rest)
  | _, _, _ => mret []
  end.

(** The server part of [initUncoreObjects]; without MSR handles nothing is created. *)
Definition init_server_uncore : MS (list ServerUncorePMUs * list (list Z)) :=
  if hasPCICFGUncore m then
    servers ← init_servers;
    (if is_one_of m [ICX; SNOWRIDGE; SPR; EMR; GNR; GNR_D; GRR; SRF] then initSocket2Ubox0Bus ;; mret tt else mret tt) ;;
    b ← get_buses;
    bw ← (if is_one_of m [ICX; SNOWRIDGE] then lift_hw (init_serverBW servers (socket2UBOX0bus b) (se_sockets env)) else mret []);
    mret (servers, bw)
  else mret ([], []).

End Code.

(** * How computations end

    [ends P E m]: from every state [m] gives a result with the property [P] or throws one of
    the exceptions of [E]. *)

Definition ends {S A} (P : A -> Prop) (E : exn -> Prop) (m : S -> S * res A) : Prop :=
  forall s, match (m s).2 with Ok a => P a | Throw e => E e end.

Section Ends.
Context {machine : Machine} (E : exn -> Prop).

Lemma ends_ret {A} (P : A -> Prop) a : P a -> ends P E (mret a : M A).
Proof. by intros ? s. Qed.

Lemma ends_ret' {A} (P : A -> Prop) a : P a -> ends P E (mret a : MS A).
Proof. by intros ? s. Qed.

Lemma ends_throw {A} (P : A -> Prop) e : E e -> ends P E (throw e).
Proof. by intros ? s. Qed.

Lemma ends_throw' {A} (P : A -> Prop) e : E e -> ends P E (ms_throw e).
Proof. by intros ? s. Qed.

Lemma ends_bind {A B} (P : A -> Prop) (Q : B -> Prop) (m : M A) (f : A -> M B) :
  ends P E m -> (forall a, P a -> ends Q E (f a)) -> ends Q E (m ≫= f).
Proof.
  intros Hm Hf s. specialize (Hm s). unfold mbind, M_bind. destruct (m s) as [s' [a|e]]; [by apply Hf|done].
Qed.

Lemma ends_bind' {A B} (P : A -> Prop) (Q : B -> Prop) (m : MS A) (f : A -> MS B) :
  ends P E m -> (forall a, P a -> ends Q E (f a)) -> ends Q E (m ≫= f).
Proof.
  intros Hm Hf s. specialize (Hm s). unfold mbind, MS_bind. destruct (m s) as [s' [a|e]]; [by apply Hf|done].
Qed.

Lemma ends_weaken {S A} (P Q : A -> Prop) (m : S -> S * res A) : ends P E m -> (forall a, P a -> Q a) -> ends Q E m.
Proof. intros Hm HPQ s. specialize (Hm s). destruct (m s).2; auto. Qed.

Lemma ends_lift {A} (P : A -> Prop) (m : M A) : ends P E m -> ends P E (lift_hw m).
Proof. intros Hm s. apply Hm. Qed.

Lemma ends_read (P : option Z -> Prop) p : (forall v, P v) -> ends P E (access_read p).
Proof. intros HP s. apply HP. Qed.

Lemma ends_get_buses (P : socket_buses -> Prop) : (forall b, P b) -> ends P E get_buses.
Proof. intros HP s. apply HP. Qed.

Lemma ends_put_buses (P : unit -> Prop) b : P tt -> ends P E (put_buses b).
Proof. by intros ? s. Qed.

Lemma ends_mapM_ {A B} (P : B -> Prop) (f : A -> M B) l :
  (forall a, ends P E (f a)) -> ends (fun bs => Forall P bs /\ length bs = length l) E (mapM_ l f).
Proof.
  intros Hf. induction l as [|a l IH]; simpl; [by apply ends_ret|].
  eapply ends_bind; [apply Hf|]. intros b Hb. eapply ends_bind; [apply IH|].
  intros bs [Hbs Hl]. apply ends_ret. split; [by constructor|simpl; by rewrite Hl].
Qed.

End Ends.

(** Takes a computation apart: the intermediate results have no particular property. *)
Ltac ends_step :=
  match goal with
  | |- ends _ _ (@mret M _ _ _) => apply ends_ret
  | |- ends _ _ (@mret MS _ _ _) => apply ends_ret'
  | |- ends _ _ (throw _) => apply ends_throw
  | |- ends _ _ (ms_throw _) => apply ends_throw'
  | |- ends _ _ (lift_hw _) => apply ends_lift
  | |- ends _ _ (access_read _) => apply (ends_read _ (fun _ => True)); done
  | |- ends _ _ get_buses => apply (ends_get_buses _ (fun _ => True)); done
  | |- ends _ _ (put_buses _) => apply (ends_put_buses _ (fun _ => True)); done
  end.

(** * What creation promises *)

(** The exceptions of a creation that fails. *)
Definition creation_error (e : exn) : Prop := e = StdException \/ e = RuntimeError.

(** Memory units that can be programmed, and the channels of their controllers: they cover
    the units, and exceed them by at most [slack]. *)
Definition good_imcs (slack : Z) (r : list UncorePMU * list Z) : Prop :=
  forallb imc_equipped r.1 = true /\ Forall (fun n => 0 <= n) r.2 /\
  Z.of_nat (length r.1) <= sumZ r.2 <= Z.of_nat (length r.1) + slack.

Definition good_units (l : list UncorePMU) : Prop := forallb unit_equipped l = true.

Definition good_server (m : Z) (s : ServerUncorePMUs) : Prop :=
  cpu_family_model s = m /\ server_equipped s = true /\ imcPMUs s <> [] /\ good_imcs 1 (imcPMUs s, num_imc_channels s).

Lemma good_imcs_nil : good_imcs 0 ([], []).
Proof. done. Qed.

Lemma good_imcs_app k1 k2 us ns us' ns' :
  good_imcs k1 (us, ns) -> good_imcs k2 (us', ns') -> good_imcs (k1 + k2) (us ++ us', ns ++ ns').
Proof.
  intros (Ha & Ha' & ?) (Hb & Hb' & ?). unfold good_imcs in *. cbn [fst snd] in *.
  rewrite forallb_app, length_app, sumZ_app, Ha, Hb. split_and!; [done|by apply Forall_app|lia..].
Qed.

Lemma good_imcs_weaken k1 k2 r : k1 <= k2 -> good_imcs k1 r -> good_imcs k2 r.
Proof. intros ? (? & ? & ?). split_and!; [done|done|lia..]. Qed.

Lemma plain_pci_register wide h o : plain (pci_register wide h o) = true.
Proof. by destruct wide. Qed.

Lemma pci_pmu_equipped l h : unit_equipped (pci_pmu l h) = true.
Proof.
  unfold unit_equipped. cbn [pci_pmu unitControl counterControl plain_ptr]. rewrite plain_pci_register. simpl.
  apply forallb_forall. intros ? ([o|] & <- & _)%in_map_iff; [apply plain_pci_register|done].
Qed.

Lemma pci_imc_equipped l h : fixed_ctl l <> None -> imc_equipped (pci_pmu l h) = true.
Proof. intros Hf. unfold imc_equipped. rewrite pci_pmu_equipped. cbn. by destruct (fixed_ctl l). Qed.

Lemma forallb_map {A B} (f : A -> B) (p : B -> bool) l : (forall a, p (f a) = true) -> forallb p (map f l) = true.
Proof. intros H. apply forallb_forall. intros ? (a & <- & _)%in_map_iff. apply H. Qed.

Lemma good_pci_units l hs : good_units (map (pci_pmu l) hs).
Proof. apply forallb_map, pci_pmu_equipped. Qed.

Lemma good_units_app a b : good_units a -> good_units b -> good_units (a ++ b).
Proof. unfold good_units. intros Ha Hb. by rewrite forallb_app, Ha, Hb. Qed.

Lemma createIMCPMU_equipped addr : imc_equipped (createIMCPMU addr) = true.
Proof. done. Qed.

Lemma discovered_imcs_equipped d socket : forallb imc_equipped (discovered_imcs d socket) = true.
Proof.
  apply forallb_forall. intros u (dp & _ & Hu)%list_elem_of_In%list_elem_of_omap.
  destruct (_ =? _); [|done]. cbv zeta in Hu. cbn [imc_register Z.eqb Pos.eqb] in Hu. injection Hu as <-.
  unfold imc_equipped, unit_equipped. cbn. rewrite andb_true_r. apply forallb_forall. by intros ? (r & <- & _)%in_map_iff.
Qed.

Lemma discovered_pci_units d socket open_pci bt : good_units (getPCICFGPMUsFromDiscovery d socket open_pci bt).
Proof.
  assert (forall a, match make_pci_register open_pci a with Some r => plain r | None => true end = true) as Hp.
  { intros a. unfold make_pci_register. by destruct (_ =? _); [|destruct (open_pci _ _ _)]. }
  apply forallb_forall. intros u (dp & _ & Hu)%list_elem_of_In%list_elem_of_omap.
  destruct (_ =? _); [|done]. destruct (make_pci_register _ _) as [c|] eqn:E; [|done]. simplify_eq.
  unfold unit_equipped. cbn. pose proof (Hp (getBoxCtlAddr d bt socket dp.1 dp.2)) as Hc. rewrite E in Hc. rewrite Hc.
  apply forallb_forall. intros ? (r & <- & _)%in_map_iff. apply Hp.
Qed.

Lemma sumZ_replicate n k : sumZ (replicate n k) = Z.of_nat n * k.
Proof. unfold sumZ. induction n; simpl; lia. Qed.

(** Two channels for each controller: the last one may have one channel too many. *)
Lemma good_discovered l : forallb imc_equipped l = true -> good_imcs 1 (l, discovered_channels l).
Proof.
  intros Hl. unfold good_imcs, discovered_channels. cbn [fst snd]. rewrite sumZ_replicate.
  pose proof (Nat.div_mod_eq (length l + 1) 2). pose proof (Nat.mod_upper_bound (length l + 1) 2).
  split_and!; [done|by apply Forall_replicate|lia..].
Qed.

Lemma forallb_concat {A B} (f : A -> list B) (p : B -> bool) l : (forall a, forallb p (f a) = true) -> forallb p (concat (map f l)) = true.
Proof. intros H. induction l; simpl; [done|]. by rewrite forallb_app, H. Qed.

Section Created.
Context {machine : Machine} (env : server_env).

Abbreviation ok P := (ends P creation_error).

Lemma create_devices_ends g bus l : ok (fun _ => True) (create_devices env g bus l).
Proof.
  unfold create_devices. eapply ends_bind; [|intros; by ends_step].
  apply (ends_mapM_ _ (fun _ => True)). intros [dev func]. unfold createIntelPerfMonDevice.
  destruct (se_open env _ _ _ _); [|by ends_step].
  eapply ends_bind; [by ends_step|]. intros v _. by ends_step.
Qed.

Lemma imc_layout_fixed m : fixed_ctl (imc_layout m) <> None.
Proof. unfold imc_layout. by destruct (m =? KNL). Qed.

Lemma pci_imcs_ends u ctrls : ok (good_imcs 0) (pci_imcs env u ctrls).
Proof.
  induction ctrls as [|ctrl ctrls IH]; simpl; [by ends_step|].
  eapply ends_bind; [apply create_devices_ends|]. intros hs _.
  eapply ends_bind; [apply IH|]. intros rest Hrest. ends_step.
  destruct rest as [us ns].
  apply (good_imcs_app 0 0 (map (pci_pmu (imc_layout (se_model env))) hs) (if (0 <? length hs)%nat then [Z.of_nat (length hs)] else [])) in Hrest.
  - by destruct (0 <? length hs)%nat.
  - split_and!; cbn [fst snd]; rewrite ?length_map.
    + apply forallb_map. intros h. apply pci_imc_equipped, imc_layout_fixed.
    + destruct (0 <? length hs)%nat; repeat constructor. lia.
    + destruct (Nat.ltb_spec 0 (length hs)); simpl; lia.
    + destruct (Nat.ltb_spec 0 (length hs)); simpl; lia.
Qed.

Lemma populate_ends u l : ok good_units (populateM2MPMUs env u l).
Proof.
  unfold populateM2MPMUs. eapply (ends_bind _ (fun _ => True)); [|intros hs _; ends_step; apply good_pci_units].
  destruct (0 <=? M2Mbus u); [apply create_devices_ends|by ends_step].
Qed.

Lemma bars_end base n h : ok (fun l => length l = Z.to_nat n) (getServerBars base n h).
Proof.
  unfold getServerBars. eapply ends_bind; [by ends_step|]. intros b _.
  eapply ends_weaken; [apply (ends_mapM_ _ (fun _ => True))|].
  - intros i. eapply ends_bind; [by ends_step|]. intros o _.
    destruct (_ =? 0); [ends_step; by left|by ends_step].
  - intros l [_ Hl]. by rewrite Hl, length_seqZ.
Qed.

Lemma bar_ends h : ok (fun _ => True) (getServerSCFBar h).
Proof. unfold getServerSCFBar. eapply ends_bind; [apply bars_end|]. intros. by ends_step. Qed.

Lemma scan_ends {S} (f : Z -> Z -> Z -> Z -> Z -> S -> M S) v d fn s :
  (forall g b dev fn id s, ok (fun _ => True) (f g b dev fn id s)) -> ok (fun _ => True) (forAllDevices env f v d fn s).
Proof.
  intros Hf. assert (forall X (l : list X) (body : X -> S -> M S) s, (forall x s, ok (fun _ => True) (body x s)) -> ok (fun _ => True) (for_each l body s)) as Hfor.
  { clear. intros X l. induction l as [|x l IH]; intros body s Hb; simpl; [by ends_step|].
    eapply ends_bind; [apply Hb|]. intros s' _. by apply IH. }
  unfold forAllDevices. apply Hfor. clear s. intros r s. apply Hfor. clear s. intros b s. apply Hfor. clear s.
  intros dev s. apply Hfor. clear s. intros fn' s. unfold probe. destruct (se_open _ _ _ _ _); [|by ends_step].
  eapply ends_bind; [by ends_step|]. intros w _. destruct (_ && _); [by ends_step|apply Hf].
Qed.

Lemma initSocket2Bus_ends l d fn ids : ok (fun _ => True) (initSocket2Bus env l d fn ids).
Proof.
  unfold initSocket2Bus. destruct (_ || _); [by ends_step|]. destruct l; [|by ends_step].
  apply scan_ends. intros. by ends_step.
Qed.

(** Every vector of buses is filled in the same way. *)
Lemma scan_then_put ids d fn (l : socket_buses -> list (Z * Z)) (put : socket_buses -> list (Z * Z) -> socket_buses) :
  ok (fun _ => True) (b ← get_buses; s2b ← lift_hw (initSocket2Bus env (l b) d fn ids); put_buses (put b s2b) ;; mret s2b : MS _).
Proof.
  eapply ends_bind'; [by ends_step|]. intros b _. eapply ends_bind'; [ends_step; apply initSocket2Bus_ends|].
  intros s2b _. eapply ends_bind'; [by ends_step|]. intros _ _. by ends_step.
Qed.

Lemma open_or_throw_ends g b d f : ok (fun _ => True) (open_or_throw env g b d f).
Proof. unfold open_or_throw. destruct (se_open env _ _ _ _); [by ends_step|ends_step; by right]. Qed.

Lemma with_ubox_ends {A} (P : A -> Prop) socket absent k :
  P absent -> (forall h, ok P (k h)) -> ok P (with_ubox env socket absent k).
Proof.
  intros Ha Hk. unfold with_ubox. eapply ends_bind'.
  { apply (scan_then_put _ _ _ socket2UBOX0bus (fun b l => SocketBuses (socket2iMCbus b) (socket2UPIbus b) (socket2M2Mbus b) l)). }
  intros s2b _. destruct (s2b !! socket); [|by ends_step]. ends_step.
  eapply ends_bind; [apply open_or_throw_ends|]. intros h _. apply Hk.
Qed.

Lemma good_channels addrs (f : Z -> nat -> Z) k :
  good_imcs 0 (concat (map (fun a => map (fun c => createIMCPMU (f a c)) (seq 0 k)) addrs), map (fun _ => Z.of_nat k) addrs).
Proof.
  induction addrs as [|a addrs IH]; [done|]. simpl map. simpl concat.
  apply (good_imcs_app 0 0 _ [Z.of_nat k]); [|apply IH].
  unfold good_imcs. cbn [fst snd]. rewrite length_map, length_seq. split_and!; [|repeat constructor; lia|simpl; lia..].
  by apply forallb_map.
Qed.

Lemma mmio_imcs_end numM2M socket : ok (good_imcs 1) (init_mmio_imcs env numM2M socket).
Proof.
  assert (forall r, good_imcs 0 r -> good_imcs 1 r) as H01 by (intros r; by apply good_imcs_weaken).
  unfold init_mmio_imcs. destruct (0 <? numChannels env)%nat.
  - unfold ubox_imcs. apply with_ubox_ends; [by apply H01|]. intros h.
    eapply ends_bind; [apply bars_end|]. intros bars _. ends_step. apply H01.
    apply (good_channels _ (fun memBar channel => u64 (memBar + SERVER_MC_CH_PMON_BASE_ADDR + Z.of_nat channel * SERVER_MC_CH_PMON_STEP))).
  - destruct (is_one_of _ _); [|ends_step; by apply H01]. ends_step.
    destruct (se_discovery env) as [d|]; [|by apply H01].
    assert (forallb imc_equipped (discovered_imcs d socket) = true) as He by apply discovered_imcs_equipped.
    destruct (discovered_imcs d socket) as [|u us]; [by apply H01|]. by apply good_discovered.
Qed.

Lemma bhs_base_ends base k numM2M socket : ok (good_imcs 0) (initBHSiMCPMUsBase env base k numM2M socket).
Proof.
  unfold initBHSiMCPMUsBase. apply with_ubox_ends; [done|]. intros h.
  eapply ends_bind; [apply bar_ends|]. intros bar _. ends_step. set (n := Nat.min k numM2M).
  unfold good_imcs. cbn [fst snd]. rewrite length_map, length_seq, sumZ_replicate. split_and!; [by apply forallb_map| |lia..].
  by apply Forall_replicate.
Qed.

Lemma bhs_imcs_end numM2M socket : ok (good_imcs 0) (init_bhs_imcs env numM2M socket).
Proof.
  unfold init_bhs_imcs. apply (switch_ind (fun x => ok (good_imcs 0) x)); [|by ends_step].
  repeat constructor; apply bhs_base_ends.
Qed.

Lemma pci_units_end layout u l : ok good_units (hs ← create_devices env (groupnr u) (UPIbus u) l; mret (map (pci_pmu layout) hs) : M _).
Proof. eapply ends_bind; [apply create_devices_ends|]. intros hs _. ends_step. apply good_pci_units. Qed.

Lemma knl_edcs_end u l : ok (fun us => forallb imc_equipped us = true) (init_knl_edcs env u l).
Proof.
  unfold init_knl_edcs. destruct (_ =? _); [|by ends_step].
  eapply ends_bind; [apply create_devices_ends|]. intros hs _. ends_step.
  apply forallb_map. intros h. by apply pci_imc_equipped.
Qed.

Lemma hbm_edcs_end n socket : ok (fun us => forallb imc_equipped us = true) (init_hbm_edcs env n socket).
Proof.
  unfold init_hbm_edcs. destruct (n =? 0)%nat; [by ends_step|]. apply with_ubox_ends; [done|]. intros h.
  eapply ends_bind; [apply bar_ends|]. intros bar _. ends_step. apply forallb_concat. intros box. by apply forallb_map.
Qed.

Lemma m3upis_end u l : ok good_units (init_m3upis env u l).
Proof.
  unfold init_m3upis. eapply (ends_bind _ (fun _ => True)); [|intros hs _; ends_step; apply good_pci_units].
  destruct (0 <=? UPIbus u); [apply create_devices_ends|by ends_step].
Qed.

Lemma has_end u l : ok good_units (init_has env u l).
Proof. unfold init_has. eapply ends_bind; [apply create_devices_ends|]. intros hs _. ends_step. apply good_pci_units. Qed.

Lemma xpis_end socket u l : ok good_units (init_xpis env socket u l).
Proof.
  unfold init_xpis. destruct (_ =? _)%nat; [by ends_step|].
  match goal with |- context [match ?f with [] => _ | _ :: _ => _ end] => set (found := f) end.
  assert (good_units found) as Hf.
  { unfold found. destruct (_ && _); [|done]. destruct (se_discovery env); [apply discovered_pci_units|done]. }
  clearbody found. destruct found; [|by ends_step]. apply pci_units_end.
Qed.

Lemma other_units_end socket l u imcs m2m hbm channels :
  imcs <> [] -> good_imcs 1 (imcs, channels) -> good_units m2m ->
  ok (good_server (se_model env)) (init_other_units env socket l u imcs m2m hbm channels).
Proof.
  intros Hne Himc Hm2m. unfold init_other_units.
  eapply ends_bind'; [ends_step; apply knl_edcs_end|]. intros knl Hknl.
  eapply ends_bind'; [apply hbm_edcs_end|]. intros edcs Hedcs.
  eapply ends_bind'; [ends_step; apply m3upis_end|]. intros m3upi _.
  eapply ends_bind'; [ends_step; apply has_end|]. intros ha Hha.
  eapply ends_bind'; [ends_step; apply xpis_end|]. intros xpi Hxpi. ends_step.
  split_and!; [done| |done|done]. unfold server_equipped. cbn [imcPMUs edcPMUs xpiPMUs m2mPMUs haPMUs].
  destruct Himc as [Hi _]. cbn [fst] in Hi. unfold good_units in *. by rewrite forallb_app, Hi, Hknl, Hedcs, Hxpi, Hm2m, Hha.
Qed.

Lemma initDirect_ends socket l u : ok (good_server (se_model env)) (initDirect env socket l u).
Proof.
  unfold initDirect.
  eapply ends_bind'; [ends_step; apply pci_imcs_ends|]. intros [pi pc] Hpci.
  eapply ends_bind'; [ends_step; apply populate_ends|]. intros m2m Hm2m.
  eapply ends_bind'; [ends_step; apply populate_ends|]. intros hbm _.
  eapply ends_bind'; [apply mmio_imcs_end|]. intros [mi mc] Hmmio.
  eapply ends_bind'; [apply bhs_imcs_end|]. intros [bi bc] Hbhs. cbn [fst snd].
  pose proof (good_imcs_app 0 1 _ _ _ _ Hpci (good_imcs_app 1 0 _ _ _ _ Hmmio Hbhs)) as Hgood.
  destruct (pi ++ mi ++ bi) as [|i imcs] eqn:E; [ends_step; by left|]. by apply other_units_end.
Qed.

Lemma at_socket_ends (l : list (Z * Z)) socket : (socket < length l)%nat -> ok (fun _ => True) (at_socket l socket).
Proof. intros H. unfold at_socket. destruct (lookup_lt_is_Some_2 l socket H) as [gb ->]. by ends_step. Qed.

Lemma bus_from_ends k bus : ok (fun _ => True) (bus_from env k bus).
Proof.
  revert bus. induction k as [|k IH]; intros bus; simpl;
    (eapply ends_bind; [apply open_or_throw_ends|]; intros h _; eapply ends_bind; [by ends_step|]; intros r _); [by ends_step|].
  destruct (_ <? _); [by ends_step|apply IH].
Qed.

Context (socket : nat) (Hsocket : (socket < se_sockets env)%nat).

Lemma imc_bus_ends l u : ok (fun _ => True) (init_imc_bus env socket l u).
Proof.
  unfold init_imc_bus. destruct (MCRegisterLocation l) as [|[|first ?] ?]; [by ends_step..|].
  eapply ends_bind'; [apply (scan_then_put _ _ _ socket2iMCbus (fun b l => SocketBuses l (socket2UPIbus b) (socket2M2Mbus b) (socket2UBOX0bus b)))|].
  intros s2b _. destruct (Nat.eqb_spec (se_sockets env) (length s2b)) as [E|_].
  - eapply ends_bind'; [apply at_socket_ends; lia|]. intros gb _.
    eapply ends_bind'; [by ends_step|]. intros b _. eapply (ends_bind' _ (fun _ => True)); [|intros u' _; by ends_step].
    destruct (Nat.eqb_spec (se_sockets env) (length (socket2M2Mbus b))); [|by ends_step].
    eapply ends_bind'; [apply at_socket_ends; lia|]. intros gb' _. by ends_step.
  - destruct (_ <=? 4)%nat; [|ends_step; by left].
    eapply ends_bind'; [ends_step; apply bus_from_ends|]. intros bus _. destruct (_ <? _); [ends_step; by left|by ends_step].
Qed.

Lemma upi_bus_ends l u : ok (fun _ => True) (init_upi_bus env socket l u).
Proof.
  unfold init_upi_bus. destruct (hasUPI _); [|by ends_step]. destruct (XPIRegisterLocation l) as [|first ?]; [by ends_step|].
  eapply ends_bind'; [apply (scan_then_put _ _ _ socket2UPIbus (fun b l => SocketBuses (socket2iMCbus b) l (socket2M2Mbus b) (socket2UBOX0bus b)))|].
  intros s2b _. destruct (Nat.eqb_spec (se_sockets env) (length s2b)) as [E|_]; [|by ends_step].
  eapply ends_bind'; [apply at_socket_ends; lia|]. intros gb _. by ends_step.
Qed.

Lemma initBuses_ends l : ok (fun _ => True) (initBuses env socket l).
Proof.
  unfold initBuses. eapply (ends_bind' _ (fun _ => True)).
  { unfold init_m2m_bus. destruct (M2MRegisterLocation l) as [|first ?]; [by ends_step|].
    eapply ends_bind'; [apply (scan_then_put _ _ _ socket2M2Mbus (fun b l => SocketBuses (socket2iMCbus b) (socket2UPIbus b) l (socket2UBOX0bus b)))|].
    intros s2b _. by ends_step. }
  intros u _. eapply ends_bind'; [apply imc_bus_ends|]. intros u' _. destruct (_ =? 1)%nat; [by ends_step|apply upi_bus_ends].
Qed.

Lemma new_server_ends : ok (good_server (se_model env)) (new_server env socket).
Proof.
  unfold new_server. destruct (initRegisterLocations _ _) as [l|e] eqn:E.
  - eapply ends_bind'; [apply initBuses_ends|]. intros u _. apply initDirect_ends.
  - ends_step. left. revert E. unfold initRegisterLocations.
    apply (switch_ind (fun x => x = Throw e -> e = StdException)); [|by intros [=]]. by repeat constructor.
Qed.

End Created.

Section All.
Context {machine : Machine} (env : server_env).

Lemma new_servers_ends l : (forall socket, socket ∈ l -> (socket < se_sockets env)%nat) ->
  ends (fun ss => Forall (good_server (se_model env)) ss /\ length ss = length l) creation_error (new_servers env l).
Proof.
  induction l as [|socket l IH]; intros Hl; simpl; [by ends_step|].
  eapply ends_bind'; [apply new_server_ends, Hl; left|]. intros s Hs.
  eapply ends_bind'; [apply IH; intros; apply Hl; by right|]. intros ss [Hss Hlen]. ends_step.
  split; [by constructor|simpl; by rewrite Hlen].
Qed.

Lemma init_servers_ends :
  ends (fun ss => Forall (good_server (se_model env)) ss /\ (ss = [] \/ length ss = se_sockets env)) (fun _ => False) (init_servers env).
Proof.
  intros s. pose proof (new_servers_ends (seq 0 (se_sockets env))) as H. specialize (H ltac:(intros k Hk%elem_of_seq; lia) s).
  unfold init_servers. destruct (new_servers _ _ s) as [s' [ss|e]]; simpl in *; [|by split; [|left]].
  rewrite length_seq in H. destruct H. split; [done|by right].
Qed.

Lemma serverBW_ends ss buses n : ends (fun _ => True) creation_error (init_serverBW env ss buses n).
Proof.
  revert ss buses. induction n as [|n IH]; intros [|s ss] [|gb buses]; simpl; try by ends_step.
  eapply ends_bind; [apply open_or_throw_ends|]. intros h _.
  eapply ends_bind; [apply bars_end|]. intros bw _. eapply ends_bind; [apply IH|]. intros rest _. by ends_step.
Qed.

Lemma init_server_uncore_ends :
  ends (fun r => Forall (good_server (se_model env)) r.1 /\ (r.1 = [] \/ length r.1 = se_sockets env)) creation_error (init_server_uncore env).
Proof.
  unfold init_server_uncore. destruct (hasPCICFGUncore _); [|by ends_step; split; [|left]].
  eapply ends_bind'.
  { intros s. pose proof (init_servers_ends s) as H. revert H. instantiate (1 := fun ss => Forall (good_server (se_model env)) ss /\ (ss = [] \/ length ss = se_sockets env)).
    destruct ((init_servers env s).2); [done|by intros []]. }
  intros ss Hss. eapply (ends_bind' _ (fun _ => True)).
  { destruct (is_one_of _ _); [|by ends_step]. eapply ends_bind'; [|intros; by ends_step].
    apply (scan_then_put _ _ _ _ socket2UBOX0bus (fun b l => SocketBuses (socket2iMCbus b) (socket2UPIbus b) (socket2M2Mbus b) l)). }
  intros _ _. eapply ends_bind'; [by ends_step|]. intros b _. eapply (ends_bind' _ (fun _ => True)); [|intros bw _; by ends_step].
  destruct (is_one_of _ _); [ends_step; apply serverBW_ends|by ends_step].
Qed.

End All.

(** * The search for buses *)

Section Search.
Context (cfg : port -> option Z) (env : server_env).

(** Whether the device that is searched for is on a bus, according to its configuration
    space. *)
Definition bus_has (DEV_IDS : list Z) (device function group bus : Z) : bool :=
  match se_open env group bus device function with
  | None => false
  | Some h =>
      let value := default 0 (cfg (PciPort32 h 0)) in
      (Z.land value 0xffff =? PCM_INTEL_PCI_VENDOR_ID) && existsb (Z.eqb (Z.land (Z.shiftr value 16) 0xffff)) DEV_IDS
  end.

(** The buses of the MCFG table that have the device, in the order of the table. *)
Definition buses_with (DEV_IDS : list Z) (device function : Z) : list (Z * Z) :=
  concat (map (fun r =>
    map (pair (PCISegmentGroupNumber r))
      (List.filter (bus_has DEV_IDS device function (PCISegmentGroupNumber r))
        (seqZ (startBusNumber r) (endBusNumber r - startBusNumber r + 1)))) (se_mcfg env)).

Lemma for_each_yields {S X} (g : X -> list S) (body : X -> list S -> M (list S)) l acc :
  (forall x acc, yields (body x acc) (acc ++ g x)) -> yields (for_each l body acc) (acc ++ concat (map g l)).
Proof.
  intros Hb. revert acc. induction l as [|x l IH]; intros acc; simpl; [by rewrite app_nil_r|].
  eapply yields_bind; [apply Hb|]. rewrite app_assoc. apply IH.
Qed.

Lemma probe_yields ids g b d fn acc :
  yields (@probe (static_machine cfg) env _ (fun group bus _ _ device_id l =>
            mret (if existsb (Z.eqb device_id) ids then l ++ [(group, bus)] else l)) PCM_INTEL_PCI_VENDOR_ID g b d fn acc)
         (acc ++ if bus_has ids d fn g b then [(g, b)] else []).
Proof.
  unfold probe, bus_has. destruct (se_open env g b d fn) as [h|]; [|by rewrite app_nil_r].
  eapply yields_bind; [apply yields_read|]. cbv zeta. cbn [Z.leb PCM_INTEL_PCI_VENDOR_ID Z.compare andb].
  destruct (Z.land _ 0xffff =? _); simpl; [|by rewrite app_nil_r].
  destruct (existsb _ ids); [done|by rewrite app_nil_r].
Qed.

Lemma map_filter_singles {A B} (f : A -> B) (p : A -> bool) l :
  concat (map (fun a => if p a then [f a] else []) l) = map f (List.filter p l).
Proof. induction l as [|a l IH]; simpl; [done|]. destruct (p a); simpl; by rewrite IH. Qed.

(** A vector that is empty is filled with the buses that have the device. *)
Lemma scan_yields ids d fn : 0 <= d < PCM_INVALID_DEV_ADDR -> 0 <= fn < PCM_INVALID_FUNC_ADDR ->
  yields (@initSocket2Bus (static_machine cfg) env [] d fn ids) (buses_with ids d fn).
Proof.
  intros Hd Hf. unfold initSocket2Bus. destruct (Z.eqb_spec d PCM_INVALID_DEV_ADDR); [lia|].
  destruct (Z.eqb_spec fn PCM_INVALID_FUNC_ADDR); [lia|]. simpl.
  unfold forAllIntelDevices, forAllDevices, buses_with. rewrite (proj2 (Z.ltb_ge d 0)), (proj2 (Z.ltb_ge fn 0)) by lia.
  apply (for_each_yields (S := Z * Z) _ _ _ []). intros r acc. rewrite <- map_filter_singles.
  apply for_each_yields. intros b acc'. cbn [for_each].
  eapply yields_bind; [|apply yields_ret]. eapply yields_bind; [apply probe_yields|apply yields_ret].
Qed.

(** A vector is empty or holds what the search finds. *)
Definition cached {A} (v found : list A) : Prop := v = [] \/ v = found.

Lemma cached_scan ids d fn v h : 0 <= d < PCM_INVALID_DEV_ADDR -> 0 <= fn < PCM_INVALID_FUNC_ADDR ->
  cached v (buses_with ids d fn) ->
  exists h', @initSocket2Bus (static_machine cfg) env v d fn ids h = (h', Ok (buses_with ids d fn)).
Proof.
  intros Hd Hf Hv. pose proof (scan_yields ids d fn Hd Hf) as Hs. destruct Hv as [-> | ->].
  - specialize (Hs h). destruct (initSocket2Bus _ _ _ _ _ h) as [h' r]. simpl in Hs. subst r. by exists h'.
  - unfold initSocket2Bus in *. destruct (_ || _) eqn:E; [by exists h|].
    destruct (buses_with ids d fn) eqn:Eb; [|by exists h].
    specialize (Hs h). destruct (forAllIntelDevices _ _ _ _ _ h) as [h' r]. simpl in Hs. subst r. by exists h'.
Qed.

Lemma at_socket_run l k gb s : l !! k = Some gb -> at_socket l k s = (s, Ok gb).
Proof. unfold at_socket. by intros ->. Qed.

(** The buses of the units of Skylake servers. *)
Definition skx_iMC : list (Z * Z) := buses_with IMC_DEV_IDS 10 2.
Definition skx_UPI : list (Z * Z) := buses_with UPI_DEV_IDS 14 0.
Definition skx_M2M : list (Z * Z) := buses_with M2M_DEV_IDS 8 0.

Definition skx_caches (b : socket_buses) : Prop :=
  cached (socket2iMCbus b) skx_iMC /\ cached (socket2UPIbus b) skx_UPI /\ cached (socket2M2Mbus b) skx_M2M.

Lemma ms_bind_run {A B} (m : MS A) (f : A -> MS B) s s' a : m s = (s', Ok a) -> (m ≫= f) s = f a s'.
Proof. intros Hm. unfold mbind, MS_bind. by rewrite Hm. Qed.

Lemma scan_run v put ids d fn (b : socket_buses) h : 0 <= d < PCM_INVALID_DEV_ADDR -> 0 <= fn < PCM_INVALID_FUNC_ADDR ->
  cached (v b) (buses_with ids d fn) ->
  exists h', (b ← get_buses; s2b ← lift_hw (@initSocket2Bus (static_machine cfg) env (v b) d fn ids); put_buses (put b s2b) ;; mret s2b : MS _) (b, h)
    = ((put b (buses_with ids d fn), h'), Ok (buses_with ids d fn)).
Proof.
  intros Hd Hf Hv. destruct (cached_scan ids d fn (v b) h Hd Hf Hv) as [h' Hrun]. exists h'.
  unfold mbind, MS_bind, get_buses, lift_hw, put_buses. cbn [fst snd]. by rewrite Hrun.
Qed.

(** C34. On a Skylake server with several sockets, on each of which the searches find one memory
    controller, one UPI and one M2M device, all in one segment, [initBuses] gives a socket the
    buses at its position, in the order of the MCFG table, whichever sockets came before it. *)
Theorem socket_gets_its_buses l k b h g mc upi m2m :
  se_model env = SKX -> initRegisterLocations SKX (se_isCPX env) = Ok l -> (2 <= se_sockets env)%nat ->
  Forall (fun f => length f = se_sockets env) [skx_iMC; skx_UPI; skx_M2M] ->
  skx_iMC !! k = Some (g, mc) -> skx_UPI !! k = Some (g, upi) -> skx_M2M !! k = Some (g, m2m) ->
  Forall (fun bus => 0 <= bus < 256) [mc; upi; m2m] -> skx_caches b ->
  exists b' h', @initBuses (static_machine cfg) env k l (b, h) = ((b', h'), Ok (UnitBuses g mc upi m2m)) /\ skx_caches b'.
Proof.
  intros Hm Hl Hn [Hi [Hu [Hm2 _]%Forall_cons]%Forall_cons]%Forall_cons Hki Hku Hkm Hb (Ci & Cu & Cm).
  injection Hl as <-. repeat match goal with H : Forall _ (_ :: _) |- _ => apply Forall_cons in H as [? H] end.
  unfold initBuses. rewrite (proj2 (Nat.eqb_neq (se_sockets env) 1)) by lia.
  unfold init_m2m_bus, init_imc_bus, init_upi_bus. rewrite Hm.
  cbn [MCRegisterLocation M2MRegisterLocation XPIRegisterLocation SKX_M2M SKX_MC SKX_QPI app].
  change (hasUPI SKX) with true. cbv iota.
  destruct (scan_run socket2M2Mbus (fun b l => SocketBuses (socket2iMCbus b) (socket2UPIbus b) l (socket2UBOX0bus b))
    M2M_DEV_IDS 8 0 b h) as (h1 & R1); [done..|].
  set (b1 := SocketBuses _ _ _ _) in R1.
  destruct (scan_run socket2iMCbus (fun b l => SocketBuses l (socket2UPIbus b) (socket2M2Mbus b) (socket2UBOX0bus b))
    IMC_DEV_IDS 10 2 b1 h1) as (h2 & R2); [done..|].
  set (b2 := SocketBuses (buses_with IMC_DEV_IDS 10 2) _ _ _) in R2.
  destruct (scan_run socket2UPIbus (fun b l => SocketBuses (socket2iMCbus b) l (socket2M2Mbus b) (socket2UBOX0bus b))
    UPI_DEV_IDS 14 0 b2 h2) as (h3 & R3); [done..|].
  eexists _, _. split.
  - erewrite ms_bind_run; [|erewrite ms_bind_run; [|exact R1]; reflexivity].
    erewrite ms_bind_run; [|erewrite ms_bind_run; [|exact R2]]; cycle 1.
    { fold skx_iMC. rewrite Hi, Nat.eqb_refl.
      erewrite ms_bind_run; [|by apply at_socket_run].
      erewrite ms_bind_run; [|reflexivity]. cbn [fst]. change (socket2M2Mbus b2) with skx_M2M. rewrite Hm2, Nat.eqb_refl.
      erewrite ms_bind_run; [|erewrite ms_bind_run; [|by apply at_socket_run]; reflexivity]. reflexivity. }
    erewrite ms_bind_run; [|exact R3]. fold skx_UPI. rewrite Hu, Nat.eqb_refl.
    erewrite ms_bind_run; [|by apply at_socket_run]. fold skx_M2M. rewrite Hkm. cbn [fst snd groupnr iMCbus UPIbus M2Mbus].
    rewrite Z.eqb_refl. cbn [negb M2Mbus]. rewrite !swrapN_small by lia. reflexivity.
  - split_and!; by right.
Qed.

End Search.

(** * The units of the sockets *)

(** C13. Whatever devices exist and whatever their registers answer, the server part of
    [initUncoreObjects] throws nothing but the exceptions of missing devices and base addresses,
    and creates units for all sockets or for none; the units it creates are those of the processor, with at
    least one memory channel, and on every machine [ServerUncorePMUs::program] programs them
    without an exception. *)
Theorem created_units_programmable {machine : Machine} env s :
  match (init_server_uncore env s).2 with
  | Ok (servers, _) =>
      (servers = [] \/ length servers = se_sockets env) /\
      Forall (fun server =>
        cpu_family_model server = se_model env /\ imcPMUs server <> [] /\
        forall (machine' : Machine) pcm_pmm pcm_hbm h, exists h' server',
          @program_server machine' (se_model env) pcm_pmm pcm_hbm server h = (h', Ok server')) servers
  | Throw e => e = StdException \/ e = RuntimeError
  end.
Proof.
  pose proof (init_server_uncore_ends env s) as H. destruct (init_server_uncore env s).2 as [[servers bw]|e]; [|done].
  destruct H as [Hgood Hn]. split; [done|]. eapply Forall_impl; [done|].
  intros server (Hm & Heq & Hne & _). split_and!; [done|done|]. intros machine' pmm hbm h.
  destruct (@safe_program_server machine' (se_model env) pmm hbm server Heq h) as (h' & server' & ? & _). eauto.
Qed.

(** The controllers that the constructor counts share out the channels that it finds: for every
    socket created, while the counters hold still the reads reported per controller add up
    to the reads of the socket. *)
Theorem created_controllers_share_reads {machine : Machine} env s servers bw server val :
  (init_server_uncore env s).2 = Ok (servers, bw) -> server ∈ servers ->
  Z.of_nat (length (imcPMUs server)) < 2 ^ 32 - 1 ->
  (forall i, (i < length (imcPMUs server))%nat -> safe_with (eq (val i)) (channel_sum server READ READ2 i)) ->
  exists rs,
    safe_with (eq rs) (mapM_ (seq 0 (length (num_imc_channels server))) (getImcReadsForController server)) /\
    safe_with (eq (u64 (sumZ rs))) (getImcReads server).
Proof.
  intros Hrun Hin Hlt Hval. pose proof (init_server_uncore_ends env s) as H. rewrite Hrun in H. destruct H as [Hgood _].
  destruct (proj1 (Forall_forall _ _) Hgood server Hin) as (_ & _ & _ & _ & Hpos & Hsum). cbn [fst snd] in *.
  apply (imc_reads_partition server val); [done|done|lia].
Qed.

(** Grand Ridge has no M2M locations, so that the number of its channels, which is bounded by
    the number of the M2M units, is 0: its constructor throws on every machine. *)
Theorem grr_has_no_units {machine : Machine} env socket :
  se_model env = GRR -> (socket < se_sockets env)%nat -> ends (fun _ => False) creation_error (new_server env socket).
Proof.
  intros Hm Hs. unfold new_server. rewrite Hm.
  change (initRegisterLocations GRR (se_isCPX env)) with (Ok (Locations [] [] [] [] [] [] []) : res locations). cbv iota.
  eapply ends_bind'; [by apply initBuses_ends|]. intros u _. unfold initDirect.
  cbn [MCRegisterLocation M2MRegisterLocation HBM_M2MRegisterLocation pci_imcs].
  eapply ends_bind'; [ends_step; by apply (ends_ret _ (eq ([], [])))|]. intros pci <-.
  assert (ends (eq []) creation_error (lift_hw (populateM2MPMUs env u []))) as Hm2m.
  { ends_step. unfold populateM2MPMUs. eapply (ends_bind _ (eq [])); [destruct (0 <=? M2Mbus u); by apply (ends_ret _ (eq []))|].
    intros hs <-. by ends_step. }
  eapply ends_bind'; [apply Hm2m|]. intros m2m <-. eapply ends_bind'; [apply Hm2m|]. intros hbm _.
  eapply (ends_bind' _ (eq ([], []))).
  { unfold init_mmio_imcs, numChannels. rewrite Hm.
    change (is_one_of GRR [SNOWRIDGE; ICX]) with false. change (is_one_of GRR [SPR; EMR]) with false.
    rewrite andb_false_r. cbn [Nat.ltb Nat.leb]. by ends_step. }
  intros mmio <-. eapply (ends_bind' _ (eq ([], []))).
  { unfold init_bhs_imcs. rewrite Hm. cbn [switch]. apply with_ubox_ends; [done|]. intros h.
    eapply ends_bind; [apply bar_ends|]. intros bar _. by ends_step. }
  intros bhs <-. cbn [fst snd app]. ends_step. by left.
Qed.

(** * A server of two sockets *)

Definition example_handle (group bus device function : Z) : Z := ((group * 256 + bus) * 32 + device) * 8 + function.

Definition example_env : server_env :=
  ServerEnv SKX SKX 4 false 2 [Mcfg 0 0 255]
    (fun group bus device function =>
      if (is_one_of bus [58; 186] && existsb (fun l => bool_decide (l = (device, function))) [(10, 2); (10, 6); (12, 2); (8, 0)]) ||
         (is_one_of bus [93; 221] && existsb (fun l => bool_decide (l = (device, function))) [(14, 0); (15, 0); (18, 1)])
      then Some (example_handle group bus device function) else None)
    None false false.

Definition example_registers (p : port) : option Z :=
  match p with
  | PciPort32 h 0 => Some (if (h / 8) mod 32 =? 8 then 0x20668086 else if (h / 8) mod 32 =? 14 then 0x20588086 else 0x20428086)
  | PciPort64 h _ => Some h
  | _ => Some 0
  end.

Definition example_servers : list ServerUncorePMUs :=
  match (@init_server_uncore (static_machine example_registers) example_env (no_buses, HW [] ∅ ∅)).2 with
  | Ok (servers, _) => servers
  | Throw _ => []
  end.

Example example_servers_units :
  map (fun s => (length (imcPMUs s), length (xpiPMUs s), length (m3upiPMUs s), length (m2mPMUs s), num_imc_channels s)) example_servers =
    [(3%nat, 2%nat, 1%nat, 1%nat, [2; 1]); (3%nat, 2%nat, 1%nat, 1%nat, [2; 1])].
Proof. vm_compute. reflexivity. Qed.

Lemma socket_gets_its_buses_witness :
  exists b' h', @initBuses (static_machine example_registers) example_env 1
      (match initRegisterLocations SKX false with Ok l => l | Throw _ => Locations [] [] [] [] [] [] [] end) (no_buses, HW [] ∅ ∅)
    = ((b', h'), Ok (UnitBuses 0 186 221 186)) /\ skx_caches example_registers example_env b'.
Proof.
  apply (socket_gets_its_buses example_registers example_env); try reflexivity; try done.
  - by repeat (apply Forall_cons_2; [vm_compute; done|]).
  - by repeat (apply Forall_cons_2; [done|]).
  - by repeat split; left.
Defined.

Lemma created_controllers_share_reads_witness :
  exists server rs, example_servers !! 1%nat = Some server /\
    @safe_with _ (eq rs) (@mapM_ _ _ (seq 0 2) (@getImcReadsForController (static_machine example_registers) server)) /\
    safe_with (eq (u64 (sumZ rs))) (@getImcReads (static_machine example_registers) server).
Proof.
  assert (exists server, example_servers !! 1%nat = Some server /\ num_imc_channels server = [2; 1] /\ length (imcPMUs server) = 3%nat /\
    forall i, (i < 3)%nat -> safe_with (eq (nth i [47698; 47702; 47714] 0)) (@channel_sum (static_machine example_registers) server READ READ2 i))
    as (server & Hs & Hn & Hl & Hval).
  { eexists. split; [vm_compute; reflexivity|]. split; [reflexivity|]. split; [reflexivity|].
    intros [|[|[|i]]] Hi h; [by eexists _, _..|]. lia. }
  destruct (@created_controllers_share_reads (static_machine example_registers) example_env (no_buses, HW [] ∅ ∅) example_servers
              (match (@init_server_uncore (static_machine example_registers) example_env (no_buses, HW [] ∅ ∅)).2 with Ok r => r.2 | Throw _ => [] end)
              server (fun i => nth i [47698; 47702; 47714] 0)) as (rs & H1 & H2).
  - vm_compute. reflexivity.
  - by apply list_elem_of_lookup_2 in Hs.
  - by rewrite Hl.
  - rewrite Hl. exact Hval.
  - exists server, rs. split; [done|]. rewrite Hn in H1. by split.
Defined.
