(* ===== verification/Sampling.v ===== *)
(** The sampling of all counters: the uncore part of [PCM::getAllCounterStates],
    [PCM::getSystemCounterState] and [PCM::getSocketCounterState] of
    [src/src/cpucounters.cpp], the tasks by which [getAllCounterStates] reads the cores and
    the sockets in parallel, and the [Aggregator] of [src/src/topology.h] and
    [src/src/topology.cpp], which the sensor server uses for the same samples.

    The model number that a unit caches when it is first asked for it is not kept from one
    reading to the next, where it would be read again. *)

From S2P Require Import Prelude Bits CpuModels Capabilities Registers UncorePMU ServerUncore CounterState PcmUncore Discovery RawEvents RawProgram Topology Bandwidth.
Local Open Scope Z_scope.

(** * The state of PCM that the readings use *)

Record sampler := Sampler {
  sm_model : Z;
  sm_stepping : Z;
  sm_uncore : pcm_uncore;
  sm_sockets : nat;                       (** [num_sockets] *)
  sm_topology : list TopologyEntry;
  sm_refCores : list Z;                   (** [socketRefCore] *)
  sm_context : Z -> core_context;         (** what a core is read with *)
  sm_threadMSRs : list RawEventConfig;    (** [threadMSRConfig], [packageMSRConfig]: programmable and fixed *)
  sm_packageMSRs : list RawEventConfig;
  sm_registers : raw_pcm;                 (** the registers of raw events *)
  sm_telemetry : Z -> nat -> list Z;
  sm_all_online : bool;                   (** [getNumCores() == getNumOnlineCores()] *)
  sm_UFSStatus : list (list (option TPMIHandle * nat));
  sm_serverBW : list (list Z);
  sm_client : option client_counters;
  sm_energy : energy_counters;
  sm_pkgCStateMsr : list Z;               (** [MAX_C_STATE + 1] numbers, 0 for none *)
  sm_qpi_links : nat;                     (** [getQPILinksPerSocket] *)
  sm_widths : widths
}.

Definition uncoreFrequencyMetricAvailable (c : sampler) : bool :=
  (0 <? getMaxNumOfUncorePMUs UBOX_PMU_ID 0 (sm_uncore c))%nat &&
  sm_all_online c && negb (is_one_of (sm_model c) [GNR; GNR_D; SRF]).

Definition HBMmemoryTrafficMetricsAvailable (c : sampler) : bool :=
  match serverUncorePMUs (sm_uncore c) with s :: _ => HBMAvailable s | [] => false end.

(** * Additions to the state of a socket *)

Definition add_TOR (occupancy inserts : Z) (s : UncoreCounterState) : UncoreCounterState :=
  let 'Uncore a b c d e f g h i j k l m n o p q r t u v := s in
  Uncore a b c d e f g h i j k l m n o p q (u64 (r + occupancy)) (u64 (t + inserts)) u v.
Definition add_UncClocks (x : Z) (s : UncoreCounterState) : UncoreCounterState :=
  let 'Uncore a b c d e f g h i j k l m n o p q r t u v := s in Uncore a b c d e f g h i j k l m n o p q r t (u64 (u + x)) v.
Definition set_UFSStatus (x : list Z) (s : UncoreCounterState) : UncoreCounterState :=
  let 'Uncore a b c d e f g h i j k l m n o p q r t u v := s in Uncore x b c d e f g h i j k l m n o p q r t u v.
Definition add_MC (reads writes : Z) (s : UncoreCounterState) : UncoreCounterState :=
  let 'Uncore a b c d e f g h i j k l m n o p q r t u v := s in
  Uncore a (u64 (b + writes)) (u64 (c + reads)) d e f g h i j k l m n o p q r t u v.
Definition add_HA (requests local : Z) (s : UncoreCounterState) : UncoreCounterState :=
  let 'Uncore a b c d e f g h i j k l m n o p q r t u v := s in
  Uncore a b c (u64 (d + requests)) (u64 (e + local)) f g h i j k l m n o p q r t u v.
Definition add_NM (hits misses : Z) (s : UncoreCounterState) : UncoreCounterState :=
  let 'Uncore a b c d e f g h i j k l m n o p q r t u v := s in
  Uncore a b c d e (u64 (f + misses)) (u64 (g + hits)) h i j k l m n o p q r t u v.
Definition add_PMM (reads writes : Z) (s : UncoreCounterState) : UncoreCounterState :=
  let 'Uncore a b c d e f g h i j k l m n o p q r t u v := s in
  Uncore a b c d e f g (u64 (h + writes)) (u64 (i + reads)) j k l m n o p q r t u v.
Definition add_EDC (reads writes : Z) (s : UncoreCounterState) : UncoreCounterState :=
  let 'Uncore a b c d e f g h i j k l m n o p q r t u v := s in
  Uncore a b c d e f g h i (u64 (j + writes)) (u64 (k + reads)) l m n o p q r t u v.
Definition add_requests (gt ia io : Z) (s : UncoreCounterState) : UncoreCounterState :=
  let 'Uncore a b c d e f g h i j k l m n o p q r t u v := s in
  Uncore a b c d e f g h i j k (u64 (l + gt)) (u64 (m + ia)) (u64 (n + io)) o p q r t u v.
Definition add_package_energy (x : Z) (s : UncoreCounterState) : UncoreCounterState :=
  let 'Uncore a b c d e f g h i j k l m n o p q r t u v := s in Uncore a b c d e f g h i j k l m n (u64 (o + x)) p q r t u v.
Definition add_DRAM_energy (x : Z) (s : UncoreCounterState) : UncoreCounterState :=
  let 'Uncore a b c d e f g h i j k l m n o p q r t u v := s in Uncore a b c d e f g h i j k l m n o p (u64 (q + x)) r t u v.
Definition add_PP_energy (pp : nat) (x : Z) (s : UncoreCounterState) : UncoreCounterState :=
  let 'Uncore a b c d e f g h i j k l m n o p q r t u v := s in
  Uncore a b c d e f g h i j k l m n o (alter (fun y => u64 (y + x)) pp p) q r t u v.
Definition add_cstates (x : list Z) (s : UncoreCounterState) : UncoreCounterState :=
  let 'Uncore a b c d e f g h i j k l m n o p q r t u v := s in Uncore a b c d e f g h i j k l m n o p q r t u (vec_add v x).

Definition MSR_UNCORE_PMC (i : Z) : Z := 0x3B0 + i.
Definition MB0_MSR_PMU_CNT_0 : Z := 0x0CB1.
Definition MB1_MSR_PMU_CNT_0 : Z := 0x0CF1.
Definition BB0_MSR_PERF_CNT_1 : Z := 0x0C33.
Definition BB1_MSR_PERF_CNT_1 : Z := 0x0C73.
Definition MSR_PACKAGE_THERM_STATUS : Z := 0x1B1.
Definition W_MSR_PMON_FIXED_CTR : Z := 0x394.
(** Counters 0-7 and 8-15. *)
Definition R_MSR_PMON_CTR (i : Z) : Z := if i <? 8 then 0x0E11 + 2 * i else 0x0E31 + 2 * (i - 8).

Section Code.
Context {machine : Machine} (c : sampler).

(** * The uncore counters of a socket *)

Definition handle_of (socket : nat) : SafeMsrHandle := sm_refCores c !! socket.

(** The step of a reading: it updates the state that it is given. *)
Definition uncore_reading : Type := UncoreCounterState -> M UncoreCounterState.

(** One after the other. *)
Definition readings (l : list uncore_reading) : uncore_reading := foldr (fun f k u => u ← f u; k u) (fun u => mret u) l.
Definition when (b : bool) (f : uncore_reading) : uncore_reading := if b then f else fun u => mret u.

Definition read_TOR (socket : nat) : uncore_reading := fun u =>
  occupancy ← getUncoreCounterState CBO_PMU_ID socket TOR_OCCUPANCY (sm_uncore c);
  inserts ← getUncoreCounterState CBO_PMU_ID socket TOR_INSERTS (sm_uncore c);
  mret (add_TOR occupancy inserts u).

Definition read_UncClocks (socket : nat) : uncore_reading := fun u =>
  v ← getUncoreClocks socket (sm_uncore c); mret (add_UncClocks v u).

Fixpoint read_UFS (l : list (option TPMIHandle * nat)) : M (list Z) :=
  match l with
  | [] => mret []
  | (Some handle, pos) :: l =>
      if (pos <? TPMI_getNumEntries handle)%nat then v ← TPMI_read64 handle pos; vs ← read_UFS l; mret (v :: vs)
      else read_UFS l
  | (None, _) :: l => read_UFS l
  end.

Definition read_UFSStatus (socket : nat) : uncore_reading := fun u =>
  match sm_UFSStatus c !! socket with
  | Some l => v ← read_UFS l; mret (set_UFSStatus v u)
  | None => mret u
  end.

Definition read_serverBW (bars : list Z) : uncore_reading := fun u =>
  reads ← ServerBW_getImcReads bars;
  writes ← ServerBW_getImcWrites bars;
  let u := add_MC reads writes u in
  if PMMTrafficMetricsAvailable (sm_model c) (sm_stepping c)
  then reads ← ServerBW_getPMMReads bars; writes ← ServerBW_getPMMWrites bars; mret (add_PMM reads writes u)
  else mret u.

(** The units of a server: they are frozen while they are read. *)
Definition read_server_units (socket : nat) (from_bw : bool) (s : ServerUncorePMUs) : uncore_reading := fun u =>
  s ← freezeCounters (sm_model c) s;
  u ← readings
    [when (negb from_bw) (fun u =>
       reads ← getImcReads s; writes ← getImcWrites s; mret (add_MC reads writes u));
     when (negb from_bw && nearMemoryMetricsAvailable (sm_model c)) (fun u =>
       hits ← ServerUncore.getNMHits s; misses ← ServerUncore.getNMMisses s; mret (add_NM hits misses u));
     when (localMemoryRequestRatioMetricAvailable (sm_model c)) (fun u =>
       if hasCHA (sm_model c) then
         all ← getUncoreCounterState CBO_PMU_ID socket REQUESTS_ALL (sm_uncore c);
         local ← getUncoreCounterState CBO_PMU_ID socket REQUESTS_LOCAL (sm_uncore c); mret (add_HA all local u)
       else all ← ServerUncore.getHARequests s; local ← getHALocalRequests s; mret (add_HA all local u));
     when (PMMTrafficMetricsAvailable (sm_model c) (sm_stepping c) && negb from_bw) (fun u =>
       reads ← getPMMReads s; writes ← getPMMWrites s; mret (add_PMM reads writes u));
     when (HBMmemoryTrafficMetricsAvailable c) (fun u =>
       reads ← getEdcReads s; writes ← getEdcWrites s; mret (add_EDC reads writes u))] u;
  unfreezeCounters (sm_model c) s ;;
  mret u.

Definition read_client (k : client_counters) : uncore_reading := fun u =>
  reads ← extender_read (clientImcReads k);
  writes ← extender_read (clientImcWrites k);
  gt ← extender_read (clientGtRequests k);
  ia ← extender_read (clientIaRequests k);
  io ← extender_read (clientIoRequests k);
  mret (add_requests gt ia io (add_MC reads writes u)).

(** The counters in MSRs of the first Nehalem and Westmere processors. *)
Definition read_msr_counters (handle : SafeMsrHandle) : uncore_reading := fun u =>
  let read addr := v ← msr_read handle addr; mret (extractUncoreGenCounterValue (sm_widths c) v) in
  if is_one_of (sm_model c) [WESTMERE_EP; NEHALEM_EP] then
    writes ← read (MSR_UNCORE_PMC 0); reads ← read (MSR_UNCORE_PMC 1); mret (add_MC reads writes u)
  else if is_one_of (sm_model c) [NEHALEM_EX; WESTMERE_EX] then
    reads0 ← read MB0_MSR_PMU_CNT_0; reads1 ← read MB1_MSR_PMU_CNT_0;
    writes0 ← read BB0_MSR_PERF_CNT_1; writes1 ← read BB1_MSR_PERF_CNT_1;
    mret (add_MC reads1 writes1 (add_MC reads0 writes0 u))
  else mret u.

(** [serverUncorePMUs[socket]] past the end, which is undefined, is an error. *)
Definition read_memory (socket : nat) (from_bw : bool) : uncore_reading := fun u =>
  if hasPCICFGUncore (sm_model c) then
    match serverUncorePMUs (sm_uncore c) !! socket with
    | Some s => read_server_units socket from_bw s u
    | None => match serverUncorePMUs (sm_uncore c) with [] => mret u | _ => throw OutOfRange end
    end
  else
    match sm_client c with
    | Some k => if (socket =? 0)%nat then read_client k u else read_msr_counters (handle_of socket) u
    | None => read_msr_counters (handle_of socket) u
    end.

Definition readAndAggregateUncoreMCCounters (socket : nat) : uncore_reading :=
  let latency := LLCReadMissLatencyMetricsAvailable (sm_model c) (sm_stepping c) (Z.of_nat (sm_sockets c)) in
  let bars := sm_serverBW c !! socket in
  readings
    [when latency (read_TOR socket);
     when (latency || uncoreFrequencyMetricAvailable c) (read_UncClocks socket);
     read_UFSStatus socket;
     match bars with Some l => read_serverBW l | None => fun u => mret u end;
     read_memory socket (bool_decide (is_Some bars))].

Definition read_extender_into (id : option nat) (add : Z -> UncoreCounterState -> UncoreCounterState) : uncore_reading := fun u =>
  match id with Some id => v ← extender_read id; mret (add v u) | None => mret u end.

Definition readAndAggregateEnergyCounters (socket : nat) : uncore_reading :=
  let e := sm_energy c in
  readings
    ([read_extender_into (energy_status e !! socket) add_package_energy;
      read_extender_into (dram_energy_status e !! socket) add_DRAM_energy] ++
     (if (socket =? 0)%nat then imap (fun pp id => read_extender_into (Some id) (add_PP_energy pp)) (pp_energy_status e) else [])).

(** [readAndAggregatePackageCStateResidencies]: a residency of 0 is not added. *)
Definition read_package_cstates (handle : SafeMsrHandle) : M (list Z) :=
  mapM_ (sm_pkgCStateMsr c) (fun addr => if addr =? 0 then mret 0 else msr_read handle addr).

Definition readAndAggregatePackageCStateResidencies (handle : SafeMsrHandle) : uncore_reading := fun u =>
  l ← read_package_cstates handle; mret (add_cstates l u).

(** * The state of the system *)

(** [SystemCounterState] without the counters of the accelerators. *)
Record SystemCounterState := System {
  sy_counters : SocketCounterState;
  incomingQPIPackets : list (list Z);     (** socket, link *)
  outgoingQPIFlits : list (list Z);
  TxL0Cycles : list (list Z);
  uncoreTSC : Z;
  systemEnergyStatus : Z;
  TPMIValues : gmap (list Z) (list Z);
  PCICFGValues : gmap (list Z) (list Z);
  MMIOValues : gmap (list Z) (list Z);
  PMTValues : gmap (list Z) (list Z);
  CXLWriteMem : list Z;                   (** socket *)
  CXLWriteCache : list Z
}.

Definition SystemCounterState_init : SystemCounterState :=
  let links := replicate (sm_sockets c) (replicate (sm_qpi_links c) 0) in
  System SocketCounterState_init links links links 0 0 ∅ ∅ ∅ ∅ (replicate (sm_sockets c) 0) (replicate (sm_sockets c) 0).

Definition set_counters x y := System x (incomingQPIPackets y) (outgoingQPIFlits y) (TxL0Cycles y) (uncoreTSC y) (systemEnergyStatus y) (TPMIValues y) (PCICFGValues y) (MMIOValues y) (PMTValues y) (CXLWriteMem y) (CXLWriteCache y).
Definition set_links i o t y := System (sy_counters y) i o t (uncoreTSC y) (systemEnergyStatus y) (TPMIValues y) (PCICFGValues y) (MMIOValues y) (PMTValues y) (CXLWriteMem y) (CXLWriteCache y).
Definition set_uncoreTSC x y := System (sy_counters y) (incomingQPIPackets y) (outgoingQPIFlits y) (TxL0Cycles y) x (systemEnergyStatus y) (TPMIValues y) (PCICFGValues y) (MMIOValues y) (PMTValues y) (CXLWriteMem y) (CXLWriteCache y).
Definition set_system_energy x y := System (sy_counters y) (incomingQPIPackets y) (outgoingQPIFlits y) (TxL0Cycles y) (uncoreTSC y) x (TPMIValues y) (PCICFGValues y) (MMIOValues y) (PMTValues y) (CXLWriteMem y) (CXLWriteCache y).
Definition set_values tpmi pcicfg mmio pmt y := System (sy_counters y) (incomingQPIPackets y) (outgoingQPIFlits y) (TxL0Cycles y) (uncoreTSC y) (systemEnergyStatus y) tpmi pcicfg mmio pmt (CXLWriteMem y) (CXLWriteCache y).
Definition set_cxl_counts m k y := System (sy_counters y) (incomingQPIPackets y) (outgoingQPIFlits y) (TxL0Cycles y) (uncoreTSC y) (systemEnergyStatus y) (TPMIValues y) (PCICFGValues y) (MMIOValues y) (PMTValues y) m k.

Definition system_reading : Type := SystemCounterState -> M SystemCounterState.

(** [v[s][l] = x]; writing past the end, which is undefined, is an error. *)
Definition set2 (s l : nat) (x : Z) (v : list (list Z)) : M (list (list Z)) :=
  match v !! s with
  | Some row => if (l <? length row)%nat then mret (<[s := <[l := x]> row]> v) else throw OutOfRange
  | None => throw OutOfRange
  end.

Definition set_incoming (s l : nat) (x : Z) (y : SystemCounterState) : M SystemCounterState :=
  i ← set2 s l x (incomingQPIPackets y); mret (set_links i (outgoingQPIFlits y) (TxL0Cycles y) y).
Definition set_outgoing (s l : nat) (x : Z) (y : SystemCounterState) : M SystemCounterState :=
  o ← set2 s l x (outgoingQPIFlits y); mret (set_links (incomingQPIPackets y) o (TxL0Cycles y) y).
Definition set_TxL0 (s l : nat) (x : Z) (y : SystemCounterState) : M SystemCounterState :=
  t ← set2 s l x (TxL0Cycles y); mret (set_links (incomingQPIPackets y) (outgoingQPIFlits y) t y).

(** The links of a socket of Nehalem-EX and Westmere-EX: link, and the numbers of its
    counters of incoming packets and outgoing flits. *)
Definition beckton_links : list (nat * (Z * Z)) := [(0%nat, (1, 3)); (1%nat, (0, 2)); (2%nat, (8, 10)); (3%nat, (9, 11))].

Fixpoint read_links (handle : SafeMsrHandle) (s : nat) (set : nat -> nat -> Z -> SystemCounterState -> M SystemCounterState)
    (number : Z * Z -> Z) (l : list (nat * (Z * Z))) (y : SystemCounterState) : M SystemCounterState :=
  match l with
  | [] => mret y
  | (link, k) :: l => v ← msr_read handle (R_MSR_PMON_CTR (number k)); y ← set s link v y; read_links handle s set number l y
  end.

(** The first online core of every socket reads its links. *)
Fixpoint read_beckton (cores : list nat) (processed : list nat) (y : SystemCounterState) : M SystemCounterState :=
  match cores with
  | [] => mret y
  | core :: cores =>
      if isCoreOnline (sm_topology c) core then
        let handle : SafeMsrHandle := Some (Z.of_nat core) in
        y ← (if bool_decide (sm_refCores c !! 0%nat = Some (Z.of_nat core))
             then v ← msr_read handle W_MSR_PMON_FIXED_CTR; mret (set_uncoreTSC v y) else mret y);
        let s := Z.to_nat (socket_id (nth core (sm_topology c) TopologyEntry_init)) in
        if bool_decide (s ∈ processed) then read_beckton cores processed y
        else
          y ← read_links handle s set_incoming fst beckton_links y;
          y ← read_links handle s set_outgoing snd beckton_links y;
          read_beckton cores (s :: processed) y
      else read_beckton cores processed y
  end.

(** The counters 0 to 7 of a socket of Nehalem-EP and Westmere-EP: writes, reads, reads and
    writes of the I/O hub, remote reads and writes, local reads and writes. *)
Definition read_gq (socket : nat) : M (list Z) := mapM_ (seqZ 0 8) (fun i => msr_read (handle_of socket) (MSR_UNCORE_PMC i)).

(** The remote reads: what is left of the total. *)
Definition remote_reads (l : list Z) : Z :=
  let at_ i := nth i l 0 in
  let total := u64 (at_ 0%nat + at_ 1%nat) in
  let rem := u64 (at_ 2%nat + at_ 3%nat + at_ 6%nat + at_ 7%nat + at_ 5%nat) in
  if rem <? total then total - rem else 0.

(** [uint64(double(x) / 9.)]: to nearest, ties to even, and truncated. *)
Definition double_div (x d : Z) : Z :=
  let a := to_double x in
  let k := Z.log2 (a / d) - 52 in
  let '(num, den) := if k <? 0 then (a * 2 ^ (- k), d) else (a, d * 2 ^ k) in
  let q := num / den in
  let r := num mod den in
  let rounded := if (den <? 2 * r) || ((2 * r =? den) && Z.odd q) then q + 1 else q in
  if k <? 0 then rounded / 2 ^ (- k) else rounded * 2 ^ k.

(** [uint64(double(x) / (64. / getDataBytesPerFlit()))]: the divisor is 9 flits of UPI, or
    8 of QPI. *)
Definition data_packets (x : Z) : Z := if hasUPI (sm_model c) then double_div x 9 else double_div_pow2 x 3.

Fixpoint read_ports (s : nat) (u : ServerUncorePMUs) (ports : list nat) (y : SystemCounterState) : M SystemCounterState :=
  match ports with
  | [] => mret y
  | port :: ports =>
      flits ← getIncomingDataFlits u port; y ← set_incoming s port (data_packets flits) y;
      out ← getOutgoingFlits u port; y ← set_outgoing s port out y;
      cycles ← getUPIL0TxCycles u port; y ← set_TxL0 s port cycles y;
      read_ports s u ports y
  end.

Fixpoint read_server_links (s : nat) (l : list ServerUncorePMUs) (y : SystemCounterState) : M SystemCounterState :=
  match l with
  | [] => mret y
  | u :: l =>
      u ← freezeCounters (sm_model c) u;
      y ← read_ports s u (seq 0 (sm_qpi_links c)) y;
      unfreezeCounters (sm_model c) u ;;
      read_server_links (S s) l y
  end.

Definition readQPICounters : system_reading := fun y =>
  if is_one_of (sm_model c) [NEHALEM_EX; WESTMERE_EX] then read_beckton (seq 0 (length (sm_topology c))) [] y
  else if is_one_of (sm_model c) [NEHALEM_EP; WESTMERE_EP] then
    if (sm_sockets c =? 2)%nat then
      l0 ← read_gq 0; l1 ← read_gq 1;
      let r0 := remote_reads l0 in let r1 := remote_reads l1 in
      y ← set_incoming 0 0 (u64 (r1 + nth 5 l0 0)) y;
      y ← set_incoming 0 1 (nth 2 l0 0) y;
      y ← set_incoming 1 0 (u64 (r0 + nth 5 l1 0)) y;
      set_incoming 1 1 (nth 2 l1 0) y
    else set_incoming 0 0 0 y
  else if hasPCICFGUncore (sm_model c) then read_server_links 0 (serverUncorePMUs (sm_uncore c)) y
  else mret y.

Fixpoint read_cxl (ports : list (UncorePMU * UncorePMU)) (mem cache : Z) : M (Z * Z) :=
  match ports with
  | [] => mret (mem, cache)
  | p :: ports =>
      m ← counter_value p.1 0; k ← counter_value p.1 1;
      read_cxl ports (u64 (mem + m)) (u64 (cache + k))
  end.

Definition readAndAggregateCXLCMCounters : system_reading := fun y =>
  l ← mapM_ (seq 0 (sm_sockets c)) (fun socket => read_cxl (default [] (cxlPMUs (sm_uncore c) !! socket)) 0 0);
  mret (set_cxl_counts (map fst l) (map snd l) y).

Definition readSystemEnergyStatus : system_reading := fun y =>
  match system_energy_status (sm_energy c) with
  | Some id => if systemEnergyMetricAvailable (sm_model c) then v ← extender_read id; mret (set_system_energy v y) else mret y
  | None => mret y
  end.

(** * Sequential sampling *)

Definition set_headroom (headroom : Z) (values : gmap Z Z) (b : BasicCounterState) : BasicCounterState :=
  Basic (InstRetiredAny b) (CpuClkUnhaltedThread b) (CpuClkUnhaltedRef b) (Event b) (InvariantTSC b) (CoreCStateResidency b)
    headroom (L3Occupancy b) (MemoryBWLocal b) (MemoryBWTotal b) (SMICount b) (FrontendBoundSlots b) (BadSpeculationSlots b)
    (BackendBoundSlots b) (RetiringSlots b) (AllSlotsRaw b) (MemBoundSlots b) (FetchLatSlots b) (BrMispredSlots b)
    (HeavyOpsSlots b) values.

Definition basic_reading : Type := BasicCounterState -> M BasicCounterState.

Definition readPackageThermalHeadroom (socket : nat) : basic_reading := fun b =>
  if packageThermalMetricsAvailable (sm_model c) then
    v ← msr_read (handle_of socket) MSR_PACKAGE_THERM_STATUS;
    mret (set_headroom (extractThermalHeadroom v) (<[MSR_PACKAGE_THERM_STATUS := v]> (MSRValues b)) b)
  else mret (set_headroom PCM_INVALID_THERMAL_HEADROOM (MSRValues b) b).

Definition read_core (core : Z) : basic_reading := readAndAggregate (sm_context c core) core.
Definition read_raw_MSRs (handle : SafeMsrHandle) (configs : list RawEventConfig) : basic_reading := fun b =>
  v ← readMSRs handle configs (MSRValues b); mret (set_headroom (ThermalHeadroom b) v b).

Definition online_cores : list nat := filter (fun i => isCoreOnline (sm_topology c) i = true) (seq 0 (length (sm_topology c))).
Definition core_socket (core : nat) : nat := Z.to_nat (socket_id (nth core (sm_topology c) TopologyEntry_init)).

(** [result.readAndAggregate(MSR[core])] for a socket or the system: the counters of the
    core and the package C-states. *)
Fixpoint read_cores (l : list nat) (s : SocketCounterState) : M SocketCounterState :=
  match l with
  | [] => mret s
  | core :: l =>
      b ← read_core (Z.of_nat core) (basic s);
      u ← readAndAggregatePackageCStateResidencies (Some (Z.of_nat core)) (uncore s);
      read_cores l (Socket b u)
  end.

Definition getSocketCounterState (socket : nat) : M SocketCounterState :=
  s ← read_cores (filter (fun core => core_socket core = socket) online_cores) SocketCounterState_init;
  u ← readAndAggregateUncoreMCCounters socket (uncore s);
  u ← readAndAggregateEnergyCounters socket u;
  b ← readPackageThermalHeadroom socket (basic s);
  mret (Socket b u).

Fixpoint read_sockets (l : list nat) (u : UncoreCounterState) : M UncoreCounterState :=
  match l with
  | [] => mret u
  | socket :: l =>
      u ← readAndAggregateUncoreMCCounters socket u;
      u ← readAndAggregateEnergyCounters socket u;
      read_sockets l u
  end.

(** [isSocketOnline] *)
Definition online_sockets : list nat := filter (fun s => sm_refCores c !! s <> Some (-1)) (seq 0 (sm_sockets c)).

Definition getSystemCounterState : M SystemCounterState :=
  s ← read_cores online_cores SocketCounterState_init;
  u ← read_sockets online_sockets (uncore s);
  y ← readAndAggregateCXLCMCounters (set_counters (Socket (basic s) u) SystemCounterState_init);
  y ← readQPICounters y;
  y ← readSystemEnergyStatus y;
  let b := basic (sy_counters y) in
  mret (set_counters (Socket (set_headroom PCM_INVALID_THERMAL_HEADROOM (MSRValues b) b) (uncore (sy_counters y))) y).

(** * Parallel sampling

    [getAllCounterStates] gives every online core a task for the queue of its thread, every
    socket a task for the queue of its reference core, and meanwhile reads the links and the
    registers of raw events itself. A step is one call; the steps of the threads interleave.
    A task that throws ends, and its future keeps the exception, which nobody asks for. *)

Inductive step :=
  | OnCore (core : nat) (f : basic_reading)
  | OnSocketBasic (socket : nat) (f : basic_reading)
  | OnSocketUncore (socket : nat) (f : uncore_reading)
  | OnSystem (f : system_reading).

Record samples := Samples {
  sa_system : SystemCounterState;
  sa_sockets : list SocketCounterState;
  sa_cores : list BasicCounterState;
  sa_failed : gset nat      (** the tasks that threw *)
}.

Definition samples_init : samples :=
  Samples SystemCounterState_init (replicate (sm_sockets c) SocketCounterState_init)
    (replicate (length (sm_topology c)) BasicCounterState_init) ∅.

Definition perform (a : step) (sa : samples) : M samples :=
  match a with
  | OnCore core f =>
      match sa_cores sa !! core with
      | Some b => b ← f b; mret (Samples (sa_system sa) (sa_sockets sa) (<[core := b]> (sa_cores sa)) (sa_failed sa))
      | None => throw OutOfRange
      end
  | OnSocketBasic socket f =>
      match sa_sockets sa !! socket with
      | Some s => b ← f (basic s);
                  mret (Samples (sa_system sa) (<[socket := Socket b (uncore s)]> (sa_sockets sa)) (sa_cores sa) (sa_failed sa))
      | None => throw OutOfRange
      end
  | OnSocketUncore socket f =>
      match sa_sockets sa !! socket with
      | Some s => u ← f (uncore s);
                  mret (Samples (sa_system sa) (<[socket := Socket (basic s) u]> (sa_sockets sa)) (sa_cores sa) (sa_failed sa))
      | None => throw OutOfRange
      end
  | OnSystem f => y ← f (sa_system sa); mret (Samples y (sa_sockets sa) (sa_cores sa) (sa_failed sa))
  end.

Definition attempt {A} (m : M A) : M (res A) := fun h => let '(h', r) := m h in (h', Ok r).

(** A step of task [t]. *)
Definition run_step (ta : nat * step) (sa : samples) : M samples :=
  if decide (ta.1 ∈ sa_failed sa) then mret sa
  else
    r ← attempt (perform ta.2 sa);
    mret match r with
         | Ok sa' => sa'
         | Throw _ => Samples (sa_system sa) (sa_sockets sa) (sa_cores sa) ({[ta.1]} ∪ sa_failed sa)
         end.

Fixpoint run_steps (l : list (nat * step)) (sa : samples) : M samples :=
  match l with [] => mret sa | ta :: l => sa ← run_step ta sa; run_steps l sa end.

(** The caller is task 0. *)
Definition core_task (with_uncore : bool) (core : nat) : list (nat * step) :=
  map (pair (S core))
    ([OnCore core (read_core (Z.of_nat core))] ++
     (if with_uncore then [OnSocketUncore (core_socket core) (readAndAggregatePackageCStateResidencies (Some (Z.of_nat core)))] else []) ++
     [OnCore core (read_raw_MSRs (Some (Z.of_nat core)) (sm_threadMSRs c))]).

(** [if (refCore<0) refCore = 0] *)
Definition task_core (socket : nat) : nat := match sm_refCores c !! socket with Some x => Z.to_nat (Z.max x 0) | None => 0%nat end.

Definition socket_task (socket : nat) : list (nat * step) :=
  map (pair (S (length (sm_topology c) + socket)))
    [OnSocketUncore socket (readAndAggregateUncoreMCCounters socket);
     OnSocketUncore socket (readAndAggregateEnergyCounters socket);
     OnSocketBasic socket (readPackageThermalHeadroom socket);
     OnSocketBasic socket (read_raw_MSRs (Some (Z.of_nat (task_core socket))) (sm_packageMSRs c))].

Definition read_pcicfg_values : system_reading := fun y =>
  v ← readPCICFGRegisters (sm_registers c) (PCICFGValues y); mret (set_values (TPMIValues y) v (MMIOValues y) (PMTValues y) y).
Definition read_mmio_values : system_reading := fun y =>
  v ← readMMIORegisters (sm_registers c) (MMIOValues y); mret (set_values (TPMIValues y) (PCICFGValues y) v (PMTValues y) y).
Definition read_pmt_values : system_reading := fun y =>
  v ← readPMTRegisters (sm_telemetry c) (sm_registers c) (PMTValues y); mret (set_values (TPMIValues y) (PCICFGValues y) (MMIOValues y) v y).
Definition read_tpmi_values : system_reading := fun y =>
  v ← readTPMIRegisters (sm_registers c) (TPMIValues y); mret (set_values v (PCICFGValues y) (MMIOValues y) (PMTValues y) y).

Definition caller_steps : list (nat * step) :=
  map (pair 0%nat) [OnSystem readQPICounters; OnSystem read_pcicfg_values; OnSystem read_mmio_values; OnSystem read_pmt_values; OnSystem read_tpmi_values].

(** What the threads do: the caller, and the queue of every core. *)
Definition threads (with_uncore : bool) : list (list (nat * step)) :=
  (if with_uncore then caller_steps else []) ::
  map (fun core =>
      (if isCoreOnline (sm_topology c) core then core_task with_uncore core else []) ++
      (if with_uncore then concat (map socket_task (filter (fun s => task_core s = core) (seq 0 (sm_sockets c)))) else []))
    (seq 0 (length (sm_topology c))).

(** [l] runs the steps of every thread in their order. *)
Inductive interleaving {A} : list (list A) -> list A -> Prop :=
  | interleaving_done ts : Forall (eq []) ts -> interleaving ts []
  | interleaving_step ts i a r l : ts !! i = Some (a :: r) -> interleaving (<[i := r]> ts) l -> interleaving ts (a :: l).

(** The aggregation when all tasks have ended. *)
Definition aggregate (sa : samples) : SystemCounterState * list SocketCounterState :=
  let sockets := foldl (fun ss core => alter (fun s => socket_add_core s (nth core (sa_cores sa) BasicCounterState_init)) (core_socket core) ss)
                   (sa_sockets sa) online_cores in
  (set_counters (foldl system_add_socket (sy_counters (sa_system sa)) sockets) (sa_system sa), sockets).

(** [getAllCounterStates] with the given interleaving of its threads. *)
Definition getAllCounterStates (l : list (nat * step)) : M (SystemCounterState * list SocketCounterState * list BasicCounterState) :=
  sa ← run_steps l samples_init;
  if decide (0%nat ∈ sa_failed sa) then throw StdException
  else
    let '(y, sockets) := aggregate sa in
    y ← readSystemEnergyStatus y;
    mret (y, sockets, sa_cores sa).

(** * The aggregator of the sensor server *)

Inductive sampling_job := CoreJob (h : HyperThread) | UncoreJob (s : socket_node).

(** The jobs in the order in which [dispatch] adds them. *)
Definition socket_jobs (s : socket_node) : list sampling_job := map CoreJob (socket_threads s) ++ [UncoreJob s].
Definition dispatched (r : SystemRoot) : list sampling_job := concat (map socket_jobs (sockets r)) ++ map CoreJob (offlinedThreadsAtStart r).

(** [HyperThread::coreCounterState] with the MSR handle of its processor. *)
Definition core_job (h : HyperThread) : M BasicCounterState :=
  if ht_isOnline h then read_core (osID h) BasicCounterState_init else mret BasicCounterState_init.

(** [refCore()->msrHandle()] *)
Definition ref_handle (s : socket_node) : res Z :=
  match cores s with (h :: _) :: _ => Ok (osID h) | _ => Throw RuntimeError end.

(** [uncore()->uncoreCounterState()] *)
Definition uncore_job (s : socket_node) : M UncoreCounterState :=
  let socket := Z.to_nat (logicalID s) in
  match cores s with
  | core :: _ =>
      if core_isOnline core then
        u ← readAndAggregateUncoreMCCounters socket UncoreCounterState_init;
        u ← readAndAggregateEnergyCounters socket u;
        match ref_handle s with
        | Ok h => readAndAggregatePackageCStateResidencies (Some h) u
        | Throw e => throw e
        end
      else mret UncoreCounterState_init
  | [] => throw NullDereference
  end.

(** The results that the futures hold: of a processor, and of a socket. *)
Record futures := Futures { ccsFutures : gmap Z (res BasicCounterState); ucsFutures : gmap Z (res UncoreCounterState) }.

Definition run_sampling_job (j : sampling_job) (f : futures) : M futures :=
  match j with
  | CoreJob h => r ← attempt (core_job h); mret (Futures (<[osID h := r]> (ccsFutures f)) (ucsFutures f))
  | UncoreJob s => r ← attempt (uncore_job s); mret (Futures (ccsFutures f) (<[logicalID s := r]> (ucsFutures f)))
  end.

Fixpoint run_sampling_jobs (l : list sampling_job) (f : futures) : M futures :=
  match l with [] => mret f | j :: l => f ← run_sampling_job j f; run_sampling_jobs l f end.

(** [get()]: the exception of the job, or that of a future without a state. *)
Definition future_get {A} (r : option (res A)) : M A :=
  match r with Some (Ok a) => mret a | Some (Throw e) => throw e | None => throw StdException end.

Record aggregator := MkAggregator {
  ccsVector : list BasicCounterState;
  socsVector : list SocketCounterState;
  sycs : SystemCounterState
}.

(** [socsVector_[socketID] += ccsVector_[osID]] for the threads of the sockets, and
    [sycs_ += socsVector_[socketID]] after each socket. *)
Definition add_threads_of (ccs : list BasicCounterState) (s : socket_node) (socs : list SocketCounterState) : list SocketCounterState :=
  foldl (fun socs h => alter (fun x => socket_add_core x (nth (Z.to_nat (osID h)) ccs BasicCounterState_init)) (Z.to_nat (logicalID s)) socs)
    socs (socket_threads s).

Fixpoint add_sockets (ccs : list BasicCounterState) (l : list socket_node) (socs : list SocketCounterState) (y : SocketCounterState)
    : list SocketCounterState * SocketCounterState :=
  match l with
  | [] => (socs, y)
  | s :: l =>
      let socs := add_threads_of ccs s socs in
      add_sockets ccs l socs (system_add_socket y (nth (Z.to_nat (logicalID s)) socs SocketCounterState_init))
  end.

(** The uncore states of the sockets in turn. *)
Fixpoint add_uncore (f : gmap Z (res UncoreCounterState)) (k : nat) (socs : list SocketCounterState) (y : SocketCounterState)
    : M (list SocketCounterState * SocketCounterState) :=
  match socs with
  | [] => mret ([], y)
  | s :: socs =>
      u ← future_get (f !! Z.of_nat k);
      r ← add_uncore f (S k) socs (Socket (basic y) (uncore_add (uncore y) u));
      mret (Socket (basic s) u :: r.1, r.2)
  end.

(** [Aggregator::dispatch] of the tree; [order] is the order in which the pool runs the jobs. *)
Definition dispatch (r : SystemRoot) (order : list sampling_job) : M aggregator :=
  f ← run_sampling_jobs order (Futures ∅ ∅);
  ccs ← mapM_ (seq 0 (length (sm_topology c))) (fun i => future_get (ccsFutures f !! Z.of_nat i));
  let '(socs, y) := add_sockets ccs (sockets r) (replicate (sm_sockets c) SocketCounterState_init) SocketCounterState_init in
  a ← add_uncore (ucsFutures f) 0 socs y;
  y ← readQPICounters (set_counters a.2 SystemCounterState_init);
  y ← readAndAggregateCXLCMCounters y;
  mret (MkAggregator ccs a.1 y).

End Code.
