(* ===== verification/Json.v ===== *)
(** JSON documents (RFC 8259): the text the sensor server gives them, and a reader of that
    text.

    [json_text] is the specification of the layout of [JSONPrinter]
    ([src/src/pcm-sensor-server.cpp]): a member or an element on a line of its own, two blanks
    a level, the lines ended by carriage return and line feed. [read_json] reads the grammar of the
    standard, with any white space and without the escapes of strings, and is independent of
    the layout; [parse_json_text] is the round trip. *)

From S2P Require Import Prelude CxxString Http Doubles.
Local Open Scope Z_scope.

Inductive json :=
  | JString (s : str)
  | JNumber (lexeme : str)
  | JArray (l : list json)
  | JObject (l : list (str * json)).

(** The induction principle with the hypotheses on the components. *)
Lemma json_nested_ind (P : json -> Prop) :
  (forall s, P (JString s)) -> (forall s, P (JNumber s)) ->
  (forall l, Forall P l -> P (JArray l)) -> (forall l, Forall (fun m : str * json => P m.2) l -> P (JObject l)) ->
  forall v, P v.
Proof.
  intros HS HN HA HO. fix IH 1. intros [s|s|l|l]; [done|done|apply HA|apply HO].
  - induction l; constructor; [apply IH|done].
  - induction l; constructor; [apply IH|done].
Qed.

(** * The grammar *)

Definition is_ws (c : ascii) : bool := existsb (Ascii.eqb c) [" "%char; HTAB; LF; CR].

(** Characters of strings that need no escape; the others are not read. *)
Definition plain_char (c : ascii) : bool :=
  in_range " " "~" c && negb (Ascii.eqb c DQUOTE) && negb (Ascii.eqb c "\"%char).

Definition plain_text (s : str) : bool := forallb plain_char s.

Fixpoint span (p : ascii -> bool) (s : str) : str * str :=
  match s with
  | c :: s' => if p c then let '(a, b) := span p s' in (c :: a, b) else ([], s)
  | [] => ([], [])
  end.

Definition nonempty (s : str) : bool := match s with [] => false | _ => true end.

(** [0], or digits that do not start with one. *)
Definition int_part (s : str) : bool :=
  match s with
  | [] => false
  | [c] => isdigit c
  | c :: s' => in_range "1" "9" c && forallb isdigit s'
  end.

Definition exponent (s : str) : bool :=
  match s with
  | [] => true
  | c :: s' =>
      existsb (Ascii.eqb c) ["e"%char; "E"%char] &&
      (let digits := match s' with d :: s'' => if existsb (Ascii.eqb d) ["+"%char; "-"%char] then s'' else s' | [] => [] end in
       nonempty digits && forallb isdigit digits)
  end.

Definition json_number (s : str) : bool :=
  let s := match s with c :: s' => if Ascii.eqb c "-"%char then s' else s | [] => [] end in
  let '(int, rest) := span isdigit s in
  int_part int &&
  match rest with
  | c :: rest' =>
      if Ascii.eqb c "."%char then let '(frac, e) := span isdigit rest' in nonempty frac && exponent e
      else exponent rest
  | [] => true
  end.

Definition number_char (c : ascii) : bool :=
  isdigit c || existsb (Ascii.eqb c) ["-"%char; "+"%char; "."%char; "e"%char; "E"%char].

(** * The reader *)

Definition skip_ws (s : str) : str := (span is_ws s).2.

(** What follows the opening quote. *)
Definition parse_string (s : str) : option (str * str) :=
  let '(a, r) := span plain_char s in
  match r with c :: r => if Ascii.eqb c DQUOTE then Some (a, r) else None | [] => None end.

Definition parse_number (s : str) : option (json * str) :=
  let '(a, r) := span number_char s in if json_number a then Some (JNumber a, r) else None.

Section Items.

Context {A : Type} (item : str -> option (A * str)) (close : ascii).

(** Items separated by commas up to the closing character. *)
Fixpoint parse_items (fuel : nat) (s : str) : option (list A * str) :=
  match fuel with
  | O => None
  | S fuel =>
      '(a, r) ← item s;
      match skip_ws r with
      | c :: r =>
          if Ascii.eqb c ","%char then '(l, r) ← parse_items fuel r; Some (a :: l, r)
          else if Ascii.eqb c close then Some ([a], r)
          else None
      | [] => None
      end
  end.

(** What follows the opening character. *)
Definition parse_group (fuel : nat) (s : str) : option (list A * str) :=
  match skip_ws s with
  | c :: r => if Ascii.eqb c close then Some ([], r) else parse_items fuel s
  | [] => None
  end.

End Items.

Definition parse_member (value : str -> option (json * str)) (s : str) : option (str * json * str) :=
  match skip_ws s with
  | c :: r =>
      if Ascii.eqb c DQUOTE then
        '(name, r) ← parse_string r;
        match skip_ws r with
        | c :: r => if Ascii.eqb c ":"%char then '(v, r) ← value r; Some (name, v, r) else None
        | [] => None
        end
      else None
  | [] => None
  end.

Fixpoint parse_value (fuel : nat) (s : str) : option (json * str) :=
  match fuel with
  | O => None
  | S fuel =>
      match skip_ws s with
      | c :: r =>
          if Ascii.eqb c DQUOTE then '(a, r) ← parse_string r; Some (JString a, r)
          else if Ascii.eqb c "["%char then '(l, r) ← parse_group (parse_value fuel) "]"%char fuel r; Some (JArray l, r)
          else if Ascii.eqb c "{"%char then '(l, r) ← parse_group (parse_member (parse_value fuel)) "}"%char fuel r; Some (JObject l, r)
          else parse_number (c :: r)
      | [] => None
      end
  end.

(** A whole text. *)
Definition read_json (s : str) : option json :=
  '(v, r) ← parse_value (S (length s)) s;
  match skip_ws r with [] => Some v | _ :: _ => None end.

(** * The layout *)

(** [n] levels of two blanks. *)
Definition indent_text (n : nat) : str := concat (replicate n (lit "  ")).

Definition quoted (s : str) : str := DQUOTE :: s ++ [DQUOTE].

(** The name of a member, which the elements of lists do not have. *)
Definition label (name : str) : str := quoted name ++ lit " : ".

(** Lines with a comma between one and the next. *)
Fixpoint joined (l : list str) : str :=
  match l with
  | [] => []
  | [x] => x ++ HTTP_EOL
  | x :: l => x ++ lit "," ++ HTTP_EOL ++ joined l
  end.

Fixpoint json_text (n : nat) (v : json) : str :=
  match v with
  | JString s => quoted s
  | JNumber s => s
  | JArray l => lit "[" ++ HTTP_EOL ++ joined (map (fun v => indent_text (S n) ++ json_text (S n) v) l) ++ indent_text n ++ lit "]"
  | JObject l =>
      lit "{" ++ HTTP_EOL ++ joined (map (fun m => indent_text (S n) ++ label m.1 ++ json_text (S n) m.2) l) ++ indent_text n ++ lit "}"
  end.

(** A document whose names and strings need no escapes and whose numbers are numbers. *)
Fixpoint json_ok (v : json) : bool :=
  match v with
  | JString s => plain_text s
  | JNumber s => json_number s
  | JArray l => forallb json_ok l
  | JObject l => forallb (fun m => plain_text m.1 && json_ok m.2) l
  end.

Definition example_document : json :=
  JObject [(lit "a", JNumber (lit "-1.500")); (lit "b", JArray [JObject []; JArray []; JString (lit "x y")])].

Example parse_examples :
  read_json (json_text 0 example_document ++ HTTP_EOL) = Some example_document /\
  map read_json (map lit ["[nan]"; "[01]"; "[1,]"; "[1 2]"; "{1}"; "[-0.5e+3, 0]"]%string) =
    [None; None; None; None; None; Some (JArray [JNumber (lit "-0.5e+3"); JNumber (lit "0")])].
Proof. vm_compute. split; reflexivity. Qed.

(** * Reading what was printed *)

Lemma span_app p a b : forallb p a = true -> (forall c r, b = c :: r -> p c = false) -> span p (a ++ b) = (a, b).
Proof.
  induction a as [|c a IH]; simpl; intros Ha Hb.
  - destruct b as [|c r]; [done|]. simpl. by rewrite (Hb c r).
  - apply andb_true_iff in Ha as [-> Ha]. by rewrite IH.
Qed.

Lemma span_eq p s a b : span p s = (a, b) -> s = a ++ b /\ forallb p a = true.
Proof.
  revert a b. induction s as [|c s IH]; simpl; intros a b; [by intros [= <- <-]|].
  destruct (p c) eqn:E; [|by intros [= <- <-]]. destruct (span p s) as [a' b']. intros [= <- <-].
  destruct (IH a' b' eq_refl) as [-> H]. split; [done|]. simpl. by rewrite E.
Qed.

Lemma forallb_impl {A} (p q : A -> bool) l : (forall x, p x = true -> q x = true) -> forallb p l = true -> forallb q l = true.
Proof. rewrite !forallb_forall. auto. Qed.

Lemma chars_imp (p q : ascii -> bool) :
  forallb (fun c => negb (p c) || q c) all_chars = true -> forall c, p c = true -> q c = true.
Proof. intros H c Hc. pose proof (forall_chars _ H c) as E. simpl in E. by rewrite Hc in E. Qed.

(** An implication between two tests of a character, checked on all of them. *)
Ltac by_chars c :=
  match goal with
  | |- ?a = true -> ?b = true =>
      let a' := eval pattern c in a in let b' := eval pattern c in b in
      match a' with ?p _ => match b' with ?q _ => exact (chars_imp p q ltac:(vm_compute; reflexivity) c) end end
  end.

(** The characters of numbers are number characters. *)
Lemma number_chars s : json_number s = true -> forallb number_char s = true.
Proof.
  assert (Hd : forall l, forallb isdigit l = true -> forallb number_char l = true).
  { intros l. apply forallb_impl. intros c H. unfold number_char. by rewrite H. }
  assert (He : forall l, exponent l = true -> forallb number_char l = true).
  { intros [|c l]; [done|]. cbn [exponent forallb]. rewrite andb_true_iff. intros [Hc H].
    assert (number_char c = true) as -> by (revert Hc; by_chars c).
    destruct l as [|d l]; [done|]. destruct (existsb (Ascii.eqb d) _) eqn:E; rewrite andb_true_iff in H; destruct H as [_ H].
    - cbn [forallb]. rewrite (Hd l), andb_true_r by done. revert E. by_chars d.
    - by apply Hd. }
  assert (Hi : forall l, (let '(int, rest) := span isdigit l in int_part int &&
      match rest with c :: rest' => if Ascii.eqb c "."%char then let '(frac, e) := span isdigit rest' in nonempty frac && exponent e else exponent rest | [] => true end) = true ->
    forallb number_char l = true).
  { intros l. destruct (span isdigit l) as [int rest] eqn:E. apply span_eq in E as [-> Hint].
    rewrite andb_true_iff, forallb_app, Hd by done. intros [_ H]. destruct rest as [|c r]; [done|].
    destruct (Ascii.eqb_spec c "."%char) as [->|]; [|by apply He]. destruct (span isdigit r) as [frac e] eqn:E2.
    apply span_eq in E2 as [-> Hf]. apply andb_true_iff in H as [_ H]. cbn [forallb]. by rewrite forallb_app, (Hd frac), (He e). }
  unfold json_number. destruct s as [|c s]; [done|]. destruct (Ascii.eqb_spec c "-"%char) as [->|]; intros H; [|by apply Hi].
  simpl. by apply Hi.
Qed.

(** A rest that ends a number. *)
Definition stops (r : str) : Prop := forall c r', r = c :: r' -> number_char c = false.

Lemma parse_number_app s r : json_number s = true -> stops r -> parse_number (s ++ r) = Some (JNumber s, r).
Proof. intros Hs Hr. unfold parse_number. by rewrite span_app, Hs by (done || by apply number_chars). Qed.

Lemma skip_ws_app a s : forallb is_ws a = true -> skip_ws (a ++ s) = skip_ws s.
Proof. unfold skip_ws. induction a as [|c a IH]; simpl; [done|]. rewrite andb_true_iff. intros [-> Ha]. rewrite <- IH by done. by destruct (span _ (a ++ s)). Qed.

Lemma skip_ws_here c s : is_ws c = false -> skip_ws (c :: s) = c :: s.
Proof. unfold skip_ws. simpl. by intros ->. Qed.

Lemma indent_ws n : forallb is_ws (indent_text n) = true.
Proof. induction n; [done|]. unfold indent_text in *. cbn [replicate concat]. by rewrite forallb_app, IHn. Qed.

Lemma parse_string_app s r : plain_text s = true -> parse_string (s ++ DQUOTE :: r) = Some (s, r).
Proof.
  intros Hs. unfold parse_string. rewrite span_app; [done|done|]. by intros c r' [= <- <-].
Qed.

(** The first character of a rendered value, which is not white space. *)
Lemma number_front s : json_number s = true -> exists c s', s = c :: s' /\ number_char c = true.
Proof. intros H. pose proof (number_chars s H) as H0. destruct s as [|c s]; [done|]. exists c, s. split; [done|]. by apply andb_prop in H0 as [? _]. Qed.

Lemma number_char_class c : number_char c = true ->
  is_ws c = false /\ Ascii.eqb c DQUOTE = false /\ Ascii.eqb c "["%char = false /\ Ascii.eqb c "{"%char = false.
Proof.
  intros H. assert ((negb (is_ws c) && negb (Ascii.eqb c DQUOTE) && negb (Ascii.eqb c "["%char) && negb (Ascii.eqb c "{"%char)) = true) as E by (revert H; by_chars c).
  rewrite !andb_true_iff, !negb_true_iff in E. by destruct E as [[[? ?] ?] ?].
Qed.

Section Joined.

Context {A : Type} (item : str -> option (A * str)) (close : ascii) (text : A -> str).
Context (Hclose : is_ws close = false) (Hcomma : Ascii.eqb close ","%char = false).

(** Reading lines that are joined, when every line is read. *)
Lemma parse_items_joined l fuel ws r :
  l <> [] -> (length l <= fuel)%nat -> forallb is_ws ws = true ->
  (forall a r, a ∈ l -> stops r -> item (text a ++ r) = Some (a, r)) ->
  (forall s s', forallb is_ws s = true -> item (s ++ s') = item s') ->
  parse_items item close fuel (joined (map text l) ++ ws ++ close :: r) = Some (l, r).
Proof.
  intros Hl Hf Hws Hitem Hskip. revert fuel Hf. induction l as [|a l IH]; intros fuel Hf; [done|].
  destruct fuel as [|fuel]; [simpl in Hf; lia|]. cbn [parse_items].
  destruct l as [|b l].
  - cbn [map joined]. rewrite <- !app_assoc, Hitem by (by left || by intros c r' [= <- _]). cbn [mbind option_bind].
    rewrite skip_ws_app by done. rewrite skip_ws_app, skip_ws_here by done. by rewrite Hcomma, Ascii.eqb_refl.
  - change (joined (map text (a :: b :: l))) with (text a ++ lit "," ++ HTTP_EOL ++ joined (map text (b :: l))).
    rewrite <- !app_assoc, Hitem by (by left || by intros c r' [= <- _]). cbn [mbind option_bind].
    change (lit "," ++ ?x) with (","%char :: x). rewrite skip_ws_here by done. rewrite Ascii.eqb_refl.
    assert (parse_items item close fuel (HTTP_EOL ++ joined (map text (b :: l)) ++ ws ++ close :: r) =
            parse_items item close fuel (joined (map text (b :: l)) ++ ws ++ close :: r)) as ->.
    { destruct fuel; [done|]. cbn [parse_items]. by rewrite Hskip. }
    rewrite IH by (done || (simpl in *; lia) || (intros; apply Hitem; [by right|done])). done.
Qed.

Lemma parse_group_joined l fuel ws r :
  (length l <= fuel)%nat -> forallb is_ws ws = true ->
  (forall a r, a ∈ l -> stops r -> item (text a ++ r) = Some (a, r)) ->
  (forall s s', forallb is_ws s = true -> item (s ++ s') = item s') ->
  (forall a, a ∈ l -> exists s c r, text a = s ++ c :: r /\ forallb is_ws s = true /\ is_ws c = false /\ Ascii.eqb c close = false) ->
  parse_group item close fuel (HTTP_EOL ++ joined (map text l) ++ ws ++ close :: r) = Some (l, r).
Proof.
  intros Hf Hws Hitem Hskip Hfront. unfold parse_group. rewrite skip_ws_app by done. destruct l as [|a l].
  - cbn [map joined app]. rewrite skip_ws_app, skip_ws_here by done. by rewrite Ascii.eqb_refl.
  - assert (exists s', joined (map text (a :: l)) = text a ++ s') as [s' E] by (destruct l; simpl; eauto).
    destruct (Hfront a ltac:(by left)) as (s & c & t & Ht & Hs & Hc & Hcl). rewrite E at 1. rewrite Ht, <- !app_assoc.
    rewrite skip_ws_app by done. rewrite <- app_comm_cons, skip_ws_here by done. rewrite Hcl.
    assert (parse_items item close fuel (HTTP_EOL ++ joined (map text (a :: l)) ++ ws ++ close :: r) =
            parse_items item close fuel (joined (map text (a :: l)) ++ ws ++ close :: r)) as ->.
    { destruct fuel; [done|]. cbn [parse_items]. by rewrite Hskip. }
    by apply parse_items_joined.
Qed.

End Joined.

(** Fuel that is enough: the number of nodes and items. *)
Fixpoint weight (v : json) : nat :=
  match v with
  | JString _ | JNumber _ => 1
  | JArray l => S (list_sum (map (fun v => S (weight v)) l))
  | JObject l => S (list_sum (map (fun m => S (weight m.2)) l))
  end.

Lemma list_sum_length {A} (f : A -> nat) l : (length l <= list_sum (map (fun x => S (f x)) l))%nat.
Proof. induction l; simpl; lia. Qed.

Lemma list_sum_elem {A} (f : A -> nat) l x : x ∈ l -> (f x <= list_sum (map f l))%nat.
Proof. induction 1; simpl; lia. Qed.

Lemma parse_value_skip fuel a s : forallb is_ws a = true -> parse_value fuel (a ++ s) = parse_value fuel s.
Proof. intros H. destruct fuel; [done|]. cbn [parse_value]. by rewrite skip_ws_app. Qed.

Lemma parse_member_skip value a s : forallb is_ws a = true -> parse_member value (a ++ s) = parse_member value s.
Proof. intros H. unfold parse_member. by rewrite skip_ws_app. Qed.

Lemma json_text_front n v : json_ok v = true -> exists c s, json_text n v = c :: s /\ is_ws c = false /\
  Ascii.eqb c "]"%char = false.
Proof.
  destruct v as [s|s|l|l]; simpl; intros H; try (eexists _, _; split; [reflexivity|done]).
  destruct (number_front s H) as (c & s' & -> & Hc). exists c, s'. split; [done|].
  assert ((negb (is_ws c) && negb (Ascii.eqb c "]"%char)) = true) as E by (revert Hc; by_chars c).
  rewrite andb_true_iff, !negb_true_iff in E. done.
Qed.

Lemma parse_value_json_text v : forall n fuel r, json_ok v = true -> (weight v <= fuel)%nat -> stops r ->
  parse_value fuel (json_text n v ++ r) = Some (v, r).
Proof.
  induction v as [s|s|l IH|l IH] using json_nested_ind; intros n fuel r Hw Hf Hr; (destruct fuel as [|fuel]; [simpl in Hf; lia|]); cbn [parse_value].
  - cbn [json_text]. unfold quoted. cbn [app]. rewrite skip_ws_here by done. rewrite Ascii.eqb_refl, <- app_assoc. cbn [app].
    by rewrite parse_string_app.
  - cbn [json_text]. simpl in Hw. destruct (number_front s Hw) as (c & s' & E & Hc). rewrite E. cbn [app].
    destruct (number_char_class c Hc) as (H1 & H2 & H3 & H4). rewrite skip_ws_here, H2, H3, H4 by done.
    rewrite app_comm_cons, <- E. by apply parse_number_app.
  - cbn [json_text]. cbn [weight] in Hf. cbn [json_ok] in Hw. rewrite forallb_forall in Hw. rewrite Forall_forall in IH.
    pose proof (list_sum_length weight l). rewrite <- !app_assoc.
    change (lit "[" ++ ?x) with ("["%char :: x). rewrite skip_ws_here by done.
    change (Ascii.eqb "[" DQUOTE) with false. rewrite Ascii.eqb_refl. cbv iota.
    change (lit "]" ++ r) with ("]"%char :: r). rewrite parse_group_joined; [done|done|done|lia|apply indent_ws| | |].
    + intros a r' Ha Hr'. rewrite <- app_assoc, parse_value_skip by apply indent_ws.
      pose proof (list_sum_elem (fun v => S (weight v)) l a Ha) as Hsum. cbv beta in Hsum. apply IH; [done|apply Hw; by apply list_elem_of_In|lia|done].
    + intros a s Ha. by apply parse_value_skip.
    + intros a Ha. destruct (json_text_front (S n) a) as (c & t & E & H1 & H2); [apply Hw; by apply list_elem_of_In|].
      exists (indent_text (S n)), c, t. rewrite E. split_and!; [done|apply indent_ws|done|done].
  - cbn [json_text]. cbn [weight] in Hf. cbn [json_ok] in Hw. rewrite forallb_forall in Hw. rewrite Forall_forall in IH.
    pose proof (list_sum_length (fun m => weight m.2) l). rewrite <- !app_assoc.
    change (lit "{" ++ ?x) with ("{"%char :: x). rewrite skip_ws_here by done.
    change (Ascii.eqb "{" DQUOTE) with false. change (Ascii.eqb "{" "[") with false. rewrite Ascii.eqb_refl. cbv iota.
    change (lit "}" ++ r) with ("}"%char :: r). rewrite parse_group_joined; [done|done|done|lia|apply indent_ws| | |].
    + intros [name v] r' Ha Hr'. rewrite <- app_assoc, parse_member_skip by apply indent_ws.
      specialize (Hw _ (proj1 (list_elem_of_In _ _) Ha)) as Hw'. simpl in Hw'. apply andb_true_iff in Hw' as [Hn Hv].
      pose proof (list_sum_elem (fun m : str * json => S (weight m.2)) l _ Ha) as Hsum. cbn [snd] in Hsum.
      unfold parse_member, label, quoted. cbn [fst snd app]. rewrite skip_ws_here by done. rewrite Ascii.eqb_refl, <- !app_assoc. cbn [app].
      rewrite parse_string_app by done. cbn [mbind option_bind].
      change (lit " : " ++ ?x) with (lit " " ++ ":"%char :: lit " " ++ x). rewrite skip_ws_app, skip_ws_here by done. rewrite Ascii.eqb_refl.
      rewrite parse_value_skip by done. rewrite (IH _ Ha) by (done || (cbn [snd]; lia)). done.
    + intros a s Ha. by apply parse_member_skip.
    + intros a Ha. exists (indent_text (S n)), DQUOTE. eexists. split_and!; [reflexivity|apply indent_ws|done|done].
Qed.

Lemma joined_length l : (list_sum (map (fun x => S (length x)) l) <= length (joined l))%nat.
Proof.
  induction l as [|a l IH]; [done|]. destruct l as [|b l]; cbn [joined map list_sum foldr] in *; rewrite !length_app; simpl in *; lia.
Qed.

Lemma weight_le_length v : forall n, (json_ok v = true -> weight v <= length (json_text n v))%nat.
Proof.
  induction v as [s|s|l IH|l IH] using json_nested_ind; intros n Hw.
  - simpl. lia.
  - simpl in *. destruct (number_front s Hw) as (? & ? & -> & _). simpl. lia.
  - cbn [json_text weight]. rewrite !length_app. pose proof (joined_length (map (fun v => indent_text (S n) ++ json_text (S n) v) l)) as H.
    rewrite map_map in H. simpl in Hw. rewrite forallb_forall in Hw. rewrite Forall_forall in IH.
    assert (list_sum (map (fun v => S (weight v)) l) <= list_sum (map (fun x => S (length (indent_text (S n) ++ json_text (S n) x))) l))%nat; [|change (length (lit "[")) with 1%nat; lia].
    clear H. induction l as [|a l IHl]; [done|]. cbn [map list_sum foldr]. rewrite length_app.
    pose proof (IH a ltac:(by left) (S n) (Hw a ltac:(by left))).
    specialize (IHl ltac:(intros; apply IH; [by right|done]) ltac:(intros; apply Hw; by right)). unfold list_sum in IHl. lia.
  - cbn [json_text weight]. rewrite !length_app. pose proof (joined_length (map (fun m => indent_text (S n) ++ label m.1 ++ json_text (S n) m.2) l)) as H.
    rewrite map_map in H. simpl in Hw. rewrite forallb_forall in Hw. rewrite Forall_forall in IH.
    assert (list_sum (map (fun m => S (weight m.2)) l) <= list_sum (map (fun m => S (length (indent_text (S n) ++ label m.1 ++ json_text (S n) m.2))) l))%nat; [|change (length (lit "{")) with 1%nat; lia].
    clear H. induction l as [|a l IHl]; [done|]. cbn [map list_sum foldr]. rewrite !length_app.
    pose proof (IH a ltac:(by left) (S n) (proj2 (andb_prop _ _ (Hw a ltac:(by left))))).
    specialize (IHl ltac:(intros; apply IH; [by right|done]) ltac:(intros; apply Hw; by right)). unfold list_sum in IHl. lia.
Qed.

Lemma parse_json_text n v ws : json_ok v = true -> forallb is_ws ws = true -> read_json (json_text n v ++ ws) = Some v.
Proof.
  intros Hw Hws. unfold read_json. rewrite parse_value_json_text; [| done | |].
  - cbn [mbind option_bind]. rewrite <- (app_nil_r ws), skip_ws_app by done. done.
  - pose proof (weight_le_length v n Hw). rewrite length_app. lia.
  - intros c r ->. simpl in Hws. apply andb_true_iff in Hws as [Hc _].
    apply negb_true_iff. revert Hc. by_chars c.
Qed.

(** * Numbers the printers write *)

Lemma decimal_int_part fuel n : 0 <= n < 10 ^ Z.of_nat fuel -> (0 < fuel)%nat -> int_part (decimal fuel n) = true.
Proof.
  intros Hn Hf. enough (forall fuel n, 0 < n < 10 ^ Z.of_nat fuel -> exists c s, decimal fuel n = c :: s /\ in_range "1" "9" c = true) as H.
  { destruct (Z.eq_dec n 0) as [->|Hz]; [destruct fuel; [lia|done]|].
    destruct (H fuel n) as (c & s & E & Hc); [lia|]. pose proof (decimal_digits fuel n ltac:(lia)) as Hd. rewrite E in Hd |- *.
    simpl in Hd. apply andb_true_iff in Hd as [Hd1 Hd2]. destruct s; [done|]. simpl in *. by rewrite Hc. }
  clear. induction fuel as [|fuel IH]; intros n Hn; [simpl in Hn; lia|].
  rewrite Nat2Z.inj_succ, Z.pow_succ_r in Hn by lia. cbn [decimal]. destruct (Z.ltb_spec n 10).
  - exists (byte (48 + n)), []. split; [done|]. unfold in_range. rewrite !code_byte by lia. change (code "1") with 49. change (code "9") with 57. lia.
  - destruct (IH (n / 10)) as (c & s & -> & Hc); [Z.div_mod_to_equations; lia|]. eexists c, _. by split.
Qed.

Lemma integer_digits_int n : 0 <= n -> int_part (integer_digits n) = true.
Proof.
  intros Hn. apply decimal_int_part; [|lia]. split; [done|]. rewrite Nat2Z.inj_succ, Z2Nat.id by apply Z.log2_nonneg.
  destruct (Z.eq_dec n 0) as [->|]; [done|]. eapply Z.lt_le_trans; [apply Z.log2_spec; lia|]. apply Z.pow_le_mono_l; lia.
Qed.

Lemma integer_number n : 0 <= n -> json_number (integer_digits n) = true.
Proof.
  intros Hn. unfold json_number. pose proof (integer_digits_int n Hn) as Hi.
  pose proof (decimal_digits (S (Z.to_nat (Z.log2 n))) n Hn) as Hd. fold (integer_digits n) in Hd.
  destruct (integer_digits n) as [|c s] eqn:E; [done|].
  destruct (Ascii.eqb_spec c "-"%char) as [->|]; [done|]. rewrite <- (app_nil_r (c :: s)), span_app by done. by rewrite Hi.
Qed.

(** An integer in a stream. *)
Definition show_int (n : Z) : str := if n <? 0 then lit "-" ++ integer_digits (- n) else integer_digits n.

(** A sign does not matter, unless one is there. *)
Lemma signed_number b s : json_number s = true -> (forall s', s <> "-"%char :: s') ->
  json_number ((if b : bool then lit "-" else []) ++ s) = true.
Proof.
  intros H Hs. destruct b; [|done]. revert H. unfold json_number. destruct s as [|c s]; [done|].
  destruct (Ascii.eqb_spec c "-"%char) as [->|]; [by destruct (Hs s)|]. done.
Qed.

Lemma decimal_no_sign fuel n s : 0 <= n -> decimal fuel n <> "-"%char :: s.
Proof. intros Hn E. pose proof (decimal_digits fuel n Hn) as H. by rewrite E in H. Qed.

Lemma show_int_number n : json_number (show_int n) = true.
Proof.
  unfold show_int. destruct (Z.ltb_spec n 0); [|apply integer_number; lia].
  apply (signed_number true); [apply integer_number; lia|]. intros s. apply decimal_no_sign. lia.
Qed.

Lemma three_digits_digits n : 0 <= n -> forallb isdigit (three_digits n) = true.
Proof.
  intros Hn. apply forallb_forall. intros c. unfold three_digits. rewrite in_map_iff. intros (k & <- & _).
  pose proof (Z.mod_pos_bound (n / k) 10). unfold isdigit, in_range. rewrite code_byte by lia.
  change (code "0") with 48. change (code "9") with 57. lia.
Qed.

Lemma scaled_nonneg m e k : 0 <= k -> 0 <= scaled m e k.
Proof.
  intros Hk. unfold scaled. destruct (Z.leb_spec 0 e).
  - assert (0 < 2 ^ e) by (apply Z.pow_pos_nonneg; lia). nia.
  - apply Z.div_pos; [nia|]. apply Z.pow_pos_nonneg; lia.
Qed.

Lemma thousandths_nonneg m e : 0 <= thousandths m e.
Proof.
  unfold thousandths. pose proof (scaled_nonneg m e 1000 ltac:(lia)). destruct (0 <=? e); [done|]. destruct (_ || _); lia.
Qed.

(** A finite double in a stream is a JSON number. *)
Lemma fixed3_number nan_text x : finite x = true -> json_number (fixed_text nan_text x) = true.
Proof.
  destruct x as [s| | |s m e]; try done; intros _; cbn [fixed_text]; [by destruct s|].
  pose proof (thousandths_nonneg m e) as Ht. set (t := thousandths m e) in *.
  assert (Hq : 0 <= t / 1000) by (apply Z.div_pos; lia).
  set (d := integer_digits (t / 1000)). set (r := three_digits (t mod 1000)).
  assert (Hr : forallb isdigit r = true) by (apply three_digits_digits, Z.mod_pos_bound; lia).
  assert (Hd : int_part d = true) by (by apply integer_digits_int).
  assert (Hds : forallb isdigit d = true) by (by apply decimal_digits).
  apply signed_number.
  - unfold json_number. destruct d as [|c d'] eqn:E; [done|]. cbn [app]. destruct (Ascii.eqb_spec c "-"%char) as [->|]; [done|].
    rewrite app_comm_cons, span_app; [|done|by intros ? ? [= <- _]]. rewrite Hd. change (lit "." ++ r) with ("."%char :: r).
    cbn [andb]. rewrite Ascii.eqb_refl. rewrite <- (app_nil_r r), span_app by done. done.
  - intros s' E. destruct d as [|c d']; [done|]. injection E as -> _. done.
Qed.

(** Digits need no escapes. *)
Lemma decimal_plain fuel n : 0 <= n -> plain_text (decimal fuel n) = true.
Proof. intros Hn. eapply forallb_impl; [|by apply (decimal_digits fuel n)]. intros c. by_chars c. Qed.

Lemma plain_app a b : plain_text (a ++ b) = plain_text a && plain_text b.
Proof. apply forallb_app. Qed.
