(* ===== verification/Metrics.v ===== *)
(** The metrics of [src/src/cpucounters.h] that are doubles: frequencies, residencies, joules,
    ratios, top-down shares and the use of the links; with the counts of accelerators of
    [src/src/pcm-accel-common.cpp]. The counts that are integers are in [CounterState].

    The lemmas at the end say when a metric is a number: the time stamp must have advanced,
    and the configuration must have a frequency, cores, sockets and links that are not zero.
    A failed assertion stops the program, which is an error of the model here. *)

From S2P Require Import Prelude CxxString Bits CpuModels Capabilities CounterState Bandwidth Sampling Doubles.
Local Open Scope Z_scope.

(** What the metrics read of PCM. *)
Record pcm_metrics := PcmMetrics {
  pm_flags : pcm_flags;
  pm_HWTMAL1 : bool;                        (** [isHWTMAL1Supported()] *)
  pm_uncoreFrequency : bool;                (** [uncoreFrequencyMetricAvailable()] *)
  pm_energy_unit : option energy_unit;      (** [joulesPerEnergyUnit], 0 before it is read *)
  pm_nominal_frequency : Z;
  pm_num_sockets : Z;
  pm_online_cores : Z;
  pm_online_sockets : Z;
  pm_qpi_speed : list (list Z);             (** socket, link: [qpi_speed] of the servers *)
  pm_max_qpi_speed : Z
}.

(** The counters of accelerators. *)
Record accel_counter := AccelCounter { v_event_name : str; multiplier : Z; divider : Z }.

Record accel_state := AccelState {
  ac_accel : Z;                             (** [PCM::accel] *)
  ac_ctx_accel : Z;                         (** [evt_ctx.accel] *)
  ac_devs : Z;                              (** [getNumOfAccelDevs()] *)
  ac_ctrs : list accel_counter              (** [evt_ctx.ctrs] *)
}.

Definition ACCEL_NOCONFIG : Z := 4.

Section Metrics.

Context (pm : pcm_metrics).

(** What the conversion of a double outside the range of the integer type yields, which the
    language leaves open. *)
Context (undefined_int undefined_u64 : double -> Z).

Let cpu := model (pm_flags pm).

Definition int_of (x : double) : Z := default (undefined_int x) (to_Z (- 2 ^ 31) (2 ^ 31 - 1) x).
Definition u64_of (x : double) : Z := default (undefined_u64 x) (to_Z 0 (2 ^ 64 - 1) x).

(** [int(100. * x)] *)
Definition percent (x : double) : Z := int_of (dmul (of_Z 100) x).

Definition minus_one : double := of_Z (-1).

(** * Frequencies *)

Definition frequency_ratio (clocks timer : Z) : double :=
  ddiv (dmul (of_Z (pm_nominal_frequency pm)) (of_Z clocks)) (of_Z timer).

Definition getAverageFrequencyFromClocks (clocks : Z) (before after : BasicCounterState) : double :=
  let timer_clocks := i64 (InvariantTSC after - InvariantTSC before) in
  if negb (timer_clocks =? 0) then frequency_ratio clocks timer_clocks else minus_one.

Definition getActiveAverageFrequency (before after : BasicCounterState) : double :=
  let clocks := i64 (getCycles before after) in
  let ref_clocks := i64 (getRefCycles before after) in
  if negb (ref_clocks =? 0) then frequency_ratio clocks ref_clocks else minus_one.

Definition getUncoreFrequency (state : UncoreCounterState) : list double :=
  map (fun e => dmul (of_Z (extract_bits e 0 6)) (of_Z 100000000)) (UFSStatus state).

Definition getAverageUncoreFrequency (before after : SocketCounterState) : double :=
  ddiv (dmul (of_Z (pm_online_cores pm))
          (getAverageFrequencyFromClocks (i64 (u64_sub (UncClocks (uncore after)) (UncClocks (uncore before)))) (basic before) (basic after)))
    (of_Z (pm_online_sockets pm)).

Definition getUncoreFrequencies (before after : SocketCounterState) : list double :=
  getUncoreFrequency (uncore after) ++ (if pm_uncoreFrequency pm then [getAverageUncoreFrequency before after] else []).

(** * Residencies *)

Definition tsc_delta (before after : BasicCounterState) : double := of_Z (getInvariantTSC before after).

(** [result -= (after[i] - before[i]) / tsc] for the states [first] to [MAX_C_STATE]. *)
Definition subtract_residencies (first : nat) (before after : list Z) (tsc result : double) : double :=
  foldl (fun result i => dsub result (ddiv (of_Z (u64_sub (nth i after 0) (nth i before 0))) tsc)) result (seq first (11 - first)).

(** The corrections of counters that are not in step. *)
Definition clamp (result : double) : double :=
  if dlt result (of_Z 0) then of_Z 0 else if dlt (of_Z 1) result then of_Z 1 else result.

(** The loop asks whether the state of the argument is supported, which state 1 is. *)
Definition getCoreCStateResidency (state : nat) (before after : BasicCounterState) : double :=
  let tsc := tsc_delta before after in
  let active := ddiv (of_Z (getRefCycles before after)) tsc in
  match state with
  | 0%nat => active
  | 1%nat => clamp (subtract_residencies 2 (CoreCStateResidency before) (CoreCStateResidency after) tsc (dsub (of_Z 1) active))
  | _ => ddiv (of_Z (u64_sub (nth state (CoreCStateResidency after) 0) (nth state (CoreCStateResidency before) 0))) tsc
  end.

Definition getPackageCStateResidency (state : nat) (before after : SocketCounterState) : double :=
  let tsc := tsc_delta (basic before) (basic after) in
  let b := PackageCStateResidency (uncore before) in
  let a := PackageCStateResidency (uncore after) in
  match state with
  | 0%nat => clamp (subtract_residencies 1 b a tsc (of_Z 1))
  | _ => ddiv (of_Z (u64_sub (nth state a 0) (nth state b 0))) tsc
  end.

(** The raw counters, which have the same names. *)
Definition getCoreCStateResidency_raw (state : nat) (now : BasicCounterState) : Z :=
  match state with
  | 0%nat => getRawData_NoOverflowProtection (CpuClkUnhaltedRef now)
  | _ => nth state (CoreCStateResidency now) 0
  end.
Definition getPackageCStateResidency_raw (state : nat) (now : UncoreCounterState) : Z := nth state (PackageCStateResidency now) 0.

(** * Energy *)

Definition getJoulesPerEnergyUnit : double :=
  match pm_energy_unit pm with
  | Some (MicroJoules u) => ddiv (of_Z (u64 (Z.shiftl 1 u))) (of_Z 1000000)
  | Some (JoulesFraction u) => ddiv (of_Z 1) (of_Z (u64 (Z.shiftl 1 u)))
  | None => of_Z 0
  end.

Definition getConsumedJoules (before after : UncoreCounterState) : double :=
  dmul (of_Z (getConsumedEnergy before after)) getJoulesPerEnergyUnit.
Definition getConsumedJoules_pp (powerPlane : nat) (before after : UncoreCounterState) : double :=
  dmul (of_Z (getConsumedEnergy_pp powerPlane before after)) getJoulesPerEnergyUnit.

(** [0.0000153] for DRAM of the servers. *)
Definition getDRAMConsumedJoules (before after : UncoreCounterState) : double :=
  dmul (of_Z (getDRAMConsumedEnergy before after))
    (if is_one_of cpu [HASWELLX; BDX_DE; BDX; SKX; ICX; KNL] then ddiv (of_Z 153) (of_Z 10000000) else getJoulesPerEnergyUnit).

(** * Memory *)

Definition getNMHitRate (before after : UncoreCounterState) : double :=
  if nearMemoryMetricsAvailable cpu then
    let hit := u64_sub (UncNMHit after) (UncNMHit before) in
    let miss := u64_sub (UncNMMiss after) (UncNMMiss before) in
    if negb (u64 (hit + miss) =? 0) then ddiv (dmul (of_Z hit) (of_Z 100)) (of_Z (u64 (hit + miss))) else of_Z 0
  else of_Z 0.

Definition getLocalMemoryRequestRatio (before after : UncoreCounterState) : double :=
  if localMemoryRequestRatioMetricAvailable cpu then
    ddiv (of_Z (u64_sub (UncHALocalRequests after) (UncHALocalRequests before)))
      (of_Z (u64_sub (UncHARequests after) (UncHARequests before)))
  else minus_one.

(** * Top-down shares *)

(** Four assertions, and the sum as [uint64]. *)
Definition getAllSlots (before after : BasicCounterState) : res Z :=
  let a := i64 (BackendBoundSlots after - BackendBoundSlots before) in
  let b := i64 (FrontendBoundSlots after - FrontendBoundSlots before) in
  let c := i64 (BadSpeculationSlots after - BadSpeculationSlots before) in
  let d := i64 (RetiringSlots after - RetiringSlots before) in
  assert_ (0 <=? a);; assert_ (0 <=? b);; assert_ (0 <=? c);; assert_ (0 <=? d);;
  Ok (u64 (a + b + c + d)).

Definition TMAL2_supported : bool := pm_HWTMAL1 pm && is_one_of cpu [SPR; EMR; GNR; GNR_D].

(** The slots of a class as a share of all, when the level is supported. *)
Definition share (supported : bool) (slots : BasicCounterState -> Z) (before after : BasicCounterState) : res double :=
  if supported then
    all ← getAllSlots before after;
    Ok (ddiv (of_Z (u64_sub (slots after) (slots before))) (of_Z all))
  else Ok (of_Z 0).

Definition getBackendBound := share (pm_HWTMAL1 pm) BackendBoundSlots.
Definition getFrontendBound := share (pm_HWTMAL1 pm) FrontendBoundSlots.
Definition getBadSpeculation := share (pm_HWTMAL1 pm) BadSpeculationSlots.
Definition getRetiring := share (pm_HWTMAL1 pm) RetiringSlots.
Definition getMemoryBound := share TMAL2_supported MemBoundSlots.
Definition getFetchLatencyBound := share TMAL2_supported FetchLatSlots.
Definition getBranchMispredictionBound := share TMAL2_supported BrMispredSlots.
Definition getHeavyOperationsBound := share TMAL2_supported HeavyOpsSlots.

(** What is left of a class of the first level. *)
Definition remainder (x y : BasicCounterState -> BasicCounterState -> res double) (before after : BasicCounterState) : res double :=
  if TMAL2_supported then a ← x before after; b ← y before after; Ok (dsub a b) else Ok (of_Z 0).

Definition getCoreBound := remainder getBackendBound getMemoryBound.
Definition getFetchBandwidthBound := remainder getFrontendBound getFetchLatencyBound.
Definition getMachineClearsBound := remainder getBadSpeculation getBranchMispredictionBound.
Definition getLightOperationsBound := remainder getRetiring getHeavyOperationsBound.

(** * Links *)

(** [v[s][l]]; reading past the end, which is undefined, is an error. *)
Definition at1 (v : list Z) (s : nat) : res Z := match v !! s with Some x => Ok x | None => Throw OutOfRange end.
Definition at2 (v : list (list Z)) (s l : nat) : res Z :=
  match v !! s with Some row => at1 row l | None => Throw OutOfRange end.

Definition getCXLWriteCacheBytes (socket : nat) (before after : SystemCounterState) : res Z :=
  a ← at1 (CXLWriteCache after) socket; b ← at1 (CXLWriteCache before) socket; Ok (u64 (u64_sub a b * 64)).
Definition getCXLWriteMemBytes (socket : nat) (before after : SystemCounterState) : res Z :=
  a ← at1 (CXLWriteMem after) socket; b ← at1 (CXLWriteMem before) socket; Ok (u64 (u64_sub a b * 64)).

(** [getIncomingQPILinkBytes]: the guard comes before the two reads of the states. *)
Definition link_incoming_bytes (s l : nat) (before after : SystemCounterState) : res Z :=
  if incomingQPITrafficMetricsAvailable cpu (pcm_stepping (pm_flags pm)) (pcm_links (pm_flags pm)) then
    b ← at2 (incomingQPIPackets before) s l; a ← at2 (incomingQPIPackets after) s l;
    Ok (getIncomingQPILinkBytes (pm_flags pm) b a)
  else Ok 0.

(** [PCM::getQPILinkSpeed]: the servers have speeds, or none. *)
Definition getQPILinkSpeed (s l : nat) : res Z :=
  if hasPCICFGUncore cpu then
    match pm_qpi_speed pm !! s with
    | Some [] => Ok 0
    | Some speeds => at1 speeds l
    | None => Throw OutOfRange
    end
  else Ok (pm_max_qpi_speed pm).

(** [double(speed) * double(tsc / double(cores)) / double(frequency)] *)
Definition link_capacity (speed : Z) (before after : SystemCounterState) : double :=
  ddiv (dmul (of_Z speed) (ddiv (tsc_delta (basic (sy_counters before)) (basic (sy_counters after))) (of_Z (pm_online_cores pm))))
    (of_Z (pm_nominal_frequency pm)).

Definition getIncomingQPILinkUtilization (s l : nat) (before after : SystemCounterState) : res double :=
  if qpiUtilizationMetricsAvailable cpu (pcm_links (pm_flags pm)) then
    bytes ← link_incoming_bytes s l before after;
    max_speed ← getQPILinkSpeed s l;
    Ok (ddiv (of_Z bytes) (link_capacity max_speed before after))
  else Ok (of_Z 0).

(** [(a > b) ? (a - b) : 0] *)
Definition advance (b a : Z) : Z := if b <? a then u64 (a - b) else 0.

(** [getBytesPerFlit()] as a double: the two quotients are exact. *)
Definition bytes_per_flit : double := let '(n, d) := getBytesPerFlit cpu in ddiv (of_Z n) (of_Z d).

Definition max_flits (speed : Z) (before after : SystemCounterState) : double :=
  ddiv (ddiv (ddiv (dmul (tsc_delta (basic (sy_counters before)) (basic (sy_counters after))) (of_Z speed)) bytes_per_flit)
          (of_Z (pm_nominal_frequency pm))) (of_Z (pm_online_cores pm)).

Definition getOutgoingQPILinkUtilization (s l : nat) (before after : SystemCounterState) : res double :=
  if negb (outgoingQPITrafficMetricsAvailable cpu (pcm_links (pm_flags pm))) then Ok (of_Z 0)
  else if hasBecktonUncore cpu then
    b ← at2 (outgoingQPIFlits before) s l; a ← at2 (outgoingQPIFlits after) s l;
    let idle_flits := of_Z (advance b a) in
    let tsc := of_Z (advance (uncoreTSC before) (uncoreTSC after)) in
    Ok (if dle tsc idle_flits then of_Z 0 else dsub (of_Z 1) (ddiv idle_flits tsc))
  else if hasPCICFGUncore cpu then
    b ← at2 (outgoingQPIFlits before) s l; a ← at2 (outgoingQPIFlits after) s l;
    speed ← getQPILinkSpeed s l;
    let flits := of_Z (advance b a) in
    let max := max_flits speed before after in
    let flits := if hasUPI cpu then ddiv flits (of_Z 3) else flits in
    Ok (if dlt max flits then of_Z 1 else ddiv flits max)
  else Ok (of_Z 0).

Definition getOutgoingQPILinkBytes (s l : nat) (before after : SystemCounterState) : res Z :=
  if outgoingQPITrafficMetricsAvailable cpu (pcm_links (pm_flags pm)) then
    util ← getOutgoingQPILinkUtilization s l before after;
    speed ← getQPILinkSpeed s l;
    Ok (u64_of (dmul (link_capacity speed before after) util))
  else Ok 0.

(** * Accelerators *)

Definition getAccelCounterName (ac : accel_state) : str :=
  if ac_ctx_accel ac =? 0 then lit "iaa"
  else if ac_ctx_accel ac =? 1 then lit "dsa"
  else if ac_ctx_accel ac =? 2 then lit "qat"
  else lit "id=" ++ to_string (ac_ctx_accel ac) ++ lit "(unknown)".

Definition getNumberOfCounters (ac : accel_state) : nat := length (ac_ctrs ac).

Definition counter_at (ac : accel_state) (ctr_index : nat) : res accel_counter :=
  match ac_ctrs ac !! ctr_index with Some c => Ok c | None => Throw OutOfRange end.

Definition getAccelIndexCounterName (ac : accel_state) (ctr_index : nat) : res str :=
  c ← counter_at ac ctr_index; Ok (v_event_name c).

(** [getNumberOfEvents] of two values. *)
Definition getNumberOfEvents (before after : Z) : Z := if after <? before then 0 else after - before.

(** [before] and [after] are the [accel_counters] of the two states. *)
Definition getAccelIndexCounter (ac : accel_state) (dev : nat) (before after : list Z) (ctr_index : nat) : res Z :=
  pctr ← counter_at ac ctr_index;
  let i := (dev * length (ac_ctrs ac) + ctr_index)%nat in
  b ← at1 before i; a ← at1 after i;
  Ok (u64_of (ddiv (of_Z (u64 (getNumberOfEvents b a * multiplier pctr))) (of_Z (divider pctr)))).

(** The parentheses of a name and what they hold are left out. *)
Fixpoint remove_string_inside_use_from (open_use_count : Z) (text : str) : str :=
  match text with
  | [] => []
  | c :: text =>
      if Ascii.eqb c "("%char then remove_string_inside_use_from (open_use_count + 1) text
      else if Ascii.eqb c ")"%char then remove_string_inside_use_from (open_use_count - 1) text
      else if open_use_count =? 0 then c :: remove_string_inside_use_from open_use_count text
      else remove_string_inside_use_from open_use_count text
  end.

Definition remove_string_inside_use (text : str) : str := remove_string_inside_use_from 0 text.

End Metrics.

(** * When the metrics are numbers *)

Lemma within_of_u64 x : within 53 (of_Z (u64 x)).
Proof. apply of_Z_within. pose proof (wrapN_fits 64 x ltac:(lia)) as [? ?]. lia. Qed.

Lemma within_of_i64 x : within 53 (of_Z (i64 x)).
Proof. apply of_Z_within. unfold swrapN. pose proof (Z.mod_pos_bound (x + 2 ^ (64 - 1)) (2 ^ 64)). lia. Qed.

Lemma within_of_Z x : Z.abs x < 2 ^ 64 -> within 53 (of_Z x).
Proof. apply of_Z_within. Qed.

Lemma nonzero_of_Z x : Z.abs x < 2 ^ 64 -> x <> 0 -> nonzero (of_Z x).
Proof. intros. by apply of_Z_within. Qed.

Lemma within_div K1 K2 K x y : K = K1 + K2 + 105 -> 0 <= K1 -> 0 <= K2 -> K <= 960 ->
  within K1 x -> within K2 y -> nonzero y -> within K (ddiv x y).
Proof. intros ->. intros. by apply div_within. Qed.

Lemma within_mul K1 K2 K x y : K = K1 + K2 + 54 -> K <= 960 -> within K1 x -> within K2 y -> within K (dmul x y).
Proof. intros ->. intros. by apply mul_within. Qed.

Lemma nonzero_mul K1 K2 x y : K1 + K2 + 54 <= 960 -> within K1 x -> within K2 y -> nonzero x -> nonzero y -> nonzero (dmul x y).
Proof. intros. by apply (mul_within K1 K2). Qed.

Lemma nonzero_div K1 K2 x y : 0 <= K1 -> 0 <= K2 -> K1 + K2 + 105 <= 960 -> within K1 x -> within K2 y -> nonzero x -> nonzero y -> nonzero (ddiv x y).
Proof. intros. by apply (div_within K1 K2). Qed.

Lemma within_sub K1 K x y : K = K1 + 60 -> 0 <= K1 <= 860 -> within K1 x -> within K1 y -> within K (dsub x y).
Proof. intros ->. apply sub_within. Qed.

Lemma Ok_inj {A} (x y : A) : Ok x = Ok y -> x = y.
Proof. congruence. Qed.

(** A configuration that divides by nothing that is zero. On a system without links - a client, a
    server with one socket - nothing is asked of the speeds of links. *)
Record good_metrics (pm : pcm_metrics) : Prop := {
  good_frequency : 0 < pm_nominal_frequency pm < 2 ^ 64;
  good_cores : 0 < pm_online_cores pm < 2 ^ 32;
  good_sockets : 0 < pm_online_sockets pm < 2 ^ 32;
  good_unit : forall u, pm_energy_unit pm = Some (MicroJoules u) \/ pm_energy_unit pm = Some (JoulesFraction u) -> 0 <= u < 32;
  good_speeds : 0 < pcm_links (pm_flags pm) -> forall s l speed, getQPILinkSpeed pm s l = Ok speed -> 0 < speed < 2 ^ 64
}.

Section Numbers.

Context (pm : pcm_metrics) (Hpm : good_metrics pm).

Let HF := good_frequency pm Hpm.
Let HC := good_cores pm Hpm.
Let HS := good_sockets pm Hpm.

Lemma frequency_ratio_within clocks timer : within 53 (of_Z clocks) -> within 53 (of_Z timer) -> Z.abs timer < 2 ^ 64 -> timer <> 0 ->
  within 318 (frequency_ratio pm clocks timer).
Proof using Hpm.
  intros. pose proof HF. apply (within_div 160 53); [lia..| |done|by apply nonzero_of_Z].
  apply (within_mul 53 53); [lia..|by apply within_of_Z; lia|done].
Qed.

Lemma i64_abs x : Z.abs (i64 x) < 2 ^ 64.
Proof. unfold swrapN. pose proof (Z.mod_pos_bound (x + 2 ^ (64 - 1)) (2 ^ 64)). lia. Qed.

Lemma u64_abs x : Z.abs (u64 x) < 2 ^ 64.
Proof. pose proof (wrapN_fits 64 x ltac:(lia)) as [? ?]. lia. Qed.

Lemma average_frequency_within clocks b a : within 53 (of_Z clocks) -> within 318 (getAverageFrequencyFromClocks pm clocks b a).
Proof using Hpm.
  intros. unfold getAverageFrequencyFromClocks. destruct (Z.eqb_spec (i64 (InvariantTSC a - InvariantTSC b)) 0); cbn [negb].
  - by apply (within_weaken 53), within_of_Z.
  - apply frequency_ratio_within; [done|apply within_of_i64|apply i64_abs|done].
Qed.

Lemma active_frequency_finite b a : finite (getActiveAverageFrequency pm b a) = true.
Proof using Hpm.
  apply (within_finite 318). unfold getActiveAverageFrequency. destruct (Z.eqb_spec (i64 (getRefCycles b a)) 0); cbn [negb].
  - by apply (within_weaken 53), within_of_Z.
  - apply frequency_ratio_within; [apply within_of_i64..|apply i64_abs|done].
Qed.

Lemma uncore_frequencies_finite b a : Forall (fun x => finite x = true) (getUncoreFrequencies pm b a).
Proof using Hpm.
  unfold getUncoreFrequencies. apply Forall_app. split.
  - unfold getUncoreFrequency. apply Forall_map, Forall_true. intros e. apply (within_finite 160).
    apply (within_mul 53 53); [lia..| |by apply within_of_Z].
    apply within_of_Z. rewrite extract_bits_field by lia.
    pose proof (field_fits e (Z.min 0 6) (Z.abs (6 - 0) + 1) ltac:(lia)) as [? Hf].
    change (2 ^ (Z.abs (6 - 0) + 1)) with 128 in Hf. lia.
  - destruct (pm_uncoreFrequency pm); [|constructor]. constructor; [|constructor]. pose proof HC. pose proof HS.
    apply (within_finite 583). apply (within_div 425 53); [lia..| |by apply within_of_Z; lia|apply nonzero_of_Z; lia].
    apply (within_mul 53 318); [lia..|by apply within_of_Z; lia|]. apply average_frequency_within, within_of_i64.
Qed.

(** The time stamp advanced. *)
Definition advanced (b a : BasicCounterState) : Prop := getInvariantTSC b a <> 0.

Lemma tsc_nonzero b a : advanced b a -> nonzero (tsc_delta b a).
Proof. intros H. apply nonzero_of_Z; [apply u64_abs|done]. Qed.

Lemma outgoing_links cpu links : outgoingQPITrafficMetricsAvailable cpu links = true -> 0 < links.
Proof. intros [H _]%andb_prop. by apply Z.ltb_lt. Qed.

Lemma tsc_within b a : within 53 (tsc_delta b a).
Proof. apply within_of_u64. Qed.

Lemma residency_within x b a : advanced b a -> within 211 (ddiv (of_Z (u64 x)) (tsc_delta b a)).
Proof. intros. apply (within_div 53 53); [lia..|apply within_of_u64|apply tsc_within|by apply tsc_nonzero]. Qed.

(** Every subtraction adds 60 to the bound on the exponents. *)
Lemma subtractions_within tsc b a l K x :
  (forall i, within 211 (ddiv (of_Z (u64_sub (nth i a 0) (nth i b 0))) tsc)) -> 211 <= K ->
  K + 60 * Z.of_nat (length l) <= 920 -> within K x ->
  within (K + 60 * Z.of_nat (length l)) (foldl (fun result i => dsub result (ddiv (of_Z (u64_sub (nth i a 0) (nth i b 0))) tsc)) x l).
Proof.
  intros Hd. revert K x. induction l as [|i l IH]; intros K x HK Hl Hx; cbn [foldl length].
  - by apply (within_weaken K); [lia|].
  - apply (within_weaken ((K + 60) + 60 * Z.of_nat (length l))); [lia|].
    cbn [length] in Hl. apply IH; [lia..|]. apply (within_sub K); [lia..|done|]. by apply (within_weaken 211).
Qed.

Lemma clamp_finite K x : within K x -> finite (clamp x) = true.
Proof. intros Hx. unfold clamp. destruct (dlt _ _); [done|]. destruct (dlt _ _); [done|]. by eapply within_finite. Qed.

Lemma core_residency_finite i b a : advanced b a -> finite (getCoreCStateResidency i b a) = true.
Proof.
  intros H. unfold getCoreCStateResidency. destruct i as [|[|i]].
  - apply (within_finite 211). unfold getRefCycles, checked_sub. by apply residency_within.
  - eapply clamp_finite. unfold subtract_residencies. apply (subtractions_within _ _ _ _ 271); [intros j; by apply residency_within|lia|simpl; lia|].
    apply (within_sub 211); [lia..|by apply (within_weaken 53), within_of_Z|]. unfold getRefCycles, checked_sub. by apply residency_within.
  - apply (within_finite 211). by apply residency_within.
Qed.

Lemma package_residency_finite i b a : advanced (basic b) (basic a) -> finite (getPackageCStateResidency i b a) = true.
Proof.
  intros H. unfold getPackageCStateResidency. destruct i as [|i].
  - eapply clamp_finite. unfold subtract_residencies. apply (subtractions_within _ _ _ _ 211); [intros j; by apply residency_within|lia|simpl; lia|].
    by apply (within_weaken 53), within_of_Z.
  - apply (within_finite 211). by apply residency_within.
Qed.

Lemma energy_unit_within : within 211 (getJoulesPerEnergyUnit pm).
Proof using Hpm.
  pose proof (good_unit pm Hpm) as HU. unfold getJoulesPerEnergyUnit. destruct (pm_energy_unit pm) as [[u|u]|]; [| |done].
  - apply (within_div 53 53); [lia..|apply within_of_u64|by apply within_of_Z|by apply nonzero_of_Z].
  - apply (within_div 53 53); [lia..|by apply within_of_Z|apply within_of_u64|]. apply nonzero_of_Z; [apply u64_abs|].
    specialize (HU u ltac:(by right)). rewrite Z.shiftl_1_l, wrapN_small; [|split; [apply Z.pow_nonneg; lia|apply Z.pow_lt_mono_r; lia]].
    assert (0 < 2 ^ u) by (apply Z.pow_pos_nonneg; lia). lia.
Qed.

Lemma joules_finite x : finite (dmul (of_Z (u64 x)) (getJoulesPerEnergyUnit pm)) = true.
Proof using Hpm.
  apply (within_finite 318). apply (within_mul 53 211); [lia..|apply within_of_u64|apply energy_unit_within].
Qed.

Lemma DRAM_joules_finite b a : finite (getDRAMConsumedJoules pm b a) = true.
Proof using Hpm.
  unfold getDRAMConsumedJoules. destruct (is_one_of _ _); [|apply joules_finite].
  apply (within_finite 318). apply (within_mul 53 211); [lia..|apply within_of_u64|].
  apply (within_div 53 53); [lia..|by apply within_of_Z|by apply within_of_Z|by apply nonzero_of_Z].
Qed.

Lemma NMHitRate_finite b a : finite (getNMHitRate pm b a) = true.
Proof.
  unfold getNMHitRate. destruct (nearMemoryMetricsAvailable _); [|done]. cbv zeta.
  destruct (Z.eqb_spec (u64 (u64_sub (UncNMHit a) (UncNMHit b) + u64_sub (UncNMMiss a) (UncNMMiss b))) 0); cbn [negb]; [done|].
  apply (within_finite 318). apply (within_div 160 53); [lia..| |apply within_of_u64|apply nonzero_of_Z; [apply u64_abs|done]].
  apply (within_mul 53 53); [lia..|apply within_of_u64|by apply within_of_Z].
Qed.

Section Links.

Context (b a : SystemCounterState) (Hadv : advanced (basic (sy_counters b)) (basic (sy_counters a))).

Lemma link_capacity_good speed : 0 < speed < 2 ^ 64 -> within 476 (link_capacity pm speed b a) /\ nonzero (link_capacity pm speed b a).
Proof using Hpm Hadv.
  intros Hs. pose proof HF. pose proof HC. pose proof (tsc_within (basic (sy_counters b)) (basic (sy_counters a))).
  pose proof (tsc_nonzero _ _ Hadv).
  assert (within 211 (ddiv (tsc_delta (basic (sy_counters b)) (basic (sy_counters a))) (of_Z (pm_online_cores pm)))).
  { apply (within_div 53 53); [lia..|done|by apply within_of_Z; lia|apply nonzero_of_Z; lia]. }
  assert (nonzero (ddiv (tsc_delta (basic (sy_counters b)) (basic (sy_counters a))) (of_Z (pm_online_cores pm)))).
  { apply (nonzero_div 53 53); [lia..|done|by apply within_of_Z; lia|done|apply nonzero_of_Z; lia]. }
  unfold link_capacity. split.
  - apply (within_div 318 53); [lia..| |by apply within_of_Z; lia|apply nonzero_of_Z; lia].
    apply (within_mul 53 211); [lia..|by apply within_of_Z; lia|done].
  - apply (nonzero_div 318 53); [lia..| |by apply within_of_Z; lia| |apply nonzero_of_Z; lia].
    + apply (within_mul 53 211); [lia..|by apply within_of_Z; lia|done].
    + apply (nonzero_mul 53 211); [lia..|by apply within_of_Z; lia|done|apply nonzero_of_Z; lia|done].
Qed.

Lemma incoming_bytes_range s l x : link_incoming_bytes pm s l b a = Ok x -> 0 <= x < 2 ^ 64.
Proof.
  unfold link_incoming_bytes. destruct (incomingQPITrafficMetricsAvailable _ _ _); intros; inv_ok; [|lia].
  unfold getIncomingQPILinkBytes. destruct (incomingQPITrafficMetricsAvailable _ _ _); [|lia].
  destruct (_ <? _); [|lia]. apply wrapN_fits. lia.
Qed.

Lemma incoming_utilization_finite s l x : getIncomingQPILinkUtilization pm s l b a = Ok x -> finite x = true.
Proof using Hpm Hadv.
  unfold getIncomingQPILinkUtilization. destruct (qpiUtilizationMetricsAvailable _ _) eqn:Hl; intros H; [|by apply Ok_inj in H as <-].
  apply outgoing_links in Hl.
  apply bind_ok in H as (bytes & Hb & H). apply bind_ok in H as (speed & Hs & H). apply Ok_inj in H as <-.
  pose proof (incoming_bytes_range _ _ _ Hb). destruct (link_capacity_good speed (good_speeds pm Hpm Hl _ _ _ Hs)).
  apply (within_finite 634). apply (within_div 53 476); [lia..|by apply within_of_Z; lia|done|done].
Qed.

Lemma bytes_per_flit_good : within 53 (bytes_per_flit pm) /\ nonzero (bytes_per_flit pm).
Proof. unfold bytes_per_flit, getBytesPerFlit. destruct (hasUPI _); by vm_compute. Qed.

Lemma max_flits_good speed : 0 < speed < 2 ^ 64 -> within 634 (max_flits pm speed b a) /\ nonzero (max_flits pm speed b a).
Proof using Hpm Hadv.
  intros Hs. pose proof HF. pose proof HC. pose proof (tsc_within (basic (sy_counters b)) (basic (sy_counters a))) as Ht.
  pose proof (tsc_nonzero _ _ Hadv) as Hn. destruct bytes_per_flit_good as [Hb Hbn].
  assert (Hs1 : within 53 (of_Z speed)) by (apply within_of_Z; lia). assert (Hs2 : nonzero (of_Z speed)) by (apply nonzero_of_Z; lia).
  assert (Hf1 : within 53 (of_Z (pm_nominal_frequency pm))) by (apply within_of_Z; lia).
  assert (Hf2 : nonzero (of_Z (pm_nominal_frequency pm))) by (apply nonzero_of_Z; lia).
  assert (Hc1 : within 53 (of_Z (pm_online_cores pm))) by (apply within_of_Z; lia).
  assert (Hc2 : nonzero (of_Z (pm_online_cores pm))) by (apply nonzero_of_Z; lia).
  pose proof (within_mul 53 53 160 _ _ eq_refl ltac:(lia) Ht Hs1) as H1.
  pose proof (nonzero_mul 53 53 _ _ ltac:(lia) Ht Hs1 Hn Hs2) as N1.
  pose proof (within_div 160 53 318 _ _ eq_refl ltac:(lia) ltac:(lia) ltac:(lia) H1 Hb Hbn) as H2.
  pose proof (nonzero_div 160 53 _ _ ltac:(lia) ltac:(lia) ltac:(lia) H1 Hb N1 Hbn) as N2.
  pose proof (within_div 318 53 476 _ _ eq_refl ltac:(lia) ltac:(lia) ltac:(lia) H2 Hf1 Hf2) as H3.
  pose proof (nonzero_div 318 53 _ _ ltac:(lia) ltac:(lia) ltac:(lia) H2 Hf1 N2 Hf2) as N3.
  split; [by apply (within_div 476 53)|by apply (nonzero_div 476 53)].
Qed.

Lemma advance_within x y : within 53 (of_Z (advance x y)).
Proof. unfold advance. destruct (_ <? _); [apply within_of_u64|by apply within_of_Z]. Qed.

Lemma advance_range x y : 0 <= advance x y < 2 ^ 64.
Proof. unfold advance. destruct (_ <? _); [apply wrapN_fits; lia|lia]. Qed.

Lemma outgoing_utilization_finite s l x : getOutgoingQPILinkUtilization pm s l b a = Ok x -> finite x = true.
Proof using Hpm Hadv.
  unfold getOutgoingQPILinkUtilization. destruct (outgoingQPITrafficMetricsAvailable _ _) eqn:Hl; cbn [negb]; [|by intros [= <-]].
  apply outgoing_links in Hl. destruct (hasBecktonUncore _).
  - intros H. apply bind_ok in H as (p & _ & H). apply bind_ok in H as (q & _ & H). apply Ok_inj in H as <-.
    set (t := advance (uncoreTSC b) (uncoreTSC a)). destruct (dle (of_Z t) _) eqn:E; [done|].
    pose proof (advance_range (uncoreTSC b) (uncoreTSC a)) as Ht. fold t in Ht.
    assert (t <> 0) as Hz.
    { intros Hz. rewrite Hz in E. revert E. pose proof (advance_range p q). destruct (Z.eq_dec (advance p q) 0) as [->|]; [done|].
      destruct (of_Z_positive (advance p q)) as (m & e & ->); [lia|]. done. }
    apply (within_finite 271). apply (within_sub 211); [lia..|by apply (within_weaken 53), within_of_Z|].
    apply (within_div 53 53); [lia..|apply advance_within|apply advance_within|apply nonzero_of_Z; lia].
  - destruct (hasPCICFGUncore _); [|by intros [= <-]]. intros H. apply bind_ok in H as (p & _ & H). apply bind_ok in H as (q & _ & H).
    apply bind_ok in H as (speed & Hs & H). apply Ok_inj in H as <-. destruct (max_flits_good speed (good_speeds pm Hpm Hl _ _ _ Hs)) as [Hm Hmn].
    destruct (dlt _ _); [done|]. apply (within_finite 950). apply (within_div 211 634); [lia..| |done|done].
    destruct (hasUPI _); [|by apply (within_weaken 53), advance_within].
    apply (within_div 53 53); [lia..|apply advance_within|by apply within_of_Z|by apply nonzero_of_Z].
Qed.

End Links.

End Numbers.
