(* ===== verification/Printers.v ===== *)
(** What the two printers of [src/src/pcm-sensor-server.cpp] share: the [std::stringstream] of
    [Visitor] ([src/src/topology.h]), the values they print, the pair of samples between which
    they report, and the collector of PCIe counters ([src/src/pcm-pcie-collector.h]). *)

From S2P Require Import Prelude CxxString CpuModels Capabilities Registers CounterState Sampling Topology Doubles Json Metrics.
Local Open Scope Z_scope.

(** * [std::stringstream] *)

(** Characters up to the highest one written, the positions of writing and reading, and the
    failure bit. Reading at the end sets a bit that the next [seekg] clears, and is not kept. *)
Record stringstream := Stream { ss_buf : str; ss_put : nat; ss_get : nat; ss_fail : bool }.

(** [<<] overwrites what is there. *)
Definition ss_write (s : str) (t : stringstream) : stringstream :=
  if ss_fail t then t
  else Stream (take (ss_put t) (ss_buf t) ++ s ++ drop (ss_put t + length s) (ss_buf t)) (ss_put t + length s) (ss_get t) false.

Definition tellg (t : stringstream) : Z := if ss_fail t then -1 else Z.of_nat (ss_get t).

Definition in_buffer (pos : Z) (t : stringstream) : bool := (0 <=? pos) && (pos <=? size (ss_buf t)).

Definition seekg (pos : Z) (t : stringstream) : stringstream :=
  if ss_fail t then t
  else if in_buffer pos t then Stream (ss_buf t) (ss_put t) (Z.to_nat pos) false
  else Stream (ss_buf t) (ss_put t) (ss_get t) true.

(** [seekg(off, std::ios_base::end)] *)
Definition seekg_end (off : Z) (t : stringstream) : stringstream := seekg (size (ss_buf t) + off) t.

Definition seekp (pos : Z) (t : stringstream) : stringstream :=
  if ss_fail t then t
  else if in_buffer pos t then Stream (ss_buf t) (Z.to_nat pos) (ss_get t) false
  else Stream (ss_buf t) (ss_put t) (ss_get t) true.

Definition ss_peek (t : stringstream) : option ascii := if ss_fail t then None else ss_buf t !! ss_get t.

(** A stream that is only written at its end. *)
Definition at_end (s : str) : stringstream := Stream s (length s) 0 false.

Lemma write_at_end s x : ss_write x (at_end s) = at_end (s ++ x).
Proof.
  unfold ss_write, at_end. cbn [ss_fail ss_put ss_buf ss_get]. rewrite firstn_all, length_app.
  rewrite drop_ge by lia. by rewrite app_nil_r.
Qed.

(** * Code that prints *)

(** Over a state [St] that holds the stream, with exceptions. *)
Definition printer (St A : Type) : Type := St -> res (A * St).

#[export] Instance printer_ret {St} : MRet (printer St) := fun A a s => Ok (a, s).
#[export] Instance printer_bind {St} : MBind (printer St) := fun A B f m s =>
  match m s with Ok (a, s') => f a s' | Throw e => Throw e end.

#[export] Instance res_fmap : FMap res := fun A B f r => match r with Ok a => Ok (f a) | Throw e => Throw e end.

Definition of_res {St A} (r : res A) : printer St A := fun s => match r with Ok a => Ok (a, s) | Throw e => Throw e end.

(** * The values *)

Inductive printed := CInt (n : Z) | CReal (x : double) | CText (s : str).

Section Cells.

Context (nan_text : str).

(** The text of a value under the format that the constructor of [Visitor] sets. *)
Definition show_printed (c : printed) : str :=
  match c with CInt n => show_int n | CReal x => fixed_text nan_text x | CText s => s end.

End Cells.

(** Names with the value each is given, in the order of the calls of [printCounter]. *)
Definition counter_list : Type := list (str * res printed).

Definition int_counter (name : string) (n : Z) : str * res printed := (lit name, Ok (CInt n)).
Definition real_counter (name : string) (x : double) : str * res printed := (lit name, Ok (CReal x)).

(** * Samples *)

(** A sample of the [Aggregator], the time of its start in nanoseconds and its counters of
    accelerators. *)
Record timed_sample := Sample { sp_states : aggregator; sp_dispatchedAt : Z; sp_accel_counters : list Z }.

(** [duration_cast<microseconds>]: towards zero. *)
Definition interval_us (before after : timed_sample) : Z := Z.quot (sp_dispatchedAt after - sp_dispatchedAt before) 1000.

Section Samples.

Context (c : sampler).

(** The states of a sample, or the initial one when there is no sample. Reading past the end
    of a vector is an error. *)
Definition getCoreCounter (ag : option timed_sample) (tid : Z) : res BasicCounterState :=
  match ag with
  | None => Ok BasicCounterState_init
  | Some ag => match ccsVector (sp_states ag) !! Z.to_nat (u32 tid) with Some s => Ok s | None => Throw OutOfRange end
  end.

Definition getSocketCounter (ag : option timed_sample) (sid : Z) : res SocketCounterState :=
  match ag with
  | None => Ok SocketCounterState_init
  | Some ag => match socsVector (sp_states ag) !! Z.to_nat (u32 sid) with Some s => Ok s | None => Throw OutOfRange end
  end.

Definition getSystemCounter (ag : option timed_sample) : SystemCounterState :=
  match ag with None => SystemCounterState_init c | Some ag => sycs (sp_states ag) end.

Definition accel_counters (ag : option timed_sample) : list Z := match ag with None => [] | Some ag => sp_accel_counters ag end.

End Samples.

(** The numbers of a core are those of its first thread. *)
Definition core_number (f : TopologyEntry -> Z) (core : core_node) : res Z :=
  match core with [] => Throw RuntimeError | h :: _ => Ok (f (te h)) end.

(** * PCIe *)

Record SocketBW := MkSocketBW { readBytes : Z; writeBytes : Z }.

Record PCIeCollector := MkPCIeCollector {
  socketCount : nat;
  eventNames : list str;
  snapshot_ : list SocketBW;
  aggregate_ : SocketBW;
  rawValues_ : list (list Z);
  rawAggValues_ : list Z
}.

Definition getSocket (col : PCIeCollector) (skt : nat) : SocketBW := default (MkSocketBW 0 0) (snapshot_ col !! skt).
Definition getRawValues (col : PCIeCollector) (skt : nat) : list Z := default [] (rawValues_ col !! skt).

(** The counters of a socket or of all: bytes read and written, and the raw values with the
    names of the events. *)
Definition pcie_counters (names : list str) (bw : SocketBW) (raw : list Z) : counter_list :=
  [int_counter "PCIe Read Bytes" (readBytes bw); int_counter "PCIe Write Bytes" (writeBytes bw)] ++
  imap (fun i v => (lit "PCIe " ++ default [] (names !! i), match names !! i with Some _ => Ok (CInt v) | None => Throw OutOfRange end)) raw.

(** * Counters that both printers print *)

Section Counters.

Context (pm : pcm_metrics) (undefined_u64 : double -> Z).

Let flags := pm_flags pm.

Definition basic_counters (before after : BasicCounterState) : counter_list :=
  [int_counter "Instructions Retired Any" (getInstructionsRetired before after);
   int_counter "Clock Unhalted Thread" (getCycles before after);
   int_counter "Clock Unhalted Ref" (getRefCycles before after);
   int_counter "L3 Cache Misses" (getL3CacheMisses flags before after);
   int_counter "L3 Cache Hits" (getL3CacheHits flags before after);
   int_counter "L2 Cache Misses" (getL2CacheMisses flags before after);
   int_counter "L2 Cache Hits" (getL2CacheHits flags before after);
   int_counter "L3 Cache Occupancy" (getL3CacheOccupancy flags after);
   int_counter "Invariant TSC" (getInvariantTSC before after);
   int_counter "SMI Count" (getSMICount before after)].

Definition bandwidth_counters (before after : BasicCounterState) : counter_list :=
  [int_counter "Local Memory Bandwidth" (getLocalMemoryBW flags before after);
   int_counter "Remote Memory Bandwidth" (getRemoteMemoryBW flags before after)].

Definition dram_counters (before after : UncoreCounterState) : counter_list :=
  [int_counter "DRAM Writes" (getBytesWrittenToMC flags before after);
   int_counter "DRAM Reads" (getBytesReadFromMC flags before after)].

Definition near_memory_counters (before after : UncoreCounterState) : counter_list :=
  [int_counter "NM Hits" (getNMHits flags before after);
   int_counter "NM Misses" (getNMMisses flags before after);
   int_counter "NM Miss Bw" (getNMMissBW flags before after)].

Definition near_memory_rate (before after : UncoreCounterState) : counter_list :=
  [real_counter "NM HitRate" (getNMHitRate pm before after)].

Definition memory_counters (before after : UncoreCounterState) : counter_list :=
  [int_counter "Persistent Memory Writes" (getBytesWrittenToPMM flags before after);
   int_counter "Persistent Memory Reads" (getBytesReadFromPMM flags before after);
   int_counter "Embedded DRAM Writes" (getBytesWrittenToEDC flags before after);
   int_counter "Embedded DRAM Reads" (getBytesReadFromEDC flags before after);
   int_counter "Memory Controller IA Requests" (getIARequestBytesFromMC flags before after);
   int_counter "Memory Controller GT Requests" (getGTRequestBytesFromMC flags before after);
   int_counter "Memory Controller IO Requests" (getIORequestBytesFromMC flags before after)].

Definition energy_counters_of (before after : UncoreCounterState) : counter_list :=
  [real_counter "Package Joules Consumed" (getConsumedJoules pm before after);
   real_counter "PP0 Joules Consumed" (getConsumedJoules_pp pm 0 before after);
   real_counter "PP1 Joules Consumed" (getConsumedJoules_pp pm 1 before after);
   real_counter "DRAM Joules Consumed" (getDRAMConsumedJoules pm before after)].

(** Four counters for link [j] of socket [i]. *)
Definition link_counters (before after : SystemCounterState) (i j : nat) : counter_list :=
  [(lit "Incoming Data Traffic On Link " ++ to_string (Z.of_nat j), CInt <$> link_incoming_bytes pm i j before after);
   (lit "Outgoing Data And Non-Data Traffic On Link " ++ to_string (Z.of_nat j), CInt <$> getOutgoingQPILinkBytes pm undefined_u64 i j before after);
   (lit "Utilization Incoming Data Traffic On Link " ++ to_string (Z.of_nat j), CReal <$> getIncomingQPILinkUtilization pm i j before after);
   (lit "Utilization Outgoing Data And Non-Data Traffic On Link " ++ to_string (Z.of_nat j), CReal <$> getOutgoingQPILinkUtilization pm i j before after)].

Definition socket_link_counters (before after : SystemCounterState) (i : nat) : counter_list :=
  [(lit "CXL Write Cache", CInt <$> getCXLWriteCacheBytes i before after);
   (lit "CXL Write Mem", CInt <$> getCXLWriteMemBytes i before after)] ++
  concat (map (link_counters before after i) (seq 0 (Z.to_nat (pcm_links flags)))).

End Counters.
