(* ===== verification/JsonPrinter.v ===== *)
(** [class JSONPrinter] and [class Indent] of [src/src/pcm-sensor-server.cpp]: the document
    [/persecond] and [/] answer with. The printer writes commas after everything and takes the
    last one of a group back by moving the positions of its stream; [document] is the tree of
    names and values the text stands for, and [printer_writes_document] the refinement. *)

From S2P Require Import Prelude CxxString Http CpuModels Capabilities Registers CounterState PcmUncore RawEvents RawProgram Bandwidth Sampling Topology Doubles Json Metrics Printers.
Local Open Scope Z_scope.

(** * [class Indent] *)

Record Indent := MkIndent { indstr_ : str; indent_ : str; len_ : nat }.

(** [operator ++(int)]: the copy from before, and the new state. *)
Definition indent_inc (i : Indent) : Indent := MkIndent (indstr_ i) (indent_ i ++ indstr_ i) (S (len_ i)).

(** [operator --]: [erase] throws past the end. *)
Definition indent_dec (i : Indent) : res Indent :=
  match len_ i with
  | O => Throw RuntimeError
  | S n =>
      if (length (indent_ i) <? n * length (indstr_ i))%nat then Throw OutOfRange
      else Ok (MkIndent (indstr_ i) (take (n * length (indstr_ i)) (indent_ i)) n)
  end.

(** * The printer *)

Record json_state := JsonState { js_ss : stringstream; indentation : Indent }.

Definition json_state_init : json_state := JsonState (at_end []) (MkIndent (lit "  ") [] 0).

Inductive LineEndAction := NewLineOnly | DelimiterOnly | DelimiterAndNewLine | LineEndAction_Spare.

Definition json_printer : Type -> Type := printer json_state.

Definition json_write (s : str) : json_printer unit := fun st => Ok (tt, JsonState (ss_write s (js_ss st)) (indentation st)).

Section Printer.

Context (nan_text : str).

Definition startObject (s : str) (ch : ascii) : json_printer unit := fun st =>
  let name := match s with [] => [] | _ => DQUOTE :: s ++ DQUOTE :: lit " : " end in
  json_write (indent_ (indentation st) ++ name ++ ch :: HTTP_EOL) (JsonState (js_ss st) (indent_inc (indentation st))).

(** The three characters before the end, the position of writing moved there, and the comma
    overwritten; the line feed that is left over is overwritten by what follows. *)
Definition take_comma_back (t : stringstream) : stringstream :=
  let oldReadPos := tellg t in
  let t := seekg_end (-3) t in
  let t := if bool_decide (ss_peek t = Some ","%char) then ss_write HTTP_EOL (seekp (tellg t) t) else t in
  seekg oldReadPos t.

Definition endObject (lea : LineEndAction) (ch : ascii) : json_printer unit := fun st =>
  match indent_dec (indentation st) with
  | Throw e => Throw e
  | Ok i =>
      let t := ss_write (indent_ i ++ [ch]) (take_comma_back (js_ss st)) in
      match lea with
      | NewLineOnly => Ok (tt, JsonState (ss_write HTTP_EOL t) i)
      | DelimiterAndNewLine => Ok (tt, JsonState (ss_write (lit "," ++ HTTP_EOL) t) i)
      | DelimiterOnly => Ok (tt, JsonState (ss_write (lit ",") t) i)
      | LineEndAction_Spare => Throw RuntimeError
      end
  end.

(** Strings are quoted, and only they. *)
Definition printCounter (name : str) (c : printed) : json_printer unit := fun st =>
  let value := match c with CText s => DQUOTE :: s ++ [DQUOTE] | _ => show_printed nan_text c end in
  json_write (indent_ (indentation st) ++ DQUOTE :: name ++ DQUOTE :: lit " : " ++ value ++ lit "," ++ HTTP_EOL) st.

(** Calls of [printCounter] one after the other. *)
Fixpoint printCounters (l : counter_list) : json_printer unit :=
  match l with
  | [] => mret tt
  | (name, value) :: l => c ← of_res value; printCounter name c ;; printCounters l
  end.

(** A group: the calls of [startObject] and [endObject] around its body. *)
Definition object (name : str) (lea : LineEndAction) (body : json_printer unit) : json_printer unit :=
  startObject name "{"%char ;; body ;; endObject lea "}"%char.
Definition list_ (name : str) (lea : LineEndAction) (body : json_printer unit) : json_printer unit :=
  startObject name "["%char ;; body ;; endObject lea "]"%char.

(** [iterateVectorAndCallAccept], and the other loops over objects. *)
Fixpoint json_each {A} (f : A -> json_printer unit) (l : list A) : json_printer unit :=
  match l with [] => mret tt | a :: l => f a ;; json_each f l end.

Definition iterateVectorAndCallAccept {A} (accept : A -> json_printer unit) (l : list A) : json_printer unit :=
  json_each (fun a => object [] DelimiterAndNewLine (accept a)) l.

(** ** The states *)

Context (pm : pcm_metrics) (undefined_int undefined_u64 : double -> Z).

Let flags := pm_flags pm.

Definition CStateResidency (i : nat) : str := lit "CStateResidency[" ++ to_string (Z.of_nat i) ++ lit "]".

Definition percent_counter (name : string) (x : res double) : str * res printed :=
  (lit name, (fun x => CInt (percent undefined_int x)) <$> x).

Definition core_counters (before after : BasicCounterState) : counter_list :=
  basic_counters pm before after ++
  [real_counter "Core Frequency" (getActiveAverageFrequency pm before after);
   percent_counter "Frontend Bound" (getFrontendBound pm before after);
   percent_counter "Bad Speculation" (getBadSpeculation pm before after);
   percent_counter "Backend Bound" (getBackendBound pm before after);
   percent_counter "Retiring" (getRetiring pm before after);
   percent_counter "Fetch Latency Bound" (getFetchLatencyBound pm before after);
   percent_counter "Fetch Bandwidth Bound" (getFetchBandwidthBound pm before after);
   percent_counter "Branch Misprediction Bound" (getBranchMispredictionBound pm before after);
   percent_counter "Machine Clears Bound" (getMachineClearsBound pm before after);
   percent_counter "Memory Bound" (getMemoryBound pm before after);
   percent_counter "Core Bound" (getCoreBound pm before after);
   percent_counter "Heavy Operations Bound" (getHeavyOperationsBound pm before after);
   percent_counter "Light Operations Bound" (getLightOperationsBound pm before after)].

(** The loop to [MAX_C_STATE], and the call after it. *)
Definition residency_counters (f : nat -> double) : counter_list :=
  map (fun i => (CStateResidency i, Ok (CReal (f i)))) (seq 0 11).

Definition energy_state_counters (before after : BasicCounterState) : counter_list :=
  int_counter "Thermal Headroom" (ThermalHeadroom after) ::
  residency_counters (fun i => getCoreCStateResidency i before after).

Definition printBasicCounterState (before after : BasicCounterState) : json_printer unit :=
  object (lit "Core Counters") DelimiterAndNewLine (printCounters (core_counters before after)) ;;
  object (lit "Energy Counters") DelimiterAndNewLine (printCounters (energy_state_counters before after)) ;;
  object (lit "Core Memory Bandwidth Counters") NewLineOnly (printCounters (bandwidth_counters pm before after)).

Definition uncore_counters (before after : SocketCounterState) : counter_list :=
  let b := uncore before in let a := uncore after in
  let localRatio := percent undefined_int (getLocalMemoryRequestRatio pm b a) in
  dram_counters pm b a ++
  (if nearMemoryMetricsAvailable (model flags) then near_memory_rate pm b a ++ near_memory_counters pm b a else []) ++
  memory_counters pm b a ++ energy_counters_of pm b a ++
  imap (fun i x => (lit "Uncore Frequency Die " ++ to_string (Z.of_nat i), Ok (CReal x))) (getUncoreFrequencies pm before after) ++
  [int_counter "Local Memory Request Ratio" localRatio; int_counter "Remote Memory Request Ratio" (i32 (100 - localRatio))] ++
  residency_counters (fun i => getPackageCStateResidency i before after).

Definition printUncoreCounterState (before after : SocketCounterState) : json_printer unit :=
  object (lit "Uncore Counters") NewLineOnly (printCounters (uncore_counters before after)).

Definition printPCIeCounterState (col : option PCIeCollector) : json_printer unit :=
  match col with
  | None => mret tt
  | Some col =>
      json_each (fun skt => object (lit "PCIe Counters Socket " ++ to_string (Z.of_nat skt)) DelimiterAndNewLine
                         (printCounters (pcie_counters (eventNames col) (getSocket col skt) (getRawValues col skt))))
        (seq 0 (socketCount col)) ;;
      object (lit "PCIe Counters Aggregate") NewLineOnly (printCounters (pcie_counters (eventNames col) (aggregate_ col) (rawAggValues_ col)))
  end.

Definition accelerator_counters (ac : accel_state) (before after : list Z) (dev : nat) : counter_list :=
  map (fun c => (v_event_name c.2, CInt <$> getAccelIndexCounter undefined_u64 ac dev before after c.1)) (imap pair (ac_ctrs ac)).

Definition printAccelCounterState (ac : accel_state) (before after : list Z) : json_printer unit :=
  json_each (fun i => object (getAccelCounterName ac ++ lit " Counters Device " ++ to_string (Z.of_nat i)) DelimiterAndNewLine
                   (printCounters (accelerator_counters ac before after i)))
    (seq 0 (Z.to_nat (ac_devs ac))).

Definition printSystemCounterState (before after : SystemCounterState) : json_printer unit :=
  json_each (fun i => object (lit "QPI Counters Socket " ++ to_string (Z.of_nat i)) DelimiterAndNewLine
                   (printCounters (socket_link_counters pm undefined_u64 before after i)))
    (seq 0 (Z.to_nat (pm_num_sockets pm))).

(** ** The objects of the tree *)

Context (c : sampler) (col : option PCIeCollector) (ac : accel_state).
Context (first second : option timed_sample).

Definition text_counter (name value : string) : str * res printed := (lit name, Ok (CText (lit value))).
Definition size_counter {A} (name : string) (l : list A) : str * res printed := int_counter name (Z.of_nat (length l)).

Definition dispatch_HyperThread (ht : HyperThread) : json_printer unit :=
  printCounters [text_counter "Object" "HyperThread"; int_counter "Thread ID" (thread_id (te ht)); int_counter "OS ID" (osID ht)] ;;
  before ← of_res (getCoreCounter first (osID ht));
  after ← of_res (getCoreCounter second (osID ht));
  printBasicCounterState before after.

(** [ServerUncore] and [ClientUncore] differ in the name. *)
Definition dispatch_Uncore (socketID : Z) : json_printer unit :=
  printCounters [text_counter "Object" (if isServerCPU (model flags) then "ServerUncore" else "ClientUncore")] ;;
  before ← of_res (getSocketCounter first socketID);
  after ← of_res (getSocketCounter second socketID);
  printUncoreCounterState before after.

Definition core_numbers (core : core_node) : counter_list :=
  map (fun nf => (lit (fst nf), CInt <$> core_number (snd nf) core))
    [("Core ID"%string, socket_unique_core_id); ("HW Core ID"%string, core_id); ("Module ID"%string, module_id); ("Tile ID"%string, tile_id);
     ("Die ID"%string, die_id); ("Die Group ID"%string, die_grp_id); ("Socket ID"%string, socket_id)].

Definition dispatch_Core (core : core_node) : json_printer unit :=
  printCounters [text_counter "Object" "Core"; size_counter "Number of threads" core] ;;
  list_ (lit "Threads") DelimiterAndNewLine (iterateVectorAndCallAccept dispatch_HyperThread core) ;;
  printCounters (core_numbers core).

Definition dispatch_Socket (s : socket_node) : json_printer unit :=
  printCounters [text_counter "Object" "Socket"; int_counter "Socket ID" (logicalID s); size_counter "Number of cores" (cores s)] ;;
  list_ (lit "Cores") DelimiterAndNewLine (iterateVectorAndCallAccept dispatch_Core (cores s)) ;;
  object (lit "Uncore") DelimiterAndNewLine (dispatch_Uncore (logicalID s)) ;;
  object (lit "Core Aggregate") NewLineOnly (
    before ← of_res (getSocketCounter first (logicalID s));
    after ← of_res (getSocketCounter second (logicalID s));
    printBasicCounterState (basic before) (basic after)).

(** Without a first or a second sample a null pointer is read. *)
Definition interval : res Z :=
  match first, second with Some b, Some a => Ok (interval_us b a) | _, _ => Throw NullDereference end.

Definition dispatch_SystemRoot (s : SystemRoot) : json_printer unit :=
  us ← of_res interval;
  object [] NewLineOnly (
    printCounters [int_counter "Interval us" us; text_counter "Object" "SystemRoot"; size_counter "Number of sockets" (sockets s)] ;;
    list_ (lit "Sockets") DelimiterAndNewLine (iterateVectorAndCallAccept dispatch_Socket (sockets s)) ;;
    let before := getSystemCounter c first in
    let after := getSystemCounter c second in
    (if negb (ac_accel ac =? ACCEL_NOCONFIG)
     then object (lit "Accelerators") DelimiterAndNewLine (printAccelCounterState ac (accel_counters first) (accel_counters second))
     else mret tt) ;;
    object (lit "QPI/UPI Links") DelimiterAndNewLine (printSystemCounterState before after) ;;
    object (lit "Core Aggregate") DelimiterAndNewLine (printBasicCounterState (basic (sy_counters before)) (basic (sy_counters after))) ;;
    object (lit "Uncore Aggregate") DelimiterAndNewLine (printUncoreCounterState (sy_counters before) (sy_counters after)) ;;
    object (lit "PCIe Bandwidth") NewLineOnly (printPCIeCounterState col)).

(** [JSONPrinter jp( aggPair ); jp.dispatch( root ); jp.str()] *)
Definition print_json (s : SystemRoot) : res str :=
  match second with
  | None => Throw RuntimeError
  | Some _ => r ← dispatch_SystemRoot s json_state_init; Ok (ss_buf (js_ss r.2))
  end.

End Printer.

(** * The document *)

Section Document.

Context (nan_text : str).

Definition json_of (v : printed) : json :=
  match v with CText s => JString s | _ => JNumber (show_printed nan_text v) end.

(** Counters as members, with the first exception among them. *)
Definition members (l : counter_list) : res (list (str * json)) :=
  mapM (fun nv : str * res printed => v ← nv.2; Ok (nv.1, json_of v)) l.

Context (pm : pcm_metrics) (undefined_int undefined_u64 : double -> Z).

Let flags := pm_flags pm.

Definition basic_members (before after : BasicCounterState) : res (list (str * json)) :=
  core ← members (core_counters pm undefined_int before after);
  energy ← members (energy_state_counters before after);
  bandwidth ← members (bandwidth_counters pm before after);
  Ok [(lit "Core Counters", JObject core); (lit "Energy Counters", JObject energy);
      (lit "Core Memory Bandwidth Counters", JObject bandwidth)].

Definition uncore_members (before after : SocketCounterState) : res (list (str * json)) :=
  l ← members (uncore_counters pm undefined_int before after); Ok [(lit "Uncore Counters", JObject l)].

Definition numbered (name : str) (l : nat -> counter_list) (i : nat) : res (str * json) :=
  l ← members (l i); Ok (name ++ to_string (Z.of_nat i), JObject l).

Definition pcie_members (col : option PCIeCollector) : res (list (str * json)) :=
  match col with
  | None => Ok []
  | Some col =>
      l ← mapM (numbered (lit "PCIe Counters Socket ") (fun skt => pcie_counters (eventNames col) (getSocket col skt) (getRawValues col skt)))
            (seq 0 (socketCount col));
      all ← members (pcie_counters (eventNames col) (aggregate_ col) (rawAggValues_ col));
      Ok (l ++ [(lit "PCIe Counters Aggregate", JObject all)])
  end.

Definition accelerator_members (ac : accel_state) (before after : list Z) : res (list (str * json)) :=
  mapM (numbered (getAccelCounterName ac ++ lit " Counters Device ") (accelerator_counters undefined_u64 ac before after))
    (seq 0 (Z.to_nat (ac_devs ac))).

Definition system_members (before after : SystemCounterState) : res (list (str * json)) :=
  mapM (numbered (lit "QPI Counters Socket ") (socket_link_counters pm undefined_u64 before after)) (seq 0 (Z.to_nat (pm_num_sockets pm))).

Context (c : sampler) (col : option PCIeCollector) (ac : accel_state).
Context (first second : option timed_sample).

Definition thread_document (ht : HyperThread) : res (list (str * json)) :=
  before ← getCoreCounter first (osID ht);
  after ← getCoreCounter second (osID ht);
  states ← basic_members before after;
  Ok ([(lit "Object", JString (lit "HyperThread")); (lit "Thread ID", JNumber (show_int (thread_id (te ht))));
       (lit "OS ID", JNumber (show_int (osID ht)))] ++ states).

Definition core_document (core : core_node) : res (list (str * json)) :=
  threads ← mapM thread_document core;
  numbers ← members (core_numbers core);
  Ok ([(lit "Object", JString (lit "Core")); (lit "Number of threads", JNumber (show_int (Z.of_nat (length core))));
       (lit "Threads", JArray (map JObject threads))] ++ numbers).

Definition uncore_document (socketID : Z) : res (list (str * json)) :=
  before ← getSocketCounter first socketID;
  after ← getSocketCounter second socketID;
  states ← uncore_members before after;
  Ok ((lit "Object", JString (lit (if isServerCPU (model flags) then "ServerUncore" else "ClientUncore"))) :: states).

Definition socket_document (s : socket_node) : res (list (str * json)) :=
  cs ← mapM core_document (cores s);
  u ← uncore_document (logicalID s);
  before ← getSocketCounter first (logicalID s);
  after ← getSocketCounter second (logicalID s);
  states ← basic_members (basic before) (basic after);
  Ok [(lit "Object", JString (lit "Socket")); (lit "Socket ID", JNumber (show_int (logicalID s)));
      (lit "Number of cores", JNumber (show_int (Z.of_nat (length (cores s)))));
      (lit "Cores", JArray (map JObject cs)); (lit "Uncore", JObject u); (lit "Core Aggregate", JObject states)].

Definition document (s : SystemRoot) : res json :=
  us ← interval first second;
  ss ← mapM socket_document (sockets s);
  let before := getSystemCounter c first in
  let after := getSystemCounter c second in
  accelerators ← (if negb (ac_accel ac =? ACCEL_NOCONFIG)
                  then l ← accelerator_members ac (accel_counters first) (accel_counters second); Ok [(lit "Accelerators", JObject l)]
                  else Ok []);
  links ← system_members before after;
  core ← basic_members (basic (sy_counters before)) (basic (sy_counters after));
  u ← uncore_members (sy_counters before) (sy_counters after);
  pcie ← pcie_members col;
  Ok (JObject ([(lit "Interval us", JNumber (show_int us)); (lit "Object", JString (lit "SystemRoot"));
                (lit "Number of sockets", JNumber (show_int (Z.of_nat (length (sockets s)))));
                (lit "Sockets", JArray (map JObject ss))] ++ accelerators ++
               [(lit "QPI/UPI Links", JObject links); (lit "Core Aggregate", JObject core);
                (lit "Uncore Aggregate", JObject u); (lit "PCIe Bandwidth", JObject pcie)])).

End Document.

(** * What the operations append *)

(** Two texts with the same characters, appended in different orders. *)
Ltac same_text := repeat (progress (rewrite <- ?app_assoc, <- ?app_comm_cons)); reflexivity.

(** A printer [n] levels deep that has printed [s]. *)
Definition printed_at (n : nat) (s : str) : json_state := JsonState (at_end s) (MkIndent (lit "  ") (indent_text n) n).

(** Items that are json_each followed by a comma. *)
Definition with_commas (l : list str) : str := concat (map (fun x => x ++ lit "," ++ HTTP_EOL) l).

(** [m] appends the items of [r] with their commas, or fails as [r] does. *)
Definition emits_lines (n : nat) (m : json_printer unit) (r : res (list str)) : Prop :=
  forall s, m (printed_at n s) = (l ← r; Ok (tt, printed_at n (s ++ with_commas l))).

(** The last item does not end in a comma, and none follows it. *)
Definition ends_plain (l : list str) : Prop := exists l0 x ch, l = l0 ++ [x ++ [ch]] /\ ch <> ","%char.

Definition emits_last (n : nat) (m : json_printer unit) (r : res (list str)) : Prop :=
  (forall s, m (printed_at n s) = (l ← r; Ok (tt, printed_at n (s ++ joined l)))) /\ (forall l, r = Ok l -> ends_plain l).

(** The text of a member or an element [n] levels deep. *)
Definition member_text (n : nat) (m : str * json) : str := indent_text n ++ label m.1 ++ json_text n m.2.
Definition element_text (n : nat) (v : json) : str := indent_text n ++ json_text n v.

Lemma indent_text_succ n : indent_text n ++ lit "  " = indent_text (S n).
Proof. unfold indent_text. rewrite <- (Nat.add_1_r n), replicate_add, concat_app. simpl. done. Qed.

Lemma indent_text_length n : length (indent_text n) = (n * 2)%nat.
Proof. induction n; [done|]. unfold indent_text in *. cbn [replicate concat]. rewrite length_app, IHn. simpl. lia. Qed.

Lemma json_write_at n x s : json_write x (printed_at n s) = Ok (tt, printed_at n (s ++ x)).
Proof. unfold json_write, printed_at. cbn [js_ss indentation]. by rewrite write_at_end. Qed.

(** [label], or nothing for the elements of a list. *)
Definition opening (name : str) : str := match name with [] => [] | _ => label name end.

Lemma startObject_at n name ch s :
  startObject name ch (printed_at n s) = Ok (tt, printed_at (S n) (s ++ indent_text n ++ opening name ++ ch :: HTTP_EOL)).
Proof.
  unfold startObject, printed_at, json_write, indent_inc. cbn [js_ss indentation indent_ indstr_ len_].
  rewrite write_at_end, indent_text_succ. do 5 f_equal. unfold opening, label, quoted. destruct name; [done|]. f_equal. cbn [app]. by rewrite <- !app_assoc.
Qed.

Lemma indent_dec_at n s : indent_dec (indentation (printed_at (S n) s)) = Ok (indentation (printed_at n s)).
Proof.
  unfold indent_dec, printed_at. cbn [indentation len_ indent_ indstr_]. change (length (lit "  ")) with 2%nat.
  rewrite indent_text_length. destruct (Nat.ltb_spec (S n * 2) (n * 2)); [lia|]. rewrite <- indent_text_succ.
  rewrite take_app_le by (rewrite indent_text_length; lia). by rewrite take_ge by (rewrite indent_text_length; lia).
Qed.

Definition end_text (lea : LineEndAction) : str :=
  match lea with NewLineOnly => HTTP_EOL | DelimiterOnly => lit "," | _ => lit "," ++ HTTP_EOL end.

(** [endObject] when the printed text does not end in a comma. *)
Lemma endObject_keep n lea ch x d s : lea <> LineEndAction_Spare -> d <> ","%char -> s = x ++ d :: HTTP_EOL ->
  endObject lea ch (printed_at (S n) s) = Ok (tt, printed_at n (s ++ indent_text n ++ ch :: end_text lea)).
Proof.
  intros Hl Hd ->. unfold endObject. rewrite indent_dec_at. cbn [js_ss printed_at].
  assert (take_comma_back (at_end (x ++ d :: HTTP_EOL)) = at_end (x ++ d :: HTTP_EOL)) as ->.
  { unfold take_comma_back, seekg_end, seekg, in_buffer, ss_peek, tellg. cbn [at_end ss_fail ss_buf ss_get].
    assert (size (x ++ d :: HTTP_EOL) + -3 = Z.of_nat (length x)) as -> by (rewrite size_app; unfold size; simpl; lia).
    rewrite (proj2 (Z.leb_le 0 _)) by lia. rewrite (proj2 (Z.leb_le _ (size _))) by (rewrite size_app; unfold size; simpl; lia).
    cbn [andb ss_fail ss_buf ss_get]. rewrite Nat2Z.id, lookup_app_r, Nat.sub_diag by lia. cbn [lookup list_lookup].
    rewrite bool_decide_eq_false_2 by congruence. cbn [ss_fail ss_buf ss_get ss_put].
    rewrite (proj2 (Z.leb_le _ (size _))) by (rewrite size_app; unfold size; simpl; lia). done. }
  cbn [indentation printed_at indent_]. rewrite write_at_end.
  destruct lea; [| | |done]; rewrite write_at_end; unfold printed_at; cbn [end_text]; by rewrite <- !app_assoc.
Qed.

(** [endObject] when it ends in one: the comma is gone. *)
Lemma endObject_comma n lea ch x s : lea <> LineEndAction_Spare -> s = x ++ lit "," ++ HTTP_EOL ->
  endObject lea ch (printed_at (S n) s) = Ok (tt, printed_at n (x ++ HTTP_EOL ++ indent_text n ++ ch :: end_text lea)).
Proof.
  intros Hl ->. unfold endObject. rewrite indent_dec_at. cbn [js_ss printed_at].
  assert (take_comma_back (at_end (x ++ lit "," ++ HTTP_EOL)) = Stream (x ++ HTTP_EOL ++ [LF]) (length x + 2) 0 false) as ->.
  { unfold take_comma_back, seekg_end, seekg, in_buffer, ss_peek, tellg. cbn [at_end ss_fail ss_buf ss_get].
    assert (size (x ++ lit "," ++ HTTP_EOL) + -3 = Z.of_nat (length x)) as -> by (rewrite size_app; unfold size; simpl; lia).
    rewrite (proj2 (Z.leb_le 0 _)) by lia. rewrite (proj2 (Z.leb_le _ (size _))) by (rewrite size_app; unfold size; simpl; lia).
    cbn [andb ss_fail ss_buf ss_get]. rewrite Nat2Z.id, lookup_app_r, Nat.sub_diag by lia. cbn [lookup list_lookup lit Stdlib.Strings.String.list_ascii_of_string app].
    rewrite bool_decide_eq_true_2 by done. unfold seekp, in_buffer. cbn [ss_fail ss_buf ss_get ss_put].
    rewrite (proj2 (Z.leb_le 0 _)) by lia. rewrite (proj2 (Z.leb_le _ (size _))) by (rewrite size_app; unfold size; simpl; lia).
    cbn [andb]. rewrite Nat2Z.id. unfold ss_write. cbn [ss_fail ss_buf ss_get ss_put].
    rewrite take_app_length, drop_app. rewrite (drop_ge x) by lia.
    replace (length x + length HTTP_EOL - length x)%nat with 2%nat by (simpl; lia). cbn [skipn app HTTP_EOL].
    cbn [ss_fail ss_buf ss_get ss_put].
    rewrite (proj2 (Z.leb_le _ (size _))) by (rewrite size_app; unfold size; simpl; lia). done. }
  cbn [indentation printed_at indent_].
  assert (ss_write (indent_text n ++ [ch]) (Stream (x ++ HTTP_EOL ++ [LF]) (length x + 2) 0 false) = at_end (x ++ HTTP_EOL ++ indent_text n ++ [ch])) as ->.
  { unfold ss_write. cbn [ss_fail ss_buf ss_get ss_put].
    assert (x ++ HTTP_EOL ++ [LF] = (x ++ HTTP_EOL) ++ [LF]) as -> by by rewrite <- app_assoc.
    assert (length x + 2 = length (x ++ HTTP_EOL))%nat as -> by (rewrite length_app; done).
    rewrite take_app_length. rewrite drop_ge by (rewrite !length_app; simpl; lia). rewrite app_nil_r.
    unfold at_end. f_equal; [by rewrite <- !app_assoc|]. rewrite !length_app. simpl. lia. }
  destruct lea; [| | |done]; rewrite write_at_end; unfold printed_at; cbn [end_text]; by rewrite <- !app_assoc.
Qed.

(** Lines with commas are joined lines but for the last comma. *)
Lemma with_commas_joined l : l <> [] -> exists x, with_commas l = x ++ lit "," ++ HTTP_EOL /\ joined l = x ++ HTTP_EOL.
Proof.
  induction l as [|a l IH]; [done|]. intros _. destruct l as [|b l]; [exists a; unfold with_commas; simpl; by rewrite app_nil_r|].
  destruct IH as (x & H1 & H2); [done|]. exists (a ++ lit "," ++ HTTP_EOL ++ x).
  change (with_commas (a :: b :: l)) with ((a ++ lit "," ++ HTTP_EOL) ++ with_commas (b :: l)).
  change (joined (a :: b :: l)) with (a ++ lit "," ++ HTTP_EOL ++ joined (b :: l)). rewrite H1, H2. by rewrite <- !app_assoc.
Qed.

Lemma with_commas_app l k : with_commas (l ++ k) = with_commas l ++ with_commas k.
Proof. unfold with_commas. by rewrite map_app, concat_app. Qed.

Lemma joined_app l k : k <> [] -> joined (l ++ k) = with_commas l ++ joined k.
Proof.
  intros Hk. induction l as [|a l IH]; [done|]. change (with_commas (a :: l)) with ((a ++ lit "," ++ HTTP_EOL) ++ with_commas l).
  assert (l ++ k <> []) by (destruct l; done). rewrite <- app_comm_cons. destruct (l ++ k) as [|b t] eqn:E; [done|].
  cbn [joined]. cbn [joined] in IH. rewrite IH. by rewrite <- !app_assoc.
Qed.

(** ** The groups *)

(** A body is done either way. *)
Definition emits_body (n : nat) (m : json_printer unit) (r : res (list str)) : Prop := emits_lines n m r \/ emits_last n m r.

Lemma group_at n name lea o ch body r s : lea <> LineEndAction_Spare -> o <> ","%char -> emits_body (S n) body r ->
  (startObject name o ;; body ;; endObject lea ch) (printed_at n s) =
    (l ← r; Ok (tt, printed_at n (s ++ (indent_text n ++ opening name ++ o :: HTTP_EOL ++ joined l ++ indent_text n ++ [ch]) ++ end_text lea))).
Proof.
  intros Hl Ho Hb. unfold mbind at 1, printer_bind at 1. rewrite startObject_at.
  set (hd := s ++ indent_text n ++ opening name ++ o :: HTTP_EOL).
  assert (Hhd : hd = (s ++ indent_text n ++ opening name) ++ o :: HTTP_EOL) by (unfold hd; same_text).
  unfold mbind at 1, printer_bind at 1. destruct Hb as [Hb|[Hb He]]; rewrite Hb; (destruct r as [l|e]; [|done]); cbn [mbind res_bind].
  - destruct (decide (l = [])) as [->|Hn].
    + cbn [with_commas map concat]. rewrite app_nil_r.
      rewrite (endObject_keep n lea ch _ o hd Hl Ho Hhd). do 3 f_equal. unfold hd. cbn [joined app]. same_text.
    + destruct (with_commas_joined l Hn) as (x & -> & ->). rewrite app_assoc.
      rewrite (endObject_comma n lea ch (hd ++ x)) by (done || by rewrite <- !app_assoc). do 3 f_equal. unfold hd. same_text.
  - destruct (He l eq_refl) as (l0 & x & d & -> & Hd). rewrite joined_app by done. cbn [joined].
    rewrite (endObject_keep n lea ch (hd ++ with_commas l0 ++ x) d) by (done || by rewrite <- !app_assoc). do 3 f_equal. unfold hd. same_text.
Qed.

(** ** Composition *)

(** Members of the document with the printer that writes them, followed by a comma or not. *)
Definition emits_members (n : nat) (m : json_printer unit) (r : res (list (str * json))) : Prop :=
  emits_lines n m (map (member_text n) <$> r).
Definition emits_members_last (n : nat) (m : json_printer unit) (r : res (list (str * json))) : Prop :=
  emits_last n m (map (member_text n) <$> r).

Lemma emits_nil n : emits_lines n (mret tt) (Ok []).
Proof. intros s. cbn. unfold with_commas. simpl. by rewrite app_nil_r. Qed.

Lemma emits_seq n m1 m2 r1 r2 : emits_lines n m1 r1 -> emits_lines n m2 r2 -> emits_lines n (m1 ;; m2) (a ← r1; b ← r2; Ok (a ++ b)).
Proof.
  intros H1 H2 s. unfold mbind at 1, printer_bind. rewrite H1. destruct r1 as [a|e]; [|done]. cbn [mbind res_bind].
  rewrite H2. destruct r2 as [b|e]; [|done]. cbn [mbind res_bind]. by rewrite with_commas_app, app_assoc.
Qed.

Lemma emits_seq_last n m1 m2 r1 r2 : emits_lines n m1 r1 -> emits_last n m2 r2 -> emits_last n (m1 ;; m2) (a ← r1; b ← r2; Ok (a ++ b)).
Proof.
  intros H1 [H2 He]. split.
  - intros s. unfold mbind at 1, printer_bind. rewrite H1. destruct r1 as [a|e]; [|done]. cbn [mbind res_bind].
    rewrite H2. destruct r2 as [b|e]; [|done]. cbn [mbind res_bind]. destruct (He b eq_refl) as (l0 & x & d & -> & _).
    rewrite (joined_app a) by (by destruct l0). by rewrite app_assoc.
  - intros l. destruct r1 as [a|]; [|done]. destruct r2 as [b|]; [|done]. cbn. intros [= <-].
    destruct (He b eq_refl) as (l0 & x & d & -> & Hd). exists (a ++ l0), x, d. by rewrite app_assoc.
Qed.

Lemma emits_bind {A} n (r : res A) f (k : A -> res (list str)) :
  (forall a, emits_lines n (f a) (k a)) -> emits_lines n (x ← of_res r; f x) (x ← r; k x).
Proof. intros H s. unfold mbind at 1, printer_bind, of_res. destruct r; [apply H|done]. Qed.

Lemma emits_bind_last {A} n (r : res A) f (k : A -> res (list str)) :
  (forall a, emits_last n (f a) (k a)) -> emits_last n (x ← of_res r; f x) (x ← r; k x).
Proof.
  intros H. split.
  - intros s. unfold mbind at 1, printer_bind, of_res. destruct r; [apply H|done].
  - destruct r; [apply H|done].
Qed.

Lemma emits_each {A B} n (f : A -> json_printer unit) (g : A -> res B) (t : B -> str) l :
  (forall a, emits_lines n (f a) ((fun b => [t b]) <$> g a)) -> emits_lines n (json_each f l) (map t <$> mapM g l).
Proof.
  intros H. induction l as [|a l IH]; [apply emits_nil|].
  pose proof (emits_seq _ _ _ _ _ (H a) IH) as HS. cbn [json_each]. cbn [mapM]. destruct (g a) as [b|e]; [|done].
  cbn [fmap res_fmap mbind res_bind] in *. by destruct (mapM g l).
Qed.

Lemma emits_printCounters nt n l : emits_members n (printCounters nt l) (members nt l).
Proof.
  unfold emits_members. induction l as [|[name v] l IH]; [apply emits_nil|]. cbn [printCounters members mapM fst snd].
  destruct v as [v|e]; [|done]. cbn [mbind res_bind].
  assert (emits_lines n (printCounter nt name v) (Ok [member_text n (name, json_of nt v)])) as HC.
  { intros s. unfold printCounter. rewrite json_write_at. cbn [mbind res_bind]. do 4 f_equal. unfold with_commas, member_text, label, quoted.
    cbn [map concat fst snd app indentation printed_at indent_]. rewrite app_nil_r. destruct v; cbn [json_of json_text]; unfold quoted; cbn [app]; same_text. }
  pose proof (emits_seq _ _ _ _ _ HC IH) as HS. unfold members in HS. intros s. specialize (HS s).
  unfold mbind at 1, printer_bind at 1, of_res. cbn [mbind res_bind] in HS. unfold mbind, printer_bind in HS |- *.
  rewrite HS. by destruct (mapM _ l).
Qed.

Lemma opening_label name : name <> [] -> opening name = label name.
Proof. by destruct name. Qed.

Definition group_text (n : nat) (name : str) (v : json) : str := indent_text n ++ opening name ++ json_text n v.

Lemma group_emits {A} n name o ch body (r : res A) (texts : A -> list str) (v : A -> json) :
  o <> ","%char -> ch <> ","%char ->
  (forall a, json_text n (v a) = o :: HTTP_EOL ++ joined (texts a) ++ indent_text n ++ [ch]) -> emits_body (S n) body (texts <$> r) ->
  emits_lines n (startObject name o ;; body ;; endObject DelimiterAndNewLine ch) ((fun a => [group_text n name (v a)]) <$> r) /\
  emits_last n (startObject name o ;; body ;; endObject NewLineOnly ch) ((fun a => [group_text n name (v a)]) <$> r).
Proof.
  intros Ho Hc Hv Hb. split; [|split].
  - intros s. rewrite (group_at n name DelimiterAndNewLine o ch body (texts <$> r) s) by done. destruct r as [a|e]; [|done].
    cbn. unfold with_commas, group_text. cbn [map concat]. rewrite Hv, app_nil_r. do 3 f_equal; same_text.
  - intros s. rewrite (group_at n name NewLineOnly o ch body (texts <$> r) s) by done. destruct r as [a|e]; [|done].
    cbn. unfold group_text. rewrite Hv. do 3 f_equal; same_text.
  - intros l. destruct r as [a|]; [|done]. cbn. intros [= <-].
    exists [], (indent_text n ++ opening name ++ o :: HTTP_EOL ++ joined (texts a) ++ indent_text n), ch. unfold group_text. rewrite Hv. split; [|done]. cbn [app]. f_equal; same_text.
Qed.

(** [object] with members, and [list_] with objects as elements. *)
Lemma object_emits n name body r : emits_members (S n) body r \/ emits_members_last (S n) body r ->
  emits_lines n (object name DelimiterAndNewLine body) ((fun l => [group_text n name (JObject l)]) <$> r) /\
  emits_last n (object name NewLineOnly body) ((fun l => [group_text n name (JObject l)]) <$> r).
Proof. intros H. by apply (group_emits n name "{"%char "}"%char body r (map (member_text (S n)))). Qed.

Lemma list_emits n name body r : emits_lines (S n) body (map (element_text (S n)) <$> r) ->
  emits_lines n (list_ name DelimiterAndNewLine body) ((fun l => [group_text n name (JArray l)]) <$> r).
Proof. intros H. apply (group_emits n name "["%char "]"%char body r (map (element_text (S n)))); try done. by left. Qed.

(** The same as members with names. *)
Lemma member_group n name v : name <> [] -> group_text n name v = member_text n (name, v).
Proof. intros. unfold group_text, member_text. by rewrite opening_label. Qed.

Lemma emits_ext n m r r' : r = r' -> emits_lines n m r -> emits_lines n m r'.
Proof. by intros ->. Qed.

Lemma emits_object n name body r : name <> [] -> emits_members (S n) body r \/ emits_members_last (S n) body r ->
  emits_members n (object name DelimiterAndNewLine body) (l ← r; Ok [(name, JObject l)]).
Proof.
  intros Hn H. destruct (object_emits n name body r H) as [H1 _]. unfold emits_members. eapply emits_ext; [|exact H1].
  destruct r; [|done]. cbn. by rewrite member_group.
Qed.

Lemma emits_object_last n name body r : name <> [] -> emits_members (S n) body r \/ emits_members_last (S n) body r ->
  emits_members_last n (object name NewLineOnly body) (l ← r; Ok [(name, JObject l)]).
Proof.
  intros Hn H. destruct (object_emits n name body r H) as [_ H1]. unfold emits_members_last.
  assert (map (member_text n) <$> (l ← r; Ok [(name, JObject l)]) = (fun l => [group_text n name (JObject l)]) <$> r) as ->; [|done].
  destruct r; [|done]. cbn. by rewrite member_group.
Qed.

(** A list of the objects of a vector. *)
Lemma emits_vector {A} n name (accept : A -> json_printer unit) (doc : A -> res (list (str * json))) l : name <> [] ->
  (forall m a, emits_members m (accept a) (doc a) \/ emits_members_last m (accept a) (doc a)) ->
  emits_members n (list_ name DelimiterAndNewLine (iterateVectorAndCallAccept accept l)) (ds ← mapM doc l; Ok [(name, JArray (map JObject ds))]).
Proof.
  intros Hn H.
  assert (HE : emits_lines (S n) (iterateVectorAndCallAccept accept l) (map (element_text (S n)) <$> (map JObject <$> mapM doc l))).
  { eapply emits_ext; [|apply (emits_each (S n) _ doc (fun d => element_text (S n) (JObject d)))].
    - destruct (mapM doc l); [|done]. cbn. by rewrite map_map.
    - intros a. eapply emits_ext; [|apply object_emits, H]. by destruct (doc a). }
  pose proof (list_emits n name _ _ HE) as HL. unfold emits_members. eapply emits_ext; [|exact HL].
  destruct (mapM doc l); [|done]. cbn. by rewrite member_group.
Qed.

Lemma members_seq n m1 m2 r1 r2 : emits_members n m1 r1 -> emits_members n m2 r2 ->
  emits_members n (m1 ;; m2) (a ← r1; b ← r2; Ok (a ++ b)).
Proof.
  intros H1 H2. eapply emits_ext; [|apply (emits_seq _ _ _ _ _ H1 H2)]. destruct r1; [|done]. destruct r2; [|done]. cbn. by rewrite map_app.
Qed.

Lemma members_seq_last n m1 m2 r1 r2 : emits_members n m1 r1 -> emits_members_last n m2 r2 ->
  emits_members_last n (m1 ;; m2) (a ← r1; b ← r2; Ok (a ++ b)).
Proof.
  intros H1 H2. pose proof (emits_seq_last _ _ _ _ _ H1 H2) as H. unfold emits_members_last.
  assert (map (member_text n) <$> (a ← r1; b ← r2; Ok (a ++ b)) = (a ← map (member_text n) <$> r1; b ← map (member_text n) <$> r2; Ok (a ++ b))) as ->; [|done].
  destruct r1; [|done]. destruct r2; [|done]. cbn. by rewrite map_app.
Qed.

Lemma members_ext n m r r' : r = r' -> emits_members n m r -> emits_members n m r'.
Proof. by intros ->. Qed.
Lemma members_last_ext n m r r' : r = r' -> emits_members_last n m r -> emits_members_last n m r'.
Proof. by intros ->. Qed.

Lemma members_bind {A} n (r : res A) f (k : A -> res (list (str * json))) :
  (forall a, emits_members n (f a) (k a)) -> emits_members n (x ← of_res r; f x) (x ← r; k x).
Proof. intros H s. unfold mbind at 1, printer_bind, of_res. destruct r; [apply H|done]. Qed.

Lemma members_bind_last {A} n (r : res A) f (k : A -> res (list (str * json))) :
  (forall a, emits_members_last n (f a) (k a)) -> emits_members_last n (x ← of_res r; f x) (x ← r; k x).
Proof.
  intros H. split.
  - intros s. unfold mbind at 1, printer_bind, of_res. destruct r; [apply H|done].
  - destruct r; [apply H|done].
Qed.

(** * The refinement *)

Section Refinement.

Context (nan_text : str) (pm : pcm_metrics) (undefined_int undefined_u64 : double -> Z).
Context (c : sampler) (col : option PCIeCollector) (ac : accel_state).
Context (first second : option timed_sample).

Lemma printBasic_members n before after :
  emits_members_last n (printBasicCounterState nan_text pm undefined_int before after) (basic_members nan_text pm undefined_int before after).
Proof.
  eapply members_last_ext; [|refine (members_seq_last _ _ _ _ _ _ (members_seq_last _ _ _ _ _ _ _));
    [apply emits_object; [done|left; apply emits_printCounters]..|apply emits_object_last; [done|left; apply emits_printCounters]]].
  unfold basic_members. destruct (members nan_text (core_counters _ _ _ _)); [|done].
  destruct (members nan_text (energy_state_counters _ _)); [|done]. by destruct (members nan_text (bandwidth_counters _ _ _)).
Qed.

Lemma printUncore_members n before after :
  emits_members_last n (printUncoreCounterState nan_text pm undefined_int before after) (uncore_members nan_text pm undefined_int before after).
Proof. apply emits_object_last; [done|left; apply emits_printCounters]. Qed.

Lemma numbered_members n name l (r : list nat) : name <> [] ->
  emits_members n (json_each (fun i => object (name ++ to_string (Z.of_nat i)) DelimiterAndNewLine (printCounters nan_text (l i))) r)
    (mapM (numbered nan_text name l) r).
Proof.
  intros Hn. unfold emits_members. eapply emits_ext; [|apply (emits_each n _ (numbered nan_text name l) (member_text n))]; [done|].
  intros i. eapply emits_ext; [|apply (emits_object n (name ++ to_string (Z.of_nat i))); [by destruct name|left; apply emits_printCounters]].
  unfold numbered. by destruct (members nan_text (l i)).
Qed.

Lemma printPCIe_members n :
  emits_members n (printPCIeCounterState nan_text col) (pcie_members nan_text col) \/
  emits_members_last n (printPCIeCounterState nan_text col) (pcie_members nan_text col).
Proof.
  destruct col as [col'|]; [right|left; apply emits_nil].
  eapply members_last_ext; [|apply members_seq_last; [by apply numbered_members|apply emits_object_last; [done|left; apply emits_printCounters]]].
  unfold pcie_members. destruct (mapM _ _); [|done]. by destruct (members nan_text _).
Qed.

Lemma accel_name : getAccelCounterName ac ++ lit " Counters Device " <> [].
Proof. by destruct (getAccelCounterName ac). Qed.

Lemma printAccel_members n before after :
  emits_members n (printAccelCounterState nan_text undefined_u64 ac before after) (accelerator_members nan_text undefined_u64 ac before after).
Proof.
  unfold printAccelCounterState, accelerator_members.
  replace (json_each _ _) with (json_each (fun i => object ((getAccelCounterName ac ++ lit " Counters Device ") ++ to_string (Z.of_nat i)) DelimiterAndNewLine
                   (printCounters nan_text (accelerator_counters undefined_u64 ac before after i))) (seq 0 (Z.to_nat (ac_devs ac)))).
  - apply numbered_members, accel_name.
  - induction (seq 0 (Z.to_nat (ac_devs ac))) as [|i l IH]; [done|]. cbn [json_each]. by rewrite IH, <- app_assoc.
Qed.

Lemma printSystem_members n before after :
  emits_members n (printSystemCounterState nan_text pm undefined_u64 before after) (system_members nan_text pm undefined_u64 before after).
Proof. by apply numbered_members. Qed.

Lemma thread_members n ht :
  emits_members_last n (dispatch_HyperThread nan_text pm undefined_int first second ht) (thread_document nan_text pm undefined_int first second ht).
Proof.
  eapply members_last_ext; [|apply members_seq_last; [apply emits_printCounters|]].
  2: { apply members_bind_last. intros before. apply members_bind_last. intros after. apply printBasic_members. }
  unfold thread_document. cbn [members mapM fst snd mbind res_bind text_counter int_counter mret res_ret].
  destruct (getCoreCounter first (osID ht)); [|done]. cbn [mbind res_bind]. by destruct (getCoreCounter second (osID ht)).
Qed.

Lemma uncore_document_members n socketID :
  emits_members_last n (dispatch_Uncore nan_text pm undefined_int first second socketID) (uncore_document nan_text pm undefined_int first second socketID).
Proof.
  eapply members_last_ext; [|apply members_seq_last; [apply emits_printCounters|]].
  2: { apply members_bind_last. intros before. apply members_bind_last. intros after. apply printUncore_members. }
  unfold uncore_document. cbn [members mapM fst snd mbind res_bind text_counter mret res_ret].
  destruct (getSocketCounter first socketID); [|done]. cbn [mbind res_bind]. by destruct (getSocketCounter second socketID).
Qed.

Lemma core_document_members n core :
  emits_members n (dispatch_Core nan_text pm undefined_int first second core) (core_document nan_text pm undefined_int first second core).
Proof.
  eapply members_ext; [|apply members_seq; [apply emits_printCounters|apply members_seq; [|apply emits_printCounters]]].
  2: { apply (emits_vector n (lit "Threads") _ (thread_document nan_text pm undefined_int first second)); [done|].
       intros m ht. right. apply thread_members. }
  unfold core_document. set (numbers := members nan_text (core_numbers core)). cbn [members mapM fst snd mbind res_bind text_counter size_counter int_counter mret res_ret].
  destruct (mapM _ core); [|done]. cbn [mbind res_bind]. by destruct numbers.
Qed.

Lemma socket_document_members n s :
  emits_members_last n (dispatch_Socket nan_text pm undefined_int first second s) (socket_document nan_text pm undefined_int first second s).
Proof.
  eapply members_last_ext; [|apply members_seq_last; [apply emits_printCounters|apply members_seq_last; [|apply members_seq_last;
    [apply emits_object; [done|right; apply uncore_document_members]|apply emits_object_last; [done|right]]]]].
  2: { apply (emits_vector n (lit "Cores") _ (core_document nan_text pm undefined_int first second)); [done|].
       intros m core. left. apply core_document_members. }
  2: { apply members_bind_last. intros before. apply members_bind_last. intros after. apply printBasic_members. }
  unfold socket_document. cbn [members mapM fst snd mbind res_bind text_counter size_counter int_counter mret res_ret].
  destruct (mapM _ (cores s)); [|done]. cbn [mbind res_bind]. destruct (uncore_document _ _ _ _ _ _); [|done]. cbn [mbind res_bind].
  destruct (getSocketCounter first (logicalID s)); [|done]. cbn [mbind res_bind]. destruct (getSocketCounter second (logicalID s)); [|done].
  cbn [mbind res_bind]. by destruct (basic_members _ _ _ _ _).
Qed.

(** The members of the document. *)
Definition root_members (s : SystemRoot) (us : Z) : res (list (str * json)) :=
  d ← document nan_text pm undefined_int undefined_u64 c col ac first second s;
  Ok (match d with JObject l => l | _ => [] end).

Lemma root_body_members n s us : interval first second = Ok us ->
  emits_members_last n
   (printCounters nan_text [int_counter "Interval us" us; text_counter "Object" "SystemRoot"; size_counter "Number of sockets" (sockets s)] ;;
    list_ (lit "Sockets") DelimiterAndNewLine (iterateVectorAndCallAccept (dispatch_Socket nan_text pm undefined_int first second) (sockets s)) ;;
    let before := getSystemCounter c first in
    let after := getSystemCounter c second in
    (if negb (ac_accel ac =? ACCEL_NOCONFIG)
     then object (lit "Accelerators") DelimiterAndNewLine (printAccelCounterState nan_text undefined_u64 ac (accel_counters first) (accel_counters second))
     else mret tt) ;;
    object (lit "QPI/UPI Links") DelimiterAndNewLine (printSystemCounterState nan_text pm undefined_u64 before after) ;;
    object (lit "Core Aggregate") DelimiterAndNewLine (printBasicCounterState nan_text pm undefined_int (basic (sy_counters before)) (basic (sy_counters after))) ;;
    object (lit "Uncore Aggregate") DelimiterAndNewLine (printUncoreCounterState nan_text pm undefined_int (sy_counters before) (sy_counters after)) ;;
    object (lit "PCIe Bandwidth") NewLineOnly (printPCIeCounterState nan_text col))
   (root_members s us).
Proof.
  intros Hus. cbv zeta.
  assert (HA : forall b, emits_members n (if b : bool
     then object (lit "Accelerators") DelimiterAndNewLine (printAccelCounterState nan_text undefined_u64 ac (accel_counters first) (accel_counters second))
     else mret tt) (if b then l ← accelerator_members nan_text undefined_u64 ac (accel_counters first) (accel_counters second); Ok [(lit "Accelerators", JObject l)] else Ok [])).
  { intros []; [|apply emits_nil]. apply emits_object; [done|left; apply printAccel_members]. }
  eapply members_last_ext; [|apply members_seq_last; [apply emits_printCounters|apply members_seq_last; [|apply members_seq_last; [apply HA|
    apply members_seq_last; [apply emits_object; [done|left; apply printSystem_members]|
    apply members_seq_last; [apply emits_object; [done|right; apply printBasic_members]|
    apply members_seq_last; [apply emits_object; [done|right; apply printUncore_members]|apply emits_object_last; [done|apply printPCIe_members]]]]]]]].
  2: { apply (emits_vector n (lit "Sockets") _ (socket_document nan_text pm undefined_int first second)); [done|].
       intros m x. right. apply socket_document_members. }
  unfold root_members, document. rewrite Hus. cbn [members mapM fst snd mbind res_bind text_counter size_counter int_counter mret res_ret]. cbv zeta.
  destruct (mapM _ (sockets s)); [|done]. cbn [mbind res_bind].
  destruct (if negb _ then _ else _) as [acc|]; [|done]. cbn [mbind res_bind].
  destruct (system_members _ _ _ _ _); [|done]. cbn [mbind res_bind].
  destruct (basic_members _ _ _ _ _); [|done]. cbn [mbind res_bind].
  destruct (uncore_members _ _ _ _ _); [|done]. cbn [mbind res_bind].
  by destruct (pcie_members _ _).
Qed.

(** What [JSONPrinter] prints is the layout of the document, and it throws what computing the
    document throws. *)
Lemma print_json_document s : is_Some second ->
  print_json nan_text pm undefined_int undefined_u64 c col ac first second s =
    (d ← document nan_text pm undefined_int undefined_u64 c col ac first second s; Ok (json_text 0 d ++ HTTP_EOL)).
Proof.
  intros [a Ha]. unfold print_json, dispatch_SystemRoot. rewrite Ha at 1.
  destruct (interval first second) as [us|e] eqn:Hus.
  - destruct (object_emits 0 [] _ _ (or_intror (root_body_members 1 s us Hus))) as [_ [HO _]].
    specialize (HO []). change (printed_at 0 []) with json_state_init in HO.
    match type of HO with ?m _ = _ => change ((us ← of_res (Ok us); _) json_state_init) with (m json_state_init) end.
    rewrite HO. unfold root_members.
    destruct (document _ _ _ _ _ _ _ _ _ _) as [d|e] eqn:Hd; [|done]. cbn [mbind res_bind fmap res_fmap snd js_ss printed_at ss_buf at_end app joined].
    assert (exists l, d = JObject l) as [l ->]; [|done].
    revert Hd. unfold document. rewrite Hus. cbn [mbind res_bind]. cbv zeta. intros Hd.
    repeat (apply bind_ok in Hd as (? & _ & Hd)). apply Ok_inj in Hd as <-. eauto.
  - unfold document. by rewrite Hus.
Qed.

End Refinement.

(** * Valid documents *)

Section Valid.

Context (nan_text : str).

(** A value that has a JSON text: no infinity and no NaN. *)
Definition printed_ok (v : printed) : Prop :=
  match v with CInt _ => True | CReal x => finite x = true | CText s => plain_text s = true end.

Definition counter_ok (nv : str * res printed) : Prop := plain_text nv.1 = true /\ forall v, nv.2 = Ok v -> printed_ok v.

Definition members_ok (l : list (str * json)) : bool := forallb (fun m => plain_text m.1 && json_ok m.2) l.

Lemma json_of_ok v : printed_ok v -> json_ok (json_of nan_text v) = true.
Proof. destruct v; simpl; [intros; apply show_int_number|apply fixed3_number|done]. Qed.

Lemma mapM_ok {A B} (f : A -> res B) (Q : B -> Prop) l k : (forall a b, a ∈ l -> f a = Ok b -> Q b) -> mapM f l = Ok k -> Forall Q k.
Proof.
  revert k. induction l as [|a l IH]; intros k H; cbn [mapM].
  - intros [= <-]. constructor.
  - intros E. apply bind_ok in E as (b & Hb & E). apply bind_ok in E as (k' & Hk & E). injection E as <-.
    constructor; [by eapply H; [left|]|]. apply IH; [|done]. intros x y Hx. apply H. by right.
Qed.

Lemma mapM_members_ok {A} (f : A -> res (str * json)) l k :
  (forall a m, a ∈ l -> f a = Ok m -> plain_text m.1 && json_ok m.2 = true) -> mapM f l = Ok k -> members_ok k = true.
Proof.
  intros H E. apply forallb_forall. intros m Hm. apply list_elem_of_In in Hm. revert m Hm. by apply Forall_forall, (mapM_ok f _ l).
Qed.

Lemma members_valid l k : Forall counter_ok l -> members nan_text l = Ok k -> members_ok k = true.
Proof.
  intros H. apply mapM_members_ok. intros [name v] m Hm E. rewrite Forall_forall in H. destruct (H _ Hm) as [Hn Hv].
  apply bind_ok in E as (x & Hx & E). injection E as <-. cbn [fst snd] in *. rewrite Hn. by apply json_of_ok, Hv.
Qed.

Lemma members_ok_app l k : members_ok (l ++ k) = members_ok l && members_ok k.
Proof. apply forallb_app. Qed.

Lemma int_counter_ok (name : string) n : plain_text (lit name) = true -> counter_ok (int_counter name n).
Proof. split; [done|]. by intros v [= <-]. Qed.
Lemma real_counter_ok (name : string) x : plain_text (lit name) = true -> finite x = true -> counter_ok (real_counter name x).
Proof. split; [done|]. by intros v [= <-]. Qed.
Lemma text_counter_ok (name value : string) : plain_text (lit name) = true -> plain_text (lit value) = true -> counter_ok (text_counter name value).
Proof. split; [done|]. by intros v [= <-]. Qed.
Lemma fmap_int_ok (name : str) (r : res Z) : plain_text name = true -> counter_ok (name, CInt <$> r).
Proof. split; [done|]. cbn. destruct r; [|done]. by intros v [= <-]. Qed.
Lemma fmap_real_ok (name : str) (r : res double) : plain_text name = true -> (forall x, r = Ok x -> finite x = true) -> counter_ok (name, CReal <$> r).
Proof. intros Hn Hr. split; [done|]. cbn. destruct r as [x|]; [|done]. intros v Hv. apply Ok_inj in Hv as <-. by apply Hr. Qed.
Lemma percent_counter_ok u (name : string) r : plain_text (lit name) = true -> counter_ok (percent_counter u name r).
Proof. split; [done|]. unfold percent_counter. cbn. destruct r; [|done]. intros v Hv. by apply Ok_inj in Hv as <-. Qed.

End Valid.

Create HintDb counter.
#[export] Hint Resolve int_counter_ok text_counter_ok percent_counter_ok real_counter_ok fmap_int_ok : counter.

Ltac counters_ok := repeat first [apply Forall_cons; split | apply Forall_nil | apply Forall_app; split]; auto with counter.

Section ValidDocument.

Context (nan_text : str) (pm : pcm_metrics) (undefined_int undefined_u64 : double -> Z) (Hpm : good_metrics pm).

Lemma basic_counters_ok b a : Forall counter_ok (basic_counters pm b a).
Proof. unfold basic_counters. counters_ok. Qed.

Lemma core_counters_ok b a : Forall counter_ok (core_counters pm undefined_int b a).
Proof using Hpm.
  unfold core_counters. apply Forall_app. split; [apply basic_counters_ok|]. counters_ok.
  apply real_counter_ok; [done|]. by apply active_frequency_finite.
Qed.

Lemma residency_counters_ok f : (forall i, finite (f i) = true) -> Forall counter_ok (residency_counters f).
Proof.
  intros H. apply Forall_map, Forall_true. intros i. split; [|by intros v [= <-]; apply H].
  unfold CStateResidency. cbn [fst]. rewrite !plain_app, (decimal_plain 20) by lia. done.
Qed.

Lemma energy_state_counters_ok b a : advanced b a -> Forall counter_ok (energy_state_counters b a).
Proof.
  intros H. apply Forall_cons. split; [by apply int_counter_ok|]. apply residency_counters_ok. intros i. by apply core_residency_finite.
Qed.

Lemma basic_members_ok b a l : advanced b a -> basic_members nan_text pm undefined_int b a = Ok l -> members_ok l = true.
Proof using Hpm.
  intros H E. unfold basic_members in E. apply bind_ok in E as (k1 & H1 & E). apply bind_ok in E as (k2 & H2 & E). apply bind_ok in E as (k3 & H3 & E).
  apply Ok_inj in E as <-. apply members_valid in H1; [|apply core_counters_ok]. apply members_valid in H2; [|by apply energy_state_counters_ok].
  apply members_valid in H3; [|unfold bandwidth_counters; counters_ok].
  unfold members_ok in *. cbn [forallb fst snd json_ok]. by rewrite H1, H2, H3.
Qed.

Lemma uncore_counters_ok b a : advanced (basic b) (basic a) -> Forall counter_ok (uncore_counters pm undefined_int b a).
Proof using Hpm.
  intros H. unfold uncore_counters. cbv zeta.
  assert (Hnm : Forall counter_ok (near_memory_rate pm (uncore b) (uncore a) ++ near_memory_counters pm (uncore b) (uncore a))).
  { unfold near_memory_counters, near_memory_rate. counters_ok. apply real_counter_ok; [done|apply NMHitRate_finite]. }
  repeat (apply Forall_app; split).
  - unfold dram_counters. counters_ok.
  - destruct (nearMemoryMetricsAvailable _); [done|constructor].
  - unfold memory_counters. counters_ok.
  - unfold energy_counters_of. counters_ok; (apply real_counter_ok; [done|]); [by apply joules_finite..|by apply DRAM_joules_finite].
  - pose proof (uncore_frequencies_finite pm Hpm b a) as Hf. apply Forall_forall. intros x Hx.
    apply list_elem_of_lookup_1 in Hx as [i Hi]. rewrite list_lookup_imap in Hi. apply fmap_Some in Hi as (y & Hy & ->).
    split; [cbn [fst]; rewrite plain_app, (decimal_plain 20) by lia; done|]. intros v [= <-]. by apply (Forall_lookup_1 _ _ _ _ Hf Hy).
  - counters_ok.
  - apply residency_counters_ok. intros i. by apply package_residency_finite.
Qed.

Lemma uncore_members_ok b a l : advanced (basic b) (basic a) -> uncore_members nan_text pm undefined_int b a = Ok l -> members_ok l = true.
Proof using Hpm.
  intros H E. unfold uncore_members in E. apply bind_ok in E as (k & H1 & E). apply Ok_inj in E as <-.
  apply members_valid in H1; [|by apply uncore_counters_ok]. unfold members_ok in *. cbn [forallb fst snd json_ok]. by rewrite H1.
Qed.

Lemma numbered_ok name l i m : plain_text name = true -> Forall counter_ok (l i) -> numbered nan_text name l i = Ok m ->
  plain_text m.1 && json_ok m.2 = true.
Proof.
  intros Hn Hl E. apply bind_ok in E as (k & H1 & E). apply Ok_inj in E as <-. cbn [fst snd json_ok].
  apply members_valid in H1; [|done]. unfold members_ok in H1. by rewrite plain_app, Hn, (decimal_plain 20), H1 by lia.
Qed.

Lemma pcie_counters_ok names bw raw : forallb plain_text names = true -> Forall counter_ok (pcie_counters names bw raw).
Proof.
  intros Hn. apply Forall_app. split; [counters_ok|]. apply Forall_forall. intros x Hx.
  apply list_elem_of_lookup_1 in Hx as [i Hi]. rewrite list_lookup_imap in Hi. apply fmap_Some in Hi as (y & Hy & ->).
  destruct (names !! i) as [nm|] eqn:E; [|by split]. split; [|by intros v [= <-]]. cbn [fst default].
  rewrite plain_app. rewrite forallb_forall in Hn. apply Hn, list_elem_of_In. by eapply list_elem_of_lookup_2.
Qed.

Lemma pcie_members_ok col l : (forall x, col = Some x -> forallb plain_text (eventNames x) = true) ->
  pcie_members nan_text col = Ok l -> members_ok l = true.
Proof.
  intros Hn. destruct col as [x|]; cbn [pcie_members]; [|by intros [= <-]]. intros E.
  apply bind_ok in E as (k1 & H1 & E). apply bind_ok in E as (k2 & H2 & E). apply Ok_inj in E as <-. rewrite members_ok_app.
  apply mapM_members_ok in H1; [|intros i m _; apply numbered_ok; [done|]; by apply pcie_counters_ok, Hn]. rewrite H1.
  apply members_valid in H2; [|by apply pcie_counters_ok, Hn]. unfold members_ok in *. cbn [forallb fst snd json_ok andb]. by rewrite H2.
Qed.

Lemma accelerator_members_ok ac b a l : forallb (fun k => plain_text (v_event_name k)) (ac_ctrs ac) = true -> 0 <= ac_ctx_accel ac ->
  accelerator_members nan_text undefined_u64 ac b a = Ok l -> members_ok l = true.
Proof.
  intros Hn Hc. apply mapM_members_ok. intros i m _. apply numbered_ok.
  - rewrite plain_app, andb_true_r. unfold getAccelCounterName.
    do 3 (destruct (_ =? _); [done|]). rewrite !plain_app, (decimal_plain 20) by lia. done.
  - unfold accelerator_counters. apply Forall_map, Forall_forall. intros [j k] Hj.
    apply list_elem_of_lookup_1 in Hj as [q Hq]. rewrite list_lookup_imap in Hq. apply fmap_Some in Hq as (y & Hy & [= -> ->]).
    apply fmap_int_ok. cbn [snd]. rewrite forallb_forall in Hn. apply Hn, list_elem_of_In. by eapply list_elem_of_lookup_2.
Qed.

Lemma link_counters_ok b a i : advanced (basic (sy_counters b)) (basic (sy_counters a)) -> Forall counter_ok (socket_link_counters pm undefined_u64 b a i).
Proof using Hpm.
  intros H. unfold socket_link_counters. apply Forall_app. split; [counters_ok|]. apply Forall_concat, Forall_map, Forall_true. intros j.
  assert (Hp : forall s, plain_text s = true -> plain_text (s ++ to_string (Z.of_nat j)) = true).
  { intros s Hs. by rewrite plain_app, Hs, (decimal_plain 20) by lia. }
  unfold link_counters. counters_ok.
  - apply fmap_real_ok; [by apply Hp|]. intros x. by apply incoming_utilization_finite.
  - apply fmap_real_ok; [by apply Hp|]. intros x. by apply outgoing_utilization_finite.
Qed.

Lemma system_members_ok b a l : advanced (basic (sy_counters b)) (basic (sy_counters a)) ->
  system_members nan_text pm undefined_u64 b a = Ok l -> members_ok l = true.
Proof using Hpm. intros H. apply mapM_members_ok. intros i m _. apply numbered_ok; [done|by apply link_counters_ok]. Qed.

Context (c : sampler) (col : option PCIeCollector) (ac : accel_state).
Context (first second : option timed_sample).

(** Between the samples every time stamp of the tree advanced, and the names of events need no
    escapes. *)
Record reports (s : SystemRoot) : Prop := {
  reports_threads : forall h b a, h ∈ tree_threads s -> getCoreCounter first (osID h) = Ok b -> getCoreCounter second (osID h) = Ok a -> advanced b a;
  reports_sockets : forall x b a, x ∈ sockets s -> getSocketCounter first (logicalID x) = Ok b -> getSocketCounter second (logicalID x) = Ok a ->
    advanced (basic b) (basic a);
  reports_system : advanced (basic (sy_counters (getSystemCounter c first))) (basic (sy_counters (getSystemCounter c second)));
  reports_events : forall x, col = Some x -> forallb plain_text (eventNames x) = true;
  reports_accelerators : forallb (fun k => plain_text (v_event_name k)) (ac_ctrs ac) = true /\ 0 <= ac_ctx_accel ac
}.

Lemma thread_document_ok h l : (forall b a, getCoreCounter first (osID h) = Ok b -> getCoreCounter second (osID h) = Ok a -> advanced b a) ->
  thread_document nan_text pm undefined_int first second h = Ok l -> members_ok l = true.
Proof using Hpm.
  intros H E. apply bind_ok in E as (b & Hb & E). apply bind_ok in E as (a & Ha & E). apply bind_ok in E as (k & Hk & E). apply Ok_inj in E as <-.
  apply basic_members_ok in Hk; [|by eapply H]. unfold members_ok in *. cbn [app forallb fst snd json_ok].
  by rewrite !show_int_number, Hk.
Qed.

Lemma objects_ok {A} (f : A -> res (list (str * json))) l k : (forall a m, a ∈ l -> f a = Ok m -> members_ok m = true) ->
  mapM f l = Ok k -> forallb json_ok (map JObject k) = true.
Proof.
  intros H E. apply (mapM_ok f (fun m => members_ok m = true)) in E; [|done]. apply forallb_forall. intros x Hx. apply in_map_iff in Hx as (m & <- & Hm).
  rewrite Forall_forall in E. apply E. by apply list_elem_of_In.
Qed.

Lemma core_document_ok core l : (forall h b a, h ∈ core -> getCoreCounter first (osID h) = Ok b -> getCoreCounter second (osID h) = Ok a -> advanced b a) ->
  core_document nan_text pm undefined_int first second core = Ok l -> members_ok l = true.
Proof using Hpm.
  intros H E. apply bind_ok in E as (k1 & H1 & E). apply bind_ok in E as (k2 & H2 & E). apply Ok_inj in E as <-.
  apply objects_ok in H1; [|intros h m Hh; apply thread_document_ok; intros; by eapply H].
  apply members_valid in H2; [|unfold core_numbers; cbn [map]; counters_ok].
  unfold members_ok in *. cbn [app forallb fst snd json_ok]. by rewrite show_int_number, H1, H2.
Qed.

Lemma uncore_document_ok id l : (forall b a, getSocketCounter first id = Ok b -> getSocketCounter second id = Ok a -> advanced (basic b) (basic a)) ->
  uncore_document nan_text pm undefined_int first second id = Ok l -> members_ok l = true.
Proof using Hpm.
  intros H E. apply bind_ok in E as (b & Hb & E). apply bind_ok in E as (a & Ha & E). apply bind_ok in E as (k & Hk & E). apply Ok_inj in E as <-.
  apply uncore_members_ok in Hk; [|by apply H]. unfold members_ok in *. cbn [forallb fst snd json_ok]. rewrite Hk. by destruct (isServerCPU _).
Qed.

Lemma socket_document_ok s x l : reports s -> x ∈ sockets s -> socket_document nan_text pm undefined_int first second x = Ok l -> members_ok l = true.
Proof using Hpm.
  intros Hr Hx E. apply bind_ok in E as (k1 & H1 & E). apply bind_ok in E as (k2 & H2 & E). apply bind_ok in E as (b & Hb & E).
  apply bind_ok in E as (a & Ha & E). apply bind_ok in E as (k3 & H3 & E). apply Ok_inj in E as <-.
  apply objects_ok in H1.
  2: { intros core m Hc. apply core_document_ok. intros h b' a' Hh. apply (reports_threads s Hr). unfold tree_threads, socket_threads.
       apply list_elem_of_In, in_concat. exists (concat (cores x)). split; [apply in_map_iff; exists x; split; [done|by apply list_elem_of_In]|].
       apply in_concat. exists core. split; by apply list_elem_of_In. }
  apply uncore_document_ok in H2; [|intros b' a'; by apply (reports_sockets s Hr)].
  apply basic_members_ok in H3; [|by apply (reports_sockets s Hr x)].
  unfold members_ok in *. cbn [forallb fst snd json_ok]. by rewrite !show_int_number, H1, H2, H3.
Qed.

Lemma document_ok s d : reports s -> document nan_text pm undefined_int undefined_u64 c col ac first second s = Ok d -> json_ok d = true.
Proof using Hpm.
  intros Hr E. apply bind_ok in E as (us & _ & E). apply bind_ok in E as (k1 & H1 & E). cbv zeta in E.
  apply bind_ok in E as (k2 & H2 & E). apply bind_ok in E as (k3 & H3 & E). apply bind_ok in E as (k4 & H4 & E).
  apply bind_ok in E as (k5 & H5 & E). apply bind_ok in E as (k6 & H6 & E). apply Ok_inj in E as <-.
  apply objects_ok in H1; [|intros x m Hx; by apply (socket_document_ok s)].
  assert (members_ok k2 = true) as K2.
  { destruct (negb _); [|by apply Ok_inj in H2 as <-]. apply bind_ok in H2 as (k & Hk & H2). apply Ok_inj in H2 as <-.
    apply accelerator_members_ok in Hk; [|apply (reports_accelerators s Hr)..]. unfold members_ok in *. cbn [forallb fst snd json_ok]. by rewrite Hk. }
  apply system_members_ok in H3; [|apply (reports_system s Hr)]. apply basic_members_ok in H4; [|apply (reports_system s Hr)].
  apply uncore_members_ok in H5; [|apply (reports_system s Hr)]. apply pcie_members_ok in H6; [|apply (reports_events s Hr)].
  cbn [json_ok]. rewrite !forallb_app. unfold members_ok in *. cbn [forallb fst snd json_ok].
  by rewrite !show_int_number, H1, K2, H3, H4, H5, H6.
Qed.

End ValidDocument.

(** * Properties *)

(** C15. What the sensor server sends for a pair of samples is JSON: [JSONPrinter] prints exactly the layout of the tree of
    names and values - every comma between two members and none after the last, every group closed at its own indentation,
    whatever the tree of sockets, cores and threads, the collectors and the accelerators are - and throws exactly what
    computing the values throws. A JSON reader gets the tree back from the text under two conditions: the metrics divide by
    nothing that is zero ([good_metrics]: there is a nominal frequency, an online core and an online socket, the unit of
    energy is a power of two, and the speeds of links are known where there are links), and the samples can be shown
    ([reports]: the time stamp of every core, socket and of the system advanced between the two samples, and the names of the
    PCIe and accelerator events need no escape). Without them the text can hold [nan], see the examples below. *)
Theorem printed_json_reads_back nan_text pm undefined_int undefined_u64 c col ac first second s :
  is_Some second ->
  print_json nan_text pm undefined_int undefined_u64 c col ac first second s =
    (d ← document nan_text pm undefined_int undefined_u64 c col ac first second s; Ok (json_text 0 d ++ HTTP_EOL)) /\
  (good_metrics pm -> reports c col ac first second s ->
   forall d, document nan_text pm undefined_int undefined_u64 c col ac first second s = Ok d -> read_json (json_text 0 d ++ HTTP_EOL) = Some d).
Proof.
  intros Hs. split; [by apply print_json_document|]. intros Hpm Hr d Hd. apply parse_json_text; [|done].
  by eapply document_ok.
Qed.

(** ** An example: a Skylake server with a socket of one core and two threads *)

Definition example_thread (i : Z) : HyperThread := MkHyperThread i (Entry i i 0 0 0 0 0 0 0 0 (-1) (-1)) Online.
Definition example_root : SystemRoot := MkSystemRoot [SocketNode 0 [[example_thread 0; example_thread 1]]] [].

Definition example_basic (tsc : Z) : BasicCounterState :=
  Basic (Checked (2 * tsc) 0) (Checked tsc 0) (Checked tsc 0) (replicate 8 checked_zero) tsc no_c_states 60 0 0 0 0
    (3 * tsc) tsc (4 * tsc) (2 * tsc) 0 0 0 0 0 ∅.
Definition example_system (tsc packets : Z) : SystemCounterState :=
  System (Socket (example_basic tsc) UncoreCounterState_init) [[packets]] [[packets]] [[0]] 0 0 ∅ ∅ ∅ ∅ [0] [0].
Definition example_timed_sample (tsc packets : Z) : timed_sample :=
  Sample (MkAggregator [example_basic tsc; example_basic tsc] [Socket (example_basic tsc) UncoreCounterState_init] (example_system tsc packets))
    (tsc * 1000) [packets].

Definition example_metrics : pcm_metrics :=
  PcmMetrics (Flags SKX true true true true true true false false false false 4 1) true false (Some (JoulesFraction 14)) 2000000000 1 2 1
    [[10400000000]] 0.
Definition example_collector : PCIeCollector := MkPCIeCollector 1 [lit "PCIRdCur"] [MkSocketBW 640 64] (MkSocketBW 640 64) [[10]] [10].
Definition example_accelerators : accel_state := AccelState 0 0 1 [AccelCounter (lit "bytes(in)") 64 1].
Definition example_plain_sampler : sampler :=
  Sampler SKX 4 (PcmUncore [] [] [] [] [] []) 1 [] [] (fun _ => example_context) [] [] example_raw (fun _ _ => []) true [] [] None
    (EnergyCounters [] [] [] None) [] 1 (Widths false 48 48 48 48).

Lemma example_metrics_good : good_metrics example_metrics.
Proof.
  split; [done..| |].
  - intros u [H|H]; [done|]. injection H as <-. lia.
  - intros _ [|s] l speed H; [|done]. destruct l as [|l]; [|done]. injection H as <-. lia.
Qed.

Definition example_first : option timed_sample := Some (example_timed_sample 1000000 5).
Definition example_second : option timed_sample := Some (example_timed_sample 3000000 9).

Lemma example_reports : reports example_plain_sampler (Some example_collector) example_accelerators example_first example_second example_root.
Proof.
  split; [| | done | |done].
  - intros h b a Hh. assert (h = example_thread 0 \/ h = example_thread 1) as [-> | ->].
    { revert Hh. unfold tree_threads. cbn. rewrite !elem_of_cons, elem_of_nil. tauto. }
    all: intros Hb Ha; apply Ok_inj in Hb as <-; apply Ok_inj in Ha as <-; by vm_compute.
  - intros x b a Hx. assert (x = SocketNode 0 [[example_thread 0; example_thread 1]]) as ->.
    { revert Hx. cbn. rewrite !elem_of_cons, elem_of_nil. tauto. }
    intros Hb Ha; apply Ok_inj in Hb as <-; apply Ok_inj in Ha as <-; by vm_compute.
  - by intros x [= <-].
Qed.

Lemma ok_result {A} (r : res A) : is_ok r = true -> exists a, r = Ok a.
Proof. destruct r; [eauto|done]. Qed.

Lemma printed_json_reads_back_witness :
  let print := print_json (lit "-nan") example_metrics (fun _ => 0) (fun _ => 0) example_plain_sampler (Some example_collector)
    example_accelerators example_first example_second example_root in
  exists d, document (lit "-nan") example_metrics (fun _ => 0) (fun _ => 0) example_plain_sampler (Some example_collector)
    example_accelerators example_first example_second example_root = Ok d /\
    print = Ok (json_text 0 d ++ HTTP_EOL) /\ read_json (json_text 0 d ++ HTTP_EOL) = Some d.
Proof.
  intros print. destruct (printed_json_reads_back (lit "-nan") example_metrics (fun _ => 0) (fun _ => 0) example_plain_sampler (Some example_collector)
    example_accelerators example_first example_second example_root) as [H1 H2]; [by eexists|].
  destruct (ok_result (document (lit "-nan") example_metrics (fun _ => 0) (fun _ => 0) example_plain_sampler (Some example_collector)
    example_accelerators example_first example_second example_root)) as [d Hd]; [vm_compute; reflexivity|].
  exists d. split; [done|]. split.
  - unfold print. rewrite H1, Hd. reflexivity.
  - apply H2; [apply example_metrics_good|apply example_reports|done].
Defined.

(** The text itself: lines of its beginning, with a share of top-down slots and a residency. *)
Example example_lines :
  match print_json (lit "-nan") example_metrics (fun _ => 0) (fun _ => 0) example_plain_sampler (Some example_collector)
    example_accelerators example_first example_second example_root with
  | Ok out => take 55 out = lit "{" ++ HTTP_EOL ++ lit "  " ++ quoted (lit "Interval us") ++ lit " : 2000000," ++ HTTP_EOL ++
                            lit "  " ++ quoted (lit "Object") ++ lit " : " ++ take 11 (quoted (lit "SystemRoot")) 
  | Throw _ => False
  end.
Proof. vm_compute. reflexivity. Qed.

(** ** Values that are not numbers *)

(** Without requests between the samples the ratio of local requests is the quotient of two
    zeroes, and the conversion of [100. * ratio] to [int] is one the language does not define. *)
Lemma idle_request_ratio_undefined pm undefined_int b a :
  localMemoryRequestRatioMetricAvailable (model (pm_flags pm)) = true ->
  UncHARequests b = UncHARequests a -> UncHALocalRequests b = UncHALocalRequests a ->
  percent undefined_int (getLocalMemoryRequestRatio pm b a) = undefined_int SpecFloat.S754_nan.
Proof.
  intros Hm H1 H2. unfold getLocalMemoryRequestRatio, u64_sub. rewrite Hm, H1, H2, !Z.sub_diag. reflexivity.
Qed.

(** A thread whose time stamp did not advance has residencies that are no JSON numbers: the
    document cannot be read. *)
Definition example_stalled : option timed_sample := example_first.

Example stalled_document_unreadable :
  match print_json (lit "-nan") example_metrics (fun _ => 0) (fun _ => 0) example_plain_sampler (Some example_collector)
    example_accelerators example_first example_stalled example_root with
  | Ok out => read_json out = None
  | Throw _ => False
  end.
Proof. vm_compute. reflexivity. Qed.
