(* ===== verification/PromPrinter.v ===== *)
(** [class PrometheusPrinter] of [src/src/pcm-sensor-server.cpp]: the text [/metrics] answers
    with. The printer keeps the labels of the lines in [hierarchy_], a stack that the handlers
    push and pop; [exposition] is the list of samples with the labels each carries, and a
    reader of the exposition format gets the samples back. *)

From S2P Require Import Prelude CxxString Http CpuModels Capabilities Registers CounterState PcmUncore RawEvents RawProgram Bandwidth Sampling Topology Doubles Json Metrics Printers JsonPrinter.
Local Open Scope Z_scope.

Record prom_state := PromState { ps_ss : stringstream; hierarchy_ : list str }.

Definition prom_printer : Type -> Type := printer prom_state.

Definition PROM_EOL : str := [LF].

Definition prom_write (s : str) : prom_printer unit := fun st => Ok (tt, PromState (ss_write s (ps_ss st)) (hierarchy_ st)).

Definition addToHierarchy (s : str) : prom_printer unit := fun st => Ok (tt, PromState (ps_ss st) (hierarchy_ st ++ [s])).

(** [pop_back] of an empty vector, which is undefined, is an error. *)
Definition removeFromHierarchy : prom_printer unit := fun st =>
  match hierarchy_ st with
  | [] => Throw OutOfRange
  | _ => Ok (tt, PromState (ps_ss st) (removelast (hierarchy_ st)))
  end.

(** The two loops of [find] and [replace]. *)
Definition replace_char (a b : ascii) (s : str) : str := map (fun c => if Ascii.eqb c a then b else c) s.
Definition replaceIllegalCharsWithUnderbar (s : str) : str := replace_char " "%char "_"%char (replace_char "-"%char "_"%char s).

(** A comma after every level, the last one popped. *)
Definition printHierarchy (hierarchy : list str) : str :=
  match hierarchy with
  | [] => lit " "
  | _ => removelast (lit "{" ++ concat (map (fun level => level ++ lit ",") hierarchy)) ++ lit "} "
  end.

Definition printComment (comment : str) : prom_printer unit := prom_write (lit "# " ++ comment ++ PROM_EOL).

Section Printer.

Context (nan_text : str).

Definition prom_printCounter (name : str) (v : printed) : prom_printer unit := fun st =>
  prom_write (replaceIllegalCharsWithUnderbar name ++ printHierarchy (hierarchy_ st) ++ show_printed nan_text v ++ PROM_EOL) st.

Fixpoint prom_printCounters (l : counter_list) : prom_printer unit :=
  match l with
  | [] => mret tt
  | (name, value) :: l => v ← of_res value; prom_printCounter name v ;; prom_printCounters l
  end.

Fixpoint prom_each {A} (f : A -> prom_printer unit) (l : list A) : prom_printer unit :=
  match l with [] => mret tt | a :: l => f a ;; prom_each f l end.

(** [addToHierarchy] and [removeFromHierarchy] around a body; a label is a key and its value. *)
Definition label_text (key value : str) : str := key ++ lit "=" ++ quoted value.

Definition under (key value : str) (body : prom_printer unit) : prom_printer unit :=
  addToHierarchy (label_text key value) ;; body ;; removeFromHierarchy.

Context (pm : pcm_metrics) (undefined_u64 : double -> Z).

Let flags := pm_flags pm.

(** A state and its raw counter under the label of its index. *)
Definition residency_pair (ratio : nat -> double) (raw : nat -> Z) (i : nat) : prom_printer unit :=
  under (lit "index") (to_string (Z.of_nat i))
    (prom_printCounters [real_counter "CStateResidency" (ratio i); int_counter "RawCStateResidency" (raw i)]).

Definition prom_printBasicCounterState (before after : BasicCounterState) : prom_printer unit :=
  under (lit "source") (lit "core") (
    prom_printCounters (basic_counters pm before after ++ [int_counter "Thermal Headroom" (ThermalHeadroom after)]) ;;
    prom_each (residency_pair (fun i => getCoreCStateResidency i before after) (fun i => getCoreCStateResidency_raw i after)) (seq 0 11) ;;
    prom_printCounters (bandwidth_counters pm before after)).

Definition prom_uncore_counters (before after : UncoreCounterState) : counter_list :=
  dram_counters pm before after ++
  (if nearMemoryMetricsAvailable (model flags) then near_memory_counters pm before after ++ near_memory_rate pm before after else []) ++
  memory_counters pm before after ++ energy_counters_of pm before after.

Definition prom_printUncoreCounterState (before after : SocketCounterState) : prom_printer unit :=
  under (lit "source") (lit "uncore") (
    prom_printCounters (prom_uncore_counters (uncore before) (uncore after)) ;;
    prom_each (residency_pair (fun i => getPackageCStateResidency i before after) (fun i => getPackageCStateResidency_raw i (uncore after))) (seq 0 11)).

Definition prom_printPCIeCounterState (col : option PCIeCollector) : prom_printer unit :=
  match col with
  | None => mret tt
  | Some col =>
      under (lit "source") (lit "uncore") (
        prom_each (fun skt => under (lit "socket") (to_string (Z.of_nat skt))
                     (prom_printCounters (pcie_counters (eventNames col) (getSocket col skt) (getRawValues col skt))))
          (seq 0 (socketCount col)) ;;
        prom_printCounters (pcie_counters (eventNames col) (aggregate_ col) (rawAggValues_ col)))
  end.

(** The names of the counters without what stands in parentheses. *)
Definition prom_accelerator_counters (ac : accel_state) (before after : list Z) (dev : nat) : counter_list :=
  map (fun nv : str * res printed => (remove_string_inside_use nv.1, nv.2)) (accelerator_counters undefined_u64 ac before after dev).

Definition prom_printAccelCounterState (ac : accel_state) (before after : list Z) : prom_printer unit :=
  under (lit "source") (lit "accel") (
    prom_each (fun i => under (getAccelCounterName ac ++ lit "device") (to_string (Z.of_nat i))
                 (prom_printCounters (prom_accelerator_counters ac before after i)))
      (seq 0 (Z.to_nat (ac_devs ac)))).

Definition prom_printSystemCounterState (before after : SystemCounterState) : prom_printer unit :=
  under (lit "source") (lit "uncore") (
    prom_each (fun i => under (lit "socket") (to_string (Z.of_nat i)) (prom_printCounters (socket_link_counters pm undefined_u64 before after i)))
      (seq 0 (Z.to_nat (pm_num_sockets pm)))).

Context (c : sampler) (col : option PCIeCollector) (ac : accel_state).
Context (first second : option timed_sample).

(** [std::to_string] of an [int]. *)
Definition int_text (n : Z) : str := show_int n.

Definition prom_HyperThread (ht : HyperThread) : prom_printer unit :=
  under (lit "thread") (int_text (thread_id (te ht))) (
    prom_printCounters [int_counter "OS ID" (osID ht)] ;;
    before ← of_res (getCoreCounter first (osID ht));
    after ← of_res (getCoreCounter second (osID ht));
    prom_printBasicCounterState before after).

Definition prom_Uncore (socketID : Z) : prom_printer unit :=
  printComment (lit "Uncore Counters Socket " ++ int_text socketID) ;;
  before ← of_res (getSocketCounter first socketID);
  after ← of_res (getSocketCounter second socketID);
  prom_printUncoreCounterState before after.

Definition prom_Core (core : core_node) : prom_printer unit :=
  id ← of_res (core_number socket_unique_core_id core);
  under (lit "core") (int_text id) (prom_each prom_HyperThread core).

Definition prom_Socket (s : socket_node) : prom_printer unit :=
  under (lit "socket") (int_text (logicalID s)) (
    printComment (lit "Core Counters Socket " ++ int_text (logicalID s)) ;;
    prom_each prom_Core (cores s) ;;
    prom_Uncore (logicalID s) ;;
    under (lit "aggregate") (lit "socket") (
      printComment (lit "Core Counters Aggregate Socket " ++ int_text (logicalID s)) ;;
      before ← of_res (getSocketCounter first (logicalID s));
      after ← of_res (getSocketCounter second (logicalID s));
      prom_printBasicCounterState (basic before) (basic after))).

Definition prom_SystemRoot (s : SystemRoot) : prom_printer unit :=
  us ← of_res (interval first second);
  prom_printCounters [int_counter "Measurement Interval in us" us; size_counter "Number of sockets" (sockets s)] ;;
  prom_each prom_Socket (sockets s) ;;
  let before := getSystemCounter c first in
  let after := getSystemCounter c second in
  under (lit "aggregate") (lit "system") (
    (if negb (ac_accel ac =? ACCEL_NOCONFIG)
     then printComment (lit "Accelerator Counters") ;; prom_printAccelCounterState ac (accel_counters first) (accel_counters second)
     else mret tt) ;;
    (if isServerCPU (model flags) && (2 <=? pm_num_sockets pm)
     then printComment (lit "UPI/QPI Counters") ;; prom_printSystemCounterState before after
     else mret tt) ;;
    printComment (lit "Core Counters Aggregate System") ;;
    prom_printBasicCounterState (basic (sy_counters before)) (basic (sy_counters after)) ;;
    printComment (lit "Uncore Counters Aggregate System") ;;
    prom_printUncoreCounterState (sy_counters before) (sy_counters after) ;;
    printComment (lit "PCIe Bandwidth Counters") ;;
    prom_printPCIeCounterState col).

(** [PrometheusPrinter pp( aggPair ); pp.dispatch( root ); pp.str()] *)
Definition print_prometheus (s : SystemRoot) : res str :=
  match second with
  | None => Throw RuntimeError
  | Some _ => r ← prom_SystemRoot s (PromState (at_end []) []); Ok (ss_buf (ps_ss r.2))
  end.

End Printer.

(** * The exposition *)

Inductive prom_item := PComment (text : str) | PSample (name : str) (labels : list (str * str)) (value : str).

#[export] Instance prom_item_eq_dec : EqDecision prom_item.
Proof. solve_decision. Defined.

Definition label_pair (l : str * str) : str := label_text l.1 l.2.

(** Labels between braces, separated by commas. *)
Fixpoint labels_body (l : list (str * str)) : str :=
  match l with [] => [] | [x] => label_pair x | x :: l => label_pair x ++ lit "," ++ labels_body l end.

Definition labels_text (l : list (str * str)) : str :=
  match l with [] => lit " " | _ => lit "{" ++ labels_body l ++ lit "} " end.

Definition item_text (i : prom_item) : str :=
  match i with
  | PComment t => lit "# " ++ t ++ PROM_EOL
  | PSample name labels value => name ++ labels_text labels ++ value ++ PROM_EOL
  end.

Definition exposition_text (l : list prom_item) : str := concat (map item_text l).

(** Samples under the labels of their scope. *)
Definition exposition : Type := list (str * str) -> res (list prom_item).

Definition e_nil : exposition := fun _ => Ok [].
Definition e_comment (t : str) : exposition := fun _ => Ok [PComment t].
Definition e_seq (a b : exposition) : exposition := fun h => x ← a h; y ← b h; Ok (x ++ y).
Definition e_bind {A} (r : res A) (k : A -> exposition) : exposition := fun h => a ← r; k a h.
Definition e_under (key value : str) (e : exposition) : exposition := fun h => e (h ++ [(key, value)]).
Fixpoint e_each {A} (f : A -> exposition) (l : list A) : exposition :=
  match l with [] => e_nil | a :: l => e_seq (f a) (e_each f l) end.

Declare Scope exposition_scope.
Delimit Scope exposition_scope with exposition.
Infix ";;;" := e_seq (at level 100, right associativity) : exposition_scope.

Section Exposition.

Context (nan_text : str).

Definition e_counter (name : str) (v : printed) : exposition := fun h =>
  Ok [PSample (replaceIllegalCharsWithUnderbar name) h (show_printed nan_text v)].
Definition e_counters (l : counter_list) : exposition := e_each (fun nv : str * res printed => e_bind nv.2 (e_counter nv.1)) l.

Context (pm : pcm_metrics) (undefined_u64 : double -> Z).

Let flags := pm_flags pm.
Local Open Scope exposition_scope.

Definition e_residency (ratio : nat -> double) (raw : nat -> Z) (i : nat) : exposition :=
  e_under (lit "index") (to_string (Z.of_nat i)) (e_counters [real_counter "CStateResidency" (ratio i); int_counter "RawCStateResidency" (raw i)]).

Definition e_basic (before after : BasicCounterState) : exposition :=
  e_under (lit "source") (lit "core") (
    e_counters (basic_counters pm before after ++ [int_counter "Thermal Headroom" (ThermalHeadroom after)]) ;;;
    e_each (e_residency (fun i => getCoreCStateResidency i before after) (fun i => getCoreCStateResidency_raw i after)) (seq 0 11) ;;;
    e_counters (bandwidth_counters pm before after)).

Definition e_uncore (before after : SocketCounterState) : exposition :=
  e_under (lit "source") (lit "uncore") (
    e_counters (prom_uncore_counters pm (uncore before) (uncore after)) ;;;
    e_each (e_residency (fun i => getPackageCStateResidency i before after) (fun i => getPackageCStateResidency_raw i (uncore after))) (seq 0 11)).

Definition e_pcie (col : option PCIeCollector) : exposition :=
  match col with
  | None => e_nil
  | Some col =>
      e_under (lit "source") (lit "uncore") (
        e_each (fun skt => e_under (lit "socket") (to_string (Z.of_nat skt))
                  (e_counters (pcie_counters (eventNames col) (getSocket col skt) (getRawValues col skt)))) (seq 0 (socketCount col)) ;;;
        e_counters (pcie_counters (eventNames col) (aggregate_ col) (rawAggValues_ col)))
  end.

Definition e_accelerators (ac : accel_state) (before after : list Z) : exposition :=
  e_under (lit "source") (lit "accel") (
    e_each (fun i => e_under (getAccelCounterName ac ++ lit "device") (to_string (Z.of_nat i))
              (e_counters (prom_accelerator_counters undefined_u64 ac before after i))) (seq 0 (Z.to_nat (ac_devs ac)))).

Definition e_links (before after : SystemCounterState) : exposition :=
  e_under (lit "source") (lit "uncore") (
    e_each (fun i => e_under (lit "socket") (to_string (Z.of_nat i)) (e_counters (socket_link_counters pm undefined_u64 before after i)))
      (seq 0 (Z.to_nat (pm_num_sockets pm)))).

Context (c : sampler) (col : option PCIeCollector) (ac : accel_state).
Context (first second : option timed_sample).

Definition e_thread (ht : HyperThread) : exposition :=
  e_under (lit "thread") (int_text (thread_id (te ht))) (
    e_counters [int_counter "OS ID" (osID ht)] ;;;
    e_bind (getCoreCounter first (osID ht)) (fun before => e_bind (getCoreCounter second (osID ht)) (fun after => e_basic before after))).

Definition e_socket_uncore (socketID : Z) : exposition :=
  e_comment (lit "Uncore Counters Socket " ++ int_text socketID) ;;;
  e_bind (getSocketCounter first socketID) (fun before => e_bind (getSocketCounter second socketID) (fun after => e_uncore before after)).

Definition e_core (core : core_node) : exposition :=
  e_bind (core_number socket_unique_core_id core) (fun id => e_under (lit "core") (int_text id) (e_each e_thread core)).

Definition e_socket (s : socket_node) : exposition :=
  e_under (lit "socket") (int_text (logicalID s)) (
    e_comment (lit "Core Counters Socket " ++ int_text (logicalID s)) ;;;
    e_each e_core (cores s) ;;;
    e_socket_uncore (logicalID s) ;;;
    e_under (lit "aggregate") (lit "socket") (
      e_comment (lit "Core Counters Aggregate Socket " ++ int_text (logicalID s)) ;;;
      e_bind (getSocketCounter first (logicalID s)) (fun before => e_bind (getSocketCounter second (logicalID s)) (fun after =>
        e_basic (basic before) (basic after))))).

Definition e_system (s : SystemRoot) : exposition :=
  e_bind (interval first second) (fun us =>
  e_counters [int_counter "Measurement Interval in us" us; size_counter "Number of sockets" (sockets s)] ;;;
  e_each e_socket (sockets s) ;;;
  let before := getSystemCounter c first in
  let after := getSystemCounter c second in
  e_under (lit "aggregate") (lit "system") (
    (if negb (ac_accel ac =? ACCEL_NOCONFIG)
     then e_comment (lit "Accelerator Counters") ;;; e_accelerators ac (accel_counters first) (accel_counters second) else e_nil) ;;;
    (if isServerCPU (model flags) && (2 <=? pm_num_sockets pm)
     then e_comment (lit "UPI/QPI Counters") ;;; e_links before after else e_nil) ;;;
    e_comment (lit "Core Counters Aggregate System") ;;;
    e_basic (basic (sy_counters before)) (basic (sy_counters after)) ;;;
    e_comment (lit "Uncore Counters Aggregate System") ;;;
    e_uncore (sy_counters before) (sy_counters after) ;;;
    e_comment (lit "PCIe Bandwidth Counters") ;;;
    e_pcie col)).

End Exposition.

(** * The refinement *)

Definition prom_at (h : list (str * str)) (s : str) : prom_state := PromState (at_end s) (map label_pair h).

(** [m] appends the samples of [e] in the scope of the labels, and leaves the stack as it was. *)
Definition prints (m : prom_printer unit) (e : exposition) : Prop :=
  forall h s, m (prom_at h s) = (l ← e h; Ok (tt, prom_at h (s ++ exposition_text l))).

Lemma writes_nil : prints (mret tt) e_nil.
Proof. intros h s. cbn. unfold exposition_text. cbn. by rewrite app_nil_r. Qed.

Lemma writes_seq m1 m2 e1 e2 : prints m1 e1 -> prints m2 e2 -> prints (m1 ;; m2) (e_seq e1 e2).
Proof.
  intros H1 H2 h s. unfold mbind at 1, printer_bind, e_seq. rewrite H1. destruct (e1 h) as [a|]; [|done]. cbn [mbind res_bind].
  rewrite H2. destruct (e2 h) as [b|]; [|done]. cbn [mbind res_bind]. unfold exposition_text. by rewrite map_app, concat_app, app_assoc.
Qed.

Lemma writes_bind {A} (r : res A) f e : (forall a, prints (f a) (e a)) -> prints (x ← of_res r; f x) (e_bind r e).
Proof. intros H h s. unfold mbind at 1, printer_bind, of_res, e_bind. destruct r; [apply H|done]. Qed.

Lemma writes_each {A} (f : A -> prom_printer unit) e l : (forall a, prints (f a) (e a)) -> prints (prom_each f l) (e_each e l).
Proof. intros H. induction l as [|a l IH]; [apply writes_nil|]. by apply writes_seq. Qed.

Lemma prom_write_at x h s : prom_write x (prom_at h s) = Ok (tt, prom_at h (s ++ x)).
Proof. unfold prom_write, prom_at. cbn [ps_ss hierarchy_]. by rewrite write_at_end. Qed.

Lemma writes_comment t : prints (printComment t) (e_comment t).
Proof.
  intros h s. unfold printComment. rewrite prom_write_at. cbn [e_comment mbind res_bind]. unfold exposition_text. cbn [map concat item_text].
  by rewrite app_nil_r.
Qed.

(** The label is on the stack for the body, and gone after it. *)
Lemma writes_under key value m e : prints m e -> prints (under key value m) (e_under key value e).
Proof.
  intros H h s. unfold under, e_under. unfold mbind at 1, printer_bind at 1, addToHierarchy.
  change (hierarchy_ (prom_at h s) ++ [label_text key value]) with (map label_pair h ++ map label_pair [(key, value)]). rewrite <- map_app.
  change (ps_ss (prom_at h s)) with (ps_ss (prom_at (h ++ [(key, value)]) s)).
  change (PromState (ps_ss (prom_at (h ++ [(key, value)]) s)) (map label_pair (h ++ [(key, value)]))) with (prom_at (h ++ [(key, value)]) s).
  unfold mbind at 1, printer_bind at 1. rewrite H. destruct (e _) as [l|]; [|done]. cbn [mbind res_bind].
  unfold removeFromHierarchy, prom_at. cbn [hierarchy_ ps_ss]. rewrite map_app. cbn [map].
  rewrite removelast_last. by destruct (map label_pair h ++ [_]) eqn:E; [destruct (map label_pair h)|].
Qed.

Lemma labels_body_levels x l : concat (map (fun level => level ++ lit ",") (map label_pair (x :: l))) = labels_body (x :: l) ++ lit ",".
Proof.
  revert x. induction l as [|y l IH]; intros x.
  - cbn [map concat labels_body]. by rewrite app_nil_r.
  - specialize (IH y). set (r := map label_pair (y :: l)) in *.
    change (map label_pair (x :: y :: l)) with (label_pair x :: r). cbn [map concat]. rewrite IH.
    change (labels_body (x :: y :: l)) with (label_pair x ++ lit "," ++ labels_body (y :: l)). by rewrite <- !app_assoc.
Qed.

(** The comma of the last level is the one that is popped. *)
Lemma printHierarchy_labels h : printHierarchy (map label_pair h) = labels_text h.
Proof.
  destruct h as [|x h]; [done|]. unfold printHierarchy. rewrite labels_body_levels. cbn [map].
  rewrite app_assoc. change (lit ",") with [","%char]. rewrite removelast_last. unfold labels_text. by rewrite <- app_assoc.
Qed.

Lemma writes_counters nt l : prints (prom_printCounters nt l) (e_counters nt l).
Proof.
  induction l as [|[name v] l IH]; [apply writes_nil|]. cbn [prom_printCounters]. unfold e_counters. cbn [e_each fst snd].
  assert (HC : forall v, prints (prom_printCounter nt name v) (e_counter nt name v)).
  { intros w h s. unfold prom_printCounter. rewrite prom_write_at. cbn [e_counter mbind res_bind]. unfold e_counter. cbn [mbind res_bind].
    unfold exposition_text. cbn [map concat item_text hierarchy_ prom_at]. by rewrite app_nil_r, printHierarchy_labels. }
  intros h s. pose proof (writes_seq _ _ _ _ (writes_bind v (prom_printCounter nt name) _ HC) IH h s) as HS.
  unfold e_counters in HS. rewrite <- HS. unfold mbind, printer_bind, of_res. by destruct v.
Qed.

Create HintDb prom.
#[export] Hint Resolve writes_nil writes_seq writes_bind writes_each writes_comment writes_under writes_counters : prom.

Section Refinement.

Context (nan_text : str) (pm : pcm_metrics) (undefined_u64 : double -> Z).
Context (c : sampler) (col : option PCIeCollector) (ac : accel_state).
Context (first second : option timed_sample).

Lemma writes_residency ratio raw i : prints (residency_pair nan_text ratio raw i) (e_residency nan_text ratio raw i).
Proof. apply writes_under, writes_counters. Qed.

Lemma writes_basic b a : prints (prom_printBasicCounterState nan_text pm b a) (e_basic nan_text pm b a).
Proof. apply writes_under. auto using writes_residency with prom. Qed.

Lemma writes_uncore b a : prints (prom_printUncoreCounterState nan_text pm b a) (e_uncore nan_text pm b a).
Proof. apply writes_under. auto using writes_residency with prom. Qed.

Lemma writes_pcie : prints (prom_printPCIeCounterState nan_text col) (e_pcie nan_text col).
Proof. destruct col; [|apply writes_nil]. apply writes_under. auto with prom. Qed.

Lemma writes_accelerators b a : prints (prom_printAccelCounterState nan_text undefined_u64 ac b a) (e_accelerators nan_text undefined_u64 ac b a).
Proof. apply writes_under. auto with prom. Qed.

Lemma writes_links b a : prints (prom_printSystemCounterState nan_text pm undefined_u64 b a) (e_links nan_text pm undefined_u64 b a).
Proof. apply writes_under. auto with prom. Qed.

Lemma writes_thread ht : prints (prom_HyperThread nan_text pm first second ht) (e_thread nan_text pm first second ht).
Proof. apply writes_under, writes_seq; [auto with prom|]. auto using writes_basic with prom. Qed.

Lemma writes_socket s : prints (prom_Socket nan_text pm first second s) (e_socket nan_text pm first second s).
Proof.
  apply writes_under, writes_seq; [auto with prom|]. apply writes_seq.
  - apply writes_each. intros core. apply writes_bind. intros id. apply writes_under, writes_each, writes_thread.
  - apply writes_seq; [apply writes_seq; [auto with prom|]; auto using writes_uncore with prom|].
    apply writes_under, writes_seq; [auto with prom|]. auto using writes_basic with prom.
Qed.

Lemma writes_system s : prints (prom_SystemRoot nan_text pm undefined_u64 c col ac first second s)
                          (e_system nan_text pm undefined_u64 c col ac first second s).
Proof.
  apply writes_bind. intros us. apply writes_seq; [auto with prom|]. apply writes_seq; [apply writes_each, writes_socket|].
  apply writes_under. apply writes_seq; [destruct (negb _); auto using writes_accelerators with prom|].
  apply writes_seq; [destruct (_ && _); auto using writes_links with prom|]. auto 20 using writes_basic, writes_uncore, writes_pcie with prom.
Qed.

Lemma print_prometheus_exposition s : is_Some second ->
  print_prometheus nan_text pm undefined_u64 c col ac first second s =
    (l ← e_system nan_text pm undefined_u64 c col ac first second s []; Ok (exposition_text l)).
Proof.
  intros [a Ha]. unfold print_prometheus. rewrite Ha at 1. pose proof (writes_system s [] []) as H.
  change (prom_at [] []) with (PromState (at_end []) []) in H. rewrite H. by destruct (e_system _ _ _ _ _ _ _ _ _ _).
Qed.

End Refinement.

(** * A reader of the format *)

Definition name_char (c : ascii) : bool := isalnum c || Ascii.eqb c "_"%char.

(** Names of metrics and labels: they do not begin with a digit. *)
Definition metric_name (s : str) : bool :=
  match s with c :: _ => negb (isdigit c) | [] => false end && forallb name_char s.

Fixpoint read_labels (fuel : nat) (s : str) : option (list (str * str) * str) :=
  match fuel with
  | O => None
  | S fuel =>
      let '(key, r) := span name_char s in
      if metric_name key then
        match r with
        | e :: q :: r =>
            if Ascii.eqb e "="%char && Ascii.eqb q DQUOTE then
              '(value, r) ← parse_string r;
              match r with
              | d :: r =>
                  if Ascii.eqb d ","%char then '(l, r) ← read_labels fuel r; Some ((key, value) :: l, r)
                  else if Ascii.eqb d "}"%char then Some ([(key, value)], r)
                  else None
              | [] => None
              end
            else None
        | _ => None
        end
      else None
  end.

Definition read_value (name : str) (labels : list (str * str)) (r : str) : option prom_item :=
  match r with
  | c :: value => if Ascii.eqb c " "%char && json_number value then Some (PSample name labels value) else None
  | [] => None
  end.

(** A line without its end. *)
Definition read_line (s : str) : option prom_item :=
  match s with
  | c :: d :: text =>
      if Ascii.eqb c "#"%char && Ascii.eqb d " "%char then Some (PComment text)
      else
        let '(name, r) := span name_char s in
        if metric_name name then
          match r with
          | b :: r' => if Ascii.eqb b "{"%char then '(labels, r) ← read_labels (length r') r'; read_value name labels r else read_value name [] r
          | [] => None
          end
        else None
  | _ => None
  end.

(** Lines that each end in a line feed. *)
Fixpoint exposition_lines (fuel : nat) (s : str) : option (list str) :=
  match s, fuel with
  | [], _ => Some []
  | _, O => None
  | _, S fuel =>
      let '(line, r) := span (fun c => negb (Ascii.eqb c LF)) s in
      match r with _ :: r => l ← exposition_lines fuel r; Some (line :: l) | [] => None end
  end.

Definition read_exposition (s : str) : option (list prom_item) := l ← exposition_lines (length s) s; mapM read_line l.

(** What can be read back. *)
Definition label_ok (l : str * str) : bool := metric_name l.1 && plain_text l.2.
Definition item_ok (i : prom_item) : bool :=
  match i with
  | PComment t => forallb (fun c => negb (Ascii.eqb c LF)) t
  | PSample name labels value => metric_name name && forallb label_ok labels && json_number value
  end.

Lemma metric_name_chars s : metric_name s = true -> forallb name_char s = true.
Proof. unfold metric_name. by rewrite andb_true_iff; intros [_ ?]. Qed.

Lemma read_labels_body x l r fuel : (length (x :: l) <= fuel)%nat -> forallb label_ok (x :: l) = true ->
  read_labels fuel (labels_body (x :: l) ++ "}"%char :: r) = Some (x :: l, r).
Proof.
  revert x fuel. induction l as [|y l IH]; intros [key value] fuel Hf Hok; destruct fuel as [|fuel]; try (simpl in Hf; lia);
    cbn [forallb] in Hok; apply andb_true_iff in Hok as [Hx Hok]; unfold label_ok in Hx; cbn [fst snd] in Hx; apply andb_true_iff in Hx as [Hk Hv].
  - cbn [labels_body]. unfold label_pair, label_text, quoted. cbn [fst snd]. cbn [read_labels]. rewrite <- app_assoc.
    rewrite span_app; [|by apply metric_name_chars|by intros ? ? [= <- _]]. rewrite Hk.
    change ((lit "=" ++ DQUOTE :: value ++ [DQUOTE]) ++ "}"%char :: r) with ("="%char :: DQUOTE :: (value ++ [DQUOTE]) ++ "}"%char :: r).
    cbv iota beta. rewrite !Ascii.eqb_refl. cbn [andb]. rewrite <- app_assoc. cbn [app]. rewrite parse_string_app by done. done.
  - change (labels_body ((key, value) :: y :: l)) with (label_pair (key, value) ++ lit "," ++ labels_body (y :: l)).
    unfold label_pair, label_text, quoted. cbn [fst snd]. cbn [read_labels]. rewrite <- !app_assoc.
    rewrite span_app; [|by apply metric_name_chars|by intros ? ? [= <- _]]. rewrite Hk.
    set (rest := lit "," ++ labels_body (y :: l) ++ "}"%char :: r).
    change (lit "=" ++ (DQUOTE :: value ++ [DQUOTE]) ++ rest) with ("="%char :: DQUOTE :: (value ++ [DQUOTE]) ++ rest).
    cbv iota beta. rewrite !Ascii.eqb_refl. cbn [andb]. rewrite <- app_assoc. cbn [app]. rewrite parse_string_app by done. cbn [mbind option_bind].
    unfold rest. change (lit "," ++ ?z) with (","%char :: z). cbv iota beta. rewrite Ascii.eqb_refl. rewrite IH; [done|simpl in *; lia|done].
Qed.

Lemma labels_body_length x l : (length (x :: l) <= length (labels_body (x :: l)))%nat.
Proof.
  revert x. induction l as [|y l IH]; intros x.
  - cbn [labels_body]. unfold label_pair, label_text. rewrite !length_app. simpl. lia.
  - change (labels_body (x :: y :: l)) with (label_pair x ++ lit "," ++ labels_body (y :: l)). rewrite !length_app. specialize (IH y). simpl in *. lia.
Qed.

(** The line of an item without its end. *)
Definition item_line (i : prom_item) : str :=
  match i with PComment t => lit "# " ++ t | PSample name labels value => name ++ labels_text labels ++ value end.

Lemma item_text_line i : item_text i = item_line i ++ [LF].
Proof. destruct i; cbn [item_text item_line]; by rewrite <- !app_assoc. Qed.

Lemma read_item_line i : item_ok i = true -> read_line (item_line i) = Some i.
Proof.
  destruct i as [t|name labels value]; [done|]. cbn [item_ok item_line]. rewrite !andb_true_iff. intros [[Hn Hl] Hv].
  assert (Hspan : forall d r, name_char d = false -> span name_char (name ++ d :: r) = (name, d :: r)).
  { intros d r Hd. apply span_app; [by apply metric_name_chars|by intros ? ? [= <- _]]. }
  assert (Hread : exists d r, labels_text labels ++ value = d :: r /\ name_char d = false /\
    (if Ascii.eqb d "{"%char then '(ls, r') ← read_labels (length r) r; read_value name ls r' else read_value name [] (d :: r)) = Some (PSample name labels value)).
  { destruct labels as [|x l].
    - exists " "%char, value. split; [done|]. split; [done|]. cbn. by rewrite Hv.
    - exists "{"%char, (labels_body (x :: l) ++ "}"%char :: " "%char :: value). split; [unfold labels_text; by rewrite <- !app_assoc|]. split; [done|].
      rewrite Ascii.eqb_refl. rewrite read_labels_body; [cbn; by rewrite Hv| |done].
      rewrite length_app. pose proof (labels_body_length x l). simpl in *. lia. }
  destruct Hread as (d & r & -> & Hd & Hr). unfold read_line. pose proof (Hspan d r Hd) as Hs.
  destruct name as [|n0 [|n1 name]]; [done| |]; cbn [app] in *.
  - assert (Ascii.eqb n0 "#"%char = false) as -> by (destruct (Ascii.eqb_spec n0 "#"%char) as [->|]; [|done]; done).
    cbn [andb]. by rewrite Hs, Hn.
  - assert (Ascii.eqb n0 "#"%char = false) as -> by (destruct (Ascii.eqb_spec n0 "#"%char) as [->|]; [|done]; done).
    cbn [andb]. by rewrite Hs, Hn.
Qed.

Lemma labels_line_chars labels : forallb label_ok labels = true -> forallb (fun c => negb (Ascii.eqb c LF)) (labels_text labels) = true.
Proof.
  intros H. destruct labels as [|x l]; [done|]. unfold labels_text. rewrite !forallb_app.
  assert (Hp : forall y, label_ok y = true -> forallb (fun c => negb (Ascii.eqb c LF)) (label_pair y) = true).
  { intros [k v]. unfold label_ok, label_pair, label_text, quoted. cbn [fst snd]. rewrite andb_true_iff. intros [Hk Hv].
    rewrite !forallb_app. cbn [forallb]. rewrite forallb_app.
    rewrite (forallb_impl name_char _ k), (forallb_impl plain_char _ v); [done|intros c; by_chars c|done|intros c; by_chars c|by apply metric_name_chars]. }
  assert (forallb (fun c => negb (Ascii.eqb c LF)) (labels_body (x :: l)) = true) as ->; [|done].
  revert x H. induction l as [|y l IH]; intros x H; cbn [forallb] in H; apply andb_true_iff in H as [Hx H].
  - by apply Hp.
  - change (labels_body (x :: y :: l)) with (label_pair x ++ lit "," ++ labels_body (y :: l)). rewrite !forallb_app, Hp by done. by rewrite IH.
Qed.

Lemma item_line_chars i : item_ok i = true -> forallb (fun c => negb (Ascii.eqb c LF)) (item_line i) = true.
Proof.
  destruct i as [t|name labels value]; cbn [item_ok item_line]; [done|]. rewrite !andb_true_iff. intros [[Hn Hl] Hv].
  rewrite !forallb_app, labels_line_chars by done.
  rewrite (forallb_impl name_char _ name), (forallb_impl number_char _ value); [done|intros c; by_chars c|by apply number_chars|intros c; by_chars c|by apply metric_name_chars].
Qed.

Lemma split_exposition l fuel : (length l <= fuel)%nat -> forallb item_ok l = true -> exposition_lines fuel (exposition_text l) = Some (map item_line l).
Proof.
  revert fuel. induction l as [|i l IH]; intros fuel Hf Hok; [by destruct fuel|]. cbn [forallb] in Hok. apply andb_true_iff in Hok as [Hi Hok].
  destruct fuel as [|fuel]; [simpl in Hf; lia|]. change (exposition_text (i :: l)) with (item_text i ++ exposition_text l).
  rewrite item_text_line, <- app_assoc. cbn [app].
  destruct (item_line i ++ LF :: exposition_text l) as [|x t] eqn:E; [by destruct (item_line i)|]. cbn [exposition_lines]. rewrite <- E.
  rewrite span_app; [|by apply item_line_chars|by intros ? ? [= <- _]]. rewrite IH; [done|simpl in Hf; lia|done].
Qed.

Lemma exposition_length l : (length l <= length (exposition_text l))%nat.
Proof. induction l as [|i l IH]; [done|]. change (exposition_text (i :: l)) with (item_text i ++ exposition_text l). rewrite length_app, item_text_line, length_app. simpl. lia. Qed.

Lemma read_exposition_text l : forallb item_ok l = true -> read_exposition (exposition_text l) = Some l.
Proof.
  intros H. unfold read_exposition. rewrite split_exposition by (done || apply exposition_length). cbn [mbind option_bind].
  induction l as [|i l IH]; [done|]. cbn [forallb] in H. apply andb_true_iff in H as [Hi H]. cbn [map mapM]. rewrite read_item_line by done.
  cbn [mbind option_bind]. by rewrite IH.
Qed.

(** * Valid expositions *)

Section Valid.

Context (nan_text : str).

Definition prints_valid (e : exposition) : Prop := forall h l, forallb label_ok h = true -> e h = Ok l -> forallb item_ok l = true.

(** A name that is one of a metric after its blanks and dashes are replaced, and a number. *)
Definition sample_ok (nv : str * res printed) : Prop :=
  metric_name (replaceIllegalCharsWithUnderbar nv.1) = true /\
  forall v, nv.2 = Ok v -> match v with CInt _ => True | CReal x => finite x = true | CText _ => False end.

Lemma valid_nil : prints_valid e_nil.
Proof. by intros h l _ [= <-]. Qed.

Lemma valid_comment t : plain_text t = true -> prints_valid (e_comment t).
Proof. intros Ht h l _ [= <-]. cbn. rewrite andb_true_r. eapply forallb_impl; [|exact Ht]. intros c. by_chars c. Qed.

Lemma valid_seq a b : prints_valid a -> prints_valid b -> prints_valid (e_seq a b).
Proof.
  intros Ha Hb h l Hh E. apply bind_ok in E as (x & Hx & E). apply bind_ok in E as (y & Hy & E). injection E as <-.
  rewrite forallb_app. by rewrite (Ha h x), (Hb h y).
Qed.

Lemma valid_bind {A} (r : res A) k : (forall a, r = Ok a -> prints_valid (k a)) -> prints_valid (e_bind r k).
Proof. intros H h l Hh E. apply bind_ok in E as (a & Ha & E). by eapply (H a Ha). Qed.

Lemma valid_under key value e : label_ok (key, value) = true -> prints_valid e -> prints_valid (e_under key value e).
Proof. intros Hl He h l Hh. apply He. rewrite forallb_app, Hh. cbn [forallb]. by rewrite Hl. Qed.

Lemma valid_each {A} (f : A -> exposition) l : (forall a, a ∈ l -> prints_valid (f a)) -> prints_valid (e_each f l).
Proof.
  induction l as [|a l IH]; intros H; [apply valid_nil|]. apply valid_seq; [apply H; left|]. apply IH. intros x Hx. apply H. by right.
Qed.

Lemma valid_counters l : Forall sample_ok l -> prints_valid (e_counters nan_text l).
Proof.
  intros H. apply valid_each. intros [name v] Hv. rewrite Forall_forall in H. destruct (H _ Hv) as [Hn Hp]. apply valid_bind. intros x Hx.
  specialize (Hp x Hx). intros h k Hh E. injection E as <-. cbn [forallb item_ok fst snd] in *. rewrite Hn, Hh.
  destruct x as [n|x|t]; cbn [show_printed]; [by rewrite show_int_number|by rewrite fixed3_number|done].
Qed.

Lemma int_sample_ok (name : string) n : metric_name (replaceIllegalCharsWithUnderbar (lit name)) = true -> sample_ok (int_counter name n).
Proof. split; [done|]. by intros v [= <-]. Qed.
Lemma real_sample_ok (name : string) x : metric_name (replaceIllegalCharsWithUnderbar (lit name)) = true -> finite x = true -> sample_ok (real_counter name x).
Proof. split; [done|]. by intros v [= <-]. Qed.
Lemma fmap_int_sample_ok (name : str) (r : res Z) : metric_name (replaceIllegalCharsWithUnderbar name) = true -> sample_ok (name, CInt <$> r).
Proof. split; [done|]. cbn. destruct r; [|done]. by intros v [= <-]. Qed.
Lemma fmap_real_sample_ok (name : str) (r : res double) : metric_name (replaceIllegalCharsWithUnderbar name) = true ->
  (forall x, r = Ok x -> finite x = true) -> sample_ok (name, CReal <$> r).
Proof. intros Hn Hr. split; [done|]. cbn. destruct r as [x|]; [|done]. intros v Hv. apply Ok_inj in Hv as <-. by apply Hr. Qed.

End Valid.

#[export] Hint Resolve int_sample_ok real_sample_ok fmap_int_sample_ok : prom.
#[export] Hint Resolve valid_nil valid_comment valid_seq valid_counters : prom.

Ltac samples_ok := repeat first [apply Forall_cons; split | apply Forall_nil | apply Forall_app; split]; auto with prom.

(** A decimal number after a name. *)
Lemma metric_name_digits s n : 0 <= n -> metric_name (replaceIllegalCharsWithUnderbar s) = true ->
  metric_name (replaceIllegalCharsWithUnderbar (s ++ to_string n)) = true.
Proof.
  intros Hn H. unfold replaceIllegalCharsWithUnderbar, replace_char in *. rewrite !map_app.
  revert H. unfold metric_name. destruct s as [|c s]; [done|]. cbn [map app]. rewrite !andb_true_iff, !app_comm_cons, forallb_app.
  intros [H1 H2]. split; [done|]. rewrite andb_true_iff. split; [done|].
  rewrite forallb_forall. intros x Hx. apply in_map_iff in Hx as (y & <- & Hy). apply in_map_iff in Hy as (z & <- & Hz).
  pose proof (decimal_digits 20 n Hn) as Hd. rewrite forallb_forall in Hd. specialize (Hd z Hz). revert Hd. by_chars z.
Qed.

Lemma number_label key n : metric_name key = true -> 0 <= n -> label_ok (key, to_string n) = true.
Proof. intros Hk Hn. unfold label_ok. cbn [fst snd]. by rewrite Hk, (decimal_plain 20). Qed.

Lemma int_plain n : plain_text (int_text n) = true.
Proof. unfold int_text, show_int. destruct (Z.ltb_spec n 0); [rewrite plain_app; cbn [andb]|]; unfold integer_digits; by rewrite decimal_plain by lia. Qed.

Lemma int_label key n : metric_name key = true -> label_ok (key, int_text n) = true.
Proof. intros Hk. unfold label_ok. cbn [fst snd]. by rewrite Hk, int_plain. Qed.

Lemma int_comment (t : string) n : plain_text (lit t) = true -> plain_text (lit t ++ int_text n) = true.
Proof. intros Ht. by rewrite plain_app, Ht, int_plain. Qed.

Section ValidExposition.

Context (nan_text : str) (pm : pcm_metrics) (undefined_u64 : double -> Z) (Hpm : good_metrics pm).

Lemma residency_valid ratio raw i : finite (ratio i) = true -> prints_valid (e_residency nan_text ratio raw i).
Proof. intros H. apply valid_under; [apply number_label; [done|lia]|]. apply valid_counters. samples_ok. Qed.

Lemma basic_valid b a : advanced b a -> prints_valid (e_basic nan_text pm b a).
Proof.
  intros H. apply valid_under; [done|]. apply valid_seq; [apply valid_counters; unfold basic_counters; samples_ok|]. apply valid_seq.
  - apply valid_each. intros i _. apply residency_valid. by apply core_residency_finite.
  - apply valid_counters. unfold bandwidth_counters. samples_ok.
Qed.

Lemma uncore_valid b a : advanced (basic b) (basic a) -> prints_valid (e_uncore nan_text pm b a).
Proof using Hpm.
  intros H. apply valid_under; [done|]. apply valid_seq.
  - apply valid_counters. unfold prom_uncore_counters. repeat (apply Forall_app; split).
    + unfold dram_counters. samples_ok.
    + destruct (nearMemoryMetricsAvailable _); [|constructor]. unfold near_memory_counters, near_memory_rate. samples_ok.
      apply real_sample_ok; [done|apply NMHitRate_finite].
    + unfold memory_counters. samples_ok.
    + unfold energy_counters_of. samples_ok; (apply real_sample_ok; [done|]); [by apply joules_finite..|by apply DRAM_joules_finite].
  - apply valid_each. intros i _. apply residency_valid. by apply package_residency_finite.
Qed.

Lemma links_valid b a : advanced (basic (sy_counters b)) (basic (sy_counters a)) -> prints_valid (e_links nan_text pm undefined_u64 b a).
Proof using Hpm.
  intros H. apply valid_under; [done|]. apply valid_each. intros i _. apply valid_under; [apply number_label; [done|lia]|]. apply valid_counters.
  unfold socket_link_counters. apply Forall_app. split; [samples_ok|]. apply Forall_concat, Forall_map, Forall_true. intros j.
  unfold link_counters. repeat (apply Forall_cons; split); [| | | |constructor].
  - by apply fmap_int_sample_ok, metric_name_digits; [lia|].
  - by apply fmap_int_sample_ok, metric_name_digits; [lia|].
  - apply fmap_real_sample_ok; [by apply metric_name_digits; [lia|]|]. intros x. by apply incoming_utilization_finite.
  - apply fmap_real_sample_ok; [by apply metric_name_digits; [lia|]|]. intros x. by apply outgoing_utilization_finite.
Qed.

Lemma pcie_valid col : (forall x, col = Some x -> forallb (fun n => metric_name (replaceIllegalCharsWithUnderbar (lit "PCIe " ++ n))) (eventNames x) = true) ->
  prints_valid (e_pcie nan_text col).
Proof.
  intros Hn. destruct col as [x|]; [|apply valid_nil].
  assert (HC : forall bw raw, Forall sample_ok (pcie_counters (eventNames x) bw raw)).
  { intros bw raw. apply Forall_app. split; [samples_ok|]. apply Forall_forall. intros y Hy.
    apply list_elem_of_lookup_1 in Hy as [i Hi]. rewrite list_lookup_imap in Hi. apply fmap_Some in Hi as (z & _ & ->).
    destruct (eventNames x !! i) as [nm|] eqn:E; [|by split]. split; [|by intros v [= <-]]. cbn [fst default].
    specialize (Hn x eq_refl). rewrite forallb_forall in Hn. apply Hn, list_elem_of_In. by eapply list_elem_of_lookup_2. }
  apply valid_under; [done|]. apply valid_seq; [|by apply valid_counters]. apply valid_each. intros i _.
  apply valid_under; [apply number_label; [done|lia]|]. by apply valid_counters.
Qed.

Lemma accelerators_valid ac b a :
  forallb (fun k => metric_name (replaceIllegalCharsWithUnderbar (remove_string_inside_use (v_event_name k)))) (ac_ctrs ac) = true ->
  0 <= ac_ctx_accel ac < 3 \/ ac_devs ac = 0 -> prints_valid (e_accelerators nan_text undefined_u64 ac b a).
Proof.
  intros Hn Hd. apply valid_under; [done|]. destruct Hd as [Hd| ->]; [|apply valid_nil]. apply valid_each. intros i _. apply valid_under.
  - apply number_label; [|lia]. unfold getAccelCounterName. assert (ac_ctx_accel ac = 0 \/ ac_ctx_accel ac = 1 \/ ac_ctx_accel ac = 2) as [-> |[-> | ->]] by lia; done.
  - apply valid_counters. unfold prom_accelerator_counters, accelerator_counters. rewrite map_map. apply Forall_map, Forall_forall. intros [j k] Hj.
    apply list_elem_of_lookup_1 in Hj as [q Hq]. rewrite list_lookup_imap in Hq. apply fmap_Some in Hq as (y & Hy & [= -> ->]).
    apply fmap_int_sample_ok. cbn [fst snd]. rewrite forallb_forall in Hn. apply Hn, list_elem_of_In. by eapply list_elem_of_lookup_2.
Qed.

Context (c : sampler) (col : option PCIeCollector) (ac : accel_state).
Context (first second : option timed_sample).

(** The names of events are names of metrics when their blanks and dashes are replaced. *)
Record exposes (s : SystemRoot) : Prop := {
  exposes_events : forall x, col = Some x -> forallb (fun n => metric_name (replaceIllegalCharsWithUnderbar (lit "PCIe " ++ n))) (eventNames x) = true;
  exposes_counters : forallb (fun k => metric_name (replaceIllegalCharsWithUnderbar (remove_string_inside_use (v_event_name k)))) (ac_ctrs ac) = true;
  exposes_device : 0 <= ac_ctx_accel ac < 3 \/ ac_devs ac = 0
}.

Lemma socket_valid s x : reports c col ac first second s -> x ∈ sockets s -> prints_valid (e_socket nan_text pm first second x).
Proof using Hpm.
  intros Hr Hx. apply valid_under; [by apply int_label|]. apply valid_seq; [by apply valid_comment, int_comment|]. apply valid_seq; [|apply valid_seq].
  - apply valid_each. intros core Hc. apply valid_bind. intros id _. apply valid_under; [by apply int_label|]. apply valid_each. intros h Hh.
    apply valid_under; [by apply int_label|]. apply valid_seq; [apply valid_counters; samples_ok|].
    apply valid_bind. intros b Hb. apply valid_bind. intros a Ha. apply basic_valid. apply (reports_threads _ _ _ _ _ s Hr h); [|done..].
    unfold tree_threads, socket_threads. apply list_elem_of_In, in_concat. exists (concat (cores x)).
    split; [apply in_map_iff; exists x; split; [done|by apply list_elem_of_In]|]. apply in_concat. exists core. split; by apply list_elem_of_In.
  - apply valid_seq; [by apply valid_comment, int_comment|]. apply valid_bind. intros b Hb. apply valid_bind. intros a Ha.
    apply uncore_valid. by apply (reports_sockets _ _ _ _ _ s Hr x).
  - apply valid_under; [done|]. apply valid_seq; [by apply valid_comment, int_comment|]. apply valid_bind. intros b Hb. apply valid_bind. intros a Ha.
    apply basic_valid. by apply (reports_sockets _ _ _ _ _ s Hr x).
Qed.

Lemma system_valid s : reports c col ac first second s -> exposes s -> prints_valid (e_system nan_text pm undefined_u64 c col ac first second s).
Proof using Hpm.
  intros Hr He. pose proof (reports_system _ _ _ _ _ s Hr) as Hsys. apply valid_bind. intros us _. apply valid_seq; [apply valid_counters; samples_ok; by split; [|intros v [= <-]]|].
  apply valid_seq; [apply valid_each; intros x Hx; by apply (socket_valid s)|]. apply valid_under; [done|].
  apply valid_seq; [destruct (negb _); [apply valid_seq; [by apply valid_comment|by apply accelerators_valid; apply He]|apply valid_nil]|].
  apply valid_seq; [destruct (_ && _); [apply valid_seq; [by apply valid_comment|by apply links_valid]|apply valid_nil]|].
  apply valid_seq; [by apply valid_comment|]. apply valid_seq; [by apply basic_valid|]. apply valid_seq; [by apply valid_comment|].
  apply valid_seq; [by apply uncore_valid|]. apply valid_seq; [by apply valid_comment|]. apply pcie_valid, He.
Qed.

End ValidExposition.

(** C16. [/metrics]: [PrometheusPrinter] prints every sample under exactly the labels of the socket, core, thread and
    aggregate it belongs to - each handler leaves the stack of labels as it found it, on every path, and no line carries a
    label of another scope or a trailing comma - and throws what computing the values throws. A reader of the exposition
    format gets the samples back, with names, labels and values, under the two conditions of the JSON document
    ([good_metrics], [reports]: nothing divided by is zero, the time stamps advanced, event names need no escape) and one of
    its own ([exposes]): after the replacement of illegal characters the names of the PCIe and accelerator events are names of
    metrics, and the configured accelerator is one that has a name. *)
Theorem exposition_reads_back nan_text pm undefined_u64 c col ac first second s :
  is_Some second ->
  print_prometheus nan_text pm undefined_u64 c col ac first second s =
    (l ← e_system nan_text pm undefined_u64 c col ac first second s []; Ok (exposition_text l)) /\
  (good_metrics pm -> reports c col ac first second s -> exposes col ac s ->
   forall l, e_system nan_text pm undefined_u64 c col ac first second s [] = Ok l -> read_exposition (exposition_text l) = Some l).
Proof.
  intros Hs. split; [by apply print_prometheus_exposition|]. intros Hpm Hr He l Hl. apply read_exposition_text.
  by eapply (system_valid nan_text pm undefined_u64 Hpm c col ac first second s Hr He [] l).
Qed.

Lemma exposition_reads_back_witness :
  let e := e_system (lit "-nan") example_metrics (fun _ => 0) example_plain_sampler (Some example_collector)
    example_accelerators example_first example_second example_root in
  exists l, e [] = Ok l /\
    print_prometheus (lit "-nan") example_metrics (fun _ => 0) example_plain_sampler (Some example_collector)
      example_accelerators example_first example_second example_root = Ok (exposition_text l) /\
    read_exposition (exposition_text l) = Some l /\
    PSample (lit "RawCStateResidency") [(lit "socket", lit "0"); (lit "core", lit "0"); (lit "thread", lit "1"); (lit "source", lit "core"); (lit "index", lit "0")]
      (lit "3000000") ∈ l.
Proof.
  intros e. destruct (exposition_reads_back (lit "-nan") example_metrics (fun _ => 0) example_plain_sampler (Some example_collector)
    example_accelerators example_first example_second example_root) as [H1 H2]; [by eexists|].
  assert (Hl : match e [] with
               | Ok l => bool_decide (PSample (lit "RawCStateResidency") [(lit "socket", lit "0"); (lit "core", lit "0"); (lit "thread", lit "1"); (lit "source", lit "core"); (lit "index", lit "0")] (lit "3000000") ∈ l)
               | Throw _ => false end = true) by (vm_compute; reflexivity).
  assert (He : exposes (Some example_collector) example_accelerators example_root) by (split; [by intros x [= <-]|done|left; cbn; lia]).
  destruct (e []) as [l|] eqn:E; [|done]. exists l. split; [done|]. split; [rewrite H1; unfold e in E; by rewrite E|].
  assert (Hread : read_exposition (exposition_text l) = Some l) by (apply H2; [apply example_metrics_good|apply example_reports|exact He|exact E]).
  split; [exact Hread|]. by apply bool_decide_eq_true in Hl.
Defined.
