(* ===== verification/SamplingProofs.v ===== *)
(** Why the samples of [Sampling] do not depend on the order in which threads read them, and
    that the sensor server and [getAllCounterStates] compute the same samples.

    The machine holds still during a sample: it answers every read with the same value, so
    that only what the program does with the values is compared. *)

From S2P Require Import Prelude Bits CpuModels Capabilities WidthExtender Registers UncorePMU ServerUncore Resctrl CounterState PcmUncore Discovery RawEvents RawProgram Topology Bandwidth Sampling.
Local Open Scope Z_scope.

(** * Computations with a fixed result *)

(** A machine that holds still. *)
Class Still (machine : Machine) (cfg : port -> option Z) : Prop := still_answers : forall h p, machine h p = cfg p.

#[export] Instance static_still cfg : Still (static_machine cfg) cfg.
Proof. by intros h p. Qed.

Section Steady.
Context {machine : Machine} (cfg : port -> option Z) `{Hstill : !Still machine cfg}.

(** What a raw counter reads. *)
Definition raw_value (k : AbstractRawCounter) : Z :=
  let msr h n := match h with Some core => default 0 (cfg (MsrPort core n)) | None => 0 end in
  match k with
  | MsrHandleCounter h n mask => Z.land (msr h n) mask
  | MBLCounter h | MBTCounter h => msr h IA32_QM_CTR
  | ClientImcCounter l => foldl (fun acc r => u64 (acc + default 0 (cfg r))) 0 l
  end.

(** What the next read of an extender returns; [values] has it for every extender. *)
Definition next_value (e : extender) : Z := (CounterWidthExtender.read (ext_state e) (raw_value (raw_counter e))).2.

Definition settled (values : gmap nat Z) (h : hw) : Prop := forall id, next_value <$> extenders h !! id = values !! id.

(** [m] does the same in every settled state, which stays settled, and leaves the top-down slots
    of the cores alone. *)
Definition steady_with (values : gmap nat Z) {A} (P : A -> Prop) (m : M A) : Prop :=
  exists r, (forall a, r = Ok a -> P a) /\
    forall h, settled values h -> exists h', m h = (h', r) /\ settled values h' /\ slots h' = slots h.

Context (values : gmap nat Z).

Definition steady {A} (m : M A) : Prop := steady_with values (fun _ => True) m.

Lemma steady_weaken {A} (P Q : A -> Prop) m : steady_with values P m -> (forall a, P a -> Q a) -> steady_with values Q m.
Proof. intros (r & HP & H) HPQ. exists r. split; [|done]. intros a ->. apply HPQ. by apply HP. Qed.

Lemma steady_any {A} (P : A -> Prop) m : steady_with values P m -> steady m.
Proof. intros H. by eapply steady_weaken. Qed.

Lemma steady_ret {A} (P : A -> Prop) a : P a -> steady_with values P (mret a).
Proof. intros Ha. exists (Ok a). split; [by intros ? [= <-]|]. intros h Hh. by exists h. Qed.

Lemma steady_throw {A} (P : A -> Prop) e : steady_with values P (throw e).
Proof. exists (Throw e). split; [done|]. intros h Hh. by exists h. Qed.

Lemma steady_bind {A B} (P : A -> Prop) (Q : B -> Prop) (m : M A) (f : A -> M B) :
  steady_with values P m -> (forall a, P a -> steady_with values Q (f a)) -> steady_with values Q (m ≫= f).
Proof.
  intros ([a|e] & HP & Hm) Hf.
  - destruct (Hf a (HP a eq_refl)) as (r & HQ & Hr). exists r. split; [done|]. intros h Hh.
    destruct (Hm h Hh) as (h1 & E & H1 & S1). unfold mbind, M_bind. rewrite E. rewrite <- S1. auto.
  - exists (Throw e). split; [done|]. intros h Hh. destruct (Hm h Hh) as (h1 & E & H1). unfold mbind, M_bind. rewrite E. eauto.
Qed.

Lemma steady_bind' {A B} (m : M A) (f : A -> M B) : steady m -> (forall a, steady (f a)) -> steady (m ≫= f).
Proof. intros Hm Hf. apply (steady_bind (fun _ => True)); [exact Hm|intros a _; apply Hf]. Qed.

Lemma steady_attempt {A} (m : M A) : steady m -> steady (attempt m).
Proof.
  intros (r & _ & Hm). exists (Ok r). split; [done|]. intros h Hh. destruct (Hm h Hh) as (h' & E & H'). exists h'. unfold attempt. by rewrite E.
Qed.

(** [m] does the same in every settled state in which the slots of [core] are [s0], and changes no
    others. *)
Definition steady_at (core : Z) (s0 : option topdown_slots) {A} (m : M A) : Prop :=
  exists r, forall h, settled values h -> slots h !! core = s0 ->
    exists h', m h = (h', r) /\ settled values h' /\ forall k, k <> core -> slots h' !! k = slots h !! k.

Lemma steady_at_steady core s0 {A} (m : M A) : steady m -> steady_at core s0 m.
Proof.
  intros (r & _ & Hm). exists r. intros h Hh _. destruct (Hm h Hh) as (h' & E & H & Hs). exists h'. split_and!; [done..|]. by rewrite Hs.
Qed.

Lemma steady_at_after core s0 {A B} (m : M A) (f : A -> M B) : steady m -> (forall a, steady_at core s0 (f a)) -> steady_at core s0 (m ≫= f).
Proof.
  intros ([a|e] & _ & Hm) Hf.
  - destruct (Hf a) as (r & Hr). exists r. intros h Hh H0. destruct (Hm h Hh) as (h1 & E & H1 & S1). unfold mbind, M_bind. rewrite E.
    rewrite <- S1 in H0 |- *. auto.
  - exists (Throw e). intros h Hh _. destruct (Hm h Hh) as (h1 & E & H1 & S1). unfold mbind, M_bind. rewrite E. exists h1. by rewrite S1.
Qed.

Lemma steady_at_before core s0 {A B} (m : M A) (f : A -> M B) : steady_at core s0 m -> (forall a, steady (f a)) -> steady_at core s0 (m ≫= f).
Proof.
  intros ([a|e] & Hm) Hf.
  - destruct (Hf a) as (r & _ & Hr). exists r. intros h Hh H0. destruct (Hm h Hh H0) as (h1 & E & H1 & S1). unfold mbind, M_bind. rewrite E.
    destruct (Hr h1 H1) as (h2 & E2 & H2 & S2). exists h2. split_and!; [done..|]. by rewrite S2.
  - exists (Throw e). intros h Hh H0. destruct (Hm h Hh H0) as (h1 & E & H1 & S1). unfold mbind, M_bind. rewrite E. by exists h1.
Qed.

Lemma steady_at_get core s0 {B} (f : topdown_slots -> M B) : (forall s, steady_at core s0 (f s)) -> steady_at core s0 (get_slots core ≫= f).
Proof.
  intros Hf. destruct (Hf (default no_slots s0)) as (r & Hr). exists r. intros h Hh H0. unfold mbind, M_bind, get_slots. rewrite H0. auto.
Qed.

Lemma steady_at_put core s0 s : steady_at core s0 (put_slots core s).
Proof.
  exists (Ok tt). intros h Hh _. eexists. split_and!; [done|done|]. intros k Hk. cbn [slots]. by rewrite lookup_insert_ne.
Qed.

Lemma steady_access_read p : steady (access_read p).
Proof. exists (Ok (cfg p)). split; [done|]. intros h Hh. eexists. unfold access_read, respond. by rewrite still_answers. Qed.

Lemma steady_access_write p v : steady (access_write p v).
Proof. exists (Ok tt). split; [done|]. intros h Hh. by eexists. Qed.

Lemma steady_msr_read h n : steady (msr_read h n).
Proof. destruct h; [|by apply steady_ret]. apply steady_bind'; [apply steady_access_read|]. intros. by apply steady_ret. Qed.

Lemma steady_msr_write h n v : steady (msr_write h n v).
Proof. destruct h; [apply steady_access_write|by apply steady_ret]. Qed.

Definition sum_value (l : list port) (acc : Z) : Z := foldl (fun acc r => u64 (acc + default 0 (cfg r))) acc l.

Lemma read_sum_value l acc h : exists h', read_sum l acc h = (h', Ok (sum_value l acc)) /\ extenders h' = extenders h /\ slots h' = slots h.
Proof.
  revert acc h. induction l as [|r l IH]; intros acc h; [by exists h|]. cbn [read_sum]. unfold mbind, M_bind, access_read, respond.
  rewrite still_answers.
  destruct (IH (u64 (acc + default 0 (cfg r))) (HW (Read r :: history h) (extenders h) (slots h))) as (h' & E & Hx). by exists h'.
Qed.

Lemma raw_counter_value k h : exists h', raw_counter_read k h = (h', Ok (raw_value k)) /\ extenders h' = extenders h /\ slots h' = slots h.
Proof.
  destruct k as [[core|] n mask|[core|]|[core|]|l]; [..|apply (read_sum_value l 0 h)];
    unfold raw_counter_read, select_qm_event, msr_read, msr_write, mbind, M_bind, access_read, respond; cbn; rewrite ?still_answers; by eexists.
Qed.

Lemma next_value_read e : next_value (set_ext_state e (CounterWidthExtender.read (ext_state e) (raw_value (raw_counter e))).1) = next_value e.
Proof.
  unfold next_value. cbn [set_ext_state ext_state raw_counter]. unfold CounterWidthExtender.read. set (v := raw_value (raw_counter e)).
  unfold CounterWidthExtender.internal_read. cbn [fst snd CounterWidthExtender.extended_value CounterWidthExtender.last_raw_value].
  rewrite Z.ltb_irrefl, Z.sub_diag. change (u64 0) with 0. rewrite Z.add_0_r. destruct (_ <? _); by rewrite wrapN_wrapN by lia.
Qed.

Lemma extender_read_value id v h : values !! id = Some v -> settled values h ->
  exists h', extender_read id h = (h', Ok v) /\ settled values h' /\ slots h' = slots h.
Proof.
  intros Ev Hh. unfold extender_read, extender_sample. pose proof (Hh id) as Hid. rewrite Ev in Hid.
  apply fmap_Some in Hid as (e & He & ->). rewrite He. destruct (raw_counter_value (raw_counter e) h) as (h1 & -> & Hx & Hs).
  unfold next_value. destruct (CounterWidthExtender.read (ext_state e) (raw_value (raw_counter e))) as [st w] eqn:Er.
  eexists. split_and!; [done| |exact Hs]. intros id'. cbn [extenders]. rewrite Hx. destruct (decide (id' = id)) as [->|Hne].
  - rewrite lookup_insert_eq. cbn. rewrite <- Hh, He. cbn. f_equal. pose proof (next_value_read e) as Hn. by rewrite Er in Hn.
  - rewrite lookup_insert_ne by done. apply Hh.
Qed.

Lemma steady_extender_read id : steady (extender_read id).
Proof.
  destruct (values !! id) as [v|] eqn:Ev.
  - exists (Ok v). split; [done|]. intros h Hh. by apply extender_read_value.
  - exists (Throw NullDereference). split; [done|]. intros h Hh. pose proof (Hh id) as Hid. rewrite Ev in Hid.
    apply fmap_None in Hid. unfold extender_read, extender_sample. rewrite Hid. by exists h.
Qed.

Lemma steady_reg_read r : steady (reg_read r).
Proof.
  destruct r; cbn [reg_read]; [..|apply steady_msr_read|apply steady_extender_read];
    (apply steady_bind'; [apply steady_access_read|intros; by apply steady_ret]).
Qed.

Lemma steady_ptr_read p : steady (ptr_read p).
Proof. destruct p; [apply steady_reg_read|apply steady_throw]. Qed.

(** Registers other than extenders can be written. *)
Definition no_extender (p : HWRegisterPtr) : Prop := forall id, p <> Some (CounterWidthExtenderRegister id).

Lemma steady_ptr_write p v : no_extender p -> steady (ptr_write p v).
Proof.
  destruct p as [r|]; [|intros; apply steady_throw]. intros Hr. cbn [ptr_write].
  destruct r; cbn [reg_write]; try apply steady_access_write; [|apply steady_msr_write|by destruct (Hr id)].
  apply steady_bind'; [apply steady_access_write|]. intros _. apply steady_access_write.
Qed.

Lemma steady_mapM_ {A B} (P : A -> B -> Prop) (f : A -> M B) l : (forall a, a ∈ l -> steady_with values (P a) (f a)) ->
  steady_with values (Forall2 P l) (mapM_ l f).
Proof.
  induction l as [|a l IH]; intros Hf; cbn [mapM_]; [by apply steady_ret|].
  eapply steady_bind; [apply Hf; left|]. intros b Hb. eapply steady_bind; [apply IH; intros; apply Hf; by right|].
  intros bs Hbs. apply steady_ret. by constructor.
Qed.

Lemma steady_mapM {A B} (f : A -> M B) l : (forall a, steady (f a)) -> steady (mapM_ l f).
Proof. intros Hf. eapply steady_any. apply (steady_mapM_ (fun _ _ => True)). intros a _. apply Hf. Qed.

Lemma steady_sum_from term n begin result : (forall i, steady (term i)) -> steady (sum_from n begin term result).
Proof.
  intros Ht. revert begin result. induction n as [|n IH]; intros; cbn [sum_from]; [by apply steady_ret|].
  apply steady_bind'; [apply Ht|]. intros. apply IH.
Qed.

End Steady.

(** Solves [steady] goals: by the lemmas of the database, along binds and case distinctions. *)
Create HintDb steady.
#[export] Hint Resolve steady_access_read steady_access_write steady_msr_read steady_msr_write steady_extender_read
  steady_reg_read steady_ptr_read : steady.

Ltac steady :=
  repeat first
    [ progress intros
    | solve [eauto with steady]
    | apply steady_ret; exact I
    | apply steady_throw
    | apply steady_mapM
    | apply steady_sum_from
    | apply steady_bind'
    | case_match ].

Section Readings.
Context {machine : Machine} (cfg : port -> option Z) `{Hstill : !Still machine cfg} (values : gmap nat Z).

#[local] Abbreviation steady := (steady cfg values).

Lemma steady_read_sum l result : steady (read_sum l result).
Proof. revert result. induction l as [|r l IH]; intros; cbn [read_sum]; steady. Qed.

Lemma steady_counter_of ctr pmu : steady (counter_of ctr pmu).
Proof. unfold counter_of. steady. Qed.

Lemma steady_sum_units read l result : (forall pmu, steady (read pmu)) -> steady (sum_units read l result).
Proof. intros Hr. revert result. induction l as [|[pmu|] l IH]; intros; cbn [sum_units]; steady. Qed.

Lemma steady_sum_dies read id dies result : (forall pmu, steady (read pmu)) -> steady (sum_dies read id dies result).
Proof.
  intros Hr. revert result. induction dies as [|d dies IH]; intros; cbn [sum_dies]; [steady|].
  apply steady_bind'; [|auto]. destruct (list_find _ d) as [[? e]|]; [by apply steady_sum_units|steady].
Qed.

#[local] Hint Resolve steady_read_sum steady_counter_of : steady.

Lemma steady_getUncoreCounterState id socket ctr st : steady (getUncoreCounterState id socket ctr st).
Proof. unfold getUncoreCounterState. repeat case_match; [apply steady_sum_dies|..]; steady. Qed.

Lemma steady_getUncoreClocks socket st : steady (getUncoreClocks socket st).
Proof. unfold getUncoreClocks. case_match; [apply steady_sum_dies|]; steady. Qed.

Lemma steady_getPMUCounter l id ctr : steady (getPMUCounter l id ctr).
Proof. unfold getPMUCounter. steady. Qed.

Lemma steady_counter_value pmu ctr : steady (counter_value pmu ctr).
Proof. unfold counter_value. steady. Qed.

#[local] Hint Resolve steady_getUncoreCounterState steady_getUncoreClocks steady_getPMUCounter steady_counter_value : steady.

Lemma steady_sum_counters l ctr result : steady (sum_counters l ctr result).
Proof. revert result. induction l as [|pmu l IH]; intros; cbn [sum_counters]; steady. Qed.

#[local] Hint Resolve steady_sum_counters : steady.

Lemma steady_channel_sum s a b i : steady (channel_sum s a b i).
Proof. unfold channel_sum, getMCCounter. steady. Qed.

#[local] Hint Resolve steady_channel_sum : steady.

Lemma steady_server_reads s :
  steady (getImcReads s) /\ steady (getImcWrites s) /\ steady (ServerUncore.getNMHits s) /\ steady (ServerUncore.getNMMisses s) /\
  steady (getPMMReads s) /\ steady (getPMMWrites s) /\ steady (getEdcReads s) /\ steady (getEdcWrites s) /\
  steady (ServerUncore.getHARequests s) /\ steady (ServerUncore.getHALocalRequests s).
Proof.
  unfold getImcReads, getImcReadsForChannels, getImcWrites, ServerUncore.getNMHits, ServerUncore.getNMMisses, getPMMReads, getPMMWrites,
    getEdcReads, getEdcWrites, ServerUncore.getHARequests, ServerUncore.getHALocalRequests, getM2MCounter.
  split_and!; steady.
Qed.

Lemma steady_server_links s port : steady (getIncomingDataFlits s port) /\ steady (getOutgoingFlits s port) /\ steady (getUPIL0TxCycles s port).
Proof. unfold getIncomingDataFlits, getOutgoingFlits, getUPIL0TxCycles, getQPILLCounter. split_and!; steady. Qed.

(** ** Freezing the units of a server *)

Definition plain_units (l : list UncorePMU) : Prop := Forall (fun pmu => no_extender (unitControl pmu)) l.

(** No control register of a server unit is a width extender. *)
Record plain_server (s : ServerUncorePMUs) : Prop := PlainServer {
  plain_imc : plain_units (imcPMUs s);
  plain_edc : plain_units (edcPMUs s);
  plain_xpi : plain_units (xpiPMUs s);
  plain_m3upi : plain_units (m3upiPMUs s);
  plain_m2m : plain_units (m2mPMUs s);
  plain_ha : plain_units (haPMUs s);
  plain_hbm : plain_units (hbm_m2mPMUs s)
}.

Lemma getCPUFamilyModel_control m pmu : unitControl (getCPUFamilyModel m pmu).2 = unitControl pmu.
Proof. unfold getCPUFamilyModel. by case_match. Qed.

Lemma steady_freeze_unit m v pmu : no_extender (unitControl pmu) ->
  steady_with cfg values (fun p => no_extender (unitControl p))
    (let '(m', pmu) := getCPUFamilyModel m pmu in ptr_write (unitControl pmu) (v m') ;; mret pmu).
Proof.
  intros Hc. pose proof (getCPUFamilyModel_control m pmu) as E. destruct (getCPUFamilyModel m pmu) as [m' p]. cbn in E.
  eapply (steady_bind _ _ (fun _ => True)); [apply steady_ptr_write; by rewrite E|]. intros _ _. apply steady_ret. by rewrite E.
Qed.

Lemma steady_units (f : UncorePMU -> M UncorePMU) l :
  (forall pmu, no_extender (unitControl pmu) -> steady_with cfg values (fun p => no_extender (unitControl p)) (f pmu)) ->
  plain_units l -> steady_with cfg values plain_units (mapM_ l f).
Proof.
  intros Hf Hl. eapply steady_weaken; [apply (steady_mapM_ _ _ (fun _ p => no_extender (unitControl p)))|].
  - intros pmu Hin. apply Hf. exact (proj1 (Forall_forall _ _) Hl pmu Hin).
  - intros l' H. unfold plain_units. clear -H. induction H; by constructor.
Qed.

Lemma steady_for_all_PMUs f s :
  (forall pmu, no_extender (unitControl pmu) -> steady_with cfg values (fun p => no_extender (unitControl p)) (f pmu)) ->
  plain_server s -> steady_with cfg values plain_server (for_all_PMUs f s).
Proof.
  intros Hf [H1 H2 H3 H4 H5 H6 H7]. unfold for_all_PMUs.
  repeat (eapply steady_bind; [apply (steady_units f); [exact Hf|eassumption]|]; intros ? ?;
          try (eapply (steady_bind _ _ (fun x => x = _)); [by apply steady_ret|]; intros ? ->)).
  apply steady_ret. by constructor.
Qed.

Lemma steady_freezeCounters m s : plain_server s -> steady_with cfg values plain_server (freezeCounters m s).
Proof. intros Hs. apply steady_for_all_PMUs; [|done]. intros pmu. apply (steady_freeze_unit m (fun m' => switch m' _ _)). Qed.

Lemma steady_unfreezeCounters m s : plain_server s -> steady_with cfg values plain_server (unfreezeCounters m s).
Proof. intros Hs. apply steady_for_all_PMUs; [|done]. intros pmu. apply (steady_freeze_unit m (fun m' => switch m' _ _)). Qed.

End Readings.

#[export] Hint Resolve steady_read_sum steady_counter_of steady_getUncoreCounterState steady_getUncoreClocks steady_getPMUCounter
  steady_counter_value steady_sum_counters : steady.

(** * The steps of a sample *)

(** No reading changes what another one reads, of any core: the control registers of the servers are registers
    of the device, and no core has its top-down registers cleared. *)
Record undisturbed (c : sampler) : Prop := Undisturbed {
  und_servers : Forall plain_server (serverUncorePMUs (sm_uncore c));
  und_slots : forall core, clears_slots (sm_context c core) = false
}.

Section Steps.
Context {machine : Machine} (cfg : port -> option Z) `{Hstill : !Still machine cfg} (values : gmap nat Z) (c : sampler).
Context (Hservers : Forall plain_server (serverUncorePMUs (sm_uncore c))).

#[local] Abbreviation steady := (steady cfg values).

Lemma steady_readings l u : Forall (fun f => forall u, steady (f u)) l -> steady (readings l u).
Proof. intros Hl. revert u. induction Hl as [|f l Hf _ IH]; intros u; [by apply steady_ret|]. cbn. apply steady_bind'; auto. Qed.

Lemma steady_when b f u : (b = true -> forall u, steady (f u)) -> steady (when b f u).
Proof. intros Hf. destruct b; [by apply Hf|by apply steady_ret]. Qed.

Lemma steady_read_UFS l : steady (read_UFS l).
Proof. induction l as [|[[h|] pos] l IH]; cbn [read_UFS]; unfold TPMI_read64; steady. Qed.

#[local] Hint Resolve steady_read_UFS : steady.

Lemma steady_read_server_units socket from_bw s u : plain_server s -> steady (read_server_units c socket from_bw s u).
Proof.
  intros Hs. unfold read_server_units. eapply (steady_bind _ _ plain_server); [by apply steady_freezeCounters|]. intros s' Hs'.
  destruct (steady_server_reads cfg values s') as (H1 & H2 & H3 & H4 & H5 & H6 & H7 & H8 & H9 & H10).
  apply steady_bind'.
  - apply steady_readings. repeat constructor; intros u'; apply steady_when; intros _ u''; steady.
  - intros u'. eapply steady_bind'; [eapply steady_any; by apply steady_unfreezeCounters|]. steady.
Qed.

Lemma steady_uncore socket u : steady (readAndAggregateUncoreMCCounters c socket u).
Proof.
  unfold readAndAggregateUncoreMCCounters. apply steady_readings. repeat constructor; intros u'.
  - apply steady_when. intros _ u''. unfold read_TOR. steady.
  - apply steady_when. intros _ u''. unfold read_UncClocks. steady.
  - unfold read_UFSStatus. steady.
  - case_match; [|steady]. unfold read_serverBW, ServerBW_getImcReads, ServerBW_getImcWrites, ServerBW_getPMMReads, ServerBW_getPMMWrites, server_sum. steady.
  - unfold read_memory. case_match.
    + destruct (_ !! socket) as [s|] eqn:E; [|steady]. apply steady_read_server_units. eapply Forall_lookup_1; [exact Hservers|done].
    + unfold read_client, read_msr_counters. steady.
Qed.

Lemma steady_energy socket u : steady (readAndAggregateEnergyCounters c socket u).
Proof.
  unfold readAndAggregateEnergyCounters. apply steady_readings.
  assert (Hx : forall id add u', steady (read_extender_into id add u')) by (intros [|] ? ?; unfold read_extender_into; steady).
  apply Forall_app. split; [repeat constructor; apply Hx|]. case_match; [|constructor].
  apply Forall_forall. intros f (i & id & -> & _)%elem_of_lookup_imap. apply Hx.
Qed.

Lemma steady_cstates handle u : steady (readAndAggregatePackageCStateResidencies c handle u).
Proof. unfold readAndAggregatePackageCStateResidencies, read_package_cstates. steady. Qed.

Lemma steady_set2 s l x v : steady (set2 s l x v).
Proof. unfold set2. steady. Qed.

#[local] Hint Resolve steady_set2 : steady.

Lemma steady_set_link s l x y : steady (set_incoming s l x y) /\ steady (set_outgoing s l x y) /\ steady (set_TxL0 s l x y).
Proof. unfold set_incoming, set_outgoing, set_TxL0. split_and!; steady. Qed.

Lemma steady_read_links handle s set number l y : (forall s l x y, steady (set s l x y)) -> steady (read_links handle s set number l y).
Proof. intros Hset. revert y. induction l as [|[link k] l IH]; intros y; cbn [read_links]; steady. Qed.

Lemma steady_read_beckton cores processed y : steady (read_beckton c cores processed y).
Proof.
  revert processed y. induction cores as [|core cores IH]; intros; cbn [read_beckton]; [steady|]. case_match; [|auto].
  apply steady_bind'; [steady|]. intros y'. case_match; [auto|].
  apply steady_bind'; [apply steady_read_links; intros; apply steady_set_link|]. intros y''.
  apply steady_bind'; [apply steady_read_links; intros; apply steady_set_link|]. auto.
Qed.

Lemma steady_read_ports s u ports y : steady (read_ports c s u ports y).
Proof.
  revert y. induction ports as [|port ports IH]; intros y; cbn [read_ports]; [steady|].
  destruct (steady_server_links cfg values u port) as (H1 & H2 & H3).
  repeat (apply steady_bind'; [eauto with steady; apply steady_set_link|]; intros ?). auto.
Qed.

Lemma steady_read_server_links s l y : Forall plain_server l -> steady (read_server_links c s l y).
Proof.
  intros Hl. revert s y. induction Hl as [|u l Hu _ IH]; intros; cbn [read_server_links]; [steady|].
  eapply (steady_bind _ _ plain_server); [by apply steady_freezeCounters|]. intros u' Hu'.
  apply steady_bind'; [apply steady_read_ports|]. intros y'. apply steady_bind'; [eapply steady_any; by apply steady_unfreezeCounters|]. auto.
Qed.

Lemma steady_qpi y : steady (readQPICounters c y).
Proof.
  unfold readQPICounters. case_match; [apply steady_read_beckton|]. case_match.
  - case_match; [|apply steady_set_link]. unfold read_gq.
    do 2 (apply steady_bind'; [steady|]; intros ?). do 3 (apply steady_bind'; [apply steady_set_link|]; intros ?).
    apply steady_set_link.
  - case_match; [by apply steady_read_server_links|steady].
Qed.

Lemma steady_cxl y : steady (readAndAggregateCXLCMCounters c y).
Proof.
  unfold readAndAggregateCXLCMCounters. apply steady_bind'; [|steady]. apply steady_mapM. intros socket.
  generalize (default [] (cxlPMUs (sm_uncore c) !! socket)) as l. generalize 0 at 2 as b. generalize 0 as a. intros a b l. revert a b.
  induction l as [|p l IH]; intros; cbn [read_cxl]; steady.
Qed.

Lemma steady_system_energy y : steady (readSystemEnergyStatus c y).
Proof. unfold readSystemEnergyStatus. steady. Qed.

Lemma steady_read_registers {L} (key vkey : RawEventEncoding -> list Z) (read : RawEventEncoding -> L -> M (list Z)) locs configs vals :
  (forall e r, steady (read e r)) -> steady (read_registers key vkey read locs configs vals).
Proof. intros Hr. revert vals. induction configs as [|x configs IH]; intros; cbn [read_registers]; steady. Qed.

Lemma steady_values y : steady (read_pcicfg_values c y) /\ steady (read_mmio_values c y) /\ steady (read_pmt_values c y) /\ steady (read_tpmi_values c y).
Proof.
  unfold read_pcicfg_values, read_mmio_values, read_pmt_values, read_tpmi_values, readPCICFGRegisters, readMMIORegisters, readPMTRegisters, readTPMIRegisters.
  split_and!; (apply steady_bind'; [apply steady_read_registers; intros; unfold read_pcicfg, read_mmio, telemetry_get, TPMI_read64; steady|steady]).
Qed.

Lemma steady_readMSRs handle configs vals : steady (readMSRs handle configs vals).
Proof. revert vals. induction configs as [|x configs IH]; intros; cbn [readMSRs]; steady. Qed.

Lemma steady_read_raw_MSRs handle configs b : steady (read_raw_MSRs handle configs b).
Proof. unfold read_raw_MSRs. apply steady_bind'; [apply steady_readMSRs|steady]. Qed.

Lemma steady_headroom socket b : steady (readPackageThermalHeadroom c socket b).
Proof. unfold readPackageThermalHeadroom. steady. Qed.

Lemma steady_check_programming core ctr expected mask : steady (check_programming core ctr expected mask).
Proof. revert ctr mask. induction expected as [|e expected IH]; intros; cbn [check_programming]; unfold msr_read_checked; steady. Qed.

Lemma steady_read_c_states core msrs vals : steady (read_c_states core msrs vals).
Proof. revert vals. induction msrs as [|x msrs IH]; intros; cbn [read_c_states]; steady. Qed.

#[local] Hint Resolve steady_check_programming steady_read_c_states : steady.

Lemma steady_lift_res {A} (r : res A) : steady (lift_res r).
Proof. destruct r as [a|e]; [by apply (steady_ret cfg values (fun _ => True))|apply steady_throw]. Qed.

Lemma steady_sum_files files result : steady (sum_files files result).
Proof. revert result. induction files as [|f files IH]; intros; cbn [sum_files]; steady. Qed.

Lemma steady_task_counters reads out : steady (read_task_counters reads out).
Proof. revert out. induction reads as [|[fds ctr] reads IH]; intros; cbn [read_task_counters]; unfold read_task_counter; steady. Qed.

#[local] Hint Resolve steady_lift_res steady_sum_files steady_task_counters : steady.

Lemma steady_core_perf ctx : steady (read_core_perf ctx).
Proof. unfold read_core_perf, readPerfData, readPerfDataHelper, read_perf_slots, topdown_value, perf_value. cbv zeta. steady. Qed.

Lemma steady_core_direct ctx core : ctx_HWTMAL1 ctx = false -> steady (read_core_direct ctx core).
Proof. intros H. unfold read_core_direct, read_programmable. rewrite H. steady. Qed.

Lemma steady_add_share old share total slots : steady (add_share old share total slots).
Proof. unfold add_share, double_to_uint64. steady. Qed.

#[local] Hint Resolve steady_add_share : steady.

(** Reading the top-down registers uses the slots of its core and no others. *)
Lemma steady_at_topdown ctx core s0 : steady_at cfg values core s0 (read_topdown ctx core).
Proof.
  unfold read_topdown. cbv zeta. repeat (apply steady_at_after; [solve [steady]|intros]). apply steady_at_get. intros s.
  case_match; repeat (apply steady_at_after; [solve [steady]|intros]); (apply steady_at_before; [apply steady_at_put|steady]).
Qed.

Lemma steady_at_core_direct ctx core s0 : steady_at cfg values core s0 (read_core_direct ctx core).
Proof.
  unfold read_core_direct, read_programmable. repeat (apply steady_at_after; [solve [steady]|intros]).
  apply steady_at_before; [|steady]. case_match; [apply steady_at_topdown|apply steady_at_steady; steady].
Qed.

(** What follows the counters of a core in [readAndAggregate] does the same in every state. *)
Ltac core_readings :=
  unfold readAndAggregate, checkCustomCoreProgramming, read_occupancy, scale_occupancy, readAndAggregateMemoryBWCounters, getMBL, getMBT,
    getL3OCC, getMetric, initQOSevent, select_qm_event, aggregate_bw, readAndAggregateTSC, getInvariantTSC_Fast, double_to_uint64; cbv zeta.

Lemma steady_read_core core b : clears_slots (sm_context c core) = false -> steady (read_core c core b).
Proof.
  intros Hs. unfold clears_slots in Hs. unfold read_core.
  assert (Hr : steady (if canUsePerf (ctx_widths (sm_context c core)) then read_core_perf (sm_context c core)
                       else read_core_direct (sm_context c core) core)).
  { destruct (canUsePerf _); [apply steady_core_perf|by apply steady_core_direct]. }
  core_readings. repeat (apply steady_bind'; [first [exact Hr|steady]|intros]); steady.
Qed.

Lemma steady_at_read_core core s0 b : steady_at cfg values core s0 (read_core c core b).
Proof.
  unfold read_core.
  assert (Hr : steady_at cfg values core s0 (if canUsePerf (ctx_widths (sm_context c core)) then read_core_perf (sm_context c core)
                       else read_core_direct (sm_context c core) core)).
  { destruct (canUsePerf _); [apply steady_at_steady, steady_core_perf|apply steady_at_core_direct]. }
  core_readings. do 3 (apply steady_at_after; [steady|intros]). apply steady_at_before; [exact Hr|intros].
  repeat (apply steady_bind'; [steady|intros]); steady.
Qed.

End Steps.

(** * Interleavings *)

Section Interleavings.
Context {A : Type}.

(** The first step of thread [i] can be moved to the front: before it run only steps of other
    threads. *)
Lemma interleaving_pull (ts : list (list A)) l i a r : interleaving ts l -> ts !! i = Some (a :: r) ->
  exists l1 l2, l = l1 ++ a :: l2 /\ interleaving (<[i := r]> ts) (l1 ++ l2) /\
    forall b, b ∈ l1 -> exists j rj, j <> i /\ ts !! j = Some rj /\ b ∈ rj.
Proof.
  intros Hl. revert i a r. induction Hl as [ts Hts|ts j b rb l Hj Hl IH]; intros i a r Hi.
  - pose proof (Forall_lookup_1 _ _ _ _ Hts Hi) as E. by simpl in E.
  - destruct (decide (j = i)) as [->|Hne].
    + rewrite Hj in Hi. injection Hi as -> ->. exists [], l. split_and!; [done|done|]. by intros b ?%elem_of_nil.
    + destruct (IH i a r) as (l1 & l2 & -> & H1 & H2); [by rewrite list_lookup_insert_ne|].
      exists (b :: l1), l2. split_and!; [done| |].
      * cbn [app]. apply (interleaving_step _ j b rb); [by rewrite list_lookup_insert_ne|]. by rewrite list_insert_insert_ne.
      * intros x [->|Hx]%elem_of_cons; [exists j, (b :: rb); split_and!; [done|done|left]|].
        destruct (H2 x Hx) as (k & rk & Hk & Hl' & Hin). destruct (decide (k = j)) as [->|Hkj].
        -- rewrite list_lookup_insert_eq in Hl' by (by eapply lookup_lt_Some). injection Hl' as <-.
           exists j, (b :: rb). split_and!; [done|done|by right].
        -- rewrite list_lookup_insert_ne in Hl' by done. by exists k, rk.
Qed.

Lemma interleaving_of_nothing (ts : list (list A)) l : Forall (eq []) ts -> interleaving ts l -> l = [].
Proof. intros Hts Hl. destruct Hl as [|ts i a r l Hi _]; [done|]. pose proof (Forall_lookup_1 _ _ _ _ Hts Hi) as E. by simpl in E. Qed.

(** When steps of different threads commute, all interleavings do the same. *)
Lemma interleavings_agree {S} (f : S -> A -> S) ts l1 l2 :
  (forall i j ri rj a b, i <> j -> ts !! i = Some ri -> ts !! j = Some rj -> a ∈ ri -> b ∈ rj -> forall s, f (f s a) b = f (f s b) a) ->
  interleaving ts l1 -> interleaving ts l2 -> forall s, foldl f s l1 = foldl f s l2.
Proof.
  intros Hcomm Hl1. revert l2 Hcomm. induction Hl1 as [ts Hts|ts i a r l1 Hi Hl1 IH]; intros l2 Hcomm Hl2 s.
  - by rewrite (interleaving_of_nothing _ _ Hts Hl2).
  - destruct (interleaving_pull _ _ _ _ _ Hl2 Hi) as (la & lb & -> & Hl & Hother). cbn [foldl].
    assert (Hpull : forall s, foldl f s (la ++ a :: lb) = foldl f (f s a) (la ++ lb)).
    { clear IH Hl Hl2. induction la as [|b la IHla]; intros s'; [done|]. cbn [app foldl].
      destruct (Hother b ltac:(left)) as (j & rj & Hj & Hlj & Hb). rewrite IHla by (intros x Hx; apply Hother; by right). f_equal.
      apply (Hcomm j i rj (a :: r)); [done|done|done|done|left]. }
    rewrite Hpull. apply IH; [|done]. intros k j rk rj x y Hkj Hk Hj Hx Hy.
    assert (Hsub : forall k rk x, <[i := r]> ts !! k = Some rk -> x ∈ rk -> exists rk', ts !! k = Some rk' /\ x ∈ rk').
    { intros k' rk' x' Hk' Hx'. destruct (decide (k' = i)) as [->|Hne].
      - rewrite list_lookup_insert_eq in Hk' by (by eapply lookup_lt_Some). injection Hk' as <-. exists (a :: r). split; [done|by right].
      - rewrite list_lookup_insert_ne in Hk' by done. by exists rk'. }
    destruct (Hsub _ _ _ Hk Hx) as (rk' & ? & ?), (Hsub _ _ _ Hj Hy) as (rj' & ? & ?). by apply (Hcomm k j rk' rj').
Qed.

End Interleavings.

(** * Readings that leave the package C-states alone *)

Section Frames.
Context {machine : Machine}.

(** [f] leaves what [t] changes alone. *)
Definition framed {X} (t : X -> X) (f : X -> M X) : Prop := forall u, f (t u) ≡ (u' ← f u; mret (t u')).

Lemma framed_ret {X} (t : X -> X) set : (forall u, set (t u) = t (set u)) -> framed t (fun u => mret (set u)).
Proof. intros Hs u. constructor. intros h. unfold mbind, M_bind, mret, M_ret. by rewrite Hs. Qed.

Lemma framed_throw {X} (t : X -> X) e : framed t (fun _ => throw e).
Proof. intros u. by constructor. Qed.

Lemma framed_bind {X A} (t : X -> X) (m : M A) (k : A -> X -> M X) : (forall a, framed t (k a)) -> framed t (fun u => a ← m; k a u).
Proof.
  intros Hk u. constructor. intros h. unfold mbind, M_bind. destruct (m h) as [h' [a|e]]; [|done].
  apply (agree_at (Hk a u)).
Qed.

Lemma framed_then {X} (t : X -> X) (f g : X -> M X) : framed t f -> framed t g -> framed t (fun u => u' ← f u; g u').
Proof.
  intros Hf Hg u. constructor. intros h. pose proof (agree_at (Hf u) h) as E. unfold mbind, M_bind in *. rewrite E.
  destruct (f u h) as [h' [u'|e]]; [|done]. apply (agree_at (Hg u')).
Qed.

Definition frames (f : uncore_reading) : Prop := forall l, framed (add_cstates l) f.

Lemma frames_ret set : (forall l u, set (add_cstates l u) = add_cstates l (set u)) -> frames (fun u => mret (set u)).
Proof. intros Hs l. by apply framed_ret. Qed.

Lemma frames_id : frames (fun u => mret u).
Proof. by apply (frames_ret (fun u => u)). Qed.

Lemma frames_throw e : frames (fun _ => throw e).
Proof. intros l. apply framed_throw. Qed.

Lemma frames_bind {A} (m : M A) (k : A -> uncore_reading) : (forall a, frames (k a)) -> frames (fun u => a ← m; k a u).
Proof. intros Hk l. apply framed_bind. intros a. apply Hk. Qed.

Lemma frames_then (f : uncore_reading) (g : uncore_reading) : frames f -> frames g -> frames (fun u => u' ← f u; g u').
Proof. intros Hf Hg l. by apply framed_then. Qed.

Lemma frames_readings l : Forall frames l -> frames (readings l).
Proof. induction 1 as [|f l Hf _ IH]; [apply frames_id|]. by apply frames_then. Qed.

Lemma frames_when b f : frames f -> frames (when b f).
Proof. intros Hf. destruct b; [done|apply frames_id]. Qed.

Ltac frames :=
  repeat first
    [ assumption
    | apply frames_id
    | apply frames_ret; intros; match goal with u : UncoreCounterState |- _ => destruct u; reflexivity end
    | apply frames_throw
    | apply frames_when
    | apply frames_bind; intros ?
    | case_match ].

Lemma frames_server_units c socket from_bw s : frames (read_server_units c socket from_bw s).
Proof.
  unfold read_server_units. apply frames_bind. intros s'.
  apply (frames_then (readings _) (fun u => unfreezeCounters (sm_model c) s' ;; mret u)); [|frames].
  apply frames_readings. rewrite !Forall_cons. split_and!; [..|done]; frames.
Qed.

Lemma frames_uncore c socket : frames (readAndAggregateUncoreMCCounters c socket).
Proof.
  unfold readAndAggregateUncoreMCCounters. apply frames_readings. rewrite !Forall_cons. split_and!; [..|done].
  - apply frames_when. unfold read_TOR. frames.
  - apply frames_when. unfold read_UncClocks. frames.
  - unfold read_UFSStatus. frames.
  - case_match; [|frames]. unfold read_serverBW. frames.
  - unfold read_memory. case_match; [destruct (_ !! socket); [apply frames_server_units|frames]|]. unfold read_client, read_msr_counters. frames.
Qed.

Lemma frames_energy c socket : frames (readAndAggregateEnergyCounters c socket).
Proof.
  unfold readAndAggregateEnergyCounters. apply frames_readings. apply Forall_app. split.
  - rewrite !Forall_cons. split_and!; [..|done]; unfold read_extender_into; frames.
  - case_match; [|constructor]. apply Forall_forall. intros f (i & id & -> & _)%elem_of_lookup_imap. unfold read_extender_into. frames.
Qed.

End Frames.

(** * Steps of different threads commute *)

Section Pure.
Context {machine : Machine} (cfg : port -> option Z) `{Hstill : !Still machine cfg} (values : gmap nat Z) (h0 : hw).
Context (Hh0 : settled cfg values h0).

#[local] Abbreviation steady := (steady cfg values).

Definition outcome {A} (m : M A) : res A := (m h0).2.

Lemma steady_outcome {A} (m : M A) h : steady m -> settled cfg values h ->
  exists h', m h = (h', outcome m) /\ settled cfg values h' /\ slots h' = slots h.
Proof.
  intros (r & _ & Hm) Hh. unfold outcome. destruct (Hm h0 Hh0) as (h1 & -> & _). by apply Hm.
Qed.

Lemma steady_at_outcome core {A} (m : M A) h : steady_at cfg values core (slots h0 !! core) m -> settled cfg values h ->
  slots h !! core = slots h0 !! core ->
  exists h', m h = (h', outcome m) /\ settled cfg values h' /\ forall k, k <> core -> slots h' !! k = slots h !! k.
Proof.
  intros (r & Hm) Hh Hs. unfold outcome. destruct (Hm h0 Hh0 eq_refl) as (h1 & -> & _). by apply Hm.
Qed.

(** A step whatever state it meets. *)
Definition good_step (a : step) : Prop :=
  match a with
  | OnCore _ f | OnSocketBasic _ f => forall b, steady (f b)
  | OnSocketUncore _ f => forall u, steady (f u)
  | OnSystem f => forall y, steady (f y)
  end.

Lemma steady_perform a sa : good_step a -> steady (perform a sa).
Proof. destruct a; cbn [good_step perform]; intros; steady. Qed.

Definition mark (t : nat) (sa : samples) : samples := Samples (sa_system sa) (sa_sockets sa) (sa_cores sa) ({[t]} ∪ sa_failed sa).

Definition pure_step (sa : samples) (ta : nat * step) : samples :=
  if decide (ta.1 ∈ sa_failed sa) then sa
  else match outcome (perform ta.2 sa) with Ok sa' => sa' | Throw _ => mark ta.1 sa end.

(** A step that reads the top-down slots of a core. *)
Definition reads_slots (core : Z) (a : step) : Prop :=
  match a with OnCore _ f => forall b, steady_at cfg values core (slots h0 !! core) (f b) | _ => False end.

Lemma steady_at_perform core a sa : reads_slots core a -> steady_at cfg values core (slots h0 !! core) (perform a sa).
Proof.
  destruct a as [n f| | |]; [|done..]. cbn [reads_slots perform]. intros Hf. destruct (sa_cores sa !! n); [|apply steady_at_steady; steady].
  apply steady_at_before; [apply Hf|steady].
Qed.

(** The steps of a list, with the cores whose slots they read, in order. *)
Inductive orderly : list (nat * step) -> list Z -> Prop :=
  | orderly_nil : orderly [] []
  | orderly_good ta l cs : good_step ta.2 -> orderly l cs -> orderly (ta :: l) cs
  | orderly_slots core ta l cs : reads_slots core ta.2 -> orderly l cs -> orderly (ta :: l) (core :: cs).

Lemma run_step_pure ta sa h h1 : perform ta.2 sa h = (h1, outcome (perform ta.2 sa)) ->
  exists h2, run_step ta sa h = (h2, Ok (pure_step sa ta)) /\ (h2 = h \/ h2 = h1).
Proof.
  intros E. unfold run_step, pure_step. case_decide; [exists h; auto|]. exists h1. split; [|by right]. unfold mbind, M_bind, attempt.
  rewrite E. by destruct (outcome _).
Qed.

(** When no slots are read twice, and those still to be read are those of the start, every step
    has its outcome. *)
Lemma run_steps_pure l cs sa h : orderly l cs -> NoDup cs -> settled cfg values h ->
  (forall core, core ∈ cs -> slots h !! core = slots h0 !! core) ->
  exists h', run_steps l sa h = (h', Ok (foldl pure_step sa l)) /\ settled cfg values h'.
Proof.
  intros Hl. revert sa h. induction Hl as [|ta l cs Ha _ IH|core ta l cs Ha _ IH]; intros sa h Hcs Hh Hs; [by exists h| |];
    cbn [run_steps foldl]; unfold mbind at 1, M_bind at 1.
  - destruct (steady_outcome (perform ta.2 sa) h (steady_perform _ _ Ha) Hh) as (h1 & E & H1 & S1).
    destruct (run_step_pure ta sa h h1 E) as (h2 & -> & [->| ->]); apply IH; try done. by rewrite S1.
  - apply NoDup_cons in Hcs as [Hc Hcs].
    destruct (steady_at_outcome core (perform ta.2 sa) h (steady_at_perform _ _ _ Ha) Hh (Hs core ltac:(left))) as (h1 & E & H1 & S1).
    destruct (run_step_pure ta sa h h1 E) as (h2 & -> & [->| ->]); apply IH; try done; intros k Hk.
    + apply Hs. by right.
    + rewrite S1 by (by intros ->). apply Hs. by right.
Qed.

Lemma outcome_update {A B} (m : M A) (g : A -> B) : outcome (a ← m; mret (g a)) = match outcome m with Ok a => Ok (g a) | Throw e => Throw e end.
Proof. unfold outcome, mbind, M_bind. by destruct (m h0) as [h [a|e]]. Qed.

Ltac perform_cases a :=
  destruct a as [?n ?f|?n ?f|?n ?f|?f]; cbn;
  [destruct (sa_cores _ !! _)|destruct (sa_sockets _ !! _)|destruct (sa_sockets _ !! _)|];
  rewrite ?outcome_update; try done.

(** The step with the failures of another state. *)
Definition with_failed (F : gset nat) (sa : samples) : samples := Samples (sa_system sa) (sa_sockets sa) (sa_cores sa) F.

Lemma perform_failed a sa F :
  outcome (perform a (with_failed F sa)) = match outcome (perform a sa) with Ok s => Ok (with_failed F s) | Throw e => Throw e end.
Proof. perform_cases a; by destruct (outcome _). Qed.

Lemma perform_keeps_failed a sa sa' : outcome (perform a sa) = Ok sa' -> sa_failed sa' = sa_failed sa.
Proof. perform_cases a; destruct (outcome _); intros [= <-]; done. Qed.

(** Each of two steps does the same before and after the other. *)
Definition commuting (a b : step) : Prop := forall sa,
  match outcome (perform a sa), outcome (perform b sa) with
  | Ok s1, Ok s2 => exists s3, outcome (perform b s1) = Ok s3 /\ outcome (perform a s2) = Ok s3
  | Ok s1, Throw _ => exists e, outcome (perform b s1) = Throw e
  | Throw _, Ok s2 => exists e, outcome (perform a s2) = Throw e
  | Throw _, Throw _ => True
  end.

Lemma commuting_sym a b : commuting a b -> commuting b a.
Proof.
  intros H sa. specialize (H sa). destruct (outcome (perform a sa)), (outcome (perform b sa)); try done.
  destruct H as (s3 & H1 & H2). by exists s3.
Qed.

Lemma pure_steps_commute t a t' b sa : t <> t' -> commuting a b ->
  pure_step (pure_step sa (t, a)) (t', b) = pure_step (pure_step sa (t', b)) (t, a).
Proof.
  intros Hne Hc. specialize (Hc sa). unfold pure_step at 2 4. cbn [fst snd].
  assert (Hmark : forall x s, mark x s = with_failed ({[x]} ∪ sa_failed s) s) by done.
  destruct (decide (t ∈ sa_failed sa)) as [Ht|Ht], (decide (t' ∈ sa_failed sa)) as [Ht'|Ht'].
  - unfold pure_step. cbn [fst snd]. by rewrite !decide_True.
  - unfold pure_step. cbn [fst snd]. rewrite (decide_False (P := t' ∈ _)) by done.
    destruct (outcome (perform b sa)) as [s2|e] eqn:E2.
    + rewrite decide_True; [done|]. by rewrite (perform_keeps_failed _ _ _ E2).
    + rewrite decide_True; [done|]. cbn. set_solver.
  - unfold pure_step. cbn [fst snd]. rewrite (decide_False (P := t ∈ _)) by done.
    destruct (outcome (perform a sa)) as [s1|e] eqn:E1.
    + rewrite decide_True; [done|]. by rewrite (perform_keeps_failed _ _ _ E1).
    + rewrite decide_True; [done|]. cbn. set_solver.
  - destruct (outcome (perform a sa)) as [s1|e] eqn:E1, (outcome (perform b sa)) as [s2|e'] eqn:E2; unfold pure_step; cbn [fst snd].
    + destruct Hc as (s3 & -> & ->). rewrite !decide_False; [done|..]; by rewrite ?(perform_keeps_failed _ _ _ E1), ?(perform_keeps_failed _ _ _ E2).
    + destruct Hc as [e Hb]. rewrite (perform_keeps_failed _ _ _ E1), decide_False, Hb by done.
      rewrite decide_False by (cbn; set_solver). rewrite !Hmark, perform_failed, E1. by rewrite (perform_keeps_failed _ _ _ E1).
    + destruct Hc as [e' Ha]. rewrite (perform_keeps_failed _ _ _ E2), (decide_False (P := t ∈ _)), Ha by done.
      rewrite decide_False by (cbn; set_solver). rewrite !Hmark, perform_failed, E2. by rewrite (perform_keeps_failed _ _ _ E2).
    + rewrite !decide_False by (cbn; set_solver). rewrite !Hmark, !perform_failed, E1, E2. unfold with_failed, mark. cbn. f_equal. set_solver.
Qed.

(** Two readings of the uncore counters of a socket. *)
Definition commuting_readings (f g : uncore_reading) : Prop := forall u,
  match outcome (f u), outcome (g u) with
  | Ok u1, Ok u2 => exists u3, outcome (g u1) = Ok u3 /\ outcome (f u2) = Ok u3
  | Ok u1, Throw _ => exists e, outcome (g u1) = Throw e
  | Throw _, Ok u2 => exists e, outcome (f u2) = Throw e
  | Throw _, Throw _ => True
  end.

Definition independent (a b : step) : Prop :=
  match a, b with
  | OnCore n _, OnCore k _ => n <> k
  | OnSocketBasic s _, OnSocketBasic t _ => s <> t
  | OnSocketUncore s f, OnSocketUncore t g => s <> t \/ commuting_readings f g
  | OnSystem _, OnSystem _ => False
  | _, _ => True
  end.

(** The part of the samples that a step reads and writes. *)
Definition part (a : step) : Type :=
  match a with OnCore _ _ | OnSocketBasic _ _ => BasicCounterState | OnSocketUncore _ _ => UncoreCounterState | OnSystem _ => SystemCounterState end.

Definition get_part (a : step) (sa : samples) : option (part a) :=
  match a with
  | OnCore n _ => sa_cores sa !! n
  | OnSocketBasic s _ => basic <$> sa_sockets sa !! s
  | OnSocketUncore s _ => uncore <$> sa_sockets sa !! s
  | OnSystem _ => Some (sa_system sa)
  end.

Definition put_part (a : step) : part a -> samples -> samples :=
  match a with
  | OnCore n _ => fun x sa => Samples (sa_system sa) (sa_sockets sa) (<[n := x]> (sa_cores sa)) (sa_failed sa)
  | OnSocketBasic s _ => fun x sa => Samples (sa_system sa) (alter (fun y => Socket x (uncore y)) s (sa_sockets sa)) (sa_cores sa) (sa_failed sa)
  | OnSocketUncore s _ => fun x sa => Samples (sa_system sa) (alter (fun y => Socket (basic y) x) s (sa_sockets sa)) (sa_cores sa) (sa_failed sa)
  | OnSystem _ => fun x sa => Samples x (sa_sockets sa) (sa_cores sa) (sa_failed sa)
  end.

Definition run_part (a : step) : part a -> M (part a) :=
  match a with OnCore _ f | OnSocketBasic _ f => f | OnSocketUncore _ f => f | OnSystem f => f end.

Lemma insert_as_alter {X} (f : X -> X) (l : list X) i x : l !! i = Some x -> <[i := f x]> l = alter f i l.
Proof.
  intros Hl. apply list_eq. intros j. destruct (decide (j = i)) as [->|].
  - rewrite list_lookup_insert_eq by (by eapply lookup_lt_Some). by rewrite list_lookup_alter_eq, Hl.
  - by rewrite list_lookup_insert_ne, list_lookup_alter_ne.
Qed.

Lemma perform_part a sa : outcome (perform a sa) =
  match get_part a sa with
  | Some x => match outcome (run_part a x) with Ok x' => Ok (put_part a x' sa) | Throw e => Throw e end
  | None => Throw OutOfRange
  end.
Proof.
  destruct a as [n f|s f|s f|f]; cbn; [destruct (sa_cores sa !! n)|destruct (sa_sockets sa !! s) as [x|] eqn:E|destruct (sa_sockets sa !! s) as [x|] eqn:E|];
    rewrite ?outcome_update; try done.
  - cbn. destruct (outcome (f (basic x))) as [b|]; [|done]. by rewrite (insert_as_alter (fun y => Socket b (uncore y)) _ _ _ E).
  - cbn. destruct (outcome (f (uncore x))) as [u|]; [|done]. by rewrite (insert_as_alter (fun y => Socket (basic y) u) _ _ _ E).
Qed.

(** Two steps on different parts. *)
Record apart (a b : step) : Prop := Apart {
  apart_l : forall x sa, get_part b (put_part a x sa) = get_part b sa;
  apart_r : forall y sa, get_part a (put_part b y sa) = get_part a sa;
  apart_put : forall x y sa, put_part b y (put_part a x sa) = put_part a x (put_part b y sa)
}.

Lemma apart_commuting a b : apart a b -> commuting a b.
Proof.
  intros [H1 H2 H3] sa. rewrite !perform_part. destruct (get_part a sa) as [x|] eqn:Ex, (get_part b sa) as [y|] eqn:Ey; try done.
  - destruct (outcome (run_part a x)) as [x'|] eqn:Ex', (outcome (run_part b y)) as [y'|] eqn:Ey'; try done.
    + exists (put_part b y' (put_part a x' sa)). rewrite !perform_part, H1, H2, Ex, Ey, Ex', Ey'. by rewrite H3.
    + rewrite perform_part, H1, Ey, Ey'. eauto.
    + rewrite perform_part, H2, Ex, Ex'. eauto.
  - destruct (outcome (run_part a x)); [|done]. rewrite perform_part, H1, Ey. eauto.
  - destruct (outcome (run_part b y)); [|done]. rewrite perform_part, H2, Ex. eauto.
Qed.

Lemma alter_other {X Y} (f : X -> X) (g : X -> Y) i j (l : list X) : (i = j -> forall x, g (f x) = g x) -> g <$> alter f i l !! j = g <$> l !! j.
Proof.
  intros Hf. destruct (decide (i = j)) as [->|]; [|by rewrite list_lookup_alter_ne]. rewrite list_lookup_alter_eq.
  destruct (l !! j); [|done]. cbn. by rewrite Hf.
Qed.

Lemma alter_commute {X} (f g : X -> X) i j (l : list X) : (i = j -> forall x, f (g x) = g (f x)) -> alter f i (alter g j l) = alter g j (alter f i l).
Proof.
  intros Hf. destruct (decide (i = j)) as [->|]; [|by apply list_alter_alter_ne]. rewrite !list_alter_alter_eq.
  apply list_alter_ext; [|done]. intros x _. by apply Hf.
Qed.

Lemma independent_apart a b : independent a b -> (forall s f t g, a = OnSocketUncore s f -> b = OnSocketUncore t g -> s <> t) -> apart a b.
Proof.
  intros Hi Hu.
  assert (H : forall a b, independent a b -> (forall s f t g, a = OnSocketUncore s f -> b = OnSocketUncore t g -> s <> t) ->
    forall x sa, get_part b (put_part a x sa) = get_part b sa).
  { clear. intros a b Hi Hu x sa. destruct a as [n f|s f|s f|f], b as [k g|t g|t g|g]; cbn in *; try done.
    - by rewrite list_lookup_insert_ne.
    - apply (alter_other (fun y => Socket x (uncore y)) basic). by intros ->.
    - by apply (alter_other (fun y => Socket x (uncore y)) uncore).
    - by apply (alter_other (fun y => Socket (basic y) x) basic).
    - apply (alter_other (fun y => Socket (basic y) x) uncore). intros ->. by destruct (Hu t f t g). }
  constructor; [by apply H| |].
  - apply H.
    + destruct a, b; cbn in *; try done; try congruence. destruct Hi as [Hi|Hi]; [left; congruence|].
      left. intros ->. by apply (Hu socket f socket f0).
    + intros s f t g -> -> ->. by apply (Hu t g t f).
  - intros x y sa. destruct a as [n f|s f|s f|f], b as [k g|t g|t g|g]; cbn in *; try done; f_equal.
    + by apply list_insert_insert_ne.
    + apply alter_commute. by intros ->.
    + by apply alter_commute.
    + by apply alter_commute.
    + apply alter_commute. intros ->. by destruct (Hu s f s g).
Qed.

(** Two readings of the uncore counters of the same socket. *)
Lemma readings_commuting s f g : commuting_readings f g -> commuting (OnSocketUncore s f) (OnSocketUncore s g).
Proof.
  intros Hc sa. rewrite !perform_part. cbn [part get_part run_part]. destruct (sa_sockets sa !! s) as [x|] eqn:E; [|done].
  change (uncore <$> Some x) with (Some (uncore x)). cbn iota beta. specialize (Hc (uncore x)).
  assert (Hget : forall u, uncore <$> alter (fun y => Socket (basic y) u) s (sa_sockets sa) !! s = Some u) by (intros; by rewrite list_lookup_alter_eq, E).
  assert (Hput : forall u v, alter (fun y => Socket (basic y) u) s (alter (fun y => Socket (basic y) v) s (sa_sockets sa)) =
    alter (fun y => Socket (basic y) u) s (sa_sockets sa)).
  { intros. rewrite list_alter_alter_eq. by apply list_alter_ext. }
  assert (Hrun : forall (f' k : uncore_reading) u, outcome (perform (OnSocketUncore s f') (put_part (OnSocketUncore s k) u sa)) =
    match outcome (f' u) with Ok v => Ok (put_part (OnSocketUncore s g) v sa) | Throw e => Throw e end).
  { intros f' k u. rewrite perform_part. cbn [part get_part put_part run_part sa_sockets sa_system sa_cores sa_failed]. rewrite Hget.
    destruct (outcome (f' u)); [|done]. by rewrite Hput. }
  destruct (outcome (f (uncore x))) as [u1|] eqn:E1, (outcome (g (uncore x))) as [u2|] eqn:E2; try done.
  - destruct Hc as (u3 & H1 & H2). exists (put_part (OnSocketUncore s g) u3 sa).
    rewrite (Hrun g f u1), (Hrun f g u2), H1, H2. done.
  - destruct Hc as [e1 H1]. exists e1. by rewrite (Hrun g f u1), H1.
  - destruct Hc as [e2 H2]. exists e2. by rewrite (Hrun f g u2), H2.
Qed.

Lemma independent_commuting a b : independent a b -> commuting a b.
Proof.
  intros Hi. destruct a as [n f|s f|s f|f]; try (apply apart_commuting, independent_apart; [done|]; intros; congruence).
  destruct b as [k g|t g|t g|g]; try (apply apart_commuting, independent_apart; [done|]; intros; congruence).
  destruct (decide (s = t)) as [->|Hne].
  - destruct Hi as [Hi|Hi]; [done|]. by apply readings_commuting.
  - apply apart_commuting, independent_apart; [done|]. intros ? ? ? ? [= -> ->] [= -> ->]. done.
Qed.

Lemma commuting_readings_sym f g : commuting_readings f g -> commuting_readings g f.
Proof.
  intros H u. specialize (H u). destruct (outcome (f u)), (outcome (g u)); try done. destruct H as (u3 & H1 & H2). by exists u3.
Qed.

Lemma vec_add_comm a b l : vec_add (vec_add l a) b = vec_add (vec_add l b) a.
Proof.
  unfold vec_add. revert a b. induction l as [|x l IH]; intros [|y a] [|z b]; cbn; try done. rewrite IH. f_equal. wrap_ring 64.
Qed.

Lemma add_cstates_comm a b u : add_cstates a (add_cstates b u) = add_cstates b (add_cstates a u).
Proof. destruct u. cbn. f_equal. apply vec_add_comm. Qed.

Lemma outcome_cstates c handle u : outcome (readAndAggregatePackageCStateResidencies c handle u) =
  match outcome (read_package_cstates c handle) with Ok l => Ok (add_cstates l u) | Throw e => Throw e end.
Proof. apply outcome_update. Qed.

Lemma cstates_commute c handle handle' :
  commuting_readings (readAndAggregatePackageCStateResidencies c handle) (readAndAggregatePackageCStateResidencies c handle').
Proof.
  intros u. pose proof (outcome_cstates c handle) as H1. pose proof (outcome_cstates c handle') as H2. rewrite (H1 u), (H2 u).
  destruct (outcome (read_package_cstates c handle)) as [l|], (outcome (read_package_cstates c handle')) as [l'|]; try done.
  - exists (add_cstates l' (add_cstates l u)). rewrite H1, H2. by rewrite add_cstates_comm.
  - rewrite H2. eauto.
  - rewrite H1. eauto.
Qed.

Lemma framed_commutes c f handle : frames f -> commuting_readings f (readAndAggregatePackageCStateResidencies c handle).
Proof.
  intros Hf u. pose proof (outcome_cstates c handle) as H. rewrite (H u).
  assert (Hfr : forall l, outcome (f (add_cstates l u)) = match outcome (f u) with Ok u' => Ok (add_cstates l u') | Throw e => Throw e end).
  { intros l. unfold outcome at 1. rewrite (agree_at (Hf l u) h0). apply outcome_update. }
  destruct (outcome (f u)) as [u1|e1] eqn:E1, (outcome (read_package_cstates c handle)) as [l|]; try done.
  - exists (add_cstates l u1). by rewrite H, Hfr.
  - rewrite H. eauto.
  - rewrite Hfr. eauto.
Qed.

End Pure.

(** * The threads of [getAllCounterStates] *)

Section Threads.
Context {machine : Machine} (cfg : port -> option Z) `{Hstill : !Still machine cfg} (values : gmap nat Z) (h0 : hw).
Context (Hh0 : settled cfg values h0) (c : sampler).
Context (Hservers : Forall plain_server (serverUncorePMUs (sm_uncore c))).

Let n : nat := length (sm_topology c).

(** The steps of thread [k]: the caller is thread 0, core [i] has thread [S i]. *)
Inductive belongs : nat -> nat * step -> Prop :=
  | belongs_caller f : belongs 0 (0%nat, OnSystem f)
  | belongs_core i f : (i < n)%nat -> belongs (S i) (S i, OnCore i f)
  | belongs_cstates i s h : (i < n)%nat -> belongs (S i) (S i, OnSocketUncore s (readAndAggregatePackageCStateResidencies c h))
  | belongs_uncore s f : frames f -> belongs (S (task_core c s)) (S (n + s), OnSocketUncore s f)
  | belongs_basic s f : belongs (S (task_core c s)) (S (n + s), OnSocketBasic s f).

Lemma belongs_independent j k ta tb : belongs j ta -> belongs k tb -> j <> k -> ta.1 <> tb.1 /\ independent h0 ta.2 tb.2.
Proof.
  intros H1 H2 Hjk. destruct H1, H2; cbn; (split; [try congruence; try lia|]); try done; try congruence; try lia;
    first [intros Es; apply Hjk; do 2 f_equal; lia | left; congruence | right; apply cstates_commute | right; by apply framed_commutes
          | right; apply commuting_readings_sym; by apply framed_commutes].
Qed.

(** The cores whose top-down registers a sample clears. *)
Definition cleared (core : nat) : bool := isCoreOnline (sm_topology c) core && clears_slots (sm_context c (Z.of_nat core)).
Definition cleared_cores : list (list Z) := [] :: map (fun core => if cleared core then [Z.of_nat core] else []) (seq 0 n).

Lemma orderly_all_good l : Forall (fun ta => good_step cfg values ta.2) l -> orderly cfg values h0 l [].
Proof. induction 1; by constructor. Qed.

Lemma orderly_app l1 l2 cs : orderly cfg values h0 l1 cs -> Forall (fun ta => good_step cfg values ta.2) l2 -> orderly cfg values h0 (l1 ++ l2) cs.
Proof. intros H1 H2. induction H1; cbn [app]; [by apply orderly_all_good|by constructor..]. Qed.

Lemma caller_good : Forall (fun ta => good_step cfg values ta.2) (caller_steps c).
Proof.
  unfold caller_steps. repeat constructor; cbn [snd good_step]; intros y; [by apply steady_qpi|apply (steady_values cfg values c y)..].
Qed.

Lemma socket_task_good s : Forall (fun ta => good_step cfg values ta.2) (socket_task c s).
Proof.
  unfold socket_task. repeat constructor; cbn [snd good_step]; intros u;
    [by apply steady_uncore|by apply steady_energy|by apply steady_headroom|by apply steady_read_raw_MSRs].
Qed.

Lemma core_task_orderly flag i : isCoreOnline (sm_topology c) i = true ->
  orderly cfg values h0 (core_task c flag i) (if cleared i then [Z.of_nat i] else []).
Proof.
  intros Ho. unfold core_task, cleared. rewrite Ho, map_app. cbn [andb map app].
  assert (Hrest : orderly cfg values h0 (map (pair (S i)) ((if flag then [OnSocketUncore (core_socket c i)
    (readAndAggregatePackageCStateResidencies c (Some (Z.of_nat i)))] else []) ++ [OnCore i (read_raw_MSRs (Some (Z.of_nat i)) (sm_threadMSRs c))])) []).
  { apply orderly_all_good. rewrite map_app. apply Forall_app. split; [destruct flag|]; repeat constructor; cbn [snd good_step]; intros u;
      [by apply steady_cstates|by apply steady_read_raw_MSRs..]. }
  destruct (clears_slots _) eqn:Es.
  - apply orderly_slots; [|exact Hrest]. intros b. by apply steady_at_read_core.
  - apply orderly_good; [|exact Hrest]. intros b. by apply steady_read_core.
Qed.

Lemma threads_orderly flag : Forall2 (orderly cfg values h0) (threads c flag) cleared_cores.
Proof.
  constructor; [apply orderly_all_good; destruct flag; [apply caller_good|constructor]|].
  apply Forall2_fmap, Forall_Forall2_diag, Forall_forall. intros i _. apply orderly_app.
  - destruct (isCoreOnline _ i) eqn:Ho; [by apply core_task_orderly|]. unfold cleared. rewrite Ho. constructor.
  - destruct flag; [|constructor]. apply Forall_concat, Forall_map, Forall_true. apply socket_task_good.
Qed.

Lemma cleared_cores_nodup : NoDup (concat cleared_cores).
Proof.
  cbn [concat cleared_cores app].
  assert (E : forall l, concat (map (fun core => if cleared core then [Z.of_nat core] else []) l) = map Z.of_nat (List.filter cleared l)).
  { induction l as [|x l IH]; [done|]. cbn. rewrite IH. by destruct (cleared x). }
  rewrite E. apply NoDup_fmap; [apply _|]. apply NoDup_ListNoDup, List.NoDup_filter, NoDup_ListNoDup, NoDup_seq.
Qed.

Lemma cleared_cores_clear core : core ∈ concat cleared_cores -> clears_slots (sm_context c core) = true.
Proof.
  cbn [concat cleared_cores app]. intros (l & Hl & Hc)%list_elem_of_In%in_concat. apply in_map_iff in Hl as (i & <- & _).
  destruct (cleared i) eqn:E; [|done]. destruct Hc as [<-|[]]. by apply andb_prop in E as [_ E].
Qed.

Lemma threads_belong flag k r ta : threads c flag !! k = Some r -> ta ∈ r -> belongs k ta.
Proof.
  intros Hr Hta. unfold threads in Hr. rewrite lookup_cons in Hr. destruct k as [|i].
  - injection Hr as <-. destruct flag; [|by apply elem_of_nil in Hta]. unfold caller_steps in Hta. cbn [map] in Hta.
    revert Hta. rewrite !elem_of_cons, elem_of_nil. intros [->|[->|[->|[->|[->|[]]]]]]; constructor.
  - rewrite list_lookup_fmap in Hr. apply fmap_Some in Hr as (i' & Hi & ->). apply lookup_seq in Hi as [-> Hi]. cbn [plus] in *.
    apply elem_of_app in Hta as [Hta|Hta].
    + destruct (isCoreOnline _ i); [|by apply elem_of_nil in Hta]. unfold core_task in Hta. apply list_elem_of_fmap in Hta as (a & -> & Ha).
      rewrite !elem_of_app, !list_elem_of_singleton in Ha. destruct Ha as [->|[Ha| ->]]; [by constructor| |by constructor].
      destruct flag; [|by apply elem_of_nil in Ha]. apply list_elem_of_singleton in Ha as ->. by constructor.
    + destruct flag; [|by apply elem_of_nil in Hta]. apply list_elem_of_In, in_concat in Hta as (l & Hl & Hta).
      apply list_elem_of_In, list_elem_of_fmap in Hl as (s & -> & Hs). apply list_elem_of_filter in Hs as [<- _]. unfold socket_task in Hta.
      apply list_elem_of_In, list_elem_of_fmap in Hta as (a & -> & Ha). revert Ha. rewrite !elem_of_cons, elem_of_nil.
      intros [->|[->|[->|[->|[]]]]]; constructor; [apply frames_uncore|apply frames_energy].
Qed.

End Threads.

(** The threads one after the other are an interleaving of them. *)
Lemma interleaving_concat {A} (ts : list (list A)) : interleaving ts (concat ts).
Proof.
  remember (concat ts) as l eqn:El. revert ts El. induction l as [|a l IH]; intros ts El.
  - constructor. induction ts as [|r ts IHts]; constructor; cbn in El; symmetry in El; apply app_eq_nil in El as [-> El]; auto.
  - assert (Hfirst : exists es r rest, ts = es ++ (a :: r) :: rest /\ concat es = [] /\ l = r ++ concat rest).
    { clear IH. induction ts as [|r ts IHts]; [done|]. destruct r as [|b r]; cbn in El.
      - destruct (IHts El) as (es & r & rest & -> & H1 & H2). by exists ([] :: es), r, rest.
      - injection El as <- ->. by exists [], r, ts. }
    destruct Hfirst as (es & r & rest & -> & H1 & ->).
    apply (interleaving_step _ (length es) a r).
    + by apply list_lookup_middle.
    + apply IH. rewrite insert_app_r_alt, Nat.sub_diag by done. cbn. by rewrite concat_app, H1.
Qed.

(** The steps when the threads take turns as [picks] says. *)
Fixpoint run_schedule {A} (picks : list nat) (ts : list (list A)) : list A :=
  match picks with
  | [] => concat ts
  | i :: picks => match ts !! i with Some (a :: r) => a :: run_schedule picks (<[i := r]> ts) | _ => run_schedule picks ts end
  end.

Lemma run_schedule_interleaving {A} picks (ts : list (list A)) : interleaving ts (run_schedule picks ts).
Proof.
  revert ts. induction picks as [|i picks IH]; intros ts; [apply interleaving_concat|]. cbn.
  destruct (ts !! i) as [[|a r]|] eqn:E; [done|by eapply interleaving_step|done].
Qed.

(** Two sockets of two cores of a Nehalem-EP, with an energy counter for each. *)
Definition example_te (i : nat) : TopologyEntry :=
  let k := Z.of_nat i in Entry k 0 (k mod 2) 0 0 0 0 (k / 2) (k mod 2) (k / 2) (-1) (-1).
(** A core counted by Linux perf, with the top-down events. *)
Definition perf_example_context : core_context :=
  CoreContext (Widths true 48 48 48 48) 0 4 []
    (PerfContext (map (fun i => 20 + Z.of_nat i) (seq 0 20)) [] 3 4 true
       (list_to_map (zip (seq 11 9) (map (fun i => 7 + Z.of_nat i) (seq 0 9)))))
    true true false false false None 1 None None true 2000000000 true [0; 0; 0; 0x3FC; 0; 0; 0x3FD; 0; 0; 0; 0].
Definition example_sampler : sampler :=
  Sampler SKX 5 (PcmUncore [example_server; example_server] [[]; []] [[]; []] [[]; []] [] []) 2 (map example_te (seq 0 4)) [0; 2]
    (fun _ => perf_example_context) [] [] example_raw (fun _ _ => []) true [] [] None (EnergyCounters [0; 1]%nat [] [] None)
    [0; 0; 0; 0x3F8; 0; 0; 0x3F9; 0x3FA; 0; 0; 0] 2 (Widths false 48 48 48 48).
Definition example_registers (p : port) : option Z :=
  match p with
  | MsrPort core n => Some (1000 * core + n)
  | PciPort32 handle offset | PciPort64 handle offset => Some (100 * handle + offset)
  | PerfRead fd n => Some (Z.of_nat n - 1 + 2 ^ 64 * fd)
  | _ => None
  end.
Definition example_extender (core : Z) : extender := 
  Extender (CounterWidthExtender.make 32 (1000 * core)) (MsrHandleCounter (Some core) 0x611 (2 ^ 32 - 1)).
Definition example_hw : hw := HW [] {[0%nat := example_extender 0; 1%nat := example_extender 2]} ∅.
Definition example_values : gmap nat Z :=
  {[0%nat := next_value example_registers (example_extender 0);
    1%nat := next_value example_registers (example_extender 2)]}.

Section Schedules.
Context {machine : Machine} (cfg : port -> option Z) `{Hstill : !Still machine cfg} (values : gmap nat Z) (h0 : hw).
Context (Hh0 : settled cfg values h0) (c : sampler).
Context (Hservers : Forall plain_server (serverUncorePMUs (sm_uncore c))).

Lemma concat_pull {X} (ls : list (list X)) i x l : ls !! i = Some (x :: l) -> concat ls ≡ₚ x :: concat (<[i := l]> ls).
Proof.
  revert i. induction ls as [|l' ls IH]; intros [|i] H; try done; cbn in *; [by injection H as ->|]. rewrite (IH i H). by rewrite Permutation_middle.
Qed.

Lemma interleaving_orderly ts l css : interleaving ts l -> Forall2 (orderly cfg values h0) ts css ->
  exists cs, orderly cfg values h0 l cs /\ cs ≡ₚ concat css.
Proof.
  intros Hl. revert css. induction Hl as [ts Hts|ts i a r l Hi Hl IH]; intros css Hcss.
  - exists []. split; [constructor|]. clear -Hts Hcss. induction Hcss as [|t cs ts css H _ IHc]; [done|].
    apply Forall_cons in Hts as [<- Hts]. inversion H; subst. by apply IHc.
  - destruct (Forall2_lookup_l _ _ _ _ _ Hcss Hi) as (csi & Hc & Ho). inversion Ho as [|? ? ? Ha Hr|core ? ? cs' Ha Hr]; subst.
    + destruct (IH css) as (cs & H1 & H2).
      { rewrite <- (list_insert_id css i csi Hc). by apply Forall2_insert. }
      exists cs. split; [by apply orderly_good|done].
    + destruct (IH (<[i := cs']> css)) as (cs & H1 & H2); [by apply Forall2_insert|].
      exists (core :: cs). split; [by apply orderly_slots|]. by rewrite (concat_pull css i core cs' Hc), H2.
Qed.

Lemma schedules_agree flag l1 l2 sa : interleaving (threads c flag) l1 -> interleaving (threads c flag) l2 ->
  foldl (pure_step h0) sa l1 = foldl (pure_step h0) sa l2.
Proof.
  intros H1 H2. apply (interleavings_agree (pure_step h0) (threads c flag)); [|done|done].
  intros i j ri rj [t a] [t' b] Hij Hi Hj Ha Hb s.
  pose proof (threads_belong c flag i ri _ Hi Ha) as Hba. pose proof (threads_belong c flag j rj _ Hj Hb) as Hbb.
  destruct (belongs_independent h0 c i j _ _ Hba Hbb Hij) as [Hne Hind].
  apply (pure_steps_commute cfg values h0 Hh0); [done|]. by apply independent_commuting.
Qed.

(** Every interleaving does what the threads do one after the other. *)
Lemma steps_of_interleaving flag l h : settled cfg values h ->
  (forall core, clears_slots (sm_context c core) = true -> slots h !! core = slots h0 !! core) ->
  interleaving (threads c flag) l -> exists h',
  run_steps l (samples_init c) h = (h', Ok (foldl (pure_step h0) (samples_init c) (concat (threads c flag)))) /\ settled cfg values h'.
Proof.
  intros Hh Hs Hl. destruct (interleaving_orderly _ l _ Hl (threads_orderly cfg values h0 c Hservers flag)) as (cs & Ho & Hp).
  destruct (run_steps_pure cfg values h0 Hh0 l cs (samples_init c) h Ho) as (h' & E & H').
  - rewrite Hp. apply cleared_cores_nodup.
  - done.
  - intros core Hc. apply Hs. rewrite Hp in Hc. by apply cleared_cores_clear.
  - exists h'. split; [|done]. by rewrite E, (schedules_agree flag l (concat (threads c flag))) by (done || apply interleaving_concat).
Qed.

End Schedules.

(** C12. The sample that [getAllCounterStates] takes does not depend on how the threads of the
    core task queues and the caller interleave, nor on what happened before, when the
    registers hold still (the control registers of server units being registers of the device)
    and the top-down slots that were accumulated for the cores are the same: two interleavings
    of the same tasks give the same states of the cores, the sockets and the system, or end
    both with an exception. *)
Theorem sample_independent_of_schedule {machine : Machine} cfg `{!Still machine cfg} values c flag l1 l2 h1 h2 :
  Forall plain_server (serverUncorePMUs (sm_uncore c)) ->
  settled cfg values h1 -> settled cfg values h2 ->
  (forall core, clears_slots (sm_context c core) = true -> slots h2 !! core = slots h1 !! core) ->
  interleaving (threads c flag) l1 -> interleaving (threads c flag) l2 ->
  (getAllCounterStates c l1 h1).2 = (getAllCounterStates c l2 h2).2.
Proof.
  intros Hs H1 H2 Hslots Hl1 Hl2.
  destruct (steps_of_interleaving cfg values h1 H1 c Hs flag l1 h1 H1 (fun _ _ => eq_refl) Hl1) as (k1 & E1 & K1).
  destruct (steps_of_interleaving cfg values h1 H1 c Hs flag l2 h2 H2 Hslots Hl2) as (k2 & E2 & K2).
  unfold getAllCounterStates, mbind, M_bind. rewrite E1, E2.
  destruct (decide (0%nat ∈ _)); [done|]. destruct (aggregate c _) as [y ss].
  destruct (steady_outcome cfg values h1 H1 _ k1 (steady_system_energy cfg values c y) K1) as (? & -> & _).
  destruct (steady_outcome cfg values h1 H1 _ k2 (steady_system_energy cfg values c y) K2) as (? & -> & _).
  by destruct (outcome h1 _).
Qed.

Lemma example_settled : settled example_registers example_values example_hw.
Proof.
  intros [|[|id]]; [by vm_compute|by vm_compute|]. unfold example_hw, example_values. cbn [extenders].
  rewrite !lookup_insert_ne, !lookup_singleton_ne by lia. done.
Qed.

Lemma sample_independent_of_schedule_witness :
  let machine := static_machine example_registers in
  let round_robin := flat_map (fun _ => [4; 3; 2; 1; 0]%nat) (seq 0 8) in
  (getAllCounterStates example_sampler (run_schedule round_robin (threads example_sampler true)) example_hw).2 =
  (getAllCounterStates example_sampler (concat (threads example_sampler true)) example_hw).2 /\
  run_schedule round_robin (map (map fst) (threads example_sampler true)) <> concat (map (map fst) (threads example_sampler true)).
Proof.
  split; [|by vm_compute].
  apply (@sample_independent_of_schedule (static_machine example_registers) example_registers _ example_values example_sampler true).
  - repeat constructor; by intros id [=].
  - apply example_settled.
  - apply example_settled.
  - done.
  - apply run_schedule_interleaving.
  - apply interleaving_concat.
Defined.
