(* ===== verification/ServerState.v ===== *)
(** [getServerUncoreCounterState] of [src/src/cpucounters.cpp], which reads every counter of
    the units of a server socket into arrays, and the functions of [src/src/cpucounters.h]
    that take the difference of two such states.

    The arrays have a fixed length. An index past the end, which only an assertion excludes,
    is an [OutOfRange] error. *)

From S2P Require Import Prelude WidthExtender CpuModels Capabilities Registers UncorePMU ServerUncore CounterState CorePMU PcmUncore Discovery RawProgram Bandwidth Sampling SamplingProofs.
Local Open Scope Z_scope.

(** * The state *)

Definition maxControllers : nat := 32.
Definition maxChannels : nat := 32.
Definition maxXPILinks : nat := 6.
Definition maxIIOStacks : nat := 16.
Definition maxCXLPorts : nat := 16.

(** [FreeRunningCounterID] *)
Definition ImcReads : Z := 0.
Definition ImcWrites : Z := 1.
Definition PMMReads : Z := 2.
Definition PMMWrites : Z := 3.

Record ServerUncoreCounterState := ServerState {
  ss_uncore : UncoreCounterState;
  ss_Counters : list (gmap Z (list (list Z)));      (** die, kind of unit, unit, counter *)
  xPICounter : list (list Z);
  M3UPICounter : list (list Z);
  IIOCounter : list (list Z);
  IRPCounter : list (list Z);
  CXLCMCounter : list (list Z);
  CXLDPCounter : list (list Z);
  DRAMClocks : list Z;
  HBMClocks : list Z;
  MCCounter : list (list Z);
  M2MCounter : list (list Z);
  HACounter : list (list Z);
  EDCCounter : list (list Z);
  freeRunningCounter : gmap Z Z;
  ss_PackageThermalHeadroom : Z;
  ss_InvariantTSC : Z
}.

Definition pmu_number (id : UncorePMUIDs) : Z :=
  match id with
  | CBO_PMU_ID => 0 | MDF_PMU_ID => 1 | PCU_PMU_ID => 2 | UBOX_PMU_ID => 3 | PCIE_GEN5x16_PMU_ID => 4 | PCIE_GEN5x8_PMU_ID => 5
  | INVALID_PMU_ID => 6
  end.

Definition no_counts : list Z := replicate maxCounters 0.
Definition empty_unit : UncorePMU := MkUncorePMU 0 None [] [] None None None None.

(** An array of [max] elements after the first ones have been assigned. *)
Definition fill_array {A} (max : nat) (zero : A) (l : list A) : list A := l ++ replicate (max - length l) zero.
Definition in_array {machine : Machine} (i max : nat) : M unit := if (i <? max)%nat then mret tt else throw OutOfRange.

(** * Reading *)

Section Code.
Context {machine : Machine} (c : sampler).

Definition read_counters (get : nat -> M Z) : M (list Z) := mapM_ (seq 0 maxCounters) get.

(** The link layer and M3UPI counters of the links. *)
Definition read_link_ports (s : ServerUncorePMUs) : M (list (list Z * list Z)) :=
  mapM_ (seq 0 (length (xpiPMUs s))) (fun port =>
    in_array port maxXPILinks ;;
    xpi ← read_counters (getQPILLCounter s port);
    m3upi ← read_counters (getM3UPICounter s port);
    mret (xpi, m3upi)).

(** The clocks and the counters of the channels of one kind. *)
Definition read_channels (n : nat) (clocks : nat -> M Z) (counter : nat -> nat -> M Z) : M (list (Z * list Z)) :=
  mapM_ (seq 0 n) (fun channel =>
    in_array channel maxChannels ;;
    clk ← clocks channel;
    l ← read_counters (counter channel);
    mret (clk, l)).

Definition read_controllers (s : ServerUncorePMUs) : M (list (list Z * list Z)) :=
  mapM_ (seq 0 (length (num_imc_channels s))) (fun controller =>
    in_array controller maxControllers ;;
    m2m ← read_counters (getM2MCounter s controller);
    ha ← read_counters (getHACounter s controller);
    mret (m2m, ha)).

(** The counters of a unit that has [size] of them: in [result.IRPCounter] those without a
    register are left out. *)
Definition read_unit_counters (skip_null : bool) (pmu : UncorePMU) : M (list Z) :=
  l ← mapM_ (seq 0 (Nat.min maxCounters (size pmu))) (fun i =>
        match counterValue pmu !! i with
        | Some None => if skip_null then mret 0 else throw NullDereference
        | _ => counter_of i pmu
        end);
  mret (fill_array maxCounters 0 l).

(** The stacks of a socket from number [stack] on. The map is indexed with [operator []],
    which enters an empty unit for a number that it does not have. *)
Fixpoint read_stacks (skip_null : bool) (n stack : nat) (units : list (Z * UncorePMU)) : M (list (list Z) * list (Z * UncorePMU)) :=
  match n with
  | O => mret ([], units)
  | S n =>
      if (stack <? length units)%nat then
        match list_find (fun e => e.1 = Z.of_nat stack) units with
        | Some (_, (_, pmu)) =>
            row ← read_unit_counters skip_null pmu;
            rest ← read_stacks skip_null n (S stack) units;
            mret (row :: rest.1, rest.2)
        | None =>
            rest ← read_stacks skip_null n (S stack) (units ++ [(Z.of_nat stack, empty_unit)]);
            mret (no_counts :: rest.1, rest.2)
        end
      else mret ([], units)
  end.

Definition read_socket_stacks (skip_null : bool) (socket : nat) (sockets : list (list (Z * UncorePMU)))
  : M (list (list Z) * list (list (Z * UncorePMU))) :=
  match sockets !! socket with
  | None => mret ([], sockets)
  | Some units =>
      r ← read_stacks skip_null maxIIOStacks 0 units;
      mret (r.1, <[socket := r.2]> sockets)
  end.

(** [readUncoreCounterValues]: a unit that is not there keeps its zeros. A unit has at most
    [maxCounters] counters. *)
Definition read_unit_values (p : option UncorePMU) : M (list Z) :=
  match p with
  | None => mret no_counts
  | Some pmu =>
      l ← mapM_ (seq 0 (size pmu)) (fun i => in_array i maxCounters ;; counter_of i pmu);
      mret (fill_array maxCounters 0 l)
  end.

Definition read_die (d : die_pmus) : M (gmap Z (list (list Z))) :=
  rows ← mapM_ d (fun e => l ← mapM_ e.2 read_unit_values; mret (pmu_number e.1, l));
  mret (list_to_map rows).

Definition readUncoreCounterValues (socket : nat) : M (list (gmap Z (list (list Z)))) :=
  match uncorePMUs (sm_uncore c) !! socket with
  | Some dies => mapM_ dies read_die
  | None => mret []
  end.

(** The free-running counters of the memory controllers. *)
Definition read_free_running (socket : nat) : M (gmap Z Z) :=
  match sm_serverBW c !! socket with
  | None => mret ∅
  | Some bars =>
      reads ← ServerBW_getImcReads bars;
      writes ← ServerBW_getImcWrites bars;
      pmm_reads ← ServerBW_getPMMReads bars;
      pmm_writes ← ServerBW_getPMMWrites bars;
      mret (<[PMMWrites := pmm_writes]> (<[PMMReads := pmm_reads]> (<[ImcWrites := writes]> {[ImcReads := reads]})))
  end.

(** What is read of the units of a server while they are frozen. *)
Record server_counts := ServerCounts {
  sc_ports : list (list Z * list Z);
  sc_imc : list (Z * list Z);
  sc_edc : list (Z * list Z);
  sc_controllers : list (list Z * list Z)
}.

Definition read_server_counts (s : ServerUncorePMUs) : M (server_counts * ServerUncorePMUs) :=
  s ← freezeCounters (sm_model c) s;
  ports ← read_link_ports s;
  imc ← read_channels (length (imcPMUs s)) (getDRAMClocks s) (getMCCounter s);
  edc ← read_channels (length (edcPMUs s)) (getHBMClocks s) (getEDCCounter s);
  controllers ← read_controllers s;
  s ← unfreezeCounters (sm_model c) s;
  mret (ServerCounts ports imc edc controllers, s).

Definition read_server (socket : nat) (st : pcm_uncore) : M (server_counts * pcm_uncore) :=
  match serverUncorePMUs st with
  | [] => mret (ServerCounts [] [] [] [], st)
  | l =>
      match l !! socket with
      | None => throw OutOfRange
      | Some s =>
          r ← read_server_counts s;
          mret (r.1, set_servers (<[socket := r.2]> l) st)
      end
  end.

(** What is read through the MSRs of the socket. *)
Record msr_counts := MsrCounts {
  mc_values : list (gmap Z (list (list Z)));
  mc_iio : list (list Z);
  mc_irp : list (list Z);
  mc_clocks : Z;
  mc_cxlcm : list (list Z);
  mc_cxldp : list (list Z);
  mc_headroom : Z;
  mc_tsc : Z;
  mc_cstates : list Z
}.

Definition no_msr_counts : msr_counts := MsrCounts [] [] [] 0 [] [] 0 0 [].

(** [min(numCXLPorts, 16)] ports. *)
Definition read_cxl_ports (socket : nat) (st : pcm_uncore) : M (list (list Z * list Z)) :=
  mapM_ (take maxCXLPorts (default [] (cxlPMUs st !! socket))) (fun p =>
    cm ← read_unit_counters false p.1;
    dp ← read_unit_counters false p.2;
    mret (cm, dp)).

Definition read_msr_counts (socket : nat) (st : pcm_uncore) : M (msr_counts * pcm_uncore) :=
  match sm_refCores c !! socket with
  | None => throw OutOfRange
  | Some refCore =>
      values ← readUncoreCounterValues socket;
      iio ← read_socket_stacks false socket (iioPMUs st);
      irp ← read_socket_stacks true socket (irpPMUs st);
      clocks ← getUncoreClocks socket st;
      cxl ← read_cxl_ports socket st;
      therm ← msr_read (Some refCore) MSR_PACKAGE_THERM_STATUS;
      tsc ← getInvariantTSC_Fast (sm_context c refCore) refCore;
      cstates ← read_package_cstates c (Some refCore);
      mret (MsrCounts values iio.1 irp.1 clocks (map fst cxl) (map snd cxl) (extractThermalHeadroom therm) tsc cstates,
            set_irp irp.2 (set_iio iio.2 st))
  end.

Definition getServerUncoreCounterState (has_MSR : bool) (socket : nat) : M (ServerUncoreCounterState * pcm_uncore) :=
  let st := sm_uncore c in
  free ← read_free_running socket;
  server ← read_server socket st;
  let '(counts, st) := server in
  msrs ← (if has_MSR then read_msr_counts socket st else mret (no_msr_counts, st));
  let '(k, st) := msrs in
  u ← readAndAggregateEnergyCounters c socket (if has_MSR then add_cstates (mc_cstates k) (add_UncClocks (mc_clocks k) UncoreCounterState_init)
                                               else UncoreCounterState_init);
  let rows max l := fill_array max no_counts l in
  mret (ServerState u (mc_values k)
          (rows maxXPILinks (map fst (sc_ports counts))) (rows maxXPILinks (map snd (sc_ports counts)))
          (rows maxIIOStacks (mc_iio k)) (rows maxIIOStacks (mc_irp k))
          (rows maxCXLPorts (mc_cxlcm k)) (rows maxCXLPorts (mc_cxldp k))
          (fill_array maxChannels 0 (map fst (sc_imc counts))) (fill_array maxChannels 0 (map fst (sc_edc counts)))
          (rows maxChannels (map snd (sc_imc counts)))
          (rows maxControllers (map fst (sc_controllers counts))) (rows maxControllers (map snd (sc_controllers counts)))
          (rows maxChannels (map snd (sc_edc counts)))
          free (mc_headroom k) (mc_tsc k), st).

End Code.

(** * Differences *)

(** [after.array[i][j] - before.array[i][j]] *)
Definition array_difference (array : ServerUncoreCounterState -> list (list Z)) (i j : nat) (before after : ServerUncoreCounterState) : Z :=
  u64 (nth j (nth i (array after) []) 0 - nth j (nth i (array before) []) 0).

Definition ss_getXPICounter (port counter : nat) := array_difference xPICounter port counter.
Definition ss_getM3UPICounter (port counter : nat) := array_difference M3UPICounter port counter.
Definition ss_getIIOCounter (stack counter : nat) := array_difference IIOCounter stack counter.
Definition ss_getIRPCounter (stack counter : nat) := array_difference IRPCounter stack counter.
Definition ss_getCXLCMCounter (port counter : nat) := array_difference CXLCMCounter port counter.
Definition ss_getCXLDPCounter (port counter : nat) := array_difference CXLDPCounter port counter.
Definition ss_getMCCounter (channel counter : nat) := array_difference MCCounter channel counter.
Definition ss_getM2MCounter (controller counter : nat) := array_difference M2MCounter controller counter.
Definition ss_getHACounter (controller counter : nat) := array_difference HACounter controller counter.
Definition ss_getEDCCounter (hbm : bool) (channel counter : nat) (before after : ServerUncoreCounterState) : Z :=
  if hbm then array_difference EDCCounter channel counter before after else 0.

Definition ss_getDRAMClocks (cpu_family_model : Z) (channel : nat) (before after : ServerUncoreCounterState) : Z :=
  getDRAMClocks_delta cpu_family_model (nth channel (DRAMClocks before) 0) (nth channel (DRAMClocks after) 0).
Definition ss_getHBMClocks (channel : nat) (before after : ServerUncoreCounterState) : Z :=
  u64 (nth channel (HBMClocks after) 0 - nth channel (HBMClocks before) 0).

Definition ss_getPCUClocks (unit : nat) (before after : ServerUncoreCounterState) : Z :=
  getUncoreCounter (pmu_number PCU_PMU_ID) unit 0 (ss_Counters before) (ss_Counters after).

Definition ss_getQPIClocks (port : nat) := ss_getXPICounter port xPI_CLOCKTICKS.
Definition ss_getQPIL0pTxCycles (port : nat) := ss_getXPICounter port xPI_TxL0P_POWER_CYCLES.
Definition ss_getQPIL1Cycles (port : nat) := ss_getXPICounter port xPI_L1_POWER_CYCLES.

(** * What a reading records *)

Section Recorded.
Context {machine : Machine} (cfg : port -> option Z) `{Hstill : !Still machine cfg} (values : gmap nat Z).

(** The value that a register answers. *)
Definition register_value (r : HWRegister) : option Z :=
  match r with
  | PCICFGRegister64 h o => Some (default 0 (cfg (PciPort64 h o)))
  | PCICFGRegister32 h o => Some (default 0 (cfg (PciPort32 h o)))
  | MMIORegister64 h o => Some (default 0 (cfg (MmioPort64 h o)))
  | MMIORegister32 h o => Some (default 0 (cfg (MmioPort32 h o)))
  | MSRRegister (Some core) n => Some (default 0 (cfg (MsrPort core n)))
  | MSRRegister None _ => Some 0
  | CounterWidthExtenderRegister id => values !! id
  end.

Definition pointer_value (p : HWRegisterPtr) : option Z := r ← p; register_value r.
Definition unit_value (u : UncorePMU) (counter : nat) : option Z := p ← counterValue u !! counter; pointer_value p.

(** Computations that return, whatever happened before, the same value. *)
Definition gives {A} (P : A -> Prop) (m : M A) : Prop :=
  exists a, P a /\ forall h, settled cfg values h -> exists h', m h = (h', Ok a) /\ settled cfg values h'.

Lemma gives_ret {A} (P : A -> Prop) a : P a -> gives P (mret a).
Proof. intros Ha. exists a. split; [done|]. intros h Hh. by exists h. Qed.

Lemma gives_bind {A B} (P : A -> Prop) (Q : B -> Prop) (m : M A) (f : A -> M B) :
  gives P m -> (forall a, P a -> gives Q (f a)) -> gives Q (m ≫= f).
Proof.
  intros (a & Ha & Hm) Hf. destruct (Hf a Ha) as (b & Hb & Hfb). exists b. split; [done|]. intros h Hh.
  destruct (Hm h Hh) as (h1 & E & H1). unfold mbind, M_bind. rewrite E. auto.
Qed.

Lemma gives_weaken {A} (P Q : A -> Prop) m : gives P m -> (forall a, P a -> Q a) -> gives Q m.
Proof. intros (a & Ha & Hm) H. exists a. auto. Qed.

Lemma gives_any {A} (P : A -> Prop) m : gives P m -> gives (fun _ => True) m.
Proof. intros H. by eapply gives_weaken. Qed.

Lemma gives_mapM_ {A B} (P : A -> B -> Prop) (f : A -> M B) l : (forall a, a ∈ l -> gives (P a) (f a)) ->
  gives (Forall2 P l) (mapM_ l f).
Proof.
  induction l as [|a l IH]; intros Hf; cbn [mapM_]; [by apply gives_ret|].
  eapply gives_bind; [apply Hf; left|]. intros b Hb. eapply gives_bind; [apply IH; intros; apply Hf; by right|].
  intros bs Hbs. apply gives_ret. by constructor.
Qed.

Lemma gives_seq {B} (P : nat -> B -> Prop) (f : nat -> M B) n : (forall i, (i < n)%nat -> gives (P i) (f i)) ->
  gives (fun l => length l = n /\ forall i d, (i < n)%nat -> P i (nth i l d)) (mapM_ (seq 0 n) f).
Proof.
  intros Hf. eapply gives_weaken; [apply (gives_mapM_ P)|].
  - intros i Hi%elem_of_seq. apply Hf. lia.
  - intros l Hl. pose proof (Forall2_length _ _ _ Hl) as E. rewrite length_seq in E. split; [done|]. intros i d Hi.
    destruct (lookup_lt_is_Some_2 l i) as [b Hb]; [lia|]. rewrite (nth_lookup_Some l i d b Hb).
    destruct (Forall2_lookup_r _ _ _ _ _ Hl Hb) as (i' & Hi' & Hp). apply lookup_seq in Hi' as [-> _]. exact Hp.
Qed.

Lemma gives_access_read p : gives (eq (cfg p)) (access_read p).
Proof. exists (cfg p). split; [done|]. intros h Hh. eexists. unfold access_read, respond. by rewrite still_answers. Qed.

Lemma gives_read p : gives (eq (default 0 (cfg p))) (v ← access_read p; mret (default 0 v)).
Proof. eapply gives_bind; [apply gives_access_read|]. intros _ <-. by apply gives_ret. Qed.

Lemma gives_extender id v : values !! id = Some v -> gives (eq v) (extender_read id).
Proof. intros Ev. exists v. split; [done|]. intros h Hh. destruct (extender_read_value cfg values id v h Ev Hh) as (h' & E & H & _). by eexists. Qed.

Lemma gives_reg_read r v : register_value r = Some v -> gives (eq v) (reg_read r).
Proof. destruct r as [? ?|? ?|? ?|? ?|[]|]; intros E; simplify_eq/=; first [apply gives_read|by apply gives_ret|by apply gives_extender]. Qed.

Lemma gives_ptr_read p v : pointer_value p = Some v -> gives (eq v) (ptr_read p).
Proof. intros (r & -> & Hr)%bind_Some. by apply gives_reg_read. Qed.

Lemma gives_msr_read h n : gives (fun _ => True) (msr_read h n).
Proof. destruct h; [eapply gives_any, gives_read|by apply gives_ret]. Qed.

Lemma gives_reg_write r v : (forall id, r <> CounterWidthExtenderRegister id) -> gives (fun _ => True) (reg_write r v).
Proof.
  assert (Hw : forall p v, gives (fun _ => True) (access_write p v)) by (intros p v'; exists tt; split; [done|]; intros h Hh; by eexists).
  intros Hr. destruct r as [? ?|? ?|? ?|? ?|[]|id]; cbn [reg_write]; try apply Hw; [|by apply gives_ret|by destruct (Hr id)].
  eapply gives_bind; [apply Hw|]. intros. apply Hw.
Qed.

Lemma gives_read_sum l : gives (eq (sum_value cfg l 0)) (read_sum l 0).
Proof.
  exists (sum_value cfg l 0). split; [done|]. intros h Hh. destruct (read_sum_value cfg l 0 h) as (h' & E & Hx & _). exists h'.
  split; [done|]. intros id. by rewrite Hx.
Qed.

(** ** The units of a server *)

(** Freezing changes nothing of a unit but its model cache. *)
Definition same_lists (l l' : list UncorePMU) : Prop := Forall2 recached l l'.

Record same_units (s s' : ServerUncorePMUs) : Prop := SameUnits {
  same_imc : same_lists (imcPMUs s) (imcPMUs s');
  same_edc : same_lists (edcPMUs s) (edcPMUs s');
  same_xpi : same_lists (xpiPMUs s) (xpiPMUs s');
  same_m3upi : same_lists (m3upiPMUs s) (m3upiPMUs s');
  same_m2m : same_lists (m2mPMUs s) (m2mPMUs s');
  same_ha : same_lists (haPMUs s) (haPMUs s');
  same_hbm : same_lists (hbm_m2mPMUs s) (hbm_m2mPMUs s');
  same_number : num_imc_channels s' = num_imc_channels s
}.

Definition controlled (u : UncorePMU) : Prop :=
  exists r, unitControl u = Some r /\ forall id, r <> CounterWidthExtenderRegister id.
Definition all_read (u : UncorePMU) : Prop :=
  forall j, (j < 4)%nat -> counterValue u !! j = Some None \/ is_Some (unit_value u j).
Definition clocked (u : UncorePMU) : Prop := is_Some (pointer_value (fixedCounterValue u)).

(** The units have the registers that a reading follows without a test, and fit the arrays. *)
Record server_readable (s : ServerUncorePMUs) : Prop := ServerReadable {
  all_controlled : Forall controlled (imcPMUs s ++ edcPMUs s ++ xpiPMUs s ++ m3upiPMUs s ++ m2mPMUs s ++ haPMUs s ++ hbm_m2mPMUs s);
  all_counted : Forall all_read (imcPMUs s ++ edcPMUs s ++ xpiPMUs s ++ m3upiPMUs s ++ m2mPMUs s ++ haPMUs s);
  all_clocked : Forall clocked (imcPMUs s ++ edcPMUs s);
  all_fit : (length (imcPMUs s) <= maxChannels)%nat /\ (length (edcPMUs s) <= maxChannels)%nat /\
            (length (xpiPMUs s) <= maxXPILinks)%nat /\ (length (num_imc_channels s) <= maxControllers)%nat
}.

Lemma same_lists_Forall (P : UncorePMU -> Prop) l l' : (forall m u, P u -> P (set_model m u)) ->
  same_lists l l' -> Forall P l -> Forall P l'.
Proof. intros HP H. induction H as [|u u' l l' [m ->] _ IH]; intros Hl; [done|]. apply Forall_cons in Hl as [Hu Hl]. constructor; auto. Qed.

Lemma same_units_readable s s' : same_units s s' -> server_readable s -> server_readable s'.
Proof.
  intros [Hi He Hx H3 H2 Hh Hb Hn] [Hc Ht Hk (Fi & Fe & Fx & Fn)]. split.
  - eapply same_lists_Forall; [|repeat (apply Forall2_app; [eassumption|]); eassumption|exact Hc]. intros m u. exact id.
  - eapply same_lists_Forall; [|repeat (apply Forall2_app; [eassumption|]); eassumption|exact Ht]. intros m u. exact id.
  - eapply same_lists_Forall; [|apply Forall2_app; eassumption|exact Hk]. intros m u. exact id.
  - by rewrite Hn, <- (Forall2_length _ _ _ Hi), <- (Forall2_length _ _ _ He), <- (Forall2_length _ _ _ Hx).
Qed.

Lemma same_lists_trans l1 l2 l3 : same_lists l1 l2 -> same_lists l2 l3 -> same_lists l1 l3.
Proof. intros H. revert l3. induction H; intros l3 H'; inversion H'; subst; constructor; [by eapply recached_trans|by apply IHForall2]. Qed.

Lemma same_units_trans s1 s2 s3 : same_units s1 s2 -> same_units s2 s3 -> same_units s1 s3.
Proof. intros [] []. split; first [by eapply same_lists_trans|congruence]. Qed.

Lemma gives_control_write m v u : controlled u ->
  gives (recached u) (let '(m', pmu) := getCPUFamilyModel m u in ptr_write (unitControl pmu) (v m') ;; mret pmu).
Proof.
  intros (r & Hr & Hne). destruct (getCPUFamilyModel_cases m u) as (m' & ->). cbn [unitControl set_model ptr_write]. rewrite Hr.
  eapply gives_bind; [by apply gives_reg_write|]. intros _ _. apply gives_ret. by exists m'.
Qed.

Lemma gives_for_all_PMUs f s : (forall u, controlled u -> gives (recached u) (f u)) -> server_readable s ->
  gives (same_units s) (for_all_PMUs f s).
Proof.
  intros Hf [Hc _ _ _]. rewrite !Forall_app in Hc. destruct Hc as (H1 & H2 & H3 & H4 & H5 & H6 & H7). unfold for_all_PMUs.
  assert (Hl : forall l, Forall controlled l -> gives (same_lists l) (mapM_ l f)).
  { intros l Hl. apply gives_mapM_. intros u Hu. apply Hf. exact (proj1 (Forall_forall _ _) Hl u Hu). }
  repeat (eapply gives_bind; [by apply Hl|]; intros ? ?; try (eapply (gives_bind (fun x => x = _)); [by apply gives_ret|]; intros ? ->)).
  apply gives_ret. by split.
Qed.

Lemma gives_freeze m s : server_readable s -> gives (same_units s) (freezeCounters m s).
Proof. apply gives_for_all_PMUs. intros u. apply (gives_control_write m (fun m' => switch m' _ _)). Qed.

Lemma gives_unfreeze m s : server_readable s -> gives (same_units s) (unfreezeCounters m s).
Proof. apply gives_for_all_PMUs. intros u. apply (gives_control_write m (fun m' => switch m' _ _)). Qed.

(** A row of an array has what the counters of the unit answer. *)
Definition row_of (n : nat) (o : option UncorePMU) (row : list Z) : Prop :=
  forall u j v, o = Some u -> (j < n)%nat -> unit_value u j = Some v -> nth j row 0 = v.

Lemma unit_value_null u j : counterValue u !! j = Some None -> unit_value u j = None.
Proof. unfold unit_value. by destruct (counterValue u !! j) as [[|]|]. Qed.

Lemma gives_row l i : Forall all_read l -> gives (row_of 4 (l !! i)) (read_counters (getPMUCounter l i)).
Proof.
  intros Hl. eapply gives_weaken.
  - apply (gives_seq (fun j x => forall u v, l !! i = Some u -> (j < 4)%nat -> unit_value u j = Some v -> x = v)). intros j _.
    unfold getPMUCounter. destruct (l !! i) as [u|] eqn:Eu; [|by apply gives_ret].
    destruct (Nat.ltb_spec j 4); [|apply gives_ret; lia].
    destruct (Forall_lookup_1 _ _ _ _ Hl Eu j H) as [E|[v Ev]].
    + rewrite E. apply gives_ret. intros ? v [= <-] _ Hv. by rewrite unit_value_null in Hv.
    + pose proof Ev as Ev'. unfold unit_value in Ev. destruct (counterValue u !! j) as [[r|]|]; [|done..].
      eapply gives_weaken; [by apply gives_reg_read|]. intros ? <- ? v' [= <-] _. congruence.
  - intros row [_ Hrow] u j v Hu Hj Hv. eapply Hrow; [|done..]. unfold maxCounters. lia.
Qed.

Lemma nth_fill {A} max (z : A) l i d : (i < length l)%nat -> nth i (fill_array max z l) d = nth i l d.
Proof. intros Hi. unfold fill_array. by rewrite app_nth1. Qed.

Lemma nth_map_in {A B} (f : A -> B) l i d d' : (i < length l)%nat -> nth i (map f l) d' = f (nth i l d).
Proof. intros Hi. rewrite (nth_indep _ d' (f d)) by by rewrite length_map. apply map_nth. Qed.

(** The rows of the units of one kind in an array. *)
Definition recorded (rows : list (list Z)) (n : nat) (l : list UncorePMU) : Prop :=
  forall i, (i < n)%nat -> row_of 4 (l !! i) (nth i rows []).
Definition clocks_recorded (clocks : list Z) (l : list UncorePMU) : Prop :=
  forall i u v, l !! i = Some u -> pointer_value (fixedCounterValue u) = Some v -> nth i clocks 0 = v.

Record counts_recorded (s : ServerUncorePMUs) (k : server_counts) : Prop := CountsRecorded {
  xpi_recorded : recorded (map fst (sc_ports k)) (length (xpiPMUs s)) (xpiPMUs s);
  m3upi_recorded : recorded (map snd (sc_ports k)) (length (xpiPMUs s)) (m3upiPMUs s);
  imc_recorded : recorded (map snd (sc_imc k)) (length (imcPMUs s)) (imcPMUs s) /\ clocks_recorded (map fst (sc_imc k)) (imcPMUs s);
  edc_recorded : recorded (map snd (sc_edc k)) (length (edcPMUs s)) (edcPMUs s) /\ clocks_recorded (map fst (sc_edc k)) (edcPMUs s);
  m2m_recorded : recorded (map fst (sc_controllers k)) (length (num_imc_channels s)) (m2mPMUs s);
  ha_recorded : recorded (map snd (sc_controllers k)) (length (num_imc_channels s)) (haPMUs s);
  counts_fit : length (sc_ports k) = length (xpiPMUs s) /\ length (sc_imc k) = length (imcPMUs s) /\
               length (sc_edc k) = length (edcPMUs s) /\ length (sc_controllers k) = length (num_imc_channels s)
}.

Lemma gives_in_array i n max : (i < n)%nat -> (n <= max)%nat -> gives (fun _ => True) (in_array i max).
Proof. intros Hi Hn. unfold in_array. destruct (Nat.ltb_spec i max); [by apply gives_ret|lia]. Qed.

(** Two rows for each of [n] numbers. *)
Lemma gives_pairs (l1 l2 : list UncorePMU) n max : Forall all_read l1 -> Forall all_read l2 -> (n <= max)%nat ->
  gives (fun k => length k = n /\ recorded (map fst k) n l1 /\ recorded (map snd k) n l2)
    (mapM_ (seq 0 n) (fun i => in_array i max ;; x ← read_counters (getPMUCounter l1 i); y ← read_counters (getPMUCounter l2 i); mret (x, y))).
Proof.
  intros H1 H2 Hn. eapply gives_weaken.
  - apply (gives_seq (fun i p => row_of 4 (l1 !! i) p.1 /\ row_of 4 (l2 !! i) p.2)). intros i Hi.
    eapply gives_bind; [by eapply gives_in_array|]. intros _ _. eapply gives_bind; [by apply gives_row|]. intros x Hx.
    eapply gives_bind; [by apply gives_row|]. intros y Hy. by apply gives_ret.
  - intros k [Hk Hrow]. split; [done|]. split; intros i Hi; rewrite (nth_map_in _ _ _ ([], [])) by lia; by apply Hrow.
Qed.

Lemma gives_channels (l : list UncorePMU) max : Forall all_read l -> Forall clocked l -> (length l <= max)%nat ->
  gives (fun k => length k = length l /\ recorded (map snd k) (length l) l /\ clocks_recorded (map fst k) l)
    (mapM_ (seq 0 (length l)) (fun i => in_array i max ;; clk ← fixed_clocks l i; x ← read_counters (getPMUCounter l i); mret (clk, x))).
Proof.
  intros H1 H2 Hn. eapply gives_weaken.
  - apply (gives_seq (fun i p => row_of 4 (l !! i) p.2 /\
             forall u v, l !! i = Some u -> pointer_value (fixedCounterValue u) = Some v -> p.1 = v)). intros i Hi.
    eapply gives_bind; [by eapply gives_in_array|]. intros _ _. destruct (lookup_lt_is_Some_2 l i Hi) as [u Eu].
    destruct (Forall_lookup_1 _ _ _ _ H2 Eu) as [v Ev]. unfold fixed_clocks. rewrite Eu.
    eapply gives_bind; [by apply gives_ptr_read|]. intros _ <-. eapply gives_bind; [by apply gives_row|]. intros y Hy.
    apply gives_ret. split; [by rewrite <- Eu|]. intros u' v' [= <-]. cbn [fst]. congruence.
  - intros k [Hk Hrow]. split; [done|]. split.
    + intros i Hi. rewrite (nth_map_in _ _ _ (0, [])) by lia. by apply Hrow.
    + intros i u v Hu Hv. pose proof (lookup_lt_Some _ _ _ Hu) as Hi. rewrite (nth_map_in _ _ _ (0, [])) by lia. by eapply Hrow.
Qed.

Lemma recorded_same rows n l l' : same_lists l l' -> recorded rows n l' -> recorded rows n l.
Proof.
  intros Hl H i Hi u j v Hu Hj Hv. destruct (Forall2_lookup_l _ _ _ _ _ Hl Hu) as (u' & Hu' & m & ->).
  exact (H i Hi _ j v Hu' Hj Hv).
Qed.

Lemma clocks_recorded_same clocks l l' : same_lists l l' -> clocks_recorded clocks l' -> clocks_recorded clocks l.
Proof.
  intros Hl H i u v Hu Hv. destruct (Forall2_lookup_l _ _ _ _ _ Hl Hu) as (u' & Hu' & m & ->). exact (H i _ v Hu' Hv).
Qed.

Lemma counts_recorded_same s s' k : same_units s s' -> counts_recorded s' k -> counts_recorded s k.
Proof.
  intros [Hi He Hx H3 H2 Hh _ Hn] [K1 K2 [K3 K3'] [K4 K4'] K5 K6 (F1 & F2 & F3 & F4)].
  rewrite <- ?(Forall2_length _ _ _ Hi), <- ?(Forall2_length _ _ _ He), <- ?(Forall2_length _ _ _ Hx), ?Hn in *.
  split; eauto using recorded_same, clocks_recorded_same.
Qed.

Context (c : sampler).

Lemma gives_server_counts s : server_readable s ->
  gives (fun r => counts_recorded s r.1 /\ same_units s r.2) (read_server_counts c s).
Proof.
  intros Hs. unfold read_server_counts. eapply gives_bind; [by apply gives_freeze|]. intros s1 H1.
  pose proof (same_units_readable _ _ H1 Hs) as Hs1. pose proof Hs1 as [_ Ht Hk (Fi & Fe & Fx & Fn)].
  rewrite !Forall_app in Ht. rewrite Forall_app in Hk. destruct Ht as (T1 & T2 & T3 & T4 & T5 & T6). destruct Hk as [K1 K2].
  eapply gives_bind; [by apply (gives_pairs _ _ (length (xpiPMUs s1)) maxXPILinks T3 T4)|]. intros ports (P1 & P2 & P3).
  eapply gives_bind; [by apply (gives_channels (imcPMUs s1) maxChannels)|]. intros imc (I1 & I2 & I3).
  eapply gives_bind; [by apply (gives_channels (edcPMUs s1) maxChannels)|]. intros edc (E1 & E2 & E3).
  eapply gives_bind; [by apply (gives_pairs _ _ (length (num_imc_channels s1)) maxControllers T5 T6)|]. intros ctrl (C1 & C2 & C3).
  eapply gives_bind; [by apply gives_unfreeze|]. intros s2 H2. apply gives_ret. cbn [fst snd].
  split; [|by eapply same_units_trans]. eapply counts_recorded_same; [exact H1|]. by split.
Qed.

Lemma gives_server socket st s : serverUncorePMUs st !! socket = Some s -> server_readable s ->
  gives (fun r => counts_recorded s r.1 /\ exists s', r.2 = set_servers (<[socket := s']> (serverUncorePMUs st)) st /\ same_units s s')
    (read_server c socket st).
Proof.
  intros Es Hs. unfold read_server. destruct (serverUncorePMUs st) as [|x l] eqn:E; [done|]. rewrite Es.
  eapply gives_bind; [by apply gives_server_counts|]. intros r [Hr Hsame]. apply gives_ret. cbn [fst snd]. eauto.
Qed.

(** ** The units of the socket *)

Definition unit_readable (skip_null : bool) (u : UncorePMU) : Prop :=
  forall j, (j < Nat.min maxCounters (size u))%nat ->
    skip_null = true /\ counterValue u !! j = Some None \/ is_Some (unit_value u j).

Definition unit_recorded (u : UncorePMU) (row : list Z) : Prop := row_of (Nat.min maxCounters (size u)) (Some u) row.

Lemma gives_counter_of u j v : unit_value u j = Some v -> gives (eq v) (counter_of j u).
Proof. unfold unit_value, counter_of. destruct (counterValue u !! j); [|done]. apply gives_ptr_read. Qed.

Lemma gives_unit_counters skip u : unit_readable skip u -> gives (unit_recorded u) (read_unit_counters skip u).
Proof.
  intros Hu. unfold read_unit_counters. set (n := Nat.min maxCounters (size u)) in *.
  eapply gives_bind; [apply (gives_seq (fun j x => forall v, unit_value u j = Some v -> x = v))|].
  - intros j Hj. destruct (Hu j Hj) as [[-> E]|[v Ev]].
    + rewrite E. apply gives_ret. intros v Hv. by rewrite unit_value_null in Hv.
    + assert (Hc : gives (eq v) (counter_of j u)) by by apply gives_counter_of.
      assert (Hc' : gives (fun x => forall v', unit_value u j = Some v' -> x = v') (counter_of j u)).
      { eapply gives_weaken; [exact Hc|]. intros ? <- v' Hv'. congruence. }
      destruct (counterValue u !! j) as [[r|]|] eqn:E; [exact Hc'| |exact Hc']. by rewrite unit_value_null in Ev.
  - intros l [Hl Hrow]. apply gives_ret. intros u' j v [= <-] Hj Hv. fold n in Hj. rewrite nth_fill by lia. by apply Hrow.
Qed.

Definition stack_is (units : list (Z * UncorePMU)) (stack : nat) (u : UncorePMU) : Prop :=
  (stack < length units)%nat /\ exists i key, list_find (fun e => e.1 = Z.of_nat stack) units = Some (i, (key, u)).

Lemma stack_is_app units extra stack u : stack_is units stack u -> stack_is (units ++ extra) stack u.
Proof. intros (Hl & i & key & E). split; [rewrite length_app; lia|]. exists i, key. by apply list_find_app_l. Qed.

Lemma gives_stacks skip n stack units : Forall (fun e => unit_readable skip e.2) units ->
  gives (fun r => (exists extra, r.2 = units ++ extra) /\
                  forall k u, (k < n)%nat -> stack_is units (stack + k) u -> (k < length r.1)%nat /\ unit_recorded u (nth k r.1 []))
    (read_stacks skip n stack units).
Proof.
  revert stack units. induction n as [|n IH]; intros stack units Hu; cbn [read_stacks].
  { apply gives_ret. split; [exists []; by rewrite app_nil_r|]. lia. }
  destruct (Nat.ltb_spec stack (length units)) as [Hs|Hs].
  2: { apply gives_ret. split; [exists []; by rewrite app_nil_r|]. intros k u _ [? _]. lia. }
  destruct (list_find _ units) as [[i [key pmu]]|] eqn:E.
  - pose proof E as (Hi & _)%list_find_Some. pose proof (Forall_lookup_1 _ _ _ _ Hu Hi) as Hp.
    eapply gives_bind; [by apply gives_unit_counters|]. intros row Hrow.
    eapply gives_bind; [by apply IH|]. intros rest [Hx Hrest]. apply gives_ret. cbn [fst snd length]. split; [done|].
    intros [|k] u Hk Hst.
    + rewrite Nat.add_0_r in Hst. destruct Hst as (_ & ? & ? & E'). rewrite E in E'. simplify_eq. split; [lia|exact Hrow].
    + destruct (Hrest k u) as [? ?]; [lia|by replace (S stack + k)%nat with (stack + S k)%nat by lia|]. split; [lia|done].
  - assert (Hu' : Forall (fun e => unit_readable skip e.2) (units ++ [(Z.of_nat stack, empty_unit)])).
    { apply Forall_app_2; [done|]. constructor; [|done]. intros j Hj. cbn in Hj. lia. }
    eapply gives_bind; [by apply IH|]. intros rest [[extra Hx] Hrest]. apply gives_ret. cbn [fst snd length].
    split; [exists ((Z.of_nat stack, empty_unit) :: extra); by rewrite Hx, <- app_assoc|]. intros [|k] u Hk Hst.
    + rewrite Nat.add_0_r in Hst. destruct Hst as (_ & ? & ? & E'). by rewrite E in E'.
    + destruct (Hrest k u) as [? ?]; [lia| |split; [lia|done]]. apply stack_is_app.
      by replace (S stack + k)%nat with (stack + S k)%nat by lia.
Qed.

(** The unit of a stack of a socket. *)
Definition stack_of (sockets : list (list (Z * UncorePMU))) (socket stack : nat) (u : UncorePMU) : Prop :=
  (stack < maxIIOStacks)%nat /\ exists units, sockets !! socket = Some units /\ stack_is units stack u.

Lemma gives_socket_stacks skip socket sockets :
  (forall units, sockets !! socket = Some units -> Forall (fun e => unit_readable skip e.2) units) ->
  gives (fun r => (forall k u, stack_of sockets socket k u -> stack_of r.2 socket k u) /\
                  forall k u, stack_of sockets socket k u -> (k < length r.1)%nat /\ unit_recorded u (nth k r.1 []))
    (read_socket_stacks skip socket sockets).
Proof.
  intros Hu. unfold read_socket_stacks. destruct (sockets !! socket) as [units|] eqn:E.
  - eapply gives_bind; [apply gives_stacks, Hu; done|]. intros r [[extra Hx] Hr]. apply gives_ret. cbn [fst snd].
    split; intros k u (Hk & l & Hl & Hst); rewrite E in Hl; injection Hl as <-.
    + split; [done|]. exists r.2. rewrite list_lookup_insert_eq by by eapply lookup_lt_Some. split; [done|]. rewrite Hx. by apply stack_is_app.
    + by apply (Hr k u).
  - apply gives_ret. cbn [fst snd]. split; [done|]. intros k u (_ & l & Hl & _). congruence.
Qed.

(** ** The socket *)

Definition energy_counter (socket id : nat) : Prop :=
  energy_status (sm_energy c) !! socket = Some id \/ dram_energy_status (sm_energy c) !! socket = Some id \/
  socket = 0%nat /\ id ∈ pp_energy_status (sm_energy c).

(** The socket has the registers that a reading follows without a test, and its units fit
    the arrays. *)
Record state_readable (socket : nat) (s : ServerUncorePMUs) : Prop := StateReadable {
  has_server : serverUncorePMUs (sm_uncore c) !! socket = Some s;
  readable_server : server_readable s;
  has_refCore : is_Some (sm_refCores c !! socket);
  readable_dies : forall dies d e u, uncorePMUs (sm_uncore c) !! socket = Some dies -> d ∈ dies -> e ∈ d -> Some u ∈ e.2 ->
    (size u <= maxCounters)%nat /\ unit_readable false u /\ (e.1 = UBOX_PMU_ID -> clocked u);
  readable_iio : forall units, iioPMUs (sm_uncore c) !! socket = Some units -> Forall (fun e => unit_readable false e.2) units;
  readable_irp : forall units, irpPMUs (sm_uncore c) !! socket = Some units -> Forall (fun e => unit_readable true e.2) units;
  readable_cxl : Forall (fun p => unit_readable false p.1 /\ unit_readable false p.2) (default [] (cxlPMUs (sm_uncore c) !! socket));
  readable_energy : forall id, energy_counter socket id -> is_Some (values !! id)
}.

Lemma gives_units_sum read id (dies : list die_pmus) :
  (forall d e u, d ∈ dies -> e ∈ d -> e.1 = id -> Some u ∈ e.2 -> gives (fun _ => True) (read u)) ->
  forall result, gives (fun _ => True) (sum_dies read id dies result).
Proof.
  intros Hr. induction dies as [|d dies IH]; intros result; cbn [sum_dies]; [by apply gives_ret|].
  apply (gives_bind (fun _ => True)).
  - destruct (list_find _ d) as [[i e]|] eqn:E; [|by apply gives_ret].
    apply list_find_Some in E as (Hi & Hid & _).
    assert (Hu : forall u, Some u ∈ e.2 -> gives (fun _ => True) (read u)).
    { intros u. apply (Hr d); [left|by eapply list_elem_of_lookup_2|done]. }
    clear -Hu. revert result. induction e.2 as [|[u|] l IH]; intros result; cbn [sum_units]; [by apply gives_ret| |].
    + apply (gives_bind (fun _ => True)); [apply Hu; left|]. intros v _. apply IH. intros u' Hu'. apply Hu. by right.
    + apply IH. intros u' Hu'. apply Hu. by right.
  - intros r _. apply IH. intros d' e u Hd. apply Hr. by right.
Qed.

Section Socket.
Context (socket : nat) (s : ServerUncorePMUs) (Hread : state_readable socket s).

Lemma gives_unit_values p : (forall u, p = Some u -> (size u <= maxCounters)%nat /\ unit_readable false u) ->
  gives (fun _ => True) (read_unit_values p).
Proof.
  intros Hp. destruct p as [u|]; [|by apply gives_ret]. destruct (Hp u eq_refl) as [Hn Hu].
  apply (gives_bind (fun _ => True)); [|intros l _; by apply gives_ret].
  eapply gives_any, (gives_mapM_ (fun _ _ => True)). intros j Hj%elem_of_seq.
  apply (gives_bind (fun _ => True)); [by apply (gives_in_array j (size u)); [lia|]|intros _ _].
  destruct (Hu j) as [[]|[v Ev]]; [lia|done|]. eapply gives_any. by apply gives_counter_of.
Qed.

Lemma gives_uncore_values : gives (fun _ => True) (readUncoreCounterValues c socket).
Proof.
  unfold readUncoreCounterValues. destruct (_ !! socket) as [dies|] eqn:E; [|by apply gives_ret].
  eapply gives_any, (gives_mapM_ (fun _ _ => True)). intros d Hd. unfold read_die.
  apply (gives_bind (fun _ => True)); [|intros l _; by apply gives_ret].
  eapply gives_any, (gives_mapM_ (fun _ _ => True)). intros e He.
  apply (gives_bind (fun _ => True)); [|intros l _; by apply gives_ret].
  eapply gives_any, (gives_mapM_ (fun _ _ => True)). intros p Hp. apply gives_unit_values. intros u ->.
  destruct (readable_dies _ _ Hread dies d e u E Hd He Hp) as (? & ? & _). done.
Qed.

Lemma gives_clocks st : uncorePMUs st = uncorePMUs (sm_uncore c) -> gives (fun _ => True) (PcmUncore.getUncoreClocks socket st).
Proof.
  intros Est. unfold PcmUncore.getUncoreClocks. rewrite Est. destruct (_ !! socket) as [dies|] eqn:E; [|by apply gives_ret].
  apply gives_units_sum. intros d e u Hd He Hid Hu.
  destruct (readable_dies _ _ Hread dies d e u E Hd He Hu) as (_ & _ & Hk). destruct (Hk Hid) as [v Ev].
  eapply gives_any. by apply gives_ptr_read.
Qed.

Lemma gives_cxl st : cxlPMUs st = cxlPMUs (sm_uncore c) ->
  gives (fun l => forall i p, (i < maxCXLPorts)%nat -> default [] (cxlPMUs (sm_uncore c) !! socket) !! i = Some p ->
           (i < length l)%nat /\ unit_recorded p.1 (nth i l ([], [])).1 /\ unit_recorded p.2 (nth i l ([], [])).2)
    (read_cxl_ports socket st).
Proof.
  intros Est. unfold read_cxl_ports. rewrite Est. pose proof (readable_cxl _ _ Hread) as Hc. set (ports := default [] _) in *.
  eapply gives_weaken; [apply (gives_mapM_ (fun p r => unit_recorded p.1 r.1 /\ unit_recorded p.2 r.2))|].
  - intros p Hp. destruct (proj1 (Forall_forall _ _) (Forall_take _ maxCXLPorts _ Hc) p Hp) as [H1 H2].
    eapply gives_bind; [by apply gives_unit_counters|]. intros cm Hcm.
    eapply gives_bind; [by apply gives_unit_counters|]. intros dp Hdp. by apply gives_ret.
  - intros l Hl i p Hi Hp. assert (Hp' : take maxCXLPorts ports !! i = Some p) by by rewrite lookup_take_lt.
    destruct (Forall2_lookup_l _ _ _ _ _ Hl Hp') as (r & Hr & ?). split; [by eapply lookup_lt_Some|].
    by rewrite (nth_lookup_Some _ _ _ _ Hr).
Qed.

Lemma gives_tsc ctx core : gives (fun _ => True) (getInvariantTSC_Fast ctx core).
Proof. unfold getInvariantTSC_Fast. case_match; [eapply gives_any, gives_read|apply gives_msr_read]. Qed.

Lemma gives_cstates handle : gives (fun _ => True) (read_package_cstates c handle).
Proof.
  eapply gives_any, (gives_mapM_ (fun _ _ => True)). intros addr _. case_match; [by apply gives_ret|apply gives_msr_read].
Qed.

Lemma gives_energy u : gives (fun _ => True) (readAndAggregateEnergyCounters c socket u).
Proof.
  unfold readAndAggregateEnergyCounters. set (l := _ ++ _).
  assert (Hl : Forall (fun f => forall u, gives (fun _ => True) (f u)) l); [|clearbody l; revert u].
  { assert (Hx : forall id add u, (forall i, id = Some i -> energy_counter socket i) -> gives (fun _ => True) (read_extender_into id add u)).
    { intros [id|] add u' Hid; cbn [read_extender_into]; [|by apply gives_ret].
      destruct (readable_energy _ _ Hread id) as [v Ev]; [by apply Hid|].
      eapply gives_bind; [by apply gives_extender|]. intros _ <-. by apply gives_ret. }
    apply Forall_app. split.
    - repeat constructor; intros u'; apply Hx; intros i Hi; [by left|by right; left].
    - destruct (Nat.eqb_spec socket 0) as [Hz|]; [|constructor].
      apply Forall_forall. intros f (pp & id & -> & Hid)%elem_of_lookup_imap u'. apply Hx. intros i [= <-]. right; right.
      split; [done|by eapply list_elem_of_lookup_2]. }
  unfold readings. induction Hl as [|f l Hf _ IH]; intros u; cbn [foldr]; [by apply gives_ret|].
  apply (gives_bind (fun _ => True)); [apply Hf|]. intros u' _. apply IH.
Qed.

Lemma gives_free_running : gives (fun m => forall bars, sm_serverBW c !! socket = Some bars ->
    m !! ImcReads = Some (sum_value cfg (map (fun bar => MmioPort64 bar PCM_SERVER_IMC_DRAM_DATA_READS) bars) 0) /\
    m !! ImcWrites = Some (sum_value cfg (map (fun bar => MmioPort64 bar PCM_SERVER_IMC_DRAM_DATA_WRITES) bars) 0))
  (read_free_running c socket).
Proof.
  unfold read_free_running. destruct (sm_serverBW c !! socket) as [bars|]; [|by apply gives_ret].
  eapply gives_bind; [apply gives_read_sum|]. intros reads Hr. eapply gives_bind; [apply gives_read_sum|]. intros writes Hw.
  eapply gives_bind; [apply gives_read_sum|]. intros ? _. eapply gives_bind; [apply gives_read_sum|]. intros ? _.
  apply gives_ret. intros ? [= <-]. by rewrite Hr, Hw.
Qed.

End Socket.

(** What the arrays of a state have. *)
Record state_recorded (socket : nat) (s : ServerUncorePMUs) (x : ServerUncoreCounterState) : Prop := StateRecorded {
  sr_xpi : recorded (xPICounter x) (length (xpiPMUs s)) (xpiPMUs s);
  sr_m3upi : recorded (M3UPICounter x) (length (xpiPMUs s)) (m3upiPMUs s);
  sr_imc : recorded (MCCounter x) (length (imcPMUs s)) (imcPMUs s) /\ clocks_recorded (DRAMClocks x) (imcPMUs s);
  sr_edc : recorded (EDCCounter x) (length (edcPMUs s)) (edcPMUs s) /\ clocks_recorded (HBMClocks x) (edcPMUs s);
  sr_m2m : recorded (M2MCounter x) (length (num_imc_channels s)) (m2mPMUs s);
  sr_ha : recorded (HACounter x) (length (num_imc_channels s)) (haPMUs s);
  sr_iio : forall k u, stack_of (iioPMUs (sm_uncore c)) socket k u -> unit_recorded u (nth k (IIOCounter x) []);
  sr_irp : forall k u, stack_of (irpPMUs (sm_uncore c)) socket k u -> unit_recorded u (nth k (IRPCounter x) []);
  sr_cxl : forall i p, (i < maxCXLPorts)%nat -> default [] (cxlPMUs (sm_uncore c) !! socket) !! i = Some p ->
    unit_recorded p.1 (nth i (CXLCMCounter x) []) /\ unit_recorded p.2 (nth i (CXLDPCounter x) []);
  sr_free : forall bars, sm_serverBW c !! socket = Some bars ->
    freeRunningCounter x !! ImcReads = Some (sum_value cfg (map (fun bar => MmioPort64 bar PCM_SERVER_IMC_DRAM_DATA_READS) bars) 0) /\
    freeRunningCounter x !! ImcWrites = Some (sum_value cfg (map (fun bar => MmioPort64 bar PCM_SERVER_IMC_DRAM_DATA_WRITES) bars) 0)
}.

(** A reading keeps the units; it may enter empty units for missing stacks. *)
Record uncore_kept (socket : nat) (s : ServerUncorePMUs) (st st' : pcm_uncore) : Prop := UncoreKept {
  kept_server : exists s', serverUncorePMUs st' !! socket = Some s' /\ same_units s s';
  kept_iio : forall k u, stack_of (iioPMUs st) socket k u -> stack_of (iioPMUs st') socket k u;
  kept_irp : forall k u, stack_of (irpPMUs st) socket k u -> stack_of (irpPMUs st') socket k u;
  kept_cxl : cxlPMUs st' = cxlPMUs st
}.

Lemma recorded_fill rows max n l : (n <= length rows)%nat -> recorded rows n l -> recorded (fill_array max no_counts rows) n l.
Proof. intros Hn H i Hi. rewrite nth_fill by lia. by apply H. Qed.

Lemma clocks_fill rows max l : (length l <= length rows)%nat -> clocks_recorded rows l -> clocks_recorded (fill_array max 0 rows) l.
Proof. intros Hn H i u v Hu Hv. rewrite nth_fill by (apply lookup_lt_Some in Hu; lia). by eapply H. Qed.

Lemma gives_msr_counts socket s st : state_readable socket s ->
  uncorePMUs st = uncorePMUs (sm_uncore c) -> iioPMUs st = iioPMUs (sm_uncore c) -> irpPMUs st = irpPMUs (sm_uncore c) ->
  cxlPMUs st = cxlPMUs (sm_uncore c) ->
  gives (fun r => (forall k u, stack_of (iioPMUs (sm_uncore c)) socket k u -> unit_recorded u (nth k (fill_array maxIIOStacks no_counts (mc_iio r.1)) []) /\
                     stack_of (iioPMUs r.2) socket k u) /\
                  (forall k u, stack_of (irpPMUs (sm_uncore c)) socket k u -> unit_recorded u (nth k (fill_array maxIIOStacks no_counts (mc_irp r.1)) []) /\
                     stack_of (irpPMUs r.2) socket k u) /\
                  (forall i p, (i < maxCXLPorts)%nat -> default [] (cxlPMUs (sm_uncore c) !! socket) !! i = Some p ->
                     unit_recorded p.1 (nth i (fill_array maxCXLPorts no_counts (mc_cxlcm r.1)) []) /\
                     unit_recorded p.2 (nth i (fill_array maxCXLPorts no_counts (mc_cxldp r.1)) [])) /\
                  serverUncorePMUs r.2 = serverUncorePMUs st /\ cxlPMUs r.2 = cxlPMUs st)
    (read_msr_counts c socket st).
Proof.
  intros Hr Eu Ei Ep Ec. unfold read_msr_counts. destruct (has_refCore _ _ Hr) as [core ->].
  eapply gives_bind; [by eapply gives_uncore_values|]. intros values' _.
  eapply gives_bind; [rewrite Ei; apply gives_socket_stacks, (readable_iio _ _ Hr)|]. intros iio [Ki Hi].
  eapply gives_bind; [rewrite Ep; apply gives_socket_stacks, (readable_irp _ _ Hr)|]. intros irp [Kp Hp].
  eapply gives_bind; [by eapply gives_clocks|]. intros clocks _.
  eapply gives_bind; [by eapply gives_cxl|]. intros cxl Hcxl.
  eapply gives_bind; [apply gives_msr_read|]. intros therm _. eapply gives_bind; [apply gives_tsc|]. intros tsc _.
  eapply gives_bind; [apply gives_cstates|]. intros cs _. apply gives_ret. cbn [fst snd mc_iio mc_irp mc_cxlcm mc_cxldp].
  split_and!; [..|done|done].
  - intros k u Hst. destruct (Hi k u Hst) as [? ?]. rewrite nth_fill by done. split; [done|by apply Ki].
  - intros k u Hst. destruct (Hp k u Hst) as [? ?]. rewrite nth_fill by done. split; [done|by apply Kp].
  - intros i p Hlt Hip. destruct (Hcxl i p Hlt Hip) as (? & ? & ?).
    rewrite !nth_fill, !(nth_map_in _ _ _ ([], [])) by (by rewrite ?length_map). done.
Qed.

Lemma gives_state socket s : state_readable socket s ->
  gives (fun r => state_recorded socket s r.1 /\ uncore_kept socket s (sm_uncore c) r.2) (getServerUncoreCounterState c true socket).
Proof.
  intros Hr. unfold getServerUncoreCounterState. pose proof (has_server _ _ Hr) as Hs.
  eapply gives_bind; [apply gives_free_running|]. intros free Hfree.
  eapply gives_bind; [apply gives_server; [exact Hs|apply (readable_server _ _ Hr)]|]. intros [counts st] [Hk (s' & Est' & Hsame)]. cbn [fst snd] in *. subst st.
  eapply gives_bind; [by apply (gives_msr_counts socket s)|]. intros [k st'] (Hi & Hp & Hc & Est & Ecxl). cbn [fst snd] in *.
  eapply gives_bind; [by eapply gives_energy|]. intros u _. apply gives_ret. cbn [fst snd].
  pose proof Hk as [K1 K2 [K3 K3'] [K4 K4'] K5 K6 (F1 & F2 & F3 & F4)].
  split.
  - split; cbn [xPICounter M3UPICounter MCCounter DRAMClocks EDCCounter HBMClocks M2MCounter HACounter IIOCounter IRPCounter CXLCMCounter
      CXLDPCounter freeRunningCounter]; try lazymatch goal with |- _ /\ _ => split end;
      try (apply recorded_fill; [rewrite length_map; lia|done]); try (apply clocks_fill; [rewrite length_map; lia|done]).
    + intros j w Hst. by apply Hi.
    + intros j w Hst. by apply Hp.
    + exact Hc.
    + exact Hfree.
  - split; [|intros j w Hst; by apply Hi|intros j w Hst; by apply Hp|exact Ecxl].
    exists s'. split; [|done]. rewrite Est. cbn [serverUncorePMUs set_servers]. apply list_lookup_insert_eq. by eapply lookup_lt_Some.
Qed.

End Recorded.

(** * Measurement *)

Section Measured.
Context {machine1 machine2 : Machine} (cfg1 cfg2 : port -> option Z) `{Still1 : !Still machine1 cfg1} `{Still2 : !Still machine2 cfg2}.
Context (values1 values2 : gmap nat Z).

(** [getter] gives for every counter of the units the difference of what its register
    answered, modulo [2 ^ 64]. *)
Definition measures (counters : UncorePMU -> nat) (units : nat -> UncorePMU -> Prop)
    (getter : nat -> nat -> ServerUncoreCounterState -> ServerUncoreCounterState -> Z) (before after : ServerUncoreCounterState) : Prop :=
  forall i u j v1 v2, units i u -> (j < counters u)%nat -> unit_value cfg1 values1 u j = Some v1 -> unit_value cfg2 values2 u j = Some v2 ->
    getter i j before after = u64 (v2 - v1).

Definition four (u : UncorePMU) : nat := 4.
Definition up_to_eight (u : UncorePMU) : nat := Nat.min maxCounters (size u).
Definition among (n : nat) (l : list UncorePMU) (i : nat) (u : UncorePMU) : Prop := (i < n)%nat /\ l !! i = Some u.

Lemma measures_recorded n l1 l2 array before after : same_lists l1 l2 ->
  recorded cfg1 values1 (array before) n l1 -> recorded cfg2 values2 (array after) n l2 ->
  measures four (among n l1) (fun i j => array_difference array i j) before after.
Proof.
  intros Hl H1 H2 i u j v1 v2 [Hi Hu] Hj Hv1 Hv2. unfold array_difference.
  rewrite (H1 i Hi u j v1 Hu Hj Hv1). by rewrite (recorded_same cfg2 values2 _ _ _ _ Hl H2 i Hi u j v2 Hu Hj Hv2).
Qed.

Lemma measures_units (units : nat -> UncorePMU -> Prop) array before after :
  (forall i u, units i u -> unit_recorded cfg1 values1 u (nth i (array before) [])) ->
  (forall i u, units i u -> unit_recorded cfg2 values2 u (nth i (array after) [])) ->
  measures up_to_eight units (fun i j => array_difference array i j) before after.
Proof.
  intros H1 H2 i u j v1 v2 Hu Hj Hv1 Hv2. unfold array_difference.
  rewrite (H1 i u Hu u j v1 eq_refl Hj Hv1). by rewrite (H2 i u Hu u j v2 eq_refl Hj Hv2).
Qed.

End Measured.

(** C6. The counters of a server socket are measured: two calls of [getServerUncoreCounterState],
    the second on the units that the first one left, return whatever happened before each of
    them, and every getter of the difference - for the memory channels, the links and M3UPI
    ports, the M2M and home agent boxes, the high-bandwidth memory, the I/O stacks and the CXL
    ports - gives for its unit and counter exactly the difference of what that unit's register
    answered, modulo [2 ^ 64]. The units must have the registers that the function follows
    without a test and fit the arrays, whose bounds only assertions check. *)
Theorem server_state_measured (machine1 machine2 : Machine) cfg1 cfg2 (S1 : Still machine1 cfg1) (S2 : Still machine2 cfg2)
    values1 values2 c1 socket s1 h1 :
  settled cfg1 values1 h1 -> state_readable cfg1 values1 c1 socket s1 ->
  exists h1' before st, @getServerUncoreCounterState machine1 c1 true socket h1 = (h1', Ok (before, st)) /\
    forall c2 s2 h2, sm_uncore c2 = st -> settled cfg2 values2 h2 -> state_readable cfg2 values2 c2 socket s2 ->
    exists h2' after st2, @getServerUncoreCounterState machine2 c2 true socket h2 = (h2', Ok (after, st2)) /\
      let measured := measures cfg1 cfg2 values1 values2 in
      let n := length (num_imc_channels s1) in
      let ports := length (xpiPMUs s1) in
      let st1 := sm_uncore c1 in
      measured four (among (length (imcPMUs s1)) (imcPMUs s1)) ss_getMCCounter before after /\
      measured four (among ports (xpiPMUs s1)) ss_getXPICounter before after /\
      measured four (among ports (m3upiPMUs s1)) ss_getM3UPICounter before after /\
      measured four (among n (m2mPMUs s1)) ss_getM2MCounter before after /\
      measured four (among n (haPMUs s1)) ss_getHACounter before after /\
      measured four (among (length (edcPMUs s1)) (edcPMUs s1)) (ss_getEDCCounter true) before after /\
      measured up_to_eight (stack_of (iioPMUs st1) socket) ss_getIIOCounter before after /\
      measured up_to_eight (stack_of (irpPMUs st1) socket) ss_getIRPCounter before after /\
      measured up_to_eight (among maxCXLPorts (map fst (default [] (cxlPMUs st1 !! socket)))) ss_getCXLCMCounter before after /\
      measured up_to_eight (among maxCXLPorts (map snd (default [] (cxlPMUs st1 !! socket)))) ss_getCXLDPCounter before after.
Proof.
  intros Hh1 Hr1. destruct (gives_state cfg1 values1 c1 socket s1 Hr1) as ([before st] & [R1 K1] & Hrun1).
  destruct (Hrun1 h1 Hh1) as (h1' & E1 & _). exists h1', before, st. split; [exact E1|].
  intros c2 s2 h2 Ec2 Hh2 Hr2. destruct (gives_state cfg2 values2 c2 socket s2 Hr2) as ([after st2] & [R2 _] & Hrun2).
  destruct (Hrun2 h2 Hh2) as (h2' & E2 & _). exists h2', after, st2. split; [exact E2|]. cbv zeta. cbn [fst snd] in *.
  destruct K1 as [(s' & Es' & Hsame) Ki Kp Kc]. pose proof (has_server _ _ _ _ _ Hr2) as Es2. rewrite Ec2, Es' in Es2. injection Es2 as ->.
  destruct Hsame as [Mi Me Mx M3 M2 Mh _ Mn]. destruct R1 as [X1 U1 [I1 _] [D1 _] N1 A1 O1 P1 C1 _]. destruct R2 as [X2 U2 [I2 _] [D2 _] N2 A2 O2 P2 C2 _].
  rewrite Ec2 in *. rewrite Kc in C2. rewrite Mn in *.
  rewrite <- (Forall2_length _ _ _ Mi) in I2. rewrite <- (Forall2_length _ _ _ Me) in D2. rewrite <- (Forall2_length _ _ _ Mx) in X2, U2.
  split_and!; try (eapply measures_recorded; eassumption).
  - apply measures_units; [exact O1|]. intros i u Hu. by apply O2, Ki.
  - apply measures_units; [exact P1|]. intros i u Hu. by apply P2, Kp.
  - apply measures_units; intros i u [Hi (p & -> & Hp)%list_lookup_fmap_Some]; [by apply C1|by apply C2].
  - apply measures_units; intros i u [Hi (p & -> & Hp)%list_lookup_fmap_Some]; [by apply C1|by apply C2].
Qed.

(** A Skylake socket with two channels, a link, a controller and two I/O stacks; its units
    have the model [m] in their cache. The registers answer numbers that grow with time. *)
Definition metered_unit (m handle : Z) : UncorePMU :=
  let r offset := Some (PCICFGRegister64 handle offset) in
  MkUncorePMU m (r 0xF4) [r 0xD8; r 0xDC; r 0xE0; r 0xE4] [r 0xA0; r 0xA8; r 0xB0; r 0xB8] (r 0xF0) (r 0xD0) None None.
Definition metered_stack (unit : Z) : UncorePMU :=
  let r offset := Some (MSRRegister (Some 0) (0xA00 + 0x20 * unit + offset)) in
  MkUncorePMU 0 (r 0) [r 8; r 9; r 10; r 11] [r 1; r 2; r 3; r 4] None None None None.
Definition metered_server (m : Z) : ServerUncorePMUs :=
  MkServer SKX [metered_unit m 1; metered_unit m 2] [] [metered_unit m 3] [metered_unit m 4] [metered_unit m 5] [] [] [2].
Definition metered_uncore (m : Z) : pcm_uncore :=
  PcmUncore [metered_server m] [[]] [[(0, metered_stack 0); (1, metered_stack 1)]] [[]] [[]] [].
Definition metered_sampler (st : pcm_uncore) : sampler :=
  Sampler SKX 4 st 1 [] [0] (fun _ => example_context) [] [] example_raw (fun _ _ => []) true [] [] None
    (EnergyCounters [] [] [] None) (replicate 11 0) 2 (Widths false 48 48 48 48).
Definition metered_registers (time : Z) (p : port) : option Z :=
  match p with PciPort64 h o => Some (time * (1000 * h + o)) | MsrPort core n => Some (time * n + core) | _ => None end.

Lemma metered_settled time : settled (metered_registers time) ∅ (HW [] ∅ ∅).
Proof. intros id. cbn [extenders]. by rewrite !lookup_empty. Qed.

Lemma metered_readable time m : state_readable (metered_registers time) ∅ (metered_sampler (metered_uncore m)) 0 (metered_server m).
Proof.
  assert (Hc : forall handle, all_read (metered_registers time) ∅ (metered_unit m handle)).
  { intros handle j Hj. right. do 4 (destruct j as [|j]; [by eexists|]). lia. }
  split; [done| |by exists 0| | | |by constructor|].
  - split; [by repeat constructor; eexists|cbn; repeat apply Forall_cons_2; try apply Hc; constructor|by repeat constructor; eexists|by vm_compute; lia].
  - intros dies d e u [= <-] []%not_elem_of_nil.
  - intros units [= <-]. repeat apply Forall_cons_2; [| |constructor]; intros j Hj; right; (do 4 (destruct j as [|j]; [by eexists|])); cbn in Hj; lia.
  - intros units [= <-]. constructor.
  - intros id [E|[E|[_ E]]]; [done|done|]. by apply not_elem_of_nil in E.
Qed.

Lemma server_state_measured_witness :
  exists h1' before st h2' after st2,
    @getServerUncoreCounterState (static_machine (metered_registers 3)) (metered_sampler (metered_uncore 0)) true 0 (HW [] ∅ ∅) = (h1', Ok (before, st)) /\
    @getServerUncoreCounterState (static_machine (metered_registers 5)) (metered_sampler st) true 0 (HW [] ∅ ∅) = (h2', Ok (after, st2)) /\
    ss_getMCCounter 1 2 before after = 2 * (1000 * 2 + 0xB0) /\ ss_getXPICounter 0 3 before after = 2 * (1000 * 3 + 0xB8) /\
    ss_getIIOCounter 1 0 before after = 2 * 0xA21.
Proof.
  destruct (server_state_measured (static_machine (metered_registers 3)) (static_machine (metered_registers 5)) (metered_registers 3) (metered_registers 5)
    _ _ ∅ ∅ (metered_sampler (metered_uncore 0)) 0 (metered_server 0) (HW [] ∅ ∅)) as (h1' & before & st & E1 & H).
  - apply metered_settled.
  - apply metered_readable.
  - assert (Est : st = metered_uncore SKX) by (vm_compute in E1; vm_compute; congruence). subst st.
    destruct (H (metered_sampler (metered_uncore SKX)) (metered_server SKX) (HW [] ∅ ∅)) as (h2' & after & st2 & E2 & M1 & M2 & _ & _ & _ & _ & M3 & _).
    + reflexivity.
    + apply metered_settled.
    + apply metered_readable.
    + exists h1', before, (metered_uncore SKX), h2', after, st2. split; [exact E1|]. split; [exact E2|].
      split; [|split].
      * exact (M1 1%nat _ 2%nat _ _ (conj (le_n 2) eq_refl) (le_S _ _ (le_n 3)) eq_refl eq_refl).
      * exact (M2 0%nat _ 3%nat _ _ (conj (le_n 1) eq_refl) (le_n 4) eq_refl eq_refl).
      * refine (M3 1%nat (metered_stack 1) 0%nat _ _ _ _ eq_refl eq_refl); [|vm_compute; lia].
        split; [unfold maxIIOStacks; lia|]. exists [(0, metered_stack 0); (1, metered_stack 1)]. split; [reflexivity|].
        split; [simpl; lia|]. by exists 1%nat, 1.
Defined.
