(* ===== verification/Aggregation.v ===== *)
(** The sensor server's [Aggregator] and [PCM::getAllCounterStates] compute the same sample:
    the proof, over the topology that [PCM::discoverSystemTopology] finds. *)

From S2P Require Import Prelude Bits CpuModels Capabilities WidthExtender Registers UncorePMU ServerUncore CounterState PcmUncore Discovery RawEvents RawProgram Topology Bandwidth Sampling SamplingProofs.
Local Open Scope Z_scope.

(** * What is compared *)

(** Up to the thermal headroom and the values of single MSRs. *)
Definition counts (b : BasicCounterState) : BasicCounterState := set_headroom 0 ∅ b.
Definition same_counts (a b : BasicCounterState) : Prop := counts a = counts b.

(** Up to the residencies of the package C-states. *)
Definition without_cstates (u : UncoreCounterState) : UncoreCounterState :=
  let 'Uncore a b c d e f g h i j k l m n o p q r t u v := u in Uncore a b c d e f g h i j k l m n o p q r t u no_c_states.
Definition same_uncore (a b : UncoreCounterState) : Prop := without_cstates a = without_cstates b.

Definition same_socket (a b : SocketCounterState) : Prop := same_counts (basic a) (basic b) /\ same_uncore (uncore a) (uncore b).

Lemma counts_add a b : counts (basic_add a b) = basic_add (counts a) (counts b).
Proof. done. Qed.

Lemma same_counts_add a b a' b' : same_counts a a' -> same_counts b b' -> same_counts (basic_add a b) (basic_add a' b').
Proof. unfold same_counts. intros H1 H2. by rewrite !counts_add, H1, H2. Qed.

Lemma same_uncore_add a b a' b' : same_uncore a a' -> same_uncore b b' -> same_uncore (uncore_add a b) (uncore_add a' b').
Proof. unfold same_uncore. destruct a, b, a', b'. cbn. intros [=] [=]. subst. done. Qed.

Lemma same_add_cstates l u : same_uncore (add_cstates l u) u.
Proof. by destruct u. Qed.

Lemma checked_add_comm s a b : checked_add (checked_add s a) b = checked_add (checked_add s b) a.
Proof. unfold checked_add. cbn. f_equal; wrap_ring 64. Qed.

Lemma zip_checked_comm l a b : zip_with checked_add (zip_with checked_add l a) b = zip_with checked_add (zip_with checked_add l b) a.
Proof. revert a b. induction l as [|x l IH]; intros [|y a] [|z b]; cbn; try done. by rewrite IH, checked_add_comm. Qed.

Lemma basic_add_comm s a b : basic_add (basic_add s a) b = basic_add (basic_add s b) a.
Proof. unfold basic_add. cbn. f_equal; try apply checked_add_comm; try apply zip_checked_comm; try apply vec_add_comm; wrap_ring 64. Qed.

(** Sums in another order. *)
Lemma basic_sum_perm l l' s : l ≡ₚ l' -> foldl basic_add s l = foldl basic_add s l'.
Proof.
  intros H. revert s. induction H as [|x l l' _ IH|x y l|l l' l'' _ IH1 _ IH2]; intros s; cbn; [done|by rewrite IH|by rewrite basic_add_comm|by rewrite IH1].
Qed.

Lemma same_counts_sum l l' s s' : same_counts s s' -> Forall2 same_counts l l' -> same_counts (foldl basic_add s l) (foldl basic_add s' l').
Proof. intros Hs H. revert s s' Hs. induction H; intros; cbn; [done|]. apply IHForall2. by apply same_counts_add. Qed.

(** * Runs without exceptions *)

Section Projection.
Context {machine : Machine} (cfg : port -> option Z) `{Hstill : !Still machine cfg} (values : gmap nat Z) (h0 : hw).
Context (Hh0 : settled cfg values h0).

(** Every step is performed. *)
Fixpoint succeeds (l : list (nat * step)) (sa : samples) : Prop :=
  match l with
  | [] => True
  | ta :: l => exists sa', outcome h0 (perform ta.2 sa) = Ok sa' /\ pure_step h0 sa ta = sa' /\ succeeds l sa'
  end.

Lemma pure_step_failed sa ta : sa_failed sa ⊆ sa_failed (pure_step h0 sa ta).
Proof.
  unfold pure_step. case_decide; [done|]. destruct (outcome h0 _) as [sa'|] eqn:E; [by rewrite (perform_keeps_failed h0 _ _ _ E)|]. cbn. apply union_subseteq_r.
Qed.

Lemma run_failed l sa : sa_failed sa ⊆ sa_failed (foldl (pure_step h0) sa l).
Proof. revert sa. induction l as [|ta l IH]; intros sa; [done|]. cbn. etrans; [apply pure_step_failed|apply IH]. Qed.

Lemma no_failure_succeeds l sa : sa_failed (foldl (pure_step h0) sa l) = ∅ -> succeeds l sa.
Proof.
  revert sa. induction l as [|ta l IH]; intros sa H; [done|]. cbn [foldl] in H.
  assert (Hnone : forall x, x ∉ sa_failed (pure_step h0 sa ta)).
  { intros x Hx. apply (run_failed l) in Hx. rewrite H in Hx. by apply not_elem_of_empty in Hx. }
  assert (Hta : ta.1 ∉ sa_failed sa) by (intros Hx; by apply (Hnone ta.1), pure_step_failed).
  destruct (outcome h0 (perform ta.2 sa)) as [sa'|e] eqn:E.
  - exists sa'. assert (Hp : pure_step h0 sa ta = sa') by (unfold pure_step; by rewrite decide_False, E).
    split_and!; [done|done|]. apply IH. by rewrite <- Hp.
  - exfalso. apply (Hnone ta.1). unfold pure_step. rewrite decide_False, E by done. cbn. by apply elem_of_union_l, elem_of_singleton.
Qed.

Context {X : Type} (G : samples -> option X) (sel : step -> option (X -> M X)).

Definition run_readings (fs : list (X -> M X)) (x : X) : res X :=
  foldl (fun r f => match r with Ok x => outcome h0 (f x) | Throw e => Throw e end) (Ok x) fs.

Lemma projection l sa x :
  (forall a sa sa', sel a = None -> outcome h0 (perform a sa) = Ok sa' -> G sa' = G sa) ->
  (forall a f sa sa', sel a = Some f -> outcome h0 (perform a sa) = Ok sa' -> exists x x', G sa = Some x /\ outcome h0 (f x) = Ok x' /\ G sa' = Some x') ->
  succeeds l sa -> G sa = Some x ->
  exists x', run_readings (omap (fun ta => sel ta.2) l) x = Ok x' /\ G (foldl (pure_step h0) sa l) = Some x'.
Proof.
  intros Hskip Hsel. revert sa x. induction l as [|ta l IH]; intros sa x Hl Hx; [by exists x|].
  destruct Hl as (sa' & E & Hp & Hl). cbn [foldl omap list_omap]. rewrite Hp. destruct (sel ta.2) as [f|] eqn:Ef.
  - destruct (Hsel _ _ _ _ Ef E) as (y & x' & Hy & Hf & Hx'). rewrite Hx in Hy. injection Hy as <-.
    destruct (IH sa' x' Hl Hx') as (x'' & H1 & H2). exists x''. split; [|done]. unfold run_readings in *. cbn [foldl]. by rewrite Hf.
  - apply IH; [done|]. by rewrite (Hskip _ _ _ Ef E).
Qed.

End Projection.

(** * What the steps make of each part *)

Definition sel_core (i : nat) (a : step) : option (BasicCounterState -> M BasicCounterState) :=
  match a with OnCore j f => if decide (j = i) then Some f else None | _ => None end.
Definition sel_basic (s : nat) (a : step) : option (BasicCounterState -> M BasicCounterState) :=
  match a with OnSocketBasic t f => if decide (t = s) then Some f else None | _ => None end.
Definition sel_uncore (s : nat) (a : step) : option (UncoreCounterState -> M UncoreCounterState) :=
  match a with OnSocketUncore t f => if decide (t = s) then Some f else None | _ => None end.
Definition sel_system (a : step) : option (SystemCounterState -> M SystemCounterState) :=
  match a with OnSystem f => Some f | _ => None end.

Section Parts.
Context {machine : Machine} (cfg : port -> option Z) `{Hstill : !Still machine cfg} (values : gmap nat Z) (h0 : hw).
Context (Hh0 : settled cfg values h0).

Lemma perform_Ok a sa sa' : outcome h0 (perform a sa) = Ok sa' ->
  exists x x', get_part a sa = Some x /\ outcome h0 (run_part a x) = Ok x' /\ sa' = put_part a x' sa.
Proof.
  rewrite perform_part. destruct (get_part a sa) as [x|]; [|done]. destruct (outcome h0 (run_part a x)) as [x'|] eqn:E; [|done].
  intros [= <-]. by exists x, x'.
Qed.

Lemma projected_core l sa i b : succeeds h0 l sa -> sa_cores sa !! i = Some b ->
  exists b', run_readings h0 (omap (fun ta => sel_core i ta.2) l) b = Ok b' /\ sa_cores (foldl (pure_step h0) sa l) !! i = Some b'.
Proof.
  apply (projection h0 (fun sa => sa_cores sa !! i) (sel_core i)).
  - intros a s s' Hs H%perform_Ok. destruct H as (x & x' & H1 & H2 & ->). destruct a as [n f|n f|n f|f]; cbn in *; try done.
    case_decide; [done|]. by rewrite list_lookup_insert_ne.
  - intros a f s s' Hs H%perform_Ok. destruct H as (x & x' & H1 & H2 & ->). destruct a as [n g|n g|n g|g]; cbn in *; try done.
    case_decide; [|done]. injection Hs as ->. subst n. exists x, x'. split_and!; [done|done|].
    by rewrite list_lookup_insert_eq by (by eapply lookup_lt_Some).
Qed.

Lemma projected_basic l sa s b : succeeds h0 l sa -> basic <$> sa_sockets sa !! s = Some b ->
  exists b', run_readings h0 (omap (fun ta => sel_basic s ta.2) l) b = Ok b' /\ basic <$> sa_sockets (foldl (pure_step h0) sa l) !! s = Some b'.
Proof.
  apply (projection h0 (fun sa => basic <$> sa_sockets sa !! s) (sel_basic s)).
  - intros a t t' Hs H%perform_Ok. destruct H as (x & x' & H1 & H2 & ->). destruct a as [n f|n f|n f|f]; cbn in *; try done.
    + case_decide; [done|]. apply (alter_other (fun y => Socket x' (uncore y)) basic). by intros ->.
    + by apply (alter_other (fun y => Socket (basic y) x') basic).
  - intros a f t t' Hs H%perform_Ok. destruct H as (x & x' & H1 & H2 & ->). destruct a as [n g|n g|n g|g]; cbn in *; try done.
    case_decide; [|done]. injection Hs as ->. subst n. exists x, x'. split_and!; [done|done|].
    rewrite list_lookup_alter_eq. destruct (sa_sockets t !! s); done.
Qed.

Lemma projected_uncore l sa s u : succeeds h0 l sa -> uncore <$> sa_sockets sa !! s = Some u ->
  exists u', run_readings h0 (omap (fun ta => sel_uncore s ta.2) l) u = Ok u' /\ uncore <$> sa_sockets (foldl (pure_step h0) sa l) !! s = Some u'.
Proof.
  apply (projection h0 (fun sa => uncore <$> sa_sockets sa !! s) (sel_uncore s)).
  - intros a t t' Hs H%perform_Ok. destruct H as (x & x' & H1 & H2 & ->). destruct a as [n f|n f|n f|f]; cbn in *; try done.
    + by apply (alter_other (fun y => Socket x' (uncore y)) uncore).
    + case_decide; [done|]. apply (alter_other (fun y => Socket (basic y) x') uncore). by intros ->.
  - intros a f t t' Hs H%perform_Ok. destruct H as (x & x' & H1 & H2 & ->). destruct a as [n g|n g|n g|g]; cbn in *; try done.
    case_decide; [|done]. injection Hs as ->. subst n. exists x, x'. split_and!; [done|done|].
    rewrite list_lookup_alter_eq. destruct (sa_sockets t !! s); done.
Qed.

Lemma projected_system l sa : succeeds h0 l sa ->
  exists y', run_readings h0 (omap (fun ta => sel_system ta.2) l) (sa_system sa) = Ok y' /\ sa_system (foldl (pure_step h0) sa l) = y'.
Proof.
  intros Hl. destruct (projection h0 (fun sa => Some (sa_system sa)) sel_system l sa (sa_system sa)) as (y' & H1 & H2).
  - intros a t t' Hs H%perform_Ok. destruct H as (x & x' & H1 & H2 & ->). by destruct a.
  - intros a f t t' Hs H%perform_Ok. destruct H as (x & x' & H1 & H2 & ->). destruct a; cbn in *; try done.
    injection Hs as ->. injection H1 as <-. by eexists _, _.
  - done.
  - done.
  - exists y'. split; [done|]. by injection H2.
Qed.

Lemma run_sockets l sa : length (sa_sockets (foldl (pure_step h0) sa l)) = length (sa_sockets sa).
Proof.
  revert sa. induction l as [|ta l IH]; intros sa; [done|]. cbn. rewrite IH. unfold pure_step. case_decide; [done|].
  destruct (outcome h0 _) as [sa'|] eqn:E; [|done]. apply perform_Ok in E as (x & x' & _ & _ & ->).
  destruct (ta.2); cbn; rewrite ?length_alter; done.
Qed.

Lemma run_cores l sa : length (sa_cores (foldl (pure_step h0) sa l)) = length (sa_cores sa).
Proof.
  revert sa. induction l as [|ta l IH]; intros sa; [done|]. cbn. rewrite IH. unfold pure_step. case_decide; [done|].
  destruct (outcome h0 _) as [sa'|] eqn:E; [|done]. apply perform_Ok in E as (x & x' & _ & _ & ->).
  destruct (ta.2); cbn; rewrite ?length_insert; done.
Qed.

End Parts.

(** * The steps of each part among those of all threads *)

Lemma omap_concat {A B} (f : A -> option B) (ls : list (list A)) : omap f (concat ls) = concat (map (omap f) ls).
Proof. induction ls as [|l ls IH]; [done|]. cbn [concat map]. by rewrite omap_app, IH. Qed.

Lemma concat_nil {A} (f : nat -> list A) (l : list nat) : (forall j, j ∈ l -> f j = []) -> concat (map f l) = [].
Proof. induction l as [|j l IH]; intros Hf; [done|]. cbn. rewrite Hf by left. apply IH. intros k Hk. apply Hf. by right. Qed.

Lemma concat_single {A} (f : nat -> list A) (l : list nat) i : NoDup l -> i ∈ l -> (forall j, j ∈ l -> j <> i -> f j = []) -> concat (map f l) = f i.
Proof.
  induction l as [|j l IH]; intros Hnd Hi Hf; [by apply elem_of_nil in Hi|]. apply NoDup_cons in Hnd as [Hj Hnd]. cbn.
  destruct (decide (j = i)) as [->|Hne].
  - rewrite concat_nil, app_nil_r; [done|]. intros k Hk. apply Hf; [by right|]. by intros ->.
  - rewrite Hf by (done || left). apply elem_of_cons in Hi as [->|Hi]; [done|]. cbn. apply IH; [done|done|]. intros k Hk. apply Hf. by right.
Qed.

Section Selected.
Context (c : sampler).
Context {machine : Machine}.

Let n : nat := length (sm_topology c).

Definition selected {X} (sel : step -> option (X -> M X)) (core : nat) : list (X -> M X) :=
  (if isCoreOnline (sm_topology c) core then omap (fun ta => sel ta.2) (core_task c true core) else []) ++
  concat (map (fun s => omap (fun ta => sel ta.2) (socket_task c s)) (filter (fun s => task_core c s = core) (seq 0 (sm_sockets c)))).

Lemma omap_threads {X} (sel : step -> option (X -> M X)) :
  omap (fun ta => sel ta.2) (concat (threads c true)) =
  omap (fun ta => sel ta.2) (caller_steps c) ++ concat (map (selected sel) (seq 0 n)).
Proof.
  unfold threads. cbn [concat]. rewrite omap_app, omap_concat, map_map. f_equal. f_equal. apply map_ext. intros core.
  rewrite omap_app. unfold selected. f_equal; [by case_match|]. by rewrite omap_concat, map_map.
Qed.

Lemma core_steps i : (i < n)%nat -> omap (fun ta => sel_core i ta.2) (concat (threads c true)) =
  if isCoreOnline (sm_topology c) i then [read_core c (Z.of_nat i); read_raw_MSRs (Some (Z.of_nat i)) (sm_threadMSRs c)] else [].
Proof.
  intros Hi. rewrite omap_threads. cbn [caller_steps map omap list_omap sel_core snd app].
  assert (Hsock : forall core, concat (map (fun s => omap (fun ta => sel_core i ta.2) (socket_task c s)) (filter (fun s => task_core c s = core) (seq 0 (sm_sockets c)))) = []).
  { intros core. by apply concat_nil. }
  rewrite (concat_single _ _ i); [|apply NoDup_seq|apply elem_of_seq; lia|].
  - unfold selected. rewrite Hsock, app_nil_r. destruct (isCoreOnline _ i); [|done]. cbn. by rewrite !decide_True by done.
  - intros j _ Hj. unfold selected. rewrite Hsock, app_nil_r. destruct (isCoreOnline _ j); [|done]. cbn. by rewrite !decide_False by done.
Qed.

Lemma basic_steps s : (s < sm_sockets c)%nat -> (task_core c s < n)%nat ->
  omap (fun ta => sel_basic s ta.2) (concat (threads c true)) =
  [readPackageThermalHeadroom c s; read_raw_MSRs (Some (Z.of_nat (task_core c s))) (sm_packageMSRs c)].
Proof.
  intros Hs Ht. rewrite omap_threads. cbn [caller_steps map omap list_omap sel_basic snd app].
  assert (Hcore : forall core, omap (fun ta => sel_basic s ta.2) (core_task c true core) = []) by done.
  assert (Hsock : forall t, t <> s -> omap (fun ta => sel_basic s ta.2) (socket_task c t) = []).
  { intros t Hne. cbn. by rewrite !decide_False by done. }
  rewrite (concat_single _ _ (task_core c s)); [|apply NoDup_seq|apply elem_of_seq; lia|].
  - unfold selected. rewrite Hcore. replace (if isCoreOnline _ _ then [] else []) with (@nil (BasicCounterState -> M BasicCounterState)) by (by case_match).
    cbn [app]. rewrite (concat_single _ _ s); [cbn; by rewrite !decide_True by done|apply NoDup_filter, NoDup_seq|apply list_elem_of_filter; split; [done|apply elem_of_seq; lia]|].
    intros t _ Ht'. by apply Hsock.
  - intros j _ Hj. unfold selected. rewrite Hcore. replace (if isCoreOnline _ _ then [] else []) with (@nil (BasicCounterState -> M BasicCounterState)) by (by case_match).
    cbn [app]. apply concat_nil. intros t [Ht' _]%list_elem_of_filter. apply Hsock. congruence.
Qed.

(** The cores of a socket among some cores. *)
Definition cores_among (s : nat) (l : list nat) : list nat := filter (fun i => isCoreOnline (sm_topology c) i = true /\ core_socket c i = s) l.

Definition cstates_of (core : nat) : uncore_reading := readAndAggregatePackageCStateResidencies c (Some (Z.of_nat core)).

Lemma selected_uncore s j : (s < sm_sockets c)%nat ->
  selected (sel_uncore s) j = map cstates_of (cores_among s [j]) ++
    (if decide (task_core c s = j) then [readAndAggregateUncoreMCCounters c s; readAndAggregateEnergyCounters c s] else []).
Proof.
  intros Hs. unfold selected. f_equal.
  - unfold cores_among. rewrite filter_cons, filter_nil. destruct (isCoreOnline _ j).
    + cbn. destruct (decide (core_socket c j = s)) as [<-|Hne].
      * by rewrite (decide_True (P := true = true /\ _)) by done.
      * by rewrite (decide_False (P := true = true /\ _)) by tauto.
    + by rewrite decide_False by (by intros []).
  - assert (Hsock : forall t, t <> s -> omap (fun ta => sel_uncore s ta.2) (socket_task c t) = []).
    { intros t Hne. cbn. by rewrite !decide_False by done. }
    case_decide as Hj.
    + rewrite (concat_single _ _ s); [cbn; by rewrite !decide_True by done|apply NoDup_filter, NoDup_seq|apply list_elem_of_filter; split; [done|apply elem_of_seq; lia]|].
      intros t _ Ht. by apply Hsock.
    + apply concat_nil. intros t [Ht _]%list_elem_of_filter. apply Hsock. congruence.
Qed.

Lemma uncore_steps s : (s < sm_sockets c)%nat -> (task_core c s < n)%nat -> exists l1 l2,
  omap (fun ta => sel_uncore s ta.2) (concat (threads c true)) =
    map cstates_of l1 ++ [readAndAggregateUncoreMCCounters c s; readAndAggregateEnergyCounters c s] ++ map cstates_of l2 /\
  l1 ++ l2 = cores_among s (seq 0 n).
Proof.
  intros Hs Ht. rewrite omap_threads. cbn [caller_steps map omap list_omap sel_uncore snd app].
  assert (Hother : forall l, task_core c s ∉ l -> concat (map (selected (sel_uncore s)) l) = map cstates_of (cores_among s l)).
  { intros l. induction l as [|j l IH]; intros Hl; [done|]. apply not_elem_of_cons in Hl as [Hj Hl]. cbn [map concat].
    rewrite selected_uncore, decide_False, app_nil_r, IH by (done || congruence). rewrite <- map_app. f_equal.
    unfold cores_among. change (j :: l) with ([j] ++ l). by rewrite filter_app. }
  assert (Hseq : seq 0 n = seq 0 (task_core c s) ++ task_core c s :: seq (S (task_core c s)) (n - S (task_core c s))).
  { replace n with (task_core c s + (S (n - S (task_core c s))))%nat at 1 by lia. rewrite seq_app. done. }
  exists (cores_among s (seq 0 (task_core c s)) ++ cores_among s [task_core c s]), (cores_among s (seq (S (task_core c s)) (n - S (task_core c s)))).
  rewrite Hseq. split.
  - rewrite map_app, concat_app. cbn [map concat]. rewrite !Hother by (rewrite elem_of_seq; lia).
    rewrite selected_uncore, decide_True by done. rewrite map_app, <- !(assoc_L (++)). done.
  - unfold cores_among. rewrite <- !filter_app. f_equal. by rewrite <- (assoc_L (++)).
Qed.

End Selected.

(** * The values of the parts *)

Section Values.
Context {machine : Machine} (cfg : port -> option Z) `{Hstill : !Still machine cfg} (values : gmap nat Z) (h0 : hw).
Context (Hh0 : settled cfg values h0) (c : sampler).
Context (Hservers : undisturbed c).

#[local] Abbreviation outcome := (outcome h0).
#[local] Abbreviation run_readings := (run_readings h0).

Lemma steady_outcome_bind {A B} (m : M A) (f : A -> M B) : steady cfg values m -> (forall a, steady cfg values (f a)) ->
  outcome (m ≫= f) = match outcome m with Ok a => outcome (f a) | Throw e => Throw e end.
Proof.
  intros Hm Hf. destruct (steady_outcome cfg values h0 Hh0 m h0 Hm Hh0) as (h1 & E & H1 & _). unfold SamplingProofs.outcome at 1, mbind, M_bind.
  rewrite E. destruct (outcome m) as [a|e]; [|done]. destruct (steady_outcome cfg values h0 Hh0 (f a) h1 (Hf a) H1) as (h2 & -> & _). done.
Qed.

Lemma run_readings_app {X} (l l' : list (X -> M X)) x :
  run_readings (l ++ l') x = match run_readings l x with Ok y => run_readings l' y | Throw e => Throw e end.
Proof.
  unfold Aggregation.run_readings. rewrite foldl_app. destruct (foldl _ (Ok x) l) as [y|e]; [done|].
  induction l'; [done|]. cbn. done.
Qed.

(** The residencies of a processor: reading them cannot fail. *)
Definition cstates_value (handle : SafeMsrHandle) : list Z := match outcome (read_package_cstates c handle) with Ok l => l | Throw _ => [] end.

Lemma cstates_read handle : outcome (read_package_cstates c handle) = Ok (cstates_value handle).
Proof.
  unfold cstates_value. enough (H : exists l, outcome (read_package_cstates c handle) = Ok l) by (by destruct H as [l ->]).
  unfold SamplingProofs.outcome, read_package_cstates. generalize h0 as h. induction (sm_pkgCStateMsr c) as [|a l IH]; intros h; [by eexists|].
  cbn [mapM_]. unfold mbind at 1, M_bind at 1. assert (Hone : exists h' v, (if a =? 0 then mret 0 else msr_read handle a) h = (h', Ok v)).
  { case_match; [by eexists _, _|]. destruct handle; by eexists _, _. }
  destruct Hone as (h' & v & ->). unfold mbind, M_bind. destruct (IH h') as [vs E]. destruct (mapM_ l _ h') as [h'' r]. cbn in E. subst r. by eexists.
Qed.

Definition add_residencies (l : list nat) (u : UncoreCounterState) : UncoreCounterState :=
  foldl (fun u core => add_cstates (cstates_value (Some (Z.of_nat core))) u) u l.

Lemma run_cstates l u : run_readings (map (cstates_of c) l) u = Ok (add_residencies l u).
Proof.
  revert u. induction l as [|core l IH]; intros u; [done|]. cbn [map]. change (cstates_of c core :: ?x) with ([cstates_of c core] ++ x).
  etrans; [apply run_readings_app|]. unfold Aggregation.run_readings at 1. cbn [foldl]. unfold cstates_of at 1. rewrite outcome_cstates, cstates_read. apply IH.
Qed.

Lemma add_residencies_app l l' u : add_residencies (l ++ l') u = add_residencies l' (add_residencies l u).
Proof. unfold add_residencies. by rewrite foldl_app. Qed.

Lemma framed_residencies f l u : frames f -> outcome (f (add_residencies l u)) =
  match outcome (f u) with Ok u' => Ok (add_residencies l u') | Throw e => Throw e end.
Proof.
  intros Hf. revert u. induction l as [|core l IH]; intros u; [cbn; by destruct (outcome (f u))|]. cbn [add_residencies foldl].
  fold (add_residencies l (add_cstates (cstates_value (Some (Z.of_nat core))) u)). rewrite IH.
  assert (E : outcome (f (add_cstates (cstates_value (Some (Z.of_nat core))) u)) =
    match outcome (f u) with Ok u' => Ok (add_cstates (cstates_value (Some (Z.of_nat core))) u') | Throw e => Throw e end).
  { unfold SamplingProofs.outcome at 1. rewrite (agree_at (Hf _ u) h0). apply outcome_update. }
  rewrite E. by destruct (outcome (f u)).
Qed.

(** The uncore counters of a socket as a task reads them. *)
Definition socket_uncore (s : nat) : res UncoreCounterState :=
  run_readings [readAndAggregateUncoreMCCounters c s; readAndAggregateEnergyCounters c s] UncoreCounterState_init.

Lemma run_uncore l1 l2 s : run_readings (map (cstates_of c) l1 ++ [readAndAggregateUncoreMCCounters c s; readAndAggregateEnergyCounters c s] ++
    map (cstates_of c) l2) UncoreCounterState_init =
  match socket_uncore s with Ok u => Ok (add_residencies (l1 ++ l2) u) | Throw e => Throw e end.
Proof.
  etrans; [apply run_readings_app|]. rewrite run_cstates. etrans; [apply run_readings_app|].
  unfold socket_uncore, Aggregation.run_readings at 1 3. cbn [foldl].
  rewrite (framed_residencies _ l1 _ (frames_uncore c s)). destruct (outcome (readAndAggregateUncoreMCCounters c s UncoreCounterState_init)) as [u|e]; [|done].
  rewrite (framed_residencies _ l1 _ (frames_energy c s)). destruct (outcome (readAndAggregateEnergyCounters c s u)) as [v|e]; [|done].
  by rewrite run_cstates, add_residencies_app.
Qed.

Lemma same_residencies l u : same_uncore (add_residencies l u) u.
Proof.
  revert u. induction l as [|core l IH]; intros u; [done|]. cbn. unfold same_uncore in *. unfold add_residencies in IH. rewrite IH. apply same_add_cstates.
Qed.

(** What only changes single MSRs and the headroom. *)
Lemma run_core_MSRs handle configs b b' : outcome (read_raw_MSRs handle configs b) = Ok b' -> same_counts b' b.
Proof.
  unfold read_raw_MSRs. rewrite outcome_update. destruct (outcome (readMSRs handle configs (MSRValues b))); [|done]. by intros [= <-].
Qed.

Lemma run_headroom s b b' : outcome (readPackageThermalHeadroom c s b) = Ok b' -> same_counts b' b.
Proof.
  unfold readPackageThermalHeadroom. case_match; [rewrite outcome_update; destruct (outcome (msr_read _ _)); [|done]|]; by intros [= <-].
Qed.

End Values.

(** * The links do not depend on the counters of the system *)

Section Links.
Context {machine : Machine} (c : sampler).

Definition keeps_counters (f : SystemCounterState -> M SystemCounterState) : Prop := forall x, framed (set_counters x) f.

Lemma keeps_ret set : (forall x y, set (set_counters x y) = set_counters x (set y)) -> keeps_counters (fun y => mret (set y)).
Proof. intros Hs x. by apply framed_ret. Qed.

Lemma keeps_id : keeps_counters (fun y => mret y).
Proof. by apply (keeps_ret (fun y => y)). Qed.

Lemma keeps_bind {A} (m : M A) (k : A -> system_reading) : (forall a, keeps_counters (k a)) -> keeps_counters (fun y => a ← m; k a y).
Proof. intros Hk x. apply framed_bind. intros a. apply Hk. Qed.

Lemma keeps_then (f g : system_reading) : keeps_counters f -> keeps_counters g -> keeps_counters (fun y => y' ← f y; g y').
Proof. intros Hf Hg x. by apply framed_then. Qed.

Lemma keeps_if (b : bool) (f g : system_reading) : keeps_counters f -> keeps_counters g -> keeps_counters (fun y => if b then f y else g y).
Proof. by destruct b. Qed.

Lemma keeps_set s l v : keeps_counters (set_incoming s l v) /\ keeps_counters (set_outgoing s l v) /\ keeps_counters (set_TxL0 s l v).
Proof.
  split_and!; intros x y; constructor; intros h; unfold set_incoming, set_outgoing, set_TxL0, mbind, M_bind, mret, M_ret; cbn;
    (destruct (set2 s l v _ h) as [h' [z|e]]; done).
Qed.

Lemma keeps_links handle s set number l : (forall k v, keeps_counters (set s k v)) -> keeps_counters (read_links handle s set number l).
Proof.
  intros Hset. induction l as [|[link k] l IH]; [apply keeps_id|]. apply keeps_bind. intros v. by apply (keeps_then (set s link v)).
Qed.

Lemma keeps_beckton cores processed : keeps_counters (read_beckton c cores processed).
Proof.
  revert processed. induction cores as [|core cores IH]; intros processed; [apply keeps_id|]. cbn [read_beckton].
  destruct (isCoreOnline _ core); [|apply IH].
  apply (keeps_then (fun y => if bool_decide (sm_refCores c !! 0%nat = Some (Z.of_nat core))
    then v ← msr_read (Some (Z.of_nat core)) W_MSR_PMON_FIXED_CTR; mret (set_uncoreTSC v y) else mret y)).
  - case_bool_decide; [|apply keeps_id]. apply (keeps_bind (msr_read _ _) (fun v y => mret (set_uncoreTSC v y))). intros v. by apply keeps_ret.
  - case_bool_decide; [apply IH|]. apply keeps_then; [apply keeps_links; intros; apply keeps_set|].
    apply keeps_then; [apply keeps_links; intros; apply keeps_set|apply IH].
Qed.

Lemma keeps_ports s u ports : keeps_counters (read_ports c s u ports).
Proof.
  induction ports as [|port ports IH]; [apply keeps_id|]. cbn [read_ports].
  apply keeps_bind; intros flits. apply keeps_then; [apply keeps_set|].
  apply keeps_bind; intros out. apply keeps_then; [apply keeps_set|].
  apply keeps_bind; intros cycles. apply keeps_then; [apply keeps_set|apply IH].
Qed.

Lemma keeps_server_links s l : keeps_counters (read_server_links c s l).
Proof.
  revert s. induction l as [|u l IH]; intros s; [apply keeps_id|]. cbn [read_server_links]. apply keeps_bind; intros u'.
  apply keeps_then; [apply keeps_ports|]. apply (keeps_bind (unfreezeCounters _ u') (fun _ => read_server_links c (S s) l)). intros _. apply IH.
Qed.

Lemma keeps_qpi : keeps_counters (readQPICounters c).
Proof.
  unfold readQPICounters. apply keeps_if; [apply keeps_beckton|]. apply keeps_if; [|apply keeps_if; [apply keeps_server_links|apply keeps_id]].
  apply keeps_if; [|apply keeps_set]. apply keeps_bind; intros l0. apply keeps_bind; intros l1.
  do 3 (apply keeps_then; [apply keeps_set|]). apply keeps_set.
Qed.

Lemma counters_kept f x h h' y : keeps_counters f -> f x h = (h', Ok y) -> sy_counters y = sy_counters x.
Proof.
  intros Hf E. assert (Hx : set_counters (sy_counters x) x = x) by by destruct x.
  pose proof (agree_at (Hf (sy_counters x) x) h) as E'. rewrite Hx in E'. unfold mbind, M_bind in E'. rewrite E in E'.
  injection E' as E'. by rewrite E'.
Qed.

(** The links and the uncore clock. *)
Definition links (y : SystemCounterState) := (incomingQPIPackets y, outgoingQPIFlits y, TxL0Cycles y, uncoreTSC y).

End Links.

(** * What the sampling relies on of the topology *)

Record topology_ok (c : sampler) (r : SystemRoot) : Prop := TopologyOk {
  tree_built : r = tree_of (sm_sockets c) (all_threads (sm_sockets c) (sm_topology c));
  online_in_sockets : forall e, e ∈ sm_topology c -> in_sockets (sm_sockets c) e = entry_online e;
  socket_populated : forall s, (s < sm_sockets c)%nat -> exists i e, sm_topology c !! i = Some e /\ entry_online e = true /\ socket_id e = Z.of_nat s;
  task_core_present : forall s, (s < sm_sockets c)%nat -> (task_core c s < length (sm_topology c))%nat
}.

Lemma discovered_ok populate mx ps p c : machine_ok populate mx ps -> discoverSystemTopology populate mx ps = Ok (Some p) ->
  sm_topology c = topology p -> sm_sockets c = num_sockets p -> sm_refCores c = socketRefCore p -> topology_ok c (systemTopology p).
Proof.
  intros Hok Hp Ht Hn Hr. destruct (discover_unfold populate mx ps Hok) as (keys & phys & online & Hkeys & E). cbv zeta in *. rewrite Hp in E. clear Hp.
  assert (Hin : forall e, e ∈ renumbered populate mx ps keys -> in_sockets (length keys) e = entry_online e).
  { intros e He. by apply (renumbered_spec populate mx ps keys e Hok Hkeys). }
  destruct (decide (Exists (fun e => in_sockets (length keys) e = true /\ max_threads (renumbered populate mx ps keys) <= thread_id e)
    (renumbered populate mx ps keys))) as [Hex|Hno].
  { apply Exists_exists in Hex. by rewrite add_threads_refused in E by (done || by intros x ?%elem_of_nil). }
  rewrite add_threads_tree in E; [|by intros x ?%elem_of_nil|].
  2:{ intros e He Hi. apply Z.nle_gt. intros Hm. apply Hno, Exists_exists. eauto. }
  cbn [mbind res_bind app] in E. destruct (all_refCores _ _ _ _ Hok Hkeys) as [refs Hrefs]. unfold all_threads in Hrefs.
  change (fun i e => thread_of (length keys) (0 + i) e) with (thread_of (length keys)) in E. rewrite Hrefs in E.
  injection E as ->. cbn [topology num_sockets socketRefCore systemTopology] in *. constructor; rewrite ?Ht, ?Hn.
  - done.
  - exact Hin.
  - intros s Hs. by apply (renumbered_socket populate mx ps keys).
  - intros s Hs. destruct (reference_cores populate mx ps keys Hok Hkeys s Hs) as (i & e & H & Hl & _).
    unfold task_core. rewrite Hr, H, Z.max_l, Nat2Z.id by lia. by eapply lookup_lt_Some.
Qed.

Section Tree.
Context (c : sampler) (r : SystemRoot) (Htop : topology_ok c r).

Let t : list TopologyEntry := sm_topology c.
Let ns : nat := sm_sockets c.

Definition thread_at (i : nat) : HyperThread := thread_of ns i (nth i t TopologyEntry_init).

Lemma imap_nth {B} (f : nat -> TopologyEntry -> B) l : imap f l = map (fun i => f i (nth i l TopologyEntry_init)) (seq 0 (length l)).
Proof.
  apply list_eq. intros i. rewrite list_lookup_imap, list_lookup_fmap. destruct (decide (i < length l)%nat) as [Hi|Hi].
  - rewrite lookup_seq_lt by done. destruct (lookup_lt_is_Some_2 l i Hi) as [e He]. rewrite He. cbn. by rewrite (nth_lookup_Some _ _ _ _ He).
  - rewrite lookup_seq_ge, lookup_ge_None_2 by lia. done.
Qed.

Lemma all_threads_at : all_threads ns t = map thread_at (seq 0 (length t)).
Proof. apply imap_nth. Qed.

Lemma thread_at_online i : (i < length t)%nat -> ht_isOnline (thread_at i) = isCoreOnline t i.
Proof.
  intros Hi. destruct (lookup_lt_is_Some_2 t i Hi) as [e He]. unfold thread_at, isCoreOnline. rewrite (nth_lookup_Some _ _ _ _ He).
  unfold thread_of, ht_isOnline. cbn. rewrite (online_in_sockets c r Htop) by (by eapply list_elem_of_lookup_2). by destruct (entry_online e).
Qed.

Lemma filter_map_comm {A B} (f : A -> B) (P : B -> Prop) `{!forall x, Decision (P x)} l : filter P (map f l) = map f (filter (fun x => P (f x)) l).
Proof.
  induction l as [|x l IH]; [done|]. cbn [map]. rewrite !filter_cons, IH. by repeat case_decide.
Qed.

Lemma filter_ext_in {A} (P Q : A -> Prop) `{!forall x, Decision (P x)} `{!forall x, Decision (Q x)} (l : list A) :
  (forall x, x ∈ l -> P x <-> Q x) -> filter P l = filter Q l.
Proof.
  induction l as [|x l IH]; intros Hl; [done|]. rewrite !filter_cons, IH by (intros; apply Hl; by right).
  pose proof (Hl x ltac:(left)). repeat case_decide; tauto.
Qed.

(** The threads of a socket are its online processors. *)
Lemma socket_processors s : (s < ns)%nat -> threads_of_socket (all_threads ns t) s = map thread_at (cores_among c s (seq 0 (length t))).
Proof.
  intros Hs. unfold threads_of_socket. rewrite all_threads_at, filter_map_comm. f_equal. unfold cores_among. apply filter_ext_in.
  intros i Hi%elem_of_seq. destruct (lookup_lt_is_Some_2 t i ltac:(lia)) as [e He].
  unfold thread_at, isCoreOnline, core_socket. fold t. rewrite (nth_lookup_Some _ _ _ _ He). cbn.
  pose proof (online_in_sockets c r Htop e ltac:(by eapply list_elem_of_lookup_2)) as Ho. rewrite <- Ho. unfold in_sockets. fold ns.
  rewrite andb_true_iff, Z.leb_le, Z.ltb_lt. lia.
Qed.

Lemma cores_among_elem s i : i ∈ cores_among c s (seq 0 (length t)) <-> (i < length t)%nat /\ isCoreOnline t i = true /\ core_socket c i = s.
Proof. unfold cores_among. rewrite list_elem_of_filter, elem_of_seq. intuition lia. Qed.

Lemma tree_sockets : sockets r = map (fun s => SocketNode (Z.of_nat s) (cores_of (threads_of_socket (all_threads ns t) s))) (seq 0 ns).
Proof. by rewrite (tree_built c r Htop). Qed.

Lemma core_keys_head l k : forall ks : list (list Z),
  exists ks', foldl (fun ks h => if decide (ht_key h ∈ ks) then ks else ks ++ [ht_key h]) (k :: ks) l = k :: ks'.
Proof. induction l as [|h l IH]; intros ks; [by exists ks|]. cbn [foldl]. case_decide; [apply IH|]. cbn [app]. apply IH. Qed.

(** The first thread of the first core of a socket. *)
Lemma first_thread s : (s < ns)%nat -> exists i rest more, cores_of (threads_of_socket (all_threads ns t) s) = (thread_at i :: rest) :: more /\
  i ∈ cores_among c s (seq 0 (length t)).
Proof.
  intros Hs. rewrite socket_processors by done. destruct (socket_populated c r Htop s Hs) as (i & e & Hl & Ho & Es).
  assert (Hi : i ∈ cores_among c s (seq 0 (length t))).
  { apply cores_among_elem. unfold isCoreOnline, core_socket. fold t. rewrite (nth_lookup_Some _ _ _ _ Hl), Es. split_and!; [by eapply lookup_lt_Some|done|lia]. }
  destruct (cores_among c s (seq 0 (length t))) as [|j l]; [by apply elem_of_nil in Hi|]. clear Hi.
  exists j. unfold cores_of. cbn [map].
  assert (Hk : exists ks, core_keys (thread_at j :: map thread_at l) = ht_key (thread_at j) :: ks).
  { unfold core_keys. cbn [foldl]. rewrite decide_False by (by intros ?%elem_of_nil). apply core_keys_head. }
  destruct Hk as [ks ->]. cbn [map]. unfold threads_of_core at 1. rewrite filter_cons_True by done. do 2 eexists. split; [done|left].
Qed.

End Tree.

(** * The jobs *)

Section Jobs.
Context {machine : Machine} (cfg : port -> option Z) `{Hstill : !Still machine cfg} (values : gmap nat Z) (h0 : hw).
Context (Hh0 : settled cfg values h0) (c : sampler).
Context (Hservers : undisturbed c).

#[local] Abbreviation outcome := (outcome h0).

Lemma steady_core_job h : steady cfg values (core_job c h).
Proof. unfold core_job. case_match; [by apply steady_read_core, und_slots|by apply steady_ret]. Qed.

Lemma steady_uncore_job s : steady cfg values (uncore_job c s).
Proof.
  unfold uncore_job. destruct (cores s); [apply steady_throw|]. case_match; [|by apply steady_ret].
  apply steady_bind'; [apply steady_uncore; [done|by apply und_servers]|intros u]. apply steady_bind'; [by apply steady_energy|intros u'].
  destruct (ref_handle s); [by apply steady_cstates|apply steady_throw].
Qed.

Definition pure_job (f : futures) (j : sampling_job) : futures :=
  match j with
  | CoreJob h => Futures (<[osID h := outcome (core_job c h)]> (ccsFutures f)) (ucsFutures f)
  | UncoreJob s => Futures (ccsFutures f) (<[logicalID s := outcome (uncore_job c s)]> (ucsFutures f))
  end.

Lemma run_jobs_pure l f h : settled cfg values h -> exists h', run_sampling_jobs c l f h = (h', Ok (foldl pure_job f l)) /\ settled cfg values h'.
Proof.
  revert f h. induction l as [|j l IH]; intros f h Hh; [by exists h|]. cbn [run_sampling_jobs foldl].
  assert (Hj : exists h', run_sampling_job c j f h = (h', Ok (pure_job f j)) /\ settled cfg values h').
  { destruct j as [x|s]; cbn [run_sampling_job pure_job]; unfold mbind, M_bind, attempt.
    - destruct (steady_outcome cfg values h0 Hh0 _ h (steady_core_job x) Hh) as (h' & -> & H' & _). by eexists.
    - destruct (steady_outcome cfg values h0 Hh0 _ h (steady_uncore_job s) Hh) as (h' & -> & H' & _). by eexists. }
  destruct Hj as (h1 & E & H1). unfold mbind, M_bind. rewrite E. apply (IH (pure_job f j) h1 H1).
Qed.

Lemma core_future l f h : (forall y, CoreJob y ∈ l -> osID y = osID h -> y = h) ->
  CoreJob h ∈ l \/ ccsFutures f !! osID h = Some (outcome (core_job c h)) ->
  ccsFutures (foldl pure_job f l) !! osID h = Some (outcome (core_job c h)).
Proof.
  revert f. induction l as [|j l IH]; intros f Hu Hf; [by destruct Hf as [?%elem_of_nil|]|]. cbn [foldl].
  apply IH; [intros y Hy; apply Hu; by right|]. destruct j as [y|s]; cbn [pure_job ccsFutures].
  - destruct (decide (osID y = osID h)) as [Ey|Hne].
    + right. rewrite (Hu y ltac:(left) Ey). apply lookup_insert_eq.
    + rewrite lookup_insert_ne by done. destruct Hf as [[[= ->]|]%elem_of_cons|]; [done|by left|by right].
  - destruct Hf as [[|]%elem_of_cons|]; [done|by left|by right].
Qed.

Lemma uncore_future l f s : (forall y, UncoreJob y ∈ l -> logicalID y = logicalID s -> y = s) ->
  UncoreJob s ∈ l \/ ucsFutures f !! logicalID s = Some (outcome (uncore_job c s)) ->
  ucsFutures (foldl pure_job f l) !! logicalID s = Some (outcome (uncore_job c s)).
Proof.
  revert f. induction l as [|j l IH]; intros f Hu Hf; [by destruct Hf as [?%elem_of_nil|]|]. cbn [foldl].
  apply IH; [intros y Hy; apply Hu; by right|]. destruct j as [h|y]; cbn [pure_job ucsFutures].
  - destruct Hf as [[|]%elem_of_cons|]; [done|by left|by right].
  - destruct (decide (logicalID y = logicalID s)) as [Ey|Hne].
    + right. rewrite (Hu y ltac:(left) Ey). apply lookup_insert_eq.
    + rewrite lookup_insert_ne by done. destruct Hf as [[[= ->]|]%elem_of_cons|]; [done|by left|by right].
Qed.

(** Waiting for the futures in turn. *)
Lemma futures_got {A} (g : nat -> option (res A)) l h h' (ys : list A) : mapM_ l (fun i => future_get (g i)) h = (h', Ok ys) ->
  h' = h /\ Forall2 (fun i y => g i = Some (Ok y)) l ys.
Proof.
  revert ys. induction l as [|i l IH]; intros ys E; cbn in E.
  - injection E as -> <-. split; [done|constructor].
  - unfold mbind, M_bind in E. destruct (g i) as [[y|e]|] eqn:Ei; cbn in E; [|done|done].
    destruct (mapM_ l _ h) as [h1 [zs|e]] eqn:E1; [|done]. injection E as -> <-.
    destruct (IH zs) as [-> H]; [done|]. split; [done|]. by constructor.
Qed.

Lemma uncore_got f k socs y h h' a : add_uncore f k socs y h = (h', Ok a) -> h' = h /\ exists us,
  Forall2 (fun i u => f !! Z.of_nat i = Some (Ok u)) (seq k (length socs)) us /\
  a.1 = zip_with (fun s u => Socket (basic s) u) socs us /\ a.2 = Socket (basic y) (foldl uncore_add (uncore y) us).
Proof.
  revert k y a. induction socs as [|s socs IH]; intros k y a E; cbn in E.
  - injection E as -> <-. split; [done|]. exists []. split_and!; [constructor|done|]. by destruct y.
  - unfold mbind, M_bind in E. destruct (f !! Z.of_nat k) as [[u|e]|] eqn:Ek; cbn in E; [|done|done].
    destruct (add_uncore f (S k) socs _ h) as [h1 [b|e]] eqn:E1; [|done]. injection E as -> <-.
    destruct (IH _ _ _ E1) as (-> & us & H1 & H2 & H3). split; [done|]. exists (u :: us). cbn [fst snd length seq foldl zip_with].
    split_and!; [by constructor|by rewrite H2|by rewrite H3].
Qed.

End Jobs.

(** * Sums *)

Lemma sum_threads {H} (g : H -> BasicCounterState) l x :
  foldl (fun x h => socket_add_core x (g h)) x l = Socket (foldl basic_add (basic x) (map g l)) (uncore x).
Proof. revert x. induction l as [|h l IH]; intros x; [by destruct x|]. cbn. by rewrite IH. Qed.

Lemma sum_sockets l x : foldl system_add_socket x l = Socket (foldl basic_add (basic x) (map basic l)) (foldl uncore_add (uncore x) (map uncore l)).
Proof. revert x. induction l as [|s l IH]; intros x; [by destruct x|]. cbn. by rewrite IH. Qed.

Lemma same_uncore_sum l l' s s' : same_uncore s s' -> Forall2 same_uncore l l' -> same_uncore (foldl uncore_add s l) (foldl uncore_add s' l').
Proof. intros Hs H. revert s s' Hs. induction H; intros; cbn; [done|]. apply IHForall2. by apply same_uncore_add. Qed.

Lemma sum_of_nothing k : foldl uncore_add UncoreCounterState_init (replicate k UncoreCounterState_init) = UncoreCounterState_init.
Proof. induction k as [|k IH]; [done|]. cbn [replicate foldl]. exact IH. Qed.

(** Changes of elements at different places. *)
Lemma foldl_alter {X H} (g : H -> X -> X) (key : H -> nat) l (xs : list X) s :
  foldl (fun xs h => alter (g h) (key h) xs) xs l !! s = (fun x => foldl (fun x h => g h x) x (filter (fun h => key h = s) l)) <$> xs !! s.
Proof.
  revert xs. induction l as [|h l IH]; intros xs; [cbn; by destruct (xs !! s)|]. cbn [foldl]. rewrite IH, filter_cons.
  case_decide as Hk.
  - subst s. rewrite list_lookup_alter_eq. by destruct (xs !! key h).
  - by rewrite list_lookup_alter_ne.
Qed.

Lemma length_foldl_alter {X H} (g : H -> X -> X) (key : H -> nat) l (xs : list X) : length (foldl (fun xs h => alter (g h) (key h) xs) xs l) = length xs.
Proof. revert xs. induction l as [|h l IH]; intros xs; [done|]. cbn [foldl]. by rewrite IH, length_alter. Qed.

Section Sums.
Context (ccs : list BasicCounterState) (threads_of : nat -> list core_node).

Let node (s : nat) : socket_node := SocketNode (Z.of_nat s) (threads_of s).
Let core_state (h : HyperThread) : BasicCounterState := nth (Z.to_nat (osID h)) ccs BasicCounterState_init.

Definition socket_sum (s : nat) : SocketCounterState :=
  Socket (foldl basic_add BasicCounterState_init (map core_state (socket_threads (node s)))) UncoreCounterState_init.

Lemma add_threads_lookup s socs k : add_threads_of ccs (node s) socs !! k =
  if decide (k = s) then (fun x => Socket (foldl basic_add (basic x) (map core_state (socket_threads (node s)))) (uncore x)) <$> socs !! k else socs !! k.
Proof.
  unfold add_threads_of. rewrite (foldl_alter (fun h x => socket_add_core x (core_state h)) (fun _ => Z.to_nat (logicalID (node s)))).
  cbn [logicalID node]. rewrite Nat2Z.id. case_decide as Hk.
  - subst k. rewrite (filter_all (fun _ : HyperThread => s = s)) by done. destruct (socs !! s); [|done]. cbn. by rewrite sum_threads.
  - rewrite (filter_none (fun _ : HyperThread => s = k)) by (intros; congruence). by destruct (socs !! k).
Qed.

Lemma add_sockets_spec m k socs y : (forall s, (k <= s < k + m)%nat -> socs !! s = Some SocketCounterState_init) ->
  (forall s, (add_sockets ccs (map node (seq k m)) socs y).1 !! s =
     if decide (k <= s < k + m)%nat then Some (socket_sum s) else socs !! s) /\
  (add_sockets ccs (map node (seq k m)) socs y).2 = foldl system_add_socket y (map socket_sum (seq k m)).
Proof.
  revert k socs y. induction m as [|m IH]; intros k socs y Hs.
  - split; [intros s; by rewrite decide_False by lia|done].
  - cbn [seq map add_sockets foldl].
    destruct (IH (S k) (add_threads_of ccs (node k) socs)
      (system_add_socket y (nth (Z.to_nat (logicalID (node k))) (add_threads_of ccs (node k) socs) SocketCounterState_init))) as [H1 H2].
    { intros s Hlt. rewrite add_threads_lookup, decide_False by lia. apply Hs. lia. }
    assert (Hk : add_threads_of ccs (node k) socs !! k = Some (socket_sum k)).
    { rewrite add_threads_lookup, decide_True, Hs by (done || lia). done. }
    split.
    + intros s. rewrite H1. destruct (decide (k = s)) as [<-|Hne].
      * by rewrite decide_False, Hk, decide_True by lia.
      * repeat case_decide; try lia; try done. by rewrite add_threads_lookup, decide_False by done.
    + rewrite H2. cbn [logicalID node]. rewrite Nat2Z.id. by rewrite (nth_lookup_Some _ _ _ _ Hk).
Qed.

Lemma add_sockets_all m : add_sockets ccs (map node (seq 0 m)) (replicate m SocketCounterState_init) SocketCounterState_init =
  (map socket_sum (seq 0 m), Socket (foldl basic_add BasicCounterState_init (map (fun s => basic (socket_sum s)) (seq 0 m))) UncoreCounterState_init).
Proof.
  destruct (add_sockets_spec m 0 (replicate m SocketCounterState_init) SocketCounterState_init) as [H1 H2].
  { intros s Hs. apply lookup_replicate. split; [done|lia]. }
  destruct (add_sockets _ _ _ _) as [socs y]. cbn [fst snd] in *. f_equal.
  - apply list_eq. intros s. rewrite H1, list_lookup_fmap. case_decide as Hs.
    + by rewrite lookup_seq_lt by lia.
    + rewrite lookup_seq_ge by lia. apply lookup_replicate_None. lia.
  - rewrite H2, sum_sockets, !map_map. cbn [basic uncore SocketCounterState_init]. f_equal.
    etrans; [|apply (sum_of_nothing m)]. f_equal. apply list_eq. intros s. rewrite list_lookup_fmap.
    destruct (decide (s < m)%nat); [rewrite lookup_seq_lt by lia|rewrite lookup_seq_ge by lia]; symmetry; [apply lookup_replicate|apply lookup_replicate_None]; (done || lia).
Qed.

End Sums.

(** * The two samples *)

Section Samples.
Context {machine : Machine} (cfg : port -> option Z) `{Hstill : !Still machine cfg} (values : gmap nat Z) (h0 : hw).
Context (Hh0 : settled cfg values h0) (c : sampler) (r : SystemRoot).
Context (Hservers : undisturbed c) (Htop : topology_ok c r).

#[local] Abbreviation outcome := (outcome h0).
Let n : nat := length (sm_topology c).
Let ns : nat := sm_sockets c.

Lemma sampled_core sa i : (i < n)%nat -> succeeds h0 (concat (threads c true)) (samples_init c) ->
  sa = foldl (pure_step h0) (samples_init c) (concat (threads c true)) ->
  exists b b', sa_cores sa !! i = Some b /\ outcome (core_job c (thread_at c i)) = Ok b' /\ same_counts b' b.
Proof.
  intros Hi Hl ->. destruct (projected_core h0 _ (samples_init c) i BasicCounterState_init Hl) as (b & Hrun & Hb).
  { cbn. apply lookup_replicate. by split. }
  exists b. rewrite core_steps in Hrun by done. unfold core_job. rewrite (thread_at_online c r Htop i Hi).
  destruct (isCoreOnline _ i).
  - unfold run_readings in Hrun. cbn [foldl] in Hrun. cbn [osID thread_at thread_of].
    destruct (outcome (read_core c (Z.of_nat i) BasicCounterState_init)) as [b'|e]; [|done].
    exists b'. split_and!; [done|done|]. symmetry. by apply (run_core_MSRs h0 (Some (Z.of_nat i)) (sm_threadMSRs c)).
  - injection Hrun as <-. by exists BasicCounterState_init.
Qed.

Lemma sampled_socket sa s : (s < ns)%nat -> succeeds h0 (concat (threads c true)) (samples_init c) ->
  sa = foldl (pure_step h0) (samples_init c) (concat (threads c true)) ->
  exists x u, sa_sockets sa !! s = Some x /\ same_counts (basic x) BasicCounterState_init /\
    socket_uncore h0 c s = Ok u /\ uncore x = add_residencies h0 c (cores_among c s (seq 0 n)) u.
Proof.
  intros Hs Hl Hsa. pose proof (task_core_present c r Htop s Hs) as Ht.
  assert (Hinit : sa_sockets (samples_init c) !! s = Some SocketCounterState_init) by (cbn; apply lookup_replicate; by split).
  destruct (projected_basic h0 _ (samples_init c) s BasicCounterState_init Hl) as (b & Hrun & Hb); [by rewrite Hinit|].
  destruct (projected_uncore h0 _ (samples_init c) s UncoreCounterState_init Hl) as (v & Hrun' & Hv); [by rewrite Hinit|].
  rewrite <- Hsa in Hb, Hv. destruct (sa_sockets sa !! s) as [x|]; [|done]. injection Hb as Hb. injection Hv as Hv. exists x.
  rewrite basic_steps in Hrun by done. destruct (uncore_steps c s Hs Ht) as (l1 & l2 & El & Hl12). rewrite El in Hrun'.
  rewrite run_uncore in Hrun'. destruct (socket_uncore h0 c s) as [u|e]; [|done]. injection Hrun' as Hrun'.
  exists u. split_and!; [done| |done|by rewrite Hv, <- Hrun', Hl12].
  unfold run_readings in Hrun. cbn [foldl] in Hrun. destruct (outcome (readPackageThermalHeadroom c s BasicCounterState_init)) as [b'|e] eqn:E; [|done].
  rewrite Hb. etrans; [by eapply (run_core_MSRs h0)|]. by eapply (run_headroom h0).
Qed.

Lemma sampled_links sa : succeeds h0 (concat (threads c true)) (samples_init c) ->
  sa = foldl (pure_step h0) (samples_init c) (concat (threads c true)) ->
  exists y, outcome (readQPICounters c (SystemCounterState_init c)) = Ok y /\ links (sa_system sa) = links y /\
    sy_counters (sa_system sa) = SocketCounterState_init.
Proof.
  intros Hl ->. destruct (projected_system h0 _ (samples_init c) Hl) as (y' & Hrun & ->). rewrite omap_threads in Hrun.
  rewrite (concat_nil (selected c sel_system)), app_nil_r in Hrun.
  2:{ intros j _. unfold selected. rewrite concat_nil by done. by destruct (isCoreOnline _ j). }
  cbn [caller_steps map omap list_omap sel_system snd] in Hrun. unfold run_readings in Hrun. cbn [foldl sa_system samples_init] in Hrun.
  destruct (outcome (readQPICounters c (SystemCounterState_init c))) as [y|e] eqn:E; [|done]. exists y. split; [done|].
  assert (Hy : sy_counters y = SocketCounterState_init).
  { unfold SamplingProofs.outcome in E. destruct (readQPICounters c _ h0) as [h1 o] eqn:Eq. cbn in E. subst o.
    by rewrite (counters_kept _ _ _ _ _ (keeps_qpi c) Eq). }
  assert (Hset : forall (m : M (gmap (list Z) (list Z))) (set : gmap (list Z) (list Z) -> SystemCounterState -> SystemCounterState) x x',
    (forall v z, links (set v z) = links z /\ sy_counters (set v z) = sy_counters z) ->
    outcome (v ← m; mret (set v x)) = Ok x' -> links x' = links x /\ sy_counters x' = sy_counters x).
  { intros m set x x' Hset Ho. unfold SamplingProofs.outcome, mbind, M_bind in Ho. destruct (m h0) as [h1 [v|e]]; [|done]. injection Ho as <-. apply Hset. }
  destruct (outcome (read_pcicfg_values c y)) as [y1|e] eqn:E1; [|done].
  destruct (outcome (read_mmio_values c y1)) as [y2|e] eqn:E2; [|done].
  destruct (outcome (read_pmt_values c y2)) as [y3|e] eqn:E3; [|done].
  apply (Hset _ (fun v z => set_values (TPMIValues z) v (MMIOValues z) (PMTValues z) z)) in E1 as [L1 C1]; [|done].
  apply (Hset _ (fun v z => set_values (TPMIValues z) (PCICFGValues z) v (PMTValues z) z)) in E2 as [L2 C2]; [|done].
  apply (Hset _ (fun v z => set_values (TPMIValues z) (PCICFGValues z) (MMIOValues z) v z)) in E3 as [L3 C3]; [|done].
  apply (Hset _ (fun v z => set_values v (PCICFGValues z) (MMIOValues z) (PMTValues z) z)) in Hrun as [L4 C4]; [|done].
  split; congruence.
Qed.

(** The processors of a socket in the order of the tree. *)
Definition tree_processors (s : nat) : list nat := map (fun h => Z.to_nat (osID h)) (concat (cores_of (threads_of_socket (all_threads ns (sm_topology c)) s))).

Lemma tree_processors_perm s : (s < ns)%nat -> tree_processors s ≡ₚ cores_among c s (seq 0 n).
Proof.
  intros Hs. unfold tree_processors, ns. rewrite cores_of_perm, (socket_processors c r Htop s Hs), map_map. apply reflexive_eq.
  etrans; [|apply map_id]. apply map_ext. intros i. cbn. apply Nat2Z.id.
Qed.

Lemma job_of_tree h : CoreJob h ∈ dispatched r -> h ∈ all_threads ns (sm_topology c).
Proof.
  intros Hh. assert (Hin : h ∈ tree_threads r ++ offlinedThreadsAtStart r).
  { unfold dispatched in Hh. apply elem_of_app in Hh as [Hh|Hh]; apply elem_of_app; [left|right].
    - apply list_elem_of_In, in_concat in Hh as (l & Hl & Hin). apply list_elem_of_In, list_elem_of_fmap in Hl as (s & -> & Hs).
      unfold socket_jobs in Hin. apply list_elem_of_In, elem_of_app in Hin as [Hin|Hin]; [|by apply list_elem_of_singleton in Hin].
      apply list_elem_of_fmap in Hin as (x & [= ->] & Hx). unfold tree_threads. apply list_elem_of_In, in_concat. exists (socket_threads s).
      split; [by apply list_elem_of_In, list_elem_of_fmap_2|by apply list_elem_of_In].
    - by apply list_elem_of_fmap in Hh as (x & [= ->] & Hx). }
  rewrite (tree_built c r Htop) in Hin. revert Hin. apply elem_of_Permutation_proper. symmetry. apply tree_perm.
  intros x Hx. unfold all_threads in Hx. apply elem_of_lookup_imap in Hx as (i & e & -> & _). cbn. by destruct (in_sockets _ e).
Qed.

Lemma tree_job i : (i < n)%nat -> CoreJob (thread_at c i) ∈ dispatched r.
Proof.
  intros Hi. assert (Hin : thread_at c i ∈ tree_threads r ++ offlinedThreadsAtStart r).
  { rewrite (tree_built c r Htop). eapply elem_of_Permutation_proper.
    - apply tree_perm. intros x Hx. unfold all_threads in Hx. apply elem_of_lookup_imap in Hx as (j & e & -> & _). cbn. by destruct (in_sockets _ e).
    - rewrite all_threads_at. apply list_elem_of_fmap_2, elem_of_seq. fold n. lia. }
  unfold dispatched. apply elem_of_app in Hin as [Hin|Hin]; apply elem_of_app; [left|right; by apply list_elem_of_fmap_2].
  unfold tree_threads in Hin. apply list_elem_of_In, in_concat in Hin as (l & Hl & Hh). apply list_elem_of_In, list_elem_of_fmap in Hl as (s & -> & Hs).
  apply list_elem_of_In, in_concat. exists (socket_jobs s). split; [by apply list_elem_of_In, list_elem_of_fmap_2|].
  apply list_elem_of_In, elem_of_app. left. by apply list_elem_of_fmap_2, list_elem_of_In.
Qed.

Lemma thread_at_unique h h' : h ∈ all_threads ns (sm_topology c) -> h' ∈ all_threads ns (sm_topology c) -> osID h = osID h' -> h = h'.
Proof.
  unfold all_threads. rewrite !elem_of_lookup_imap. intros (i & e & -> & He) (j & e' & -> & He'). cbn. intros E.
  assert (i = j) as -> by lia. rewrite He in He'. by injection He' as ->.
Qed.

Lemma thread_at_in i : (i < n)%nat -> thread_at c i ∈ all_threads ns (sm_topology c).
Proof. intros Hi. unfold ns. rewrite all_threads_at. apply list_elem_of_fmap_2, elem_of_seq. fold n. lia. Qed.

Definition tree_socket (s : nat) : socket_node := SocketNode (Z.of_nat s) (cores_of (threads_of_socket (all_threads ns (sm_topology c)) s)).

Lemma uncore_job_elem x : UncoreJob x ∈ dispatched r <-> exists s, (s < ns)%nat /\ x = tree_socket s.
Proof.
  unfold dispatched. rewrite elem_of_app, (tree_sockets c r Htop). split.
  - intros [Hx|Hx]; [|by apply list_elem_of_fmap in Hx as (? & ? & _)].
    apply list_elem_of_In, in_concat in Hx as (l & Hl & Hx). apply list_elem_of_In, list_elem_of_fmap in Hl as (k & -> & Hk).
    apply list_elem_of_In, elem_of_app in Hx as [Hx|Hx]; [by apply list_elem_of_fmap in Hx as (? & ? & _)|].
    apply list_elem_of_singleton in Hx as [= ->]. apply list_elem_of_fmap in Hk as (s & -> & Hs%elem_of_seq). exists s. split; [fold ns in Hs; lia|done].
  - intros (s & Hs & ->). left. apply list_elem_of_In, in_concat. exists (socket_jobs (tree_socket s)). split.
    + apply list_elem_of_In, list_elem_of_fmap_2. apply (list_elem_of_fmap_2 (fun s => tree_socket s)). apply elem_of_seq. fold ns. lia.
    + apply list_elem_of_In, elem_of_app. right. left.
Qed.

(** What the job of a socket reads. *)
Lemma uncore_job_value s : (s < ns)%nat -> exists first, first ∈ cores_among c s (seq 0 n) /\
  outcome (uncore_job c (tree_socket s)) = match socket_uncore h0 c s with Ok u => Ok (add_residencies h0 c [first] u) | Throw e => Throw e end.
Proof.
  intros Hs. destruct (first_thread c r Htop s Hs) as (i & rest & more & E & Hi). exists i. split; [done|].
  unfold uncore_job, tree_socket, ref_handle. cbn [cores logicalID]. unfold ns in *. rewrite E, Nat2Z.id.
  pose proof (proj1 (cores_among_elem c s i) Hi) as (Hlt & Ho & _).
  assert (core_isOnline (thread_at c i :: rest) = true) as -> by (unfold core_isOnline; cbn [existsb]; by rewrite (thread_at_online c r Htop i Hlt), Ho).
  unfold socket_uncore, run_readings. cbn [foldl].
  rewrite (steady_outcome_bind cfg values h0 Hh0); [|apply steady_uncore; [done|by apply und_servers]|].
  2:{ intros u. apply steady_bind'; [by apply steady_energy|intros u']. by apply steady_cstates. }
  destruct (outcome (readAndAggregateUncoreMCCounters c s UncoreCounterState_init)) as [u|e]; [|done].
  rewrite (steady_outcome_bind cfg values h0 Hh0); [|by apply steady_energy|by intros; apply steady_cstates].
  destruct (outcome (readAndAggregateEnergyCounters c s u)) as [v|e]; [|done].
  rewrite outcome_cstates, cstates_read. done.
Qed.

Lemma Forall2_seq_impl {A} (P Q : nat -> A -> Prop) k m l : Forall2 P (seq k m) l ->
  (forall i y, (k <= i < k + m)%nat -> P i y -> Q i y) -> Forall2 Q (seq k m) l.
Proof.
  revert k l. induction m as [|m IH]; intros k l H HQ; inversion H; subst; constructor; [apply HQ; [lia|done]|].
  apply IH; [done|]. intros i z Hi. apply HQ. lia.
Qed.

Lemma zip_with_map_l {A B D E} (g : A -> B) (f : B -> D -> E) l k : zip_with f (map g l) k = zip_with (fun x y => f (g x) y) l k.
Proof. revert k. induction l as [|x l IH]; intros [|y k]; cbn; [done..|]. by rewrite IH. Qed.

Lemma zip_sockets (B : nat -> BasicCounterState) l us : length l = length us ->
  map basic (zip_with (fun s u => Socket (B s) u) l us) = map B l /\ map uncore (zip_with (fun s u => Socket (B s) u) l us) = us.
Proof.
  revert us. induction l as [|x l IH]; intros [|u us] Hlen; try done. cbn. injection Hlen as Hlen. by destruct (IH us Hlen) as [-> ->].
Qed.

Section Dispatched.
Context (order : list sampling_job) (Horder : order ≡ₚ dispatched r) (h h' : hw) (Hh : settled cfg values h) (a : aggregator).
Context (Hrun : dispatch c r order h = (h', Ok a)).

Lemma dispatch_inv : exists us y,
  Forall2 (fun i b => outcome (core_job c (thread_at c i)) = Ok b) (seq 0 n) (ccsVector a) /\
  Forall2 (fun s u => outcome (uncore_job c (tree_socket s)) = Ok u) (seq 0 ns) us /\
  socsVector a = zip_with (fun s u => Socket (basic (socket_sum (ccsVector a) (fun s => cores (tree_socket s)) s)) u) (seq 0 ns) us /\
  sy_counters (sycs a) = Socket (foldl basic_add BasicCounterState_init (map basic (socsVector a))) (foldl uncore_add UncoreCounterState_init (map uncore (socsVector a))) /\
  outcome (readQPICounters c (SystemCounterState_init c)) = Ok y /\ links (sycs a) = links y.
Proof.
  unfold dispatch in Hrun. destruct (run_jobs_pure cfg values h0 Hh0 c Hservers order (Futures ∅ ∅) h Hh) as (h1 & E & H1).
  unfold mbind at 1, M_bind at 1 in Hrun. rewrite E in Hrun. set (f := foldl (pure_job h0 c) (Futures ∅ ∅) order) in *.
  unfold mbind at 1, M_bind at 1 in Hrun. destruct (mapM_ _ _ h1) as [h2 [ccs|e]] eqn:Eccs; [|done].
  apply futures_got in Eccs as [-> Hccs].
  assert (Hnodes : sockets r = map (fun s => SocketNode (Z.of_nat s) (cores (tree_socket s))) (seq 0 (sm_sockets c))) by exact (tree_sockets c r Htop).
  rewrite Hnodes, (add_sockets_all ccs (fun s => cores (tree_socket s)) (sm_sockets c)) in Hrun.
  unfold mbind at 1, M_bind at 1 in Hrun. destruct (add_uncore _ _ _ _ h1) as [h2 [v|e]] eqn:Eu; [|done].
  apply uncore_got in Eu as (-> & us & Hus & Hv1 & Hv2). rewrite length_map, length_seq in Hus. cbn [basic uncore] in Hv2.
  unfold mbind at 1, M_bind at 1 in Hrun. destruct (readQPICounters c _ h1) as [h2 [y|e]] eqn:Eq; [|done].
  destruct (steady_outcome cfg values h0 Hh0 _ h1 (steady_qpi cfg values c (und_servers c Hservers) (set_counters v.2 (SystemCounterState_init c))) H1) as (h2' & Eq' & H2 & _).
  rewrite Eq in Eq'. injection Eq' as <- Eq'. unfold mbind at 1, M_bind at 1 in Hrun.
  destruct (readAndAggregateCXLCMCounters c y h2) as [h3 [z|e]] eqn:Ez; [|done]. injection Hrun as <- <-. cbn [ccsVector socsVector sycs].
  assert (Hz : links z = links y /\ sy_counters z = sy_counters y).
  { unfold readAndAggregateCXLCMCounters, mbind, M_bind in Ez. destruct (mapM_ _ _ h2) as [? [l|e]]; [|done]. by injection Ez as _ <-. }
  destruct Hz as [Hz1 Hz2]. rewrite (counters_kept _ _ _ _ _ (keeps_qpi c) Eq) in Hz2.
  assert (Hq : exists y0, outcome (readQPICounters c (SystemCounterState_init c)) = Ok y0 /\ links y = links y0).
  { symmetry in Eq'. unfold SamplingProofs.outcome in *. rewrite (agree_at (keeps_qpi c v.2 (SystemCounterState_init c)) h0) in Eq'. unfold mbind, M_bind in Eq'.
    destruct (readQPICounters c (SystemCounterState_init c) h0) as [h4 [y0|e]]; [|done]. exists y0. split; [done|]. injection Eq' as E2. by rewrite <- E2. }
  destruct Hq as (y0 & Hq1 & Hq2). exists us, y0. split_and!; [| | | |done|congruence].
  - apply (Forall2_seq_impl _ _ _ _ _ Hccs). intros i b Hi Hb.
    pose proof (core_future h0 c order (Futures ∅ ∅) (thread_at c i)) as Hf. fold f in Hf. cbn [osID thread_at thread_of] in Hf.
    rewrite Hf in Hb; [by injection Hb| |].
    + intros x Hx Ex. rewrite Horder in Hx. apply thread_at_unique; [by apply job_of_tree|apply thread_at_in; fold n in Hi; lia|done].
    + left. rewrite Horder. apply tree_job. fold n in Hi. lia.
  - apply (Forall2_seq_impl _ _ _ _ _ Hus). intros s u Hs Hu.
    pose proof (uncore_future h0 c order (Futures ∅ ∅) (tree_socket s)) as Hf. fold f in Hf. cbn [logicalID tree_socket] in Hf.
    rewrite Hf in Hu; [by injection Hu| |].
    + intros x Hx Ex. rewrite Horder in Hx. apply uncore_job_elem in Hx as (k & Hk & ->). cbn in Ex. by assert (k = s) as -> by lia.
    + left. rewrite Horder. apply uncore_job_elem. exists s. split; [fold ns in Hs; lia|done].
  - etrans; [exact Hv1|]. etrans; [apply zip_with_map_l|done].
  - rewrite Hz2. cbn [sy_counters set_counters]. rewrite Hv2, Hv1, zip_with_map_l. destruct (zip_sockets (fun s => basic (socket_sum ccs (fun s => cores (tree_socket s)) s)) _ _ (Forall2_length _ _ _ Hus)) as [-> ->]. done.
Qed.

End Dispatched.

(** The aggregation of [getAllCounterStates]. *)
Lemma aggregate_inv sa y ss : aggregate c sa = (y, ss) ->
  length ss = length (sa_sockets sa) /\ links y = links (sa_system sa) /\
  sy_counters y = foldl system_add_socket (sy_counters (sa_system sa)) ss /\
  forall s x, sa_sockets sa !! s = Some x ->
    ss !! s = Some (Socket (foldl basic_add (basic x) (map (fun i => nth i (sa_cores sa) BasicCounterState_init) (cores_among c s (seq 0 n)))) (uncore x)).
Proof.
  unfold aggregate. intros [= <- <-]. split_and!; [|done|done|].
  - apply (length_foldl_alter (fun core x => socket_add_core x (nth core (sa_cores sa) BasicCounterState_init)) (core_socket c)).
  - intros s x Hx. rewrite (foldl_alter (fun core x => socket_add_core x (nth core (sa_cores sa) BasicCounterState_init)) (core_socket c)), Hx.
    cbn [fmap option_fmap option_map]. rewrite sum_threads. unfold online_cores, cores_among. rewrite list_filter_filter. do 4 f_equal.
    apply filter_ext_in. intros i _. fold n. tauto.
Qed.

Section Agreement.
Context (sa : samples) (Hsa : sa = foldl (pure_step h0) (samples_init c) (concat (threads c true))) (Hsucc : succeeds h0 (concat (threads c true)) (samples_init c)).
Context (order : list sampling_job) (Horder : order ≡ₚ dispatched r) (h h' : hw) (Hh : settled cfg values h) (a : aggregator).
Context (Hrun : dispatch c r order h = (h', Ok a)) (y : SystemCounterState) (ss : list SocketCounterState) (Hagg : aggregate c sa = (y, ss)).

Lemma cores_agree : Forall2 same_counts (ccsVector a) (sa_cores sa).
Proof.
  destruct (dispatch_inv order Horder h h' Hh a Hrun) as (us & y0 & Hccs & _).
  assert (Hlen : length (sa_cores sa) = n) by (rewrite Hsa, run_cores; apply length_replicate).
  apply Forall2_same_length_lookup. split; [by rewrite <- (Forall2_length _ _ _ Hccs), length_seq|]. intros i b b' Hb Hb'.
  destruct (Forall2_lookup_r _ _ _ _ _ Hccs Hb) as (i' & [-> Hi]%lookup_seq & Eb).
  destruct (sampled_core sa i Hi Hsucc Hsa) as (x & x' & Hx & Ex & Hs). cbn in Eb. rewrite Hb' in Hx. injection Hx as <-. rewrite Eb in Ex. by injection Ex as <-.
Qed.

Lemma sockets_agree s x z : socsVector a !! s = Some x -> ss !! s = Some z -> same_counts (basic x) (basic z) /\
  exists u first, first ∈ cores_among c s (seq 0 n) /\ uncore x = add_residencies h0 c [first] u /\
    uncore z = add_residencies h0 c (cores_among c s (seq 0 n)) u.
Proof.
  intros Hx Hz. destruct (dispatch_inv order Horder h h' Hh a Hrun) as (us & y0 & _ & Hus & Hsocs & _).
  destruct (aggregate_inv sa y ss Hagg) as (_ & _ & _ & Hss).
  rewrite Hsocs in Hx. apply lookup_zip_with_Some in Hx as (s' & u & -> & [-> Hs]%lookup_seq & Hu). cbn [plus] in *.
  pose proof (Forall2_lookup_lr _ _ _ _ _ _ Hus (proj2 (lookup_seq 0 ns s s) (conj eq_refl Hs)) Hu) as Eu. cbn beta in Eu.
  destruct (sampled_socket sa s Hs Hsucc Hsa) as (x & v & Hlx & Hb & Hv & Huncore). rewrite (Hss s x Hlx) in Hz. injection Hz as <-.
  destruct (uncore_job_value s Hs) as (first & Hfirst & Ejob). rewrite Hv, Eu in Ejob. injection Ejob as ->. cbn [basic uncore]. split.
  - unfold socket_sum. cbn [basic].
    assert (Hperm : map (fun h => nth (Z.to_nat (osID h)) (ccsVector a) BasicCounterState_init) (concat (cores (tree_socket s))) ≡ₚ
      map (fun i => nth i (ccsVector a) BasicCounterState_init) (cores_among c s (seq 0 n))).
    { rewrite <- (tree_processors_perm s Hs). unfold tree_processors. by rewrite map_map. }
    rewrite (basic_sum_perm _ _ _ Hperm). apply same_counts_sum; [by symmetry|].
    apply Forall2_fmap, Forall_Forall2_diag, Forall_forall. intros i _. pose proof cores_agree as Hc.
    destruct (ccsVector a !! i) as [b|] eqn:E.
    + destruct (Forall2_lookup_l _ _ _ _ _ Hc E) as (b' & E' & Hs'). by rewrite (nth_lookup_Some _ _ _ _ E), (nth_lookup_Some _ _ _ _ E').
    + apply lookup_ge_None in E. rewrite !nth_overflow by (rewrite <- ?(Forall2_length _ _ _ Hc); lia). done.
  - by exists v, first.
Qed.

Lemma all_sockets_agree : Forall2 same_socket (socsVector a) ss.
Proof.
  apply Forall2_same_length_lookup. split.
  - destruct (dispatch_inv order Horder h h' Hh a Hrun) as (us & y0 & _ & Hus & -> & _). destruct (aggregate_inv sa y ss Hagg) as (-> & _).
    rewrite length_zip_with, <- (Forall2_length _ _ _ Hus), length_seq, Nat.min_id, Hsa, run_sockets. symmetry. apply length_replicate.
  - intros s x z Hx Hz. destruct (sockets_agree s x z Hx Hz) as (H1 & u & first & _ & Hux & Huz). split; [done|].
    rewrite Hux, Huz. unfold same_uncore. etrans; [apply same_residencies|symmetry; apply same_residencies].
Qed.

Lemma systems_agree : same_socket (sy_counters (sycs a)) (sy_counters y) /\ links (sycs a) = links y.
Proof.
  destruct (dispatch_inv order Horder h h' Hh a Hrun) as (us & y0 & _ & _ & _ & Hsy & Hq & Hl).
  destruct (aggregate_inv sa y ss Hagg) as (_ & Hly & Hsy' & _). destruct (sampled_links sa Hsucc Hsa) as (y1 & Hq' & Hl' & Hinit).
  split; [|rewrite Hq in Hq'; injection Hq' as <-; congruence].
  rewrite Hsy, Hsy', Hinit, sum_sockets. pose proof all_sockets_agree as Hall. split; cbn [basic uncore SocketCounterState_init].
  - apply same_counts_sum; [done|]. apply Forall2_fmap. by eapply Forall2_impl; [exact Hall|intros ? ? []].
  - apply same_uncore_sum; [done|]. apply Forall2_fmap. by eapply Forall2_impl; [exact Hall|intros ? ? []].
Qed.

End Agreement.

End Samples.

(** C11. The sensor server's [Aggregator::dispatch] and [PCM::getAllCounterStates] compute the
    same sample when the registers hold still, over the topology that
    [discoverSystemTopology] finds, for every order in which the thread pool runs the jobs of
    the aggregator and every interleaving of the tasks of [getAllCounterStates], when none of
    them throws and no register is changed by reading it ([undisturbed]: the units of the servers
    have plain registers, and no top-down registers are cleared): the same counters of every
    core, socket and of the system up to the thermal headroom and the MSRs of raw events, and
    the same links. The uncore counters of a socket are the same up to the residencies of the
    package C-states: the aggregator adds those of one of its processors,
    [getAllCounterStates] those of every online processor. Nothing is said of the other parts
    of the state of the system: the counters of CXL ports are read by the aggregator only, the
    energy of the system by [getAllCounterStates] only. *)
Theorem dispatch_agrees {machine : Machine} cfg `{!Still machine cfg} values c populate mx ps p order l h1 h2 h3 h4 a sa y ss :
  machine_ok populate mx ps -> discoverSystemTopology populate mx ps = Ok (Some p) ->
  sm_topology c = topology p -> sm_sockets c = num_sockets p -> sm_refCores c = socketRefCore p ->
  undisturbed c ->
  settled cfg values h1 -> settled cfg values h2 ->
  order ≡ₚ dispatched (systemTopology p) -> interleaving (threads c true) l ->
  dispatch c (systemTopology p) order h1 = (h3, Ok a) ->
  run_steps l (samples_init c) h2 = (h4, Ok sa) -> sa_failed sa = ∅ -> aggregate c sa = (y, ss) ->
  Forall2 same_counts (ccsVector a) (sa_cores sa) /\
  Forall2 same_socket (socsVector a) ss /\
  same_socket (sy_counters (sycs a)) (sy_counters y) /\
  links (sycs a) = links y /\
  forall s x z, socsVector a !! s = Some x -> ss !! s = Some z -> exists u first,
    let processors := cores_among c s (seq 0 (length (sm_topology c))) in
    first ∈ processors /\
    uncore x = add_residencies h1 c [first] u /\ uncore z = add_residencies h1 c processors u.
Proof.
  intros Hok Hp Ht Hn Hr Hservers H1 H2 Horder Hl Hd Hrun Hfailed Hagg.
  pose proof (discovered_ok populate mx ps p c Hok Hp Ht Hn Hr) as Htop.
  destruct (steps_of_interleaving cfg values h1 H1 c (und_servers c Hservers) true l h2 H2) as (h5 & E & _); [by intros core; rewrite und_slots|done|]. rewrite Hrun in E.
  assert (Hsa : sa = foldl (pure_step h1) (samples_init c) (concat (threads c true))) by congruence.
  assert (Hsucc : succeeds h1 (concat (threads c true)) (samples_init c)) by (apply no_failure_succeeds; by rewrite <- Hsa).
  split_and!.
  - by eapply (cores_agree cfg values h1 H1 c _ Hservers Htop sa Hsa Hsucc order Horder h1 h3 H1 a Hd).
  - by eapply (all_sockets_agree cfg values h1 H1 c _ Hservers Htop sa Hsa Hsucc order Horder h1 h3 H1 a Hd).
  - by eapply (systems_agree cfg values h1 H1 c _ Hservers Htop sa Hsa Hsucc order Horder h1 h3 H1 a Hd).
  - by eapply (systems_agree cfg values h1 H1 c _ Hservers Htop sa Hsa Hsucc order Horder h1 h3 H1 a Hd).
  - intros s x z Hx Hz. by eapply (sockets_agree cfg values h1 H1 c _ Hservers Htop sa Hsa Hsucc order Horder h1 h3 H1 a Hd).
Qed.

(** The machine of [Topology]: two sockets of a core with two threads, and a processor that
    is offline; the jobs of the pool in reverse, the tasks in turns. *)
Definition example_topology : pcm_topology :=
  match discoverSystemTopology example_entry 4 [0; 2; 1; 3; 4] with
  | Ok (Some p) => p
  | _ => PcmTopology 0 0 0 0 0 [] (MkSystemRoot [] []) [] 0
  end.

Definition example_server_sampler : sampler :=
  Sampler NEHALEM_EP 5 (PcmUncore [] [[]; []] [[]; []] [[]; []] [] []) 2 (topology example_topology) (socketRefCore example_topology)
    (fun _ => perf_example_context) [] [] example_raw (fun _ _ => []) false [] [] None (EnergyCounters [0; 1]%nat [] [] None)
    [0; 0; 0; 0x3F8; 0; 0; 0x3F9; 0x3FA; 0; 0; 0] 2 (Widths false 48 48 48 48).

Definition example_turns : list nat := flat_map (fun _ => [5; 4; 3; 2; 1; 0]%nat) (seq 0 8).

Lemma run_result {A} (P : A -> Prop) (m : hw * res A) : match m.2 with Ok a => P a | Throw _ => False end -> exists h a, m = (h, Ok a) /\ P a.
Proof. destruct m as [h [a|e]]; [|done]. cbn. eauto. Qed.

Lemma dispatch_agrees_witness :
  let machine := static_machine example_registers in
  let c := example_server_sampler in
  exists a sa y ss,
    (dispatch c (systemTopology example_topology) (rev (dispatched (systemTopology example_topology))) example_hw).2 = Ok a /\
    (run_steps (run_schedule example_turns (threads c true)) (samples_init c) example_hw).2 = Ok sa /\ aggregate c sa = (y, ss) /\
    Forall2 same_counts (ccsVector a) (sa_cores sa) /\ Forall2 same_socket (socsVector a) ss /\
    same_socket (sy_counters (sycs a)) (sy_counters y) /\ links (sycs a) = links y /\
    (length (ccsVector a), length (socsVector a)) = (5%nat, 2%nat).
Proof.
  intros machine c.
  assert (Hd : match (dispatch c (systemTopology example_topology) (rev (dispatched (systemTopology example_topology))) example_hw).2 with
    Ok a => (length (ccsVector a), length (socsVector a)) = (5%nat, 2%nat) | _ => False end) by (vm_compute; reflexivity).
  assert (Hs : match (run_steps (run_schedule example_turns (threads c true)) (samples_init c) example_hw).2 with
    Ok sa => sa_failed sa = ∅ | _ => False end) by (vm_compute; reflexivity).
  apply run_result in Hd as (h3 & a & Ed & Hlen). apply run_result in Hs as (h4 & sa & Es & Hfailed).
  destruct (aggregate c sa) as [y ss] eqn:Ea.
  assert (Hn : sm_sockets c = num_sockets example_topology) by (vm_compute; reflexivity).
  assert (Hp : discoverSystemTopology example_entry 4 [0; 2; 1; 3; 4] = Ok (Some example_topology)) by (vm_compute; reflexivity).
  destruct (@dispatch_agrees machine example_registers _ example_values c example_entry 4 [0; 2; 1; 3; 4] example_topology
    (rev (dispatched (systemTopology example_topology))) (run_schedule example_turns (threads c true)) example_hw example_hw h3 h4 a sa y ss
    example_machine_ok Hp eq_refl Hn eq_refl (Undisturbed c (Forall_nil_2 _) (fun _ => eq_refl)) example_settled example_settled (symmetry (Permutation_rev _))
    (run_schedule_interleaving _ _) Ed Es Hfailed Ea) as (H1 & H2 & H3 & H4 & _).
  exists a, sa, y, ss. rewrite Ed, Es. split_and!; [reflexivity|reflexivity|assumption..].
Defined.
