(* ===== verification/PciProbe.v ===== *)
(** PCI devices as the I/O tools see them ([src/src/lspci.h], [src/src/lspci.cpp]): the
    address and identity of a device, [probe_pci], and the fields of the control register of
    an I/O counter ([ccr]).

    A device is opened through [open_pci], which answers with a handle or nothing. The
    variable into which a register is read keeps its old contents when the read fails. *)

From S2P Require Import Prelude Bits WidthExtender Registers Discovery.
Local Open Scope Z_scope.

(** * Computations that may loop

    [None] is the answer of a computation that is still running when its fuel is used up. *)

Definition T (A : Type) : Type := M (option A).

#[export] Instance T_ret : MRet T := fun A a => (mret (Some a) : M (option A)).
#[export] Instance T_bind : MBind T := fun A B f m =>
  @mbind M _ _ _ (fun o => match o with Some a => f a | None => (mret None : M (option B)) end) m.

Definition running {A} : T A := (mret None : M (option A)).
Definition hardware {A} (m : M A) : T A := @mbind M _ _ _ (fun a => (mret (Some a) : M (option A))) m.

(** * Devices *)

Record bdf := Bdf { domainno : Z; busno : Z; devno : Z; funcno : Z }.

#[export] Instance bdf_eq_dec : EqDecision bdf.
Proof. solve_decision. Defined.

(** The members of the unions are cut out of the words below. *)
Inductive pci := MkPci {
  pci_exist : bool;
  pci_bdf : bdf;
  offset_0 : Z;
  header_type : Z;
  offset_18 : Z;
  link_info : Z;
  parts_no : list Z;
  child_pci_devs : list pci
}.

Definition vendor_id (p : pci) : Z := Z.land (offset_0 p) 0xffff.
Definition device_id (p : pci) : Z := Z.shiftr (offset_0 p) 16.
Definition secondary_bus_number (p : pci) : Z := Z.land (Z.shiftr (offset_18 p) 8) 0xff.
Definition subordinate_bus_number (p : pci) : Z := Z.land (Z.shiftr (offset_18 p) 16) 0xff.
Definition link_sta (p : pci) : Z := Z.shiftr (link_info p) 16.
Definition link_speed (p : pci) : Z := Z.land (link_sta p) 0xf.
Definition link_width (p : pci) : Z := Z.land (Z.shiftr (link_sta p) 4) 0x3f.

(** The constructors: one with an address, one without. *)
Definition new_pci (address : bdf) : pci := MkPci false address 0 0 0 0 [] [].
Definition no_bdf : bdf := Bdf 0 0 0 0.

Definition hasChildDevices (p : pci) : bool := negb (length (child_pci_devs p) =? 0)%nat.
Definition isIntelDevice (p : pci) : bool := vendor_id p =? 0x8086.
Definition isIntelDeviceById (p : pci) (id : Z) : bool := isIntelDevice p && (device_id p =? id).

Definition set_exist (b : bool) (p : pci) : pci :=
  MkPci b (pci_bdf p) (offset_0 p) (header_type p) (offset_18 p) (link_info p) (parts_no p) (child_pci_devs p).
Definition set_bdf (b : bdf) (p : pci) : pci :=
  MkPci (pci_exist p) b (offset_0 p) (header_type p) (offset_18 p) (link_info p) (parts_no p) (child_pci_devs p).
Definition set_header (o h : Z) (p : pci) : pci :=
  MkPci (pci_exist p) (pci_bdf p) o h (offset_18 p) (link_info p) (parts_no p) (child_pci_devs p).
Definition set_offset_18 (v : Z) (p : pci) : pci :=
  MkPci (pci_exist p) (pci_bdf p) (offset_0 p) (header_type p) v (link_info p) (parts_no p) (child_pci_devs p).
Definition set_link_info (v : Z) (p : pci) : pci :=
  MkPci (pci_exist p) (pci_bdf p) (offset_0 p) (header_type p) (offset_18 p) v (parts_no p) (child_pci_devs p).
Definition add_part (part : Z) (p : pci) : pci :=
  MkPci (pci_exist p) (pci_bdf p) (offset_0 p) (header_type p) (offset_18 p) (link_info p)
    (parts_no p ++ [u8 part]) (child_pci_devs p).
Definition set_children (l : list pci) (p : pci) : pci :=
  MkPci (pci_exist p) (pci_bdf p) (offset_0 p) (header_type p) (offset_18 p) (link_info p) (parts_no p) l.

(** [operator <] *)
Definition bdf_lt (l r : bdf) : bool :=
  if domainno l <? domainno r then true else if domainno r <? domainno l then false
  else if busno l <? busno r then true else if busno r <? busno l then false
  else if devno l <? devno r then true else if devno r <? devno l then false
  else if funcno l <? funcno r then true else if funcno r <? funcno l then false
  else false.

(** * Probing *)

Definition all_ones : Z := 2 ^ 32 - 1.

Section Probe.
Context {machine : Machine} (open_pci : bdf -> option Z).

(** [PciHandleType::exists] and the constructor *)
Definition pci_exists (b : bdf) : bool := bool_decide (is_Some (open_pci b)).
Definition open_handle (b : bdf) : M Z :=
  match open_pci b with Some h => mret h | None => throw RuntimeError end.

(** [h.read32(offset, &value)]: the contents of [value] afterwards. *)
Definition read32 (h offset value : Z) : M Z := r ← access_read (PciPort32 h offset); mret (default value r).
Definition read64 (h offset value : Z) : M Z := r ← access_read (PciPort64 h offset); mret (default value r).

(** The walk over the capabilities of an end point. It opens the device in domain 0. *)
Fixpoint probe_capability_pci_express (fuel : nat) (p : pci) (cap_ptr : Z) : T pci :=
  match fuel with
  | O => running
  | S fuel =>
      let b := pci_bdf p in
      h ← hardware (open_handle (Bdf 0 (busno b) (devno b) (funcno b)));
      value ← hardware (read32 h cap_ptr 0);
      let id := Z.land value 0xff in
      let next := Z.land (Z.shiftr value 8) 0xff in
      if negb (id =? 0x10) && negb (next =? 0) then probe_capability_pci_express fuel p next
      else if id =? 0x10 then
        value ← hardware (read32 h (u32 (cap_ptr + 0x10)) value);
        mret (set_link_info value p)
      else mret p
  end.

(** The whole device is returned; the result of the function is its [pci_exist]. *)
Definition probe_pci (fuel : nat) (p : pci) : T pci :=
  let p := set_exist false p in
  if pci_exists (pci_bdf p) then
    h ← hardware (open_handle (pci_bdf p));
    value ← hardware (read32 h 0x0 0);
    if value =? all_ones then mret p
    else
      let id := value in
      value ← hardware (read32 h 0xc value);
      let p := set_header id (Z.land (Z.shiftr value 16) 0x7f) p in
      p ← (if header_type p =? 0 then
             value ← hardware (read32 h 0x4 value);
             if negb (Z.land value 0x100000 =? 0) then
               value ← hardware (read32 h 0x34 value);
               probe_capability_pci_express fuel p value
             else mret p
           else if header_type p =? 1 then
             value ← hardware (read32 h 0x18 value);
             mret (set_offset_18 value p)
           else mret p);
      mret (set_exist true p)
  else mret p.

End Probe.

(** * The control register of an I/O counter *)

Record ccr_config := CcrConfig { FC_MASK_SHIFT : Z; FC_MASK : Z; CH_MASK : Z }.

Definition EVENT_SELECT_MASK : Z := 0xFF.
Definition UMASK_SHIFT : Z := 8.
Definition UMASK_MASK : Z := Z.shiftl 0xFF UMASK_SHIFT.
Definition RESET_SHIFT : Z := 17.
Definition RESET_MASK : Z := Z.shiftl 0x01 RESET_SHIFT.
Definition EDGE_SHIFT : Z := 18.
Definition EDGE_MASK : Z := Z.shiftl 0x01 EDGE_SHIFT.
Definition OV_EN_SHIFT : Z := 20.
Definition OV_EN_MASK : Z := Z.shiftl 0x01 OV_EN_SHIFT.
Definition ENABLE_SHIFT : Z := 22.
Definition ENABLE_MASK : Z := Z.shiftl 0x01 ENABLE_SHIFT.
Definition INVERT_SHIFT : Z := 23.
Definition INVERT_MASK : Z := Z.shiftl 0x01 INVERT_SHIFT.
Definition THRESH_SHIFT : Z := 24.
Definition THRESH_MASK : Z := Z.shiftl 0xFFF THRESH_SHIFT.
Definition CH_MASK_SHIFT : Z := 36.

(** The constructor: [fc_mask_shift] is an [uint8_t]. *)
Definition make_ccr_config (fc_mask_shift ch_mask : Z) : ccr_config :=
  CcrConfig fc_mask_shift (u64 (Z.shiftl 0x07 fc_mask_shift)) (u64 (Z.shiftl ch_mask CH_MASK_SHIFT)).

Definition skx_ccrs : ccr_config := make_ccr_config 44 0xFF.
Definition icx_ccrs : ccr_config := make_ccr_config 48 0xFFF.

Inductive ccr_type := ccr_skx | ccr_icx.

Definition ccr_config_of (type : ccr_type) : ccr_config := match type with ccr_skx => skx_ccrs | ccr_icx => icx_ccrs end.

(** [~] of an [uint64_t]. *)
Definition not64 (x : Z) : Z := Z.lxor x (2 ^ 64 - 1).

Section Ccr.
Context (config : ccr_config) (ccr_value : Z).

Definition get_event_select : Z := Z.land ccr_value EVENT_SELECT_MASK.
Definition get_umask : Z := Z.shiftr (Z.land ccr_value UMASK_MASK) UMASK_SHIFT.
Definition get_reset : Z := Z.shiftr (Z.land ccr_value RESET_MASK) RESET_SHIFT.
Definition get_edge : Z := Z.shiftr (Z.land ccr_value EDGE_MASK) EDGE_SHIFT.
Definition get_ov_en : Z := Z.shiftr (Z.land ccr_value OV_EN_MASK) OV_EN_SHIFT.
Definition get_enable : Z := Z.shiftr (Z.land ccr_value ENABLE_MASK) ENABLE_SHIFT.
Definition get_invert : Z := Z.shiftr (Z.land ccr_value INVERT_MASK) INVERT_SHIFT.
Definition get_thresh : Z := Z.shiftr (Z.land ccr_value THRESH_MASK) THRESH_SHIFT.
Definition get_ch_mask : Z := Z.shiftr (Z.land ccr_value (CH_MASK config)) CH_MASK_SHIFT.
Definition get_fc_mask : Z := Z.shiftr (Z.land ccr_value (FC_MASK config)) (FC_MASK_SHIFT config).

Definition set_event_select (value : Z) : Z :=
  Z.lor (Z.land ccr_value (not64 EVENT_SELECT_MASK)) (Z.land value EVENT_SELECT_MASK).
Definition set_umask (value : Z) : Z :=
  Z.lor (Z.land ccr_value (not64 UMASK_MASK)) (Z.land (u64 (Z.shiftl value UMASK_SHIFT)) UMASK_MASK).
Definition set_reset (value : Z) : Z :=
  Z.lor (Z.land ccr_value (not64 RESET_MASK)) (Z.land (u64 (Z.shiftl value RESET_SHIFT)) RESET_MASK).
Definition set_edge (value : Z) : Z :=
  Z.lor (Z.land ccr_value (not64 EDGE_MASK)) (Z.land (u64 (Z.shiftl value EDGE_SHIFT)) EDGE_MASK).
Definition set_ov_en (value : Z) : Z :=
  Z.lor (Z.land ccr_value (not64 OV_EN_MASK)) (Z.land (u64 (Z.shiftl value OV_EN_SHIFT)) OV_EN_MASK).
Definition set_enable (value : Z) : Z :=
  Z.lor (Z.land ccr_value (not64 ENABLE_MASK)) (Z.land (u64 (Z.shiftl value ENABLE_SHIFT)) ENABLE_MASK).
Definition set_invert (value : Z) : Z :=
  Z.lor (Z.land ccr_value (not64 INVERT_MASK)) (Z.land (u64 (Z.shiftl value INVERT_SHIFT)) INVERT_MASK).
Definition set_thresh (value : Z) : Z :=
  Z.lor (Z.land ccr_value (not64 THRESH_MASK)) (Z.land (u64 (Z.shiftl value THRESH_SHIFT)) THRESH_MASK).
Definition set_ch_mask (value : Z) : Z :=
  Z.lor (Z.land ccr_value (not64 (CH_MASK config))) (Z.land (u64 (Z.shiftl value CH_MASK_SHIFT)) (CH_MASK config)).
Definition set_fc_mask (value : Z) : Z :=
  Z.lor (Z.land ccr_value (not64 (FC_MASK config))) (Z.land (u64 (Z.shiftl value (FC_MASK_SHIFT config))) (FC_MASK config)).

End Ccr.

(** * The registers as tables of fields *)

Inductive ccr_field :=
  | EventSelect | Umask | Reset_ | Edge | OvEn | Enable | Invert | Thresh | ChMask | FcMask.

#[export] Instance ccr_field_eq_dec : EqDecision ccr_field.
Proof. solve_decision. Defined.

Definition ccr_get (type : ccr_type) (f : ccr_field) (v : Z) : Z :=
  let c := ccr_config_of type in
  match f with
  | EventSelect => get_event_select v | Umask => get_umask v | Reset_ => get_reset v | Edge => get_edge v
  | OvEn => get_ov_en v | Enable => get_enable v | Invert => get_invert v | Thresh => get_thresh v
  | ChMask => get_ch_mask c v | FcMask => get_fc_mask c v
  end.

Definition ccr_set (type : ccr_type) (f : ccr_field) (v x : Z) : Z :=
  let c := ccr_config_of type in
  match f with
  | EventSelect => set_event_select v x | Umask => set_umask v x | Reset_ => set_reset v x | Edge => set_edge v x
  | OvEn => set_ov_en v x | Enable => set_enable v x | Invert => set_invert v x | Thresh => set_thresh v x
  | ChMask => set_ch_mask c v x | FcMask => set_fc_mask c v x
  end.

(** First bit and width of a field. *)
Definition field_shift (type : ccr_type) (f : ccr_field) : Z :=
  match f with
  | EventSelect => 0 | Umask => 8 | Reset_ => 17 | Edge => 18 | OvEn => 20 | Enable => 22 | Invert => 23 | Thresh => 24
  | ChMask => 36 | FcMask => match type with ccr_skx => 44 | ccr_icx => 48 end
  end.

Definition field_width (type : ccr_type) (f : ccr_field) : Z :=
  match f with
  | EventSelect | Umask => 8 | Reset_ | Edge | OvEn | Enable | Invert => 1 | Thresh => 12
  | ChMask => match type with ccr_skx => 8 | ccr_icx => 12 end | FcMask => 3
  end.

Definition field_mask (type : ccr_type) (f : ccr_field) : Z := Z.shiftl (Z.ones (field_width type f)) (field_shift type f).

Lemma ccr_get_spec type f v : ccr_get type f v = Z.shiftr (Z.land v (field_mask type f)) (field_shift type f).
Proof. by destruct type, f. Qed.

Lemma ccr_set_spec type f v x : fits 64 x ->
  ccr_set type f v x =
  Z.lor (Z.land v (not64 (field_mask type f))) (Z.land (u64 (Z.shiftl x (field_shift type f))) (field_mask type f)).
Proof.
  intros Hx. destruct f; [|by destruct type..]. cbn [ccr_set field_shift]. by rewrite Z.shiftl_0_r, (wrapN_small 64 x).
Qed.

Lemma testbit_not64 m i : 0 <= i < 64 -> Z.testbit (not64 m) i = negb (Z.testbit m i).
Proof.
  intros Hi. unfold not64. change (2 ^ 64 - 1) with (Z.ones 64). rewrite Z.lxor_spec, Z.ones_spec_low by lia.
  apply xorb_true_r.
Qed.

Lemma field_position type f : 0 <= field_shift type f /\ 0 < field_width type f /\ field_shift type f + field_width type f <= 64.
Proof. destruct type, f; simpl; lia. Qed.

Lemma field_mask_nonneg type f : 0 <= field_mask type f.
Proof. by destruct type, f. Qed.

Lemma testbit_field_mask type f i : 0 <= i ->
  Z.testbit (field_mask type f) i = (field_shift type f <=? i) && (i <? field_shift type f + field_width type f).
Proof.
  intros Hi. destruct (field_position type f) as (H1 & H2 & H3). unfold field_mask. rewrite Z.shiftl_spec by lia.
  destruct (Z.leb_spec (field_shift type f) i); simpl; [|by rewrite Z.testbit_neg_r by lia].
  rewrite testbit_ones by lia. apply Bool.eq_iff_eq_true. rewrite !Z.ltb_lt. lia.
Qed.

(** A setter replaces the bits of its field. *)
Lemma testbit_ccr_set type f v x i : fits 64 v -> fits 64 x -> 0 <= i ->
  Z.testbit (ccr_set type f v x) i =
  if (field_shift type f <=? i) && (i <? field_shift type f + field_width type f)
  then Z.testbit x (i - field_shift type f) else Z.testbit v i.
Proof.
  intros Hv Hx Hi. destruct (field_position type f) as (H1 & H2 & H3).
  rewrite ccr_set_spec by done. rewrite Z.lor_spec, !Z.land_spec, testbit_wrapN, Z.shiftl_spec by lia.
  rewrite testbit_field_mask by done. destruct (Z.ltb_spec i 64).
  - rewrite testbit_not64, testbit_field_mask by lia.
    by destruct ((_ <=? _) && _), (Z.testbit x _), (Z.testbit v _).
  - rewrite (testbit_fits 64 v) by (done || lia). destruct (Z.ltb_spec i (field_shift type f + field_width type f)); [lia|].
    by rewrite !andb_false_r.
Qed.

Lemma ccr_set_fits type f v x : fits 64 v -> fits 64 x -> fits 64 (ccr_set type f v x).
Proof.
  intros Hv Hx. destruct (field_position type f) as (H1 & H2 & H3). apply fits_testbit; [lia| |].
  - rewrite ccr_set_spec by done. apply Z.lor_nonneg. split; apply Z.land_nonneg; right;
      [|apply field_mask_nonneg].
    unfold not64. apply Z.lxor_nonneg. split; [lia|]. intros _. apply field_mask_nonneg.
  - intros i Hi. rewrite testbit_ccr_set by (done || lia).
    destruct (Z.ltb_spec i (field_shift type f + field_width type f)); [lia|]. rewrite andb_false_r.
    by apply (testbit_fits 64).
Qed.

Lemma testbit_ccr_get type f v i : 0 <= i ->
  Z.testbit (ccr_get type f v) i = (i <? field_width type f) && Z.testbit v (i + field_shift type f).
Proof.
  intros Hi. destruct (field_position type f) as (H1 & H2 & H3). rewrite ccr_get_spec, Z.shiftr_spec, Z.land_spec by lia.
  rewrite testbit_field_mask by lia. rewrite andb_comm. f_equal.
  destruct (Z.leb_spec (field_shift type f) (i + field_shift type f)); [|lia]. simpl.
  apply Bool.eq_iff_eq_true. rewrite !Z.ltb_lt. lia.
Qed.

(** Different fields of a register have no bit in common. *)
Lemma fields_apart type f g i : f <> g ->
  (field_shift type f <=? i) && (i <? field_shift type f + field_width type f) = true ->
  (field_shift type g <=? i) && (i <? field_shift type g + field_width type g) = false.
Proof.
  intros Hfg [Hi Hj]%andb_true_iff. apply Z.leb_le in Hi. apply Z.ltb_lt in Hj.
  apply not_true_iff_false. intros [Hk Hl]%andb_true_iff. apply Z.leb_le in Hk. apply Z.ltb_lt in Hl.
  destruct type, f, g; simpl in *; congruence || lia.
Qed.

(** A field that is written holds the bits of the value that fit. *)
Lemma ccr_get_set_same type f v x : fits 64 v -> fits 64 x -> ccr_get type f (ccr_set type f v x) = wrapN (field_width type f) x.
Proof.
  intros Hv Hx. destruct (field_position type f) as (H1 & H2 & H3).
  apply Z.bits_inj'. intros i Hi. rewrite testbit_ccr_get, testbit_ccr_set, testbit_wrapN by (done || lia).
  destruct (Z.ltb_spec i (field_width type f)); simpl; [|done].
  rewrite (proj2 (Z.leb_le _ _)), (proj2 (Z.ltb_lt _ _)) by lia. simpl. f_equal. lia.
Qed.

(** The others keep what they hold. *)
Lemma ccr_get_set_other type f g v x : fits 64 v -> fits 64 x -> g <> f -> ccr_get type g (ccr_set type f v x) = ccr_get type g v.
Proof.
  intros Hv Hx Hg. destruct (field_position type g) as (H4 & H5 & H6).
  apply Z.bits_inj'. intros i Hi. rewrite !testbit_ccr_get by lia.
  destruct (Z.ltb_spec i (field_width type g)); simpl; [|done]. rewrite testbit_ccr_set by (done || lia).
  rewrite (fields_apart type g f); [done|done|].
  rewrite (proj2 (Z.leb_le _ _)), (proj2 (Z.ltb_lt _ _)) by lia. done.
Qed.

(** C37. Whatever is written to a field of the control register of an I/O counter, in both
    layouts of the register: the field then holds the bits of the value that fit, the
    other fields are as they were, and the register stays within 64 bits. *)
Theorem ccr_fields_independent type f v x :
  fits 64 v -> fits 64 x ->
  ccr_get type f (ccr_set type f v x) = wrapN (field_width type f) x /\
  (forall g, g <> f -> ccr_get type g (ccr_set type f v x) = ccr_get type g v) /\
  fits 64 (ccr_set type f v x).
Proof.
  intros Hv Hx. split_and!; [by apply ccr_get_set_same| |by apply ccr_set_fits].
  intros g Hg. by apply ccr_get_set_other.
Qed.

Lemma ccr_fields_independent_witness :
  ccr_get ccr_icx FcMask (ccr_set ccr_icx FcMask 0xFFF0000000 7) = 7 /\
  ccr_get ccr_icx Thresh (ccr_set ccr_icx FcMask 0xFFF0000000 7) = 0xFF0.
Proof.
  destruct (ccr_fields_independent ccr_icx FcMask 0xFFF0000000 7) as (H1 & H2 & _); [unfold fits; lia..|].
  split; [rewrite H1; reflexivity|rewrite (H2 Thresh) by done; reflexivity].
Defined.
