(* ===== verification/IioTopology.v ===== *)
(** Which PCI devices are behind which I/O stack ([src/src/pcm-iio-topology.h],
    [src/src/pcm-iio-topology.cpp], [get_cpu_bus] of [src/src/utils.cpp]): one Module for each
    platform, over the search for the root buses and the scan of the buses behind a root port.

    A function that answers false is [None] here, or false with the sockets found so far.
    All loops over buses count in an [uint8_t]. What is printed is left out. *)

From S2P Require Import Prelude CxxString Bits WidthExtender CpuModels Capabilities Registers Discovery PciProbe.
From stdpp Require Import sorting.
Local Open Scope Z_scope.

(** * The structure that is built *)

Record iio_bifurcated_part := MkIioPart {
  part_id : Z;
  root_pci_dev : pci;
  part_child_pci_devs : list pci
}.

(** The members [values] and [flipped] are never set. *)
Record iio_stack := MkIioStack {
  parts : list iio_bifurcated_part;
  iio_unit_id : Z;
  stack_name : str;
  stack_domain : Z;
  stack_busno : Z
}.

Record iio_stacks_on_socket := MkIioSocket { stacks : list iio_stack; iio_socket_id : Z }.

(** [operator <] and the [std::sort] by it. *)
Definition iio_stack_lt (lh rh : iio_stack) : bool := iio_unit_id lh <? iio_unit_id rh.
Definition stack_le (lh rh : iio_stack) : Prop := iio_unit_id lh <= iio_unit_id rh.
#[export] Instance stack_le_dec : RelDecision stack_le.
Proof. intros a b. unfold stack_le. apply _. Defined.

Definition push_stack (s : iio_stack) (k : iio_stacks_on_socket) : iio_stacks_on_socket := MkIioSocket (stacks k ++ [s]) (iio_socket_id k).
Definition sort_stacks (k : iio_stacks_on_socket) : iio_stacks_on_socket := MkIioSocket (merge_sort stack_le (stacks k)) (iio_socket_id k).
Definition push_part (p : iio_bifurcated_part) (s : iio_stack) : iio_stack :=
  MkIioStack (parts s ++ [p]) (iio_unit_id s) (stack_name s) (stack_domain s) (stack_busno s).
Definition set_stack_busno (b : Z) (s : iio_stack) : iio_stack := MkIioStack (parts s) (iio_unit_id s) (stack_name s) (stack_domain s) b.

(** * [std::map] with integer keys, in ascending order *)

Section Maps.
Context {A : Type}.

(** [m[k] = v] and [m.insert({k, v})] *)
Fixpoint zmap_set (k : Z) (v : A) (m : list (Z * A)) : list (Z * A) :=
  match m with
  | [] => [(k, v)]
  | (k', v') :: m' => if k <? k' then (k, v) :: m else if k =? k' then (k, v) :: m' else (k', v') :: zmap_set k v m'
  end.

Fixpoint zmap_find (k : Z) (m : list (Z * A)) : option A :=
  match m with
  | [] => None
  | (k', v') :: m' => if k =? k' then Some v' else zmap_find k m'
  end.

Definition zmap_insert (k : Z) (v : A) (m : list (Z * A)) : list (Z * A) :=
  match zmap_find k m with Some _ => m | None => zmap_set k v m end.

End Maps.

(** The initializer list of a constant map: the first entry for a key counts. *)
Definition zmap_of {A} (l : list (Z * A)) : list (Z * A) := foldl (fun m e => zmap_insert e.1 e.2 m) [] l.

(** [m.at(k)], [v[i]] *)
Definition at_key {A} (m : list (Z * A)) (k : Z) : M A := match zmap_find k m with Some v => mret v | None => throw OutOfRange end.
Definition at_index {A} (v : list A) (i : Z) : M A :=
  if i <? 0 then throw OutOfRange else match v !! Z.to_nat i with Some x => mret x | None => throw OutOfRange end.

(** * Loops *)

Section Loops.
Context {A : Type}.

(** [for (auto x : l) body]; a body that answers [None] makes the function return false. *)
Fixpoint for_T {X} (l : list X) (body : X -> A -> T (option A)) (a : A) : T (option A) :=
  match l with
  | [] => mret (Some a)
  | x :: l => o ← body x a; match o with Some a => for_T l body a | None => mret None end
  end.

(** The same for a body without [return]. *)
Fixpoint each_T {X} (l : list X) (body : X -> A -> T A) (a : A) : T A :=
  match l with
  | [] => mret a
  | x :: l => a ← body x a; each_T l body a
  end.

(** [for (uint8_t bus = first; int(bus) <= last; bus++) body] *)
Fixpoint for_buses (fuel : nat) (bus last : Z) (body : Z -> A -> T A) (a : A) : T A :=
  match fuel with
  | O => running
  | S fuel => if bus <=? last then a ← body bus a; for_buses fuel (u8 (bus + 1)) last body a else mret a
  end.

End Loops.

(** Sockets one after the other: what was pushed stays when one fails. *)
Fixpoint for_sockets {X} (l : list X) (body : X -> T (option iio_stacks_on_socket)) (iios : list iio_stacks_on_socket)
  : T (bool * list iio_stacks_on_socket) :=
  match l with
  | [] => mret (true, iios)
  | x :: l =>
      o ← body x;
      match o with Some k => for_sockets l body (iios ++ [k]) | None => mret (false, iios) end
  end.

Definition QAT_DID : Z := 0x18DA.
Definition NIS_DID : Z := 0x18D1.
Definition HQM_DID : Z := 0x270B.
Definition HQMV2_DID : Z := 0x2710.
Definition HQMV25_DID : Z := 0x2714.
Definition DSA_DID : Z := 0x0b25.
Definition IAX_DID : Z := 0x0cfe.
Definition QATV2_DID : Z := 0x4940.
Definition SNR_ICX_SAD_CONTROL_CFG_OFFSET : Z := 0x3F4.
Definition SNR_ICX_MESH2IIO_MMAP_DID : Z := 0x09A2.
Definition SPR_MSM_DEV_ID : Z := 0x09a6.
Definition SPR_MSM_CPUBUSNO_MAX : Z := 32.

(** Every device and function of [devices] devices. *)
Definition functions_of (devices : Z) : list (Z * Z) :=
  concat (map (fun d => map (pair d) (seqZ 0 8)) (seqZ 0 devices)).

(** By package and by number of the unit or bus. *)
Abbreviation root_bus_map := (list (Z * list (Z * bdf))).

Section Platform.
Context {machine : Machine} (open_pci : bdf -> option Z) (fuel : nat).

Let probe (p : pci) : T pci := probe_pci open_pci fuel p.
Let open_handle (b : bdf) : M Z := open_handle open_pci b.

(** * Scans *)

(** The devices behind a root port, each after [mark]. *)
Definition scan_bus (domain : Z) (devices : Z) (mark : pci -> pci) (bus : Z) : list pci -> T (list pci) :=
  each_T (functions_of devices) (fun df child_pci_devs =>
    child ← probe (new_pci (Bdf domain bus df.1 df.2));
    mret (if pci_exist child then child_pci_devs ++ [mark child] else child_pci_devs)).

Definition scan_behind (domain : Z) (devices : Z) (mark : pci -> pci) (root : pci) : T (list pci) :=
  for_buses fuel (secondary_bus_number root) (subordinate_bus_number root) (scan_bus domain devices mark) [].

(** The devices behind the device are its [child_pci_devs]; [depth] calls are allowed inside
    each other. *)
Fixpoint probeDeviceRange (depth : nat) (domain secondary subordinate : Z) (pci_devs : list pci) : T (list pci) :=
  match depth with
  | O => running
  | S depth =>
      for_buses fuel (u8 secondary) subordinate (fun bus =>
        each_T (functions_of 32) (fun df pci_devs =>
          child_dev ← probe (new_pci (Bdf domain bus df.1 df.2));
          if pci_exist child_dev then
            child_dev ←
              (if (secondary <? secondary_bus_number child_dev) && (subordinate <? subordinate_bus_number child_dev) then
                 l ← probeDeviceRange depth domain (secondary_bus_number child_dev) (subordinate_bus_number child_dev)
                       (child_pci_devs child_dev);
                 mret (set_children l child_dev)
               else mret child_dev);
            mret (pci_devs ++ [child_dev])
          else mret pci_devs)) pci_devs
  end.

(** * Root buses *)

(** [IPlatformMapping10Nm::getSadIdRootBusMap] *)
Definition getSadIdRootBusMap (socket_id : Z) : T (option (list (Z * Z))) :=
  o ← for_T (seqZ 0 256) (fun bus => for_T (functions_of 32) (fun df sad_id_bus_map =>
        pci_dev ← probe (new_pci (Bdf 0 bus df.1 df.2));
        if pci_exist pci_dev && isIntelDeviceById pci_dev SNR_ICX_MESH2IIO_MMAP_DID then
          h ← hardware (open_handle (Bdf 0 bus df.1 df.2));
          sad_ctrl_cfg ← hardware (read32 h SNR_ICX_SAD_CONTROL_CFG_OFFSET 0);
          if sad_ctrl_cfg =? all_ones then mret None
          else if Z.land sad_ctrl_cfg 0xf =? socket_id
          then mret (Some (zmap_insert (Z.land (Z.shiftr sad_ctrl_cfg 4) 0x7) bus sad_id_bus_map))
          else mret (Some sad_id_bus_map)
        else mret (Some sad_id_bus_map))) [];
  mret (match o with Some [] => None | _ => o end).

(** [try { m } catch (...) { return false; }] *)
Definition catch_all {A} (m : M (option A)) : M (option A) := fun s =>
  match m s with (s', Throw _) => (s', Ok None) | r => r end.

Fixpoint first_valid_bus (k : nat) (cpuBusValid i : Z) : Z :=
  match k with
  | O => i
  | S k => if Z.testbit cpuBusValid i then i else first_valid_bus k cpuBusValid (i + 1)
  end.

(** The byte of a bus in the eight registers. *)
Definition bus_byte (cpuBusNo : list Z) (cpuBusId : Z) : M Z :=
  r ← at_index cpuBusNo (cpuBusId / 4);
  mret (Z.land (Z.shiftr r ((cpuBusId mod 4) * 8)) 0xff).

(** The loop that fills [cpuBusNo]: its lower and upper half. *)
Fixpoint read_bus_numbers (h : Z) (l : list Z) : M (option (list Z * list Z)) :=
  match l with
  | [] => mret (Some ([], []))
  | i :: l =>
      lo ← read32 h (0x190 + i * 4) 0;
      hi ← read32 h (0x1c0 + i * 4) 0;
      if (lo =? all_ones) || (hi =? all_ones) then mret None
      else rest ← read_bus_numbers h l;
           mret (match rest with Some (los, his) => Some (lo :: los, hi :: his) | None => None end)
  end.

(** The mask of buses, their numbers and the package. *)
Definition get_cpu_bus (msm : bdf) : M (option (Z * list Z * Z)) :=
  catch_all (
    h ← open_handle msm;
    cpuBusValid ← read32 h 0x1a0 0;
    if cpuBusValid =? all_ones then mret None
    else if cpuBusValid =? 0 then mret (Some (0, [], 0))
    else
      nos ← read_bus_numbers h (seqZ 0 4);
      match nos with
      | None => mret None
      | Some (los, his) =>
          let cpuBusNo := los ++ his in
          cpuBusNo0 ← bus_byte cpuBusNo (first_valid_bus 32 cpuBusValid 0);
          sad ← open_handle (Bdf (domainno msm) cpuBusNo0 0 0);
          sadControlCfg ← read32 sad 0x3F4 0;
          if sadControlCfg =? all_ones then mret None
          else mret (Some (cpuBusValid, cpuBusNo, Z.land sadControlCfg 0xf))
      end).

(** [root_buses[package_id][k] = b] *)
Definition set_root_bus (package_id k : Z) (b : bdf) (m : root_bus_map) : root_bus_map :=
  zmap_set package_id (zmap_set k b (default [] (zmap_find package_id m))) m.

Section RootBuses.
Context (key : Z -> option Z).   (** where the bus with an identifier goes *)

(** The buses of one mesh device; [mapped] with the map. *)
Definition map_cpu_buses (domain cpuBusValid : Z) (cpuBusNo : list Z) (package_id : Z) (st : bool * root_bus_map)
  : T (bool * root_bus_map) :=
  each_T (seqZ 0 SPR_MSM_CPUBUSNO_MAX) (fun cpuBusId st =>
    if negb (Z.testbit cpuBusValid cpuBusId) then mret st
    else match key cpuBusId with
    | None => mret st
    | Some k =>
        rootBus ← hardware (bus_byte cpuBusNo cpuBusId);
        mret (true, set_root_bus package_id k (Bdf domain rootBus 0 0) (snd st))
    end) st.

(** The functions of a device up to the first that is missing. *)
Fixpoint mesh_functions (domain b d : Z) (fs : list Z) (st : bool * root_bus_map) : T (option (bool * root_bus_map)) :=
  match fs with
  | [] => mret (Some st)
  | f :: fs =>
      pci_dev ← probe (new_pci (Bdf domain b d f));
      if negb (pci_exist pci_dev) then mret (Some st)
      else if negb (isIntelDeviceById pci_dev SPR_MSM_DEV_ID) then mesh_functions domain b d fs st
      else
        o ← hardware (get_cpu_bus (Bdf domain b d f));
        match o with
        | None => mret None
        | Some (cpuBusValid, cpuBusNo, package_id) =>
            st ← map_cpu_buses domain cpuBusValid cpuBusNo package_id st;
            mesh_functions domain b d fs st
        end
  end.

(** [for (uint32_t domain = 0; mapped; domain++)]: [n] domains are allowed. *)
Fixpoint root_buses_from (n : nat) (domain : Z) (root_buses : root_bus_map) : T (option root_bus_map) :=
  match n with
  | O => running
  | S n =>
      o ← for_T (seqZ 0 256) (fun b => for_T (seqZ 0 32) (fun d => mesh_functions domain b d (seqZ 0 8))) (false, root_buses);
      match o with
      | None => mret None
      | Some (mapped, root_buses) => if mapped : bool then root_buses_from n (u32 (domain + 1)) root_buses else mret (Some root_buses)
      end
  end.

(** [getRootBuses]: [return !root_buses.empty()]. *)
Definition getRootBusesBy : T (option root_bus_map) :=
  o ← root_buses_from fuel 0 [];
  mret (match o with Some [] => None | _ => o end).

End RootBuses.

(** A root port or device at an address. *)
Definition probe_at (domain bus device function : Z) : T pci := probe (new_pci (Bdf domain (u8 bus) device function)).

(** A root port that exists, with what is behind it. *)
Definition port_part (domain : Z) (mark : pci -> pci) (id : Z) (root : pci) : T iio_bifurcated_part :=
  children ← scan_behind domain 32 mark root;
  mret (MkIioPart id root children).

(** * Skylake *)

Section Purley.

Definition skx_iio_stack_names : list str := map lit
  ["IIO Stack 0 - CBDMA/DMI      "; "IIO Stack 1 - PCIe0          "; "IIO Stack 2 - PCIe1          ";
   "IIO Stack 3 - PCIe2          "; "IIO Stack 4 - MCP0           "; "IIO Stack 5 - MCP1           "]%string.

Definition SKX_SOCKETID_UBOX_DID : Z := 0x2014.
Definition SKX_BUS_NUM_STRIDE : Z := 8.

Definition getUboxBusNumbers : T (list Z) :=
  each_T (seqZ 0 256) (fun bus => each_T (functions_of 32) (fun df ubox =>
    pci_dev ← probe_at 0 bus df.1 df.2;
    mret (if pci_exist pci_dev && isIntelDeviceById pci_dev SKX_SOCKETID_UBOX_DID then ubox ++ [bus] else ubox))) [].

(** A part of a stack: a bus number 0 of a stack other than the first stands for a stack
    that does not exist. *)
Definition Purley_part (stack_id busno : Z) (part_id : Z) : T iio_bifurcated_part :=
  let address := Bdf 0 busno part_id 0 in
  if negb (stack_id =? 0) && (busno =? 0) then mret (MkIioPart part_id (new_pci address) [])
  else
    pci ← probe (new_pci address);
    if pci_exist pci then port_part 0 id part_id pci else mret (MkIioPart part_id pci []).

Definition Purley_stack (cpubusno stack_id : Z) : T iio_stack :=
  let busno := u8 (Z.shiftr cpubusno (stack_id * SKX_BUS_NUM_STRIDE)) in
  name ← hardware (at_index skx_iio_stack_names stack_id);
  each_T (seqZ 0 4) (fun part_id stack =>
    part ← Purley_part stack_id busno part_id;
    mret (push_part part stack)) (MkIioStack [] stack_id name 0 busno).

Definition Purley_socket (ubox : list Z) (socket_id : Z) : T (option iio_stacks_on_socket) :=
  b ← hardware (at_index ubox socket_id);
  let address := Bdf 0 (u8 b) 0x08 0x02 in
  if negb (pci_exists open_pci address) then mret None
  else
    h ← hardware (open_handle address);
    cpubusno ← hardware (read64 h 0xCC 0);
    k ← each_T (seqZ 0 6) (fun stack_id k =>
          stack ← Purley_stack cpubusno stack_id;
          mret (push_stack stack k)) (MkIioSocket [] socket_id);
    mret (Some k).

Definition Purley_pciTreeDiscover (sockets : Z) (iios : list iio_stacks_on_socket) : T (bool * list iio_stacks_on_socket) :=
  ubox ← getUboxBusNumbers;
  match ubox with
  | [] => mret (false, iios)
  | _ => for_sockets (seqZ 0 sockets) (Purley_socket ubox) iios
  end.

End Purley.

(** * Ice Lake *)

Section Whitley.

Definition ICX_CBDMA_DMI_SAD_ID : Z := 0.
Definition ICX_MCP_SAD_ID : Z := 3.
Definition ICX_PCH_PART_ID : Z := 0.
Definition ICX_CBDMA_PART_ID : Z := 3.

Definition icx_iio_stack_names : list str := map lit
  ["IIO Stack 0 - PCIe0          "; "IIO Stack 1 - PCIe1          "; "IIO Stack 2 - MCP            ";
   "IIO Stack 3 - PCIe2          "; "IIO Stack 4 - PCIe3          "; "IIO Stack 5 - CBDMA/DMI      "]%string.

Definition icx_d_iio_stack_names : list str := map lit
  ["IIO Stack 0 - MCP            "; "IIO Stack 1 - PCIe0          "; "IIO Stack 2 - CBDMA/DMI      ";
   "IIO Stack 3 - PCIe2          "; "IIO Stack 4 - PCIe3          "; "IIO Stack 5 - PCIe1          "]%string.

Definition icx_sad_to_pmu_id_mapping : list (Z * Z) :=
  zmap_of [(ICX_CBDMA_DMI_SAD_ID, 5); (1, 0); (2, 1); (ICX_MCP_SAD_ID, 2); (4, 3); (5, 4)].
Definition icx_d_sad_to_pmu_id_mapping : list (Z * Z) :=
  zmap_of [(ICX_CBDMA_DMI_SAD_ID, 2); (1, 5); (2, 1); (ICX_MCP_SAD_ID, 0); (4, 3); (5, 4)].

(** What the constructor chooses. *)
Context (model : Z).
Definition icx_d : bool := model =? ICX_D.
Definition whitley_mapping : list (Z * Z) := if icx_d then icx_d_sad_to_pmu_id_mapping else icx_sad_to_pmu_id_mapping.
Definition whitley_names : list str := if icx_d then icx_d_iio_stack_names else icx_iio_stack_names.

(** A stack for a SAD identifier, without parts. *)
Definition Whitley_stack (sad_id busno : Z) : T iio_stack :=
  unit ← hardware (at_key whitley_mapping sad_id);
  name ← hardware (at_index whitley_names unit);
  mret (MkIioStack [] unit name 0 busno).

(** The stack of the DMA controller, with the chipset on socket 0. *)
Definition Whitley_dmi_stack (socket root_bus : Z) : T iio_stack :=
  stack ← Whitley_stack ICX_CBDMA_DMI_SAD_ID root_bus;
  stack ← (if socket =? 0 then
             pci ← probe_at 0 root_bus 0x00 0x00;
             if pci_exist pci then
               pch_part ← port_part 0 id ICX_PCH_PART_ID pci;
               mret (push_part pch_part stack)
             else mret stack
           else mret stack);
  pci ← probe_at 0 root_bus 0x01 0x00;
  mret (if pci_exist pci then push_part (MkIioPart ICX_CBDMA_PART_ID pci []) stack else stack).

Definition Whitley_pcie_stack (sad_id root_bus : Z) : T iio_stack :=
  stack ← Whitley_stack sad_id root_bus;
  each_T (seqZ 2 4) (fun slot stack =>
    pci ← probe_at 0 root_bus slot 0x00;
    if pci_exist pci then
      part ← port_part 0 id (slot - 2) pci;
      mret (push_part part stack)
    else mret stack) stack.

Definition Whitley_socket (socket : Z) : T (option iio_stacks_on_socket) :=
  o ← getSadIdRootBusMap socket;
  match o with
  | None => mret None
  | Some sad_id_bus_map =>
      mcp ← Whitley_stack ICX_MCP_SAD_ID 0;
      o ← for_T sad_id_bus_map (fun e k =>
            match zmap_find e.1 whitley_mapping with
            | None => mret None
            | Some _ =>
                if e.1 =? ICX_MCP_SAD_ID then mret (Some k)
                else if e.1 =? ICX_CBDMA_DMI_SAD_ID then
                  stack ← Whitley_dmi_stack socket e.2;
                  mret (Some (push_stack stack k))
                else
                  stack ← Whitley_pcie_stack e.1 e.2;
                  mret (Some (push_stack stack k))
            end) (MkIioSocket [mcp] socket);
      mret (sort_stacks <$> o)
  end.

Definition Whitley_pciTreeDiscover (sockets : Z) (iios : list iio_stacks_on_socket) : T (bool * list iio_stacks_on_socket) :=
  for_sockets (seqZ 0 sockets) Whitley_socket iios.

End Whitley.

(** * Snow Ridge *)

Section Jacobsville.

Definition SNR_ACCELERATOR_PART_ID : Z := 4.
Definition SNR_ROOT_PORT_A_DID : Z := 0x334A.
Definition SNR_CBDMA_DMI_SAD_ID : Z := 0.
Definition SNR_PCIE_GEN3_SAD_ID : Z := 1.
Definition SNR_HQM_SAD_ID : Z := 2.
Definition SNR_NIS_SAD_ID : Z := 3.
Definition SNR_QAT_SAD_ID : Z := 4.

Definition snr_sad_to_pmu_id_mapping : list (Z * Z) :=
  zmap_of [(SNR_CBDMA_DMI_SAD_ID, 1); (SNR_PCIE_GEN3_SAD_ID, 4); (SNR_HQM_SAD_ID, 3); (SNR_NIS_SAD_ID, 2); (SNR_QAT_SAD_ID, 0)].

Definition snr_iio_stack_names : list str := map lit
  ["IIO Stack 0 - QAT            "; "IIO Stack 1 - CBDMA/DMI      "; "IIO Stack 2 - NIS            ";
   "IIO Stack 3 - HQM            "; "IIO Stack 4 - PCIe           "]%string.

Definition Jacobsville_stack (sad_id busno : Z) : T iio_stack :=
  unit ← hardware (at_key snr_sad_to_pmu_id_mapping sad_id);
  name ← hardware (at_index snr_iio_stack_names unit);
  mret (MkIioStack [] unit name 0 busno).

(** The first device with the identifier on the buses from the root bus on. *)
Fixpoint find_device (expected_dev_id : Z) (addresses : list bdf) : T (option pci) :=
  match addresses with
  | [] => mret None
  | b :: addresses =>
      pci_dev ← probe (new_pci b);
      if pci_exist pci_dev && (device_id pci_dev =? expected_dev_id) then mret (Some pci_dev)
      else find_device expected_dev_id addresses
  end.

Definition addresses_from (bus : Z) : list bdf :=
  concat (map (fun b => map (fun df => Bdf 0 b df.1 df.2) (functions_of 32)) (seqZ bus (256 - bus))).

(** The stack, whose unit is set even when there is no device. *)
Definition JacobsvilleAccelerators (sad_id bus : Z) : T iio_stack :=
  let expected_dev_id := if sad_id =? SNR_HQM_SAD_ID then HQM_DID else if sad_id =? SNR_NIS_SAD_ID then NIS_DID else QAT_DID in
  stack ← Jacobsville_stack sad_id 0;
  o ← find_device expected_dev_id (addresses_from bus);
  mret (match o with
        | Some pci_dev => push_part (MkIioPart SNR_ACCELERATOR_PART_ID pci_dev []) (set_stack_busno (busno (pci_bdf pci_dev)) stack)
        | None => stack
        end).

(** The second device is probed into the same variable as the first. *)
Definition Jacobsville_dmi_stack (root_bus : Z) : T iio_stack :=
  stack ← Jacobsville_stack SNR_CBDMA_DMI_SAD_ID root_bus;
  dma ← probe_at 0 root_bus 0x01 0x00;
  let stack := if pci_exist dma then push_part (MkIioPart 0 dma []) stack else stack in
  pci_dev ← probe (set_bdf (Bdf 0 (u8 root_bus) 0x00 0x00) dma);
  if pci_exist pci_dev then
    part ← port_part 0 id 4 pci_dev;
    mret (push_part part stack)
  else mret stack.

Definition Jacobsville_pcie_stack (root_bus : Z) : T (option iio_stack) :=
  stack ← Jacobsville_stack SNR_PCIE_GEN3_SAD_ID root_bus;
  for_T (seqZ 4 4) (fun slot stack =>
    pci_dev ← probe_at 0 root_bus slot 0x00;
    if negb (pci_exist pci_dev) then mret (Some stack)
    else
      let part_id := 4 + device_id pci_dev - SNR_ROOT_PORT_A_DID in
      if (part_id <? 0) || (4 <? part_id) then mret None
      else
        part ← port_part 0 id part_id pci_dev;
        mret (Some (push_part part stack))) stack.

Definition Jacobsville_one_stack (sad_id bus : Z) : T (option iio_stack) :=
  if sad_id =? SNR_CBDMA_DMI_SAD_ID then stack ← Jacobsville_dmi_stack bus; mret (Some stack)
  else if sad_id =? SNR_PCIE_GEN3_SAD_ID then Jacobsville_pcie_stack bus
  else if (sad_id =? SNR_HQM_SAD_ID) || (sad_id =? SNR_NIS_SAD_ID) || (sad_id =? SNR_QAT_SAD_ID)
  then stack ← JacobsvilleAccelerators sad_id bus; mret (Some stack)
  else mret None.

Definition Jacobsville_socket (socket : Z) : T (option iio_stacks_on_socket) :=
  o ← getSadIdRootBusMap 0;
  match o with
  | None => mret None
  | Some sad_id_bus_map =>
      if negb (length sad_id_bus_map =? length snr_sad_to_pmu_id_mapping)%nat then mret None
      else
        o ← for_T sad_id_bus_map (fun e k =>
              o ← Jacobsville_one_stack e.1 e.2;
              mret ((fun stack => push_stack stack k) <$> o)) (MkIioSocket [] socket);
        mret (sort_stacks <$> o)
  end.

Definition Jacobsville_pciTreeDiscover (iios : list iio_stacks_on_socket) : T (bool * list iio_stacks_on_socket) :=
  for_sockets [0] Jacobsville_socket iios.

End Jacobsville.

(** * Grand Ridge *)

Section Loganville.

Definition GRR_PCH_DSA_GEN4_PMON_ID : Z := 2.
Definition GRR_DLB_PMON_ID : Z := 1.
Definition GRR_NIS_QAT_PMON_ID : Z := 0.

Definition grr_iio_stack_names : list str := map lit
  ["IIO Stack 0 - NIS/QAT        "; "IIO Stack 1 - HQM            "; "IIO Stack 2 - PCH/DSA/PCIe   "]%string.

Definition grr_sad_to_pmu_id_mapping : list (Z * Z) :=
  zmap_of [(0, GRR_PCH_DSA_GEN4_PMON_ID); (1, GRR_DLB_PMON_ID); (2, GRR_NIS_QAT_PMON_ID)].

Definition Loganville_stack (stack_pmon_id root_bus : Z) : T iio_stack :=
  name ← hardware (at_index grr_iio_stack_names stack_pmon_id);
  mret (MkIioStack [] stack_pmon_id name 0 root_bus).

Definition loganvillePchDsaPciStackProbe (root_bus stack_pmon_id : Z) (k : iio_stacks_on_socket) : T (option iio_stacks_on_socket) :=
  stack ← Loganville_stack stack_pmon_id root_bus;
  pci_dev ← probe_at 0 root_bus 0 0;
  if pci_exist pci_dev then
    children ← probeDeviceRange fuel 0 (secondary_bus_number pci_dev) (subordinate_bus_number pci_dev) [];
    mret (Some (push_stack (push_part (MkIioPart 7 pci_dev children) stack) k))
  else mret None.

Fixpoint find_dlb (buses : list Z) : T (option pci) :=
  match buses with
  | [] => mret None
  | bus :: buses =>
      pci_dev ← probe_at 0 bus 0x00 0x00;
      if pci_exist pci_dev && isIntelDeviceById pci_dev HQMV25_DID then mret (Some pci_dev) else find_dlb buses
  end.

Definition loganvilleDlbStackProbe (root_bus stack_pmon_id : Z) (k : iio_stacks_on_socket) : T (option iio_stacks_on_socket) :=
  stack ← Loganville_stack stack_pmon_id root_bus;
  o ← find_dlb (seqZ root_bus (255 - root_bus));
  match o with
  | None => mret None
  | Some pci_dev =>
      children ← scan_bus 0 2 id (busno (pci_bdf pci_dev)) [];
      mret (Some (push_stack (push_part (MkIioPart 0 pci_dev children) stack) k))
  end.

(** A part for a root port, when it is there. *)
Definition Loganville_port (root_bus device devices part_id : Z) (stack : iio_stack) : T iio_stack :=
  pci_dev ← probe_at 0 root_bus device 0x00;
  if pci_exist pci_dev then
    children ← scan_behind 0 devices id pci_dev;
    mret (push_part (MkIioPart part_id pci_dev children) stack)
  else mret stack.

Definition loganvilleNacStackProbe (root_bus stack_pmon_id : Z) (k : iio_stacks_on_socket) : T (option iio_stacks_on_socket) :=
  stack ← Loganville_stack stack_pmon_id root_bus;
  stack ← Loganville_port root_bus 0x04 2 0 stack;
  stack ← Loganville_port root_bus 0x05 17 1 stack;
  mret (Some (push_stack stack k)).

Definition Loganville_socket (socket : Z) : T (option iio_stacks_on_socket) :=
  o ← getSadIdRootBusMap 0;
  match o with
  | None => mret None
  | Some sad_id_bus_map =>
      if negb (length sad_id_bus_map =? length grr_sad_to_pmu_id_mapping)%nat then mret None
      else
        o ← for_T sad_id_bus_map (fun e k =>
              match zmap_find e.1 grr_sad_to_pmu_id_mapping with
              | None => mret None
              | Some stack_pmon_id =>
                  if stack_pmon_id =? GRR_PCH_DSA_GEN4_PMON_ID then loganvillePchDsaPciStackProbe e.2 stack_pmon_id k
                  else if stack_pmon_id =? GRR_DLB_PMON_ID then loganvilleDlbStackProbe e.2 stack_pmon_id k
                  else if stack_pmon_id =? GRR_NIS_QAT_PMON_ID then loganvilleNacStackProbe e.2 stack_pmon_id k
                  else mret None
              end) (MkIioSocket [] socket);
        mret (sort_stacks <$> o)
  end.

Definition Loganville_pciTreeDiscover (iios : list iio_stacks_on_socket) : T (bool * list iio_stacks_on_socket) :=
  for_sockets [0] Loganville_socket iios.

End Loganville.

(** * Sapphire Rapids and Emerald Rapids *)

Section EagleStream.

Inductive EagleStreamSupportedTypes := esInvalid | esSprXcc | esSprMcc | esEmrXcc.

Inductive EagleStreamPlatformStacks := esDMI | esPCIe0 | esPCIe1 | esPCIe2 | esPCIe3 | esPCIe4 | esDINO0 | esDINO1 | esDINO2 | esDINO3.

Definition stack_position (s : EagleStreamPlatformStacks) : nat :=
  match s with
  | esDMI => 0 | esPCIe0 => 1 | esPCIe1 => 2 | esPCIe2 => 3 | esPCIe3 => 4 | esPCIe4 => 5
  | esDINO0 => 6 | esDINO1 => 7 | esDINO2 => 8 | esDINO3 => 9
  end%nat.

Definition spr_xcc_sad_to_pmu_id_mapping : list (Z * Z) :=
  zmap_of [(0, 1); (1, 2); (2, 4); (3, 6); (4, 7); (5, 9); (8, 0); (9, 3); (10, 5); (11, 8)].
Definition spr_mcc_sad_to_pmu_id_mapping : list (Z * Z) :=
  zmap_of [(0, 0); (1, 1); (2, 2); (3, 10); (4, 4); (5, 5); (8, 3)].
Definition emr_sad_to_pmu_id_mapping : list (Z * Z) :=
  zmap_of [(0, 7); (1, 1); (2, 2); (3, 3); (4, 8); (5, 6); (8, 0); (9, 4); (10, 5); (11, 9)].

Definition spr_xcc_iio_stack_names : list str := map lit
  ["IIO Stack 0 - IDX0  "; "IIO Stack 1 - DMI   "; "IIO Stack 2 - PCIe0 "; "IIO Stack 3 - IDX1  ";
   "IIO Stack 4 - PCIe1 "; "IIO Stack 5 - IDX2  "; "IIO Stack 6 - PCIe2 "; "IIO Stack 7  - PCIe3";
   "IIO Stack 8  - IDX3 "; "IIO Stack 9  - PCIe4"; "IIO Stack 10 - NONE "; "IIO Stack 11 - NONE "]%string.
Definition spr_mcc_iio_stack_names : list str := map lit
  ["IIO Stack 0 - PCIe0 "; "IIO Stack 1 - PCIe1 "; "IIO Stack 2 - PCIe2 "; "IIO Stack 3 - IDX0  ";
   "IIO Stack 4 - PCIe3 "; "IIO Stack 5 - PCIe4 "; "IIO Stack 6 - NONE  "; "IIO Stack 7 - NONE  ";
   "IIO Stack 8 - NONE  "; "IIO Stack 9 - NONE  "; "IIO Stack 10 - DMI  "]%string.
Definition emr_iio_stack_names : list str := map lit
  ["IIO Stack 0 - IDX0  "; "IIO Stack 1 - PCIe3 "; "IIO Stack 2 - PCIe0 "; "IIO Stack 3 - IDX1  ";
   "IIO Stack 4 - PCIe1 "; "IIO Stack 5 - IDX2  "; "IIO Stack 6 - PCIe2 "; "IIO Stack 7  - DMI";
   "IIO Stack 8  - IDX3 "; "IIO Stack 9  - PCIe4"; "IIO Stack 10 - NONE "; "IIO Stack 11 - NONE "]%string.

Definition spr_xcc_stacks_enumeration : list Z := [1; 2; 4; 6; 7; 9; 0; 3; 5; 8].
Definition spr_mcc_stacks_enumeration : list Z := [10; 0; 1; 2; 4; 5; 3].
Definition emr_stacks_enumeration : list Z := [7; 1; 2; 3; 8; 6; 0; 4; 5; 9].

(** [.at(m_es_type)] of the three tables. *)
Definition es_table {A} (xcc mcc emr : A) (m_es_type : EagleStreamSupportedTypes) : M A :=
  match m_es_type with esInvalid => throw OutOfRange | esSprXcc => mret xcc | esSprMcc => mret mcc | esEmrXcc => mret emr end.

Definition es_stacks_enumeration := es_table spr_xcc_stacks_enumeration spr_mcc_stacks_enumeration emr_stacks_enumeration.
Definition es_stack_names := es_table spr_xcc_iio_stack_names spr_mcc_iio_stack_names emr_iio_stack_names.
Definition es_sad_to_pmu_id_mapping := es_table spr_xcc_sad_to_pmu_id_mapping spr_mcc_sad_to_pmu_id_mapping emr_sad_to_pmu_id_mapping.

Definition kXccChop : Z := 3.
Definition kMccChop : Z := 1.

(** The members that it sets: [m_chop] and [m_es_type]. *)
Fixpoint setChopValue (cpuId : Z) (buses : list Z) : T (option (Z * EagleStreamSupportedTypes)) :=
  match buses with
  | [] => mret None
  | b :: buses =>
      pci_dev ← probe_at 0 b 0x1e 0x03;
      if negb (pci_exist pci_dev && isIntelDeviceById pci_dev 0x325b) then setChopValue cpuId buses
      else
        h ← hardware (open_handle (Bdf 0 (u8 b) 0x1e 0x03));
        capid4 ← hardware (read32 h 0x94 0);
        if capid4 =? all_ones then mret None
        else
          let capid4 := Z.land (Z.shiftr capid4 6) 3 in
          if (capid4 =? kXccChop) || (capid4 =? kMccChop) then
            mret (Some (capid4, if cpuId =? SPR then (if capid4 =? kXccChop then esSprXcc else esSprMcc) else esEmrXcc))
          else mret None
  end.

Context (m_chop : Z) (m_es_type : EagleStreamSupportedTypes).

Definition isXccPlatform : bool := m_chop =? kXccChop.

Definition eagleStream_getRootBuses : T (option root_bus_map) :=
  mapping ← hardware (es_sad_to_pmu_id_mapping m_es_type);
  getRootBusesBy (fun cpuBusId => zmap_find cpuBusId mapping).

Definition EagleStream_stack (unit : Z) (address : bdf) : T iio_stack :=
  names ← hardware (es_stack_names m_es_type);
  name ← hardware (at_index names unit);
  mret (MkIioStack [] unit name (domainno address) (busno address)).

Definition eagleStreamDmiStackProbe (unit : Z) (address : bdf) (k : iio_stacks_on_socket) : T (option iio_stacks_on_socket) :=
  stack ← EagleStream_stack unit address;
  pci ← probe (new_pci address);
  if negb (pci_exist pci) then mret None
  else
    children ← (if iio_socket_id k =? 0
                then probeDeviceRange fuel (domainno address) (secondary_bus_number pci) (subordinate_bus_number pci) []
                else mret []);
    mret (Some (push_stack (push_part (MkIioPart 7 (add_part 7 pci) children) stack) k)).

Definition eagleStreamPciStackProbe (unit : Z) (address : bdf) (k : iio_stacks_on_socket) : T (option iio_stacks_on_socket) :=
  stack ← EagleStream_stack unit address;
  stack ← each_T (seqZ 1 8) (fun slot stack =>
            root_pci_dev ← probe_at (domainno address) (busno address) slot 0x0;
            if pci_exist root_pci_dev then
              part ← port_part (domainno address) (add_part (slot - 1)) (slot - 1) root_pci_dev;
              mret (push_part part stack)
            else mret stack) stack;
  mret (Some (push_stack stack k)).

(** The parts of an accelerator; none for another device. *)
Definition accelerator_parts (id : Z) : list Z :=
  if (id =? DSA_DID) || (id =? IAX_DID) then [0; 1; 2]
  else if id =? HQMV2_DID then [if isXccPlatform then 5 else 4]
  else if id =? QATV2_DID then [if isXccPlatform then 4 else 5]
  else [].

Definition eagleStreamAcceleratorStackProbe (unit : Z) (address : bdf) (k : iio_stacks_on_socket) : T (option iio_stacks_on_socket) :=
  stack ← EagleStream_stack unit address;
  let rb := busno address in
  stack ← each_T [rb; rb + 1; rb + 2; rb + 3] (fun b => each_T (functions_of 32) (fun df stack =>
            pci_dev ← probe_at (domainno address) b df.1 df.2;
            mret (if negb (pci_exist pci_dev) then stack
                  else if isIntelDevice pci_dev then
                    match accelerator_parts (device_id pci_dev) with
                    | [] => stack
                    | l => push_part (MkIioPart 0 (new_pci no_bdf) [foldl (fun p part => add_part part p) pci_dev l]) stack
                    end
                  else push_part (MkIioPart 0 (new_pci no_bdf) []) stack))) stack;
  mret (Some (push_stack stack k)).

(** [stacks_enumeration[a] == unit || ...]: an entry is read only when those before it differ. *)
Fixpoint is_any (enumeration : list Z) (unit : Z) (l : list EagleStreamPlatformStacks) : M bool :=
  match l with
  | [] => mret false
  | s :: l => x ← at_index enumeration (Z.of_nat (stack_position s)); if x =? unit then mret true else is_any enumeration unit l
  end.

Definition is_stack (l : list EagleStreamPlatformStacks) (unit : Z) : M bool :=
  stacks_enumeration ← es_stacks_enumeration m_es_type;
  is_any stacks_enumeration unit l.

Definition isDmiStack := is_stack [esDMI].
Definition es_isPcieStack := is_stack [esPCIe0; esPCIe1; esPCIe2; esPCIe3; esPCIe4].
Definition isDinoStack := is_stack [esDINO0; esDINO1; esDINO2; esDINO3].

Definition es_stackProbe (unit : Z) (address : bdf) (k : iio_stacks_on_socket) : T (option iio_stacks_on_socket) :=
  dmi ← hardware (isDmiStack unit);
  if dmi : bool then eagleStreamDmiStackProbe unit address k
  else
    pcie ← hardware (es_isPcieStack unit);
    if pcie : bool then eagleStreamPciStackProbe unit address k
    else
      dino ← hardware (isDinoStack unit);
      if dino : bool then eagleStreamAcceleratorStackProbe unit address k else mret None.

End EagleStream.

(** The stacks of a package. *)
Definition probe_package (stackProbe : Z -> bdf -> iio_stacks_on_socket -> T (option iio_stacks_on_socket))
    (e : Z * list (Z * bdf)) : T (option iio_stacks_on_socket) :=
  o ← for_T e.2 (fun rb => stackProbe rb.1 rb.2) (MkIioSocket [] e.1);
  mret (sort_stacks <$> o).

Definition EagleStream_pciTreeDiscover (cpuId : Z) (iios : list iio_stacks_on_socket) : T (bool * list iio_stacks_on_socket) :=
  chop ← setChopValue cpuId (seqZ 0 256);
  match chop with
  | None => mret (false, iios)
  | Some (m_chop, m_es_type) =>
      o ← eagleStream_getRootBuses m_es_type;
      match o with
      | None => mret (false, iios)
      | Some root_buses => for_sockets root_buses (probe_package (es_stackProbe m_chop m_es_type)) iios
      end
  end.

(** * Sierra Forest and Granite Rapids *)

Section BirchStream.

Definition Xeon6_getRootBuses : T (option root_bus_map) := getRootBusesBy (fun cpuBusId => Some cpuBusId).

Definition Xeon6_pciTreeDiscover (stackProbe : Z -> bdf -> iio_stacks_on_socket -> T (option iio_stacks_on_socket))
    (iios : list iio_stacks_on_socket) : T (bool * list iio_stacks_on_socket) :=
  o ← Xeon6_getRootBuses;
  match o with
  | None => mret (false, iios)
  | Some root_buses => for_sockets root_buses (probe_package stackProbe) iios
  end.

Definition SRF_PE0_SAD_BUS_ID : Z := 2.
Definition SRF_PE1_SAD_BUS_ID : Z := 3.
Definition SRF_PE2_SAD_BUS_ID : Z := 1.
Definition SRF_PE3_SAD_BUS_ID : Z := 4.
Definition SRF_PE4_SAD_BUS_ID : Z := 29.
Definition SRF_FLEX_PE4_SAD_BUS_ID : Z := SRF_PE4_SAD_BUS_ID.
Definition SRF_PE5_SAD_BUS_ID : Z := 26.
Definition SRF_FLEX_PE5_SAD_BUS_ID : Z := SRF_PE5_SAD_BUS_ID.
Definition SRF_PE6_SAD_BUS_ID : Z := 0.
Definition SRF_PE7_SAD_BUS_ID : Z := 5.
Definition SRF_PE8_SAD_BUS_ID : Z := 28.
Definition SRF_UBOXA_SAD_BUS_ID : Z := 30.
Definition SRF_UBOXB_SAD_BUS_ID : Z := 31.
Definition SRF_HC0_SAD_BUS_ID : Z := 8.
Definition SRF_HC1_SAD_BUS_ID : Z := 12.
Definition SRF_HC2_SAD_BUS_ID : Z := 20.
Definition SRF_HC3_SAD_BUS_ID : Z := 16.
Definition SRF_FLEX_PE4_PMON_ID : Z := 13.
Definition SRF_FLEX_PE5_PMON_ID : Z := 10.

Definition SRF_DSA_IAX_PART_NUMBER : Z := 0.
Definition SRF_HQM_PART_NUMBER : Z := 5.
Definition SRF_QAT_PART_NUMBER : Z := 4.

Definition srf_iio_stack_names : list str := map lit
  ["IIO Stack 0  - PCIe6     "; "IIO Stack 1  - HCx0      "; "IIO Stack 2  - PCIe2     "; "IIO Stack 3  - PCIe0     ";
   "IIO Stack 4  - PCIe1     "; "IIO Stack 5  - PCIe3     "; "IIO Stack 6  - HCx1      "; "IIO Stack 7  - PCIe7     ";
   "IIO Stack 8  - PCIe8     "; "IIO Stack 9  - HCx3      "; "IIO Stack 10 - Flex PCIe5"; "IIO Stack 11 - PCIe4     ";
   "IIO Stack 12 - PCIe5     "; "IIO Stack 13 - Flex PCIe4"; "IIO Stack 14 - HCx2      "]%string.

Definition srf_sad_to_pmu_id_mapping : list (Z * Z) :=
  zmap_of [(SRF_PE0_SAD_BUS_ID, 3); (SRF_PE1_SAD_BUS_ID, 4); (SRF_PE2_SAD_BUS_ID, 2); (SRF_PE3_SAD_BUS_ID, 5);
           (SRF_PE4_SAD_BUS_ID, 11); (SRF_FLEX_PE4_SAD_BUS_ID, SRF_FLEX_PE4_PMON_ID); (SRF_PE5_SAD_BUS_ID, 12);
           (SRF_FLEX_PE5_SAD_BUS_ID, SRF_FLEX_PE5_PMON_ID); (SRF_PE6_SAD_BUS_ID, 0); (SRF_PE7_SAD_BUS_ID, 7);
           (SRF_PE8_SAD_BUS_ID, 8); (SRF_HC0_SAD_BUS_ID, 1); (SRF_HC1_SAD_BUS_ID, 6); (SRF_HC2_SAD_BUS_ID, 9);
           (SRF_HC3_SAD_BUS_ID, 14)].

Definition srf_pcie_stacks : list Z :=
  [SRF_PE0_SAD_BUS_ID; SRF_PE1_SAD_BUS_ID; SRF_PE2_SAD_BUS_ID; SRF_PE3_SAD_BUS_ID; SRF_PE4_SAD_BUS_ID; SRF_FLEX_PE4_SAD_BUS_ID;
   SRF_PE5_SAD_BUS_ID; SRF_FLEX_PE5_SAD_BUS_ID; SRF_PE6_SAD_BUS_ID; SRF_PE7_SAD_BUS_ID; SRF_PE8_SAD_BUS_ID].

Definition BirchStream_stack (unit : Z) (address : bdf) : T iio_stack :=
  iio_unit ← hardware (at_key srf_sad_to_pmu_id_mapping unit);
  name ← hardware (at_index srf_iio_stack_names iio_unit);
  mret (MkIioStack [] iio_unit name (domainno address) (busno address)).

Definition birchStreamPciStackProbe (unit : Z) (address : bdf) (k : iio_stacks_on_socket) : T (option iio_stacks_on_socket) :=
  stack ← BirchStream_stack unit address;
  stack ← each_T (seqZ 2 7) (fun slot stack =>
            root_pci_dev ← probe_at (domainno address) (busno address) slot 0x0;
            if pci_exist root_pci_dev then
              part ← port_part (domainno address) (add_part (slot - 2)) (slot - 2) root_pci_dev;
              mret (push_part part stack)
            else mret stack) stack;
  mret (Some (push_stack stack k)).

(** [process_pci_dev] and [add_pci_part] *)
Definition add_pci_part (domainno busno devno part_number : Z) (stack : iio_stack) : T iio_stack :=
  pci_dev ← probe_at domainno busno devno 0;
  mret (if pci_exist pci_dev && isIntelDevice pci_dev
        then push_part (MkIioPart part_number (new_pci no_bdf) [add_part part_number pci_dev]) stack
        else stack).

Definition birchStreamAcceleratorStackProbe (unit : Z) (address : bdf) (k : iio_stacks_on_socket) : T (option iio_stacks_on_socket) :=
  stack ← BirchStream_stack unit address;
  stack ← add_pci_part (domainno address) (busno address) 1 SRF_DSA_IAX_PART_NUMBER stack;
  stack ← add_pci_part (domainno address) (busno address) 2 SRF_DSA_IAX_PART_NUMBER stack;
  stack ← add_pci_part (domainno address) (busno address + 1) 0 SRF_QAT_PART_NUMBER stack;
  stack ← add_pci_part (domainno address) (busno address + 3) 0 SRF_HQM_PART_NUMBER stack;
  mret (Some (match parts stack with [] => k | _ => push_stack stack k end)).

Definition bhs_isPcieStack (unit : Z) : bool := existsb (Z.eqb unit) srf_pcie_stacks.
Definition isRootHcStack (unit : Z) : bool :=
  (SRF_HC0_SAD_BUS_ID =? unit) || (SRF_HC1_SAD_BUS_ID =? unit) || (SRF_HC2_SAD_BUS_ID =? unit) || (SRF_HC3_SAD_BUS_ID =? unit).
Definition isPartHcStack (unit : Z) : bool := isRootHcStack (unit - 1) || isRootHcStack (unit - 2).
Definition isUboxStack (unit : Z) : bool := (SRF_UBOXA_SAD_BUS_ID =? unit) || (SRF_UBOXB_SAD_BUS_ID =? unit).

Definition bhs_stackProbe (unit : Z) (address : bdf) (k : iio_stacks_on_socket) : T (option iio_stacks_on_socket) :=
  if bhs_isPcieStack unit then birchStreamPciStackProbe unit address k
  else if isRootHcStack unit then birchStreamAcceleratorStackProbe unit address k
  else if isPartHcStack unit || isUboxStack unit then mret (Some k)
  else mret None.

End BirchStream.

(** * Other platforms *)

(** [snprintf(buffer, sizeof(buffer), "Stack %2d", unit)] for the units below 2^31. *)
Definition stackIdToString (unit : Z) : str :=
  let digits := to_string unit in lit "Stack " ++ replicate (2 - length digits) (byte 32) ++ digits.

Definition Default_socket (stacks socket : Z) : iio_stacks_on_socket :=
  foldl (fun k unit => push_stack (MkIioStack [] unit (stackIdToString unit) 0 0) k) (MkIioSocket [] socket) (seqZ 0 stacks).

Definition Default_pciTreeDiscover (sockets stacks : Z) (iios : list iio_stacks_on_socket) : T (bool * list iio_stacks_on_socket) :=
  mret (true, iios ++ map (Default_socket stacks) (seqZ 0 sockets)).

(** [getPlatformMapping] and the call of [pciTreeDiscover]. *)
Definition initializeIOStacksStructure (model sockets stacks : Z) (iios : list iio_stacks_on_socket)
  : T (bool * list iio_stacks_on_socket) :=
  if model =? SKX then Purley_pciTreeDiscover sockets iios
  else if model =? ICX then Whitley_pciTreeDiscover model sockets iios
  else if model =? SNOWRIDGE then Jacobsville_pciTreeDiscover iios
  else if (model =? SPR) || (model =? EMR) then EagleStream_pciTreeDiscover model iios
  else if model =? GRR then Loganville_pciTreeDiscover iios
  else if (model =? SRF) || (model =? GNR) then Xeon6_pciTreeDiscover bhs_stackProbe iios
  else Default_pciTreeDiscover sockets stacks iios.

End Platform.
