(* ===== verification/IioDiscovery.v ===== *)
(** What the discovery of I/O stacks ([IioTopology]) promises on every platform: how it ends,
    and that the stacks of a socket are told apart by their units. *)

From S2P Require Import Prelude CxxString Bits WidthExtender CpuModels Capabilities Registers Discovery ServerInit PciProbe IioTopology.
From stdpp Require Import sorting.
From Stdlib Require Import Sorting.Sorted.
Local Open Scope Z_scope.

(** * How computations that may loop end

    [meets finite P E m]: a result has the property [P], an exception is one of [E], and
    when [finite] holds the computation does end. *)

Definition meets {A} (finite : bool) (P : A -> Prop) (E : exn -> Prop) (m : T A) : Prop :=
  ends (fun o => match o with Some a => P a | None => finite = false end) E m.

Section Meets.
Context {machine : Machine} (finite : bool) (E : exn -> Prop).

Abbreviation ok P m := (meets finite P E m).

Lemma meets_ret {A} (P : A -> Prop) a : P a -> ok P (mret a : T A).
Proof. by intros ? s. Qed.

Lemma meets_bind {A B} (P : A -> Prop) (Q : B -> Prop) (m : T A) (f : A -> T B) :
  ok P m -> (forall a, P a -> ok Q (f a)) -> ok Q (m ≫= f).
Proof.
  intros Hm Hf s. specialize (Hm s). unfold mbind, T_bind, mbind, M_bind.
  destruct (m s) as [s' [[a|]|e]]; [by apply Hf|done|done].
Qed.

Lemma meets_weaken {A} (P Q : A -> Prop) (m : T A) : ok P m -> (forall a, P a -> Q a) -> ok Q m.
Proof. intros Hm HPQ s. specialize (Hm s). destruct (m s) as [s' [[a|]|e]]; simpl in *; auto. Qed.

Lemma meets_hardware {A} (P : A -> Prop) (m : M A) : ends P E m -> ok P (hardware m).
Proof.
  intros Hm s. specialize (Hm s). unfold hardware, mbind, M_bind. by destruct (m s) as [s' [a|e]].
Qed.

Lemma meets_running {A} (P : A -> Prop) : finite = false -> ok P (running : T A).
Proof. by intros ? s. Qed.

(** [I] speaks of what is done and of the elements that are left. *)
Lemma meets_each_left {A X} (I : list X -> A -> Prop) (l : list X) (body : X -> A -> T A) a :
  I l a -> (forall x l' a, x ∈ l -> I (x :: l') a -> ok (I l') (body x a)) -> ok (I []) (each_T l body a).
Proof.
  revert a. induction l as [|x l IH]; intros a Ha Hb; [by apply meets_ret|]. cbn [each_T].
  eapply meets_bind; [apply Hb; [left|done]|]. intros a' Ha'. apply IH; [done|].
  intros y l' b Hy. apply Hb. by right.
Qed.

Lemma meets_each {A X} (I : A -> Prop) (l : list X) (body : X -> A -> T A) a :
  I a -> (forall x a, x ∈ l -> I a -> ok I (body x a)) -> ok I (each_T l body a).
Proof. intros Ha Hb. apply (meets_each_left (fun _ => I)); auto. Qed.

Lemma meets_for {A X} (I : list X -> A -> Prop) (l : list X) (body : X -> A -> T (option A)) a :
  I l a -> (forall x l' a, x ∈ l -> I (x :: l') a -> ok (fun o => forall a', o = Some a' -> I l' a') (body x a)) ->
  ok (fun o => forall a', o = Some a' -> I [] a') (for_T l body a).
Proof.
  revert a. induction l as [|x l IH]; intros a Ha Hb; [apply meets_ret; by intros a' [= <-]|]. cbn [for_T].
  eapply meets_bind; [apply Hb; [left|done]|]. intros [a'|] Ho; [|by apply meets_ret].
  apply IH; [by apply Ho|]. intros y l' b Hy. apply Hb. by right.
Qed.

Lemma meets_for_sockets {X} (I : list X -> list iio_stacks_on_socket -> Prop) (l : list X) body iios :
  (forall l k, I l k -> I [] k) -> I l iios ->
  (forall x l' iios, x ∈ l -> I (x :: l') iios -> ok (fun o => forall k, o = Some k -> I l' (iios ++ [k])) (body x)) ->
  ok (fun r => I [] r.2) (for_sockets l body iios).
Proof.
  intros Hnil. revert iios. induction l as [|x l IH]; intros iios Hi Hb; [by apply meets_ret|]. cbn [for_sockets].
  eapply meets_bind; [apply Hb; [left|done]|]. intros [k|] Ho.
  - apply IH; [by apply Ho|]. intros y l' b Hy. apply Hb. by right.
  - apply meets_ret. by eapply Hnil.
Qed.

(** A loop over buses below 255 ends within the fuel. *)
Lemma meets_for_buses {A} (I : A -> Prop) n bus last (body : Z -> A -> T A) a :
  0 <= bus < 256 -> (finite = true -> last < 255 /\ last - bus + 1 < Z.of_nat n /\ 0 < Z.of_nat n) ->
  I a -> (forall b a, I a -> ok I (body b a)) -> ok I (for_buses n bus last body a).
Proof.
  revert bus a. induction n as [|n IH]; intros bus a Hbus Hend Ha Hb.
  - apply meets_running. destruct finite; [|done]. lia.
  - cbn [for_buses]. destruct (Z.leb_spec bus last); [|by apply meets_ret].
    eapply meets_bind; [by apply Hb|]. intros a' Ha'. apply IH; [apply (wrapN_fits 8); lia| |done|done].
    intros Hf. destruct (Hend Hf) as (H1 & H2 & H3). rewrite wrapN_small by (unfold fits; lia). lia.
Qed.

End Meets.

(** * Ordered maps *)

Section Keys.
Context {A : Type}.

Definition keys_sorted (m : list (Z * A)) : Prop := StronglySorted Z.lt (map fst m).

Lemma zmap_set_forall (P : Z * A -> Prop) k v m : Forall P m -> P (k, v) -> Forall P (zmap_set k v m).
Proof.
  intros Hm Hp. induction Hm as [|[k' v'] m He Hm IH]; simpl; [by repeat constructor|].
  destruct (k <? k'); [by repeat constructor|]. destruct (k =? k'); by constructor.
Qed.

Lemma zmap_set_sorted k (v : A) (m : list (Z * A)) : keys_sorted m -> keys_sorted (zmap_set k v m).
Proof.
  unfold keys_sorted. induction m as [|[k' v'] m IH]; simpl; intros Hm; [by repeat constructor|].
  apply StronglySorted_inv in Hm as [Hm Hk]. destruct (Z.ltb_spec k k').
  - constructor; [by constructor|]. constructor; [done|]. eapply Forall_impl; [exact Hk|]. simpl. lia.
  - destruct (Z.eqb_spec k k') as [->|]; [by constructor|]. constructor; [by apply IH|].
    apply Forall_map, (zmap_set_forall (fun e => k' < e.1)); [by rewrite Forall_map in Hk|]. simpl. lia.
Qed.

Lemma zmap_find_in k (v : A) (m : list (Z * A)) : zmap_find k m = Some v -> (k, v) ∈ m.
Proof.
  induction m as [|[k' v'] m IH]; simpl; [done|]. destruct (Z.eqb_spec k k') as [->|]; [intros [= ->]; left|].
  intros Hf. right. by apply IH.
Qed.

Lemma zmap_insert_sorted k (v : A) (m : list (Z * A)) : keys_sorted m -> keys_sorted (zmap_insert k v m).
Proof. intros Hm. unfold zmap_insert. destruct (zmap_find k m); [done|by apply zmap_set_sorted]. Qed.

Lemma zmap_insert_forall (P : Z * A -> Prop) k v m : Forall P m -> P (k, v) -> Forall P (zmap_insert k v m).
Proof. intros Hm Hp. unfold zmap_insert. destruct (zmap_find k m); [done|by apply zmap_set_forall]. Qed.

Lemma sorted_nodup (l : list Z) : StronglySorted Z.lt l -> NoDup l.
Proof.
  induction 1 as [|k l Hl IH Hk]; constructor; [|done]. intros Hin. rewrite Forall_forall in Hk.
  specialize (Hk _ Hin). lia.
Qed.

End Keys.

(** The unit of a key; a key without a unit gets a number that is no unit. *)
Definition unit_of (m : list (Z * Z)) (k : Z) : Z := default (-1 - k) (zmap_find k m).

(** Different keys have different units. *)
Definition mapping_ok (m : list (Z * Z)) : Prop := NoDup (map snd m) /\ Forall (fun e => 0 <= e.2) m.
#[export] Instance mapping_ok_dec m : Decision (mapping_ok m).
Proof. unfold mapping_ok. apply _. Defined.

Lemma unit_of_inj m k k' : mapping_ok m -> 0 <= k -> 0 <= k' -> unit_of m k = unit_of m k' -> k = k'.
Proof.
  intros [Hn Hp] Hk Hk'. unfold unit_of. rewrite Forall_forall in Hp.
  assert (forall k u, zmap_find k m = Some u -> 0 <= u) as Hu by (intros k0 u Hf; exact (Hp _ (zmap_find_in _ _ _ Hf))).
  destruct (zmap_find k m) as [u|] eqn:E1, (zmap_find k' m) as [u'|] eqn:E2; simpl; intros He; subst.
  - apply zmap_find_in, list_elem_of_lookup_1 in E1 as [i Hi]. apply zmap_find_in, list_elem_of_lookup_1 in E2 as [j Hj].
    assert (i = j) as ->; [|congruence]. eapply (NoDup_lookup _ i j u'); [exact Hn| |]; by rewrite list_lookup_fmap, ?Hi, ?Hj.
  - specialize (Hu _ _ E1). lia.
  - specialize (Hu _ _ E2). lia.
  - lia.
Qed.

Lemma units_nodup {B} m (l : list (Z * B)) : mapping_ok m -> keys_sorted l -> Forall (fun e => 0 <= e.1) l ->
  NoDup (map (fun e => unit_of m e.1) l).
Proof.
  intros Hm Hl Hp. unfold keys_sorted in Hl. induction l as [|e l IH]; [constructor|]. cbn [map] in *. apply StronglySorted_inv in Hl as [Hl He].
  inversion Hp as [|? ? H1 H2]; subst. constructor; [|by apply IH].
  intros (e' & He' & Hin)%list_elem_of_fmap. rewrite Forall_map, Forall_forall in He. rewrite Forall_forall in H2.
  specialize (He _ Hin). specialize (H2 _ Hin). simpl in *. apply unit_of_inj in He'; [lia|done..].
Qed.

(** A decidable fact about a table. *)
Ltac decided := refine (bool_decide_eq_true_1 _ _); vm_compute; reflexivity.

(** * What a stack and a socket are made of *)

(** The root port is in the domain of the stack, on its bus or a later one, and what is
    listed behind it answered. *)
Definition part_on (s : iio_stack) (p : iio_bifurcated_part) : Prop :=
  let b := pci_bdf (root_pci_dev p) in
  (b = no_bdf \/ domainno b = stack_domain s /\ stack_busno s <= busno b) /\
  Forall (fun c => pci_exist c = true) (part_child_pci_devs p).

(** Its name is that of its unit. *)
Definition stack_ok (names : list str) (s : iio_stack) : Prop :=
  0 <= iio_unit_id s /\ names !! Z.to_nat (iio_unit_id s) = Some (stack_name s) /\ Forall (part_on s) (parts s).

Definition units (k : iio_stacks_on_socket) : list Z := map iio_unit_id (stacks k).

(** The stacks have ascending units, so no two have the same. *)
Definition socket_ok (names : list str) (k : iio_stacks_on_socket) : Prop :=
  StronglySorted Z.lt (units k) /\ Forall (stack_ok names) (stacks k).

(** A socket that is being filled; [left] are the units still to come. *)
Definition building (names : list str) (id : Z) (left : list Z) (k : iio_stacks_on_socket) : Prop :=
  NoDup (units k ++ left) /\ Forall (stack_ok names) (stacks k) /\ iio_socket_id k = id.

Lemma building_push names id u left k s : building names id (u :: left) k -> stack_ok names s -> iio_unit_id s = u ->
  building names id left (push_stack s k).
Proof.
  intros (Hn & Hs & Hi) Ho <-. split_and!; [|by apply Forall_app_2, Forall_singleton|done].
  unfold units. simpl. rewrite map_app. simpl. by rewrite <- app_assoc.
Qed.

Lemma building_skip names id u left k : building names id (u :: left) k -> building names id left k.
Proof.
  intros (Hn & Hs & Hi). split_and!; [|done|done]. eapply sublist_NoDup; [exact Hn|].
  apply sublist_app; [done|]. by apply sublist_cons.
Qed.

#[export] Instance stack_le_trans : Transitive stack_le.
Proof. intros a b c. unfold stack_le. lia. Qed.
#[export] Instance stack_le_total : Total stack_le.
Proof. intros a b. unfold stack_le. lia. Qed.

Lemma sorted_units (l : list iio_stack) : StronglySorted stack_le l -> NoDup (map iio_unit_id l) ->
  StronglySorted Z.lt (map iio_unit_id l).
Proof.
  intros Hl Hn. induction Hl as [|s l Hl IH Hs]; simpl; [constructor|]. inversion Hn as [|? ? Hni Hn']; subst.
  constructor; [by apply IH|]. rewrite Forall_map. rewrite Forall_forall in Hs |- *. intros s' Hin. specialize (Hs _ Hin).
  unfold stack_le in Hs. simpl. assert (iio_unit_id s <> iio_unit_id s'); [|lia].
  intros He. apply Hni. rewrite He. by apply list_elem_of_fmap_2.
Qed.

(** [std::sort] of a socket whose stacks have different units. *)
Lemma building_sort names id k : building names id [] k -> socket_ok names (sort_stacks k) /\ iio_socket_id (sort_stacks k) = id.
Proof.
  intros (Hn & Hs & Hi). unfold units in Hn. rewrite app_nil_r in Hn.
  pose proof (merge_sort_Permutation stack_le (stacks k)) as Hp. split; [split|done].
  - apply sorted_units.
    + apply StronglySorted_merge_sort; apply _.
    + unfold sort_stacks. simpl. by rewrite Hp.
  - unfold sort_stacks. simpl. by rewrite Hp.
Qed.

Lemma sort_built names id (o : option iio_stacks_on_socket) : (forall k, o = Some k -> building names id [] k) ->
  forall k, sort_stacks <$> o = Some k -> socket_ok names k /\ iio_socket_id k = id.
Proof. intros Ho k Hk. destruct o as [k'|]; [|done]. injection Hk as <-. by apply building_sort, Ho. Qed.

Lemma bus_number_range p : 0 <= secondary_bus_number p < 256 /\ 0 <= subordinate_bus_number p < 256.
Proof.
  unfold secondary_bus_number, subordinate_bus_number. change 0xff with (Z.ones 8).
  rewrite !Z.land_ones by lia. split; apply Z.mod_pos_bound; lia.
Qed.

(** * What the platforms promise

    [finite] stands for the assumptions under which the discovery ends: every probe ends and
    finds no bridge with the subordinate bus 255, and there is a domain without devices. *)

Section Promise.
Context {machine : Machine} (open_pci : bdf -> option Z) (fuel : nat) (finite : bool) (E : exn -> Prop).

Abbreviation ok P m := (meets finite P E m).

Definition bridge_ok (p : pci) : Prop := finite = true -> subordinate_bus_number p < 255.

Definition probed_as (p q : pci) : Prop :=
  pci_bdf q = pci_bdf p /\ child_pci_devs q = child_pci_devs p /\
  (open_pci (pci_bdf p) = None -> pci_exist q = false) /\ (bridge_ok p -> bridge_ok q).

Context (Hruntime : E RuntimeError).
Context (Hprobe : forall p, ok (probed_as p) (probe_pci open_pci fuel p)).
Context (Hfuel : finite = true -> 256 < Z.of_nat fuel).

Lemma new_pci_bridge b : bridge_ok (new_pci b).
Proof. intros _. done. Qed.

Definition new_probed (b : bdf) (q : pci) : Prop :=
  pci_bdf q = b /\ child_pci_devs q = [] /\ (open_pci b = None -> pci_exist q = false) /\ bridge_ok q.

Lemma probe_new b : ok (new_probed b) (probe_pci open_pci fuel (new_pci b)).
Proof. eapply meets_weaken; [apply Hprobe|]. intros q (H1 & H2 & H3 & H4). split_and!; [done..|apply H4, new_pci_bridge]. Qed.

Lemma open_ends b : ends (fun _ => True) E (open_handle open_pci b).
Proof. unfold open_handle. destruct (open_pci b); [by apply ends_ret|by apply ends_throw]. Qed.

Lemma read32_ends h o v : ends (fun _ => True) E (read32 h o v).
Proof. eapply ends_bind; [by apply (ends_read _ (fun _ => True))|]. intros r _. by apply ends_ret. Qed.

Lemma read64_ends h o v : ends (fun _ => True) E (read64 h o v).
Proof. eapply ends_bind; [by apply (ends_read _ (fun _ => True))|]. intros r _. by apply ends_ret. Qed.

Definition answered (l : list pci) : Prop := Forall (fun c => pci_exist c = true) l.

Lemma scan_bus_ok domain devices mark bus l : (forall c, pci_exist (mark c) = pci_exist c) -> answered l ->
  ok answered (scan_bus open_pci fuel domain devices mark bus l).
Proof.
  intros Hm Hl. apply meets_each; [done|]. intros [d f] l' _ Hl'. eapply meets_bind; [apply probe_new|].
  intros c _. apply meets_ret. destruct (pci_exist c) eqn:Hc; [|done].
  apply Forall_app_2; [done|]. apply Forall_singleton. by rewrite Hm.
Qed.

Lemma scan_behind_ok domain devices mark root : (forall c, pci_exist (mark c) = pci_exist c) -> bridge_ok root ->
  ok answered (scan_behind open_pci fuel domain devices mark root).
Proof.
  intros Hm Hr. destruct (bus_number_range root) as [H1 H2]. apply meets_for_buses; [done| |constructor|].
  - intros Hf. specialize (Hr Hf). specialize (Hfuel Hf). lia.
  - intros b l Hl. by apply scan_bus_ok.
Qed.

Lemma port_part_ok domain mark id root : (forall c, pci_exist (mark c) = pci_exist c) -> bridge_ok root ->
  ok (fun p => root_pci_dev p = root /\ answered (part_child_pci_devs p)) (port_part open_pci fuel domain mark id root).
Proof.
  intros Hm Hr. eapply meets_bind; [by apply scan_behind_ok|]. intros l Hl. by apply meets_ret.
Qed.

(** The subordinate bus grows with every call inside a call. *)
Lemma probeDeviceRange_ok depth domain secondary subordinate l :
  0 <= secondary < 256 -> (finite = true -> subordinate < 255 /\ 255 - subordinate <= Z.of_nat depth) -> answered l ->
  0 <= subordinate ->
  ok answered (probeDeviceRange open_pci fuel depth domain secondary subordinate l).
Proof.
  revert secondary subordinate l. induction depth as [|depth IH]; intros secondary subordinate l Hs Hf Hl Hsub.
  { apply meets_running. destruct finite; [|done]. lia. }
  cbn [probeDeviceRange]. apply meets_for_buses; [apply (wrapN_fits 8); lia| |done|].
  { intros Hfin. destruct (Hf Hfin). specialize (Hfuel Hfin). rewrite wrapN_small by (unfold fits; lia). lia. }
  intros b l' Hl'. apply meets_each; [done|]. intros [d f] l0 _ Hl0. eapply meets_bind; [apply probe_new|].
  intros c (_ & Hch & _ & Hc). destruct (pci_exist c) eqn:Hex; [|by apply meets_ret].
  apply (meets_bind _ _ (fun c' => pci_exist c' = true)).
  2: { intros c' Hc'. apply meets_ret, Forall_app_2; [done|by apply Forall_singleton]. }
  destruct (_ && _) eqn:Hcond; [|by apply meets_ret]. apply andb_true_iff in Hcond as [H1%Z.ltb_lt H2%Z.ltb_lt].
  destruct (bus_number_range c) as [Hr1 Hr2]. apply (meets_bind _ _ answered).
  - rewrite Hch. apply IH; [lia| |constructor|lia]. intros Hfin. specialize (Hc Hfin). destruct (Hf Hfin). lia.
  - intros l1 Hl1. by apply meets_ret.
Qed.

(** ** The root buses *)

Definition sad_map_ok (m : list (Z * Z)) : Prop := keys_sorted m /\ Forall (fun e => 0 <= e.1 /\ 0 <= e.2 < 256) m.

Lemma sad_map_nil : sad_map_ok [].
Proof. split; constructor. Qed.

Lemma land_bound x n : 0 <= n -> 0 <= Z.land x (Z.ones n) < 2 ^ n.
Proof. intros Hn. rewrite Z.land_ones by done. apply Z.mod_pos_bound, Z.pow_pos_nonneg; lia. Qed.

Lemma getSadIdRootBusMap_ok socket_id :
  ok (fun o => forall m, o = Some m -> sad_map_ok m) (getSadIdRootBusMap open_pci fuel socket_id).
Proof.
  apply (meets_bind _ _ (fun o => forall m, o = Some m -> sad_map_ok m)).
  2: { intros o Ho. apply meets_ret. intros m Hm. destruct o as [[|e l]|]; [done|by apply Ho|done]. }
  apply (meets_for _ _ (fun _ => sad_map_ok)); [apply sad_map_nil|]. intros bus _ m Hbus%elem_of_seqZ Hm.
  apply (meets_for _ _ (fun _ => sad_map_ok)); [done|]. intros [d f] _ m' _ Hm'.
  eapply meets_bind; [apply probe_new|]. intros p _. destruct (_ && _); [|by apply meets_ret; intros m'' [= <-]].
  eapply meets_bind; [apply meets_hardware, open_ends|]. intros h _.
  eapply meets_bind; [apply meets_hardware, read32_ends|]. intros cfg _.
  destruct (cfg =? all_ones); [by apply meets_ret|]. destruct (_ =? socket_id); [|by apply meets_ret; intros m'' [= <-]].
  apply meets_ret. intros m'' [= <-]. destruct Hm' as [H1 H2]. split; [by apply zmap_insert_sorted|].
  apply zmap_insert_forall; [done|]. simpl. pose proof (land_bound (Z.shiftr cfg 4) 3). change (Z.ones 3) with 7 in *. lia.
Qed.

Lemma catch_all_ends {A} (P : option A -> Prop) (m : M (option A)) : ends P (fun _ => True) m -> P None -> ends P E (catch_all m).
Proof. intros Hm Hn s. specialize (Hm s). unfold catch_all. by destruct (m s) as [s' [a|e]]. Qed.

Lemma read_bus_numbers_ends h l :
  ends (fun o => forall los his, o = Some (los, his) -> length los = length l /\ length his = length l) (fun _ => True) (read_bus_numbers h l).
Proof.
  induction l as [|i l IH]; cbn [read_bus_numbers]; [apply ends_ret; by intros ? ? [= <- <-]|].
  do 2 (eapply ends_bind; [eapply ends_bind; [by apply (ends_read _ (fun _ => True))|intros; by apply (ends_ret _ (fun _ => True))]|]; intros ? _).
  destruct (_ || _); [by apply ends_ret|]. eapply ends_bind; [apply IH|]. intros [[los his]|] Hl; apply ends_ret; [|done].
  intros los' his' [= <- <-]. destruct (Hl los his eq_refl). simpl. lia.
Qed.

Lemma get_cpu_bus_ends msm :
  ends (fun o => forall v nos pk, o = Some (v, nos, pk) -> 0 <= pk /\ (v = 0 \/ length nos = 8%nat)) E (get_cpu_bus open_pci msm).
Proof.
  apply catch_all_ends; [|done].
  assert (forall h o v, ends (fun _ => True) (fun _ => True) (read32 h o v)) as Hread.
  { intros. eapply ends_bind; [by apply (ends_read _ (fun _ => True))|intros; by apply ends_ret]. }
  assert (forall b, ends (fun _ => True) (fun _ => True) (open_handle open_pci b)) as Hopen.
  { intros b. unfold open_handle. destruct (open_pci b); [by apply ends_ret|by apply ends_throw]. }
  eapply ends_bind; [apply Hopen|]. intros h _. eapply ends_bind; [apply Hread|]. intros v _.
  destruct (v =? all_ones); [by apply ends_ret|]. destruct (Z.eqb_spec v 0) as [->|].
  { apply ends_ret. intros ? ? ? [= <- <- <-]. split; [done|by left]. }
  eapply ends_bind; [apply read_bus_numbers_ends|]. intros [[los his]|] Hl; [|by apply ends_ret]. destruct (Hl los his eq_refl) as [H1 H2].
  apply (ends_bind _ (fun _ => True)).
  { unfold bus_byte, at_index. apply (ends_bind _ (fun _ => True)); [|intros; by apply ends_ret].
    destruct (_ <? 0); [by apply ends_throw|]. destruct (_ !! _); [by apply ends_ret|by apply ends_throw]. }
  intros b _. eapply ends_bind; [apply Hopen|]. intros sad _. eapply ends_bind; [apply Hread|]. intros ctl _.
  destruct (ctl =? all_ones); [by apply ends_ret|]. apply ends_ret. intros ? ? ? [= <- <- <-].
  split; [apply (land_bound ctl 4); lia|]. right. rewrite length_app, H1, H2. done.
Qed.

Section RootMap.
Context (key : Z -> option Z).

Definition root_ok (f : Z * bdf) : Prop := (exists id, 0 <= id < 32 /\ key id = Some f.1) /\ 0 <= busno f.2 < 256.

Definition root_map_ok (m : root_bus_map) : Prop :=
  keys_sorted m /\ Forall (fun e => 0 <= e.1 /\ keys_sorted e.2 /\ Forall root_ok e.2) m.

Lemma set_root_bus_ok pk k b m : 0 <= pk -> root_ok (k, b) -> root_map_ok m -> root_map_ok (set_root_bus pk k b m).
Proof.
  intros Hp Hk [H1 H2]. split; [by apply zmap_set_sorted|]. apply zmap_set_forall; [done|]. split; [done|]. simpl.
  assert (keys_sorted (default [] (zmap_find pk m)) /\ Forall root_ok (default [] (zmap_find pk m))) as [H3 H4].
  { destruct (zmap_find pk m) as [r|] eqn:Hf; [|split; constructor]. rewrite Forall_forall in H2.
    by destruct (H2 _ (zmap_find_in _ _ _ Hf)) as (_ & ? & ?). }
  split; [by apply zmap_set_sorted|by apply zmap_set_forall].
Qed.

Lemma bus_byte_ends nos id : length nos = 8%nat -> 0 <= id < 32 -> ends (fun b => 0 <= b < 256) E (bus_byte nos id).
Proof.
  intros Hn Hi. assert (0 <= id / 4 < 8) as Hq by (split; [apply Z.div_pos; lia|apply Z.div_lt_upper_bound; lia]).
  unfold bus_byte, at_index. destruct (Z.ltb_spec (id / 4) 0); [lia|].
  destruct (lookup_lt_is_Some_2 nos (Z.to_nat (id / 4))) as [r Hr]; [lia|]. rewrite Hr.
  apply (ends_bind _ (fun _ => True)); [by apply ends_ret|]. intros r' _. apply ends_ret. apply (land_bound _ 8). lia.
Qed.

Lemma map_cpu_buses_ok domain v nos pk st : 0 <= pk -> v = 0 \/ length nos = 8%nat -> root_map_ok st.2 ->
  ok (fun st' => root_map_ok st'.2) (map_cpu_buses key domain v nos pk st).
Proof.
  intros Hp Hv Hm. apply (meets_each _ _ (fun st => root_map_ok st.2)); [done|]. intros id st' Hid%elem_of_seqZ Hm'.
  destruct (Z.testbit v id) eqn:Hb; [|by apply meets_ret]. cbn [negb]. destruct (key id) as [k|] eqn:Hk; [|by apply meets_ret].
  change SPR_MSM_CPUBUSNO_MAX with 32 in Hid.
  eapply meets_bind; [apply meets_hardware, bus_byte_ends; [|lia]|].
  { destruct Hv as [->|]; [by rewrite Z.bits_0 in Hb|done]. }
  intros b Hb'. apply meets_ret. simpl. apply set_root_bus_ok; [done| |done]. split; [exists id; split; [lia|done]|done].
Qed.

(** In a domain without devices nothing is found. *)
Definition empty_domain (D : Z) : Prop := forall b, domainno b = D -> open_pci b = None.

Lemma mesh_functions_ok domain b d fs st : root_map_ok st.2 ->
  ok (fun o => forall st', o = Some st' -> root_map_ok st'.2 /\ (empty_domain domain -> st'.1 = st.1)) (mesh_functions open_pci fuel key domain b d fs st).
Proof.
  revert st. induction fs as [|f fs IH]; intros st Hm; cbn [mesh_functions]; [apply meets_ret; by intros st' [= <-]|].
  eapply meets_bind; [apply probe_new|]. intros p (_ & _ & Hp & _). destruct (pci_exist p) eqn:Hex; cbn [negb].
  2: { apply meets_ret. by intros st' [= <-]. }
  assert (~ empty_domain domain) as Hne. { intros He. specialize (Hp (He (Bdf domain b d f) eq_refl)). congruence. }
  assert (forall st st0, root_map_ok st.2 -> ok (fun o => forall st', o = Some st' -> root_map_ok st'.2 /\ (empty_domain domain -> st'.1 = st0))
            (mesh_functions open_pci fuel key domain b d fs st)) as IH'.
  { intros st1 st0 H1. eapply meets_weaken; [by apply IH|]. intros o Ho st' Hst. split; [by apply Ho|done]. }
  destruct (isIntelDeviceById p SPR_MSM_DEV_ID); cbn [negb]; [|by apply IH'].
  eapply meets_bind; [apply meets_hardware, get_cpu_bus_ends|]. intros [[[v nos] pk]|] Ho; [|by apply meets_ret].
  destruct (Ho v nos pk eq_refl) as [H1 H2]. eapply meets_bind; [by apply map_cpu_buses_ok|]. intros st' Hst. by apply IH'.
Qed.

Lemma root_buses_from_ok n domain m : root_map_ok m -> 0 <= domain ->
  (finite = true -> exists D, domain <= D < 2 ^ 32 /\ D - domain < Z.of_nat n /\ empty_domain D) ->
  ok (fun o => forall m', o = Some m' -> root_map_ok m') (root_buses_from open_pci fuel key n domain m).
Proof.
  revert domain m. induction n as [|n IH]; intros domain m Hm Hdom Hf.
  { apply meets_running. destruct finite; [|done]. destruct (Hf eq_refl) as (D & H1 & H2 & _). lia. }
  cbn [root_buses_from].
  set (I := fun st : bool * root_bus_map => root_map_ok st.2 /\ (empty_domain domain -> st.1 = false)).
  apply (meets_bind _ _ (fun o => forall st, o = Some st -> I st)).
  - apply (meets_for _ _ (fun _ => I)); [by split|]. intros b _ st _ Hst.
    apply (meets_for _ _ (fun _ => I)); [done|]. intros d _ st' _ [H1 H2].
    eapply meets_weaken; [by apply mesh_functions_ok|]. intros o Ho st'' Hs. destruct (Ho _ Hs) as [H3 H4].
    split; [done|]. intros He. rewrite H4 by done. by apply H2.
  - intros [[mapped m']|] Ho; [|by apply meets_ret]. destruct (Ho _ eq_refl) as [H1 H2]. simpl in *.
    destruct mapped; [|apply meets_ret; by intros ? [= <-]]. apply IH; [done|apply (wrapN_fits 32); lia|].
    intros Hfin. destruct (Hf Hfin) as (D & H3 & H4 & H5). exists D. destruct (decide (domain = D)) as [->|].
    { specialize (H2 H5). done. }
    rewrite wrapN_small by (unfold fits; lia). split_and!; [lia..|done].
Qed.

Lemma getRootBusesBy_ok : (finite = true -> exists D, 0 <= D < Z.of_nat fuel /\ D < 2 ^ 32 /\ empty_domain D) ->
  ok (fun o => forall m, o = Some m -> root_map_ok m) (getRootBusesBy open_pci fuel key).
Proof.
  intros Hf. eapply meets_bind; [apply root_buses_from_ok; [split; constructor|lia|]|].
  - intros Hfin. destruct (Hf Hfin) as (D & H1 & H2 & H3). exists D. split_and!; [lia..|done].
  - intros o Ho. apply meets_ret. intros m Hm. destruct o as [[|e l]|]; [done|by apply Ho|done].
Qed.

End RootMap.

(** ** Stacks *)

(** A stack of a unit at an address, whatever parts it has. *)
Definition stack_from (names : list str) (u d b : Z) (s : iio_stack) : Prop :=
  iio_unit_id s = u /\ stack_ok names s /\ stack_domain s = d /\ stack_busno s = b.

Lemma push_part_ok names u d b s id root children : stack_from names u d b s ->
  (pci_bdf root = no_bdf \/ domainno (pci_bdf root) = d /\ b <= busno (pci_bdf root)) -> answered children ->
  stack_from names u d b (push_part (MkIioPart id root children) s).
Proof.
  intros (H1 & (H2 & H3 & H4) & H5 & H6) Hr Hc. split_and!; [done| |done|done]. split_and!; [done|done|].
  simpl. apply Forall_app_2; [done|]. apply Forall_singleton. split; [|done]. simpl. by rewrite H5, H6.
Qed.

Lemma push_port_ok names u d b s p root : stack_from names u d b s -> root_pci_dev p = root ->
  (domainno (pci_bdf root) = d /\ b <= busno (pci_bdf root)) -> answered (part_child_pci_devs p) ->
  stack_from names u d b (push_part p s).
Proof. intros Hs <- Hr Hc. destruct p as [id r l]. apply push_part_ok; [done|by right|done]. Qed.

Lemma at_index_ends {A} (v : list A) i x : 0 <= i -> v !! Z.to_nat i = Some x -> ends (fun y => y = x) E (at_index v i).
Proof. intros Hi Hx. unfold at_index. destruct (Z.ltb_spec i 0); [lia|]. rewrite Hx. by apply ends_ret. Qed.

Definition fresh_stack (names : list str) (u d b : Z) (s : iio_stack) : Prop := stack_from names u d b s /\ parts s = [].

Lemma named_stack names u d b : 0 <= u < Z.of_nat (length names) ->
  ok (fresh_stack names u d b) (name ← hardware (at_index names u); mret (MkIioStack [] u name d b)).
Proof.
  intros Hu. destruct (lookup_lt_is_Some_2 names (Z.to_nat u)) as [x Hx]; [lia|].
  eapply meets_bind; [apply meets_hardware, (at_index_ends _ _ x); [lia|done]|]. intros y ->. apply meets_ret.
  split; [|done]. split_and!; [done| |done|done]. split_and!; [simpl; lia|done|constructor].
Qed.

(** Every unit of a mapping has a name. *)
Definition all_named (m : list (Z * Z)) (names : list str) : Prop :=
  Forall (fun e => 0 <= e.2 < Z.of_nat (length names)) m.
#[local] Instance all_named_dec m names : Decision (all_named m names).
Proof. unfold all_named. apply _. Defined.

Lemma mapped_stack m names key u d b : all_named m names -> zmap_find key m = Some u ->
  ok (fresh_stack names u d b)
    (unit ← hardware (at_key m key); name ← hardware (at_index names unit); mret (MkIioStack [] unit name d b)).
Proof.
  intros Hm Hk. unfold all_named in Hm. rewrite Forall_forall in Hm. specialize (Hm _ (zmap_find_in _ _ _ Hk)).
  eapply (meets_bind _ _ (fun v => v = u)); [apply meets_hardware; unfold at_key; rewrite Hk; by apply ends_ret|].
  intros v ->. by apply named_stack.
Qed.

Lemma probe_at_ok domain bus d f : 0 <= bus < 256 ->
  ok (new_probed (Bdf domain bus d f)) (probe_at open_pci fuel domain bus d f).
Proof. intros Hb. unfold probe_at. rewrite wrapN_small by done. apply probe_new. Qed.

(** A root port in a slot of the root bus and what is behind it. *)
Lemma slot_ok names u domain bus slot mark id s : 0 <= bus < 256 -> (forall c, pci_exist (mark c) = pci_exist c) ->
  stack_from names u domain bus s ->
  ok (stack_from names u domain bus)
    (pci ← probe_at open_pci fuel domain bus slot 0;
     if pci_exist pci then part ← port_part open_pci fuel domain mark id pci; mret (push_part part s) else mret s).
Proof.
  intros Hb Hm Hs. eapply meets_bind; [by apply probe_at_ok|]. intros p (Hp & _ & _ & Hr).
  destruct (pci_exist p); [|by apply meets_ret]. eapply meets_bind; [by apply port_part_ok|]. intros q [Hq Hc]. apply meets_ret.
  eapply push_port_ok; [done|done| |done]. rewrite Hp. simpl. lia.
Qed.

(** ** Ice Lake *)

Definition drop_key (k : Z) (m : list (Z * Z)) : list (Z * Z) := List.filter (fun e => negb (e.1 =? k)) m.

Lemma zmap_find_drop k k' m : k <> k' -> zmap_find k (drop_key k' m) = zmap_find k m.
Proof.
  intros Hk. unfold drop_key. induction m as [|[a v] m IH]; simpl; [done|]. destruct (Z.eqb_spec a k') as [->|]; simpl.
  - rewrite IH. by rewrite (proj2 (Z.eqb_neq k k')).
  - by rewrite IH.
Qed.

Lemma unit_of_value m k : 0 <= k -> 0 <= unit_of m k -> unit_of m k ∈ map snd m.
Proof.
  unfold unit_of. intros Hk Hu. destruct (zmap_find k m) as [u|] eqn:Hf; simpl in *; [|lia].
  apply zmap_find_in in Hf. by apply (list_elem_of_fmap_2 snd) in Hf.
Qed.

Section WhitleyPromise.
Context (model : Z).
Let m := whitley_mapping model.
Let names := whitley_names model.
Let m' := drop_key ICX_MCP_SAD_ID m.

Lemma whitley_tables : all_named m names /\ mapping_ok m' /\ is_Some (zmap_find ICX_CBDMA_DMI_SAD_ID m) /\
  exists u, zmap_find ICX_MCP_SAD_ID m = Some u /\ 0 <= u /\ u ∉ map snd m'.
Proof.
  subst m names m'. unfold whitley_mapping, whitley_names. destruct (icx_d model).
  - split_and!; [decided..|by eexists|]. exists 0. split_and!; [done|done|decided].
  - split_and!; [decided..|by eexists|]. exists 2. split_and!; [done|done|decided].
Qed.

Lemma Whitley_dmi_stack_ok socket bus u : 0 <= bus < 256 -> zmap_find ICX_CBDMA_DMI_SAD_ID m = Some u ->
  ok (stack_from names u 0 bus) (Whitley_dmi_stack open_pci fuel model socket bus).
Proof.
  intros Hb Hu. eapply meets_bind; [by apply mapped_stack; [apply whitley_tables|exact Hu]|]. intros s [Hs _].
  apply (meets_bind _ _ (stack_from names u 0 bus)).
  - destruct (socket =? 0); [|by apply meets_ret]. by apply (slot_ok names u 0 bus 0 id).
  - intros s' Hs'. eapply meets_bind; [by apply probe_at_ok|]. intros p (Hp & _). apply meets_ret.
    destruct (pci_exist p); [|done]. apply push_part_ok; [done| |constructor]. right. rewrite Hp. simpl. lia.
Qed.

Lemma Whitley_pcie_stack_ok sad bus u : 0 <= bus < 256 -> zmap_find sad m = Some u ->
  ok (stack_from names u 0 bus) (Whitley_pcie_stack open_pci fuel model sad bus).
Proof.
  intros Hb Hu. eapply meets_bind; [by apply mapped_stack; [apply whitley_tables|exact Hu]|]. intros s [Hs _].
  apply meets_each; [done|]. intros slot s' _ Hs'. by apply (slot_ok names u 0 bus slot id).
Qed.

Lemma Whitley_socket_ok socket :
  ok (fun o => forall k, o = Some k -> socket_ok names k /\ iio_socket_id k = socket) (Whitley_socket open_pci fuel model socket).
Proof.
  destruct whitley_tables as (Hn & Hm & [u0 Hdmi] & u & Hu & Hu0 & Hnew).
  eapply meets_bind; [apply getSadIdRootBusMap_ok|]. intros [l|] Hl; [|by apply meets_ret]. destruct (Hl l eq_refl) as [Hs Hb].
  eapply meets_bind; [by apply mapped_stack; [apply Hn|exact Hu]|]. intros mcp [Hmcp _].
  apply (meets_bind _ _ (fun o => forall k, o = Some k -> building names socket [] k)).
  2: { intros o Ho. apply meets_ret. by apply sort_built. }
  apply (meets_for _ _ (fun l => building names socket (map (fun e => unit_of m' e.1) l))).
  - split_and!; [|apply Forall_singleton; by apply Hmcp|done]. unfold units. cbn [map stacks app]. rewrite (proj1 Hmcp).
    constructor; [|apply units_nodup; [done|done|]; eapply Forall_impl; [exact Hb|]; by intros ? [? _]].
    intros (e & He & Hin)%list_elem_of_fmap. rewrite Forall_forall in Hb. destruct (Hb _ Hin) as [Hk _].
    apply Hnew. rewrite He. apply unit_of_value; [done|lia].
  - intros e l' k He Hk. rewrite Forall_forall in Hb. destruct (Hb _ He) as [_ Hbus]. cbn [map] in Hk.
    fold m. destruct (zmap_find e.1 m) as [ue|] eqn:Hf; [|by apply meets_ret].
    destruct (Z.eqb_spec e.1 ICX_MCP_SAD_ID) as [|Hne]. { apply meets_ret. intros k' [= <-]. by eapply building_skip. }
    assert (unit_of m' e.1 = ue) as Hue by (unfold unit_of, m'; rewrite zmap_find_drop by done; by rewrite Hf).
    destruct (Z.eqb_spec e.1 ICX_CBDMA_DMI_SAD_ID) as [Hd|].
    + eapply meets_bind; [apply (Whitley_dmi_stack_ok socket e.2 ue); [done|by rewrite <- Hd]|]. intros s (H1 & H2 & _).
      apply meets_ret. intros k' [= <-]. eapply building_push; [done|done|congruence].
    + eapply meets_bind; [by apply (Whitley_pcie_stack_ok e.1 e.2 ue)|]. intros s (H1 & H2 & _).
      apply meets_ret. intros k' [= <-]. eapply building_push; [done|done|congruence].
Qed.

End WhitleyPromise.

(** ** Snow Ridge and Grand Ridge *)

(** The stacks of the entries of a map from SAD identifiers to buses, one for each entry. *)
Lemma sad_stacks_ok mapping names socket l (body : Z * Z -> iio_stacks_on_socket -> T (option iio_stacks_on_socket)) :
  mapping_ok mapping -> sad_map_ok l ->
  (forall e k left, 0 <= e.1 -> 0 <= e.2 < 256 -> building names socket (unit_of mapping e.1 :: left) k ->
     ok (fun o => forall k', o = Some k' -> building names socket left k') (body e k)) ->
  ok (fun o => forall k, o = Some k -> socket_ok names k /\ iio_socket_id k = socket)
     (o ← for_T l body (MkIioSocket [] socket); mret (sort_stacks <$> o)).
Proof.
  intros Hm [Hs Hb] Hbody. apply (meets_bind _ _ (fun o => forall k, o = Some k -> building names socket [] k)).
  2: { intros o Ho. apply meets_ret. by apply sort_built. }
  apply (meets_for _ _ (fun l => building names socket (map (fun e => unit_of mapping e.1) l))).
  - split_and!; [|constructor|done]. apply units_nodup; [done|done|]. eapply Forall_impl; [exact Hb|]. by intros ? [? _].
  - intros e l' k He Hk. rewrite Forall_forall in Hb. destruct (Hb _ He) as [H1 H2]. by apply Hbody.
Qed.

Let snr := snr_sad_to_pmu_id_mapping.

Lemma snr_tables : all_named snr snr_iio_stack_names /\ mapping_ok snr.
Proof. split; decided. Qed.

Lemma find_device_ok id l : (forall b, b ∈ l -> domainno b = 0 /\ 0 <= busno b) ->
  ok (fun o => forall p, o = Some p -> domainno (pci_bdf p) = 0 /\ 0 <= busno (pci_bdf p)) (find_device open_pci fuel id l).
Proof.
  induction l as [|b l IH]; intros Hl; cbn [find_device]; [by apply meets_ret|].
  eapply meets_bind; [apply probe_new|]. intros p (Hp & _). destruct (_ && _).
  - apply meets_ret. intros p' [= <-]. rewrite Hp. apply Hl. left.
  - apply IH. intros b' Hb'. apply Hl. by right.
Qed.

Lemma addresses_from_bounds bus b : 0 <= bus -> b ∈ addresses_from bus -> domainno b = 0 /\ bus <= busno b.
Proof.
  intros Hb. unfold addresses_from. rewrite list_elem_of_In, in_concat. intros (l & Hl & Hin).
  apply in_map_iff in Hl as (b' & <- & Hb'). apply in_map_iff in Hin as (df & <- & _).
  apply list_elem_of_In, elem_of_seqZ in Hb'. simpl. lia.
Qed.

Lemma JacobsvilleAccelerators_ok sad bus u : 0 <= bus < 256 -> zmap_find sad snr = Some u ->
  ok (fun s => iio_unit_id s = u /\ stack_ok snr_iio_stack_names s) (JacobsvilleAccelerators open_pci fuel sad bus).
Proof.
  intros Hb Hu. eapply meets_bind; [apply mapped_stack; [apply snr_tables|exact Hu]|]. intros s [(H1 & (H2 & H3 & _) & H5 & _) Hp].
  eapply meets_bind; [apply find_device_ok|].
  - intros b Hin. apply addresses_from_bounds in Hin as [? ?]; lia.
  - intros [p|] Ho; apply meets_ret.
    + destruct (Ho p eq_refl) as [Hd _]. split; [done|]. split_and!; [done|done|]. simpl. rewrite Hp.
      apply Forall_singleton. split; [|constructor]. right. simpl. rewrite Hd, H5. lia.
    + split; [done|]. split_and!; [done..|]. rewrite Hp. constructor.
Qed.

Lemma Jacobsville_dmi_stack_ok bus u : 0 <= bus < 256 -> zmap_find SNR_CBDMA_DMI_SAD_ID snr = Some u ->
  ok (stack_from snr_iio_stack_names u 0 bus) (Jacobsville_dmi_stack open_pci fuel bus).
Proof.
  intros Hb Hu. eapply meets_bind; [apply mapped_stack; [apply snr_tables|exact Hu]|]. intros s [Hs _].
  eapply meets_bind; [by apply probe_at_ok|]. intros dma (Hdma & _ & _ & Hr).
  set (s' := if pci_exist dma then push_part (MkIioPart 0 dma []) s else s).
  assert (stack_from snr_iio_stack_names u 0 bus s') as Hs'.
  { subst s'. destruct (pci_exist dma); [|done]. apply push_part_ok; [done| |constructor]. right. rewrite Hdma. simpl. lia. }
  cbv zeta. fold s'. clearbody s'. eapply meets_bind; [apply Hprobe|]. intros p (Hp & _ & _ & Hr').
  destruct (pci_exist p); [|by apply meets_ret]. eapply meets_bind; [apply port_part_ok; [done|by apply Hr']|].
  intros q [Hq Hc]. apply meets_ret. eapply push_port_ok; [done|done| |done]. rewrite Hp. simpl. rewrite wrapN_small by done. lia.
Qed.

Lemma Jacobsville_pcie_stack_ok bus u : 0 <= bus < 256 -> zmap_find SNR_PCIE_GEN3_SAD_ID snr = Some u ->
  ok (fun o => forall s, o = Some s -> stack_from snr_iio_stack_names u 0 bus s) (Jacobsville_pcie_stack open_pci fuel bus).
Proof.
  intros Hb Hu. eapply meets_bind; [apply mapped_stack; [apply snr_tables|exact Hu]|]. intros s [Hs _].
  apply (meets_for _ _ (fun _ => stack_from snr_iio_stack_names u 0 bus)); [done|]. intros slot _ s' _ Hs'.
  eapply meets_bind; [by apply probe_at_ok|]. intros p (Hp & _ & _ & Hr).
  destruct (pci_exist p); cbn [negb]; [|by apply meets_ret; intros ? [= <-]]. cbv zeta.
  destruct (_ || _); [by apply meets_ret|]. eapply meets_bind; [by apply port_part_ok|]. intros q [Hq Hc]. apply meets_ret.
  intros ? [= <-]. eapply push_port_ok; [done|done| |done]. rewrite Hp. simpl. lia.
Qed.

Lemma Jacobsville_one_stack_ok sad bus : 0 <= bus < 256 ->
  ok (fun o => forall s, o = Some s -> iio_unit_id s = unit_of snr sad /\ stack_ok snr_iio_stack_names s) (Jacobsville_one_stack open_pci fuel sad bus).
Proof.
  intros Hb. unfold Jacobsville_one_stack.
  destruct (Z.eqb_spec sad SNR_CBDMA_DMI_SAD_ID) as [->|].
  { eapply meets_bind; [by apply (Jacobsville_dmi_stack_ok bus 1)|]. intros s (H1 & H2 & _). apply meets_ret. by intros ? [= <-]. }
  destruct (Z.eqb_spec sad SNR_PCIE_GEN3_SAD_ID) as [->|].
  { eapply meets_weaken; [by apply (Jacobsville_pcie_stack_ok bus 4)|]. intros o Ho s Hs. by destruct (Ho s Hs) as (H1 & H2 & _). }
  destruct (_ || _) eqn:Hc; [|by apply meets_ret].
  assert (is_Some (zmap_find sad snr)) as [u Hu].
  { apply orb_true_iff in Hc as [[Hc|Hc]%orb_true_iff|Hc]; apply Z.eqb_eq in Hc; subst sad; by eexists. }
  eapply meets_bind; [by apply (JacobsvilleAccelerators_ok sad bus u)|]. intros s [H1 H2]. apply meets_ret. intros ? [= <-].
  split; [|done]. rewrite H1. unfold unit_of. by rewrite Hu.
Qed.

Lemma Jacobsville_socket_ok socket :
  ok (fun o => forall k, o = Some k -> socket_ok snr_iio_stack_names k /\ iio_socket_id k = socket) (Jacobsville_socket open_pci fuel socket).
Proof.
  eapply meets_bind; [apply getSadIdRootBusMap_ok|]. intros [l|] Hl; [|by apply meets_ret].
  destruct (negb _); [by apply meets_ret|]. apply (sad_stacks_ok snr); [apply snr_tables|by apply Hl|].
  intros e k left He Hb Hk. eapply meets_bind; [by apply Jacobsville_one_stack_ok|]. intros [s|] Ho; apply meets_ret; [|done].
  intros k' [= <-]. destruct (Ho s eq_refl). by eapply building_push.
Qed.

Let grr := grr_sad_to_pmu_id_mapping.

Lemma grr_tables : all_named grr grr_iio_stack_names /\ mapping_ok grr.
Proof. split; decided. Qed.

Lemma find_dlb_ok bus l : 0 <= bus -> (forall b, b ∈ l -> bus <= b < 256) ->
  ok (fun o => forall p, o = Some p -> domainno (pci_bdf p) = 0 /\ bus <= busno (pci_bdf p)) (find_dlb open_pci fuel l).
Proof.
  intros H0. induction l as [|b l IH]; intros Hl; cbn [find_dlb]; [by apply meets_ret|].
  assert (bus <= b < 256) as Hb by (apply Hl; left).
  eapply meets_bind; [apply probe_at_ok; lia|]. intros p (Hp & _). destruct (_ && _).
  - apply meets_ret. intros p' [= <-]. rewrite Hp. simpl. lia.
  - apply IH. intros b' Hb'. apply Hl. by right.
Qed.

Lemma Loganville_port_ok u bus device devices id s : 0 <= bus < 256 -> stack_from grr_iio_stack_names u 0 bus s ->
  ok (stack_from grr_iio_stack_names u 0 bus) (Loganville_port open_pci fuel bus device devices id s).
Proof.
  intros Hb Hs. eapply meets_bind; [by apply probe_at_ok|]. intros p (Hp & _ & _ & Hr).
  destruct (pci_exist p); [|by apply meets_ret]. eapply meets_bind; [by apply scan_behind_ok|]. intros l Hl. apply meets_ret.
  apply push_part_ok; [done| |done]. right. rewrite Hp. simpl. lia.
Qed.

Lemma Loganville_socket_ok socket :
  ok (fun o => forall k, o = Some k -> socket_ok grr_iio_stack_names k /\ iio_socket_id k = socket) (Loganville_socket open_pci fuel socket).
Proof.
  eapply meets_bind; [apply getSadIdRootBusMap_ok|]. intros [l|] Hl; [|by apply meets_ret].
  destruct (negb _); [by apply meets_ret|]. apply (sad_stacks_ok grr); [apply grr_tables|by apply Hl|].
  intros [sad bus] k left He Hb Hk. cbn [fst snd] in *. fold grr. destruct (zmap_find sad grr) as [u|] eqn:Hu; [|by apply meets_ret].
  replace (unit_of grr sad) with u in Hk by (unfold unit_of; by rewrite Hu).
  pose proof (proj1 grr_tables) as Hn. unfold all_named in Hn. rewrite Forall_forall in Hn. specialize (Hn _ (zmap_find_in _ _ _ Hu)).
  destruct (u =? GRR_PCH_DSA_GEN4_PMON_ID); [|destruct (u =? GRR_DLB_PMON_ID); [|destruct (u =? GRR_NIS_QAT_PMON_ID); [|by apply meets_ret]]];
    (eapply meets_bind; [by apply (named_stack grr_iio_stack_names u 0 bus)|]); intros s [Hs _].
  - eapply meets_bind; [by apply probe_at_ok|]. intros p (Hp & _ & _ & Hr). destruct (pci_exist p); [|by apply meets_ret].
    destruct (bus_number_range p). eapply meets_bind; [apply probeDeviceRange_ok; [done| |constructor|lia]|].
    { intros Hf. specialize (Hr Hf). specialize (Hfuel Hf). lia. }
    intros c Hc. apply meets_ret. intros k' [= <-]. eapply building_push; [done| |].
    + eapply push_part_ok; [done| |done]. right. rewrite Hp. simpl. lia.
    + apply Hs.
  - eapply meets_bind; [apply (find_dlb_ok bus); [lia|intros b Hin%elem_of_seqZ; lia]|].
    intros [p|] Ho; [|by apply meets_ret]. destruct (Ho p eq_refl). eapply meets_bind; [by apply scan_bus_ok; [|constructor]|].
    intros c Hc. apply meets_ret. intros k' [= <-]. eapply building_push; [done| |].
    + eapply push_part_ok; [done|by right|done].
    + apply Hs.
  - eapply meets_bind; [by apply Loganville_port_ok|]. intros s1 Hs1. eapply meets_bind; [by apply Loganville_port_ok|].
    intros s2 (H1 & H2 & _). apply meets_ret. intros k' [= <-]. by eapply building_push.
Qed.

(** ** Skylake *)

Lemma Purley_part_ok stack_id bus id : ok (fun p => pci_bdf (root_pci_dev p) = Bdf 0 bus id 0 /\ answered (part_child_pci_devs p))
  (Purley_part open_pci fuel stack_id bus id).
Proof.
  unfold Purley_part. destruct (_ && _). { apply meets_ret. split; [done|constructor]. }
  eapply meets_bind; [apply probe_new|]. intros p (Hp & _ & _ & Hr). destruct (pci_exist p).
  - eapply meets_weaken; [by apply port_part_ok|]. intros q [-> Hc]. done.
  - apply meets_ret. split; [done|constructor].
Qed.

Lemma Purley_stack_ok cpubusno id : 0 <= id < 6 ->
  ok (fun s => iio_unit_id s = id /\ stack_ok skx_iio_stack_names s) (Purley_stack open_pci fuel cpubusno id).
Proof.
  intros Hi. unfold Purley_stack. cbv zeta. set (bus := u8 (Z.shiftr cpubusno _)). clearbody bus.
  destruct (lookup_lt_is_Some_2 skx_iio_stack_names (Z.to_nat id)) as [x Hx]; [simpl; lia|].
  eapply meets_bind; [apply meets_hardware, (at_index_ends _ _ x); [lia|done]|]. intros y ->.
  eapply (meets_weaken _ _ (stack_from skx_iio_stack_names id 0 bus)); [|by intros s (? & ? & _)].
  apply meets_each.
  - split_and!; [done| |done|done]. split_and!; [simpl; lia|done|constructor].
  - intros part s _ Hs. eapply meets_bind; [apply Purley_part_ok|]. intros p [Hp Hc]. apply meets_ret.
    eapply push_port_ok; [done|done| |done]. rewrite Hp. simpl. lia.
Qed.

Lemma sorted_app_inv (l l' : list Z) : StronglySorted Z.lt (l ++ l') -> StronglySorted Z.lt l.
Proof.
  induction l as [|x l IH]; intros Hl; [constructor|]. apply StronglySorted_inv in Hl as [Hl Hx].
  constructor; [by apply IH|]. by apply Forall_app in Hx as [? _].
Qed.

Lemma seqZ_sorted a n : StronglySorted Z.lt (seqZ a n).
Proof.
  destruct (Z.le_gt_cases n 0) as [|Hn]; [rewrite seqZ_nil by lia; constructor|].
  revert a. rewrite <- (Z2Nat.id n) by lia. induction (Z.to_nat n) as [|k IH]; intros a; [constructor|].
  rewrite seqZ_cons by lia. replace (Z.pred (Z.of_nat (S k))) with (Z.of_nat k) by lia. constructor; [apply IH|].
  apply Forall_forall. intros x Hx%elem_of_seqZ. lia.
Qed.

Lemma Purley_socket_ok ubox socket : E OutOfRange ->
  ok (fun o => forall k, o = Some k -> socket_ok skx_iio_stack_names k /\ iio_socket_id k = socket) (Purley_socket open_pci fuel ubox socket).
Proof.
  intros HE. apply (meets_bind _ _ (fun _ => True)).
  { apply meets_hardware. unfold at_index. destruct (_ <? 0); [by apply ends_throw|]. destruct (_ !! _); [by apply ends_ret|by apply ends_throw]. }
  intros b _. cbv zeta. destruct (negb _); [by apply meets_ret|].
  eapply meets_bind; [apply meets_hardware, open_ends|]. intros h _. eapply meets_bind; [apply meets_hardware, read64_ends|]. intros v _.
  set (I := fun left k => StronglySorted Z.lt (units k ++ left) /\ Forall (stack_ok skx_iio_stack_names) (stacks k) /\ iio_socket_id k = socket).
  apply (meets_bind _ _ (I [])).
  - apply (meets_each_left _ _ I); [split_and!; [apply (seqZ_sorted 0 6)|constructor|done]|].
    intros id left k Hid%elem_of_seqZ (H1 & H2 & H3). eapply meets_bind; [apply Purley_stack_ok; lia|]. intros s [<- Hs]. apply meets_ret.
    split_and!; [|by apply Forall_app_2, Forall_singleton|done]. unfold units. simpl. rewrite map_app. simpl. by rewrite <- app_assoc.
  - intros k (H1 & H2 & H3). apply meets_ret. intros k' [= <-]. rewrite app_nil_r in H1. done.
Qed.

(** ** Packages *)

Lemma probe_package_ok names (unit : Z -> Z) probe (e : Z * list (Z * bdf)) :
  NoDup (map (fun rb => unit rb.1) e.2) ->
  (forall rb k left, rb ∈ e.2 -> building names e.1 (unit rb.1 :: left) k ->
     ok (fun o => forall k', o = Some k' -> building names e.1 left k') (probe rb.1 rb.2 k)) ->
  ok (fun o => forall k, o = Some k -> socket_ok names k /\ iio_socket_id k = e.1) (probe_package probe e).
Proof.
  intros Hn Hb. apply (meets_bind _ _ (fun o => forall k, o = Some k -> building names e.1 [] k)).
  2: { intros o Ho. apply meets_ret. by apply sort_built. }
  apply (meets_for _ _ (fun l => building names e.1 (map (fun rb => unit rb.1) l))); [split_and!; [done|constructor|done]|].
  intros rb l' k Hin Hk. by apply Hb.
Qed.

(** ** Sapphire Rapids *)

Definition es_mapping (t : EagleStreamSupportedTypes) : list (Z * Z) :=
  match t with
  | esInvalid => [] | esSprXcc => spr_xcc_sad_to_pmu_id_mapping | esSprMcc => spr_mcc_sad_to_pmu_id_mapping
  | esEmrXcc => emr_sad_to_pmu_id_mapping
  end.

Definition es_names (t : EagleStreamSupportedTypes) : list str :=
  match t with
  | esInvalid => [] | esSprXcc => spr_xcc_iio_stack_names | esSprMcc => spr_mcc_iio_stack_names | esEmrXcc => emr_iio_stack_names
  end.

Definition decides (m : M bool) (b : bool) : Prop := forall s, m s = (s, Ok b).

(** Every unit of the mapping is of exactly one kind, and the table of units is not read past
    its end. *)
Lemma es_classified t u : u ∈ map snd (es_mapping t) ->
  0 <= u < Z.of_nat (length (es_names t)) /\
  exists d, decides (isDmiStack t u) d /\ (d = false -> exists p, decides (es_isPcieStack t u) p /\ (p = false -> decides (isDinoStack t u) true)).
Proof.
  intros Hu. destruct t; vm_compute in Hu; match type of Hu with list_elem_of _ ?l => change (u ∈ l) in Hu end;
    repeat (apply elem_of_cons in Hu as [->|Hu];
      [split; [vm_compute; by split|]; eexists; split; [intros s; reflexivity|]; intros Hd; first [discriminate Hd|
       eexists; split; [intros s; reflexivity|]; intros Hp; first [discriminate Hp|intros s; reflexivity]]|]);
    by apply not_elem_of_nil in Hu.
Qed.

Lemma es_table_ends {A} (P : A -> Prop) x m e t : t <> esInvalid -> P x -> P m -> P e -> ends P E (es_table x m e t).
Proof. intros Ht Hx Hm He. destruct t; [done|by apply ends_ret..]. Qed.

Lemma EagleStream_stack_ok t u a : t <> esInvalid -> u ∈ map snd (es_mapping t) ->
  ok (fresh_stack (es_names t) u (domainno a) (busno a)) (EagleStream_stack t u a).
Proof.
  intros Ht Hu. destruct (es_classified t u Hu) as [Hr _]. unfold EagleStream_stack.
  apply (meets_bind _ _ (fun l => l = es_names t)); [apply meets_hardware; destruct t; [done|by apply ends_ret..]|].
  intros l ->. by apply named_stack.
Qed.

Lemma foldl_add_part_exist l p : pci_exist (foldl (fun p part => add_part part p) p l) = pci_exist p.
Proof. revert p. induction l as [|x l IH]; intros p; [done|]. simpl. by rewrite IH. Qed.

Lemma es_stackProbe_ok chop t u a id left k : t <> esInvalid -> u ∈ map snd (es_mapping t) -> 0 <= busno a < 256 ->
  building (es_names t) id (u :: left) k ->
  ok (fun o => forall k', o = Some k' -> building (es_names t) id left k') (es_stackProbe open_pci fuel chop t u a k).
Proof.
  intros Ht Hu Ha Hk. destruct (es_classified t u Hu) as [_ (d & Hd & Hnd)]. unfold es_stackProbe.
  assert (forall m b, decides m b -> ends (fun x => x = b) E m) as Hdec by (intros m b Hm s; by rewrite (Hm s)).
  eapply meets_bind; [apply meets_hardware, Hdec, Hd|]. intros ? ->. destruct d.
  - eapply meets_bind; [by apply EagleStream_stack_ok|]. intros s [Hs _]. eapply meets_bind; [apply probe_new|]. intros p (Hp & _ & _ & Hr).
    destruct (pci_exist p); cbn [negb]; [|by apply meets_ret]. destruct (bus_number_range p).
    apply (meets_bind _ _ answered).
    + destruct (_ =? 0); [|apply meets_ret; constructor]. apply probeDeviceRange_ok; [done| |constructor|lia].
      intros Hf. specialize (Hr Hf). specialize (Hfuel Hf). lia.
    + intros c Hc. apply meets_ret. intros k' [= <-]. eapply building_push; [done| |].
      * eapply push_part_ok; [done| |done]. right. simpl. rewrite Hp. lia.
      * apply Hs.
  - destruct (Hnd eq_refl) as (p & Hp & Hdino). eapply meets_bind; [apply meets_hardware, Hdec, Hp|]. intros ? ->. destruct p.
    + eapply meets_bind; [by apply EagleStream_stack_ok|]. intros s [Hs _].
      eapply (meets_bind _ _ (stack_from (es_names t) u (domainno a) (busno a))).
      * apply meets_each; [done|]. intros slot s' _ Hs'. by apply slot_ok.
      * intros s' (H1 & H2 & _). apply meets_ret. intros k' [= <-]. by eapply building_push.
    + eapply meets_bind; [apply meets_hardware, Hdec, Hdino; done|]. intros ? ->.
      eapply meets_bind; [by apply EagleStream_stack_ok|]. intros s [Hs _].
      eapply (meets_bind _ _ (stack_from (es_names t) u (domainno a) (busno a))).
      * apply meets_each; [done|]. intros b s' _ Hs'. apply meets_each; [done|]. intros [dev f] s'' _ Hs''.
        eapply meets_bind; [apply probe_new|]. intros q _. apply meets_ret. destruct (pci_exist q) eqn:Hq; cbn [negb]; [|done].
        destruct (isIntelDevice q); [destruct (accelerator_parts _ _) as [|x l] eqn:Hl; [done|]|];
          (apply push_part_ok; [done|by left|]); [|constructor]. apply Forall_singleton. by rewrite <- Hl, foldl_add_part_exist.
      * intros s' (H1 & H2 & _). apply meets_ret. intros k' [= <-]. by eapply building_push.
Qed.

Definition chop_type (cpuId : Z) (t : EagleStreamSupportedTypes) : Prop :=
  t <> esInvalid /\ (t = esEmrXcc <-> cpuId <> SPR).

Lemma setChopValue_ok cpuId l : ok (fun o => forall r, o = Some r -> chop_type cpuId r.2) (setChopValue open_pci fuel cpuId l).
Proof.
  induction l as [|b l IH]; cbn [setChopValue]; [by apply meets_ret|].
  eapply meets_bind; [apply probe_new|]. intros p _. destruct (negb _); [done|].
  eapply meets_bind; [apply meets_hardware, open_ends|]. intros h _. eapply meets_bind; [apply meets_hardware, read32_ends|]. intros v _.
  destruct (v =? all_ones); [by apply meets_ret|]. cbv zeta. destruct (_ || _); [|by apply meets_ret]. apply meets_ret.
  intros r [= <-]. simpl. unfold chop_type. destruct (Z.eqb_spec cpuId SPR); [destruct (_ =? kXccChop)|]; by split.
Qed.

(** ** Sierra Forest *)

Let srf := srf_sad_to_pmu_id_mapping.

Lemma srf_tables : all_named srf srf_iio_stack_names /\ mapping_ok srf /\
  (forall u, bhs_isPcieStack u = true \/ isRootHcStack u = true -> is_Some (zmap_find u srf)).
Proof.
  split_and!; [decided..|]. intros u Hu.
  assert (u ∈ srf_pcie_stacks ++ [SRF_HC0_SAD_BUS_ID; SRF_HC1_SAD_BUS_ID; SRF_HC2_SAD_BUS_ID; SRF_HC3_SAD_BUS_ID]) as Hin.
  { apply elem_of_app. destruct Hu as [(x & Hx & ->%Z.eqb_eq)%existsb_exists|Hu]; [left; by apply list_elem_of_In|right].
    unfold isRootHcStack in Hu. repeat setoid_rewrite orb_true_iff in Hu. rewrite !Z.eqb_eq in Hu. set_solver. }
  revert u Hu Hin. enough (Forall (fun u => is_Some (zmap_find u srf))
    (srf_pcie_stacks ++ [SRF_HC0_SAD_BUS_ID; SRF_HC1_SAD_BUS_ID; SRF_HC2_SAD_BUS_ID; SRF_HC3_SAD_BUS_ID])) as Hall.
  { intros u _ Hin. rewrite Forall_forall in Hall. by apply Hall. }
  decided.
Qed.

Lemma add_pci_part_ok u d b domain bus dev part s : stack_from srf_iio_stack_names u d b s ->
  ok (stack_from srf_iio_stack_names u d b) (add_pci_part open_pci fuel domain bus dev part s).
Proof.
  intros Hs. eapply meets_bind; [apply probe_new|]. intros p _. apply meets_ret.
  destruct (pci_exist p) eqn:Hp; [|done]. destruct (isIntelDevice p); [|done]. simpl. apply push_part_ok; [done|by left|].
  by apply Forall_singleton.
Qed.

Lemma bhs_stackProbe_ok u a id left k : 0 <= busno a < 256 -> building srf_iio_stack_names id (unit_of srf u :: left) k ->
  ok (fun o => forall k', o = Some k' -> building srf_iio_stack_names id left k') (bhs_stackProbe open_pci fuel u a k).
Proof.
  intros Ha Hk. destruct srf_tables as (Hn & Hm & Hkey). unfold bhs_stackProbe.
  assert (forall v, zmap_find u srf = Some v -> unit_of srf u = v) as Hunit by (intros v Hv; unfold unit_of; by rewrite Hv).
  destruct (bhs_isPcieStack u) eqn:Hp; [|destruct (isRootHcStack u) eqn:Hh].
  - destruct (Hkey u ltac:(by left)) as [v Hv]. eapply meets_bind; [by apply mapped_stack; [apply Hn|exact Hv]|]. intros s [Hs _].
    eapply (meets_bind _ _ (stack_from srf_iio_stack_names v (domainno a) (busno a))).
    + apply meets_each; [done|]. intros slot s' _ Hs'. by apply slot_ok.
    + intros s' (H1 & H2 & _). apply meets_ret. intros k' [= <-]. eapply building_push; [done|done|]. by rewrite (Hunit v Hv).
  - destruct (Hkey u ltac:(by right)) as [v Hv]. eapply meets_bind; [by apply mapped_stack; [apply Hn|exact Hv]|]. intros s [Hs _].
    do 4 (eapply meets_bind; [by apply add_pci_part_ok|]; clear s Hs; intros s Hs). destruct Hs as (H1 & H2 & _).
    apply meets_ret. intros k' [= <-]. destruct (parts s); [by eapply building_skip|].
    eapply building_push; [done|done|]. by rewrite (Hunit v Hv).
  - destruct (_ || _); apply meets_ret; [|done]. intros k' [= <-]. by eapply building_skip.
Qed.

(** ** Sockets *)

(** Sockets in the order of their numbers, each with the names of one of the tables. *)
Definition discovered (tables : list (list str)) (iios : list iio_stacks_on_socket) : Prop :=
  StronglySorted Z.lt (map iio_socket_id iios) /\ Forall (fun k => exists names, names ∈ tables /\ socket_ok names k) iios.

Lemma for_sockets_ok {X} (id : X -> Z) tables (l : list X) body : StronglySorted Z.lt (map id l) ->
  (forall x, x ∈ l -> exists names, names ∈ tables /\
     ok (fun o => forall k, o = Some k -> socket_ok names k /\ iio_socket_id k = id x) (body x)) ->
  ok (fun r => discovered tables r.2) (for_sockets l body []).
Proof.
  intros Hl Hb.
  set (I := fun left iios => StronglySorted Z.lt (map iio_socket_id iios ++ map id left) /\
                             Forall (fun k => exists names, names ∈ tables /\ socket_ok names k) iios).
  apply (meets_weaken _ _ (fun r => I [] r.2)).
  - apply (meets_for_sockets _ _ I); [|by split|].
    + intros left iios [H1 H2]. split; [|done]. rewrite app_nil_r. by apply sorted_app_inv in H1.
    + intros x left iios Hx [H1 H2]. destruct (Hb x Hx) as (names & Hn & Hok). eapply meets_weaken; [exact Hok|].
      intros o Ho k Hk. destruct (Ho k Hk) as [H3 H4]. split.
      * rewrite map_app. simpl. rewrite H4, <- app_assoc. done.
      * apply Forall_app_2, Forall_singleton; [done|by exists names].
  - intros r [H1 H2]. split; [by rewrite app_nil_r in H1|done].
Qed.

(** The names of the stacks of a platform. *)
Definition stack_tables (model stacks : Z) : list (list str) :=
  if model =? SKX then [skx_iio_stack_names]
  else if model =? ICX then [whitley_names model]
  else if model =? SNOWRIDGE then [snr_iio_stack_names]
  else if model =? SPR then [spr_xcc_iio_stack_names; spr_mcc_iio_stack_names]
  else if model =? EMR then [emr_iio_stack_names]
  else if model =? GRR then [grr_iio_stack_names]
  else if (model =? SRF) || (model =? GNR) then [srf_iio_stack_names]
  else [map stackIdToString (seqZ 0 stacks)].

Lemma Default_socket_ok n socket :
  socket_ok (map stackIdToString (seqZ 0 n)) (Default_socket n socket) /\ iio_socket_id (Default_socket n socket) = socket.
Proof.
  unfold Default_socket. set (stack unit := MkIioStack [] unit (stackIdToString unit) 0 0).
  assert (forall l k, iio_socket_id k = socket ->
    iio_socket_id (foldl (fun k unit => push_stack (stack unit) k) k l) = socket /\
    stacks (foldl (fun k unit => push_stack (stack unit) k) k l) = stacks k ++ map stack l) as Hf.
  { induction l as [|u l IH]; intros k Hk; simpl; [by rewrite app_nil_r|].
    destruct (IH (push_stack (stack u) k) Hk) as [H1 H2]. split; [done|]. rewrite H2. simpl. by rewrite <- app_assoc. }
  destruct (Hf (seqZ 0 n) (MkIioSocket [] socket) eq_refl) as [H1 H2]. subst stack. cbv beta in *.
  split; [|done]. unfold socket_ok, units. rewrite H2. simpl. split.
  - rewrite map_map. simpl. rewrite map_id. apply seqZ_sorted.
  - apply Forall_map, Forall_forall. intros u Hu%elem_of_seqZ. split_and!; [simpl; lia| |constructor]. simpl.
    rewrite list_lookup_fmap, lookup_seqZ_lt by lia. simpl. f_equal. f_equal. lia.
Qed.

Context (Hdomains : finite = true -> exists D, 0 <= D < Z.of_nat fuel /\ D < 2 ^ 32 /\ empty_domain D).

Lemma packages_ok tables names key (unit : Z -> Z) probe m : root_map_ok key m -> names ∈ tables ->
  (forall l, keys_sorted l -> Forall (root_ok key) l -> NoDup (map (fun rb => unit rb.1) l)) ->
  (forall u a id left k, (exists i, 0 <= i < 32 /\ key i = Some u) -> 0 <= busno a < 256 -> building names id (unit u :: left) k ->
     ok (fun o => forall k', o = Some k' -> building names id left k') (probe u a k)) ->
  ok (fun r => discovered tables r.2) (for_sockets m (probe_package probe) []).
Proof.
  intros [Hm Hr] Hn Hnd Hp. apply (for_sockets_ok fst); [done|]. intros e He. exists names. split; [done|].
  rewrite Forall_forall in Hr. destruct (Hr _ He) as (_ & Hk & Hroot). apply (probe_package_ok _ unit); [by apply Hnd|].
  intros rb k left Hin Hb. rewrite Forall_forall in Hroot. destruct (Hroot _ Hin) as [H1 H2]. by apply Hp.
Qed.

Lemma initialize_ok model sockets n : (model = SKX -> E OutOfRange) ->
  ok (fun r => discovered (stack_tables model n) r.2) (initializeIOStacksStructure open_pci fuel model sockets n []).
Proof.
  intros Hskx. assert (forall tables : list (list str), discovered tables []) as Hnil by (intros; split; constructor).
  assert (forall l, StronglySorted Z.lt l -> StronglySorted Z.lt (map (fun x => x) l)) as Hid by (intros l Hl; by rewrite map_id).
  unfold initializeIOStacksStructure, stack_tables.
  destruct (Z.eqb_spec model SKX) as [Hm|].
  { specialize (Hskx Hm). apply (meets_bind _ _ (fun _ => True)).
    { apply meets_each; [done|]. intros b l _ _. apply meets_each; [done|]. intros df l' _ _.
      eapply meets_bind; [apply probe_new|]. intros p _. by apply meets_ret. }
    intros [|b ubox] _; [by apply meets_ret|]. apply (for_sockets_ok (fun x => x)); [apply Hid, seqZ_sorted|].
    intros socket _. eexists. split; [left|]. by apply Purley_socket_ok. }
  destruct (model =? ICX).
  { apply (for_sockets_ok (fun x => x)); [apply Hid, seqZ_sorted|]. intros socket _. eexists. split; [left|]. apply Whitley_socket_ok. }
  destruct (model =? SNOWRIDGE).
  { apply (for_sockets_ok (fun x => x)); [repeat constructor|]. intros socket _. eexists. split; [left|]. apply Jacobsville_socket_ok. }
  destruct ((model =? SPR) || (model =? EMR)) eqn:Hes.
  { eapply meets_bind; [apply setChopValue_ok|]. intros [[chop t]|] Ht; [|by apply meets_ret].
    destruct (Ht _ eq_refl) as [Hinv Hemr]. simpl in Hinv, Hemr.
    eapply meets_bind; [eapply (meets_bind _ _ (fun l => l = es_mapping t)); [apply meets_hardware; destruct t; [done|by apply ends_ret..]|]|].
    { intros l ->. by apply getRootBusesBy_ok. }
    intros [m|] Hm; [|by apply meets_ret]. specialize (Hm m eq_refl).
    apply (packages_ok _ (es_names t) _ (fun u => u) _ _ Hm).
    - destruct (Z.eqb_spec model SPR) as [->|Hne]; [|simpl in Hes; rewrite Hes].
      + destruct t; [done|left|right; left|]. by destruct (proj1 Hemr eq_refl).
      + rewrite (proj2 Hemr Hne). left.
    - intros l Hl _. by apply sorted_nodup.
    - intros u a id left k (i & _ & Hi) Ha Hk. apply es_stackProbe_ok; [done| |done|done].
      by apply zmap_find_in, (list_elem_of_fmap_2 snd) in Hi. }
  apply orb_false_iff in Hes as [-> ->]. destruct (model =? GRR).
  { apply (for_sockets_ok (fun x => x)); [repeat constructor|]. intros socket _. eexists. split; [left|]. apply Loganville_socket_ok. }
  destruct ((model =? SRF) || (model =? GNR)).
  { eapply meets_bind; [by apply getRootBusesBy_ok|]. intros [m|] Hm; [|by apply meets_ret]. specialize (Hm m eq_refl).
    apply (packages_ok _ srf_iio_stack_names _ (unit_of srf) _ _ Hm); [left| |].
    - intros l Hl Hr. apply units_nodup; [apply srf_tables|done|]. eapply Forall_impl; [exact Hr|].
      intros rb [(i & Hi & [= <-]) _]. lia.
    - intros u a id left k _ Ha Hk. by apply bhs_stackProbe_ok. }
  apply meets_ret. simpl. clear Hnil. split.
  - rewrite map_map. rewrite (map_ext _ (fun x => x)); [apply Hid, seqZ_sorted|]. intros x. apply Default_socket_ok.
  - apply Forall_map, Forall_forall. intros x _. eexists. split; [left|apply Default_socket_ok].
Qed.

End Promise.

(** * The theorems *)

Section Machine.
Context {machine : Machine} (open_pci : bdf -> option Z) (fuel : nat).

(** Every capability list is left after fewer steps than the fuel allows: [rank] counts the
    capabilities that follow. *)
Record acyclic_capabilities (rank : Z -> Z -> nat) : Prop := {
  rank_below_fuel h ptr : (rank h ptr < fuel)%nat;
  rank_decreases history h ptr v : respond history (PciPort32 h ptr) = Some v ->
    Z.land v 0xff <> 0x10 -> Z.land (Z.shiftr v 8) 0xff <> 0 ->
    (rank h (Z.land (Z.shiftr v 8) 0xff) < rank h ptr)%nat
}.

(** No bridge has the subordinate bus 255. *)
Definition small_buses : Prop :=
  forall history h v, respond history (PciPort32 h 0x18) = Some v -> Z.land (Z.shiftr v 16) 0xff <> 255.

Section Probe.
Context (finite : bool) (E : exn -> Prop) (HE : E RuntimeError).
Context (rank : Z -> Z -> nat) (Hrank : finite = true -> acyclic_capabilities rank) (Hbus : finite = true -> small_buses).

(** The value that a read leaves behind is an answer of the machine or the old one. *)
Lemma read32_answer h o v :
  ends (fun r => r = v \/ exists history, respond history (PciPort32 h o) = Some r) E (read32 h o v).
Proof.
  intros s. unfold read32, access_read, mbind, M_bind, mret, M_ret. simpl.
  destruct (respond (history s) (PciPort32 h o)) as [r|] eqn:Hr; simpl; [right; by exists (history s)|by left].
Qed.

Definition capability_bdf (p : pci) : bdf := Bdf 0 (busno (pci_bdf p)) (devno (pci_bdf p)) (funcno (pci_bdf p)).

Lemma probe_capability_ok n p ptr :
  (finite = true -> (0 < n)%nat /\ forall h, open_pci (capability_bdf p) = Some h -> (rank h ptr < n)%nat) ->
  meets finite (fun q => q = p \/ exists v, q = set_link_info v p) E (probe_capability_pci_express open_pci n p ptr).
Proof.
  revert ptr. induction n as [|n IH]; intros ptr Hn.
  { apply meets_running. destruct finite; [|done]. destruct (Hn eq_refl). lia. }
  cbn [probe_capability_pci_express]. fold (capability_bdf p).
  apply (meets_bind _ _ (fun h => open_pci (capability_bdf p) = Some h)).
  { apply meets_hardware. unfold open_handle. destruct (open_pci _); [by apply ends_ret|by apply ends_throw]. }
  intros h Hh. eapply meets_bind; [apply meets_hardware, read32_answer|]. intros v Hv. cbv zeta.
  destruct (Z.eqb_spec (Z.land v 0xff) 0x10) as [|Hid]; cbn [negb andb].
  { eapply meets_bind; [apply meets_hardware, read32_answer|]. intros v' _. apply meets_ret. right. by exists v'. }
  destruct (Z.eqb_spec (Z.land (Z.shiftr v 8) 0xff) 0) as [|Hnext]; cbn [negb andb]; [apply meets_ret; by left|].
  apply IH. intros Hf. destruct Hv as [->|[hist Hv]]; [done|]. destruct (Hn Hf) as [_ Hr]. specialize (Hr h Hh).
  pose proof (rank_decreases _ (Hrank Hf) _ _ _ _ Hv Hid Hnext). split; [lia|]. intros h' Hh'. rewrite Hh in Hh'. injection Hh' as <-. lia.
Qed.

(** The header type 1 is not that of a word whose third byte is 255. *)
Lemma header_byte v : Z.land (Z.shiftr v 16) 0x7f = 1 -> Z.land (Z.shiftr v 16) 0xff <> 255.
Proof.
  intros H1 H2. assert (Z.testbit (Z.land (Z.shiftr v 16) 0x7f) 1 = false) as Hb by (by rewrite H1).
  assert (Z.testbit (Z.land (Z.shiftr v 16) 0xff) 1 = true) as Hb' by (by rewrite H2).
  rewrite Z.land_spec in Hb, Hb'. by destruct (Z.testbit (Z.shiftr v 16) 1).
Qed.

Lemma probe_pci_ok p : meets finite (probed_as open_pci finite p) E (probe_pci open_pci fuel p).
Proof.
  unfold probe_pci. cbv zeta. set (p0 := set_exist false p).
  assert (probed_as open_pci finite p p0) as Hp0 by done.
  unfold pci_exists. change (pci_bdf p0) with (pci_bdf p). case_bool_decide as Hopen; [|by apply meets_ret]. destruct Hopen as [h Hh].
  assert (forall q, pci_bdf q = pci_bdf p -> child_pci_devs q = child_pci_devs p -> (bridge_ok finite p -> bridge_ok finite q) ->
            probed_as open_pci finite p q) as Hq by (intros q H1 H2 H3; split_and!; [done|done|by rewrite Hh|done]).
  apply (meets_bind _ _ (fun _ => True)); [apply meets_hardware; unfold open_handle; rewrite Hh; by apply ends_ret|]. intros h' _.
  eapply meets_bind; [apply meets_hardware, read32_answer|]. intros id _. destruct (id =? all_ones); [by apply meets_ret|].
  eapply meets_bind; [apply meets_hardware, read32_answer|]. intros hd _. cbn [header_type set_header].
  set (p1 := set_header id _ p0).
  apply (meets_bind _ _ (fun q => pci_bdf q = pci_bdf p /\ child_pci_devs q = child_pci_devs p /\ (bridge_ok finite p -> bridge_ok finite q))).
  2: { intros q (H1 & H2 & H3). by apply meets_ret, Hq. }
  destruct (Z.eqb_spec (Z.land (Z.shiftr hd 16) 0x7f) 0); [|destruct (Z.eqb_spec (Z.land (Z.shiftr hd 16) 0x7f) 1) as [H1|]; [|by apply meets_ret]].
  - eapply meets_bind; [apply meets_hardware, read32_answer|]. intros st _. destruct (negb _); [|by apply meets_ret].
    eapply meets_bind; [apply meets_hardware, read32_answer|]. intros ptr _.
    eapply meets_weaken; [apply probe_capability_ok|].
    + intros Hf. pose proof (rank_below_fuel _ (Hrank Hf)) as Hr. split; [specialize (Hr 0 0); lia|]. intros; apply Hr.
    + by intros q [->|[v ->]].
  - eapply meets_bind; [apply meets_hardware, read32_answer|]. intros v Hv. apply meets_ret. split_and!; [done|done|].
    intros _ Hf. assert (subordinate_bus_number (set_offset_18 v p1) <> 255).
    { unfold subordinate_bus_number. cbn [offset_18 set_offset_18]. destruct Hv as [->|[hist Hv]]; [by apply header_byte|].
      exact (Hbus Hf _ _ _ Hv). }
    destruct (bus_number_range (set_offset_18 v p1)). lia.
Qed.

End Probe.


(** C19. The discovery of I/O stacks ends on every machine whose capability lists have no
    cycle, that has no bridge with the subordinate bus 255 and some PCI domain without
    devices: fuel above the length of the lists, 256 buses and that domain is enough. *)
Theorem discovery_ends rank D model sockets n s :
  acyclic_capabilities rank -> small_buses -> (256 < fuel)%nat ->
  0 <= D < Z.of_nat fuel -> D < 2 ^ 32 -> (forall b, domainno b = D -> open_pci b = None) ->
  (initializeIOStacksStructure open_pci fuel model sockets n [] s).2 <> Ok None.
Proof.
  intros Hrank Hbus Hfuel HD HD' Hempty.
  assert (forall p, meets true (probed_as open_pci true p) (fun _ => True) (probe_pci open_pci fuel p)) as Hp.
  { intros p. by apply (probe_pci_ok true _ I rank). }
  pose proof (initialize_ok open_pci fuel true (fun _ => True) I Hp ltac:(lia) ltac:(intros _; by exists D) model sockets n ltac:(done) s) as H.
  intros Hn. by rewrite Hn in H.
Qed.

End Machine.
