(* ===== verification/IioScan.v ===== *)
(** Scans of the buses behind a root port ([IioTopology]): what they find on a machine whose
    configuration space does not change, when they end, and a discovery run on an example. *)

From S2P Require Import Prelude CxxString Bits WidthExtender CpuModels Capabilities Registers Discovery ServerInit PciProbe IioTopology IioDiscovery.
Local Open Scope Z_scope.

(** * Loops on a machine that does not change *)

Lemma T_yields_bind {A B} (m : T A) (f : A -> T B) a (o : option B) : yields m (Some a) -> yields (f a) o -> yields (m ≫= f) o.
Proof.
  intros Hm Hf s. unfold mbind, T_bind, mbind, M_bind. specialize (Hm s). destruct (m s) as [s' r]. simpl in Hm. subst r. apply Hf.
Qed.

Lemma hardware_yields {A} (m : M A) a : yields m a -> yields (hardware m) (Some a).
Proof. intros Hm s. unfold hardware, mbind, M_bind. specialize (Hm s). destruct (m s) as [s' r]. simpl in Hm. by subst r. Qed.

Section Static.
Context {A : Type}.

Context {X : Type} (g : X -> list A).

Lemma each_T_yields (body : X -> list A -> T (list A)) l acc :
  (forall x acc, x ∈ l -> yields (body x acc) (Some (acc ++ g x))) ->
  yields (each_T l body acc) (Some (acc ++ concat (map g l))).
Proof.
  revert acc. induction l as [|x l IH]; intros acc Hb; cbn [each_T map concat]; [rewrite app_nil_r; apply yields_ret|].
  eapply T_yields_bind; [apply Hb; left|]. rewrite app_assoc. apply IH. intros y a Hy. apply Hb. by right.
Qed.

End Static.

(** A loop over buses below 255 visits them once each, in order. *)
Lemma for_buses_yields {A} (g : Z -> list A) n bus last (body : Z -> list A -> T (list A)) acc :
  0 <= bus -> last < 255 -> last - bus + 1 < Z.of_nat n ->
  (forall b acc, bus <= b <= last -> yields (body b acc) (Some (acc ++ g b))) -> (0 < n)%nat ->
  yields (for_buses n bus last body acc) (Some (acc ++ concat (map g (seqZ bus (last - bus + 1))))).
Proof.
  intros Hbus Hlast Hn Hb Hn0. revert bus acc Hbus Hn Hb. induction n as [|n IH]; intros bus acc Hbus Hn Hb; [lia|]. cbn [for_buses].
  destruct (Z.leb_spec bus last).
  - rewrite seqZ_cons by lia. cbn [map concat]. eapply T_yields_bind; [apply Hb; lia|]. rewrite app_assoc.
    rewrite wrapN_small by (unfold fits; lia).
    replace (Z.pred (last - bus + 1)) with (last - (bus + 1) + 1) by lia. replace (Z.succ bus) with (bus + 1) by lia.
    apply IH; [lia..|]. intros b a Hr. apply Hb. lia.
  - rewrite seqZ_nil by lia. cbn [map concat]. rewrite app_nil_r. apply yields_ret.
Qed.

(** A loop up to 255 counts around: whatever the fuel, it is still running. *)
Lemma for_buses_255 {A} n bus (body : Z -> A -> T A) a s : 0 <= bus < 256 -> forall a', (for_buses n bus 255 body a s).2 <> Ok (Some a').
Proof.
  revert bus a s. induction n as [|n IH]; intros bus a s Hbus a'; [done|]. cbn [for_buses].
  destruct (Z.leb_spec bus 255); [|lia]. unfold mbind, T_bind, mbind, M_bind.
  destruct (body bus a s) as [s' [[a1|]|e]]; [|done|done]. apply IH, (wrapN_fits 8). lia.
Qed.

(** * What a scan finds *)

(** The addresses behind a bridge. *)
Definition behind (domain secondary subordinate : Z) : list bdf :=
  concat (map (fun b => map (fun df => Bdf domain b df.1 df.2) (functions_of 32)) (seqZ secondary (subordinate - secondary + 1))).

Lemma concat_map_filter {A B} (p : B -> bool) (f : A -> B) (h : B -> B) l :
  concat (map (fun a => if p (f a) then [h (f a)] else []) l) = map h (List.filter p (map f l)).
Proof. induction l as [|a l IH]; simpl; [done|]. destruct (p (f a)); simpl; by rewrite IH. Qed.

Lemma concat_map_lists {A B C} (h : B -> B) (p : B -> bool) (f : A -> B) (addresses : C -> list A) l :
  concat (map (fun c => map h (List.filter p (map f (addresses c)))) l) = map h (List.filter p (map f (concat (map addresses l)))).
Proof. induction l as [|c l IH]; simpl; [done|]. by rewrite map_app, List.filter_app, map_app, IH. Qed.

Section Scan.
Context (cfg : port -> option Z) (open_pci : bdf -> option Z) (fuel : nat) (domain : Z) (dev : bdf -> pci).
#[local] Instance scan_machine : Machine := static_machine cfg.

(** [dev b] is what probing the address [b] finds. *)
Context (Hdev : forall b, domainno b = domain -> yields (probe_pci open_pci fuel (new_pci b)) (Some (dev b))).
Context (Hfuel : (256 < fuel)%nat).

Definition devices_behind (secondary subordinate : Z) : list pci := List.filter pci_exist (map dev (behind domain secondary subordinate)).

Lemma scan_bus_yields mark bus acc :
  yields (scan_bus open_pci fuel domain 32 mark bus acc)
    (Some (acc ++ map mark (List.filter pci_exist (map dev (map (fun df => Bdf domain bus df.1 df.2) (functions_of 32)))))).
Proof.
  rewrite map_map, <- (concat_map_filter pci_exist (fun df => dev (Bdf domain bus df.1 df.2)) mark).
  apply each_T_yields. intros df a _. eapply T_yields_bind; [by apply Hdev|].
  destruct (pci_exist (dev _)); [|rewrite app_nil_r]; apply yields_ret.
Qed.

Lemma scan_behind_yields mark root : subordinate_bus_number root < 255 ->
  yields (scan_behind open_pci fuel domain 32 mark root)
    (Some (map mark (devices_behind (secondary_bus_number root) (subordinate_bus_number root)))).
Proof.
  intros Hr. destruct (bus_number_range root) as [H1 H2]. unfold devices_behind, behind. rewrite <- concat_map_lists.
  apply (for_buses_yields _ fuel _ _ _ []); [lia|done|lia| |lia]. intros b acc _. apply scan_bus_yields.
Qed.

(** Without a bridge that reaches beyond the range, nothing is put below another device. *)
Lemma probeDeviceRange_yields depth secondary subordinate :
  0 <= secondary < 256 -> 0 <= subordinate < 255 ->
  Forall (fun c => subordinate_bus_number c <= subordinate) (devices_behind secondary subordinate) ->
  yields (probeDeviceRange open_pci fuel (S depth) domain secondary subordinate []) (Some (devices_behind secondary subordinate)).
Proof.
  intros Hsec Hsub Hall. cbn [probeDeviceRange]. rewrite wrapN_small by (unfold fits; lia).
  set (found b := map id (List.filter pci_exist (map dev (map (fun df => Bdf domain b df.1 df.2) (functions_of 32))))).
  assert (devices_behind secondary subordinate = concat (map found (seqZ secondary (subordinate - secondary + 1)))) as Heq.
  { unfold found. rewrite concat_map_lists, map_id. done. }
  rewrite Heq. apply (for_buses_yields _ fuel _ _ _ []); [lia..| |lia]. intros b acc Hb.
  unfold found. rewrite map_map, <- (concat_map_filter pci_exist (fun df => dev (Bdf domain b df.1 df.2)) id).
  apply each_T_yields. intros df a Hdf. eapply T_yields_bind; [by apply Hdev|].
  destruct (pci_exist (dev _)) eqn:Hex; [|rewrite app_nil_r; apply yields_ret].
  eapply T_yields_bind; [|apply yields_ret].
  assert (subordinate_bus_number (dev (Bdf domain b df.1 df.2)) <= subordinate) as Hle.
  { rewrite Forall_forall in Hall. apply Hall. apply list_elem_of_In, List.filter_In. split; [|done].
    apply in_map, in_concat. eexists. split; [apply in_map, list_elem_of_In, elem_of_seqZ; instantiate (1 := b); lia|].
    apply (in_map (fun df => Bdf domain b df.1 df.2)). by apply list_elem_of_In. }
  rewrite (proj2 (Z.ltb_ge _ _) Hle), andb_false_r. apply yields_ret.
Qed.

End Scan.

(** C20. When no device behind a root port bridges to buses beyond those of the port, and those
    end before bus 255, the two ways of listing the devices agree: both give the devices that answer on the buses of
    the port, in the order of their addresses, and none of them below another. *)
Theorem scans_agree cfg open_pci fuel domain dev root depth :
  (forall b, domainno b = domain -> yields (@probe_pci (static_machine cfg) open_pci fuel (new_pci b)) (Some (dev b))) ->
  (256 < fuel)%nat -> subordinate_bus_number root < 255 ->
  let secondary := secondary_bus_number root in
  let subordinate := subordinate_bus_number root in
  let l := devices_behind domain dev secondary subordinate in
  Forall (fun c => subordinate_bus_number c <= subordinate) l ->
  yields (@scan_behind (static_machine cfg) open_pci fuel domain 32 id root) (Some l) /\
  yields (@probeDeviceRange (static_machine cfg) open_pci fuel (S depth) domain secondary subordinate []) (Some l).
Proof.
  intros Hdev Hfuel Hr secondary subordinate l Hall. destruct (bus_number_range root). split.
  - pose proof (scan_behind_yields cfg open_pci fuel domain dev Hdev Hfuel id root Hr) as H1. by rewrite map_id in H1.
  - apply probeDeviceRange_yields; [done|done|done| |done]. subst subordinate. lia.
Qed.

(** Behind a root port with the subordinate bus 255 both scans run forever: the bus is
    counted in eight bits and wraps to 0. No machine and no fuel gives a result. *)
Theorem full_range_never_ends {machine : Machine} open_pci fuel domain devices mark root depth l s a :
  subordinate_bus_number root = 255 ->
  (scan_behind open_pci fuel domain devices mark root s).2 <> Ok (Some a) /\
  (probeDeviceRange open_pci fuel depth domain (secondary_bus_number root) 255 l s).2 <> Ok (Some a).
Proof.
  intros Hr. destruct (bus_number_range root) as [H1 _]. split.
  - unfold scan_behind. rewrite Hr. by apply for_buses_255.
  - destruct depth as [|depth]; [done|]. cbn [probeDeviceRange]. apply for_buses_255, (wrapN_fits 8). lia.
Qed.

Section Fails.
Context {machine : Machine}.

Definition fails {A} (m : T A) (e : exn) : Prop := forall s, (m s).2 = Throw e.

Lemma fails_then {A B} (m : T A) (f : A -> T B) e : fails m e -> fails (m ≫= f) e.
Proof. intros Hm s. unfold mbind, T_bind, mbind, M_bind. specialize (Hm s). destruct (m s) as [s' r]. simpl in Hm. by subst r. Qed.

Lemma fails_after {A B} (m : T A) (f : A -> T B) a e : yields m (Some a) -> fails (f a) e -> fails (m ≫= f) e.
Proof.
  intros Hm Hf s. unfold mbind, T_bind, mbind, M_bind. specialize (Hm s). destruct (m s) as [s' r]. simpl in Hm. subst r. apply Hf.
Qed.

End Fails.

Lemma read32_yields cfg h o v : yields (@read32 (static_machine cfg) h o v) (default v (cfg (PciPort32 h o))).
Proof. done. Qed.

(** An end point with a capability list in another domain is looked for in domain 0: when
    domain 0 has no device at its address, probing it throws. *)
Theorem other_domain_capability_throws cfg open_pci fuel b h v0 hd :
  open_pci b = Some h -> open_pci (Bdf 0 (busno b) (devno b) (funcno b)) = None ->
  cfg (PciPort32 h 0x0) = Some v0 -> v0 <> all_ones ->
  cfg (PciPort32 h 0xc) = Some hd -> Z.land (Z.shiftr hd 16) 0x7f = 0 ->
  cfg (PciPort32 h 0x4) = Some 0x100000 ->
  fails (@probe_pci (static_machine cfg) open_pci (S fuel) (new_pci b)) RuntimeError.
Proof.
  intros Hb H0 Hid Hne Hc Hhd Hst. unfold probe_pci. cbv zeta. unfold pci_exists. cbn [pci_bdf set_exist new_pci].
  rewrite bool_decide_eq_true_2 by (by rewrite Hb).
  apply (fails_after _ _ h); [apply hardware_yields; unfold open_handle; rewrite Hb; apply yields_ret|].
  eapply fails_after; [apply hardware_yields, read32_yields|]. rewrite Hid. cbn [default Datatypes.id]. rewrite (proj2 (Z.eqb_neq _ _) Hne).
  eapply fails_after; [apply hardware_yields, read32_yields|]. rewrite Hc. cbn [default Datatypes.id]. cbn [header_type set_header]. rewrite Hhd.
  cbn [Z.eqb]. apply fails_then. eapply fails_after; [apply hardware_yields, read32_yields|]. rewrite Hst. cbn [default].
  eapply fails_after; [apply hardware_yields, read32_yields|]. cbn [probe_capability_pci_express pci_bdf set_header set_exist new_pci].
  apply fails_then. intros s. unfold hardware, open_handle. by rewrite H0.
Qed.

(** * An Ice Lake socket *)

Definition example_root_port : bdf := Bdf 0 0x10 2 0.
Definition example_nic : bdf := Bdf 0 0x11 0 0.

(** Two mesh devices that name the root buses 0x10 and 0x20, a root port, and a network card
    behind it. *)
Definition icx_devices (b : bdf) : option Z :=
  if decide (b = Bdf 0 0x10 0 0) then Some 1
  else if decide (b = Bdf 0 0x20 0 0) then Some 2
  else if decide (b = example_root_port) then Some 3
  else if decide (b = example_nic) then Some 4
  else None.

Definition icx_registers (p : port) : option Z :=
  match p with
  | PciPort32 h o =>
      match h with
      | 1 => if o =? 0 then Some 0x09A28086 else if o =? 0x3F4 then Some 0x10 else Some 0
      | 2 => if o =? 0 then Some 0x09A28086 else Some 0
      | 3 => if o =? 0 then Some 0x347A8086 else if o =? 0xc then Some 0x10000 else if o =? 0x18 then Some 0x121110 else Some 0
      | 4 => if o =? 0 then Some 0x15218086 else if o =? 4 then Some 0x100000 else if o =? 0x34 then Some 0x40
             else if o =? 0x40 then Some 0x5001 else if o =? 0x50 then Some 0x10 else if o =? 0x60 then Some 0x430000 else Some 0
      | _ => None
      end
  | _ => None
  end.

#[local] Instance icx_machine : Machine := static_machine icx_registers.

Definition example_card : pci := MkPci true example_nic 0x15218086 0 0 0x430000 [] [].

(** The network card is found behind part 0 of unit 0, PCIe0, with its link. *)
Lemma icx_example :
  (initializeIOStacksStructure icx_devices 300 ICX 1 6 [] (HW [] ∅ ∅)).2 =
  Ok (Some (true, [MkIioSocket
    [MkIioStack [MkIioPart 0 (MkPci true example_root_port 0x347A8086 1 0x121110 0 [] []) [example_card]] 0
       (lit "IIO Stack 0 - PCIe0          ") 0 0x10;
     MkIioStack [] 2 (lit "IIO Stack 2 - MCP            ") 0 0;
     MkIioStack [MkIioPart 0 (MkPci true (Bdf 0 0x20 0 0) 0x09A28086 0 0 0 [] []) []] 5 (lit "IIO Stack 5 - CBDMA/DMI      ") 0 0x20] 0])).
Proof. vm_compute. reflexivity. Qed.

Lemma icx_link : link_speed example_card = 3 /\ link_width example_card = 4 /\ vendor_id example_card = 0x8086.
Proof. done. Qed.

(** The steps to the end of a capability list, for every register of the example. *)
Definition icx_rank (h ptr : Z) : nat :=
  if ptr =? 0 then 3%nat else if ptr =? 0x40 then 2%nat else 0%nat.

Lemma icx_acyclic : acyclic_capabilities 300 icx_rank.
Proof.
  split.
  - intros h ptr. unfold icx_rank. destruct (ptr =? 0), (ptr =? 0x40); lia.
  - intros history h ptr v Hv Hid Hnext. unfold respond, icx_machine, static_machine, icx_registers in Hv.
    destruct h as [|[[p|p|]|[p|[]|]|]|]; try discriminate Hv;
      repeat match type of Hv with context [ptr =? ?k] => destruct (Z.eqb_spec ptr k) as [->|] end;
      injection Hv as <-; vm_compute in Hid, Hnext; try done; vm_compute; lia.
Qed.

Lemma icx_small_buses : small_buses.
Proof.
  intros history h v Hv. unfold respond, icx_machine, static_machine, icx_registers in Hv.
  destruct h as [|[[p|p|]|[p|[]|]|]|]; try discriminate Hv; vm_compute in Hv; by injection Hv as <-.
Qed.

Lemma discovery_ends_witness :
  (initializeIOStacksStructure icx_devices 300 ICX 1 6 [] (HW [] ∅ ∅)).2 <> Ok None.
Proof.
  apply (discovery_ends icx_devices 300 icx_rank 1); [apply icx_acyclic|apply icx_small_buses|lia|lia|lia|].
  intros b Hb. unfold icx_devices, example_root_port, example_nic. repeat case_decide; subst; try discriminate Hb. reflexivity.
Defined.

(** What probing finds in domain 0 of the example with the root port and the card only. *)
Definition nic_devices (b : bdf) : option Z := if decide (b = example_nic) then Some 4 else None.
Definition nic_found (b : bdf) : pci := if decide (b = example_nic) then example_card else new_pci b.

Lemma nic_probed b : domainno b = 0 -> yields (probe_pci nic_devices 300 (new_pci b)) (Some (nic_found b)).
Proof.
  intros _ s. unfold probe_pci, pci_exists, nic_found. cbv zeta. cbn [pci_bdf set_exist new_pci].
  assert (nic_devices b = if decide (b = example_nic) then Some 4 else None) as Hb by done.
  destruct (decide (b = example_nic)) as [->|]; rewrite Hb.
  - rewrite bool_decide_eq_true_2 by by eexists. reflexivity.
  - rewrite bool_decide_eq_false_2 by (by intros [? ?]). reflexivity.
Qed.

Definition example_port : pci := MkPci true example_root_port 0x347A8086 1 0x121110 0 [] [].

Lemma scans_agree_witness :
  devices_behind 0 nic_found 0x11 0x12 = [example_card] /\
  yields (scan_behind nic_devices 300 0 32 id example_port) (Some [example_card]) /\
  yields (probeDeviceRange nic_devices 300 1 0 0x11 0x12 []) (Some [example_card]).
Proof.
  split; [vm_compute; reflexivity|].
  pose proof (scans_agree icx_registers nic_devices 300 0 nic_found example_port 0 nic_probed) as H.
  assert (devices_behind 0 nic_found (secondary_bus_number example_port) (subordinate_bus_number example_port) = [example_card]) as E
    by (vm_compute; reflexivity).
  cbv zeta in H. rewrite E in H. apply H; [lia|vm_compute; reflexivity|]. apply Forall_singleton. vm_compute. discriminate.
Defined.

Lemma full_range_never_ends_witness :
  (scan_behind icx_devices 1000 0 32 id (MkPci true example_root_port 0x347A8086 1 0xFF1110 0 [] []) (HW [] ∅ ∅)).2 <> Ok (Some []).
Proof.
  exact (proj1 (full_range_never_ends icx_devices 1000 0 32 id (MkPci true example_root_port 0x347A8086 1 0xFF1110 0 [] []) 0 []
    (HW [] ∅ ∅) [] eq_refl)).
Defined.

(** The same card in domain 1 makes the discovery throw. *)
Lemma other_domain_capability_throws_witness :
  fails (probe_pci (fun b => if decide (b = Bdf 1 0x11 0 0) then Some 4 else None) 300 (new_pci (Bdf 1 0x11 0 0))) RuntimeError.
Proof. by apply (other_domain_capability_throws icx_registers _ 299 (Bdf 1 0x11 0 0) 4 0x15218086 0). Defined.

(** * Tables that are not used as they are meant *)

(** [checkModel] makes Ice Lake D an Ice Lake, so the mapping never sees [ICX_D] and its own
    tables are never chosen: DMI is unit 5 there as well. *)
Theorem icx_d_tables_unused :
  (checkModel ICX_D).1 = ICX /\ icx_d ICX = false /\ whitley_mapping ICX <> whitley_mapping ICX_D /\
  forall sockets n, initializeIOStacksStructure icx_devices 300 ICX_D sockets n [] =
                    Default_pciTreeDiscover sockets n [].
Proof. split_and!; [reflexivity|reflexivity|vm_compute; discriminate|reflexivity]. Qed.

(** The two units that serve FlexUPI ports as PCIe are entered under the keys of the other
    two and so ignored: no bus is ever mapped to them. *)
Theorem flex_units_unreachable k :
  zmap_find k srf_sad_to_pmu_id_mapping <> Some SRF_FLEX_PE4_PMON_ID /\
  zmap_find k srf_sad_to_pmu_id_mapping <> Some SRF_FLEX_PE5_PMON_ID.
Proof.
  assert (forall u, zmap_find k srf_sad_to_pmu_id_mapping = Some u -> u ∈ map snd srf_sad_to_pmu_id_mapping) as Hin.
  { intros u Hu. by apply zmap_find_in, (list_elem_of_fmap_2 snd) in Hu. }
  assert (SRF_FLEX_PE4_PMON_ID ∉ map snd srf_sad_to_pmu_id_mapping /\ SRF_FLEX_PE5_PMON_ID ∉ map snd srf_sad_to_pmu_id_mapping) as [H1 H2]
    by (split; decided).
  split; intros Hk; [apply H1|apply H2]; by apply Hin.
Qed.

(** What a name should say of the stack at a position of the enumerations. *)
Definition stack_label (s : EagleStreamPlatformStacks) : str :=
  lit (match s with
       | esDMI => "DMI" | esPCIe0 => "PCIe0" | esPCIe1 => "PCIe1" | esPCIe2 => "PCIe2" | esPCIe3 => "PCIe3" | esPCIe4 => "PCIe4"
       | esDINO0 => "IDX0" | esDINO1 => "IDX1" | esDINO2 => "IDX2" | esDINO3 => "IDX3"
       end)%string.

Definition all_stacks : list EagleStreamPlatformStacks :=
  [esDMI; esPCIe0; esPCIe1; esPCIe2; esPCIe3; esPCIe4; esDINO0; esDINO1; esDINO2; esDINO3].

Definition mentions (label name : str) : bool :=
  existsb (fun k => bool_decide (label `prefix_of` drop k name)) (seq 0 (length name)).

(** The stacks of an enumeration whose unit has the name of another stack. *)
Definition misnamed (enumeration : list Z) (names : list str) : list EagleStreamPlatformStacks :=
  List.filter (fun s => match unit ← enumeration !! stack_position s; names !! Z.to_nat unit with
                        | Some name => negb (mentions (stack_label s) name)
                        | None => false
                        end) all_stacks.

(** The names of Sapphire Rapids say what is probed behind a unit. Those of Emerald Rapids,
    whose units are numbered differently, do so for three of the ten stacks only: the unit
    that is probed as the second accelerator stack is shown as a PCIe stack. *)
Theorem emr_names_wrong :
  misnamed spr_xcc_stacks_enumeration spr_xcc_iio_stack_names = [] /\
  misnamed spr_mcc_stacks_enumeration spr_mcc_iio_stack_names = [] /\
  misnamed emr_stacks_enumeration emr_iio_stack_names = [esPCIe0; esPCIe1; esPCIe2; esPCIe3; esPCIe4; esDINO1; esDINO3].
Proof. split_and!; reflexivity. Qed.

(** On Sierra Forest and Granite Rapids the third and fourth accelerator stacks have each
    other's name. *)
Theorem srf_names_swapped :
  let name unit := u ← zmap_find unit srf_sad_to_pmu_id_mapping; srf_iio_stack_names !! Z.to_nat u in
  name SRF_HC2_SAD_BUS_ID = Some (lit "IIO Stack 9  - HCx3      ") /\
  name SRF_HC3_SAD_BUS_ID = Some (lit "IIO Stack 14 - HCx2      ").
Proof. split; reflexivity. Qed.
