(* ===== verification/EventFile.v ===== *)
(** The tables of events of the I/O and accelerator tools: [load_events] of
    [src/src/utils.cpp] and what its clients make of the fields of a line -
    [iio_evt_parse_handler] of [src/src/pcm-iio-pmu.cpp] and [idx_evt_parse_handler] of
    [src/src/pcm-accel-common.cpp], whose counters [programAccelCounters] programs.

    A file is its contents, or nothing when it cannot be opened. The end of the program
    through [exit] is [Throw Abort_]. *)

From S2P Require Import Prelude CxxString Bits StrUtils WidthExtender CpuModels Capabilities Registers PcmUncore PciProbe.
Local Open Scope char_scope.
Local Open Scope Z_scope.
Local Open Scope list_scope.

(** * [load_events] *)

(** [PCM::PerfmonField] *)
Definition INVALID : Z := 0.
Definition OPCODE : Z := 1.
Definition EVENT_SELECT : Z := 2.
Definition UMASK : Z := 3.
Definition RESET : Z := 4.
Definition EDGE_DET : Z := 5.
Definition IGNORED : Z := 6.
Definition OVERFLOW_ENABLE : Z := 7.
Definition ENABLE : Z := 8.
Definition INVERT : Z := 9.
Definition THRESH : Z := 10.
Definition CH_MASK_FIELD : Z := 11.
Definition FC_MASK_FIELD : Z := 12.
Definition UNIT_TYPE : Z := 13.
Definition H_EVENT_NAME : Z := 14.
Definition V_EVENT_NAME : Z := 15.
Definition MULTIPLIER : Z := 16.
Definition DIVIDER : Z := 17.
Definition COUNTER_INDEX : Z := 18.

Inductive CounterType := COUNTER_TYPE_INVALID | CounterType_iio.

#[export] Instance CounterType_eq_dec : EqDecision CounterType.
Proof. solve_decision. Defined.

Record counter := MkCounter {
  h_event_name : str;
  v_event_name : str;
  ctr_ccr : Z;
  idx : Z;
  ctr_multiplier : Z;
  ctr_divider : Z;
  h_id : Z;
  v_id : Z;
  ctr_type : CounterType
}.

#[export] Instance counter_eq_dec : EqDecision counter.
Proof. solve_decision. Defined.

Definition new_counter : counter := MkCounter [] [] 0 0 0 0 0 0 COUNTER_TYPE_INVALID.

(** The defaults of a line; the type stays that of the line before. *)
Definition line_defaults (c : counter) : counter :=
  MkCounter (lit "INVALID") (lit "INVALID") 0 0 1 1 0 0 (ctr_type c).

Definition set_h (name : str) (id : Z) (c : counter) : counter :=
  MkCounter name (v_event_name c) (ctr_ccr c) (idx c) (ctr_multiplier c) (ctr_divider c) id (v_id c) (ctr_type c).
Definition set_v (name : str) (id : Z) (c : counter) : counter :=
  MkCounter (h_event_name c) name (ctr_ccr c) (idx c) (ctr_multiplier c) (ctr_divider c) (h_id c) id (ctr_type c).
Definition set_multiplier (m : Z) (c : counter) : counter :=
  MkCounter (h_event_name c) (v_event_name c) (ctr_ccr c) (idx c) m (ctr_divider c) (h_id c) (v_id c) (ctr_type c).
Definition set_divider (d : Z) (c : counter) : counter :=
  MkCounter (h_event_name c) (v_event_name c) (ctr_ccr c) (idx c) (ctr_multiplier c) d (h_id c) (v_id c) (ctr_type c).
Definition set_idx (i : Z) (c : counter) : counter :=
  MkCounter (h_event_name c) (v_event_name c) (ctr_ccr c) i (ctr_multiplier c) (ctr_divider c) (h_id c) (v_id c) (ctr_type c).
Definition set_type (t : CounterType) (c : counter) : counter :=
  MkCounter (h_event_name c) (v_event_name c) (ctr_ccr c) (idx c) (ctr_multiplier c) (ctr_divider c) (h_id c) (v_id c) t.
Definition set_ccr (v : Z) (c : counter) : counter :=
  MkCounter (h_event_name c) (v_event_name c) v (idx c) (ctr_multiplier c) (ctr_divider c) (h_id c) (v_id c) (ctr_type c).

(** A map with string keys; its order does not matter. *)
Section StringMaps.
Context {A : Type}.

Fixpoint smap_find (k : str) (m : list (str * A)) : option A :=
  match m with
  | [] => None
  | (k', v) :: m => if bool_decide (k' = k) then Some v else smap_find k m
  end.

Fixpoint smap_set (k : str) (v : A) (m : list (str * A)) : list (str * A) :=
  match m with
  | [] => [(k, v)]
  | (k', v') :: m => if bool_decide (k' = k) then (k, v) :: m else (k', v') :: smap_set k v m
  end.

End StringMaps.

Abbreviation CounterValueMap := (list (str * Z)).
Abbreviation PCIeEventNameMap := (list (str * (Z * CounterValueMap))).

Inductive evt_cb_type := EVT_LINE_START | EVT_LINE_FIELD | EVT_LINE_COMPLETE.

(** The number in a value: 0 when there is none, the largest one beyond the range. For a
    value of blanks only the code leaves the variable without a value; it is 0 here. *)
Definition stream_number (value : str) : Z := (num_get 0 (skip_spaces value)).1.

(** [static_cast<uint32_t>(m.size()) - 1] *)
Definition last_id {A} (m : list A) : Z := u32 (Z.of_nat (length m) - 1).

Section LoadEvents.
Context {C : Type}.

(** The callback: kind of call, context, counter, [ofm[key]], number; 0 for success. *)
Context (pfn_evtcb : evt_cb_type -> C -> counter -> Z -> Z -> res (C * Z)).
Context (ofm : list (str * Z)).

(** The state of the function while it reads: the counter, [h_name], the names, the context. *)
Record load_state := LoadState {
  ls_ctr : counter;
  ls_h_name : str;
  ls_names : PCIeEventNameMap;
  ls_ctx : C
}.

(** A callback that fails ends the function with [invalid_argument]. *)
Definition call_back (cb : evt_cb_type) (field number : Z) (st : load_state) : res load_state :=
  r ← pfn_evtcb cb (ls_ctx st) (ls_ctr st) field number;
  let '(ctx, code) := r in
  if code =? 0 then Ok (LoadState (ls_ctr st) (ls_h_name st) (ls_names st) ctx) else Throw InvalidArgument.

Definition with_ctr (f : counter -> counter) (st : load_state) : load_state :=
  LoadState (f (ls_ctr st)) (ls_h_name st) (ls_names st) (ls_ctx st).

(** The case [H_EVENT_NAME] *)
Definition read_h_name (value : str) (st : load_state) : load_state :=
  let h_name := dos2unix value in
  let names := match smap_find h_name (ls_names st) with
               | Some _ => ls_names st
               | None => smap_set h_name (u32 (Z.of_nat (length (ls_names st))), []) (ls_names st)
               end in
  LoadState (set_h h_name (last_id names) (ls_ctr st)) h_name names (ls_ctx st).

(** The case [V_EVENT_NAME]; the number that the map keeps is computed before the name is
    entered. *)
Definition read_v_name (value : str) (st : load_state) : res load_state :=
  let v_name := dos2unix value in
  let entry := default (0, []) (smap_find (ls_h_name st) (ls_names st)) in
  match smap_find v_name entry.2 with
  | Some _ => Throw InvalidArgument
  | None =>
      let v_nameMap := smap_set v_name (last_id entry.2) entry.2 in
      Ok (LoadState (set_v v_name (last_id v_nameMap) (ls_ctr st)) (ls_h_name st)
            (smap_set (ls_h_name st) (entry.1, v_nameMap) (ls_names st)) (ls_ctx st))
  end.

(** [switch (ofm[key])] *)
Definition read_field (field numValue : Z) (value : str) (st : load_state) : res load_state :=
  if field =? H_EVENT_NAME then Ok (read_h_name value st)
  else if field =? V_EVENT_NAME then read_v_name value st
  else if field =? MULTIPLIER then Ok (with_ctr (set_multiplier (i32 numValue)) st)
  else if field =? DIVIDER then Ok (with_ctr (set_divider (i32 numValue)) st)
  else if field =? COUNTER_INDEX then Ok (with_ctr (set_idx (i32 numValue)) st)
  else if field =? UNIT_TYPE then
    if bool_decide (dos2unix value = lit "iio") then Ok (with_ctr (set_type CounterType_iio) st) else Throw InvalidArgument
  else call_back EVT_LINE_FIELD field numValue st.

(** One item of a line: [substr] up to and from behind the first [=]. *)
Definition read_item (item : str) (st : load_state) : res load_state :=
  let i := CxxString.index_of (Ascii.eqb "=") item in
  let key := match i with Some i => take i item | None => item end in
  let value := match i with Some i => drop (S i) item | None => item end in
  match key, value with
  | [], _ | _, [] => Ok st
  | _, _ => read_field (default INVALID (smap_find key ofm)) (stream_number value) value st
  end.

Fixpoint read_items (items : list str) (st : load_state) : res load_state :=
  match items with
  | [] => Ok st
  | item :: items => st ← read_item item st; read_items items st
  end.

Definition has_char (c : ascii) (s : str) : bool := existsb (Ascii.eqb c) s.

Definition load_line (line : str) (st : load_state) : res load_state :=
  st ← call_back EVT_LINE_START 0 0 (with_ctr line_defaults st);
  if has_char "#" line then Ok st
  else if negb (has_char "=" line) then Ok st
  else
    st ← read_items (split line ",") (LoadState (ls_ctr st) [] (ls_names st) (ls_ctx st));
    call_back EVT_LINE_COMPLETE 0 0 st.

Fixpoint load_lines (lines : list str) (st : load_state) : res load_state :=
  match lines with
  | [] => Ok st
  | line :: lines => st ← load_line line st; load_lines lines st
  end.

(** The names and the context afterwards. *)
Definition load_events (file alt_file : option str) (ctx : C) (names : PCIeEventNameMap) : res (PCIeEventNameMap * C) :=
  contents ← match file, alt_file with
             | Some s, _ | None, Some s => Ok s
             | None, None => Throw InvalidArgument
             end;
  st ← load_lines (split contents LF) (LoadState new_counter [] names ctx);
  Ok (ls_names st, ls_ctx st).

End LoadEvents.
Arguments LoadState {C}.
Arguments ls_ctr {C}.
Arguments ls_h_name {C}.
Arguments ls_names {C}.
Arguments ls_ctx {C}.

(** * The counters of pcm-iio *)

(** [iio_evt_parse_context]; the samples of a counter are kept elsewhere. *)
Record iio_evt_parse_context := MkIioContext {
  cpu_family_model : Z;
  iio_ctr : counter;
  iio_ctrs : list counter
}.

(** [get_ccr]: which layout the register has. *)
Definition get_ccr (model : Z) : res ccr_type :=
  if model =? SKX then Ok ccr_skx
  else if existsb (Z.eqb model) [ICX; SNOWRIDGE; SPR; EMR; GRR; SRF; GNR; GNR_D] then Ok ccr_icx
  else Throw Abort_.

(** The setter for a field, and the fields that are ignored. *)
Definition iio_field (field : Z) : option (option ccr_field) :=
  if (field =? OPCODE) || (field =? IGNORED) then Some None
  else if field =? EVENT_SELECT then Some (Some EventSelect)
  else if field =? UMASK then Some (Some Umask)
  else if field =? RESET then Some (Some Reset_)
  else if field =? EDGE_DET then Some (Some Edge)
  else if field =? OVERFLOW_ENABLE then Some (Some OvEn)
  else if field =? ENABLE then Some (Some Enable)
  else if field =? INVERT then Some (Some Invert)
  else if field =? THRESH then Some (Some Thresh)
  else if field =? CH_MASK_FIELD then Some (Some ChMask)
  else if field =? FC_MASK_FIELD then Some (Some FcMask)
  else None.

Definition iio_evt_parse_handler (cb : evt_cb_type) (context : iio_evt_parse_context) (base_ctr : counter) (field numValue : Z)
  : res (iio_evt_parse_context * Z) :=
  let m := cpu_family_model context in
  match cb with
  | EVT_LINE_START => Ok (MkIioContext m (set_ccr 0 (iio_ctr context)) (iio_ctrs context), 0)
  | EVT_LINE_FIELD =>
      type ← get_ccr m;
      match iio_field field with
      | Some (Some f) =>
          let c := iio_ctr context in
          Ok (MkIioContext m (set_ccr (ccr_set type f (ctr_ccr c) numValue) c) (iio_ctrs context), 0)
      | Some None => Ok (context, 0)
      | None => Ok (context, -1)
      end
  | EVT_LINE_COMPLETE =>
      let c := iio_ctr context in
      let c := MkCounter (h_event_name base_ctr) (v_event_name base_ctr) (ctr_ccr c) (idx base_ctr) (ctr_multiplier base_ctr)
                 (ctr_divider c) (h_id base_ctr) (v_id base_ctr) (ctr_type base_ctr) in
      Ok (MkIioContext m c (iio_ctrs context ++ [c]), 0)
  end.

(** [fillOpcodeFieldMapForPCIeEvents] *)
Definition iio_field_map : list (str * Z) :=
  [(lit "opcode", OPCODE); (lit "ev_sel", EVENT_SELECT); (lit "umask", UMASK); (lit "reset", RESET); (lit "edge_det", EDGE_DET);
   (lit "ignored", IGNORED); (lit "overflow_enable", OVERFLOW_ENABLE); (lit "en", ENABLE); (lit "invert", INVERT);
   (lit "thresh", THRESH); (lit "ch_mask", CH_MASK_FIELD); (lit "fc_mask", FC_MASK_FIELD); (lit "hname", H_EVENT_NAME);
   (lit "vname", V_EVENT_NAME); (lit "multiplier", MULTIPLIER); (lit "ctr", COUNTER_INDEX); (lit "unit", UNIT_TYPE)].

(** [setupPCIeEventContextAndNameMap]: nothing when the exception is caught and the answer
    is false. The context's own counter is that of an earlier call. *)
Definition setupPCIeEventContextAndNameMap (model : Z) (file alt_file : option str) (ctr : counter) (names : PCIeEventNameMap)
  : res (option (PCIeEventNameMap * iio_evt_parse_context)) :=
  match load_events iio_evt_parse_handler iio_field_map file alt_file (MkIioContext model ctr []) names with
  | Ok r => Ok (Some r)
  | Throw Abort_ => Throw Abort_
  | Throw _ => Ok None
  end.
