(* ===== verification/AccelEvents.v ===== *)
(** The counters of the accelerators that the sensor server and pcm-accel show
    ([src/src/pcm-accel-common.h], [src/src/pcm-accel-common.cpp]): the fields of their
    control register, the lines of their file of events, programming and reading. *)

From S2P Require Import Prelude CxxString Bits StrUtils WidthExtender CpuModels Capabilities Registers UncorePMU PcmUncore EventFile.
Local Open Scope Z_scope.

(** * [spr_idx_ccr] *)

Definition idx_get_event_select (ccr_value : Z) : Z := Z.land (Z.shiftr ccr_value 32) 0xFFFFFFF.
Definition idx_set_event_select (ccr_value value : Z) : Z := Z.lor ccr_value (u64 (Z.shiftl value 32)).
Definition idx_get_event_category (ccr_value : Z) : Z := Z.land (Z.shiftr ccr_value 8) 0xF.
Definition idx_set_event_category (ccr_value value : Z) : Z := Z.lor ccr_value (u64 (Z.shiftl value 8)).
Definition idx_get_enable (ccr_value : Z) : Z := Z.land (Z.shiftr ccr_value 0) 0x01.
Definition idx_set_enable (ccr_value value : Z) : Z := Z.lor ccr_value (u64 (Z.shiftl value 0)).

(** * The lines of the file *)

(** [IDXPerfmonField] *)
Definition EVENT_CATEGORY : Z := 0x101.
Definition FILTER_WQ : Z := 0x102.
Definition FILTER_ENG : Z := 0x103.
Definition FILTER_TC : Z := 0x104.
Definition FILTER_PGSZ : Z := 0x105.
Definition FILTER_XFERSZ : Z := 0x106.

(** [ACCEL_IP] *)
Definition ACCEL_IAA : Z := 0.
Definition ACCEL_DSA : Z := 1.
Definition ACCEL_QAT : Z := 2.
Definition ACCEL_MAX : Z := 3.

(** [accel_counter] *)
Record accel_ctr := MkAccelCtr {
  ac_base : counter;
  cfr_wq : Z;
  cfr_eng : Z;
  cfr_tc : Z;
  cfr_pgsz : Z;
  cfr_xfersz : Z
}.

(** [acc_m]: the pointer [m] is not null. *)
Record accel_evt_parse_context := MkAccelContext {
  acc_m : bool;
  acc_accel : Z;
  acc_ctr : accel_ctr;
  acc_ctrs : list accel_ctr
}.

Definition set_acc_ctr (c : accel_ctr) (x : accel_evt_parse_context) : accel_evt_parse_context :=
  MkAccelContext (acc_m x) (acc_accel x) c (acc_ctrs x).

(** What a field does to the counter of the context; nothing for a field that is not known. *)
Definition idx_field (field numValue : Z) (c : accel_ctr) : option accel_ctr :=
  let b := ac_base c in
  let reg v := Some (MkAccelCtr (set_ccr v b) (cfr_wq c) (cfr_eng c) (cfr_tc c) (cfr_pgsz c) (cfr_xfersz c)) in
  if field =? EVENT_SELECT then reg (idx_set_event_select (ctr_ccr b) numValue)
  else if field =? ENABLE then reg (idx_set_enable (ctr_ccr b) numValue)
  else if field =? EVENT_CATEGORY then reg (idx_set_event_category (ctr_ccr b) numValue)
  else if field =? FILTER_WQ then Some (MkAccelCtr b (u32 numValue) (cfr_eng c) (cfr_tc c) (cfr_pgsz c) (cfr_xfersz c))
  else if field =? FILTER_ENG then Some (MkAccelCtr b (cfr_wq c) (u32 numValue) (cfr_tc c) (cfr_pgsz c) (cfr_xfersz c))
  else if field =? FILTER_TC then Some (MkAccelCtr b (cfr_wq c) (cfr_eng c) (u32 numValue) (cfr_pgsz c) (cfr_xfersz c))
  else if field =? FILTER_PGSZ then Some (MkAccelCtr b (cfr_wq c) (cfr_eng c) (cfr_tc c) (u32 numValue) (cfr_xfersz c))
  else if field =? FILTER_XFERSZ then Some (MkAccelCtr b (cfr_wq c) (cfr_eng c) (cfr_tc c) (cfr_pgsz c) (u32 numValue))
  else None.

(** The name that the lines for a kind of accelerator have. *)
Definition accel_h_name (accel : Z) : option str :=
  if accel =? ACCEL_IAA then Some (lit "IAA") else if accel =? ACCEL_DSA then Some (lit "DSA")
  else if accel =? ACCEL_QAT then Some (lit "QAT") else None.

(** * The counters a device has and the handler of a line *)

Section Accel.
Context {machine : Machine} (pf : pcm_platform).

Definition getMaxNumOfAccelCtrs (x : accel_evt_parse_context) : nat :=
  if (ACCEL_MAX <=? acc_accel x) || negb (acc_m x) then 0%nat
  else if (acc_accel x =? ACCEL_IAA) || (acc_accel x =? ACCEL_DSA) || (acc_accel x =? ACCEL_QAT)
  then getMaxNumOfIDXAccelCtrs pf (Z.to_nat (acc_accel x)) else 0%nat.

Definition idx_evt_parse_handler (cb : evt_cb_type) (x : accel_evt_parse_context) (base_ctr : counter) (field numValue : Z)
  : res (accel_evt_parse_context * Z) :=
  let c := acc_ctr x in
  match cb with
  | EVT_LINE_START => Ok (set_acc_ctr (MkAccelCtr (set_ccr 0 (ac_base c)) 0xFFFF 0xFFFF 0xFFFF 0xFFFF 0xFFFF) x, 0)
  | EVT_LINE_FIELD =>
      match idx_field field numValue c with
      | Some c => Ok (set_acc_ctr c x, 0)
      | None => Ok (x, -1)
      end
  | EVT_LINE_COMPLETE =>
      let other := match accel_h_name (acc_accel x) with Some n => negb (bool_decide (h_event_name base_ctr = n)) | None => false end in
      if other then Ok (x, 0)
      else if Z.of_nat (getMaxNumOfAccelCtrs x) <=? u32 (idx base_ctr) then Ok (x, 0)
      else
        let b := ac_base c in
        let b := MkCounter (h_event_name base_ctr) (v_event_name base_ctr) (ctr_ccr b) (idx base_ctr) (ctr_multiplier base_ctr)
                   (ctr_divider base_ctr) (h_id base_ctr) (v_id base_ctr) (ctr_type b) in
        let c := MkAccelCtr b (cfr_wq c) (cfr_eng c) (cfr_tc c) (cfr_pgsz c) (cfr_xfersz c) in
        Ok (MkAccelContext (acc_m x) (acc_accel x) c (acc_ctrs x ++ [c]), 0)
  end.

(** The map that [setEvents] fills. *)
Definition accel_field_map : list (str * Z) :=
  [(lit "hname", H_EVENT_NAME); (lit "vname", V_EVENT_NAME); (lit "multiplier", MULTIPLIER); (lit "divider", DIVIDER);
   (lit "ctr", COUNTER_INDEX); (lit "en", ENABLE); (lit "ev_sel", EVENT_SELECT); (lit "ev_cat", EVENT_CATEGORY);
   (lit "filter_wq", FILTER_WQ); (lit "filter_eng", FILTER_ENG); (lit "filter_tc", FILTER_TC); (lit "filter_pgsz", FILTER_PGSZ);
   (lit "filter_xfersz", FILTER_XFERSZ)].

(** * The accelerators of the machine *)

Definition getNumOfAccelDevs (x : accel_evt_parse_context) (st : pcm_uncore) : M nat :=
  if (ACCEL_MAX <=? acc_accel x) || negb (acc_m x) then mret 0%nat
  else if acc_accel x =? ACCEL_IAA then getNumOfIDXAccelDevs IDX_IAA st
  else if acc_accel x =? ACCEL_DSA then getNumOfIDXAccelDevs IDX_DSA st
  else if acc_accel x =? ACCEL_QAT then getNumOfIDXAccelDevs IDX_QAT st
  else mret 0%nat.

Definition isAccelCounterAvailable (x : accel_evt_parse_context) (st : pcm_uncore) : M bool :=
  n ← getNumOfAccelDevs x st;
  mret (acc_m x && (acc_accel x <? ACCEL_MAX) && negb (n =? 0)%nat).

(** [setEvents] for one of the three kinds; the program ends when there is no such device,
    the file cannot be read, or its counters are none or too many. *)
Definition setEvents (accel : Z) (file alt_file : option str) (x : accel_evt_parse_context) (st : pcm_uncore)
  : M accel_evt_parse_context :=
  let x := MkAccelContext true accel (acc_ctr x) (acc_ctrs x) in
  available ← isAccelCounterAvailable x st;
  if negb available then throw Abort_
  else
    match load_events idx_evt_parse_handler accel_field_map file alt_file (MkAccelContext true accel (acc_ctr x) []) [] with
    | Throw _ => throw Abort_
    | Ok (_, x) =>
        if (length (acc_ctrs x) =? 0)%nat || (getMaxNumOfAccelCtrs x <? length (acc_ctrs x))%nat then throw Abort_
        else if accel =? ACCEL_QAT then
          n ← getNumOfAccelDevs x st;
          forM (seq 0 n) (fun dev => controlQATTelemetry dev 1 st) ;;
          mret x
        else mret x
    end.

(** The filters of the counters, in the order of the file. *)
Definition accel_filters (l : list accel_ctr) : idx_filters :=
  IdxFilters (map cfr_wq l) (map cfr_eng l) (map cfr_tc l) (map cfr_pgsz l) (map cfr_xfersz l).

Definition programAccelCounters (x : accel_evt_parse_context) (st : pcm_uncore) : M Z :=
  if negb (acc_m x) || (ACCEL_MAX <=? acc_accel x) || (length (acc_ctrs x) =? 0)%nat ||
     (getMaxNumOfAccelCtrs x <? length (acc_ctrs x))%nat then mret (-1)
  else
    programIDXAccelCounters pf (Z.to_nat (acc_accel x)) (map (fun c => ctr_ccr (ac_base c)) (acc_ctrs x))
      (accel_filters (acc_ctrs x)) st ;;
    mret 0.

Definition getAccelCounterState (x : accel_evt_parse_context) (dev ctr_index : nat) (st : pcm_uncore) : M Z :=
  if negb (acc_m x) || (ACCEL_MAX <=? acc_accel x) then mret 0
  else
    n ← getNumOfAccelDevs x st;
    if (n <=? dev)%nat || (getMaxNumOfAccelCtrs x <=? ctr_index)%nat then mret 0
    else getIDXAccelCounterState pf (Z.to_nat (acc_accel x)) dev ctr_index st.

(** [readAccelCounters]: the counters of the devices, one device after the other; QAT
    devices are asked for new values first. Other kinds have no device. *)
Definition readAccelCounters (x : accel_evt_parse_context) (st : pcm_uncore) : M (list Z) :=
  n ← getNumOfAccelDevs x st;
  l ← mapM_ (seq 0 n) (fun dev =>
        (if acc_accel x =? ACCEL_QAT then controlQATTelemetry dev 2 st else mret tt) ;;
        mapM_ (seq 0 (length (acc_ctrs x))) (fun ctr_index => getAccelCounterState x dev ctr_index st));
  mret (concat l).

End Accel.
