(* ===== verification/EventTable.v ===== *)
(** Reading back a table of events of pcm-iio: what [setupPCIeEventContextAndNameMap] makes of
    a file in the format of the files [opCode-6-*.txt], with its comments, groups and rows. *)

From S2P Require Import Prelude CxxString Bits StrUtils WidthExtender CpuModels Registers PciProbe EventFile.
Local Open Scope char_scope.
Local Open Scope Z_scope.
Local Open Scope list_scope.

(** * Numbers *)

(** A number written in base 16 or in base 10. *)
Definition print_number (hexa : bool) (n : Z) : str := if hexa then lit "0x" ++ to_hex n else to_string n.

Lemma byte_not_zero d : 0 < d < 10 -> byte (48 + d) <> "0".
Proof.
  intros Hd E. apply (f_equal code) in E. rewrite code_byte in E by lia. change (code "0") with 48 in E. lia.
Qed.

Lemma decimal_no_leading_zero fuel n c s : 0 < n < 10 ^ Z.of_nat fuel -> decimal fuel n = c :: s -> c <> "0".
Proof.
  revert n c s. induction fuel as [|fuel IH]; intros n c s Hn; [simpl in *; lia|].
  rewrite Nat2Z.inj_succ, Z.pow_succ_r in Hn by lia. cbn [decimal]. destruct (Z.ltb_spec n 10).
  - intros [= <- <-]. apply byte_not_zero. lia.
  - assert (Hq : 0 < n / 10 < 10 ^ Z.of_nat fuel) by (split; [apply Z.div_str_pos|apply Z.div_lt_upper_bound]; lia).
    destruct (decimal fuel (n / 10)) as [|c' s'] eqn:E.
    + destruct fuel; [simpl in Hq; lia|]. destruct (decimal_front (S fuel) (n / 10)) as (? & ? & E' & _); [lia..|congruence].
    + intros [= <- <-]. by apply (IH (n / 10) c' s').
Qed.

Lemma num_get_0_decimal c s : isdigit c = true -> c <> "0" -> num_get 0 (c :: s) = num_get 10 (c :: s).
Proof.
  intros Hc H0. destruct (digit_of_16 c (isdigit_of_16 c Hc)) as (H1 & H2 & _). unfold num_get. cbn [skip_sign]. rewrite H1, H2.
  cbn [detect_base]. by rewrite (proj2 (Ascii.eqb_neq _ _) H0).
Qed.

(** The stream reads both forms. *)
Lemma stream_number_print hexa n : fits 64 n -> stream_number (print_number hexa n) = n.
Proof.
  intros Hn. pose proof Hn as [H0 H1]. unfold stream_number, print_number. destruct hexa.
  - change (skip_spaces (lit "0x" ++ to_hex n)) with (lit "0x" ++ to_hex n).
    change (num_get 0 (lit "0x" ++ to_hex n)) with (num_get 16 ("0" :: "x" :: to_hex n)).
    rewrite num_get_hexadecimal; [|done|done|by apply hexadecimal_nonempty; lia|by apply hexadecimal_digits].
    rewrite read_to_hex by done. cbv zeta. by rewrite (proj2 (Z.ltb_lt _ _) H1).
  - destruct (decide (n = 0)) as [->|Hz]; [reflexivity|]. pose proof (to_string_digits n Hn) as Hd.
    pose proof (read_to_string n Hn) as Hr. destruct (to_string n) as [|c s] eqn:E; [by apply (to_string_nonempty n) in E|].
    pose proof Hd as Hd'. cbn [forallb] in Hd'. apply andb_true_iff in Hd' as [Hc _].
    destruct (digit_not_special c Hc) as (Hs & _ & _). cbn [skip_spaces]. rewrite Hs.
    rewrite num_get_0_decimal, num_get_decimal, Hr by
      (done || (apply (decimal_no_leading_zero 20 n c s); [lia|exact E])). cbv zeta. by rewrite (proj2 (Z.ltb_lt _ _) H1).
Qed.

Lemma print_number_lacks c hexa n : fits 64 n -> isdigit c = false -> is_digit_of 16 c = false -> Ascii.eqb c "x" = false ->
  lacks c (print_number hexa n) = true.
Proof.
  intros Hn Hd Hh Hx. destruct hexa; cbn [print_number]; [|by apply to_string_lacks].
  rewrite lacks_app, hex_lacks by done. rewrite andb_true_r.
  change (lacks c (lit "0x")) with (negb (Ascii.eqb c "0") && (negb (Ascii.eqb c "x") && true)). rewrite Hx.
  destruct (Ascii.eqb_spec c "0") as [->|]; [discriminate Hd|done].
Qed.

Lemma print_number_nonempty hexa n : fits 64 n -> print_number hexa n <> [].
Proof. intros Hn. destruct hexa; [done|]. by apply to_string_nonempty. Qed.

(** * The printed table *)

Record number := Number { number_hexa : bool; number_value : Z }.
Definition print (n : number) : str := print_number (number_hexa n) (number_value n).

Record iio_row := IioRow {
  row_ctr : number;
  row_fields : list (ccr_field * number);
  row_multiplier : number;
  row_vname : str
}.

(** The rows of one name, each after lines of comments. *)
Record iio_group := IioGroup { group_hname : str; group_rows : list (list str * iio_row) }.

Definition field_key (f : ccr_field) : str :=
  lit (match f with
       | EventSelect => "ev_sel" | Umask => "umask" | Reset_ => "reset" | Edge => "edge_det" | OvEn => "overflow_enable"
       | Enable => "en" | Invert => "invert" | Thresh => "thresh" | ChMask => "ch_mask" | FcMask => "fc_mask"
       end)%string.

Definition pair_item (key value : str) : str := key ++ "=" :: value.

Definition row_items (h : str) (r : iio_row) : list str :=
  [pair_item (lit "ctr") (print (row_ctr r)); pair_item (lit "unit") (lit "iio")] ++
  map (fun e => pair_item (field_key e.1) (print e.2)) (row_fields r) ++
  [pair_item (lit "multiplier") (print (row_multiplier r)); pair_item (lit "hname") h; pair_item (lit "vname") (row_vname r)].

Definition print_row (h : str) (r : iio_row) : str := join "," (row_items h r).

Definition group_lines (g : iio_group) : list str :=
  concat (map (fun cr => cr.1 ++ [print_row (group_hname g) cr.2]) (group_rows g)).

(** The file; [tail]: the comments behind the last row. *)
Definition print_table (groups : list iio_group) (tail : list str) : str :=
  concat (map (fun l => l ++ [LF]) (concat (map group_lines groups) ++ tail)).

(** ** What can be printed *)

Definition name_fine (s : str) : bool :=
  negb (bool_decide (s = [])) && forallb (fun c => lacks c s) [","; "#"; LF; CR].
Definition comment_fine (s : str) : bool := has_char "#" s && lacks LF s.
Definition number_fine (n : number) : bool := bool_decide (fits 64 (number_value n)).
Definition row_fine (r : iio_row) : bool :=
  number_fine (row_ctr r) && number_fine (row_multiplier r) && name_fine (row_vname r) &&
  forallb (fun e => number_fine e.2) (row_fields r) && bool_decide (NoDup (row_fields r).*1).
Definition group_fine (g : iio_group) : bool :=
  name_fine (group_hname g) && negb (bool_decide (group_rows g = [])) &&
  forallb (fun cr => forallb comment_fine cr.1 && row_fine cr.2) (group_rows g) &&
  bool_decide (NoDup (map (fun cr => row_vname cr.2) (group_rows g))).
Definition table_fine (groups : list iio_group) (tail : list str) : bool :=
  forallb group_fine groups && forallb comment_fine tail && bool_decide (NoDup (map group_hname groups)).

(** ** What should be read *)

(** The control register of a row. *)
Definition row_register (type : ccr_type) (r : iio_row) : Z :=
  foldl (fun v e => ccr_set type e.1 v (number_value e.2)) 0 (row_fields r).

(** The counter of the row at a position of a group; its divider is that of the context. *)
Definition row_counter (type : ccr_type) (divider : Z) (h : str) (i j : nat) (r : iio_row) : counter :=
  MkCounter h (row_vname r) (row_register type r) (i32 (number_value (row_ctr r))) (i32 (number_value (row_multiplier r))) divider
    (u32 (Z.of_nat i)) (u32 (Z.of_nat j)) CounterType_iio.

Definition group_counters (type : ccr_type) (divider : Z) (i : nat) (g : iio_group) : list counter :=
  imap (fun j cr => row_counter type divider (group_hname g) i j cr.2) (group_rows g).

(** The names: the second of a group is entered with the number 0, the first with -1. *)
Definition v_names (rows : list (list str * iio_row)) : CounterValueMap :=
  imap (fun j cr => (row_vname cr.2, u32 (Z.of_nat j - 1))) rows.
Definition table_names (i : nat) (groups : list iio_group) : PCIeEventNameMap :=
  imap (fun j g => (group_hname g, (u32 (Z.of_nat (i + j)), v_names (group_rows g)))) groups.

(** * Reading it back *)

Lemma has_char_lacks c s : has_char c s = negb (lacks c s).
Proof. unfold has_char, lacks. induction s as [|x s IH]; [done|]. simpl. rewrite IH. by destruct (Ascii.eqb c x). Qed.

Lemma dos2unix_id s : lacks CR s = true -> dos2unix s = s.
Proof.
  intros H. unfold dos2unix. destruct (rev s) as [|c l] eqn:E; [done|]. destruct (Ascii.eqb_spec c CR) as [->|]; [|done].
  apply (f_equal (@rev ascii)) in E. rewrite rev_involutive in E. subst s. cbn [rev] in H.
  rewrite lacks_app in H. apply andb_true_iff in H as [_ H]. discriminate H.
Qed.

Lemma smap_find_app {A} k (m1 m2 : list (str * A)) : k ∉ m1.*1 -> smap_find k (m1 ++ m2) = smap_find k m2.
Proof.
  induction m1 as [|[k' v] m1 IH]; [done|]. rewrite fmap_cons, not_elem_of_cons. intros [H1 H2]. simpl.
  rewrite bool_decide_eq_false_2 by (intros ->; by apply H1). by apply IH.
Qed.

Lemma smap_set_app {A} k v (m1 m2 : list (str * A)) : k ∉ m1.*1 -> smap_set k v (m1 ++ m2) = m1 ++ smap_set k v m2.
Proof.
  induction m1 as [|[k' v'] m1 IH]; [done|]. rewrite fmap_cons, not_elem_of_cons. intros [H1 H2]. simpl.
  rewrite bool_decide_eq_false_2 by (intros ->; by apply H1). by rewrite IH.
Qed.

Lemma smap_fresh {A} k (v : A) m : k ∉ m.*1 -> smap_find k m = None /\ smap_set k v m = m ++ [(k, v)].
Proof. intros H. pose proof (smap_find_app k m [] H). pose proof (smap_set_app k v m [] H). by rewrite app_nil_r in *. Qed.

Lemma smap_here {A} k (v w : A) m : k ∉ m.*1 ->
  smap_find k (m ++ [(k, v)]) = Some v /\ smap_set k w (m ++ [(k, v)]) = m ++ [(k, w)].
Proof. intros H. rewrite smap_find_app, smap_set_app by done. simpl. by rewrite bool_decide_eq_true_2. Qed.

Section Reading.
Context (model : Z) (type : ccr_type) (Htype : get_ccr model = Ok type) (divider : Z).

Abbreviation state := (@load_state iio_evt_parse_context).
Abbreviation read_item := (read_item iio_evt_parse_handler iio_field_map).
Abbreviation read_items := (read_items iio_evt_parse_handler iio_field_map).
Abbreviation load_line := (load_line iio_evt_parse_handler iio_field_map).
Abbreviation load_lines := (load_lines iio_evt_parse_handler iio_field_map).

Lemma read_item_pair key value field (st : state) :
  smap_find key iio_field_map = Some field -> lacks "=" key = true -> key <> [] -> value <> [] ->
  read_item (pair_item key value) st = read_field iio_evt_parse_handler field (stream_number value) value st.
Proof.
  intros Hf Hk Hk0 Hv0. unfold EventFile.read_item, pair_item.
  assert (Hi : CxxString.index_of (Ascii.eqb "=") (key ++ "=" :: value) = Some (length key)).
  { rewrite CxxString.index_of_app by exact Hk. simpl. by rewrite Nat.add_0_r. }
  rewrite Hi. rewrite take_app_length.
  replace (drop (S (length key)) (key ++ "=" :: value)) with value
    by (by rewrite <- (Nat.add_1_r (length key)), drop_app_add).
  rewrite Hf. cbn [default]. destruct key; [done|]. by destruct value.
Qed.

(** One item after the other. *)
Lemma read_items_cons item items (st st' : state) : read_item item st = Ok st' -> read_items (item :: items) st = read_items items st'.
Proof. intros H. cbn [EventFile.read_items]. by rewrite H. Qed.

Abbreviation ctx k l := (MkIioContext model k l).

Lemma read_register_field f n c hn names k l : number_fine n = true ->
  read_item (pair_item (field_key f) (print n)) (LoadState c hn names (ctx k l)) =
  Ok (LoadState c hn names (ctx (set_ccr (ccr_set type f (ctr_ccr k) (number_value n)) k) l)).
Proof.
  intros Hn%bool_decide_eq_true. pose proof (stream_number_print (number_hexa n) (number_value n) Hn) as Hs.
  pose proof (print_number_nonempty (number_hexa n) (number_value n) Hn) as Hne. fold (print n) in Hs, Hne.
  destruct f; erewrite read_item_pair by (reflexivity || done); rewrite Hs; unfold read_field, call_back; cbn [Z.eqb Pos.eqb];
    cbn [iio_evt_parse_handler cpu_family_model ls_ctx]; rewrite Htype; reflexivity.
Qed.

Lemma read_register_fields fields rest c hn names k l : forallb (fun e => number_fine e.2) fields = true ->
  read_items (map (fun e => pair_item (field_key e.1) (print e.2)) fields ++ rest) (LoadState c hn names (ctx k l)) =
  read_items rest (LoadState c hn names
    (ctx (set_ccr (foldl (fun v e => ccr_set type e.1 v (number_value e.2)) (ctr_ccr k) fields) k) l)).
Proof.
  revert k. induction fields as [|[f n] fields IH]; intros k; cbn [forallb map app foldl].
  - intros _. by destruct k.
  - rewrite andb_true_iff. intros [Hn Hf]. rewrite (read_items_cons _ _ _ _ (read_register_field f n c hn names k l Hn)).
    by rewrite IH.
Qed.

(** The names while a group is read: those of the groups before, and the group's once it has
    a row. *)
Definition names_so_far (done : PCIeEventNameMap) (h : str) (vs : CounterValueMap) : PCIeEventNameMap :=
  done ++ match vs with [] => [] | _ => [(h, (u32 (Z.of_nat (length done)), vs))] end.

Lemma last_id_snoc {A} (m : list A) a : last_id (m ++ [a]) = u32 (Z.of_nat (length m)).
Proof. unfold last_id. rewrite length_app. f_equal. simpl. lia. Qed.

Lemma read_h_name_spec h c hn done vs (x : iio_evt_parse_context) : lacks CR h = true -> h ∉ done.*1 ->
  read_h_name h (LoadState c hn (names_so_far done h vs) x) =
  LoadState (set_h h (u32 (Z.of_nat (length done))) c) h (done ++ [(h, (u32 (Z.of_nat (length done)), vs))]) x.
Proof.
  intros Hcr Hh. unfold read_h_name, names_so_far. rewrite dos2unix_id by done. cbn [ls_names ls_ctr ls_ctx].
  destruct vs as [|v vs].
  - rewrite app_nil_r. destruct (smap_fresh h (u32 (Z.of_nat (length done)), []) done Hh) as [-> ->]. by rewrite last_id_snoc.
  - destruct (smap_here h (u32 (Z.of_nat (length done)), v :: vs) (0, []) done Hh) as [-> _]. by rewrite last_id_snoc.
Qed.

Lemma read_v_name_spec h v c done n vs (x : iio_evt_parse_context) : lacks CR v = true -> h ∉ done.*1 -> v ∉ vs.*1 ->
  read_v_name v (LoadState c h (done ++ [(h, (n, vs))]) x) =
  Ok (LoadState (set_v v (u32 (Z.of_nat (length vs))) c) h
        (done ++ [(h, (n, vs ++ [(v, u32 (Z.of_nat (length vs) - 1))]))]) x).
Proof.
  intros Hcr Hh Hv. unfold read_v_name. rewrite dos2unix_id by done. cbn [ls_names ls_h_name ls_ctr ls_ctx].
  destruct (smap_here h (n, vs) (n, vs ++ [(v, u32 (Z.of_nat (length vs) - 1))]) done Hh) as [-> Hs].
  change (default (0, []) (Some (n, vs))) with (n, vs). cbn [fst snd].
  destruct (smap_fresh v (last_id vs) vs Hv) as [-> ->]. rewrite last_id_snoc. unfold last_id. by rewrite Hs.
Qed.

Lemma name_fine_spec s : name_fine s = true ->
  s <> [] /\ lacks "," s = true /\ lacks "#" s = true /\ lacks LF s = true /\ lacks CR s = true.
Proof.
  unfold name_fine. rewrite andb_true_iff, negb_true_iff, bool_decide_eq_false. cbn [forallb]. rewrite !andb_true_iff. tauto.
Qed.

(** Neither a separator nor a comment hides in a printed row. *)
Lemma pair_item_lacks c key value : lacks c key = true -> Ascii.eqb c "=" = false -> lacks c value = true ->
  lacks c (pair_item key value) = true.
Proof. intros H1 H2 H3. unfold pair_item. by rewrite lacks_app, lacks_cons, H1, H2, H3. Qed.

Lemma row_items_lack c h r : In c [","; "#"; LF] -> row_fine r = true -> name_fine h = true ->
  forallb (lacks c) (row_items h r) = true.
Proof.
  intros Hc Hr Hh. unfold row_fine in Hr. rewrite !andb_true_iff in Hr. destruct Hr as [[[[Hctr Hm] Hv] Hf] _].
  apply name_fine_spec in Hh as (_ & Hh1 & Hh2 & Hh3 & _). apply name_fine_spec in Hv as (_ & Hv1 & Hv2 & Hv3 & _).
  assert (Hp : forall n, number_fine n = true -> lacks c (print n) = true).
  { intros n Hn%bool_decide_eq_true. destruct Hc as [<-|[<-|[<-|[]]]]; by apply print_number_lacks. }
  assert (Hk : Ascii.eqb c "=" = false /\ (forall f, lacks c (field_key f) = true) /\ lacks c h = true /\ lacks c (row_vname r) = true /\
    forallb (lacks c) (map lit ["ctr"; "unit"; "iio"; "multiplier"; "hname"; "vname"]%string) = true).
  { destruct Hc as [<-|[<-|[<-|[]]]]; (split; [done|split; [by intros []|done]]). }
  destruct Hk as (He & Hkey & Hch & Hcv & Hlit). cbn [map forallb] in Hlit. rewrite !andb_true_iff in Hlit.
  unfold row_items. rewrite !forallb_app. cbn [forallb]. rewrite !andb_true_r, !pair_item_lacks by (tauto || auto).
  rewrite andb_true_l, andb_true_r, forallb_forall. intros i (e & <- & Hin)%in_map_iff.
  rewrite forallb_forall in Hf. apply pair_item_lacks; auto.
Qed.

Lemma forallb_lacks_join c d l : Ascii.eqb c d = false -> forallb (lacks c) l = true -> lacks c (join d l) = true.
Proof.
  intros Hd. induction l as [|a [|b l] IH]; [done|cbn; by rewrite andb_true_r|]. cbn [forallb]. rewrite andb_true_iff. intros [Ha H].
  change (join d (a :: b :: l)) with (a ++ d :: join d (b :: l)). rewrite lacks_app, lacks_cons, Ha, Hd. by apply IH.
Qed.

Lemma print_row_split h r : row_fine r = true -> name_fine h = true -> split (print_row h r) "," = row_items h r.
Proof.
  intros Hr Hh. apply split_join; [done| |by apply row_items_lack; [left|..]].
  unfold row_items. rewrite !last_app. done.
Qed.

Lemma print_row_chars h r : row_fine r = true -> name_fine h = true ->
  has_char "#" (print_row h r) = false /\ has_char "=" (print_row h r) = true /\ lacks LF (print_row h r) = true.
Proof.
  intros Hr Hh. rewrite !has_char_lacks. unfold print_row. split_and!; [|done|];
    (rewrite forallb_lacks_join; [done|done|apply row_items_lack; simpl; auto]).
Qed.

Lemma names_so_far_snoc done h vs e :
  done ++ [(h, (u32 (Z.of_nat (length done)), vs ++ [e]))] = names_so_far done h (vs ++ [e]).
Proof. unfold names_so_far. by destruct vs. Qed.

(** The other items of a row. *)
Lemma read_ctr n (st : state) : number_fine n = true ->
  read_item (pair_item (lit "ctr") (print n)) st = Ok (with_ctr (set_idx (i32 (number_value n))) st).
Proof.
  intros Hn%bool_decide_eq_true. rewrite (read_item_pair _ _ COUNTER_INDEX) by (done || by apply print_number_nonempty).
  unfold print. by rewrite stream_number_print.
Qed.

Lemma read_multiplier n (st : state) : number_fine n = true ->
  read_item (pair_item (lit "multiplier") (print n)) st = Ok (with_ctr (set_multiplier (i32 (number_value n))) st).
Proof.
  intros Hn%bool_decide_eq_true. rewrite (read_item_pair _ _ MULTIPLIER) by (done || by apply print_number_nonempty).
  unfold print. by rewrite stream_number_print.
Qed.

Lemma read_unit (st : state) : read_item (pair_item (lit "unit") (lit "iio")) st = Ok (with_ctr (set_type CounterType_iio) st).
Proof. done. Qed.

Lemma read_hname h (st : state) : h <> [] -> read_item (pair_item (lit "hname") h) st = Ok (read_h_name h st).
Proof. intros Hh. by rewrite (read_item_pair _ _ H_EVENT_NAME). Qed.

Lemma read_vname v (st : state) : v <> [] -> read_item (pair_item (lit "vname") v) st = read_v_name v st.
Proof. intros Hv. by rewrite (read_item_pair _ _ V_EVENT_NAME). Qed.

(** The start of a line. *)
Lemma start_line c hn names k l :
  call_back iio_evt_parse_handler EVT_LINE_START 0 0 (with_ctr line_defaults (LoadState c hn names (ctx k l))) =
  Ok (LoadState (line_defaults c) hn names (ctx (set_ccr 0 k) l)).
Proof. done. Qed.

(** A row of a group adds a counter and a name. *)
Lemma load_row h r c hn done vs k l : row_fine r = true -> name_fine h = true -> h ∉ done.*1 -> row_vname r ∉ vs.*1 ->
  let k' := row_counter type (ctr_divider k) h (length done) (length vs) r in
  exists c', load_line (print_row h r) (LoadState c hn (names_so_far done h vs) (ctx k l)) =
    Ok (LoadState c' h (names_so_far done h (vs ++ [(row_vname r, u32 (Z.of_nat (length vs) - 1))])) (ctx k' (l ++ [k']))).
Proof.
  intros Hr Hh Hnew Hv k'. destruct (print_row_chars h r Hr Hh) as (H1 & H2 & _).
  unfold EventFile.load_line. rewrite start_line. cbn [mbind res_bind]. rewrite H1, H2, print_row_split by done. cbn [negb].
  unfold row_items. unfold row_fine in Hr. rewrite !andb_true_iff in Hr. destruct Hr as [[[[Hctr Hm] Hvn] Hf] _].
  pose proof (name_fine_spec _ Hh) as (Hh0 & _ & _ & _ & Hhcr). pose proof (name_fine_spec _ Hvn) as (Hv0 & _ & _ & _ & Hvcr).
  cbn [app ls_ctr ls_h_name ls_names ls_ctx].
  rewrite (read_items_cons _ _ _ _ (read_ctr _ _ Hctr)), (read_items_cons _ _ _ _ (read_unit _)).
  unfold with_ctr. cbn [ls_ctr ls_h_name ls_names ls_ctx]. rewrite read_register_fields by done.
  rewrite (read_items_cons _ _ _ _ (read_multiplier _ _ Hm)), (read_items_cons _ _ _ _ (read_hname _ _ Hh0)).
  unfold with_ctr. cbn [ls_ctr ls_h_name ls_names ls_ctx]. rewrite read_h_name_spec by done.
  erewrite read_items_cons by (rewrite read_vname by done; by apply read_v_name_spec).
  cbn [EventFile.read_items mbind res_bind]. rewrite names_so_far_snoc. eexists. reflexivity.
Qed.

(** ** Lines, groups and the table *)

Definition holds (st : state) (names : PCIeEventNameMap) (l : list counter) : Prop :=
  exists c hn k, st = LoadState c hn names (ctx k l) /\ ctr_divider k = divider.

Definition reads (lines : list str) (st : state) (names : PCIeEventNameMap) (l : list counter) : Prop :=
  exists st', load_lines lines st = Ok st' /\ holds st' names l.

Lemma reads_app lines1 lines2 st names1 l1 names2 l2 :
  reads lines1 st names1 l1 -> (forall st', holds st' names1 l1 -> reads lines2 st' names2 l2) ->
  reads (lines1 ++ lines2) st names2 l2.
Proof.
  intros (st1 & E1 & H1) H2. destruct (H2 st1 H1) as (st2 & E2 & Hst2). exists st2. split; [|done]. rewrite <- E2.
  clear -E1. revert st E1. induction lines1 as [|line lines IH]; intros st; cbn [EventFile.load_lines app].
  - by intros [= ->].
  - cbn [mbind res_bind]. by destruct (load_line line st) as [st'|e]; [apply IH|].
Qed.

Lemma read_comments lines st names l : forallb comment_fine lines = true -> holds st names l -> reads lines st names l.
Proof.
  intros Hl. revert st. induction lines as [|line lines IH]; intros st Hst; [by exists st|].
  cbn [forallb] in Hl. apply andb_true_iff in Hl as [Hc Hl]. unfold comment_fine in Hc. apply andb_true_iff in Hc as [Hc _].
  destruct Hst as (c & hn & k & -> & Hk).
  destruct (IH Hl (LoadState (line_defaults c) hn names (ctx (set_ccr 0 k) l))) as (st' & E & Hst').
  { by exists (line_defaults c), hn, (set_ccr 0 k). }
  exists st'. split; [|done]. cbn [EventFile.load_lines]. unfold EventFile.load_line. rewrite start_line. cbn [mbind res_bind].
  rewrite Hc. exact E.
Qed.

(** The rows of a group from a position on. *)
Definition names_from (n : nat) (rows : list (list str * iio_row)) : CounterValueMap :=
  imap (fun j cr => (row_vname cr.2, u32 (Z.of_nat (n + j) - 1))) rows.
Definition counters_from (i n : nat) (h : str) (rows : list (list str * iio_row)) : list counter :=
  imap (fun j cr => row_counter type divider h i (n + j) cr.2) rows.

Lemma imap_from {A B} (f : nat -> A -> B) n x l :
  imap (fun j => f (n + j)%nat) (x :: l) = f n x :: imap (fun j => f (S n + j)%nat) l.
Proof.
  cbn [imap]. rewrite Nat.add_0_r. f_equal. apply imap_ext. intros j y _. unfold compose. f_equal. lia.
Qed.

Lemma read_rows h done : name_fine h = true -> h ∉ done.*1 -> forall rows st vs l,
  forallb (fun cr => forallb comment_fine cr.1 && row_fine cr.2) rows = true ->
  NoDup (vs.*1 ++ map (fun cr => row_vname cr.2) rows) ->
  holds st (names_so_far done h vs) l ->
  reads (concat (map (fun cr => cr.1 ++ [print_row h cr.2]) rows)) st
    (names_so_far done h (vs ++ names_from (length vs) rows)) (l ++ counters_from (length done) (length vs) h rows).
Proof.
  intros Hh Hnew. induction rows as [|[cs r] rows IH]; intros st vs l Hr Hnd Hst.
  - rewrite !app_nil_r. by exists st.
  - cbn [forallb map fst snd] in Hr, Hnd. rewrite !andb_true_iff in Hr. destruct Hr as [[Hcs Hr] Hrows].
    cbn [map concat]. rewrite <- (assoc_L (++)). eapply reads_app; [by apply read_comments|].
    clear st Hst. intros st (c & hn & k & -> & Hk). cbn [fst snd app].
    assert (Hv : row_vname r ∉ vs.*1).
    { apply NoDup_app in Hnd as (_ & Hd & _). intros Hin. apply (Hd _ Hin). by left. }
    destruct (load_row h r c hn done vs k l Hr Hh Hnew Hv) as (c' & E).
    set (e := (row_vname r, u32 (Z.of_nat (length vs) - 1))) in *. rewrite Hk in E.
    set (k' := row_counter type divider h (length done) (length vs) r) in *.
    destruct (IH (LoadState c' h (names_so_far done h (vs ++ [e])) (ctx k' (l ++ [k']))) (vs ++ [e]) (l ++ [k']) Hrows) as (st' & E' & Hst').
    { rewrite fmap_app, <- (assoc_L (++)). exact Hnd. }
    { by exists c', h, k'. }
    exists st'. split; [cbn [EventFile.load_lines mbind res_bind]; by rewrite E|].
    rewrite <- !(assoc_L (++)) in Hst'. rewrite length_app, Nat.add_1_r in Hst'. cbn [app] in Hst'.
    unfold names_from, counters_from in *.
    rewrite (imap_from (fun j cr => (row_vname cr.2, u32 (Z.of_nat j - 1)))), (imap_from (fun j cr => row_counter _ _ _ _ j cr.2)).
    exact Hst'.
Qed.

Lemma read_groups groups : forall st done l,
  forallb group_fine groups = true -> NoDup (done.*1 ++ map group_hname groups) -> holds st done l ->
  reads (concat (map group_lines groups)) st (done ++ table_names (length done) groups)
    (l ++ concat (imap (fun i => group_counters type divider (length done + i)) groups)).
Proof.
  induction groups as [|g groups IH]; intros st done l Hg Hnd Hst; [rewrite !app_nil_r; by exists st|].
  cbn [forallb map] in Hg, Hnd. apply andb_true_iff in Hg as [Hg Hgs]. unfold group_fine in Hg. rewrite !andb_true_iff in Hg.
  destruct Hg as [[[Hh Hne] Hrows] Hv]. apply bool_decide_eq_true in Hv. apply negb_true_iff, bool_decide_eq_false in Hne.
  assert (Hnew : group_hname g ∉ done.*1).
  { apply NoDup_app in Hnd as (_ & Hd & _). intros Hin. apply (Hd _ Hin). by left. }
  cbn [map concat]. eapply reads_app.
  - apply (read_rows (group_hname g) done Hh Hnew (group_rows g) st [] l Hrows Hv). unfold names_so_far. by rewrite app_nil_r.
  - clear st Hst. intros st Hst. cbn [app length] in Hst.
    set (e := (group_hname g, (u32 (Z.of_nat (length done)), v_names (group_rows g)))).
    assert (En : names_so_far done (group_hname g) (names_from 0 (group_rows g)) = done ++ [e]).
    { unfold names_so_far, names_from, e, v_names. by destruct (group_rows g). }
    rewrite En in Hst.
    specialize (IH st (done ++ [e]) _ Hgs ltac:(rewrite fmap_app, <- (assoc_L (++)); exact Hnd) Hst).
    rewrite <- !(assoc_L (++)), length_app, Nat.add_1_r in IH. cbn [app] in IH. unfold table_names in *.
    rewrite (imap_from (fun j g => (group_hname g, (u32 (Z.of_nat j), v_names (group_rows g))))), (imap_from (group_counters type divider)).
    exact IH.
Qed.

End Reading.

(** The fields of a register that is filled one field after the other. *)
Lemma filled_register type fields : forall v, fits 64 v -> forallb (fun e => number_fine e.2) fields = true -> NoDup fields.*1 ->
  let w := foldl (fun v e => ccr_set type e.1 v (number_value e.2)) v fields in
  (forall f, f ∉ fields.*1 -> ccr_get type f w = ccr_get type f v) /\
  (forall f n, (f, n) ∈ fields -> ccr_get type f w = wrapN (field_width type f) (number_value n)).
Proof.
  induction fields as [|[f n] fields IH]; intros v Hv Hn Hnd; cbn [foldl fst snd forallb] in *.
  - split; [done|]. intros f n Hin. by apply not_elem_of_nil in Hin.
  - apply andb_true_iff in Hn as [Hn Hns]. apply bool_decide_eq_true in Hn. rewrite fmap_cons in Hnd. apply NoDup_cons in Hnd as [Hf Hnd].
    destruct (IH (ccr_set type f v (number_value n)) (ccr_set_fits type f v _ Hv Hn) Hns Hnd) as [Hout Hin]. split.
    + intros g Hg. rewrite fmap_cons, not_elem_of_cons in Hg. destruct Hg as [Hgf Hg]. rewrite Hout by done. by apply ccr_get_set_other.
    + intros g x Hg. apply elem_of_cons in Hg as [[= -> ->]|Hg]; [|by apply Hin]. rewrite Hout by done. by apply ccr_get_set_same.
Qed.

Lemma table_lines_plain groups tail : table_fine groups tail = true ->
  forallb (lacks LF) (concat (map group_lines groups) ++ tail) = true.
Proof.
  unfold table_fine. rewrite !andb_true_iff. intros [[Hg Ht] _]. rewrite forallb_app, andb_true_iff. split.
  - apply forallb_forall. intros line Hin. apply in_concat in Hin as (ls & Hls & Hin). apply in_map_iff in Hls as (g & <- & Hgin).
    rewrite forallb_forall in Hg. specialize (Hg g Hgin). unfold group_fine in Hg. rewrite !andb_true_iff in Hg.
    destruct Hg as [[[Hh _] Hrows] _]. apply in_concat in Hin as (ls & Hls & Hin). apply in_map_iff in Hls as ([cs r] & <- & Hcr).
    rewrite forallb_forall in Hrows. specialize (Hrows _ Hcr). cbn [fst snd] in *. apply andb_true_iff in Hrows as [Hcs Hr].
    apply in_app_iff in Hin as [Hin|[<-|[]]]; [|by apply print_row_chars].
    rewrite forallb_forall in Hcs. specialize (Hcs _ Hin). unfold comment_fine in Hcs. apply andb_true_iff in Hcs. tauto.
  - rewrite forallb_forall in *. intros c Hc. specialize (Ht c Hc). unfold comment_fine in Ht. apply andb_true_iff in Ht. tauto.
Qed.

(** C18. A table of events that is printed in the format of the files of pcm-iio - comments,
    numbers in base 10 or 16, any of the fields of the control register in any order - is read
    back exactly: one counter for each row, in order, with its names, index and multiplier,
    numbered by its group and its place in the group, and with a control register each of
    whose fields holds the bits that fit of what the row says, the others being zero. A map of
    names comes with it in which the first name of a group has the number 2^32 - 1 and the
    others one less than their counter. *)
Theorem event_table_read_back model type groups tail alt_file ctr :
  get_ccr model = Ok type -> table_fine groups tail = true ->
  (exists last, setupPCIeEventContextAndNameMap model (Some (print_table groups tail)) alt_file ctr [] =
     Ok (Some (table_names 0 groups,
               MkIioContext model last (concat (imap (group_counters type (ctr_divider ctr)) groups))))) /\
  forall g cs r, g ∈ groups -> (cs, r) ∈ group_rows g ->
    (forall f n, (f, n) ∈ row_fields r -> ccr_get type f (row_register type r) = wrapN (field_width type f) (number_value n)) /\
    (forall f, f ∉ (row_fields r).*1 -> ccr_get type f (row_register type r) = 0).
Proof.
  intros Ht Hok. pose proof (table_lines_plain _ _ Hok) as Hlines. unfold table_fine in Hok. rewrite !andb_true_iff in Hok.
  destruct Hok as [[Hg Htail] Hnd]. apply bool_decide_eq_true in Hnd. split.
  - assert (Hr : reads model (ctr_divider ctr) (concat (map group_lines groups) ++ tail)
              (LoadState new_counter [] [] (MkIioContext model ctr []))
              (table_names 0 groups) (concat (imap (group_counters type (ctr_divider ctr)) groups))).
    { eapply reads_app; [|intros st; by apply read_comments].
      apply (read_groups model type Ht (ctr_divider ctr) groups _ [] []); [done|done|]. by exists new_counter, [], ctr. }
    destruct Hr as (st & E & c & hn & k & -> & _). exists k.
    unfold setupPCIeEventContextAndNameMap, load_events, print_table. cbn [mbind res_bind]. rewrite split_lines by done.
    by rewrite E.
  - intros g cs r Hgin Hcr. rewrite forallb_forall in Hg. specialize (Hg g (proj1 (list_elem_of_In _ _) Hgin)).
    unfold group_fine in Hg. rewrite !andb_true_iff in Hg. destruct Hg as [[_ Hrows] _].
    rewrite forallb_forall in Hrows. specialize (Hrows _ (proj1 (list_elem_of_In _ _) Hcr)). cbn [snd] in Hrows.
    unfold row_fine in Hrows. rewrite !andb_true_iff in Hrows. destruct Hrows as [_ [[_ Hf] Hfd]]. apply bool_decide_eq_true in Hfd.
    destruct (filled_register type (row_fields r) 0 ltac:(unfold fits; lia) Hf Hfd) as [Hout Hin]. split; [exact Hin|].
    intros f Hff. unfold row_register. rewrite (Hout f Hff). by destruct type, f.
Qed.

Definition example_table : list iio_group :=
  let hex n := Number true n in let dec n := Number false n in
  [IioGroup (lit "IB write")
     [([lit "# payload events"],
       IioRow (dec 0) [(EventSelect, hex 0x83); (Umask, hex 1); (Enable, dec 1); (ChMask, dec 1); (FcMask, hex 7)] (dec 4) (lit "Part0"));
      ([], IioRow (dec 1) [(EventSelect, hex 0x83); (Umask, hex 1); (Enable, dec 1); (ChMask, dec 2); (FcMask, hex 7)] (dec 4) (lit "Part1"))];
   IioGroup (lit "IOTLB Miss") [([], IioRow (dec 1) [(Enable, dec 1); (Umask, hex 0x20); (EventSelect, hex 0x40)] (dec 1) (lit "Total"))]].

Lemma event_table_read_back_witness :
  (exists last, setupPCIeEventContextAndNameMap ICX (Some (print_table example_table [lit "# end"])) None new_counter [] =
     Ok (Some (table_names 0 example_table,
               MkIioContext ICX last (concat (imap (group_counters ccr_icx 0) example_table))))) /\
  map ctr_ccr (concat (imap (group_counters ccr_icx 0) example_table)) = [0x7001000400183; 0x7002000400183; 0x402040].
Proof.
  split; [|reflexivity].
  exact (proj1 (event_table_read_back ICX ccr_icx example_table [lit "# end"] None new_counter eq_refl eq_refl)).
Defined.

(** In a file that is not grouped by name, a row whose name was entered before gets the
    number of the name that was entered last. *)
Lemma ungrouped_names_mixed :
  let lines := [lit "ctr=0,unit=iio,en=1,hname=A,vname=x"; lit "ctr=1,unit=iio,en=1,hname=B,vname=x";
                lit "ctr=2,unit=iio,en=1,hname=A,vname=y"] in
  match setupPCIeEventContextAndNameMap ICX (Some (concat (map (fun l => l ++ [LF]) lines))) None new_counter [] with
  | Ok (Some r) => map (fun c => (h_event_name c, h_id c)) (iio_ctrs r.2)
  | _ => []
  end = [(lit "A", 0); (lit "B", 1); (lit "A", 1)].
Proof. reflexivity. Qed.
